(* ===== verification/_CoqProject ===== *)
-Q . S2P
Prelude.v
Machine.v
BinaryReader.v
BinaryWriter.v
BinaryCodec.v
CString.v
Evaluator.v
IntEvaluator.v
IntSyntax.v
IntProperties.v
Base64.v
Time.v
RpcDecoder.v
FastRpcEncoder.v
FastRpcDecoder.v
FastRpc.v
Hash.v
HashSpec.v
Mem.v
Array.v
ArraySort.v
ArraySpec.v
Heap.v
DList.v
DListSpec.v
Avl.v
AvlTree.v
AvlBalance.v
AvlSearch.v
AvlRemove.v
AvlSubstitute.v
AvlDelete.v
AvlIter.v
AvlSpec.v
AvlProperties.v
BString.v
BStringRefs.v
BStringOps.v
BStringEdit.v
BStringRead.v
BStringSpec.v
BStringProperties.v
XmlRpcEncoder.v
XmlRpcDecoder.v
XmlRpcText.v
XmlRpcScalar.v
XmlRpc.v
XmlRpcTotal.v
StreamBuffer.v
StreamSpec.v
SqlDump.v
SqlSpec.v
QueueManager.v
QueueSafety.v
QueueLive.v
QueueRuns.v
QueueSpec.v
MMDefault.v
MMLists.v
MMInv.v
MMCarve.v
MMSteps.v
MMUser.v
MMThreads.v
MMSpec.v
StrData.v
StrDataRefs.v
StrDataOps.v
StrDataValues.v
StrFormat.v
StrFormatSpec.v
StrFormatNum.v
StrFormatOk.v
Strings.v
StringOps.v
StringSpec.v
StringProperties.v
StringIndex.v
StringIndexSpec.v
Variant.v
