(* ===== verification/Prelude.v ===== *)
(** * DR Toolkit: a verification library

    DR Toolkit is a C++ library of base classes. This development models the
    parts of it that carry logic of their own and proves what they promise.
    Operating systems, databases, windows and generated glue are left out; they
    are listed at the end.

    ** How the code is modelled

    A function that can fail returns [res]: a value, one of the exceptions of
    [xthrownew], a crash (an access outside an object, a failed assertion, a null
    pointer, an arithmetic trap), or the end of fuel. Calls on a state are
    actions [act S A]. Integers are [Z] with the wrapping of their width written
    out ([uwrap], [swrap] of Machine.v: [u8] ... [s64]); a byte is a [Z] below
    256. Pointers between nodes are addresses in a finite map (Heap.v), so that a
    freed node is not there any more; memory that is read with pointer
    arithmetic is a list of bytes and an index, and every access is checked.
    A virtual function, a comparator or a function of the C library whose text is
    not in the repository is an argument ([strtod], the printing of doubles).
    Loops that are not structural take fuel. Each is given enough by the function
    that calls it (the length of the memory, the number of nodes, the sum of the
    sizes), and the theorems about it show a result, so the fuel is not
    exhausted; XmlRpcTotal.v proves that by itself for arbitrary input.

    ** Files and the code they model

    - Prelude.v, Machine.v, CString.v, Heap.v: results, actions, tactics and
      lemmas; machine integers and memory; the C library's characters, [strtoll]
      and decimal output; heaps.
    - BinaryReader.v, BinaryWriter.v, BinaryCodec.v: core/parse Binary*. Readers
      are written against the class [CacheExtender], writers against
      [DirectWriter], as the C++ classes against their virtual functions.
    - Base64.v: core/parse MemBase64. Time.v: core/time Time. Mem.v: core/base
      Mem.
    - Evaluator.v, IntEvaluator.v, IntSyntax.v, IntProperties.v: core/eval, the
      operator-precedence parser over the interface of its expressions and
      tokenizer, and the integer evaluator on it.
    - Hash.v, HashSpec.v: core/struct Hash_c and THash. Array.v, ArraySort.v,
      ArraySpec.v: Array_c and SArray. DList.v, DListSpec.v: List_c and TList.
    - Avl.v, AvlTree.v, AvlBalance.v, AvlSearch.v, AvlRemove.v, AvlSubstitute.v,
      AvlDelete.v, AvlIter.v, AvlSpec.v, AvlProperties.v: Avl_c and TAvl, from
      the operations on parent pointers to the sorted map.
    - BString.v, BStringRefs.v, BStringOps.v, BStringEdit.v, BStringRead.v,
      BStringSpec.v, BStringProperties.v: core/types String_c for characters of a
      byte, on shared blocks with reference counts.
    - StrData.v, StrDataRefs.v, StrDataOps.v, StrDataValues.v: the data of
      core/types String (StrData): shared blocks that hold a text in bytes, in
      wide characters, or both, with their counts and what each operation does to
      the values held. Strings.v, StringOps.v: String on them, with replace,
      search, UTF-8 and appending. StringSpec.v, StringProperties.v: programs of
      calls as values. StrFormat.v, StrFormatSpec.v, StrFormatNum.v,
      StrFormatOk.v: its formatting, and what printf of C does.
    - StringIndex.v, StringIndexSpec.v: the hash table of the positions of
      strings in an array. Variant.v: core/cmodel Variant, the tagged union, its
      strings being blocks of that heap.
    - RpcDecoder.v: net/rpc RpcDecoder. FastRpcEncoder.v, FastRpcDecoder.v,
      FastRpc.v: net/rpc/fastrpc. XmlRpcEncoder.v, XmlRpcDecoder.v, XmlRpcText.v,
      XmlRpcScalar.v, XmlRpc.v, XmlRpcTotal.v: net/rpc/xmlrpc.
    - MMDefault.v, MMLists.v, MMInv.v, MMCarve.v, MMSteps.v, MMUser.v,
      MMThreads.v, MMSpec.v: core/mem MM_default on bytes of memory, first the
      code, then the owners of blocks, the lists, the parts of each operation,
      and any number of threads between them.
    - StreamBuffer.v, StreamSpec.v: io/stream StreamBuffer, over a class of what
      a handle does.
    - SqlDump.v, SqlSpec.v: the rules and the line filter of sql/sqldump_filt, on
      the evaluator. QueueManager.v, QueueSafety.v, QueueLive.v, QueueRuns.v,
      QueueSpec.v: its queue, with the main thread and the workers as a step
      relation: each critical section is a step, and signals, broadcasts and
      spurious wakeups are steps of their own choice.

    A definition has the name of the function it translates; a part of a function
    that is a definition of its own (the body of a loop, a branch) is named for
    what it does.

    ** What the theorems show

    - Refinement: every sequence of calls of THash is one of a finite map, of
      TAvl one of a sorted map, of TList and SArray one of lists, of String_c
      (but for a string appended to itself) one of values, whatever blocks are
      shared. So is every sequence of calls of String in which no character is lost
      from one form of a text to the other, and which avoids the cases that the
      code treats in a way of its own; they are listed at the theorem.
    - Equivalence: formatting prints what printf of C prints on the formats both
      have, reading lines from a buffered stream is splitting its contents, and
      equality of variants is equality of their characters, where strings are
      not compared across forms that lose some.
    - Functional: replace puts the text at every occurrence it goes through, an
      index of strings finds the last equal string, sorting sorts, the filter of
      the dump keeps the lines its rules keep.
    - Types: an operation on a variant reads the member that was stored, and its
      string within its blocks, but for the hash of texts and the destruction of
      arrays.
    - Invariants: the AVL tree stays balanced through every sequence of
      operations, and the reference counts of string blocks are the numbers of
      their owners, with nothing freed too early or kept.
    - Round trips: binary numbers, varints and blobs, base64, calendar dates,
      printed expressions, code points in UTF-8, messages of FastRpc and of XML-RPC
      with structures and arrays of any depth.
    - Safety: readers and writers stay in their memory, the evaluator never
      crashes but where an operator traps, the dump filter stays in its line unless
      it is too short for the words it is compared with; the allocator, with
      threads interleaved between the parts that its locks protect, gives out
      aligned blocks that do not overlap, touches none, and fails only where it
      writes to a block larger than 1024 bytes that malloc did not give.
    - Concurrency: the threads of the dump filter write the results in the order
      of the lines, lose no wakeup, cannot block each other and finish, in every
      interleaving.
    - Termination and cost: reading XML-RPC ends on any input, a search in a tree
      takes a logarithmic number of steps, a run of the dump filter a number
      that is linear in its lines.
    - Errors: where the code does not do what it is for, the theorem or example
      says what it does (freed memory read by [append], the traversal [run_g],
      negative integers and arrays in XML-RPC, truncated messages of FastRpc, the
      output lost and the wait without end of the dump filter, the memory behind
      its short lines, the null of malloc that is not seen, what formatting
      and the order and hash of variants return instead).

    ** Bounds

    Lengths are assumed to fit the width the code keeps them in where a theorem
    says so (32 bits for the bytes of SArray and the count of THash, 63 bits for
    string sizes, 2^28 characters for String, so that the products of
    two lengths in [replace] fit, and 2^59 objects in a program of strings, requests below 2^64 - 128 bytes
    for the allocator, so that no size wraps); inside these bounds nothing is
    assumed, and malloc may fail at any time. Formatting is compared with printf where
    its padding stays within the buffers of the code. XML-RPC carries
    integers that are not negative and twenty bytes of binary data at most: the
    code is wrong beyond.

    ** Not modelled

    Threads and atomics themselves, exceptions and their tables, the dispatch of
    the object model, emitters and message loops of core; the formats of WString
    and the converters between character sets, which use the platform's; files, sockets, HTTP and SNMP, which are system calls and
    other libraries; databases, XML documents, windows. In the modelled parts:
    [readVarString] and [writeVarString] of the binary codecs, [readValue] of
    RpcDecoder, [appendNumber] of a double, the constructors of StringIndex that
    read variable arguments, and the functions of Array and Hash that the manifest
    names. *)

From Stdlib Require Export ZArith Lia List Bool.
From stdpp Require Export base option list numbers.

#[global] Open Scope Z_scope.

(** ** Exceptions and abnormal outcomes *)

(** The exception classes thrown with [xthrownew] by the modelled code. *)
Inductive exn :=
| EndOfDataException
| InvalidFormatException
| OverflowException
| DataNotFoundException
| NoValueException
| TimeoutException
| MemException
| Exception
| OtherException.

(** Outcomes outside the contract of the language or of the object: an access
    outside an object, a failed [DR_Assert], a null dereference, a division by
    zero (or the overflowing division), a shift by a bad amount, a read of
    memory never set, a [memcpy] between overlapping objects, a [va_arg] of
    another type than the argument's, a read of a member of a union that was not
    stored last. *)
Inductive crash :=
| OutOfBounds
| AssertFailed
| NullDeref
| DivByZero
| BadShift
| Uninitialized
| BadCopy
| BadVararg
| BadMember.

(** [res A] is the outcome of a C++ call returning an [A]. [NoFuel] is the
    outcome of a fuelled loop that ran out of fuel; every component proves it
    does not happen with the fuel its definitions pass. *)
Inductive res (A : Type) : Type :=
| Ret (a : A)
| Exn (e : exn)
| Crash (c : crash)
| NoFuel.

Arguments Ret {A} _.
Arguments Exn {A} _.
Arguments Crash {A} _.
Arguments NoFuel {A}.

#[global] Instance exn_eq_dec : EqDecision exn.
Proof. solve_decision. Defined.
#[global] Instance crash_eq_dec : EqDecision crash.
Proof. solve_decision. Defined.
#[global] Instance res_eq_dec {A} `{EqDecision A} : EqDecision (res A).
Proof. solve_decision. Defined.

#[global] Instance res_ret : MRet res := fun A a => Ret a.
#[global] Instance res_bind : MBind res := fun A B f m =>
  match m with
  | Ret a => f a
  | Exn e => Exn e
  | Crash c => Crash c
  | NoFuel => NoFuel
  end.
#[global] Instance res_fmap : FMap res := fun A B f m =>
  match m with
  | Ret a => Ret (f a)
  | Exn e => Exn e
  | Crash c => Crash c
  | NoFuel => NoFuel
  end.

(** A C++ member function on a state [S]: state in, outcome and new state out.
    The state at a throw is not kept: a modelled caller never reads it. *)
Definition act (S A : Type) : Type := S -> res (A * S).

#[global] Instance act_ret S : MRet (act S) := fun A a s => Ret (a, s).
#[global] Instance act_bind S : MBind (act S) := fun A B f m s =>
  match m s with
  | Ret (a, s') => f a s'
  | Exn e => Exn e
  | Crash c => Crash c
  | NoFuel => NoFuel
  end.

Definition get {S} : act S S := fun s => Ret (s, s).
Definition put {S} (s : S) : act S unit := fun _ => Ret (tt, s).
Definition throw {S A} (e : exn) : act S A := fun _ => Exn e.
Definition lift {S A} (r : res A) : act S A := fun s =>
  match r with
  | Ret a => Ret (a, s)
  | Exn e => Exn e
  | Crash c => Crash c
  | NoFuel => NoFuel
  end.

(** ** Notations *)

Declare Scope dr_scope.
Delimit Scope dr_scope with dr.
Notation "'when' c 'throws' e ';;' k" := (if c then Exn e else k)
  (at level 100, c at level 99, e at level 99, k at level 200, right associativity) : dr_scope.
#[global] Open Scope dr_scope.

(** ** Tactics *)

(** Destructs the scrutinee of a match in the goal or in a hypothesis. *)
Ltac dmatch :=
  match goal with
  | |- context [match ?x with _ => _ end] => destruct x eqn:?
  | H : context [match ?x with _ => _ end] |- _ => destruct x eqn:?
  end.

(** Boolean comparisons on integers to propositions, everywhere. *)
Ltac bool_to_prop :=
  repeat match goal with
  | H : (_ && _)%bool = true |- _ => apply andb_prop in H; destruct H
  | H : (_ <? _) = true |- _ => apply Z.ltb_lt in H
  | H : (_ <? _) = false |- _ => apply Z.ltb_ge in H
  | H : (_ <=? _) = true |- _ => apply Z.leb_le in H
  | H : (_ <=? _) = false |- _ => apply Z.leb_gt in H
  | H : (_ =? _) = true |- _ => apply Z.eqb_eq in H
  | H : (_ =? _) = false |- _ => apply Z.eqb_neq in H
  end.

(** Decides the integer tests of the goal one by one, keeping the branches
    that are arithmetically possible. *)
Ltac ztest :=
  repeat match goal with
  | |- context [?a <? ?b] => destruct (Z.ltb_spec a b); try lia
  | |- context [?a <=? ?b] => destruct (Z.leb_spec a b); try lia
  | |- context [?a =? ?b] => destruct (Z.eqb_spec a b); try lia
  end.

(** Linear arithmetic with quotients and remainders by constants. *)
Ltac divlia := Z.to_euclidean_division_equations; lia.

(** ** Hint databases *)

Create HintDb dr discriminated.
Create Rewrite HintDb dr.

(** ** Lists *)

Lemma lookup_app_at {A} (l1 l2 : list A) (x : A) : (l1 ++ x :: l2) !! length l1 = Some x.
Proof. by rewrite lookup_app_r, Nat.sub_diag by lia. Qed.

Lemma drop_S_lookup {A} (l : list A) (i : nat) (x : A) (k : list A) :
  drop i l = x :: k -> l !! i = Some x /\ drop (S i) l = k.
Proof.
  revert i. induction l as [|y l IH]; intros [|i] H; simpl in *; try done.
  - by inv H.
  - by apply IH.
Qed.

Lemma drop_prefix {A} (l : list A) (i : nat) (l1 l2 : list A) :
  drop i l = l1 ++ l2 -> drop (i + length l1) l = l2.
Proof.
  intros H. by rewrite <- drop_drop, H, drop_app_length.
Qed.

Lemma take_prefix {A} (l : list A) (i : nat) (l1 l2 : list A) :
  drop i l = l1 ++ l2 -> take (length l1) (drop i l) = l1.
Proof. intros ->. by rewrite take_app_length. Qed.

Lemma drop_length_ge {A} (l : list A) (i : nat) (k : list A) :
  drop i l = k -> k <> [] -> (i < length l)%nat.
Proof.
  intros H Hk. destruct (decide (length l <= i)%nat); [|lia].
  rewrite drop_ge in H by done. by subst.
Qed.

Lemma Forall_repeat {A} (P : A -> Prop) (x : A) n : P x -> Forall P (repeat x n).
Proof. induction n; simpl; auto. Qed.

Lemma length_cons_inv {A} (x : A) (l : list A) (n : nat) : length (x :: l) = S n -> length l = n.
Proof. simpl. lia. Qed.
