(* ===== verification/Machine.v ===== *)
(** * Machine integers and byte strings

    Fixed-width integers are [Z] values; an operation of width [w] wraps its
    exact result with [uwrap w] (unsigned types [Uint8] ... [Uint64]) or
    [swrap w] (signed types). A byte string ([Blob], [BString], a [char *]
    buffer) is a [list Z] of values between 0 and 255. *)

From S2P Require Import Prelude.

Definition uwrap (w x : Z) : Z := x mod 2 ^ w.
Definition swrap (w x : Z) : Z := (x + 2 ^ (w - 1)) mod 2 ^ w - 2 ^ (w - 1).

Abbreviation u8 := (uwrap 8).
Abbreviation u16 := (uwrap 16).
Abbreviation u32 := (uwrap 32).
Abbreviation u64 := (uwrap 64).
Abbreviation s8 := (swrap 8).
Abbreviation s16 := (swrap 16).
Abbreviation s32 := (swrap 32).
Abbreviation s64 := (swrap 64).

Definition in_u (w x : Z) : Prop := 0 <= x < 2 ^ w.
Definition in_s (w x : Z) : Prop := - 2 ^ (w - 1) <= x < 2 ^ (w - 1).

#[global] Instance in_u_dec w x : Decision (in_u w x).
Proof. unfold in_u. apply _. Defined.
#[global] Instance in_s_dec w x : Decision (in_s w x).
Proof. unfold in_s. apply _. Defined.

Definition byte_ok (b : Z) : Prop := 0 <= b < 256.
Definition bytes_ok (l : list Z) : Prop := Forall byte_ok l.

#[global] Instance byte_ok_dec b : Decision (byte_ok b).
Proof. unfold byte_ok. apply _. Defined.
#[global] Instance bytes_ok_dec l : Decision (bytes_ok l).
Proof. unfold bytes_ok. apply _. Defined.

(** A C pointer dereference [base[i]] in a buffer of known extent. *)
Definition byte_at (mem : list Z) (i : Z) : res Z :=
  if i <? 0 then Crash OutOfBounds
  else match mem !! Z.to_nat i with Some b => Ret b | None => Crash OutOfBounds end.

(** A C store [base[i] = v] and a [memcpy] of [data] to [base+i]. *)
Definition byte_store (mem : list Z) (i v : Z) : res (list Z) :=
  if i <? 0 then Crash OutOfBounds
  else if Z.of_nat (length mem) <=? i then Crash OutOfBounds
  else Ret (<[Z.to_nat i := v]> mem).

Definition mem_store (mem : list Z) (i : Z) (data : list Z) : res (list Z) :=
  if i <? 0 then Crash OutOfBounds
  else if Z.of_nat (length mem) <? i + Z.of_nat (length data) then Crash OutOfBounds
  else Ret (take (Z.to_nat i) mem ++ data ++ drop (Z.to_nat i + length data) mem).

(** [n] bytes of [v], least significant first, and the inverse. *)
Fixpoint le_bytes (n : nat) (v : Z) : list Z :=
  match n with
  | O => []
  | S k => v mod 256 :: le_bytes k (v / 256)
  end.

Fixpoint le_value (l : list Z) : Z :=
  match l with
  | [] => 0
  | b :: t => b + 256 * le_value t
  end.

(** ** Wrapping *)

Lemma uwrap_range w x : 0 <= w -> in_u w (uwrap w x).
Proof. intros. apply Z.mod_pos_bound. by apply Z.pow_pos_nonneg. Qed.

Lemma uwrap_id w x : in_u w x -> uwrap w x = x.
Proof. intros. by apply Z.mod_small. Qed.

Lemma swrap_range w x : 0 < w -> in_s w (swrap w x).
Proof.
  intros. unfold in_s, swrap.
  pose proof (Z.mod_pos_bound (x + 2 ^ (w - 1)) (2 ^ w)) as H0.
  assert (2 ^ w = 2 * 2 ^ (w - 1)) by (rewrite <- Z.pow_succ_r by lia; f_equal; lia).
  assert (0 < 2 ^ (w - 1)) by (apply Z.pow_pos_nonneg; lia). lia.
Qed.

Lemma swrap_id w x : 0 < w -> in_s w x -> swrap w x = x.
Proof.
  unfold in_s, swrap. intros Hw H.
  assert (2 ^ w = 2 * 2 ^ (w - 1)) by (rewrite <- Z.pow_succ_r by lia; f_equal; lia).
  rewrite Z.mod_small; lia.
Qed.

Lemma swrap_uwrap w x : 0 < w -> swrap w (uwrap w x) = swrap w x.
Proof.
  intros. unfold swrap, uwrap. rewrite Zplus_mod_idemp_l. reflexivity.
Qed.

Lemma uwrap_swrap w x : 0 < w -> uwrap w (swrap w x) = uwrap w x.
Proof.
  intros. unfold swrap, uwrap.
  rewrite Zminus_mod_idemp_l. f_equal. lia.
Qed.

(** ** Checking a statement on all bytes *)

Definition all_bytes : list Z := seqZ 0 256.

Lemma all_bytes_forall (P : Z -> bool) :
  forallb P all_bytes = true -> forall b, byte_ok b -> P b = true.
Proof.
  intros H b Hb. rewrite forallb_forall in H. apply H.
  apply list_elem_of_In, elem_of_seqZ. unfold byte_ok in Hb. lia.
Qed.

(** ** Bytes *)

Lemma byte_at_ok mem i b : mem !! Z.to_nat i = Some b -> 0 <= i -> byte_at mem i = Ret b.
Proof. intros H Hi. unfold byte_at. by rewrite (proj2 (Z.ltb_ge _ _) Hi), H. Qed.

Lemma byte_at_oob mem i : Z.of_nat (length mem) <= i -> byte_at mem i = Crash OutOfBounds.
Proof.
  intros H. unfold byte_at. destruct (Z.ltb_spec i 0); [done|].
  rewrite lookup_ge_None_2; [done|]. lia.
Qed.

Lemma bytes_ok_app l1 l2 : bytes_ok (l1 ++ l2) <-> bytes_ok l1 /\ bytes_ok l2.
Proof. apply Forall_app. Qed.

Lemma bytes_ok_cons b l : bytes_ok (b :: l) <-> byte_ok b /\ bytes_ok l.
Proof. apply Forall_cons_iff. Qed.

Lemma le_bytes_length n v : length (le_bytes n v) = n.
Proof. revert v. induction n; simpl; auto. Qed.

Lemma le_bytes_ok n v : bytes_ok (le_bytes n v).
Proof.
  revert v. induction n as [|n IH]; intros v; simpl; [constructor|].
  constructor; [|apply IH]. apply Z.mod_pos_bound. lia.
Qed.

Lemma pow256_S n : 2 ^ (8 * Z.of_nat (S n)) = 256 * 2 ^ (8 * Z.of_nat n).
Proof.
  replace (8 * Z.of_nat (S n)) with (8 + 8 * Z.of_nat n) by lia.
  rewrite Z.pow_add_r by lia. reflexivity.
Qed.

Lemma le_value_bytes n v : le_value (le_bytes n v) = v mod 2 ^ (8 * Z.of_nat n).
Proof.
  revert v. induction n as [|n IH]; intros v; [simpl; by rewrite Z.mod_1_r|].
  cbn [le_bytes le_value]. rewrite IH, pow256_S.
  rewrite Z.rem_mul_r by (try apply Z.pow_pos_nonneg; lia). reflexivity.
Qed.

Lemma le_value_range l : bytes_ok l -> 0 <= le_value l < 2 ^ (8 * Z.of_nat (length l)).
Proof.
  induction 1 as [|b l Hb _ IH]; [simpl; lia|].
  unfold byte_ok in Hb. cbn [le_value length]. rewrite pow256_S. lia.
Qed.

Lemma le_bytes_value l : bytes_ok l -> le_bytes (length l) (le_value l) = l.
Proof.
  induction 1 as [|b l Hb _ IH]; [done|]. unfold byte_ok in Hb.
  cbn [le_value length le_bytes].
  replace (b + 256 * le_value l) with (le_value l * 256 + b) by lia.
  rewrite Z.div_add_l, (Z.div_small b), Z.add_0_r, IH by lia.
  f_equal. rewrite Z.add_comm, Z.mod_add, Z.mod_small; lia.
Qed.

Lemma le_bytes_mod n v : le_bytes n (v mod 2 ^ (8 * Z.of_nat n)) = le_bytes n v.
Proof.
  rewrite <- le_value_bytes.
  rewrite <- (le_bytes_length n v) at 1. apply le_bytes_value, le_bytes_ok.
Qed.

(** ** Bit fields *)

Lemma testbit_small a n i : 0 <= a < 2 ^ n -> n <= i -> Z.testbit a i = false.
Proof.
  intros Ha Hi. destruct (decide (a = 0)) as [->|]; [apply Z.bits_0|].
  apply Z.bits_above_log2; [lia|]. apply Z.log2_lt_pow2; [lia|].
  eapply Z.lt_le_trans; [apply Ha|]. apply Z.pow_le_mono_r; lia.
Qed.

Lemma lor_shift_add a b n : 0 <= n -> 0 <= a < 2 ^ n -> Z.lor a (Z.shiftl b n) = a + b * 2 ^ n.
Proof.
  intros Hn Ha. rewrite <- (Z.shiftl_mul_pow2 b n) by done.
  rewrite <- Z.add_lor_land.
  enough (Z.land a (Z.shiftl b n) = 0) as -> by lia.
  apply Z.bits_inj'. intros i Hi. rewrite Z.land_spec, Z.bits_0.
  destruct (Z.lt_ge_cases i n).
  - rewrite (Z.shiftl_spec_low b n i) by done. apply andb_false_r.
  - by rewrite (testbit_small a n i).
Qed.

Lemma shiftl_range b n w : 0 <= n -> 0 <= b < 2 ^ (w - n) -> n <= w -> 0 <= Z.shiftl b n < 2 ^ w.
Proof.
  intros. rewrite Z.shiftl_mul_pow2 by done.
  assert (2 ^ w = 2 ^ (w - n) * 2 ^ n) as -> by (rewrite <- Z.pow_add_r by lia; f_equal; lia).
  pose proof (Z.pow_pos_nonneg 2 n). nia.
Qed.

Lemma uwrap_shiftl w b n : 0 <= n -> n + 8 <= w -> byte_ok b -> uwrap w (Z.shiftl b n) = Z.shiftl b n.
Proof.
  intros. apply uwrap_id, shiftl_range; [lia| |lia]. split; [apply H1|].
  eapply Z.lt_le_trans; [apply H1|]. change 256 with (2 ^ 8). apply Z.pow_le_mono_r; lia.
Qed.

#[export] Hint Resolve le_bytes_ok swrap_range uwrap_range : dr.
#[export] Hint Rewrite le_bytes_length : dr.

(** ** Signed ranges and bit operations *)

Lemma in_s_shiftr w x : 0 < w -> in_s w x <-> Z.shiftr x (w - 1) = 0 \/ Z.shiftr x (w - 1) = -1.
Proof.
  intros Hw. unfold in_s. rewrite Z.shiftr_div_pow2 by lia.
  pose proof (Z.pow_pos_nonneg 2 (w - 1)). pose proof (Z.div_mod x (2 ^ (w - 1))).
  pose proof (Z.mod_pos_bound x (2 ^ (w - 1))).
  split; [|nia]. intros Hx. assert (-1 <= x / 2 ^ (w - 1) < 1); [|lia].
  split; [apply Z.div_le_lower_bound|apply Z.div_lt_upper_bound]; lia.
Qed.

Lemma in_s_lor w a b : 0 < w -> in_s w a -> in_s w b -> in_s w (Z.lor a b).
Proof.
  intros Hw. rewrite !in_s_shiftr, Z.shiftr_lor by done. intros [-> | ->] [-> | ->]; simpl; auto.
Qed.

Lemma in_s_land w a b : 0 < w -> in_s w a -> in_s w b -> in_s w (Z.land a b).
Proof.
  intros Hw. rewrite !in_s_shiftr, Z.shiftr_land by done. intros [-> | ->] [-> | ->]; simpl; auto.
Qed.

Lemma in_s_lxor w a b : 0 < w -> in_s w a -> in_s w b -> in_s w (Z.lxor a b).
Proof.
  intros Hw. rewrite !in_s_shiftr, Z.shiftr_lxor by done. intros [-> | ->] [-> | ->]; simpl; auto.
Qed.

Lemma in_s_lnot w a : in_s w a -> in_s w (Z.lnot a).
Proof. unfold in_s, Z.lnot. lia. Qed.

Lemma in_s_asr w a n : 0 < w -> 0 <= n -> in_s w a -> in_s w (Z.shiftr a n).
Proof.
  unfold in_s. intros Hw Hn Ha. rewrite Z.shiftr_div_pow2 by done.
  pose proof (Z.pow_pos_nonneg 2 n). pose proof (Z.pow_pos_nonneg 2 (w - 1)).
  split; [apply Z.div_le_lower_bound; nia|apply Z.div_lt_upper_bound; nia].
Qed.

Lemma in_s_b2z w b : 1 < w -> in_s w (Z.b2z b).
Proof.
  intros Hw. unfold in_s. pose proof (Z.pow_gt_1 2 (w - 1)). destruct b; simpl; lia.
Qed.

Lemma in_s_quot w a b : 0 < w -> in_s w a -> b <> 0 -> (a = - 2 ^ (w - 1) -> b <> -1) -> in_s w (Z.quot a b).
Proof.
  unfold in_s. intros Hw Ha Hb Hm. pose proof (Z.pow_pos_nonneg 2 (w - 1)).
  pose proof (Z.quot_abs a b Hb) as Hq.
  assert (Z.abs a ÷ Z.abs b <= Z.abs a) by (apply Z.quot_le_upper_bound; nia).
  assert (Z.abs b = 1 \/ 2 <= Z.abs b) as [Hb1|Hb2] by lia.
  - rewrite Hb1, Z.quot_1_r in *. destruct (decide (b = 1)) as [->|]; [rewrite Z.quot_1_r; lia|].
    assert (b = -1) as -> by lia. change (-1) with (- (1)). rewrite Z.quot_opp_r, Z.quot_1_r by done. lia.
  - assert (Z.abs a ÷ Z.abs b < 2 ^ (w - 1)) as Hlt; [|lia].
    apply Z.quot_lt_upper_bound; nia.
Qed.

#[export] Hint Resolve in_s_lor in_s_land in_s_lxor in_s_lnot in_s_b2z swrap_range : dr.

Lemma uwrap_testbit w x i : 0 <= i < w -> Z.testbit (uwrap w x) i = Z.testbit x i.
Proof. intros. unfold uwrap. apply Z.mod_pow2_bits_low. lia. Qed.

Lemma swrap_testbit w x i : 0 <= i < w -> Z.testbit (swrap w x) i = Z.testbit x i.
Proof.
  intros. rewrite <- (uwrap_testbit w (swrap w x) i), uwrap_swrap by lia. by apply uwrap_testbit.
Qed.

(** Two signed values with the same low bits are the same. *)
Lemma in_s_ext w a b : 0 < w -> in_s w a -> in_s w b ->
  (forall i, 0 <= i < w -> Z.testbit a i = Z.testbit b i) -> a = b.
Proof.
  intros Hw Ha Hb He. rewrite <- (swrap_id w a), <- (swrap_id w b), <- (swrap_uwrap w a), <- (swrap_uwrap w b) by done.
  f_equal. apply Z.bits_inj'. intros i Hi. destruct (Z.lt_ge_cases i w).
  - rewrite !uwrap_testbit by lia. apply He. lia.
  - unfold uwrap. by rewrite !Z.mod_pow2_bits_high by lia.
Qed.

(** ** Buffers taken apart *)

Lemma byte_at_app pre l i : 0 <= i -> byte_at (pre ++ l) (Z.of_nat (length pre) + i) = byte_at l i.
Proof.
  intros Hi. unfold byte_at. destruct (Z.ltb_spec (Z.of_nat (length pre) + i) 0); [lia|].
  destruct (Z.ltb_spec i 0); [lia|]. rewrite lookup_app_r by lia.
  by replace (Z.to_nat (Z.of_nat (length pre) + i) - length pre)%nat with (Z.to_nat i) by lia.
Qed.

Lemma byte_at_app_0 pre x l : byte_at (pre ++ x :: l) (Z.of_nat (length pre)) = Ret x.
Proof. rewrite <- (Z.add_0_r (Z.of_nat _)). by rewrite byte_at_app. Qed.

Lemma mem_store_app pre old new post : length old = length new ->
  mem_store (pre ++ old ++ post) (Z.of_nat (length pre)) new = Ret (pre ++ new ++ post).
Proof.
  intros Hl. unfold mem_store. destruct (Z.ltb_spec (Z.of_nat (length pre)) 0); [lia|].
  rewrite !length_app. case_match eqn:E; bool_to_prop; [lia|].
  rewrite Nat2Z.id, take_app_length, <- Hl.
  by rewrite <- drop_drop, drop_app_length, drop_app_length.
Qed.

(** [memcpy] from [base+i] of [n] bytes, as the list of the bytes read. *)
Definition mem_range (mem : list Z) (i n : Z) : res (list Z) :=
  if (i <? 0) || (n <? 0) then Crash OutOfBounds
  else if Z.of_nat (length mem) <? i + n then Crash OutOfBounds
  else Ret (take (Z.to_nat n) (drop (Z.to_nat i) mem)).

Lemma mem_range_app pre l post : mem_range (pre ++ l ++ post) (Z.of_nat (length pre)) (Z.of_nat (length l)) = Ret l.
Proof.
  unfold mem_range. destruct (Z.ltb_spec (Z.of_nat (length pre)) 0); [lia|].
  destruct (Z.ltb_spec (Z.of_nat (length l)) 0); [lia|]. simpl orb. cbv iota. rewrite !length_app.
  destruct (Z.ltb_spec (Z.of_nat (length pre + (length l + length post))) (Z.of_nat (length pre) + Z.of_nat (length l))); [lia|].
  by rewrite !Nat2Z.id, drop_app_length, take_app_length.
Qed.

Lemma swrap_add_l w x y : 0 < w -> swrap w (swrap w x + y) = swrap w (x + y).
Proof.
  intros Hw. rewrite <- (swrap_uwrap w (swrap w x + y)), <- (swrap_uwrap w (x + y)) by done. f_equal.
  unfold uwrap. rewrite <- (Zplus_mod_idemp_l (swrap w x)), <- (Zplus_mod_idemp_l x). f_equal. f_equal.
  by apply uwrap_swrap.
Qed.

Lemma take_le_bytes k n v : (k <= n)%nat -> take k (le_bytes n v) = le_bytes k v.
Proof.
  revert n v. induction k as [|k IH]; intros [|n] v H; try done; [lia|]. simpl. f_equal. apply IH. lia.
Qed.

Lemma le_bytes_uwrap k n v : (k <= n)%nat -> le_bytes k (uwrap (8 * Z.of_nat n) v) = le_bytes k v.
Proof.
  intros H. rewrite <- !(take_le_bytes k n) by done. f_equal. apply le_bytes_mod.
Qed.
