(* ===== verification/BinaryReader.v ===== *)
(** * core/parse: BinaryReader and BinaryMemReader

    A reader is a block of memory with the pointers [cache_pos] and
    [cache_end] into it. The operations of [BinaryReader] are written against
    the abstract [extendCache] (class [CacheExtender]); [BinaryMemReader] is
    its instance. Native order is little endian (the byte order of the
    supported x86 and arm targets). *)

From S2P Require Import Prelude Machine.

Record reader := mk_reader {
  cache : list Z;        (* the memory cache_pos and cache_end point into *)
  cache_pos : Z;
  cache_end : Z;
}.

(** The bytes between the two pointers. *)
Definition unread (st : reader) : list Z :=
  take (Z.to_nat (cache_end st - cache_pos st)) (drop (Z.to_nat (cache_pos st)) (cache st)).

Definition reader_ok (st : reader) : Prop :=
  0 <= cache_pos st <= cache_end st /\ cache_end st <= Z.of_nat (length (cache st)) < 2 ^ 63 /\
  bytes_ok (cache st).

(** ** The interface a concrete reader implements *)

Class CacheExtender := extendCache : Z -> act reader unit.

(** What [extendCache] promises: on return the requested bytes are there, the
    reader is well formed and nothing unread was lost. *)
Class CacheExtenderOk (E : CacheExtender) := extendCache_ok : forall n st,
  reader_ok st -> 0 <= n ->
  match extendCache n st with
  | Ret (_, st') => reader_ok st' /\ n <= cache_end st' - cache_pos st' /\ unread st `prefix_of` unread st'
  | Exn _ => True
  | Crash _ | NoFuel => False
  end.

Section BinaryReader.
Context {E : CacheExtender}.

Definition needBytes (needbytes : Z) : act reader unit := fun st =>
  if u64 (cache_end st - cache_pos st) <? needbytes then extendCache needbytes st else Ret (tt, st).

(** [cache_pos += n] *)
Definition advance (n : Z) : act reader unit := fun st =>
  Ret (tt, mk_reader (cache st) (cache_pos st + n) (cache_end st)).

(** [cache_pos[i]] *)
Definition peek (i : Z) : act reader Z := fun st =>
  b ← byte_at (cache st) (cache_pos st + i); Ret (b, st).

(** [memcpy] of the [n] bytes from [cache_pos+i] on. *)
Fixpoint peeks (n : nat) (i : Z) : act reader (list Z) :=
  match n with
  | O => mret []
  | S k => b ← peek i; l ← peeks k (i + 1); mret (b :: l)
  end.

Definition readNat8 : act reader Z :=
  needBytes 1;; advance 1;; b ← peek (-1); mret (u8 (Z.shiftl b 0)).

Definition readNat16 : act reader Z :=
  needBytes 2;; advance 2;; l ← peeks 2 (-2); mret (le_value l).

Definition readNat32 : act reader Z :=
  needBytes 4;; advance 4;; l ← peeks 4 (-4); mret (le_value l).

Definition readNat64 : act reader Z :=
  needBytes 8;; advance 8;; l ← peeks 8 (-8); mret (le_value l).

Definition readLe8 : act reader Z :=
  needBytes 1;; advance 1;; b ← peek (-1); mret (u8 (Z.shiftl b 0)).

Definition readLe16 : act reader Z :=
  needBytes 2;; advance 2;;
  b0 ← peek (-2); b1 ← peek (-1);
  mret (Z.lor (u16 (Z.shiftl b0 0)) (u16 (Z.shiftl b1 8))).

Definition readLe32 : act reader Z :=
  needBytes 4;; advance 4;;
  b0 ← peek (-4); b1 ← peek (-3); b2 ← peek (-2); b3 ← peek (-1);
  mret (Z.lor (Z.lor (Z.lor (u32 (Z.shiftl b0 0)) (u32 (Z.shiftl b1 8)))
    (u32 (Z.shiftl b2 16))) (u32 (Z.shiftl b3 24))).

Definition readLe64 : act reader Z :=
  needBytes 8;; advance 8;;
  b0 ← peek (-8); b1 ← peek (-7); b2 ← peek (-6); b3 ← peek (-5);
  b4 ← peek (-4); b5 ← peek (-3); b6 ← peek (-2); b7 ← peek (-1);
  mret (Z.lor (Z.lor (Z.lor (Z.lor (Z.lor (Z.lor (Z.lor (u64 (Z.shiftl b0 0)) (u64 (Z.shiftl b1 8)))
    (u64 (Z.shiftl b2 16))) (u64 (Z.shiftl b3 24))) (u64 (Z.shiftl b4 32)))
    (u64 (Z.shiftl b5 40))) (u64 (Z.shiftl b6 48))) (u64 (Z.shiftl b7 56))).

Definition readBe8 : act reader Z :=
  needBytes 1;; advance 1;; b ← peek (-1); mret (u8 (Z.shiftl b 0)).

Definition readBe16 : act reader Z :=
  needBytes 2;; advance 2;;
  b0 ← peek (-1); b1 ← peek (-2);
  mret (Z.lor (u16 (Z.shiftl b0 0)) (u16 (Z.shiftl b1 8))).

Definition readBe32 : act reader Z :=
  needBytes 4;; advance 4;;
  b0 ← peek (-1); b1 ← peek (-2); b2 ← peek (-3); b3 ← peek (-4);
  mret (Z.lor (Z.lor (Z.lor (u32 (Z.shiftl b0 0)) (u32 (Z.shiftl b1 8)))
    (u32 (Z.shiftl b2 16))) (u32 (Z.shiftl b3 24))).

Definition readBe64 : act reader Z :=
  needBytes 8;; advance 8;;
  b0 ← peek (-1); b1 ← peek (-2); b2 ← peek (-3); b3 ← peek (-4);
  b4 ← peek (-5); b5 ← peek (-6); b6 ← peek (-7); b7 ← peek (-8);
  mret (Z.lor (Z.lor (Z.lor (Z.lor (Z.lor (Z.lor (Z.lor (u64 (Z.shiftl b0 0)) (u64 (Z.shiftl b1 8)))
    (u64 (Z.shiftl b2 16))) (u64 (Z.shiftl b3 24))) (u64 (Z.shiftl b4 32)))
    (u64 (Z.shiftl b5 40))) (u64 (Z.shiftl b6 48))) (u64 (Z.shiftl b7 56))).

(** The loop of the two varint readers: [w] is the width of [result],
    [limit] the value above which it refuses to go on. *)
Fixpoint readVarint_loop (fuel : nat) (w limit result : Z) : act reader Z :=
  match fuel with
  | O => fun _ => NoFuel
  | S fuel =>
    needBytes 1;;
    if limit <=? result then throw OverflowException
    else
      b ← peek 0;
      if b <? 0x80 then
        advance 1;; mret (uwrap w (uwrap w (result * 128) + b))
      else
        advance 1;;
        readVarint_loop fuel w limit (uwrap w (uwrap w (result * 128) + Z.land b 0x7f))
  end.

Definition readVarint32 (fuel : nat) : act reader Z := readVarint_loop fuel 32 0x200000 0.

Definition readVarint64 (fuel : nat) : act reader Z :=
  readVarint_loop fuel 64 (u64 (Z.shiftl 0x200000 32)) 0.

Definition readBytes (count : Z) : act reader (list Z) :=
  needBytes count;; advance count;; peeks (Z.to_nat count) (- count).

Definition readVarBlob (fuel : nat) (max_size : Z) : act reader (list Z) :=
  size ← readVarint64 fuel;
  if max_size <? size then throw OverflowException
  else readBytes size.

End BinaryReader.

(** ** BinaryMemReader *)

Module BinaryMemReader.
Definition create (data : list Z) : reader := mk_reader data 0 (Z.of_nat (length data)).

Definition isEnd (st : reader) : bool := cache_pos st =? cache_end st.

#[global] Instance extendCache : CacheExtender := fun needbytes st =>
  if u64 (cache_end st - cache_pos st) <? needbytes then Exn EndOfDataException
  else Ret (tt, st).
End BinaryMemReader.

(** ** The window of unread bytes *)

Definition moved (n : Z) (st : reader) : reader :=
  mk_reader (cache st) (cache_pos st + n) (cache_end st).

Lemma unread_create data : unread (BinaryMemReader.create data) = data.
Proof.
  unfold unread. simpl. rewrite drop_0, Z.sub_0_r, Nat2Z.id. by apply take_ge.
Qed.

Lemma reader_ok_create data :
  bytes_ok data -> Z.of_nat (length data) < 2 ^ 63 -> reader_ok (BinaryMemReader.create data).
Proof. intros. split_and!; simpl; auto; lia. Qed.

Lemma unread_length st : reader_ok st -> Z.of_nat (length (unread st)) = cache_end st - cache_pos st.
Proof.
  intros (? & ? & ?). unfold unread. rewrite length_take, length_drop. lia.
Qed.

Lemma unread_moved st l k :
  reader_ok st -> unread st = l ++ k ->
  reader_ok (moved (Z.of_nat (length l)) st) /\ unread (moved (Z.of_nat (length l)) st) = k.
Proof.
  intros Hok Hu. pose proof (unread_length st Hok) as Hlen.
  rewrite Hu, length_app in Hlen. destruct Hok as (? & ? & ?).
  split; [split_and!; simpl; auto; lia|].
  unfold unread in *. simpl.
  apply (f_equal (drop (length l))) in Hu. rewrite drop_app_length, skipn_firstn_comm, drop_drop in Hu.
  rewrite <- Hu. f_equal; [lia|]. f_equal. lia.
Qed.

Lemma peek_moved st l k j b :
  reader_ok st -> unread st = l ++ k ->
  - Z.of_nat (length l) <= j < 0 -> l !! Z.to_nat (Z.of_nat (length l) + j) = Some b ->
  peek j (moved (Z.of_nat (length l)) st) = Ret (b, moved (Z.of_nat (length l)) st).
Proof.
  intros Hok Hu Hj Hb. unfold peek. simpl.
  rewrite (byte_at_ok _ _ b); [done| |unfold reader_ok in Hok; lia].
  destruct Hok as (? & ? & ?).
  assert (unread st !! Z.to_nat (Z.of_nat (length l) + j) = Some b) as Hl.
  { rewrite Hu. by apply lookup_app_l_Some. }
  unfold unread in Hl. apply lookup_take_Some in Hl. destruct Hl as [Hl _].
  rewrite lookup_drop in Hl. rewrite <- Hl. f_equal. lia.
Qed.

(** [peeks n (-n)] after moving past [l] gives [l] back. *)
Lemma peeks_moved_suffix st l1 l2 k :
  reader_ok st -> unread st = (l1 ++ l2) ++ k ->
  peeks (length l2) (- Z.of_nat (length l2)) (moved (Z.of_nat (length (l1 ++ l2))) st)
  = Ret (l2, moved (Z.of_nat (length (l1 ++ l2))) st).
Proof.
  intros Hok. revert l1. induction l2 as [|b l2 IH]; intros l1 Hu; [done|].
  cbn [peeks length]. unfold mbind, act_bind.
  rewrite length_app. cbn [length].
  pose proof (peek_moved st (l1 ++ b :: l2) k (- Z.of_nat (S (length l2))) b Hok Hu) as Hp.
  rewrite length_app in Hp. cbn [length] in Hp. rewrite Hp; [|lia|].
  - specialize (IH (l1 ++ [b])).
    replace (- Z.of_nat (S (length l2)) + 1) with (- Z.of_nat (length l2)) by lia.
    rewrite !length_app in IH. cbn [length] in IH.
    replace (length l1 + S (length l2))%nat with (length l1 + 1 + length l2)%nat by lia.
    rewrite IH; [done|]. rewrite <- !app_assoc in *. done.
  - replace (Z.to_nat _) with (length l1) by lia. apply lookup_app_at.
Qed.

Lemma peeks_moved st l k :
  reader_ok st -> unread st = l ++ k ->
  peeks (length l) (- Z.of_nat (length l)) (moved (Z.of_nat (length l)) st)
  = Ret (l, moved (Z.of_nat (length l)) st).
Proof. intros Hok Hu. by apply (peeks_moved_suffix st [] l k). Qed.

(** [needBytes] asks the reader for more exactly when the window is short. *)
Lemma needBytes_spec {E : CacheExtender} st n :
  reader_ok st -> 0 <= n ->
  needBytes n st = if Z.of_nat (length (unread st)) <? n then extendCache n st else Ret (tt, st).
Proof.
  intros Hok Hn. unfold needBytes. rewrite (unread_length st Hok).
  destruct Hok as (? & ? & ?). by rewrite uwrap_id by (unfold in_u; lia).
Qed.

(** ** Fixed-size reads

    [body_reads n m f]: once [n] bytes are available, [m] consumes them and
    returns [f] of them. *)

Definition body_reads {A} (n : nat) (m : act reader A) (f : list Z -> A) : Prop :=
  forall st l k, reader_ok st -> unread st = l ++ k -> length l = n ->
    m st = Ret (f l, moved (Z.of_nat n) st).

Lemma body_reads_split {A} n (m : act reader A) f st :
  body_reads n m f -> reader_ok st -> (n <= length (unread st))%nat ->
  m st = Ret (f (take n (unread st)), moved (Z.of_nat n) st) /\
  reader_ok (moved (Z.of_nat n) st) /\ unread (moved (Z.of_nat n) st) = drop n (unread st).
Proof.
  intros Hm Hok Hn.
  assert (unread st = take n (unread st) ++ drop n (unread st)) as Hu by (by rewrite take_drop).
  assert (length (take n (unread st)) = n) as Hl by (rewrite length_take; lia).
  split; [by eapply Hm|]. pose proof (unread_moved st _ _ Hok Hu) as H. by rewrite Hl in H.
Qed.

Lemma peek_at st l k n j b :
  reader_ok st -> unread st = l ++ k -> n = Z.of_nat (length l) ->
  - n <= j < 0 -> l !! Z.to_nat (n + j) = Some b -> peek j (moved n st) = Ret (b, moved n st).
Proof. intros ? ? ->. by apply peek_moved with (k := k). Qed.

Lemma unread_bytes st l k : reader_ok st -> unread st = l ++ k -> bytes_ok l /\ bytes_ok k.
Proof.
  intros Hok Hu. apply bytes_ok_app. rewrite <- Hu.
  apply Forall_take, Forall_drop, Hok.
Qed.

(** Splits the byte list [l] of known length into its bytes. *)
Ltac split_bytes l Hl :=
  lazymatch type of Hl with
  | length l = S _ =>
    let b := fresh "b" in let k := fresh "l" in let Hk := fresh "Hl" in
    destruct l as [|b k]; [discriminate Hl|];
    pose proof (length_cons_inv _ _ _ Hl) as Hk; clear Hl; split_bytes k Hk
  | length l = O => apply nil_length_inv in Hl; subst l
  end.

(** Runs the peeks of a fixed-size read once the bytes are split. *)
Ltac run_peeks st :=
  unfold mbind, act_bind, mret, act_ret, advance;
  repeat match goal with
  | |- context [mk_reader (cache st) (cache_pos st + ?n) (cache_end st)] =>
    change (mk_reader (cache st) (cache_pos st + n) (cache_end st)) with (moved n st)
  | Hok : reader_ok st, Hu : unread st = ?l ++ ?k |- context [peek ?j (moved ?n st)] =>
    rewrite (peek_at st l k n j _ Hok Hu) by first [reflexivity | cbn; lia]
  end.

Lemma or_bytes w b x n :
  n + 8 <= w -> 0 <= n -> 0 <= x < 2 ^ n -> byte_ok b ->
  Z.lor x (uwrap w (Z.shiftl b n)) = x + b * 2 ^ n.
Proof. intros. rewrite uwrap_shiftl, lor_shift_add by done. done. Qed.

Lemma uwrap_byte w b : 8 <= w -> byte_ok b -> uwrap w b = b.
Proof.
  intros Hw Hb. apply uwrap_id. split; [apply Hb|]. eapply Z.lt_le_trans; [apply Hb|].
  change 256 with (2 ^ 8). apply Z.pow_le_mono_r; lia.
Qed.

(** Turns the [lor] of shifted bytes into a sum. *)
Ltac or_bytes_all :=
  rewrite ?Z.shiftl_0_r;
  repeat match goal with
  | |- context [uwrap ?w (Z.shiftl ?b 0)] => rewrite (Z.shiftl_0_r b)
  | Hb : byte_ok ?b |- context [uwrap ?w ?b] => rewrite (uwrap_byte w b) by first [assumption | lia]
  | |- context [Z.lor ?x (uwrap ?w (Z.shiftl ?b ?n))] =>
    rewrite (or_bytes w b x n) by first [assumption | lia | unfold byte_ok in *; cbn; lia]
  end.

Ltac fixed_read :=
  intros st l k Hok Hu Hl; destruct (unread_bytes st l k Hok Hu) as [Hb _];
  split_bytes l Hl; unfold bytes_ok in Hb; rewrite ?Forall_cons_iff in Hb;
  destruct_and? Hb; run_peeks st; do 2 f_equal;
  or_bytes_all; cbn [le_value rev app]; cbn; lia.

(** The body of each fixed-size read: what follows [needBytes]. *)
Definition fixed_body {E : CacheExtender} {A} (n : nat) (m : act reader A) (f : list Z -> A) : Prop :=
  exists body, (forall st, m st = (needBytes (Z.of_nat n);; body) st) /\ body_reads n body f.

Ltac fixed_body := eexists; split; [reflexivity|]; fixed_read.

Section FixedBodies.
Context {E : CacheExtender}.

Lemma readLe8_body : fixed_body 1 readLe8 le_value.
Proof. fixed_body. Qed.
Lemma readLe16_body : fixed_body 2 readLe16 le_value.
Proof. fixed_body. Qed.
Lemma readLe32_body : fixed_body 4 readLe32 le_value.
Proof. fixed_body. Qed.
Lemma readLe64_body : fixed_body 8 readLe64 le_value.
Proof. fixed_body. Qed.
Lemma readBe8_body : fixed_body 1 readBe8 (fun l => le_value (rev l)).
Proof. fixed_body. Qed.
Lemma readBe16_body : fixed_body 2 readBe16 (fun l => le_value (rev l)).
Proof. fixed_body. Qed.
Lemma readBe32_body : fixed_body 4 readBe32 (fun l => le_value (rev l)).
Proof. fixed_body. Qed.
Lemma readBe64_body : fixed_body 8 readBe64 (fun l => le_value (rev l)).
Proof. fixed_body. Qed.
Lemma readNat8_body : fixed_body 1 readNat8 le_value.
Proof. fixed_body. Qed.

Lemma peeks_body (n : nat) : body_reads n (advance (Z.of_nat n);; peeks n (- Z.of_nat n)) (fun l => l).
Proof. intros st l k Hok Hu <-. by apply (peeks_moved st l k). Qed.

Lemma peeks_value_body (n : nat) :
  body_reads n (advance (Z.of_nat n);; l ← peeks n (- Z.of_nat n); mret (le_value l)) le_value.
Proof.
  intros st l k Hok Hu Hl. pose proof (peeks_body n st l k Hok Hu Hl) as Hp.
  unfold mbind, act_bind, advance in *. by rewrite Hp.
Qed.

Lemma readNat16_body : fixed_body 2 readNat16 le_value.
Proof. eexists; split; [reflexivity|]. apply (peeks_value_body 2). Qed.
Lemma readNat32_body : fixed_body 4 readNat32 le_value.
Proof. eexists; split; [reflexivity|]. apply (peeks_value_body 4). Qed.
Lemma readNat64_body : fixed_body 8 readNat64 le_value.
Proof. eexists; split; [reflexivity|]. apply (peeks_value_body 8). Qed.

Lemma readBytes_body (n : nat) : fixed_body n (readBytes (Z.of_nat n)) (fun l => l).
Proof.
  exists (advance (Z.of_nat n);; peeks n (- Z.of_nat n)). split; [|apply peeks_body].
  intros st. unfold readBytes. by rewrite Nat2Z.id.
Qed.
End FixedBodies.

(** ** The fixed-size reads as one family *)

Inductive fixed_op := Nat8 | Nat16 | Nat32 | Nat64 | Le8 | Le16 | Le32 | Le64 | Be8 | Be16 | Be32 | Be64.

Definition op_size (o : fixed_op) : nat :=
  match o with
  | Nat8 | Le8 | Be8 => 1 | Nat16 | Le16 | Be16 => 2
  | Nat32 | Le32 | Be32 => 4 | Nat64 | Le64 | Be64 => 8
  end.

Definition op_value (o : fixed_op) (l : list Z) : Z :=
  match o with
  | Be8 | Be16 | Be32 | Be64 => le_value (rev l)
  | _ => le_value l
  end.

Definition read_fixed {E : CacheExtender} (o : fixed_op) : act reader Z :=
  match o with
  | Nat8 => readNat8 | Nat16 => readNat16 | Nat32 => readNat32 | Nat64 => readNat64
  | Le8 => readLe8 | Le16 => readLe16 | Le32 => readLe32 | Le64 => readLe64
  | Be8 => readBe8 | Be16 => readBe16 | Be32 => readBe32 | Be64 => readBe64
  end.

Lemma read_fixed_body {E : CacheExtender} o : fixed_body (op_size o) (read_fixed o) (op_value o).
Proof.
  destruct o; [apply readNat8_body | apply readNat16_body | apply readNat32_body | apply readNat64_body
    | apply readLe8_body | apply readLe16_body | apply readLe32_body | apply readLe64_body
    | apply readBe8_body | apply readBe16_body | apply readBe32_body | apply readBe64_body].
Qed.

(** ** Safety against the interface *)

Definition stays_ok {A} (r : res (A * reader)) : Prop :=
  match r with Ret (_, st') => reader_ok st' | Exn _ => True | Crash _ | NoFuel => False end.

Section Safety.
Context {E : CacheExtender} {Eok : CacheExtenderOk E}.

Lemma needBytes_ok st n :
  reader_ok st -> 0 <= n ->
  match needBytes n st with
  | Ret (_, st') => reader_ok st' /\ n <= Z.of_nat (length (unread st'))
  | Exn _ => True
  | Crash _ | NoFuel => False
  end.
Proof.
  intros Hok Hn. rewrite needBytes_spec by done. destruct (Z.ltb_spec (Z.of_nat (length (unread st))) n).
  - pose proof (extendCache_ok n st Hok Hn) as H1. destruct (extendCache n st) as [[_ st']|e|c|]; try done.
    destruct H1 as (H1 & H2 & _). by rewrite (unread_length st' H1).
  - done.
Qed.

Lemma fixed_body_safe {A} n (m : act reader A) f st :
  fixed_body n m f -> reader_ok st -> stays_ok (m st).
Proof.
  intros (body & Hm & Hb) Hok. rewrite Hm. unfold mbind, act_bind.
  pose proof (needBytes_ok st (Z.of_nat n) Hok ltac:(lia)) as H.
  destruct (needBytes (Z.of_nat n) st) as [[_ st']|e|c|]; try done.
  destruct H as [Hok' Hlen].
  destruct (body_reads_split n body f st' Hb Hok' ltac:(lia)) as (-> & ? & _). done.
Qed.
End Safety.

(** ** The memory reader *)

#[export] Instance BinaryMemReader_ok : CacheExtenderOk BinaryMemReader.extendCache.
Proof.
  intros n st Hok Hn. unfold extendCache, BinaryMemReader.extendCache.
  pose proof Hok as (? & ? & ?). rewrite uwrap_id by (unfold in_u; lia).
  destruct (Z.ltb_spec (cache_end st - cache_pos st) n); [done|]. auto.
Qed.

Lemma mem_needBytes st n :
  reader_ok st -> 0 <= n ->
  needBytes n st = if Z.of_nat (length (unread st)) <? n then Exn EndOfDataException else Ret (tt, st).
Proof.
  intros Hok Hn. rewrite needBytes_spec by done. unfold extendCache, BinaryMemReader.extendCache.
  rewrite (unread_length st Hok). pose proof Hok as (? & ? & ?). rewrite uwrap_id by (unfold in_u; lia).
  by destruct (_ <? n).
Qed.

Lemma mem_fixed {A} n (m : act reader A) f st :
  fixed_body n m f -> reader_ok st ->
  m st = if Z.of_nat (length (unread st)) <? Z.of_nat n then Exn EndOfDataException
         else Ret (f (take n (unread st)), moved (Z.of_nat n) st).
Proof.
  intros (body & Hm & Hb) Hok. rewrite Hm. unfold mbind, act_bind.
  rewrite mem_needBytes by (done || lia). destruct (Z.ltb_spec (Z.of_nat (length (unread st))) (Z.of_nat n)); [done|].
  by destruct (body_reads_split n body f st Hb Hok ltac:(lia)) as (-> & _ & _).
Qed.

Lemma mem_fixed_prefix {A} n (m : act reader A) f st l k :
  fixed_body n m f -> reader_ok st -> unread st = l ++ k -> length l = n ->
  m st = Ret (f l, moved (Z.of_nat n) st).
Proof.
  intros Hm Hok Hu <-. rewrite (mem_fixed _ _ _ _ Hm Hok), Hu, take_app_length, length_app.
  destruct (Z.ltb_spec (Z.of_nat (length l + length k)) (Z.of_nat (length l))); [lia|done].
Qed.

(** ** Varints on the memory reader *)

Lemma mem_varint_step w limit fuel r st b k :
  reader_ok st -> unread st = b :: k ->
  readVarint_loop (S fuel) w limit r st =
    if limit <=? r then Exn OverflowException
    else if b <? 0x80 then Ret (uwrap w (uwrap w (r * 128) + b), moved 1 st)
    else readVarint_loop fuel w limit (uwrap w (uwrap w (r * 128) + Z.land b 0x7f)) (moved 1 st).
Proof.
  intros Hok Hu. cbn [readVarint_loop]. unfold mbind, act_bind.
  rewrite mem_needBytes by (done || lia). rewrite Hu. cbn [length].
  destruct (Z.ltb_spec (Z.of_nat (S (length k))) 1); [lia|].
  destruct (limit <=? r); [done|].
  assert (peek 0 st = Ret (b, st)) as ->.
  { unfold peek. rewrite Z.add_0_r.
    unfold unread in Hu. destruct Hok as (? & ? & ?).
    rewrite (byte_at_ok _ _ b); [done| |lia].
    assert (take (Z.to_nat (cache_end st - cache_pos st)) (drop (Z.to_nat (cache_pos st)) (cache st)) !! 0%nat = Some b)
      as Hl by (by rewrite Hu).
    apply lookup_take_Some in Hl. destruct Hl as [Hl _]. rewrite lookup_drop in Hl.
    by rewrite Nat.add_0_r in Hl. }
  by destruct (b <? 0x80).
Qed.

Lemma mem_varint_end w limit fuel r st :
  reader_ok st -> unread st = [] -> readVarint_loop (S fuel) w limit r st = Exn EndOfDataException.
Proof.
  intros Hok Hu. cbn [readVarint_loop]. unfold mbind, act_bind.
  rewrite mem_needBytes by (done || lia). by rewrite Hu.
Qed.

Lemma unread_moved1 st b k :
  reader_ok st -> unread st = b :: k -> reader_ok (moved 1 st) /\ unread (moved 1 st) = k.
Proof. intros Hok Hu. apply (unread_moved st [b] k Hok Hu). Qed.

Lemma moved_moved a b st : moved a (moved b st) = moved (b + a) st.
Proof. unfold moved. simpl. f_equal. lia. Qed.

(** One more unit of fuel than unread bytes is enough, and nothing is read
    outside the data. *)
Lemma mem_varint_safe w limit fuel r st :
  reader_ok st -> (length (unread st) < fuel)%nat -> stays_ok (readVarint_loop fuel w limit r st).
Proof.
  revert r st. induction fuel as [|fuel IH]; intros r st Hok Hf; [lia|].
  destruct (unread st) as [|b k] eqn:Hu.
  - by rewrite (mem_varint_end _ _ _ _ _ Hok Hu).
  - rewrite (mem_varint_step _ _ _ _ _ _ _ Hok Hu). destruct (unread_moved1 _ _ _ Hok Hu) as [Hok' Hu'].
    cbn [length] in Hf. repeat case_match; try done. apply IH; [done|]. rewrite Hu'. lia.
Qed.
