(* ===== verification/BinaryWriter.v ===== *)
(** * core/parse: BinaryWriter, BinaryBlobWriter and BinaryMemWriter

    The operations of [BinaryWriter] are written against the abstract
    [writeDirect] (class [DirectWriter]); the two concrete writers are its
    instances. A C array local to a function is a list of its length. *)

From S2P Require Import Prelude Machine.

Class DirectWriter (S : Type) := writeDirect : list Z -> act S unit.

(** What a writer promises: the bytes written so far grow by exactly the data
    on return, and it fails in no other way than by an exception. *)
Class DirectWriterOk (S : Type) (W : DirectWriter S) := {
  written : S -> list Z;
  writer_ok : S -> Prop;
  writeDirect_ok : forall data st, writer_ok st -> Z.of_nat (length data) < 2 ^ 63 ->
    match writeDirect data st with
    | Ret (_, st') => writer_ok st' /\ written st' = written st ++ data
    | Exn _ => True
    | Crash _ | NoFuel => False
    end;
}.

Section BinaryWriter.
Context {S : Type} {W : DirectWriter S}.

(** Native order: the object representation of the value. *)
Definition writeNat8 (value : Z) : act S unit := writeDirect (le_bytes 1 value).
Definition writeNat16 (value : Z) : act S unit := writeDirect (le_bytes 2 value).
Definition writeNat32 (value : Z) : act S unit := writeDirect (le_bytes 4 value).
Definition writeNat64 (value : Z) : act S unit := writeDirect (le_bytes 8 value).

Definition writeLe8 (value : Z) : act S unit := writeDirect [u8 value].
Definition writeLe16 (value : Z) : act S unit :=
  writeDirect [u8 value; u8 (Z.shiftr value 8)].
Definition writeLe32 (value : Z) : act S unit :=
  writeDirect [u8 value; u8 (Z.shiftr value 8); u8 (Z.shiftr value 16); u8 (Z.shiftr value 24)].
Definition writeLe64 (value : Z) : act S unit :=
  writeDirect [u8 value; u8 (Z.shiftr value 8); u8 (Z.shiftr value 16); u8 (Z.shiftr value 24);
    u8 (Z.shiftr value 32); u8 (Z.shiftr value 40); u8 (Z.shiftr value 48); u8 (Z.shiftr value 56)].

Definition writeBe8 (value : Z) : act S unit := writeDirect [u8 value].
Definition writeBe16 (value : Z) : act S unit :=
  writeDirect [u8 (Z.shiftr value 8); u8 value].
Definition writeBe32 (value : Z) : act S unit :=
  writeDirect [u8 (Z.shiftr value 24); u8 (Z.shiftr value 16); u8 (Z.shiftr value 8); u8 value].
Definition writeBe64 (value : Z) : act S unit :=
  writeDirect [u8 (Z.shiftr value 56); u8 (Z.shiftr value 48); u8 (Z.shiftr value 40);
    u8 (Z.shiftr value 32); u8 (Z.shiftr value 24); u8 (Z.shiftr value 16); u8 (Z.shiftr value 8); u8 value].

(** [while ((value /= 128) != 0) b[--p] = value|0x80;] *)
Fixpoint writeVarint_loop (fuel : nat) (value p : Z) (b : list Z) : res (Z * list Z) :=
  match fuel with
  | O => NoFuel
  | Datatypes.S fuel =>
    let value := value / 128 in
    if value =? 0 then Ret (p, b)
    else b ← byte_store b (p - 1) (u8 (Z.lor value 0x80)); writeVarint_loop fuel value (p - 1) b
  end.

Definition writeVarint_buf (n : nat) (value : Z) : act S unit :=
  let p := Z.of_nat n in
  '(p, b) ← lift (b ← byte_store (repeat 0 n) (p - 1) (u8 (Z.land value 0x7f));
                  writeVarint_loop 11 value (p - 1) b);
  writeDirect (drop (Z.to_nat p) b).

(** The [Uint32] and [Uint64] overloads differ in the size of the array. *)
Definition writeVarint32 (value : Z) : act S unit := writeVarint_buf 5 value.
Definition writeVarint64 (value : Z) : act S unit := writeVarint_buf 9 value.

Definition writeBytes (data : list Z) : act S unit := writeDirect data.

Definition writeVarBlob (data : list Z) : act S unit :=
  writeVarint64 (Z.of_nat (length data));; writeBytes data.
End BinaryWriter.

(** ** BinaryBlobWriter: appends to a blob *)

Module BinaryBlobWriter.
Record t := mk { content : list Z }.

Definition getContent (st : t) : list Z := content st.
Definition nullify (st : t) : t := mk [].

#[global] Instance writeDirect : DirectWriter t := fun data st => Ret (tt, mk (content st ++ data)).
End BinaryBlobWriter.

(** ** BinaryMemWriter: writes into a caller's buffer *)

Module BinaryMemWriter.
Record t := mk { mem : list Z; current_pos : Z; end_pos : Z }.

Definition create (data : list Z) : t := mk data 0 (Z.of_nat (length data)).
Definition pendingSize (st : t) : Z := end_pos st - current_pos st.

#[global] Instance writeDirect : DirectWriter t := fun data st =>
  if u64 (end_pos st - current_pos st) <? Z.of_nat (length data) then Exn EndOfDataException
  else m ← mem_store (mem st) (current_pos st) data;
       Ret (tt, mk m (current_pos st + Z.of_nat (length data)) (end_pos st)).

Definition ok (st : t) : Prop :=
  0 <= current_pos st <= end_pos st /\ end_pos st <= Z.of_nat (length (mem st)) < 2 ^ 63.
End BinaryMemWriter.

#[global] Program Instance BinaryBlobWriter_ok : DirectWriterOk _ BinaryBlobWriter.writeDirect := {|
  written := BinaryBlobWriter.content;
  writer_ok := fun _ => True;
|}.
Next Obligation. done. Qed.

Lemma mem_writeDirect (data : list Z) (st : BinaryMemWriter.t) :
  BinaryMemWriter.ok st ->
  writeDirect data st =
    if BinaryMemWriter.pendingSize st <? Z.of_nat (length data) then Exn EndOfDataException
    else Ret (tt, BinaryMemWriter.mk
      (take (Z.to_nat (BinaryMemWriter.current_pos st)) (BinaryMemWriter.mem st) ++ data ++
       drop (Z.to_nat (BinaryMemWriter.current_pos st) + length data) (BinaryMemWriter.mem st))
      (BinaryMemWriter.current_pos st + Z.of_nat (length data)) (BinaryMemWriter.end_pos st)).
Proof.
  intros (? & ?). unfold writeDirect, BinaryMemWriter.writeDirect, BinaryMemWriter.pendingSize, mem_store.
  rewrite uwrap_id by (unfold in_u; lia).
  destruct (Z.ltb_spec (BinaryMemWriter.end_pos st - BinaryMemWriter.current_pos st) (Z.of_nat (length data))); [done|].
  destruct (Z.ltb_spec (BinaryMemWriter.current_pos st) 0); [lia|].
  destruct (Z.ltb_spec (Z.of_nat (length (BinaryMemWriter.mem st)))
    (BinaryMemWriter.current_pos st + Z.of_nat (length data))); [lia|done].
Qed.

#[global] Program Instance BinaryMemWriter_ok : DirectWriterOk _ BinaryMemWriter.writeDirect := {|
  written := fun st => take (Z.to_nat (BinaryMemWriter.current_pos st)) (BinaryMemWriter.mem st);
  writer_ok := BinaryMemWriter.ok;
|}.
Next Obligation.
  intros data st Hok Hlen. rewrite mem_writeDirect by done.
  destruct (Z.ltb_spec (BinaryMemWriter.pendingSize st) (Z.of_nat (length data))); [done|].
  destruct Hok as (? & ?). unfold BinaryMemWriter.pendingSize in *.
  unfold BinaryMemWriter.ok. cbn [BinaryMemWriter.current_pos BinaryMemWriter.mem BinaryMemWriter.end_pos].
  split.
  - rewrite !length_app, length_take, length_drop. lia.
  - rewrite Z2Nat.inj_add, Nat2Z.id, app_assoc by lia.
    rewrite take_app_le, take_app_ge by (rewrite ?length_app, ?length_take; lia).
    rewrite length_take. f_equal. apply take_ge. lia.
Qed.
