(* ===== verification/BinaryCodec.v ===== *)
(** * core/parse: what the binary readers and writers promise together

    Round trips of the fixed-size values, of varints and of length-prefixed
    blobs; the exact range of the varint codecs; memory safety. *)

From S2P Require Import Prelude Machine BinaryReader BinaryWriter.

(** ** Fixed-size values *)

Definition write_fixed {S} {W : DirectWriter S} (o : fixed_op) : Z -> act S unit :=
  match o with
  | Nat8 => writeNat8 | Nat16 => writeNat16 | Nat32 => writeNat32 | Nat64 => writeNat64
  | Le8 => writeLe8 | Le16 => writeLe16 | Le32 => writeLe32 | Le64 => writeLe64
  | Be8 => writeBe8 | Be16 => writeBe16 | Be32 => writeBe32 | Be64 => writeBe64
  end.

(** The bytes [write_fixed] hands to [writeDirect]. *)
Definition op_bytes (o : fixed_op) (v : Z) : list Z :=
  match o with
  | Be8 | Be16 | Be32 | Be64 => rev (le_bytes (op_size o) v)
  | _ => le_bytes (op_size o) v
  end.

Lemma u8_shiftr v n : 0 <= n -> u8 (Z.shiftr v n) = v / 2 ^ n mod 256.
Proof. intros. by rewrite Z.shiftr_div_pow2. Qed.

Lemma write_fixed_bytes {S} {W : DirectWriter S} o v : write_fixed o v = writeDirect (op_bytes o v).
Proof.
  destruct o; cbn [write_fixed op_bytes op_size le_bytes rev app]; try reflexivity;
    unfold writeLe8, writeLe16, writeLe32, writeLe64, writeBe8, writeBe16, writeBe32, writeBe64;
    rewrite ?u8_shiftr by lia; f_equal; unfold uwrap; rewrite ?Z.div_div by lia; reflexivity.
Qed.

Lemma op_bytes_ok o v : bytes_ok (op_bytes o v).
Proof. destruct o; cbn [op_bytes]; try apply Forall_rev; apply le_bytes_ok. Qed.

Lemma op_bytes_length o v : length (op_bytes o v) = op_size o.
Proof. by destruct o. Qed.

Lemma op_value_bytes o v : in_u (8 * Z.of_nat (op_size o)) v -> op_value o (op_bytes o v) = v.
Proof.
  intros Hv. unfold op_value, op_bytes.
  destruct o; rewrite ?rev_involutive, le_value_bytes; apply Z.mod_small, Hv.
Qed.

(** On the memory reader every fixed-size read consumes exactly its bytes
    and returns their value in the requested byte order, or throws
    [EndOfDataException] when fewer bytes are left, and does nothing else. *)
Theorem mem_read_fixed_spec (o : fixed_op) (st : reader) :
  reader_ok st ->
  read_fixed o st =
    if Z.of_nat (length (unread st)) <? Z.of_nat (op_size o) then Exn EndOfDataException
    else Ret (op_value o (take (op_size o) (unread st)), moved (Z.of_nat (op_size o)) st).
Proof. intros Hok. apply mem_fixed; [apply read_fixed_body|done]. Qed.

Lemma mem_read_fixed_spec_witness :
  let st := BinaryMemReader.create [0x12; 0x34] in
  read_fixed Be16 st = Ret (0x1234, moved 2 st) /\ read_fixed Be32 st = Exn EndOfDataException.
Proof.
  assert (reader_ok (BinaryMemReader.create [0x12; 0x34])) as H
    by (apply reader_ok_create; [by apply (bool_decide_unpack _) | reflexivity]).
  split; [exact (mem_read_fixed_spec Be16 _ H) | exact (mem_read_fixed_spec Be32 _ H)].
Defined.

(** Whatever concrete reader implements [extendCache] correctly, no
    fixed-size read and no [readBytes] touches memory outside the cache: the
    reader is well formed again, or an exception was thrown. *)
Theorem reader_memory_safe {E : CacheExtender} {Eok : CacheExtenderOk E}
    (o : fixed_op) (n : nat) (st : reader) :
  reader_ok st -> stays_ok (read_fixed o st) /\ stays_ok (readBytes (Z.of_nat n) st).
Proof.
  intros Hok. split; (eapply fixed_body_safe; [|done]); [apply read_fixed_body | apply readBytes_body].
Qed.

Lemma reader_memory_safe_witness :
  stays_ok (read_fixed Le64 (BinaryMemReader.create [1; 2; 3])) /\
  stays_ok (readBytes (Z.of_nat 2) (BinaryMemReader.create [1; 2; 3])).
Proof.
  apply (reader_memory_safe (E := BinaryMemReader.extendCache) Le64 2).
  apply reader_ok_create; [by apply (bool_decide_unpack _) | reflexivity].
Defined.

(** Round trip: the bytes any of the twelve fixed-size writers appends to
    a blob are read back by the reader of the same name as the same value,
    leaving whatever follows unread. *)
Theorem fixed_roundtrip (o : fixed_op) (v : Z) (w : BinaryBlobWriter.t) (k : list Z) (st : reader) :
  in_u (8 * Z.of_nat (op_size o)) v ->
  exists l, write_fixed o v w = Ret (tt, BinaryBlobWriter.mk (BinaryBlobWriter.content w ++ l)) /\
    (reader_ok st -> unread st = l ++ k ->
     read_fixed o st = Ret (v, moved (Z.of_nat (op_size o)) st)).
Proof.
  intros Hv. exists (op_bytes o v). rewrite write_fixed_bytes. split; [done|]. intros Hok Hu.
  rewrite (mem_fixed_prefix _ _ _ st _ k (read_fixed_body o) Hok Hu (op_bytes_length o v)).
  by rewrite op_value_bytes.
Qed.

Lemma fixed_roundtrip_witness :
  exists l, write_fixed Be32 0xdeadbeef (BinaryBlobWriter.mk []) = Ret (tt, BinaryBlobWriter.mk l) /\
    read_fixed Be32 (BinaryMemReader.create l) = Ret (0xdeadbeef, moved 4 (BinaryMemReader.create l)).
Proof.
  destruct (fixed_roundtrip Be32 0xdeadbeef (BinaryBlobWriter.mk []) []
    (BinaryMemReader.create (op_bytes Be32 0xdeadbeef))) as (l & Hw & Hr).
  { by apply (bool_decide_unpack _). }
  exists (op_bytes Be32 0xdeadbeef). split; [reflexivity|].
  vm_compute in Hw. injection Hw as <-. apply Hr; [|by vm_compute].
  apply reader_ok_create; [by apply (bool_decide_unpack _) | reflexivity].
Defined.

(** ** Varints *)

(** The base-128 digits of [x], most significant first, each with the
    continuation bit, in front of [acc]. *)
Fixpoint vgroups (n : nat) (x : Z) (acc : list Z) : list Z :=
  match n with
  | O => acc
  | S n => if x =? 0 then acc else vgroups n (x / 128) (128 + x mod 128 :: acc)
  end.

(** The encoding of [v]: the last digit has no continuation bit. *)
Definition varint_bytes (v : Z) : list Z := vgroups 10 (v / 128) [v mod 128].

Lemma lor_128 x : u8 (Z.lor x 0x80) = 128 + x mod 128.
Proof.
  unfold uwrap. rewrite <- Z.land_ones, Z.land_lor_distr_l, Z.land_ones by lia.
  assert (byte_ok (x mod 2 ^ 8)) as Hb by (apply Z.mod_pos_bound; lia).
  assert (x mod 128 = x mod 2 ^ 8 mod 128) as ->
    by (rewrite Z.mod_mod_divide; [done|by exists 2]).
  apply Z.eqb_eq. revert Hb. generalize (x mod 2 ^ 8).
  apply (all_bytes_forall (fun b => Z.lor b (Z.land 128 (Z.ones 8)) =? 128 + b mod 128)). reflexivity.
Qed.

Lemma land_127 x : Z.land x 0x7f = x mod 128.
Proof. change 0x7f with (Z.ones 7). by rewrite Z.land_ones by lia. Qed.

Lemma vgroups_ok n x acc : bytes_ok acc -> bytes_ok (vgroups n x acc).
Proof.
  revert x acc. induction n as [|n IH]; intros x acc H; cbn [vgroups]; [done|].
  case_match; [done|]. apply IH, bytes_ok_cons. split; [|done].
  pose proof (Z.mod_pos_bound x 128). unfold byte_ok. lia.
Qed.

Lemma varint_bytes_ok v : bytes_ok (varint_bytes v).
Proof.
  apply vgroups_ok, bytes_ok_cons. split; [|constructor].
  pose proof (Z.mod_pos_bound v 128). unfold byte_ok. lia.
Qed.

Lemma vgroups_length n x acc : 0 <= x < 128 ^ Z.of_nat n -> (length (vgroups n x acc) <= n + length acc)%nat.
Proof.
  revert x acc. induction n as [|n IH]; intros x acc Hx; cbn [vgroups]; [lia|].
  rewrite Nat2Z.inj_succ, Z.pow_succ_r in Hx by lia.
  destruct (Z.eqb_spec x 0); [lia|]. etrans; [apply IH|cbn [length]; lia].
  split; [apply Z.div_pos; lia|apply Z.div_lt_upper_bound; lia].
Qed.

Lemma vgroups_9 v : 0 <= v < 2 ^ 63 -> (length (varint_bytes v) <= 9)%nat.
Proof.
  intros Hv. unfold varint_bytes.
  assert (forall n m x acc, 0 <= x < 128 ^ Z.of_nat n -> (n <= m)%nat -> vgroups m x acc = vgroups n x acc) as H.
  { induction n as [|n IH]; intros m x acc Hx Hm.
    - assert (x = 0) as -> by (simpl in Hx; lia). by destruct m.
    - destruct m as [|m]; [lia|]. cbn [vgroups]. destruct (Z.eqb_spec x 0); [done|]. apply IH; [|lia].
      rewrite Nat2Z.inj_succ, Z.pow_succ_r in Hx by lia. split; [apply Z.div_pos; lia|apply Z.div_lt_upper_bound; lia]. }
  assert (0 <= v / 128 < 128 ^ Z.of_nat 8) as Hd.
  { split; [apply Z.div_pos; lia|]. apply Z.div_lt_upper_bound; [lia|]. change (128 * 128 ^ Z.of_nat 8) with (2 ^ 63). lia. }
  rewrite (H 8%nat 10%nat) by (done || lia). pose proof (vgroups_length 8 (v / 128) [v mod 128] Hd) as HL. cbn [length] in HL. lia.
Qed.

(** *** Writing *)

(** The digits still to come fit the array or the writer leaves it. *)
Fixpoint groups (n : nat) (x : Z) : nat :=
  match n with O => 0%nat | S n => if x =? 0 then 0%nat else S (groups n (x / 128)) end.

Lemma byte_store_head (b : list Z) p v :
  0 < p -> p <= Z.of_nat (length b) ->
  byte_store b (p - 1) v = Ret (<[Z.to_nat (p - 1) := v]> b).
Proof.
  intros. unfold byte_store. destruct (Z.ltb_spec (p - 1) 0); [lia|].
  by destruct (Z.leb_spec (Z.of_nat (length b)) (p - 1)); [lia|].
Qed.

Lemma drop_insert_head (b : list Z) p v :
  0 < p -> p <= Z.of_nat (length b) ->
  drop (Z.to_nat (p - 1)) (<[Z.to_nat (p - 1) := v]> b) = v :: drop (Z.to_nat p) b.
Proof.
  intros. rewrite (drop_S _ v) by (apply list_lookup_insert_eq; lia).
  f_equal. rewrite drop_insert_lt by lia. f_equal. lia.
Qed.

Lemma writeVarint_loop_ok n x p b :
  Z.of_nat (groups n (x / 128)) <= p <= Z.of_nat (length b) -> 0 <= x / 128 < 128 ^ Z.of_nat n ->
  exists p' b', writeVarint_loop (S n) x p b = Ret (p', b') /\
    drop (Z.to_nat p') b' = vgroups n (x / 128) (drop (Z.to_nat p) b) /\
    0 <= p' <= p /\ length b' = length b.
Proof.
  revert x p b. induction n as [|n IH]; intros x p b Hp Hx.
  - exists p, b. cbn [writeVarint_loop vgroups]. destruct (Z.eqb_spec (x / 128) 0); [|simpl in Hx; lia].
    simpl in Hp. repeat split; lia.
  - change (writeVarint_loop (S (S n)) x p b) with
      (if x / 128 =? 0 then Ret (p, b)
       else b ← byte_store b (p - 1) (u8 (Z.lor (x / 128) 0x80)); writeVarint_loop (S n) (x / 128) (p - 1) b).
    cbn [vgroups groups] in *. destruct (Z.eqb_spec (x / 128) 0).
    { exists p, b. repeat split; lia. }
    rewrite Nat2Z.inj_succ in Hp. rewrite Nat2Z.inj_succ, Z.pow_succ_r in Hx by lia.
    rewrite byte_store_head by lia. cbn [mbind res_bind].
    destruct (IH (x / 128) (p - 1) (<[Z.to_nat (p - 1) := u8 (Z.lor (x / 128) 0x80)]> b))
      as (p' & b' & H1 & H2 & H3 & H4).
    { rewrite length_insert. lia. }
    { split; [apply Z.div_pos; lia|apply Z.div_lt_upper_bound; lia]. }
    exists p', b'. rewrite length_insert in H4. split; [done|]. split_and!; [|lia|lia|lia].
    by rewrite H2, drop_insert_head, lor_128 by lia.
Qed.

Lemma groups_bound n x k : 0 <= x < 128 ^ Z.of_nat k -> (groups n x <= k)%nat.
Proof.
  revert x k. induction n as [|n IH]; intros x k Hx; cbn [groups]; [lia|].
  destruct (Z.eqb_spec x 0); [lia|]. destruct k as [|k]; [simpl in Hx; lia|].
  apply le_n_S, IH. rewrite Nat2Z.inj_succ, Z.pow_succ_r in Hx by lia.
  split; [apply Z.div_pos; lia|apply Z.div_lt_upper_bound; lia].
Qed.

(** A value of at most [n] digits is written as its digits. *)
Lemma writeVarint_buf_ok {S} {W : DirectWriter S} n v (st : S) :
  0 <= v < 128 ^ Z.of_nat n -> (0 < n <= 10)%nat ->
  writeVarint_buf n v st = writeDirect (varint_bytes v) st.
Proof.
  intros Hv Hn. unfold writeVarint_buf, mbind, act_bind, lift, varint_bytes.
  rewrite byte_store_head by (rewrite ?repeat_length; lia). cbn [mbind res_bind].
  assert (0 <= v / 128 < 128 ^ Z.of_nat (n - 1)) as Hv'.
  { split; [apply Z.div_pos; lia|]. apply Z.div_lt_upper_bound; [lia|].
    rewrite <- Z.pow_succ_r by lia. replace (Z.succ (Z.of_nat (n - 1))) with (Z.of_nat n) by lia. apply Hv. }
  destruct (writeVarint_loop_ok 10 v (Z.of_nat n - 1) (<[Z.to_nat (Z.of_nat n - 1) := u8 (Z.land v 0x7f)]> (repeat 0 n)))
    as (p' & b' & -> & -> & _).
  - rewrite length_insert, repeat_length. pose proof (groups_bound 10 (v / 128) (n - 1) Hv'). lia.
  - split; [lia|]. eapply Z.lt_le_trans; [apply Hv'|]. apply Z.pow_le_mono_r; lia.
  - rewrite drop_insert_head by (rewrite ?repeat_length; lia). f_equal. f_equal.
    rewrite drop_ge by (rewrite repeat_length; lia). f_equal.
    rewrite land_127. apply uwrap_id. pose proof (Z.mod_pos_bound v 128). unfold in_u. lia.
Qed.

(** A value with more digits than the array has runs off its front. *)
Lemma writeVarint_loop_overrun n x p b :
  0 <= p <= Z.of_nat (length b) -> 128 ^ (p + 1) <= x -> p <= Z.of_nat n ->
  writeVarint_loop (S n) x p b = Crash OutOfBounds.
Proof.
  revert x p b. induction n as [|n IH]; intros x p b Hp Hx Hn; cbn [writeVarint_loop].
  all: assert (128 * 128 ^ p <= x) as Hx' by (rewrite <- Z.pow_succ_r by lia; apply Hx).
  all: assert (0 < 128 ^ p) by (apply Z.pow_pos_nonneg; lia).
  all: assert (128 ^ p <= x / 128) as Hd by (apply Z.div_le_lower_bound; lia).
  all: destruct (Z.eqb_spec (x / 128) 0); [lia|].
  - assert (p = 0) as -> by lia. done.
  - destruct (decide (p = 0)) as [->|Hp0]; [done|].
    rewrite byte_store_head by lia. cbn [mbind res_bind]. apply IH; rewrite ?length_insert; [lia| |lia].
    by replace (p - 1 + 1) with p by lia.
Qed.

Lemma writeVarint64_overrun {S} {W : DirectWriter S} v (st : S) :
  2 ^ 63 <= v -> writeVarint64 v st = Crash OutOfBounds.
Proof.
  intros Hv. unfold writeVarint64, writeVarint_buf, mbind, act_bind, lift.
  rewrite byte_store_head by (rewrite ?repeat_length; lia). cbn [mbind res_bind].
  rewrite writeVarint_loop_overrun; [done| |done|lia]. rewrite length_insert, repeat_length. lia.
Qed.

(** [writeVarint] of a [Uint32] writes its base-128 digits and nothing
    else; of a [Uint64] it does so below 2^63, and for any larger value it
    stores in front of its nine-byte array. *)
Theorem writeVarint_spec {S} {W : DirectWriter S} (v : Z) (st : S) :
  (in_u 32 v -> writeVarint32 v st = writeDirect (varint_bytes v) st) /\
  (in_u 64 v -> writeVarint64 v st =
    if v <? 2 ^ 63 then writeDirect (varint_bytes v) st else Crash OutOfBounds).
Proof.
  split; intros Hv; unfold in_u in Hv.
  - apply writeVarint_buf_ok; [|lia]. change (128 ^ Z.of_nat 5) with (2 ^ 35). lia.
  - destruct (Z.ltb_spec v (2 ^ 63)); [|by apply writeVarint64_overrun].
    apply writeVarint_buf_ok; [|lia]. change (128 ^ Z.of_nat 9) with (2 ^ 63). lia.
Qed.

Lemma writeVarint_spec_witness :
  writeVarint32 300 (BinaryBlobWriter.mk []) = Ret (tt, BinaryBlobWriter.mk [0x82; 0x2c]) /\
  writeVarint64 (2 ^ 63) (BinaryBlobWriter.mk []) = Crash OutOfBounds.
Proof.
  split.
  - etrans; [apply (proj1 (writeVarint_spec 300 (BinaryBlobWriter.mk []))); by apply (bool_decide_unpack _)|done].
  - etrans; [apply (proj2 (writeVarint_spec (2 ^ 63) (BinaryBlobWriter.mk []))); by apply (bool_decide_unpack _)|done].
Defined.

(** *** Reading *)

Lemma land_127_digit x : Z.land (128 + x mod 128) 0x7f = x mod 128.
Proof.
  rewrite land_127. replace (128 + x mod 128) with (x mod 128 + 1 * 128) by lia.
  rewrite Z.mod_add, Z.mod_mod; lia.
Qed.

(** Accumulating the last digit of [x] onto its other digits gives [x]. *)
Lemma uwrap_digit w x : 0 <= x < 2 ^ w -> uwrap w (uwrap w (x / 128 * 128) + x mod 128) = x.
Proof.
  intros Hx. pose proof (Z.mod_pos_bound x 128 ltac:(lia)). pose proof (Z.div_mod x 128 ltac:(lia)).
  assert (0 <= x / 128) by (apply Z.div_pos; lia).
  rewrite (uwrap_id w (_ * _)), uwrap_id; unfold in_u; lia.
Qed.

(** The reader walks over the digits of [x] accumulating exactly [x], as long
    as no prefix of it reaches [limit]. *)
Lemma read_vgroups w limit n x acc k st fuel :
  0 < limit -> 128 * limit <= 2 ^ w ->
  0 <= x < 128 ^ Z.of_nat n -> x < 128 * limit ->
  reader_ok st -> bytes_ok acc -> unread st = vgroups n x acc ++ k ->
  (length (vgroups n x acc) <= fuel)%nat ->
  exists st' fuel', readVarint_loop fuel w limit 0 st = readVarint_loop fuel' w limit x st' /\
    reader_ok st' /\ unread st' = acc ++ k /\ (length acc <= fuel')%nat /\
    st' = moved (Z.of_nat (length (vgroups n x acc)) - Z.of_nat (length acc)) st.
Proof.
  intros Hl Hw. revert x acc k st fuel.
  induction n as [|n IH]; intros x acc k st fuel Hx Hxl Hok Hacc Hu Hf; cbn [vgroups] in *.
  { exists st, fuel. assert (x = 0) as -> by (simpl in Hx; lia). rewrite Z.sub_diag.
    split_and!; auto. destruct st; unfold moved; simpl. f_equal; lia. }
  destruct (Z.eqb_spec x 0) as [->|Hx0].
  { exists st, fuel. rewrite Z.sub_diag. split_and!; auto. destruct st; unfold moved; simpl. f_equal; lia. }
  rewrite Nat2Z.inj_succ, Z.pow_succ_r in Hx by lia.
  pose proof (Z.mod_pos_bound x 128 ltac:(lia)) as Hmod.
  pose proof (Z.div_mod x 128 ltac:(lia)) as Hdm.
  assert (0 <= x / 128 < limit) as Hq by (split; [apply Z.div_pos; lia|apply Z.div_lt_upper_bound; lia]).
  assert (x / 128 < 128 ^ Z.of_nat n) as Hxn by (apply Z.div_lt_upper_bound; lia).
  assert (bytes_ok (128 + x mod 128 :: acc)) as Hacc'
    by (apply bytes_ok_cons; split; [unfold byte_ok; lia|done]).
  destruct (IH (x / 128) (128 + x mod 128 :: acc) k st fuel ltac:(lia) ltac:(lia) Hok Hacc' Hu Hf)
    as (st' & fuel' & -> & Hok' & Hu' & Hf' & ->).
  cbn [length] in Hf'. destruct fuel' as [|fuel']; [lia|].
  rewrite (mem_varint_step _ _ _ _ _ _ _ Hok' Hu').
  destruct (Z.leb_spec limit (x / 128)); [lia|].
  destruct (Z.ltb_spec (128 + x mod 128) 0x80); [lia|].
  destruct (unread_moved1 _ _ _ Hok' Hu') as [Hok'' Hu''].
  rewrite land_127_digit, (uwrap_digit w x) by lia.
  eexists _, fuel'. split; [done|].
  split; [done|]. split; [done|]. split; [lia|]. rewrite moved_moved. f_equal. cbn [length]. lia.
Qed.

(** Past [limit] the reader stops at the digit that would follow. *)
Lemma read_vgroups_over w limit n x acc k st fuel :
  0 < limit -> 128 * limit <= 2 ^ w ->
  0 <= x < 128 ^ Z.of_nat n -> limit <= x -> acc <> [] ->
  reader_ok st -> bytes_ok acc -> unread st = vgroups n x acc ++ k ->
  (length (vgroups n x acc) <= fuel)%nat ->
  readVarint_loop fuel w limit 0 st = Exn OverflowException.
Proof.
  intros Hl Hw. revert x acc k st fuel.
  induction n as [|n IH]; intros x acc k st fuel Hx Hxl Hne Hok Hacc Hu Hf; [simpl in Hx; lia|].
  destruct (Z.ltb_spec x (128 * limit)) as [Hlt|Hge].
  - destruct (read_vgroups w limit (S n) x acc k st fuel) as (st' & fuel' & -> & Hok' & Hu' & Hf' & _); try done.
    destruct acc as [|b acc]; [done|]. cbn [length] in Hf'. destruct fuel' as [|fuel']; [lia|].
    rewrite (mem_varint_step _ _ _ _ _ _ _ Hok' Hu'). by destruct (Z.leb_spec limit x); [|lia].
  - cbn [vgroups] in *. destruct (Z.eqb_spec x 0); [lia|].
    rewrite Nat2Z.inj_succ, Z.pow_succ_r in Hx by lia.
    pose proof (Z.mod_pos_bound x 128 ltac:(lia)).
    apply (IH (x / 128) (128 + x mod 128 :: acc) k); try done.
    + split; [apply Z.div_pos; lia|apply Z.div_lt_upper_bound; lia].
    + apply Z.div_le_lower_bound; lia.
    + apply bytes_ok_cons; split; [unfold byte_ok; lia|done].
Qed.

(** What reading the encoding of [v] gives, for both widths. *)
Lemma read_varint_bytes w limit v k st :
  0 < limit -> 128 * limit <= 2 ^ w -> 0 <= v < 2 ^ 70 ->
  reader_ok st -> unread st = varint_bytes v ++ k ->
  readVarint_loop (length (varint_bytes v)) w limit 0 st =
    if v <? 128 * limit then Ret (v, moved (Z.of_nat (length (varint_bytes v))) st)
    else Exn OverflowException.
Proof.
  intros Hl Hw Hv Hok Hu. unfold varint_bytes in *.
  pose proof (Z.mod_pos_bound v 128 ltac:(lia)) as Hmod. pose proof (Z.div_mod v 128 ltac:(lia)).
  assert (0 <= v / 128 < 128 ^ Z.of_nat 10) as Hd.
  { split; [apply Z.div_pos; lia|]. apply Z.div_lt_upper_bound; [lia|].
    change (128 * 128 ^ Z.of_nat 10) with (2 ^ 77). lia. }
  assert (bytes_ok [v mod 128]) as Hacc by (apply bytes_ok_cons; split; [unfold byte_ok; lia|constructor]).
  destruct (Z.ltb_spec v (128 * limit)) as [Hlt|Hge].
  - assert (v / 128 < limit) by (apply Z.div_lt_upper_bound; lia).
    destruct (read_vgroups w limit 10 (v / 128) [v mod 128] k st _ Hl Hw Hd ltac:(lia) Hok Hacc Hu (le_n _))
      as (st' & fuel' & -> & Hok' & Hu' & Hf' & ->).
    cbn [length] in Hf'. destruct fuel' as [|fuel']; [lia|].
    rewrite (mem_varint_step _ _ _ _ _ _ _ Hok' Hu').
    destruct (Z.leb_spec limit (v / 128)); [lia|]. destruct (Z.ltb_spec (v mod 128) 0x80); [|lia].
    rewrite uwrap_digit, moved_moved by lia. do 3 f_equal. cbn [length]. lia.
  - eapply (read_vgroups_over w limit 10 (v / 128) [v mod 128] k); try done.
    apply Z.div_le_lower_bound; lia.
Qed.

(** More fuel than the reader needs changes nothing. *)
Lemma readVarint_fuel_mono w limit r st fuel fuel' :
  (fuel <= fuel')%nat -> readVarint_loop fuel w limit r st <> NoFuel ->
  readVarint_loop fuel' w limit r st = readVarint_loop fuel w limit r st.
Proof.
  revert r st fuel'. induction fuel as [|fuel IH]; intros r st fuel' Hf Hn; [done|].
  destruct fuel' as [|fuel']; [lia|]. cbn [readVarint_loop] in *. unfold mbind, act_bind in *.
  repeat case_match; try done. destruct (advance 1 _) as [[? ?]|?|?|]; try done.
  apply IH; [lia|done].
Qed.

(** What the readers do with the digits of [v]: they refuse them with
    [OverflowException] from a limit on. *)
Lemma readVarint_bytes (v : Z) (k : list Z) (st : reader) (fuel : nat) :
  reader_ok st -> unread st = varint_bytes v ++ k -> (length (varint_bytes v) <= fuel)%nat ->
  let n := Z.of_nat (length (varint_bytes v)) in
  (in_u 32 v -> readVarint32 fuel st =
     if v <? 2 ^ 28 then Ret (v, moved n st) else Exn OverflowException) /\
  (in_u 64 v -> readVarint64 fuel st =
     if v <? 2 ^ 60 then Ret (v, moved n st) else Exn OverflowException).
Proof.
  intros Hok Hu Hf n.
  assert (forall w limit, 0 < limit -> 128 * limit <= 2 ^ w -> 0 <= v < 2 ^ 70 ->
    readVarint_loop fuel w limit 0 st = if v <? 128 * limit then Ret (v, moved n st) else Exn OverflowException) as H.
  { intros w limit Hl Hw Hv. pose proof (read_varint_bytes w limit v k st Hl Hw Hv Hok Hu) as Hr.
    rewrite (readVarint_fuel_mono _ _ _ _ _ _ Hf); rewrite Hr; [done|by case_match]. }
  split; intros Hv; unfold in_u in Hv; (etrans; [apply H; [done|done|lia]|done]).
Qed.

(** C27. Round trip of varints through a blob: [writeVarint] of a [Uint64] below
    2^63 appends at most nine bytes, and the overload for [Uint32] the same ones;
    [readVarint64] on them gives the value back, consumes exactly them and leaves
    what follows, if the value is below 2^60, and [readVarint32] if it is below
    2^28; from there on the readers throw [OverflowException] on what was written.
    From 2^63 on the writer stores in front of its array. The fuel, one for each
    byte written, is enough. *)
Theorem varint_roundtrip (v : Z) (w : BinaryBlobWriter.t) : in_u 64 v ->
  if v <? 2 ^ 63 then
    exists l, (length l <= 9)%nat /\
      writeVarint64 v w = Ret (tt, BinaryBlobWriter.mk (BinaryBlobWriter.content w ++ l)) /\
      (in_u 32 v -> writeVarint32 v w = Ret (tt, BinaryBlobWriter.mk (BinaryBlobWriter.content w ++ l))) /\
      forall (k : list Z) (st : reader) (fuel : nat), reader_ok st -> unread st = l ++ k -> (length l <= fuel)%nat ->
        let n := Z.of_nat (length l) in
        readVarint64 fuel st = (if v <? 2 ^ 60 then Ret (v, moved n st) else Exn OverflowException) /\
        (in_u 32 v -> readVarint32 fuel st = if v <? 2 ^ 28 then Ret (v, moved n st) else Exn OverflowException)
  else writeVarint64 v w = Crash OutOfBounds.
Proof.
  intros Hv. destruct (writeVarint_spec v w) as [W32 W64]. specialize (W64 Hv).
  destruct (Z.ltb_spec v (2 ^ 63)) as [Hlt|]; [|done]. exists (varint_bytes v). split_and!; [|done|done|].
  - apply (vgroups_9 v). unfold in_u in Hv. lia.
  - intros k st fuel Hok Hu Hf. destruct (readVarint_bytes v k st fuel Hok Hu Hf) as [R32 R64]. auto.
Qed.

Lemma varint_roundtrip_witness :
  (exists l st, writeVarint32 300 (BinaryBlobWriter.mk []) = Ret (tt, BinaryBlobWriter.mk l) /\ st = BinaryMemReader.create l /\
    readVarint32 9 st = Ret (300, moved 2 st)) /\
  (exists l, writeVarint64 (2 ^ 60) (BinaryBlobWriter.mk []) = Ret (tt, BinaryBlobWriter.mk l) /\
    readVarint64 9 (BinaryMemReader.create l) = Exn OverflowException).
Proof.
  split.
  - pose proof (varint_roundtrip 300 (BinaryBlobWriter.mk []) ltac:(by apply (bool_decide_unpack _))) as (l & _ & _ & W & R).
    specialize (W ltac:(by apply (bool_decide_unpack _))). pose proof W as E. vm_compute in E. injection E as <-.
    exists [0x82; 0x2c], (BinaryMemReader.create [0x82; 0x2c]). split_and!; [exact W|done|].
    assert (reader_ok (BinaryMemReader.create [0x82; 0x2c])) as Hok by (apply reader_ok_create; [by apply (bool_decide_unpack _)|reflexivity]).
    destruct (R [] (BinaryMemReader.create [0x82; 0x2c]) 9%nat Hok eq_refl ltac:(simpl; lia)) as [_ R32].
    etrans; [exact (R32 ltac:(by apply (bool_decide_unpack _)))|reflexivity].
  - pose proof (varint_roundtrip (2 ^ 60) (BinaryBlobWriter.mk []) ltac:(by apply (bool_decide_unpack _))) as (l & _ & W & _ & R).
    pose proof W as E. vm_compute in E. injection E as <-. eexists. split; [exact W|]. set (st := BinaryMemReader.create _).
    assert (reader_ok st) as Hok by (apply reader_ok_create; [by apply (bool_decide_unpack _)|reflexivity]).
    destruct (R [] st 9%nat Hok eq_refl ltac:(simpl; lia)) as [R64 _]. etrans; [exact R64|reflexivity].
Defined.

(** ** Length-prefixed blobs *)

(** Round trip of [writeVarBlob]/[readVarBlob] through a blob, and the
    guard of the reader: a blob longer than [max_size] is refused with
    [OverflowException] before its content is read. *)
Theorem varblob_roundtrip (data k : list Z) (max_size : Z) (w : BinaryBlobWriter.t) (st : reader) (fuel : nat) :
  Z.of_nat (length data) < 2 ^ 60 ->
  exists l, writeVarBlob data w = Ret (tt, BinaryBlobWriter.mk (BinaryBlobWriter.content w ++ l)) /\
    (reader_ok st -> unread st = l ++ k -> (length l <= fuel)%nat ->
     readVarBlob fuel max_size st =
       if max_size <? Z.of_nat (length data) then Exn OverflowException
       else Ret (data, moved (Z.of_nat (length l)) st)).
Proof.
  intros Hlen. set (v := Z.of_nat (length data)) in *.
  exists (varint_bytes v ++ data). split.
  { unfold writeVarBlob, mbind, act_bind. fold v.
    rewrite (proj2 (writeVarint_spec v w)) by (unfold in_u; lia).
    destruct (Z.ltb_spec v (2 ^ 63)); [|lia]. unfold writeBytes, writeDirect, BinaryBlobWriter.writeDirect.
    cbn [BinaryBlobWriter.content]. by rewrite <- app_assoc. }
  intros Hok Hu Hf. unfold readVarBlob, mbind, act_bind.
  rewrite <- app_assoc in Hu. rewrite length_app in Hf.
  rewrite (proj2 (readVarint_bytes v (data ++ k) st fuel Hok Hu ltac:(lia))) by (unfold in_u; lia).
  destruct (Z.ltb_spec v (2 ^ 60)); [|lia].
  destruct (max_size <? v); [done|].
  destruct (unread_moved st _ _ Hok Hu) as [Hok' Hu'].
  subst v. rewrite (mem_fixed_prefix _ _ _ _ data k (readBytes_body (length data)) Hok' Hu' eq_refl).
  rewrite moved_moved, length_app. do 3 f_equal. lia.
Qed.

Lemma varblob_roundtrip_witness :
  exists l, writeVarBlob [7; 8; 9] (BinaryBlobWriter.mk []) = Ret (tt, BinaryBlobWriter.mk l) /\
    readVarBlob 4 2 (BinaryMemReader.create l) = Exn OverflowException /\
    readVarBlob 4 16 (BinaryMemReader.create l) = Ret ([7; 8; 9], moved 4 (BinaryMemReader.create l)).
Proof.
  assert (reader_ok (BinaryMemReader.create [3; 7; 8; 9])) as Hok
    by (apply reader_ok_create; [by apply (bool_decide_unpack _) | reflexivity]).
  exists [3; 7; 8; 9].
  destruct (varblob_roundtrip [7; 8; 9] [] 2 (BinaryBlobWriter.mk []) (BinaryMemReader.create [3; 7; 8; 9]) 4)
    as (l & Hw & Hr); [by apply (bool_decide_unpack _)|].
  vm_compute in Hw. injection Hw as <-.
  destruct (varblob_roundtrip [7; 8; 9] [] 16 (BinaryBlobWriter.mk []) (BinaryMemReader.create [3; 7; 8; 9]) 4)
    as (l & Hw & Hr'); [by apply (bool_decide_unpack _)|].
  vm_compute in Hw. injection Hw as <-.
  split; [done|]. split; [exact (Hr Hok eq_refl (le_n _)) | exact (Hr' Hok eq_refl (le_n _))].
Defined.

(** The memory writer never writes outside its buffer: a write either fits
    in the room left and extends the written part by exactly its bytes, or
    throws [EndOfDataException]; bytes beyond the written part are untouched. *)
Theorem mem_writer_bounded (data : list Z) (st : BinaryMemWriter.t) :
  BinaryMemWriter.ok st -> 
  match writeBytes data st with
  | Ret (_, st') => Z.of_nat (length data) <= BinaryMemWriter.pendingSize st /\
      BinaryMemWriter.ok st' /\ written st' = written st ++ data /\
      drop (Z.to_nat (BinaryMemWriter.current_pos st')) (BinaryMemWriter.mem st')
        = drop (Z.to_nat (BinaryMemWriter.current_pos st')) (BinaryMemWriter.mem st)
  | Exn e => e = EndOfDataException /\ BinaryMemWriter.pendingSize st < Z.of_nat (length data)
  | Crash _ | NoFuel => False
  end.
Proof.
  intros Hok. unfold writeBytes.
  destruct (decide (Z.of_nat (length data) < 2 ^ 63)) as [Hd|Hd].
  - pose proof (writeDirect_ok data st Hok Hd) as Hw. rewrite (mem_writeDirect data st Hok) in *.
    destruct (Z.ltb_spec (BinaryMemWriter.pendingSize st) (Z.of_nat (length data))); [done|].
    destruct Hw as [Hw1 Hw2]. split_and!; try done.
    destruct Hok as (? & ?). unfold BinaryMemWriter.pendingSize in *. cbn [BinaryMemWriter.current_pos BinaryMemWriter.mem].
    rewrite app_assoc, drop_app_ge; rewrite length_app, length_take; [|lia].
    rewrite drop_drop. f_equal. lia.
  - rewrite (mem_writeDirect data st Hok). destruct Hok as (? & ?).
    unfold BinaryMemWriter.pendingSize in *. by destruct (Z.ltb_spec (BinaryMemWriter.end_pos st - BinaryMemWriter.current_pos st) (Z.of_nat (length data))); [|lia].
Qed.

Lemma mem_writer_bounded_witness :
  match writeBytes [1; 2] (BinaryMemWriter.create [0; 0; 0]) with
  | Ret (_, st') => written st' = [1; 2]
  | _ => False
  end.
Proof.
  pose proof (mem_writer_bounded [1; 2] (BinaryMemWriter.create [0; 0; 0])
    ltac:(unfold BinaryMemWriter.ok; simpl; lia)) as H.
  destruct (writeBytes [1; 2] (BinaryMemWriter.create [0; 0; 0])) as [[_ st']|e|c|].
  - apply H.
  - by destruct H as [_ H].
  - apply H.
  - apply H.
Defined.
