(* ===== verification/CString.v ===== *)
(** * C characters and numbers in text

    The parts of the C library the parsers use, on [char *] strings given as the
    list of their characters (0..255) without the terminating NUL: the character
    classes of the C locale, [strtoll] with base 0, and decimal output. *)

From Stdlib Require Import Ascii String.
From S2P Require Import Prelude Machine.

Definition chr (a : ascii) : Z := Z.of_N (N_of_ascii a).
Definition chars (s : string) : list Z := map chr (list_ascii_of_string s).

(** ** Character classes *)

Definition isdigit (c : Z) : bool := (48 <=? c) && (c <=? 57).
Definition isalpha (c : Z) : bool := ((65 <=? c) && (c <=? 90)) || ((97 <=? c) && (c <=? 122)).
Definition isalnum (c : Z) : bool := isalpha c || isdigit c.
Definition isspace (c : Z) : bool := (c =? 32) || ((9 <=? c) && (c <=? 13)).

(** The character a pointer points to, NUL at the end of the string. *)
Definition deref (s : list Z) : Z := match s with c :: _ => c | [] => 0 end.

Fixpoint skip_space (s : list Z) : list Z :=
  match s with
  | c :: rest => if isspace c then skip_space rest else s
  | [] => []
  end.

(** [span p s]: the longest prefix of [p] characters, and what follows it. *)
Fixpoint span (p : Z -> bool) (s : list Z) : list Z * list Z :=
  match s with
  | c :: rest => if p c then let '(a, b) := span p rest in (c :: a, b) else ([], s)
  | [] => ([], [])
  end.

(** The string a [char *] points to. *)
Definition c_text (s : list Z) : list Z := fst (span (fun c => negb (c =? 0)) s).

(** ** strtoll with base 0 *)

Definition LLONG_MAX : Z := 2 ^ 63 - 1.
Definition LLONG_MIN : Z := - 2 ^ 63.

Definition digit_value (base c : Z) : option Z :=
  let d := if isdigit c then c - 48
           else if (65 <=? c) && (c <=? 90) then c - 55
           else if (97 <=? c) && (c <=? 122) then c - 87 else 36 in
  if d <? base then Some d else None.

Fixpoint digits_loop (base acc : Z) (s : list Z) : Z * list Z :=
  match s with
  | c :: rest =>
    match digit_value base c with
    | Some d => digits_loop base (acc * base + d) rest
    | None => (acc, s)
    end
  | [] => (acc, [])
  end.

Definition number_base (s : list Z) : Z * list Z :=
  if deref s =? 48 then
    match s with
    | _ :: x :: c :: rest =>
      if ((x =? 120) || (x =? 88)) && bool_decide (is_Some (digit_value 16 c)) then (16, c :: rest) else (8, s)
    | _ => (8, s)
    end
  else (10, s).

Definition strtoll (s : list Z) : Z * list Z :=
  let t := skip_space s in
  let '(neg, u) :=
    if deref t =? 45 then (true, tail t) else if deref t =? 43 then (false, tail t) else (false, t) in
  let '(base, v) := number_base u in
  match digit_value base (deref v) with
  | None => (0, s)
  | Some _ =>
    let '(n, rest) := digits_loop base 0 v in
    ((if neg : bool then Z.max LLONG_MIN (- n) else Z.min LLONG_MAX n), rest)
  end.

(** ** Decimal output *)

Fixpoint dec_rev (fuel : nat) (n : Z) : list Z :=
  match fuel with
  | O => []
  | S fuel => if n <? 10 then [48 + n] else (48 + n mod 10) :: dec_rev fuel (n / 10)
  end.

Definition dec (n : Z) : list Z := rev (dec_rev (S (Z.to_nat (Z.log2 n))) n).

Definition print_int (n : Z) : list Z := if n <? 0 then 45 :: dec (- n) else dec n.

(** ** Lemmas *)

Lemma length_skip_space s : (length (skip_space s) <= length s)%nat.
Proof. induction s as [|c s IH]; simpl; [done|]. destruct (isspace c); simpl; lia. Qed.

Lemma span_app p s : fst (span p s) ++ snd (span p s) = s.
Proof.
  induction s as [|c s IH]; simpl; [done|]. destruct (p c); [|done].
  destruct (span p s). simpl in *. by rewrite IH.
Qed.

Lemma length_span p s : (length (snd (span p s)) <= length s)%nat.
Proof. rewrite <- (span_app p s) at 2. rewrite length_app. lia. Qed.

(** The span stops at a character outside the class. *)
Definition stops (p : Z -> bool) (s : list Z) : Prop := match s with c :: _ => p c = false | [] => True end.

Lemma span_exact p a s : Forall (fun c => p c = true) a -> stops p s -> span p (a ++ s) = (a, s).
Proof.
  intros Ha Hs. induction Ha as [|c a Hc _ IH]; simpl.
  - destruct s as [|c s]; [done|]. simpl in *. by rewrite Hs.
  - by rewrite Hc, IH.
Qed.

Lemma skip_space_stops s : stops isspace s -> skip_space s = s.
Proof. destruct s as [|c s]; simpl; [done|]. by intros ->. Qed.

Lemma length_digits_loop base acc s : (length (snd (digits_loop base acc s)) <= length s)%nat.
Proof.
  revert acc. induction s as [|c s IH]; intros acc; simpl; [done|].
  destruct (digit_value base c); simpl; [|done]. specialize (IH (acc * base + z)). lia.
Qed.

Lemma isdigit_bounds c : isdigit c = true <-> 48 <= c <= 57.
Proof. unfold isdigit. rewrite andb_true_iff, !Z.leb_le. lia. Qed.

Lemma digit_value_digit base c : isdigit c = true -> c - 48 < base -> digit_value base c = Some (c - 48).
Proof. unfold digit_value. intros -> H. simpl. apply Z.ltb_lt in H. by rewrite H. Qed.

(** ** A number starting with a digit *)

Lemma number_base_spec s : isdigit (deref s) = true ->
  is_Some (digit_value (fst (number_base s)) (deref (snd (number_base s)))) /\
  snd (number_base s) <> [] /\ (length (snd (number_base s)) <= length s)%nat.
Proof.
  intros Hd. unfold number_base. destruct (Z.eqb_spec (deref s) 48) as [E|E].
  - destruct s as [|c [|x [|d s]]]; simpl in E; [done|subst; split; [by eexists|done]..|]. subst.
    destruct (((x =? 120) || (x =? 88)) && bool_decide (is_Some (digit_value 16 d))) eqn:E;
      simpl; [|split; [by eexists|done]].
    apply andb_prop in E as [_ E]. apply bool_decide_eq_true in E. split_and!; [done|done|lia].
  - apply isdigit_bounds in Hd as Hd'. split_and!; [|by destruct s|done].
    eexists. apply digit_value_digit; [done|simpl; lia].
Qed.

Lemma digits_loop_progress base acc s :
  is_Some (digit_value base (deref s)) -> s <> [] -> (length (snd (digits_loop base acc s)) < length s)%nat.
Proof.
  intros [d Hd] Hs. destruct s as [|c s]; [done|]. simpl in *. rewrite Hd.
  pose proof (length_digits_loop base (acc * base + d) s). lia.
Qed.

(** [strtoll] on a text starting with a digit, as the tokenizer calls it. *)
Lemma strtoll_progress s : isdigit (deref s) = true -> (length (snd (strtoll s)) < length s)%nat.
Proof.
  intros Hd. apply isdigit_bounds in Hd as Hb. destruct s as [|c s]; [done|]. simpl in Hb.
  assert (skip_space (c :: s) = c :: s) as E.
  { apply skip_space_stops. simpl. unfold isspace. apply orb_false_iff. rewrite andb_false_iff, Z.eqb_neq, !Z.leb_gt. lia. }
  unfold strtoll. rewrite E. simpl deref.
  destruct (Z.eqb_spec c 45); [lia|]. destruct (Z.eqb_spec c 43); [lia|].
  destruct (number_base_spec (c :: s) Hd) as ([d Hdv] & Hv & Hl).
  destruct (number_base (c :: s)) as [base v]. simpl fst in *. simpl snd in *. rewrite Hdv.
  pose proof (digits_loop_progress base 0 v ltac:(by eexists) Hv).
  destruct (digits_loop base 0 v) as [m rest]. simpl in *. lia.
Qed.

(** ** Decimal output is read back *)

Lemma digits_loop_digits ds acc s :
  Forall (fun c => isdigit c = true) ds -> stops isdigit s ->
  digits_loop 10 acc (ds ++ s) = (fold_left (fun a c => a * 10 + (c - 48)) ds acc, s).
Proof.
  intros Hds Hs. revert acc. induction Hds as [|c ds Hc _ IH]; intros acc; simpl.
  - destruct s as [|c s]; [done|]. simpl in *. unfold digit_value. rewrite Hs.
    destruct ((65 <=? c) && (c <=? 90)) eqn:E1; bool_to_prop; [rewrite (proj2 (Z.ltb_ge _ _)) by lia; done|].
    destruct ((97 <=? c) && (c <=? 122)) eqn:E2; bool_to_prop; [rewrite (proj2 (Z.ltb_ge _ _)) by lia; done|done].
  - rewrite digit_value_digit; [apply IH|done|]. apply isdigit_bounds in Hc. lia.
Qed.

Lemma dec_short n : 0 <= n <= 2 ^ 63 -> (length (dec n) <= 65)%nat.
Proof.
  intros Hn. unfold dec. rewrite length_rev. assert (forall k m, (length (dec_rev k m) <= k)%nat) as H.
  { induction k as [|k IH]; intros m; simpl; [lia|]. case_match; simpl; [lia|]. specialize (IH (m / 10)). lia. }
  etrans; [apply H|]. assert (Z.log2 n <= Z.log2 (2 ^ 63)) by (apply Z.log2_le_mono; lia). rewrite Z.log2_pow2 in * by lia. lia.
Qed.

Lemma dec_rev_digits fuel n : 0 <= n -> Forall (fun c => isdigit c = true) (dec_rev fuel n).
Proof.
  revert n. induction fuel as [|fuel IH]; intros n Hn; simpl; [by constructor|].
  destruct (Z.ltb_spec n 10).
  - repeat constructor. apply isdigit_bounds. lia.
  - constructor; [apply isdigit_bounds; pose proof (Z.mod_pos_bound n 10); lia|].
    apply IH, Z.div_pos; lia.
Qed.

Lemma dec_rev_value fuel n : 0 <= n < 10 ^ Z.of_nat fuel ->
  fold_right (fun c a => a * 10 + (c - 48)) 0 (dec_rev fuel n) = n.
Proof.
  revert n. induction fuel as [|fuel IH]; intros n Hn; simpl; [simpl in Hn; lia|].
  destruct (Z.ltb_spec n 10); simpl; [lia|].
  rewrite Nat2Z.inj_succ, Z.pow_succ_r in Hn by lia.
  rewrite IH by (split; [apply Z.div_pos; lia|apply Z.div_lt_upper_bound; lia]).
  pose proof (Z.div_mod n 10). lia.
Qed.

Lemma dec_rev_last fuel n : 0 < n < 10 ^ Z.of_nat fuel ->
  exists ds c, dec_rev fuel n = ds ++ [c] /\ c <> 48 /\ isdigit c = true.
Proof.
  revert n. induction fuel as [|fuel IH]; intros n Hn; simpl; [simpl in Hn; lia|].
  destruct (Z.ltb_spec n 10).
  - exists [], (48 + n). split_and!; [done|lia|apply isdigit_bounds; lia].
  - rewrite Nat2Z.inj_succ, Z.pow_succ_r in Hn by lia.
    destruct (IH (n / 10)) as (ds & c & -> & Hc); [split; [apply Z.div_str_pos; lia|apply Z.div_lt_upper_bound; lia]|].
    by exists ((48 + n mod 10) :: ds), c.
Qed.

Lemma dec_fuel n : 0 <= n -> n < 10 ^ Z.of_nat (S (Z.to_nat (Z.log2 n))).
Proof.
  intros Hn. pose proof (Z.log2_nonneg n). rewrite Nat2Z.inj_succ, Z2Nat.id by done.
  destruct (decide (n = 0)) as [->|]; [done|].
  pose proof (Z.log2_spec n ltac:(lia)).
  pose proof (Z.pow_le_mono_l 2 10 (Z.succ (Z.log2 n))). lia.
Qed.

Lemma dec_rev_fuel fuel : forall fuel' n, 0 <= n < 10 ^ Z.of_nat fuel -> n < 10 ^ Z.of_nat fuel' -> (0 < fuel)%nat -> (0 < fuel')%nat ->
  dec_rev fuel n = dec_rev fuel' n.
Proof.
  induction fuel as [|fuel IH]; intros fuel' n Hn Hn' Hf Hf'; [lia|]. destruct fuel' as [|fuel']; [lia|]. cbn [dec_rev].
  destruct (Z.ltb_spec n 10); [done|]. f_equal. rewrite Nat2Z.inj_succ, Z.pow_succ_r in Hn, Hn' by lia.
  assert (10 ^ Z.of_nat 0 = 1) as E0 by done. apply IH; [divlia|divlia| |].
  - destruct fuel; [lia|lia].
  - destruct fuel'; [lia|lia].
Qed.

Lemma dec_small fuel n : (0 < fuel)%nat -> 0 <= n < 10 ^ Z.of_nat fuel -> dec n = rev (dec_rev fuel n).
Proof. intros Hf Hn. unfold dec. f_equal. apply dec_rev_fuel; [split; [lia|apply dec_fuel; lia]|lia|lia|done]. Qed.

Lemma dec_digits n : 0 <= n -> Forall (fun c => isdigit c = true) (dec n).
Proof. intros. by apply Forall_rev, dec_rev_digits. Qed.

Lemma dec_head n : 0 <= n -> n = 0 /\ dec n = [48] \/
  exists c ds, dec n = c :: ds /\ c <> 48 /\ isdigit c = true.
Proof.
  intros Hn. pose proof (dec_fuel n Hn). destruct (decide (n = 0)) as [->|]; [by left|right].
  destruct (dec_rev_last (S (Z.to_nat (Z.log2 n))) n) as (ds & c & E & Hc); [lia|].
  exists c, (rev ds). unfold dec. rewrite E, rev_unit. done.
Qed.

Lemma dec_value n s : 0 <= n -> stops isdigit s -> digits_loop 10 0 (dec n ++ s) = (n, s).
Proof.
  intros Hn Hs. rewrite digits_loop_digits by (done || by apply dec_digits). f_equal. unfold dec.
  rewrite <- fold_left_rev_right, rev_involutive. apply dec_rev_value. split; [done|by apply dec_fuel].
Qed.

(** What follows a number must not be taken for a part of it. *)
Definition number_ends (s : list Z) : Prop :=
  match s with c :: _ => isalnum c = false | [] => True end.

Lemma number_ends_stops s : number_ends s -> stops isdigit s.
Proof. destruct s as [|c s]; [done|]. unfold number_ends, isalnum. rewrite orb_false_iff. by intros []. Qed.

Lemma isdigit_not_space c : isdigit c = true -> isspace c = false.
Proof.
  intros H. apply isdigit_bounds in H. unfold isspace.
  apply orb_false_iff. rewrite andb_false_iff, Z.eqb_neq, !Z.leb_gt. lia.
Qed.

Lemma dec_unsigned n s : 0 <= n -> number_ends s ->
  exists base v, number_base (dec n ++ s) = (base, v) /\ is_Some (digit_value base (deref v)) /\
    digits_loop base 0 v = (n, s).
Proof.
  intros Hn Hs. pose proof (number_ends_stops s Hs) as Hs'.
  destruct (dec_head n Hn) as [[-> E]|(c & ds & E & Hc & Hd)].
  - exists 8, (48 :: s). rewrite E. split_and!; [|by eexists|].
    + simpl. unfold number_base. simpl. destruct s as [|x [|y s]]; [done..|]. simpl in Hs.
      destruct (Z.eqb_spec x 120) as [->|]; [done|]. by destruct (Z.eqb_spec x 88) as [->|].
    + simpl. destruct s as [|x s]; [done|]. simpl in *. unfold digit_value. rewrite Hs'.
      apply orb_false_iff in Hs as [Hs _]. unfold isalpha in Hs. apply orb_false_iff in Hs as [Ha Hb].
      by rewrite Ha, Hb.
  - exists 10, (dec n ++ s). split_and!.
    + unfold number_base. rewrite E. simpl. by destruct (Z.eqb_spec c 48).
    + rewrite E. simpl. rewrite digit_value_digit; [by eexists|done|]. apply isdigit_bounds in Hd. lia.
    + by apply dec_value.
Qed.

Lemma dec_starts n s : 0 <= n -> isdigit (deref (dec n ++ s)) = true.
Proof. intros Hn. by destruct (dec_head n Hn) as [[-> E]|(c & ds & E & Hc & Hd)]; rewrite E. Qed.

Lemma strtoll_dec n s : 0 <= n <= LLONG_MAX -> number_ends s -> strtoll (dec n ++ s) = (n, s).
Proof.
  intros Hn Hs. pose proof (dec_starts n s ltac:(lia)) as Hd. unfold strtoll.
  rewrite skip_space_stops by (destruct (dec n ++ s); [done|by apply isdigit_not_space]).
  apply isdigit_bounds in Hd. destruct (Z.eqb_spec (deref (dec n ++ s)) 45); [lia|].
  destruct (Z.eqb_spec (deref (dec n ++ s)) 43); [lia|].
  destruct (dec_unsigned n s ltac:(lia) Hs) as (base & v & -> & [d ->] & ->). f_equal. lia.
Qed.

Lemma strtoll_neg n s : 0 <= n <= 2 ^ 63 -> number_ends s -> strtoll (45 :: dec n ++ s) = (- n, s).
Proof.
  intros Hn Hs. unfold strtoll. simpl skip_space. simpl deref. simpl tail. cbn [Z.eqb Pos.eqb].
  destruct (dec_unsigned n s ltac:(lia) Hs) as (base & v & -> & [d ->] & ->). f_equal.
  unfold LLONG_MIN. lia.
Qed.

Lemma digit_value_nonneg base c d : digit_value base c = Some d -> 0 <= d.
Proof.
  unfold digit_value, isdigit. intros E. destruct (_ <? base); [|done]. injection E as <-.
  repeat case_match; bool_to_prop; lia.
Qed.

Lemma digits_loop_nonneg base acc s : 0 <= base -> 0 <= acc -> 0 <= fst (digits_loop base acc s).
Proof.
  intros Hb. revert acc. induction s as [|c s IH]; intros acc Ha; simpl; [done|].
  destruct (digit_value base c) as [d|] eqn:E; [|done]. apply IH.
  apply digit_value_nonneg in E. nia.
Qed.

Lemma number_base_nonneg s : 0 <= fst (number_base s).
Proof.
  unfold number_base. destruct (_ =? 48); [|done].
  destruct s as [|? [|? [|? ?]]]; [done..|]. by destruct (_ && _).
Qed.

Lemma strtoll_range s : in_s 64 (fst (strtoll s)).
Proof.
  unfold in_s, strtoll. destruct (if deref (skip_space s) =? 45 then (true, tail (skip_space s)) else _) as [neg u].
  pose proof (number_base_nonneg u). destruct (number_base u) as [base v].
  destruct (digit_value base (deref v)); [|done].
  pose proof (digits_loop_nonneg base 0 v H ltac:(done)). destruct (digits_loop base 0 v) as [m rest].
  simpl in *. unfold LLONG_MIN, LLONG_MAX. destruct neg; lia.
Qed.
