(* ===== verification/Evaluator.v ===== *)
(** * core/eval: Evaluator

    The operator-precedence parser of [Evaluator::parseExpression], written
    against the two things a concrete evaluator supplies: its expression
    objects ([ExpressionOps]) and its tokenizer ([TokenParser]). A [char *] is
    the list of the characters up to the terminating NUL; the parser stack is a
    list with its last node first; the operands array is a list in array order. *)

From S2P Require Import Prelude Machine.

Inductive ParserState := PS_Finished | PS_Expression | PS_BinOperator.

#[global] Instance ParserState_eq_dec : EqDecision ParserState.
Proof. solve_decision. Defined.

(** A token with the values [parseNextToken] stores for it: the expression, its
    priority and its number of operands. *)
Inductive TokenType (E : Type) :=
| TT_Finish
| TT_Expression (expression : E)
| TT_Operator (expression : E) (num_args prio : Z)
| TT_OpenParenthesis
| TT_CloseParenthesis
| TT_Function (expression : E) (num_args : Z).

Arguments TT_Finish {E}.
Arguments TT_Expression {E} _.
Arguments TT_Operator {E} _ _ _.
Arguments TT_OpenParenthesis {E}.
Arguments TT_CloseParenthesis {E}.
Arguments TT_Function {E} _ _.

Inductive ParseElement (E : Type) :=
| PE_None
| PE_Operation (expression : E) (priority num_args : Z)
| PE_Function (expression : E) (num_args : Z)
| PE_OpenParenthesis.

Arguments PE_None {E}.
Arguments PE_Operation {E} _ _ _.
Arguments PE_Function {E} _ _.
Arguments PE_OpenParenthesis {E}.

(** ** What a concrete evaluator supplies *)

Class ExpressionOps (E : Type) := setOperands : E -> list E -> res E.

Class TokenParser (E : Type) :=
  parseNextToken : list Z -> ParserState -> res (TokenType E * list Z).

Section Evaluator.
Context {E : Type} {EO : ExpressionOps E} {TP : TokenParser E}.

(** The parser's locals: what is left of the text, its state, the stack and
    the operands. *)
Record parser := mk_parser {
  expr_str : list Z;
  state : ParserState;
  parse_stack : list (ParseElement E);
  operands : list E;
}.

(** The block repeated for every element taken off the stack: give the
    expression its last [num_args] operands and make it an operand itself. *)
Definition takeOperands (expression : E) (num_args : Z) (operands : list E) : res (list E) :=
  if 0 <? num_args then
    if Z.of_nat (length operands) <? num_args then Exn InvalidFormatException
    else
      let n := (length operands - Z.to_nat num_args)%nat in
      expression ← setOperands expression (drop n operands);
      Ret (take n operands ++ [expression])
  else Ret (operands ++ [expression]).

(** [case TT_Finish]: empties the stack. *)
Fixpoint finish_loop (stack : list (ParseElement E)) (operands : list E) : res (list E) :=
  match stack with
  | [] => Ret operands
  | PE_OpenParenthesis :: _ => Exn InvalidFormatException
  | PE_Operation expression _ num_args :: stack =>
    operands ← takeOperands expression num_args operands; finish_loop stack operands
  | PE_Function expression num_args :: stack =>
    operands ← takeOperands expression num_args operands; finish_loop stack operands
  | PE_None :: _ => Crash AssertFailed
  end.

Definition finish (stack : list (ParseElement E)) (ops : list E) : res E :=
  ops ← finish_loop stack ops;
  match ops with
  | [expression_tree] => Ret expression_tree
  | _ => Exn InvalidFormatException
  end.

(** [case TT_Operator]: the loop leaves through its last [break] after one
    element at the latest. *)
Definition operator_pop (priority : Z) (stack : list (ParseElement E)) (ops : list E) :
    res (list (ParseElement E) * list E) :=
  match stack with
  | PE_Operation expression last_priority num_args :: rest =>
    if (if 0 <? priority then u32 priority <? last_priority else u32 (- priority) <=? last_priority)
    then Ret (stack, ops)
    else ops ← takeOperands expression num_args ops; Ret (rest, ops)
  | _ => Ret (stack, ops)
  end.

(** [case TT_CloseParenthesis]: back to the opening parenthesis, or to the
    bottom of the stack. *)
Fixpoint close_loop (stack : list (ParseElement E)) (ops : list E) :
    res (list (ParseElement E) * list E) :=
  match stack with
  | [] => Ret ([], ops)
  | PE_OpenParenthesis :: stack => Ret (stack, ops)
  | PE_Function expression num_args :: stack =>
    ops ← takeOperands expression num_args ops; close_loop stack ops
  | PE_Operation expression _ num_args :: stack =>
    ops ← takeOperands expression num_args ops; close_loop stack ops
  | PE_None :: _ => Crash AssertFailed
  end.

(** The second switch of the parser, for a token other than [TT_Finish]. *)
Definition parse_token (t : TokenType E) (rest : list Z) (p : parser) : res parser :=
  match t with
  | TT_Finish => Crash AssertFailed
  | TT_Expression e => Ret (mk_parser rest PS_BinOperator (parse_stack p) (operands p ++ [e]))
  | TT_Operator e num_args priority =>
    '(stack, ops) ← operator_pop priority (parse_stack p) (operands p);
    Ret (mk_parser rest PS_Expression
      (PE_Operation e (if priority <? 0 then - priority else priority) num_args :: stack) ops)
  | TT_OpenParenthesis => Ret (mk_parser rest PS_Expression (PE_OpenParenthesis :: parse_stack p) (operands p))
  | TT_CloseParenthesis =>
    '(stack, ops) ← close_loop (parse_stack p) (operands p);
    Ret (mk_parser rest PS_BinOperator stack ops)
  | TT_Function e num_args =>
    Ret (mk_parser rest PS_Expression (PE_Function e num_args :: parse_stack p) (operands p))
  end.

Fixpoint parse_loop (fuel : nat) (p : parser) : res E :=
  match fuel with
  | O => NoFuel
  | S fuel =>
    '(t, rest) ← parseNextToken (expr_str p) (state p);
    match t with
    | TT_Finish => finish (parse_stack p) (operands p)
    | _ => p ← parse_token t rest p; parse_loop fuel p
    end
  end.

(** The first switch: what may start an expression. *)
Definition first_token (t : TokenType E) (rest : list Z) : res parser :=
  match t with
  | TT_Finish => Exn EndOfDataException
  | TT_Operator e num_args priority =>
    Ret (mk_parser rest PS_Expression [PE_Operation e (u32 priority) num_args] [])
  | TT_Expression e => Ret (mk_parser rest PS_BinOperator [] [e])
  | TT_OpenParenthesis => Ret (mk_parser rest PS_Expression [PE_OpenParenthesis] [])
  | TT_Function e num_args => Ret (mk_parser rest PS_Expression [PE_Function e num_args] [])
  | TT_CloseParenthesis => Exn InvalidFormatException
  end.

(** Every token but the last takes at least one character, so the length of
    the text is fuel enough. *)
Definition parseExpression (expression : list Z) : res E :=
  '(t, rest) ← parseNextToken expression PS_Expression;
  p ← first_token t rest;
  parse_loop (S (length expression)) p.

End Evaluator.

Arguments parser : clear implicits.

(** ** What the parser relies on *)

(** [complete e]: an expression ready to be evaluated. [fits e n]: an operator
    or function object that becomes complete once given [n] operands. *)
Class TokenParserOk (E : Type) {EO : ExpressionOps E} {TP : TokenParser E} := {
  complete : E -> Prop;
  fits : E -> Z -> Prop;
  token_outcome : forall s st,
    match parseNextToken s st with
    | Ret (t, rest) =>
      (length rest <= length s)%nat /\
      match t with
      | TT_Finish => True
      | TT_Expression e => complete e /\ (length rest < length s)%nat
      | TT_Operator e n p => fits e n /\ (length rest < length s)%nat
      | TT_Function e n => fits e n /\ (length rest < length s)%nat
      | TT_OpenParenthesis | TT_CloseParenthesis => (length rest < length s)%nat
      end
    | Exn e => e = InvalidFormatException
    | Crash _ | NoFuel => False
    end;
  fits_pos : forall e n, fits e n -> 0 < n;
  fits_setOperands : forall e n l, fits e n -> Z.of_nat (length l) = n -> Forall complete l ->
    exists e', setOperands e l = Ret e' /\ complete e';
}.

(** ** Soundness and termination of the parser *)

(** [ends_in P r]: [r] is a result satisfying [P] or a parse exception; in
    particular no assertion failed and the fuel was enough. *)
Definition ends_in {A} (P : A -> Prop) (r : res A) : Prop :=
  match r with
  | Ret a => P a
  | Exn e => e = InvalidFormatException \/ e = EndOfDataException
  | Crash _ | NoFuel => False
  end.

Lemma ends_in_bind {A B} (P : A -> Prop) (Q : B -> Prop) (m : res A) (f : A -> res B) :
  ends_in P m -> (forall a, P a -> ends_in Q (f a)) -> ends_in Q (m ≫= f).
Proof. destruct m; simpl; auto. Qed.

Section Soundness.
Context {E : Type} {EO : ExpressionOps E} {TP : TokenParser E} {OK : TokenParserOk E}.

Definition element_ok (el : ParseElement E) : Prop :=
  match el with
  | PE_Operation e _ n | PE_Function e n => fits e n
  | PE_OpenParenthesis => True
  | PE_None => False
  end.

Definition stack_ok (stack : list (ParseElement E)) (ops : list E) : Prop :=
  Forall element_ok stack /\ Forall complete ops.

Lemma takeOperands_ok e n ops :
  fits e n -> Forall complete ops -> ends_in (Forall complete) (takeOperands e n ops).
Proof.
  intros Hf Hops. pose proof (fits_pos e n Hf). unfold takeOperands.
  destruct (Z.ltb_spec 0 n); [|lia]. destruct (Z.ltb_spec (Z.of_nat (length ops)) n); [by left|].
  destruct (fits_setOperands e n (drop (length ops - Z.to_nat n) ops)) as (e' & -> & He');
    [done | rewrite length_drop; lia | by apply Forall_drop |].
  simpl. apply Forall_app. split; [by apply Forall_take|by constructor].
Qed.

Lemma finish_loop_ok stack ops : stack_ok stack ops -> ends_in (Forall complete) (finish_loop stack ops).
Proof.
  intros [Hs Ho]. revert ops Ho. induction Hs as [|el stack Hel _ IH]; intros ops Ho; [done|].
  destruct el; simpl in *; [done| | |by left];
    (eapply ends_in_bind; [by apply takeOperands_ok|]; intros; by apply IH).
Qed.

Lemma close_loop_ok stack ops :
  stack_ok stack ops -> ends_in (fun '(s, o) => stack_ok s o) (close_loop stack ops).
Proof.
  intros [Hs Ho]. revert ops Ho. induction Hs as [|el stack Hel Hs IH]; intros ops Ho; [done|].
  destruct el; simpl in *; [done| | |by split];
    (eapply ends_in_bind; [by apply takeOperands_ok|]; intros; by apply IH).
Qed.

Lemma operator_pop_ok prio stack ops :
  stack_ok stack ops -> ends_in (fun '(s, o) => stack_ok s o) (operator_pop prio stack ops).
Proof.
  intros [Hs Ho]. unfold operator_pop. destruct Hs as [|el stack Hel Hs]; [by repeat constructor|].
  destruct el; try by repeat constructor.
  destruct (if 0 <? prio then _ else _); [by repeat constructor|].
  eapply ends_in_bind; [by apply takeOperands_ok|]. intros; by split.
Qed.

Lemma parse_loop_ok fuel (p : parser E) :
  stack_ok (parse_stack p) (operands p) -> (length (expr_str p) < fuel)%nat ->
  ends_in complete (parse_loop fuel p).
Proof.
  revert p. induction fuel as [|fuel IH]; intros p Hok Hf; [lia|]. cbn [parse_loop].
  pose proof (token_outcome (expr_str p) (state p)) as Ht.
  destruct (parseNextToken (expr_str p) (state p)) as [[t rest]|e|c|]; simpl; try done; [|by left].
  destruct Ht as [Hr Ht].
  assert (forall p', ends_in (fun q => stack_ok (parse_stack q) (operands q) /\ expr_str q = rest) p' ->
    (length rest < length (expr_str p))%nat -> ends_in complete (p' ≫= parse_loop fuel)) as Hnext.
  { intros p' Hp' Hl. eapply ends_in_bind; [exact Hp'|]. intros q [Hq Hqr]. apply IH; [done|]. rewrite Hqr. lia. }
  destruct Hok as [Hs Ho]. destruct t as [|e|e n prio| | |e n].
  - unfold finish. eapply ends_in_bind; [by apply finish_loop_ok|]. intros [|x [|y l]] Hx; [by left| |by left].
    by inv Hx.
  - apply Hnext; [|apply Ht]. split; [split; simpl; [done|]|done].
    apply Forall_app. split; [done|]. constructor; [apply Ht|done].
  - apply Hnext; [|apply Ht]. cbn [parse_token]. eapply ends_in_bind; [by apply operator_pop_ok|].
    intros [s o] [Hs' Ho']. split; [split; simpl; [constructor; [apply Ht|done]|done]|done].
  - apply Hnext; [|done]. split; [split; simpl; [by constructor|done]|done].
  - apply Hnext; [|done]. cbn [parse_token]. eapply ends_in_bind; [by apply close_loop_ok|].
    intros [s o] Hso. by split.
  - apply Hnext; [|apply Ht]. split; [split; simpl; [constructor; [apply Ht|done]|done]|done].
Qed.

Lemma parseExpression_ok s : ends_in complete (parseExpression s).
Proof.
  unfold parseExpression. pose proof (token_outcome s PS_Expression) as Ht.
  destruct (parseNextToken s PS_Expression) as [[t rest]|e|c|]; [|by left|done|done].
  destruct Ht as [Hr Ht].
  destruct t as [|e|e n prio| | |e n]; cbn [first_token mbind res_bind]; [by right| | | |by left|];
    (apply parse_loop_ok; cbn [parse_stack operands expr_str]; [|intuition lia]);
    split; repeat constructor; apply Ht.
Qed.
End Soundness.
