(* ===== verification/IntEvaluator.v ===== *)
(** * core/eval: IntEvaluator

    The expression classes of [Evaluator.hxx] and [IntEvaluator.hxx] as one
    inductive type, their virtual [evaluate] and [setOperands], the tokenizer
    [IntEvaluator::parseNextToken], and the parser of [Evaluator.v] on them.
    [Sint64] arithmetic wraps; a shift by an amount outside 0..63 and a division
    the hardware traps on are crashes. *)

From stdpp Require Import gmap.
From Stdlib Require Import Ascii String.
From S2P Require Import Prelude Machine CString Evaluator.

Inductive Operators :=
| OP_Unknown | OP_UnPlus | OP_UnMinus | OP_UnNot | OP_UnBitNot
| OP_BinPlus | OP_BinMinus | OP_BinMul | OP_BinDiv | OP_BinPower
| OP_BinEqual | OP_BinNonEq | OP_BinLower | OP_BinGreater | OP_BinLowerEq | OP_BinGreaterEq
| OP_BinLShift | OP_BinRShift | OP_BinByteSwap | OP_BinBitAnd | OP_BinBitOr | OP_BinBitXor
| OP_BinAnd | OP_BinOr | OP_BinXor | OP_Parenthesis.

#[global] Instance Operators_eq_dec : EqDecision Operators.
Proof. solve_decision. Defined.

(** What a [Ref<Expression>] refers to: [NullExpression] is the null reference
    of an operand that was not set. *)
Inductive Expression :=
| NullExpression
| DirectExpression (value : Z)
| VariableExpression (var_name : list Z)
| DefinedVariableExpression (var_name : list Z)
| ValueExpression (column_id : Z)
| DefinedValueExpression (column_id : Z)
| IntUnaryExpression (operation_id : Operators) (operand : Expression)
| IntBinaryFullExpression (operation_id : Operators) (operands0 operands1 : Expression)
| IntBinaryPartExpression (operation_id : Operators) (operands0 operands1 : Expression).

#[global] Instance Expression_eq_dec : EqDecision Expression.
Proof. solve_decision. Defined.

(** ** Arguments *)

(** The abstract class of what an expression is evaluated with. *)
Record Arguments_ := {
  getConstant : list Z -> res Z;
  checkConstant : list Z -> bool;
  getValue : Z -> res Z;
  checkValue : Z -> bool;
}.

Module ArgumentsHash.
Record t := mk { constants : gmap (list Z) Z; values : gmap Z Z }.

Definition getConstant (h : t) (name : list Z) : res Z :=
  match constants h !! name with Some v => Ret v | None => Exn DataNotFoundException end.
Definition getValue (h : t) (idx : Z) : res Z :=
  match values h !! idx with Some v => Ret v | None => Exn DataNotFoundException end.
Definition checkConstant (h : t) (name : list Z) : bool := bool_decide (is_Some (constants h !! name)).
Definition checkValue (h : t) (idx : Z) : bool := bool_decide (is_Some (values h !! idx)).

Definition arguments (h : t) : Arguments_ :=
  Build_Arguments_ (getConstant h) (checkConstant h) (getValue h) (checkValue h).
End ArgumentsHash.

(** ** Evaluation *)

Definition lognot (v : Z) : Z := Z.b2z (v =? 0).

Definition unary_op (op : Operators) (v : Z) : res Z :=
  match op with
  | OP_UnPlus => Ret v
  | OP_UnMinus => Ret (s64 (- v))
  | OP_UnNot => Ret (lognot v)
  | OP_UnBitNot => Ret (Z.lnot v)
  | _ => Exn DataNotFoundException
  end.

Definition shift_ok (r : Z) : bool := (0 <=? r) && (r <? 64).

(** [((l>>n)&mr)|((l<<n)&ml)] assigned back to the [Sint64]. *)
Definition swap_step (n mr ml l : Z) : Z :=
  s64 (Z.lor (Z.land (u64 (Z.shiftr l n)) mr) (Z.land (u64 (Z.shiftl l n)) ml)).

Definition byteswap (l r : Z) : res Z :=
  if r =? 1 then Ret (swap_step 1 0x5555555555555555 0xaaaaaaaaaaaaaaaa l)
  else if r =? 2 then Ret (swap_step 2 0x3333333333333333 0xcccccccccccccccc l)
  else if r =? 4 then Ret (swap_step 4 0x0f0f0f0f0f0f0f0f 0xf0f0f0f0f0f0f0f0 l)
  else if r =? 16 then Ret (swap_step 8 0x00ff 0xff00 l)
  else if r =? 32 then
    Ret (swap_step 16 0x0000ffff 0xffff0000 (swap_step 8 0x00ff00ff 0xff00ff00 l))
  else if r =? 64 then
    Ret (swap_step 32 0x00000000ffffffff 0xffffffff00000000
          (swap_step 16 0x0000ffff0000ffff 0xffff0000ffff0000
            (swap_step 8 0x00ff00ff00ff00ff 0xff00ff00ff00ff00 l)))
  else Exn InvalidFormatException.

Definition binary_full_op (op : Operators) (l r : Z) : res Z :=
  match op with
  | OP_BinPlus => Ret (s64 (l + r))
  | OP_BinMinus => Ret (s64 (l - r))
  | OP_BinMul => Ret (s64 (l * r))
  | OP_BinDiv =>
    if (r =? 0) || ((l =? LLONG_MIN) && (r =? -1)) then Crash DivByZero else Ret (Z.quot l r)
  | OP_BinEqual => Ret (Z.b2z (l =? r))
  | OP_BinNonEq => Ret (Z.b2z (negb (l =? r)))
  | OP_BinLower => Ret (Z.b2z (l <? r))
  | OP_BinGreater => Ret (Z.b2z (r <? l))
  | OP_BinLowerEq => Ret (Z.b2z (l <=? r))
  | OP_BinGreaterEq => Ret (Z.b2z (r <=? l))
  | OP_BinLShift => if shift_ok r then Ret (s64 (Z.shiftl l r)) else Crash BadShift
  | OP_BinRShift => if shift_ok r then Ret (Z.shiftr l r) else Crash BadShift
  | OP_BinByteSwap => byteswap l r
  | OP_BinBitAnd => Ret (Z.land l r)
  | OP_BinBitOr => Ret (Z.lor l r)
  | OP_BinBitXor => Ret (Z.lxor l r)
  | OP_BinXor => Ret (Z.lxor (lognot l) (lognot r))
  | _ => Exn InvalidFormatException
  end.

Fixpoint evaluate (e : Expression) (args : Arguments_) : res Z :=
  match e with
  | NullExpression => Crash NullDeref
  | DirectExpression value => Ret value
  | VariableExpression var_name => getConstant args var_name
  | DefinedVariableExpression var_name => Ret (Z.b2z (checkConstant args var_name))
  | ValueExpression column_id => getValue args column_id
  | DefinedValueExpression column_id => Ret (Z.b2z (checkValue args column_id))
  | IntUnaryExpression op operand =>
    match op with
    | OP_UnPlus | OP_UnMinus | OP_UnNot | OP_UnBitNot => v ← evaluate operand args; unary_op op v
    | _ => Exn DataNotFoundException
    end
  | IntBinaryFullExpression op operands0 operands1 =>
    l ← evaluate operands0 args; r ← evaluate operands1 args; binary_full_op op l r
  | IntBinaryPartExpression op operands0 operands1 =>
    l ← evaluate operands0 args;
    match op with
    | OP_BinAnd => if l =? 0 then Ret 0 else r ← evaluate operands1 args; Ret (Z.b2z (negb (r =? 0)))
    | OP_BinOr => if l =? 0 then r ← evaluate operands1 args; Ret (Z.b2z (negb (r =? 0))) else Ret 1
    | _ => Exn InvalidFormatException
    end
  end.

(** ** setOperands: reads the array the parser passes it *)

#[global] Instance IntExpression_setOperands : ExpressionOps Expression := fun e l =>
  match e with
  | IntUnaryExpression op _ =>
    match l with o :: _ => Ret (IntUnaryExpression op o) | [] => Crash OutOfBounds end
  | IntBinaryFullExpression op _ _ =>
    match l with o :: p :: _ => Ret (IntBinaryFullExpression op o p) | _ => Crash OutOfBounds end
  | IntBinaryPartExpression op _ _ =>
    match l with o :: p :: _ => Ret (IntBinaryPartExpression op o p) | _ => Crash OutOfBounds end
  | NullExpression => Crash NullDeref
  | _ => Crash AssertFailed
  end.

(** ** The tokenizer *)

Definition priorities (op : Operators) : Z :=
  match op with
  | OP_Unknown => 255
  | OP_UnPlus | OP_UnMinus | OP_UnNot | OP_UnBitNot => 15
  | OP_BinPlus | OP_BinMinus => 40
  | OP_BinMul | OP_BinDiv => 30
  | OP_BinPower => 25
  | OP_BinEqual | OP_BinNonEq | OP_BinLower | OP_BinGreater | OP_BinLowerEq | OP_BinGreaterEq => 60
  | OP_BinLShift | OP_BinRShift | OP_BinByteSwap => 70
  | OP_BinBitAnd | OP_BinBitOr | OP_BinBitXor => 80
  | OP_BinAnd | OP_BinOr | OP_BinXor => 90
  | OP_Parenthesis => 5
  end.

Definition token_result : Type := res (TokenType Expression * list Z).

(** [strtoll] of the text from [from], the reading position left after it. *)
Definition direct_token (from : list Z) : token_result :=
  let '(val, rest) := strtoll from in Ret (TT_Expression (DirectExpression val), rest).

Definition unary_token (op : Operators) (rest : list Z) : token_result :=
  Ret (TT_Operator (IntUnaryExpression op NullExpression) 1 (priorities op), rest).

(** The block repeated for the operators that need a left operand. *)
Definition full_token (op : Operators) (st : ParserState) (rest : list Z) : token_result :=
  match st with
  | PS_BinOperator =>
    Ret (TT_Operator (IntBinaryFullExpression op NullExpression NullExpression) 2 (priorities op), rest)
  | _ => Exn InvalidFormatException
  end.

Definition part_token (op : Operators) (st : ParserState) (rest : list Z) : token_result :=
  match st with
  | PS_BinOperator =>
    Ret (TT_Operator (IntBinaryPartExpression op NullExpression NullExpression) 2 (priorities op), rest)
  | _ => Exn InvalidFormatException
  end.

(** In each case [s] is the text after the character switched on. *)
Definition token_plus (s : list Z) (st : ParserState) : token_result :=
  match st with
  | PS_BinOperator => full_token OP_BinPlus st s
  | _ => if isdigit (deref s) then direct_token s else unary_token OP_UnPlus s
  end.

Definition token_minus (s : list Z) (st : ParserState) : token_result :=
  match st with
  | PS_BinOperator => full_token OP_BinMinus st s
  | _ => if isdigit (deref s) then direct_token (chr "-" :: s) else unary_token OP_UnMinus s
  end.

Definition token_equal (s : list Z) (st : ParserState) : token_result :=
  if deref s =? chr "=" then full_token OP_BinEqual st (tail s) else Exn InvalidFormatException.

Definition token_not (s : list Z) (st : ParserState) : token_result :=
  if deref s =? chr "=" then full_token OP_BinNonEq st (tail s)
  else match st with
       | PS_Expression => unary_token OP_UnNot s
       | _ => Exn InvalidFormatException
       end.

Definition token_div (s : list Z) (st : ParserState) : token_result := full_token OP_BinDiv st s.
Definition token_mul (s : list Z) (st : ParserState) : token_result := full_token OP_BinMul st s.

Definition token_lower (s : list Z) (st : ParserState) : token_result :=
  if deref s =? chr "=" then full_token OP_BinLowerEq st (tail s)
  else if deref s =? chr "<" then full_token OP_BinLShift st (tail s)
  else full_token OP_BinLower st s.

Definition token_greater (s : list Z) (st : ParserState) : token_result :=
  if deref s =? chr "=" then full_token OP_BinGreaterEq st (tail s)
  else if deref s =? chr ">" then
    let s := tail s in
    if (deref s =? chr "<") && (deref (tail s) =? chr "<")
    then full_token OP_BinByteSwap st (tail (tail s))
    else full_token OP_BinRShift st s
  else full_token OP_BinGreater st s.

Definition token_and (s : list Z) (st : ParserState) : token_result :=
  if deref s =? chr "&" then part_token OP_BinAnd st (tail s) else full_token OP_BinBitAnd st s.

Definition token_or (s : list Z) (st : ParserState) : token_result :=
  if deref s =? chr "|" then part_token OP_BinOr st (tail s) else full_token OP_BinBitOr st s.

Definition token_xor (s : list Z) (st : ParserState) : token_result :=
  if deref s =? chr "^" then full_token OP_BinXor st (tail s) else full_token OP_BinBitXor st s.

(** Here [s] starts with the digit. *)
Definition token_digit (s : list Z) (st : ParserState) : token_result :=
  match st with
  | PS_Expression => direct_token s
  | _ => Exn InvalidFormatException
  end.

Definition is_name_char (c : Z) : bool := isalnum c || (c =? chr "_") || (c =? chr ".").
Definition is_name_start (c : Z) : bool := isalpha c || (c =? chr "_").

(** After the word [defined]: a name, or [\] and a number. *)
Definition token_defined (s : list Z) : token_result :=
  let start := skip_space s in
  if is_name_start (deref start) then
    let '(name, rest) := span is_name_char (tail start) in
    Ret (TT_Expression (DefinedVariableExpression (deref start :: name)), rest)
  else if deref start =? chr "\" then
    let start := tail start in
    let '(ds, rest) := span isdigit start in
    match ds with
    | [] => Exn InvalidFormatException
    | _ => Ret (TT_Expression (DefinedValueExpression (u32 (fst (strtoll start)))), rest)
    end
  else Exn InvalidFormatException.

(** [s] starts with a letter or an underscore. *)
Definition token_name (s : list Z) (st : ParserState) : token_result :=
  match st with
  | PS_Expression =>
    let '(name, rest) := span is_name_char s in
    if bool_decide (name = chars "defined") then token_defined rest
    else Ret (TT_Expression (VariableExpression name), rest)
  | _ => Exn InvalidFormatException
  end.

Definition token_value (s : list Z) (st : ParserState) : token_result :=
  match st with
  | PS_Expression =>
    if isdigit (deref s) then
      let '(val, rest) := strtoll s in Ret (TT_Expression (ValueExpression (u32 val)), rest)
    else Exn InvalidFormatException
  | _ => Exn InvalidFormatException
  end.

#[global] Instance IntEvaluator_parseNextToken : TokenParser Expression := fun s st =>
  let s := skip_space s in
  match s with
  | [] => Ret (TT_Finish, s)
  | c :: rest =>
    if c =? 0 then Ret (TT_Finish, s)
    else if c =? chr "(" then Ret (TT_OpenParenthesis, rest)
    else if c =? chr ")" then Ret (TT_CloseParenthesis, rest)
    else if c =? chr "+" then token_plus rest st
    else if c =? chr "-" then token_minus rest st
    else if c =? chr "=" then token_equal rest st
    else if c =? chr "!" then token_not rest st
    else if c =? chr "/" then token_div rest st
    else if c =? chr "*" then token_mul rest st
    else if c =? chr "<" then token_lower rest st
    else if c =? chr ">" then token_greater rest st
    else if c =? chr "&" then token_and rest st
    else if c =? chr "|" then token_or rest st
    else if c =? chr "^" then token_xor rest st
    else if isdigit c then token_digit s st
    else if is_name_start c then token_name s st
    else if c =? chr "\" then token_value rest st
    else Exn InvalidFormatException
  end.

(** The constructor: parses its text. *)
Definition IntEvaluator (expression : string) : res Expression := parseExpression (chars expression).

(** [evaluate] of the parsed evaluator. *)
Definition evaluate_string (expression : string) (args : Arguments_) : res Z :=
  e ← IntEvaluator expression; evaluate e args.

Definition no_arguments : Arguments_ := ArgumentsHash.arguments (ArgumentsHash.mk ∅ ∅).

(** Expressions of the repository's own test, src/core/t/teval.cxx. *)
Example teval_arithmetic : evaluate_string "-4*(5+8*7)+-4*(6/2)" no_arguments = Ret (-256).
Proof. vm_compute. reflexivity. Qed.
Example teval_defined : evaluate_string "!defined x && !defined \1 && !defined a" no_arguments = Ret 1.
Proof. vm_compute. reflexivity. Qed.
Example teval_shift : evaluate_string "1024*1024>>18" no_arguments = Ret 4.
Proof. vm_compute. reflexivity. Qed.
Example teval_swap : evaluate_string "0x12345678>><<32>><<4" no_arguments = Ret 0x87654321.
Proof. vm_compute. reflexivity. Qed.

(** Where the parser departs from the usual reading. *)
Example pending_minus : evaluate_string "10-2*3-4" no_arguments = Ret 8.
Proof. vm_compute. reflexivity. Qed.
Example double_not : evaluate_string "!!1" no_arguments = Exn InvalidFormatException.
Proof. vm_compute. reflexivity. Qed.
Example unmatched_parenthesis : evaluate_string "1+2)" no_arguments = Ret 3.
Proof. vm_compute. reflexivity. Qed.
Example no_bitnot : evaluate_string "~1" no_arguments = Exn InvalidFormatException.
Proof. vm_compute. reflexivity. Qed.

(** ** The tokenizer supplies what the parser relies on *)

Definition is_unary (op : Operators) : bool :=
  match op with OP_UnPlus | OP_UnMinus | OP_UnNot | OP_UnBitNot => true | _ => false end.
Definition is_part (op : Operators) : bool :=
  match op with OP_BinAnd | OP_BinOr => true | _ => false end.
Definition is_full (op : Operators) : bool :=
  match op with
  | OP_Unknown | OP_UnPlus | OP_UnMinus | OP_UnNot | OP_UnBitNot | OP_BinPower
  | OP_BinAnd | OP_BinOr | OP_Parenthesis => false
  | _ => true
  end.

(** A complete expression: every operand is set, every object has an operator of
    its class and every constant is a [Sint64]. *)
Fixpoint well_formed (e : Expression) : Prop :=
  match e with
  | NullExpression => False
  | DirectExpression v => in_s 64 v
  | VariableExpression _ | DefinedVariableExpression _ | ValueExpression _ | DefinedValueExpression _ => True
  | IntUnaryExpression op a => is_unary op = true /\ well_formed a
  | IntBinaryFullExpression op a b => is_full op = true /\ well_formed a /\ well_formed b
  | IntBinaryPartExpression op a b => is_part op = true /\ well_formed a /\ well_formed b
  end.

(** The operator objects as the tokenizer creates them, with the number of
    operands it announces. *)
Inductive fresh : Expression -> Z -> Prop :=
| fresh_unary op : is_unary op = true -> fresh (IntUnaryExpression op NullExpression) 1
| fresh_full op : is_full op = true -> fresh (IntBinaryFullExpression op NullExpression NullExpression) 2
| fresh_part op : is_part op = true -> fresh (IntBinaryPartExpression op NullExpression NullExpression) 2.

Definition token_good (s : list Z) (r : token_result) : Prop :=
  match r with
  | Ret (t, rest) =>
    (length rest <= length s)%nat /\
    match t with
    | TT_Finish => True
    | TT_Expression e => well_formed e /\ (length rest < length s)%nat
    | TT_Operator e n p => fresh e n /\ (length rest < length s)%nat
    | TT_Function e n => fresh e n /\ (length rest < length s)%nat
    | TT_OpenParenthesis | TT_CloseParenthesis => (length rest < length s)%nat
    end
  | Exn e => e = InvalidFormatException
  | Crash _ | NoFuel => False
  end.

Lemma length_tail {A} (l : list A) : (length (tail l) <= length l)%nat.
Proof. destruct l; simpl; lia. Qed.

Lemma full_token_good op st rest s :
  is_full op = true -> (length rest < length s)%nat -> token_good s (full_token op st rest).
Proof. intros. destruct st; simpl; try done. split_and!; [lia|by constructor|lia]. Qed.

Lemma part_token_good op st rest s :
  is_part op = true -> (length rest < length s)%nat -> token_good s (part_token op st rest).
Proof. intros. destruct st; simpl; try done. split_and!; [lia|by constructor|lia]. Qed.

Lemma unary_token_good op rest s :
  is_unary op = true -> (length rest < length s)%nat -> token_good s (unary_token op rest).
Proof. intros. simpl. split_and!; [lia|by constructor|lia]. Qed.

Lemma expression_token_good e rest s :
  well_formed e -> (length rest < length s)%nat -> token_good s (Ret (TT_Expression e, rest)).
Proof. intros. simpl. split_and!; [lia|done|lia]. Qed.

Lemma direct_token_good from s :
  (length (snd (strtoll from)) < length s)%nat -> token_good s (direct_token from).
Proof.
  intros H. unfold direct_token. pose proof (strtoll_range from). destruct (strtoll from) as [v rest].
  by apply expression_token_good.
Qed.

Lemma strtoll_neg_progress s : isdigit (deref s) = true ->
  (length (snd (strtoll (chr "-" :: s))) <= length s)%nat.
Proof.
  intros Hd. change (chr "-") with 45. unfold strtoll. simpl skip_space. simpl deref. simpl tail. cbn [Z.eqb Pos.eqb].
  destruct (number_base_spec s Hd) as ([d Hdv] & Hv & Hl).
  destruct (number_base s) as [base v]. simpl fst in *. simpl snd in *. rewrite Hdv.
  pose proof (length_digits_loop base 0 v). destruct (digits_loop base 0 v). simpl in *. lia.
Qed.

#[export] Hint Resolve full_token_good part_token_good unary_token_good expression_token_good : dr.

Lemma token_defined_good s s0 : (length s < length s0)%nat -> token_good s0 (token_defined s).
Proof.
  intros Hs. unfold token_defined. pose proof (length_skip_space s).
  pose proof (length_tail (skip_space s)). destruct (is_name_start _).
  - pose proof (length_span is_name_char (tail (skip_space s))).
    destruct (span _ _). apply expression_token_good; simpl in *; [done|lia].
  - destruct (_ =? _); [|done]. pose proof (length_span isdigit (tail (skip_space s))).
    destruct (span _ _) as [[|d ds] rest]; [done|]. apply expression_token_good; simpl in *; [done|lia].
Qed.

Lemma span_first p s : p (deref s) = true -> s <> [] -> (length (snd (span p s)) < length s)%nat.
Proof.
  destruct s as [|c s]; [done|]. simpl. intros -> _. pose proof (length_span p s).
  destruct (span p s). simpl in *. lia.
Qed.

Lemma name_start_char c : is_name_start c = true -> is_name_char c = true.
Proof.
  unfold is_name_start, is_name_char, isalnum. rewrite !orb_true_iff. tauto.
Qed.

Lemma IntEvaluator_token_good s st : token_good s (IntEvaluator_parseNextToken s st).
Proof.
  unfold IntEvaluator_parseNextToken. pose proof (length_skip_space s) as Hl.
  destruct (skip_space s) as [|c rest]; [by split; simpl; [lia|]|]. simpl in Hl.
  pose proof (length_tail rest). pose proof (length_tail (tail rest)).
  pose proof (length_tail (tail (tail rest))).
  assert (length rest < length s)%nat by lia.
  destruct (c =? 0); [by split; simpl|].
  repeat match goal with |- token_good _ (if c =? chr _ then _ else _) => destruct (c =? chr _) end.
  all: unfold token_plus, token_minus, token_equal, token_not, token_div, token_mul, token_lower,
    token_greater, token_and, token_or, token_xor, token_value.
  - by split; simpl; [lia|].
  - by split; simpl; [lia|].
  - destruct st; [| |auto with dr]; (destruct (isdigit (deref rest)) eqn:Hd; [|auto with dr]);
      apply direct_token_good; pose proof (strtoll_progress rest Hd); lia.
  - destruct st; [| |auto with dr]; (destruct (isdigit (deref rest)) eqn:Hd; [|auto with dr]);
      apply direct_token_good; pose proof (strtoll_neg_progress rest Hd); simpl in *; lia.
  - destruct (_ =? _); [|done]. apply full_token_good; [done|lia].
  - destruct (_ =? _); [apply full_token_good; [done|lia]|]. destruct st; auto with dr; done.
  - auto with dr.
  - auto with dr.
  - repeat (destruct (_ =? _)); apply full_token_good; (done || lia).
  - repeat (destruct (_ =? _); simpl); apply full_token_good; (done || lia).
  - destruct (_ =? _); [apply part_token_good|apply full_token_good]; (done || lia).
  - destruct (_ =? _); [apply part_token_good|apply full_token_good]; (done || lia).
  - destruct (_ =? _); apply full_token_good; (done || lia).
  - destruct (isdigit c) eqn:Hd; [|destruct (is_name_start c) eqn:Hn].
    + destruct st; simpl; try done. apply direct_token_good.
      pose proof (strtoll_progress (c :: rest) Hd). simpl in *. lia.
    + destruct st; try done. unfold token_name.
      pose proof (span_first is_name_char (c :: rest) (name_start_char c Hn) ltac:(done)).
      destruct (span _ _) as [name rest']. simpl in *.
      destruct (bool_decide _); [apply token_defined_good; lia|apply expression_token_good; [done|lia]].
    + destruct (_ =? _); [|done]. destruct st; try done.
      destruct (isdigit (deref rest)) eqn:Hd'; [|done]. pose proof (strtoll_progress rest Hd').
      destruct (strtoll rest). apply expression_token_good; simpl in *; [done|lia].
Qed.

#[global] Program Instance IntEvaluator_ok : TokenParserOk Expression := {
  complete := well_formed;
  fits := fresh;
}.
Next Obligation. apply IntEvaluator_token_good. Qed.
Next Obligation. by destruct 1. Qed.
Next Obligation.
  intros e n l Hf Hl Hc. destruct Hf; destruct l as [|x [|y l]]; simpl in Hl; try lia;
    repeat match goal with H : Forall _ (_ :: _) |- _ => apply Forall_cons_1 in H as [? ?] end;
    (eexists; split; [reflexivity|]); simpl; auto.
Qed.

(** ** Evaluation *)

(** Arguments that keep to the interface: constants and values are [Sint64], a
    missing one is reported with [DataNotFoundException]. *)
Definition args_ok (args : Arguments_) : Prop :=
  (forall n, match getConstant args n with Ret v => in_s 64 v | Exn e => e = DataNotFoundException | _ => False end) /\
  (forall i, match getValue args i with Ret v => in_s 64 v | Exn e => e = DataNotFoundException | _ => False end).

Definition hash_ok (h : ArgumentsHash.t) : Prop :=
  map_Forall (fun _ v => in_s 64 v) (ArgumentsHash.constants h) /\
  map_Forall (fun _ v => in_s 64 v) (ArgumentsHash.values h).

(** The outcomes of an evaluation: a [Sint64], one of the documented exceptions
    or an operation C++ leaves undefined. *)
Definition eval_outcome (r : res Z) : Prop :=
  match r with
  | Ret v => in_s 64 v
  | Exn e => e = DataNotFoundException \/ e = InvalidFormatException
  | Crash c => c = DivByZero \/ c = BadShift
  | NoFuel => False
  end.

Lemma eval_outcome_bind m f :
  eval_outcome m -> (forall v, in_s 64 v -> eval_outcome (f v)) -> eval_outcome (m ≫= f).
Proof. destruct m; simpl; auto. Qed.

Lemma hash_args_ok h : hash_ok h -> args_ok (ArgumentsHash.arguments h).
Proof.
  intros [Hc Hv]. split; simpl; intros n;
    [unfold ArgumentsHash.getConstant|unfold ArgumentsHash.getValue];
    destruct (_ !! n) eqn:E; eauto.
Qed.

Lemma unary_op_outcome op v : in_s 64 v -> eval_outcome (unary_op op v).
Proof. intros. destruct op; simpl; auto; [by apply swrap_range|by apply in_s_b2z|by apply in_s_lnot]. Qed.

Lemma byteswap_outcome l r : eval_outcome (byteswap l r).
Proof. unfold byteswap. repeat case_match; simpl; auto; by apply swrap_range. Qed.

Lemma binary_full_op_outcome op l r : in_s 64 l -> in_s 64 r -> eval_outcome (binary_full_op op l r).
Proof.
  intros Hl Hr. destruct op; simpl; auto; try (by apply swrap_range); try (by apply in_s_b2z);
    try (by apply byteswap_outcome).
  - destruct (_ || _) eqn:E; simpl; auto. apply orb_false_iff in E as [E1 E2].
    apply Z.eqb_neq in E1. apply andb_false_iff in E2. rewrite !Z.eqb_neq in E2.
    apply in_s_quot; try done. unfold LLONG_MIN in E2. simpl. lia.
  - destruct (shift_ok r); simpl; auto. by apply swrap_range.
  - unfold shift_ok. destruct (_ && _) eqn:E; simpl; auto. bool_to_prop. by apply in_s_asr.
  - by apply in_s_land.
  - by apply in_s_lor.
  - by apply in_s_lxor.
  - by apply in_s_lxor; [|apply in_s_b2z|apply in_s_b2z].
Qed.

Lemma evaluate_outcome e args : well_formed e -> args_ok args -> eval_outcome (evaluate e args).
Proof.
  intros He [Hc Hv]. induction e as [|v|n|n|i|i|op a IHa|op a IHa b IHb|op a IHa b IHb]; simpl in *; try done.
  - specialize (Hc n). destruct (getConstant args n); simpl; auto; done.
  - by apply in_s_b2z.
  - specialize (Hv i). destruct (getValue args i); simpl; auto; done.
  - by apply in_s_b2z.
  - destruct He as [Hop Ha]. destruct op; try done;
      (apply eval_outcome_bind; [by apply IHa|]; intros; by apply unary_op_outcome).
  - destruct He as (Hop & Ha & Hb). apply eval_outcome_bind; [by apply IHa|]. intros l Hl.
    apply eval_outcome_bind; [by apply IHb|]. intros r Hr. by apply binary_full_op_outcome.
  - destruct He as (Hop & Ha & Hb). apply eval_outcome_bind; [by apply IHa|]. intros l Hl.
    assert (eval_outcome (evaluate b args ≫= fun r => Ret (Z.b2z (negb (r =? 0))))).
    { apply eval_outcome_bind; [by apply IHb|]. intros r _. by apply in_s_b2z. }
    destruct op; try done; by destruct (l =? 0).
Qed.
