(* ===== verification/IntSyntax.v ===== *)
(** * core/eval: the syntax the evaluator accepts

    Printing of expressions and what the parser makes of the printed text: the
    round trip of fully parenthesised expressions and the grouping of chains of
    binary operators. *)

From stdpp Require Import gmap.
From Stdlib Require Import Ascii String.
From S2P Require Import Prelude Machine CString Evaluator IntEvaluator.

(** ** Texts *)

Definition op_text (op : Operators) : list Z :=
  match op with
  | OP_UnPlus | OP_BinPlus => chars "+"
  | OP_UnMinus | OP_BinMinus => chars "-"
  | OP_UnNot => chars "!"
  | OP_BinMul => chars "*"
  | OP_BinDiv => chars "/"
  | OP_BinEqual => chars "=="
  | OP_BinNonEq => chars "!="
  | OP_BinLower => chars "<"
  | OP_BinGreater => chars ">"
  | OP_BinLowerEq => chars "<="
  | OP_BinGreaterEq => chars ">="
  | OP_BinLShift => chars "<<"
  | OP_BinRShift => chars ">>"
  | OP_BinByteSwap => chars ">><<"
  | OP_BinBitAnd => chars "&"
  | OP_BinBitOr => chars "|"
  | OP_BinBitXor => chars "^"
  | OP_BinAnd => chars "&&"
  | OP_BinOr => chars "||"
  | OP_BinXor => chars "^^"
  | OP_Unknown | OP_UnBitNot | OP_BinPower | OP_Parenthesis => []
  end.

Fixpoint print (e : Expression) : list Z :=
  match e with
  | NullExpression => []
  | DirectExpression v => print_int v
  | VariableExpression n => n
  | DefinedVariableExpression n => chars "defined " ++ n
  | ValueExpression i => chars "\" ++ dec i
  | DefinedValueExpression i => chars "defined \" ++ dec i
  | IntUnaryExpression op a => op_text op ++ chars "(" ++ print a ++ chars ")"
  | IntBinaryFullExpression op a b | IntBinaryPartExpression op a b =>
    (chars "(" ++ print a ++ chars ")") ++ op_text op ++ chars "(" ++ print b ++ chars ")"
  end.

Definition paren (e : Expression) : list Z := chars "(" ++ print e ++ chars ")".

Definition name_ok (n : list Z) : Prop :=
  is_name_start (deref n) = true /\ Forall (fun c => is_name_char c = true) n.

(** The expressions the syntax can denote: [~] and the power operator have no
    token. *)
Fixpoint printable (e : Expression) : Prop :=
  match e with
  | NullExpression => False
  | DirectExpression v => in_s 64 v
  | VariableExpression n => name_ok n /\ n <> chars "defined"
  | DefinedVariableExpression n => name_ok n
  | ValueExpression i | DefinedValueExpression i => 0 <= i < 2 ^ 32
  | IntUnaryExpression op a => is_unary op = true /\ op <> OP_UnBitNot /\ printable a
  | IntBinaryFullExpression op a b => is_full op = true /\ printable a /\ printable b
  | IntBinaryPartExpression op a b => is_part op = true /\ printable a /\ printable b
  end.

(** ** Runs of the parser *)

(** [runs p q]: the parser gets from [p] to [q] in at most as many turns of its
    loop as there are characters between them. *)
Definition runs (p q : parser Expression) : Prop :=
  exists n, (n + length (expr_str q) <= length (expr_str p))%nat /\
    forall fuel, parse_loop (n + fuel) p = parse_loop fuel q.

Lemma runs_refl p : runs p p.
Proof. by exists 0%nat. Qed.

Lemma runs_trans p q r : runs p q -> runs q r -> runs p r.
Proof.
  intros (n & Hn & H1) (m & Hm & H2). exists (n + m)%nat. split; [lia|].
  intros fuel. rewrite <- Nat.add_assoc, H1. apply H2.
Qed.

#[global] Instance runs_preorder : PreOrder runs.
Proof. split; [exact runs_refl|exact runs_trans]. Qed.

Lemma parse_loop_step fuel p t rest :
  parseNextToken (expr_str p) (state p) = Ret (t, rest) -> t <> TT_Finish ->
  parse_loop (S fuel) p = (q ← parse_token t rest p; parse_loop fuel q).
Proof. intros Ht Hf. cbn [parse_loop]. rewrite Ht. by destruct t. Qed.

Lemma runs_token p t rest q :
  parseNextToken (expr_str p) (state p) = Ret (t, rest) -> t <> TT_Finish ->
  parse_token t rest p = Ret q -> (length (expr_str q) < length (expr_str p))%nat -> runs p q.
Proof.
  intros Ht Hf Hq Hl. exists 1%nat. split; [lia|]. intros fuel.
  simpl plus. by rewrite (parse_loop_step fuel p t rest Ht Hf), Hq.
Qed.

Lemma parse_token_expr_str t rest p q : parse_token t rest p = Ret q -> expr_str q = rest.
Proof.
  intros H. destruct t; try done; cbn [parse_token] in H;
    repeat match goal with
    | H : (?m ≫= _) = Ret _ |- _ => destruct m as [[]| | |]; simpl in H; try done
    end; by inv H.
Qed.

(** The text up to the end of an operand and what follows it. *)
Definition text_ends (s : list Z) : Prop := stops is_name_char s.

Lemma text_ends_number s : text_ends s -> number_ends s.
Proof.
  destruct s as [|c s]; [done|]. unfold text_ends, stops, is_name_char. rewrite !orb_false_iff. by intros [[]].
Qed.

Lemma text_ends_paren s : text_ends (chars ")" ++ s).
Proof. done. Qed.

(** ** Tokens of the printed text *)

Lemma isdigit_code c : isdigit c = true -> exists d, (d < 10)%nat /\ c = 48 + Z.of_nat d.
Proof. intros H. apply isdigit_bounds in H. exists (Z.to_nat (c - 48)). lia. Qed.

Lemma token_of_digit c s st : isdigit c = true ->
  IntEvaluator_parseNextToken (c :: s) st = token_digit (c :: s) st.
Proof.
  intros (d & Hd & ->)%isdigit_code. unfold IntEvaluator_parseNextToken.
  do 10 (destruct d as [|d]; [reflexivity|]). lia.
Qed.

Lemma token_number n s : 0 <= n <= LLONG_MAX -> number_ends s ->
  IntEvaluator_parseNextToken (dec n ++ s) PS_Expression = Ret (TT_Expression (DirectExpression n), s).
Proof.
  intros Hn Hs. pose proof (dec_starts n s ltac:(lia)) as Hd.
  pose proof (strtoll_dec n s Hn Hs) as He. destruct (dec n ++ s) as [|c r]; [done|].
  rewrite token_of_digit by done. unfold token_digit, direct_token. by rewrite He.
Qed.

Lemma token_int v s : in_s 64 v -> number_ends s ->
  IntEvaluator_parseNextToken (print_int v ++ s) PS_Expression = Ret (TT_Expression (DirectExpression v), s).
Proof.
  unfold in_s. simpl. intros Hv Hs. unfold print_int. destruct (Z.ltb_spec v 0).
  - simpl. unfold IntEvaluator_parseNextToken. simpl. unfold token_minus.
    rewrite (dec_starts (- v) s) by lia. unfold direct_token.
    change (chr "-") with 45. rewrite strtoll_neg by (done || lia). by rewrite Z.opp_involutive.
  - apply token_number; [unfold LLONG_MAX; lia|done].
Qed.

Ltac skip_char c :=
  repeat match goal with
  | |- context [c =? chr ?a] =>
    let v := eval vm_compute in (chr a) in change (chr a) with v; destruct (Z.eqb_spec c v); [lia|]
  end.

Lemma name_start_bounds c : is_name_start c = true -> 65 <= c <= 90 \/ c = 95 \/ 97 <= c <= 122.
Proof.
  unfold is_name_start, isalpha. change (chr "_") with 95.
  rewrite !orb_true_iff, !andb_true_iff, !Z.leb_le, Z.eqb_eq. lia.
Qed.

Lemma name_start_not_space c : is_name_start c = true -> isspace c = false.
Proof.
  intros H%name_start_bounds. unfold isspace.
  apply orb_false_iff. rewrite andb_false_iff, Z.eqb_neq, !Z.leb_gt. lia.
Qed.

Lemma token_of_name c s st : is_name_start c = true ->
  IntEvaluator_parseNextToken (c :: s) st = token_name (c :: s) st.
Proof.
  intros Hc. pose proof (name_start_bounds c Hc) as Hb. unfold IntEvaluator_parseNextToken.
  simpl skip_space. rewrite name_start_not_space by done.
  destruct (Z.eqb_spec c 0); [lia|]. skip_char c.
  assert (isdigit c = false) as -> by (unfold isdigit; rewrite andb_false_iff, !Z.leb_gt; lia).
  by rewrite Hc.
Qed.

Lemma span_name n s : name_ok n -> text_ends s -> span is_name_char (n ++ s) = (n, s).
Proof. intros [_ Hn] Hs. by apply span_exact. Qed.

Lemma name_ok_cons n : name_ok n ->
  exists c m, n = c :: m /\ is_name_start c = true /\ Forall (fun c => is_name_char c = true) m.
Proof.
  intros [Hs Hn]. destruct n as [|c m]; [done|]. exists c, m. split_and!; [done|done|]. by inv Hn.
Qed.

Lemma token_variable n s : name_ok n -> n <> chars "defined" -> text_ends s ->
  IntEvaluator_parseNextToken (n ++ s) PS_Expression = Ret (TT_Expression (VariableExpression n), s).
Proof.
  intros Hn Hd Hs. pose proof (span_name n s Hn Hs) as Hsp.
  destruct (name_ok_cons n Hn) as (c & m & -> & Hc & _).
  change ((c :: m) ++ s) with (c :: (m ++ s)) in *. rewrite token_of_name by done.
  unfold token_name. rewrite Hsp. by rewrite bool_decide_eq_false_2.
Qed.

Lemma defined_chars : Forall (fun c => is_name_char c = true) (chars "defined").
Proof. repeat constructor. Qed.

Lemma token_defined_variable n s : name_ok n -> text_ends s ->
  IntEvaluator_parseNextToken (chars "defined " ++ n ++ s) PS_Expression =
  Ret (TT_Expression (DefinedVariableExpression n), s).
Proof.
  intros Hn Hs. destruct (name_ok_cons n Hn) as (c & m & -> & Hc & Hm).
  change (chars "defined " ++ (c :: m) ++ s) with (chr "d" :: chars "efined " ++ (c :: m) ++ s).
  rewrite token_of_name by done. unfold token_name.
  change (chr "d" :: chars "efined " ++ (c :: m) ++ s) with (chars "defined" ++ chr " " :: (c :: m) ++ s).
  rewrite span_exact by (done || exact defined_chars). rewrite bool_decide_eq_true_2 by done.
  unfold token_defined. assert (skip_space (chr " " :: (c :: m) ++ s) = c :: m ++ s) as ->.
  { simpl. by rewrite name_start_not_space. }
  simpl deref. rewrite Hc. simpl tail. by rewrite span_exact.
Qed.

Lemma u32_small i : 0 <= i < 2 ^ 32 -> u32 i = i.
Proof. intros. by apply uwrap_id. Qed.

Lemma token_of_value i s : 0 <= i < 2 ^ 32 -> number_ends s ->
  IntEvaluator_parseNextToken (chars "\" ++ dec i ++ s) PS_Expression =
  Ret (TT_Expression (ValueExpression i), s).
Proof.
  intros Hi Hs. unfold IntEvaluator_parseNextToken. simpl. unfold token_value.
  rewrite dec_starts by lia. rewrite strtoll_dec by (done || unfold LLONG_MAX; lia).
  by rewrite u32_small.
Qed.

Lemma dec_nonempty n : 0 <= n -> dec n <> [].
Proof. intros Hn E. by destruct (dec_head n Hn) as [[_ E']|(? & ? & E' & _)]; rewrite E in E'. Qed.

Lemma token_defined_value i s : 0 <= i < 2 ^ 32 -> number_ends s ->
  IntEvaluator_parseNextToken (chars "defined \" ++ dec i ++ s) PS_Expression =
  Ret (TT_Expression (DefinedValueExpression i), s).
Proof.
  intros Hi Hs.
  change (chars "defined \" ++ dec i ++ s) with (chr "d" :: chars "efined \" ++ dec i ++ s).
  rewrite token_of_name by done. unfold token_name.
  change (chr "d" :: chars "efined \" ++ dec i ++ s) with (chars "defined" ++ chars " \" ++ dec i ++ s).
  rewrite span_exact by (done || exact defined_chars). rewrite bool_decide_eq_true_2 by done.
  unfold token_defined. change (skip_space (chars " \" ++ dec i ++ s)) with (chr "\" :: dec i ++ s).
  change (is_name_start (deref (chr "\" :: dec i ++ s))) with false.
  change (deref (chr "\" :: dec i ++ s) =? chr "\") with true. simpl tail. cbv iota zeta.
  rewrite span_exact by ((apply dec_digits; lia) || by apply number_ends_stops).
  destruct (dec i) eqn:E; [by apply dec_nonempty in E; lia|]. rewrite <- E.
  rewrite strtoll_dec by (done || unfold LLONG_MAX; lia). simpl fst. by rewrite u32_small.
Qed.

(** ** Printed expressions run to one operand *)

Definition binary (op : Operators) (a b : Expression) : Expression :=
  if is_part op then IntBinaryPartExpression op a b else IntBinaryFullExpression op a b.

Definition is_binary (op : Operators) : bool := is_full op || is_part op.

Lemma token_binary op s : is_binary op = true ->
  IntEvaluator_parseNextToken (op_text op ++ chars "(" ++ s) PS_BinOperator =
  Ret (TT_Operator (binary op NullExpression NullExpression) 2 (priorities op), chars "(" ++ s).
Proof. by destruct op. Qed.

Lemma token_unary op s : is_unary op = true -> op <> OP_UnBitNot ->
  IntEvaluator_parseNextToken (op_text op ++ chars "(" ++ s) PS_Expression =
  Ret (TT_Operator (IntUnaryExpression op NullExpression) 1 (priorities op), chars "(" ++ s).
Proof. by destruct op. Qed.

Lemma takeOperands_last e n (O : list Expression) l e' :
  Z.of_nat (length l) = n -> 0 < n -> setOperands e l = Ret e' ->
  takeOperands e n (O ++ l) = Ret (O ++ [e']).
Proof.
  intros Hl Hn Hs. unfold takeOperands. rewrite length_app.
  destruct (Z.ltb_spec 0 n); [|lia]. destruct (Z.ltb_spec (Z.of_nat (length O + length l)) n); [lia|].
  replace (length O + length l - Z.to_nat n)%nat with (length O) by lia.
  by rewrite drop_app_length, take_app_length, Hs.
Qed.

Lemma takeOperands_binary op (O : list Expression) a b : is_binary op = true ->
  takeOperands (binary op NullExpression NullExpression) 2 (O ++ [a; b]) = Ret (O ++ [binary op a b]).
Proof. intros H. apply takeOperands_last; [done|done|]. by destruct op. Qed.

Lemma takeOperands_unary op (O : list Expression) a :
  takeOperands (IntUnaryExpression op NullExpression) 1 (O ++ [a]) = Ret (O ++ [IntUnaryExpression op a]).
Proof. by apply takeOperands_last. Qed.

(** No operation on top of the stack: an operator takes nothing off it. *)
Definition no_operation (S : list (ParseElement Expression)) : Prop :=
  match S with PE_Operation _ _ _ :: _ => False | _ => True end.

Lemma operator_pop_none prio S O : no_operation S -> operator_pop prio S O = Ret (S, O).
Proof. by destruct S as [|[]]. Qed.

(** The stack and operands [S'], [O'] stand for [e] as one more operand. *)
Definition stands_for (S : list (ParseElement Expression)) (O : list Expression) (e : Expression)
    (S' : list (ParseElement Expression)) (O' : list Expression) : Prop :=
  close_loop S' O' = close_loop S (O ++ [e]) /\ finish_loop S' O' = finish_loop S (O ++ [e]).

Definition operand_runs (text : list Z) (e : Expression) : Prop :=
  forall s S O, text_ends s -> no_operation S ->
  exists S' O', runs (mk_parser (text ++ s) PS_Expression S O) (mk_parser s PS_BinOperator S' O') /\
    stands_for S O e S' O'.

Lemma expression_runs text e :
  text <> [] ->
  (forall s, text_ends s -> IntEvaluator_parseNextToken (text ++ s) PS_Expression = Ret (TT_Expression e, s)) ->
  operand_runs text e.
Proof.
  intros Hn Ht s S O Hs _. exists S, (O ++ [e]). split; [|done].
  eapply (runs_token _ (TT_Expression e) s); [by apply Ht|done|done|].
  simpl. rewrite length_app. destruct text; [done|simpl; lia].
Qed.

(** A parenthesised operand may follow anything. *)
Lemma paren_runs e s S O : operand_runs (print e) e ->
  runs (mk_parser (paren e ++ s) PS_Expression S O) (mk_parser s PS_BinOperator S (O ++ [e])).
Proof.
  intros He. destruct (He (chars ")" ++ s) (PE_OpenParenthesis :: S) O) as (S' & O' & Hr & Hc & _); [done..|].
  transitivity (mk_parser (print e ++ chars ")" ++ s) PS_Expression (PE_OpenParenthesis :: S) O);
    [|transitivity (mk_parser (chars ")" ++ s) PS_BinOperator S' O'); [exact Hr|]].
  - eapply (runs_token _ TT_OpenParenthesis); [|done|reflexivity|].
    + simpl. by rewrite <- app_assoc.
    + simpl. rewrite !length_app. simpl. lia.
  - eapply (runs_token _ TT_CloseParenthesis s); [done|done| |simpl; lia].
    cbn [parse_token parse_stack operands]. by rewrite Hc.
Qed.

Lemma unary_runs op a : is_unary op = true -> op <> OP_UnBitNot -> operand_runs (print a) a ->
  operand_runs (op_text op ++ paren a) (IntUnaryExpression op a).
Proof.
  intros Hop Hb Ha s S O Hs HS.
  exists (PE_Operation (IntUnaryExpression op NullExpression) 15 1 :: S), (O ++ [a]). split.
  - transitivity (mk_parser (paren a ++ s) PS_Expression
      (PE_Operation (IntUnaryExpression op NullExpression) 15 1 :: S) O); [|by apply paren_runs].
    eapply (runs_token _ (TT_Operator (IntUnaryExpression op NullExpression) 1 (priorities op))).
    + cbn [expr_str state]. rewrite <- app_assoc. unfold paren. rewrite <- !app_assoc. by apply token_unary.
    + done.
    + cbn [parse_token]. rewrite operator_pop_none by done. simpl. rewrite <- !app_assoc. by destruct op.
    + simpl. rewrite !length_app. simpl. rewrite !length_app. destruct op; simpl; try done; lia.
  - split; simpl; by rewrite takeOperands_unary.
Qed.

(** A binary operator after a left operand, with its right operand. *)
Lemma operator_runs op b s S O S' O' : is_binary op = true -> operand_runs (print b) b ->
  operator_pop (priorities op) S O = Ret (S', O') ->
  runs (mk_parser (op_text op ++ paren b ++ s) PS_BinOperator S O)
    (mk_parser s PS_BinOperator
      (PE_Operation (binary op NullExpression NullExpression) (priorities op) 2 :: S') (O' ++ [b])).
Proof.
  intros Hop Hb Hpop.
  transitivity (mk_parser (paren b ++ s) PS_Expression
    (PE_Operation (binary op NullExpression NullExpression) (priorities op) 2 :: S') O'); [|by apply paren_runs].
  eapply (runs_token _ (TT_Operator (binary op NullExpression NullExpression) 2 (priorities op))).
  - cbn [expr_str state]. unfold paren. rewrite <- !app_assoc. by apply token_binary.
  - done.
  - cbn [parse_token parse_stack operands]. rewrite Hpop. simpl. rewrite <- !app_assoc. by destruct op.
  - simpl. rewrite !length_app. simpl. rewrite !length_app. destruct op; simpl; try done; lia.
Qed.

Lemma binary_runs op a b : is_binary op = true -> operand_runs (print a) a -> operand_runs (print b) b ->
  operand_runs (paren a ++ op_text op ++ paren b) (binary op a b).
Proof.
  intros Hop Ha Hb s S O Hs HS.
  exists (PE_Operation (binary op NullExpression NullExpression) (priorities op) 2 :: S), ((O ++ [a]) ++ [b]). split.
  - rewrite <- (app_assoc (paren a)), <- (app_assoc (op_text op)). etransitivity; [by apply paren_runs|].
    apply operator_runs; [done|done|by apply operator_pop_none].
  - rewrite <- app_assoc. split; simpl; by rewrite takeOperands_binary.
Qed.

Lemma print_int_nonempty v : in_s 64 v -> print_int v <> [].
Proof. intros _. unfold print_int. destruct (Z.ltb_spec v 0); [done|]. by apply dec_nonempty. Qed.

Lemma print_runs e : printable e -> operand_runs (print e) e.
Proof.
  induction e as [|v|n|n|i|i|op a IHa|op a IHa b IHb|op a IHa b IHb]; cbn [printable print]; intros He; [done| | | | | |..].
  - apply expression_runs; [by apply print_int_nonempty|]. intros s Hs. apply token_int; [done|by apply text_ends_number].
  - destruct He as [Hn Hd]. apply expression_runs; [by destruct n; [destruct Hn|]|]. intros s Hs. by apply token_variable.
  - apply expression_runs; [done|]. intros s Hs. rewrite <- app_assoc. by apply token_defined_variable.
  - apply expression_runs; [done|]. intros s Hs. rewrite <- app_assoc.
    apply token_of_value; [done|by apply text_ends_number].
  - apply expression_runs; [done|]. intros s Hs. rewrite <- app_assoc.
    apply token_defined_value; [done|by apply text_ends_number].
  - destruct He as (Hop & Hb & Ha). apply unary_runs; auto.
  - destruct He as (Hop & Ha & Hb). pose proof (binary_runs op a b) as H.
    unfold binary, is_binary in H. rewrite Hop in H.
    replace (is_part op) with false in H by (by destruct op). apply H; auto.
  - destruct He as (Hop & Ha & Hb). pose proof (binary_runs op a b) as H.
    unfold binary, is_binary in H. rewrite Hop, orb_true_r in H. apply H; auto.
Qed.

(** ** Whole texts *)

(** The tokens the first switch of the parser treats as its second one does. *)
Definition starts (t : TokenType Expression) : Prop :=
  match t with
  | TT_Finish | TT_CloseParenthesis => False
  | TT_Operator _ _ prio => 0 < prio < 2 ^ 32
  | _ => True
  end.

Definition starts_operand (s : list Z) : Prop :=
  exists t rest, IntEvaluator_parseNextToken s PS_Expression = Ret (t, rest) /\ starts t.

Lemma parseExpression_runs s S O :
  starts_operand s -> runs (mk_parser s PS_Expression [] []) (mk_parser [] PS_BinOperator S O) ->
  parseExpression s = finish S O.
Proof.
  intros (t & rest & Ht & Hst) (n & Hn & Hr). cbn [expr_str] in Hn. simpl length in Hn.
  transitivity (parse_loop (Datatypes.S (Datatypes.S (length s))) (mk_parser s PS_Expression [] [])).
  - assert (first_token t rest = parse_token t rest (mk_parser s PS_Expression [] [])) as E.
    { destruct t as [|e|e k prio| | |e k]; try done. unfold starts in Hst.
      cbn [first_token parse_token parse_stack operator_pop mbind res_bind].
      destruct (Z.ltb_spec prio 0); [lia|]. by rewrite (uwrap_id 32 prio) by (unfold in_u; lia). }
    rewrite (parse_loop_step _ _ t rest) by (done || by destruct t).
    unfold parseExpression. change parseNextToken with IntEvaluator_parseNextToken.
    by rewrite Ht, <- E.
  - replace (Datatypes.S (Datatypes.S (length s))) with
      (n + Datatypes.S (Datatypes.S (length s) - n))%nat by lia.
    by rewrite Hr.
Qed.

Lemma print_starts e s : printable e -> text_ends s -> starts_operand (print e ++ s).
Proof.
  intros He Hs. pose proof (text_ends_number s Hs).
  destruct e as [|v|n|n|i|i|op a|op a b|op a b]; cbn [printable print] in *; [done|..].
  - eexists _, _. split; [by apply token_int|done].
  - destruct He. eexists _, _. split; [by apply token_variable|done].
  - rewrite <- app_assoc. eexists _, _. split; [by apply token_defined_variable|done].
  - rewrite <- app_assoc. eexists _, _. split; [by apply token_of_value|done].
  - rewrite <- app_assoc. eexists _, _. split; [by apply token_defined_value|done].
  - destruct He as (Hop & Hb & _). rewrite <- !app_assoc.
    eexists _, _. split; [by apply token_unary|by destruct op].
  - by eexists _, _.
  - by eexists _, _.
Qed.

Lemma paren_starts e s : starts_operand (paren e ++ s).
Proof. by eexists _, _. Qed.

(** A chain [(e)op1(e1)op2(e2)...]. *)
Definition chain (l : list (Operators * Expression)) : list Z :=
  concat (map (fun '(op, e) => op_text op ++ paren e) l).

Definition chain_ok (l : list (Operators * Expression)) : Prop :=
  Forall (fun '(op, e) => is_binary op = true /\ printable e) l.

(** No operator binds tighter than the one before it. *)
Fixpoint loosening (prio : Z) (l : list (Operators * Expression)) : Prop :=
  match l with
  | [] => True
  | (op, _) :: l => prio <= priorities op /\ loosening (priorities op) l
  end.

Definition fold_chain (e : Expression) (l : list (Operators * Expression)) : Expression :=
  fold_left (fun a '(op, b) => binary op a b) l e.

Lemma priorities_range op : 0 < priorities op < 256.
Proof. by destruct op. Qed.

Lemma operator_pop_priority op prev O a b rest :
  is_binary prev = true ->
  operator_pop (priorities op) (PE_Operation (binary prev NullExpression NullExpression) (priorities prev) 2 :: rest)
    (O ++ [a; b]) =
  if priorities op <? priorities prev
  then Ret (PE_Operation (binary prev NullExpression NullExpression) (priorities prev) 2 :: rest, O ++ [a; b])
  else Ret (rest, O ++ [binary prev a b]).
Proof.
  intros Hp. unfold operator_pop. pose proof (priorities_range op).
  destruct (Z.ltb_spec 0 (priorities op)); [|lia]. rewrite uwrap_id by (unfold in_u; lia).
  destruct (priorities op <? priorities prev); [done|]. by rewrite takeOperands_binary.
Qed.

Lemma chain_runs l : forall prev a b, chain_ok l -> is_binary prev = true -> loosening (priorities prev) l ->
  exists S O, runs
      (mk_parser (chain l) PS_BinOperator
        [PE_Operation (binary prev NullExpression NullExpression) (priorities prev) 2] [a; b])
      (mk_parser [] PS_BinOperator S O) /\
    finish S O = Ret (fold_chain (binary prev a b) l).
Proof.
  induction l as [|[op e] l IH]; intros prev a b Hl Hp Hlo.
  - eexists _, _. split; [reflexivity|]. unfold finish. cbn [finish_loop].
    change [a; b] with ([] ++ [a; b]). by rewrite takeOperands_binary.
  - inv Hl. match goal with H : _ /\ _ |- _ => destruct H as [Hop He] end. destruct Hlo as [Hpr Hlo].
    destruct (IH op (binary prev a b) e) as (S & O & Hr & Hf); [done..|].
    exists S, O. split; [|exact Hf]. etransitivity; [|exact Hr].
    change (chain ((op, e) :: l)) with ((op_text op ++ paren e) ++ chain l). rewrite <- app_assoc.
    apply (operator_runs op e (chain l) _ _ [] [binary prev a b]); [done|by apply print_runs|].
    change [a; b] with ([] ++ [a; b]). rewrite operator_pop_priority by done.
    destruct (Z.ltb_spec (priorities op) (priorities prev)); [lia|done].
Qed.

(** A tighter operator keeps its own operands. *)
Lemma tighter_runs op1 op2 a b c :
  is_binary op1 = true -> is_binary op2 = true -> printable b -> printable c ->
  priorities op2 < priorities op1 ->
  exists S O,
    runs (mk_parser (chain [(op1, b); (op2, c)]) PS_BinOperator [] [a]) (mk_parser [] PS_BinOperator S O) /\
    finish S O = Ret (binary op1 a (binary op2 b c)).
Proof.
  intros H1 H2 Hb Hc Hp.
  set (el1 := PE_Operation (binary op1 NullExpression NullExpression) (priorities op1) 2).
  set (el2 := PE_Operation (binary op2 NullExpression NullExpression) (priorities op2) 2).
  exists [el2; el1], ([a; b] ++ [c]). split.
  - change (chain [(op1, b); (op2, c)]) with ((op_text op1 ++ paren b) ++ (op_text op2 ++ paren c) ++ []).
    rewrite <- !app_assoc.
    etransitivity;
      [apply (operator_runs op1 b (op_text op2 ++ paren c ++ []) [] [a] [] [a]); [done|by apply print_runs|done]|].
    apply (operator_runs op2 c [] [el1] [a; b] [el1] [a; b]); [done|by apply print_runs|].
    change [a; b] with ([] ++ [a; b]). unfold el1. rewrite operator_pop_priority by done.
    destruct (Z.ltb_spec (priorities op2) (priorities op1)); [done|lia].
  - unfold finish. cbn [finish_loop el1 el2]. change ([a; b] ++ [c]) with ([a] ++ [b; c]).
    unfold el1, el2. rewrite takeOperands_binary by done. cbn [mbind res_bind finish_loop].
    change ([a] ++ [binary op2 b c]) with ([] ++ [a; binary op2 b c]). by rewrite takeOperands_binary.
Qed.

(** After a tighter operator only that one is reduced. *)
Lemma pending_runs op1 op2 op3 a b c d :
  is_binary op1 = true -> is_binary op2 = true -> is_binary op3 = true ->
  printable b -> printable c -> printable d ->
  priorities op2 < priorities op1 -> priorities op1 <= priorities op3 ->
  exists S O,
    runs (mk_parser (chain [(op1, b); (op2, c); (op3, d)]) PS_BinOperator [] [a])
      (mk_parser [] PS_BinOperator S O) /\
    finish S O = Ret (binary op1 a (binary op3 (binary op2 b c) d)).
Proof.
  intros H1 H2 H3 Hb Hc Hd H21 H13.
  set (el op := PE_Operation (binary op NullExpression NullExpression) (priorities op) 2).
  exists [el op3; el op1], ([a; binary op2 b c] ++ [d]). split.
  - change (chain [(op1, b); (op2, c); (op3, d)]) with
      ((op_text op1 ++ paren b) ++ (op_text op2 ++ paren c) ++ (op_text op3 ++ paren d) ++ []).
    rewrite <- !app_assoc. etransitivity; [|etransitivity].
    + apply (operator_runs op1 b _ [] [a] [] [a]); [done|by apply print_runs|done].
    + apply (operator_runs op2 c _ [el op1] [a; b] [el op1] [a; b]); [done|by apply print_runs|].
      change [a; b] with ([] ++ [a; b]). unfold el. rewrite operator_pop_priority by done.
      destruct (Z.ltb_spec (priorities op2) (priorities op1)); [done|lia].
    + apply (operator_runs op3 d [] [el op2; el op1] ([a] ++ [b; c]) [el op1] ([a] ++ [binary op2 b c]));
        [done|by apply print_runs|].
      unfold el at 1. rewrite operator_pop_priority by done.
      destruct (Z.ltb_spec (priorities op3) (priorities op2)); [lia|done].
  - unfold finish, el. cbn [finish_loop]. change ([a; binary op2 b c] ++ [d]) with ([a] ++ [binary op2 b c; d]).
    rewrite takeOperands_binary by done. cbn [mbind res_bind finish_loop].
    change ([a] ++ [binary op3 (binary op2 b c) d])
      with ([] ++ [a; binary op3 (binary op2 b c) d]). by rewrite takeOperands_binary.
Qed.

Lemma paren_chain_runs e l S O :
  printable e -> runs (mk_parser (chain l) PS_BinOperator [] [e]) (mk_parser [] PS_BinOperator S O) ->
  parseExpression (paren e ++ chain l) = finish S O.
Proof.
  intros He Hr. apply parseExpression_runs; [apply paren_starts|].
  etransitivity; [apply (paren_runs e (chain l) [] []); by apply print_runs|exact Hr].
Qed.
