(* ===== verification/IntProperties.v ===== *)
(** * core/eval: what the evaluator computes

    The byte and bit swaps of the [>><<] operator, and the properties of the
    evaluator as a whole. *)

From stdpp Require Import gmap.
From Stdlib Require Import Ascii String.
From S2P Require Import Prelude Machine CString Evaluator IntEvaluator IntSyntax.

(** ** Swaps exchange bits *)

#[local] Arguments swap_step : simpl never.

Lemma swap_step_testbit n mr ml l i : 0 <= n -> 0 <= i < 64 ->
  Z.testbit (swap_step n mr ml l) i =
  (Z.testbit l (i + n) && Z.testbit mr i) || (Z.testbit l (i - n) && Z.testbit ml i).
Proof.
  intros Hn Hi. unfold swap_step. rewrite swrap_testbit, Z.lor_spec, !Z.land_spec, !uwrap_testbit by lia.
  by rewrite Z.shiftr_spec, Z.shiftl_spec by lia.
Qed.

(** The bits a byte swap exchanges: bit [i] with bit [i xor m], below [w]. *)
Definition swap_bits (r : Z) : option (Z * Z) :=
  if r =? 1 then Some (64, 1) else if r =? 2 then Some (64, 2) else if r =? 4 then Some (64, 4)
  else if r =? 16 then Some (16, 8) else if r =? 32 then Some (32, 24) else if r =? 64 then Some (64, 56)
  else None.

(** What makes a step an exchange of the bits [i] and [i xor m] below [w]. *)
Definition step_ok (n mr ml w m : Z) : bool :=
  forallb (fun i =>
    if Z.testbit mr i then negb (Z.testbit ml i) && (Z.lxor i m =? i + n) && (i <? w)
    else if Z.testbit ml i then (Z.lxor i m =? i - n) && (i <? w)
    else negb (i <? w)) (seqZ 0 64).

Definition exchanges (w m l v : Z) : Prop :=
  forall i, 0 <= i < 64 -> Z.testbit v i = (i <? w) && Z.testbit l (Z.lxor i m).

Lemma step_exchanges n mr ml w m l : 0 <= n -> step_ok n mr ml w m = true -> exchanges w m l (swap_step n mr ml l).
Proof.
  intros Hn Hok i Hi. unfold step_ok in Hok. rewrite forallb_forall in Hok.
  specialize (Hok i). rewrite <- list_elem_of_In, elem_of_seqZ in Hok. specialize (Hok ltac:(lia)).
  rewrite swap_step_testbit by done. destruct (Z.testbit mr i).
  - rewrite !andb_true_iff, negb_true_iff in Hok. destruct Hok as [[-> ->%Z.eqb_eq] ->].
    by rewrite andb_false_r, andb_true_r, orb_false_r.
  - destruct (Z.testbit ml i).
    + apply andb_true_iff in Hok as [->%Z.eqb_eq ->]. by rewrite andb_false_r, andb_true_r.
    + apply negb_true_iff in Hok as ->. by rewrite !andb_false_r.
Qed.

Lemma lxor_range n a b : 0 <= n -> 0 <= a < 2 ^ n -> 0 <= b < 2 ^ n -> 0 <= Z.lxor a b < 2 ^ n.
Proof.
  intros Hn Ha Hb. assert (0 <= Z.lxor a b) by (apply Z.lxor_nonneg; lia). split; [done|].
  destruct (decide (Z.lxor a b = 0)) as [->|]; [lia|]. apply Z.log2_lt_pow2; [lia|].
  pose proof (Z.log2_lxor a b ltac:(lia) ltac:(lia)).
  assert (forall x, 0 <= x < 2 ^ n -> x = 0 \/ Z.log2 x < n) as Hlog.
  { intros x Hx. destruct (decide (x = 0)); [by left|right]. apply Z.log2_lt_pow2; lia. }
  destruct (Hlog a Ha) as [->|], (Hlog b Hb) as [->|]; rewrite ?Z.lxor_0_l, ?Z.lxor_0_r in *; simpl in *; try done; lia.
Qed.

Lemma exchanges_trans k m1 m2 l v v' : 0 <= k <= 6 -> 0 <= m1 < 2 ^ k -> 0 <= m2 < 2 ^ k ->
  exchanges (2 ^ k) m1 l v -> exchanges (2 ^ k) m2 v v' -> exchanges (2 ^ k) (Z.lxor m2 m1) l v'.
Proof.
  intros Hk Hm1 Hm2 H1 H2 i Hi. rewrite H2 by done. destruct (Z.ltb_spec i (2 ^ k)); [|done].
  pose proof (lxor_range k i m2 ltac:(lia) ltac:(lia) Hm2). pose proof (Z.pow_le_mono_r 2 k 6).
  rewrite H1 by lia. destruct (Z.ltb_spec (Z.lxor i m2) (2 ^ k)); [|lia]. by rewrite Z.lxor_assoc.
Qed.

Lemma byteswap_exchanges l r :
  match swap_bits r with
  | Some (w, m) => exists v, byteswap l r = Ret v /\ in_s 64 v /\ exchanges w m l v
  | None => byteswap l r = Exn InvalidFormatException
  end.
Proof.
  unfold swap_bits, byteswap.
  repeat match goal with
  | |- context [r =? ?k] =>
    destruct (r =? k); [eexists; split; [reflexivity|split; [by apply swrap_range|]]|]
  end; [..|done].
  1-4: by apply step_exchanges.
  - apply (exchanges_trans 5 8 16 l (swap_step 8 0x00ff00ff 0xff00ff00 l)); [done..| |]; by apply step_exchanges.
  - eapply (exchanges_trans 6 24 32 l (swap_step 16 0x0000ffff0000ffff 0xffff0000ffff0000 _));
      [done..| |by apply step_exchanges].
    eapply (exchanges_trans 6 8 16 l (swap_step 8 _ _ _)); [done..| |]; by apply step_exchanges.
Qed.

Lemma exchanges_involutive m l v v' : 0 <= m < 64 -> in_s 64 l -> in_s 64 v' ->
  exchanges 64 m l v -> exchanges 64 m v v' -> v' = l.
Proof.
  intros Hm Hl Hv' H1 H2. apply (in_s_ext 64); [done..|]. intros i Hi.
  pose proof (exchanges_trans 6 m m l v v' ltac:(lia) Hm Hm H1 H2 i Hi) as ->.
  rewrite Z.lxor_nilpotent, Z.lxor_0_r. destruct (Z.ltb_spec i (2 ^ 6)); [done|lia].
Qed.

(** ** Properties *)

(** C28. For every text the evaluator either builds a complete, well-formed
    expression tree or reports a malformed text ([InvalidFormatException],
    [EndOfDataException] for an empty one): the parser terminates and none of its
    assertions fails. A tree it builds is evaluated, with any hash of [Sint64]
    arguments, to a [Sint64], to a documented exception, or to a division or shift
    that C++ leaves undefined; an operand is never missing. *)
Theorem IntEvaluator_safe (text : string) (h : ArgumentsHash.t) :
  hash_ok h ->
  ends_in (fun e => well_formed e /\ eval_outcome (evaluate e (ArgumentsHash.arguments h))) (IntEvaluator text).
Proof.
  intros Hh. unfold IntEvaluator. pose proof (parseExpression_ok (chars text)) as H.
  destruct (parseExpression (chars text)); simpl in *; try done. split; [done|].
  apply evaluate_outcome; [done|by apply hash_args_ok].
Qed.

Lemma IntEvaluator_safe_witness :
  ends_in (fun e => well_formed e /\
      eval_outcome (evaluate e (ArgumentsHash.arguments (ArgumentsHash.mk {[chars "seven" := 7]} {[0 := 3]}))))
    (IntEvaluator "seven * (\0 + 2) >> 1").
Proof.
  apply (IntEvaluator_safe "seven * (\0 + 2) >> 1" (ArgumentsHash.mk {[chars "seven" := 7]} {[0 := 3]})).
  split; by apply map_Forall_singleton.
Defined.

(** C10. Round trip: an expression printed with every operand of an operator in
    parentheses is parsed back to the same expression, for all operators that
    have a token. *)
Theorem print_roundtrip (e : Expression) : printable e -> parseExpression (print e) = Ret e.
Proof.
  intros He. destruct (print_runs e He [] [] []) as (S & O & Hr & _ & Hf); [done..|].
  pose proof (print_starts e [] He I) as Hst. rewrite app_nil_r in Hr, Hst.
  rewrite (parseExpression_runs _ S O) by done. unfold finish. by rewrite Hf.
Qed.

Lemma print_roundtrip_witness :
  parseExpression (print (IntBinaryPartExpression OP_BinAnd
    (IntUnaryExpression OP_UnNot (DefinedVariableExpression (chars "x")))
    (IntBinaryFullExpression OP_BinMinus (DirectExpression (-5)) (ValueExpression 12)))) =
  Ret (IntBinaryPartExpression OP_BinAnd
    (IntUnaryExpression OP_UnNot (DefinedVariableExpression (chars "x")))
    (IntBinaryFullExpression OP_BinMinus (DirectExpression (-5)) (ValueExpression 12))).
Proof. apply print_roundtrip. vm_compute. repeat split; try congruence; by repeat constructor. Defined.

(** Precedence: a chain of binary operators none of which binds tighter than
    the one before it groups to the left; of two operators the tighter second
    one takes the middle operand. *)
Theorem precedence (e : Expression) (op : Operators) (b : Expression) (l : list (Operators * Expression)) :
  printable e -> is_binary op = true -> printable b -> chain_ok l ->
  (loosening (priorities op) l ->
    parseExpression (paren e ++ chain ((op, b) :: l)) = Ret (fold_chain e ((op, b) :: l))) /\
  (forall op2 c, l = [(op2, c)] -> priorities op2 < priorities op ->
    parseExpression (paren e ++ chain ((op, b) :: l)) = Ret (binary op e (binary op2 b c))).
Proof.
  intros He Hop Hb Hl. split.
  - intros Hlo. destruct (chain_runs l op e b Hl Hop Hlo) as (S & O & Hr & Hf).
    transitivity (finish S O); [|exact Hf]. apply paren_chain_runs; [done|]. etransitivity; [|exact Hr].
    change (chain ((op, b) :: l)) with ((op_text op ++ paren b) ++ chain l). rewrite <- app_assoc.
    apply (operator_runs op b (chain l) [] [e] [] [e]); [done|by apply print_runs|done].
  - intros op2 c -> Hp. inv Hl. match goal with H : _ /\ _ |- _ => destruct H as [Hop2 Hc] end.
    destruct (tighter_runs op op2 e b c) as (S & O & Hr & Hf); [done..|]. rewrite <- Hf.
    by apply paren_chain_runs.
Qed.

Lemma precedence_witness :
  parseExpression (paren (DirectExpression 8) ++ chain [(OP_BinMinus, DirectExpression 2); (OP_BinPlus, DirectExpression 1)]) =
    Ret (IntBinaryFullExpression OP_BinPlus
      (IntBinaryFullExpression OP_BinMinus (DirectExpression 8) (DirectExpression 2)) (DirectExpression 1)).
Proof.
  apply (precedence (DirectExpression 8) OP_BinMinus (DirectExpression 2) [(OP_BinPlus, DirectExpression 1)]);
    try done. by repeat constructor.
Defined.

(** An operator takes at most one pending operation off the stack, so after
    a tighter operator an equally loose or looser one finds the first operation
    still pending: [(a)op1(b)op2(c)op3(d)] with [op2] tighter than [op1] and
    [op1] not looser than [op3] is grouped [a op1 ((b op2 c) op3 d)] where the
    precedences ask for [(a op1 (b op2 c)) op3 d]. *)
Theorem pending_operation (op1 op2 op3 : Operators) (a b c d : Expression) :
  is_binary op1 = true -> is_binary op2 = true -> is_binary op3 = true ->
  printable a -> printable b -> printable c -> printable d ->
  priorities op2 < priorities op1 -> priorities op1 <= priorities op3 ->
  parseExpression (paren a ++ chain [(op1, b); (op2, c); (op3, d)]) =
  Ret (binary op1 a (binary op3 (binary op2 b c) d)).
Proof.
  intros H1 H2 H3 Ha Hb Hc Hd H21 H13.
  destruct (pending_runs op1 op2 op3 a b c d) as (S & O & Hr & Hf); [done..|]. rewrite <- Hf.
  by apply paren_chain_runs.
Qed.

Lemma pending_operation_witness :
  parseExpression (paren (DirectExpression 10) ++
    chain [(OP_BinMinus, DirectExpression 2); (OP_BinMul, DirectExpression 3); (OP_BinMinus, DirectExpression 4)]) =
  Ret (IntBinaryFullExpression OP_BinMinus (DirectExpression 10)
    (IntBinaryFullExpression OP_BinMinus
      (IntBinaryFullExpression OP_BinMul (DirectExpression 2) (DirectExpression 3)) (DirectExpression 4))).
Proof. by apply (pending_operation OP_BinMinus OP_BinMul OP_BinMinus). Defined.

(** The operator [>><<]: with right operand 1, 2 or 4 it exchanges
    neighbouring bits, pairs or nibbles of all 64 bits, with 16, 32 or 64 it
    reverses the bytes of that many low bits and clears the others (bit [i]
    becomes bit [i xor m]); swapping all 64 bits twice gives the value back; any
    other right operand is rejected. *)
Theorem byteswap_spec (l r : Z) :
  in_s 64 l ->
  match swap_bits r with
  | Some (w, m) =>
    exists v, byteswap l r = Ret v /\ in_s 64 v /\
      (forall i, 0 <= i < 64 -> Z.testbit v i = (i <? w) && Z.testbit l (Z.lxor i m)) /\
      (w = 64 -> byteswap v r = Ret l)
  | None => byteswap l r = Exn InvalidFormatException
  end.
Proof.
  intros Hl. pose proof (byteswap_exchanges l r) as H.
  destruct (swap_bits r) as [[w m]|] eqn:E; [|done]. destruct H as (v & Hv & Hr & Hx).
  exists v. split_and!; [done..|]. intros ->. pose proof (byteswap_exchanges v r) as H. rewrite E in H.
  destruct H as (v' & Hv' & Hr' & Hx'). rewrite Hv'. f_equal.
  assert (0 <= m < 64) by (revert E; unfold swap_bits; repeat case_match; intros; simplify_eq; lia).
  by apply (exchanges_involutive m l v v').
Qed.

Lemma byteswap_spec_witness :
  exists v, byteswap 0x0102030405060708 64 = Ret v /\ in_s 64 v /\
    (forall i, 0 <= i < 64 -> Z.testbit v i = (i <? 64) && Z.testbit 0x0102030405060708 (Z.lxor i 56)) /\
    (64 = 64 -> byteswap v 64 = Ret 0x0102030405060708).
Proof. apply (byteswap_spec 0x0102030405060708 64). vm_compute. split; congruence. Defined.
