(* ===== verification/Base64.v ===== *)
(** * core/parse: MemBase64

    The block coder and the two raw loops of [MemBase64.cxx] on explicit buffers,
    and the [BString]/[Blob] entry points. A [Blob] or [BString] of [n] bytes
    is [n] bytes followed by a terminating zero, which the coder reads. *)

From Stdlib Require Import Ascii String.
From S2P Require Import Prelude Machine CString.

Definition cb64 : list Z := chars "ABCDEFGHIJKLMNOPQRSTUVWXYZabcdefghijklmnopqrstuvwxyz0123456789+/".

(** [cd64], indices 0..122: -1 invalid, -2 the padding character, -3 ignored. *)
Definition cd64 : list Z :=
  repeat (-1) 9 ++ [-3; -3] ++ repeat (-1) 2 ++ [-3] ++ repeat (-1) 18 ++ [-3] ++ repeat (-1) 10 ++
  [0x3e] ++ repeat (-1) 3 ++ [0x3f] ++ seqZ 0x34 10 ++ repeat (-1) 3 ++ [-2] ++ repeat (-1) 3 ++
  seqZ 0 26 ++ repeat (-1) 6 ++ seqZ 0x1a 26.

Definition pad : Z := chr "=".

(** ** Encoding *)

Definition encodeB64Block (mem : list Z) (p len : Z) : res (list Z) :=
  a ← byte_at mem p;
  b ← byte_at mem (p + 1);
  o0 ← byte_at cb64 (Z.shiftr a 2);
  o1 ← byte_at cb64 (Z.lor (Z.shiftl (Z.land a 0x03) 4) (Z.shiftr (Z.land b 0xf0) 4));
  o2 ← (if 1 <? len then
          c ← byte_at mem (p + 2);
          byte_at cb64 (Z.lor (Z.shiftl (Z.land b 0x0f) 2) (Z.shiftr (Z.land c 0xc0) 6))
        else Ret pad);
  o3 ← (if 2 <? len then c ← byte_at mem (p + 2); byte_at cb64 (Z.land c 0x3f) else Ret pad);
  Ret [o0; o1; o2; o3].

(** [src] and [dst] are positions in [mem] and [buf]; the size goes to the block
    coder as an [int]. *)
Fixpoint encode_loop (fuel : nat) (mem : list Z) (src size : Z) (buf : list Z) (dst outsize : Z) :
    res (list Z * Z) :=
  match fuel with
  | O => NoFuel
  | S fuel =>
    if 0 <? s64 size then
      out ← encodeB64Block mem src (s32 size);
      buf ← mem_store buf dst out;
      encode_loop fuel mem (src + 3) (u64 (size - 3)) buf (dst + 4) (u64 (outsize + 4))
    else Ret (buf, outsize)
  end.

Definition encodeBase64_mem (mem : list Z) (size : Z) (buf : list Z) : res (list Z * Z) :=
  encode_loop (S (Z.to_nat size)) mem 0 size buf 0 0.

(** The buffer [lock] gives is fresh; [unlock] keeps the first bytes of it. *)
Definition encodeBase64 (data : list Z) : res (list Z) :=
  let size := Z.of_nat (length data) in
  '(buf, n) ← encodeBase64_mem (data ++ [0]) size (repeat 0 (Z.to_nat ((size + 2) / 3 * 4)));
  Ret (take (Z.to_nat n) buf).

(** ** Decoding *)

Definition decodeBlock (bd : list Z) : res (list Z) :=
  match bd with
  | [i0; i1; i2; i3] =>
    Ret [u8 (Z.lor (Z.shiftl i0 2) (Z.shiftr i1 4));
         u8 (Z.lor (Z.shiftl i1 4) (Z.shiftr i2 2));
         u8 (Z.lor (Z.land (Z.shiftl i2 6) 0xc0) i3)]
  | _ => Crash OutOfBounds
  end.

Definition zero_fill (bd : list Z) : list Z := bd ++ repeat 0 (4 - length bd).

(** The loop collecting a block, [bd] holding the first [i] values; the result is
    [i] and [bd] after the loop, the source position and the size left. *)
Fixpoint quad_loop (fuel : nat) (mem : list Z) (src size : Z) (bd : list Z) :
    res (nat * list Z * Z * Z) :=
  match fuel with
  | O => NoFuel
  | S fuel =>
    let i := length bd in
    if (i =? 4)%nat then Ret (i, bd, src, size)
    else if size =? 0 then Ret (i, zero_fill bd, src, u64 (size - 1))
    else
      c ← byte_at mem src;
      let v := s8 c in
      if 122 <? v then Exn InvalidFormatException
      else
        v ← byte_at cd64 v;
        if v =? -1 then Exn InvalidFormatException
        else if v =? -2 then Ret (i, zero_fill bd, src + 1, 0)
        else if v <? 0 then quad_loop fuel mem (src + 1) (size - 1) bd
        else quad_loop fuel mem (src + 1) (size - 1) (bd ++ [v])
  end.

Fixpoint decode_loop (fuel : nat) (mem : list Z) (src size : Z) (buf : list Z) (dst : Z) :
    res (list Z * Z) :=
  match fuel with
  | O => NoFuel
  | S fuel =>
    '(i, bd, src, size) ← quad_loop (length mem + 5) mem src size [];
    if (i =? 0)%nat then Ret (buf, dst)
    else
      out ← decodeBlock bd;
      buf ← mem_store buf dst out;
      decode_loop fuel mem src size buf (dst + (Z.of_nat i - 1))
  end.

Definition decodeBase64_mem (mem : list Z) (size : Z) (buf : list Z) : res (list Z * Z) :=
  decode_loop (length mem + 2) mem 0 size buf 0.

Definition decodeBase64 (text : list Z) : res (list Z) :=
  let size := Z.of_nat (length text) in
  '(buf, n) ← decodeBase64_mem (text ++ [0]) size (repeat 0 (Z.to_nat (size / 4 * 3)));
  Ret (take (Z.to_nat n) buf).

(** ** The reference: groups of six bits, most significant first *)

Definition sextet (v : Z) : Z := nth (Z.to_nat v) cb64 0.

Fixpoint base64 (data : list Z) : list Z :=
  match data with
  | a :: b :: c :: rest =>
    sextet (a / 4) :: sextet (a mod 4 * 16 + b / 16) :: sextet (b mod 16 * 4 + c / 64) ::
    sextet (c mod 64) :: base64 rest
  | [a; b] => [sextet (a / 4); sextet (a mod 4 * 16 + b / 16); sextet (b mod 16 * 4); pad]
  | [a] => [sextet (a / 4); sextet (a mod 4 * 16); pad; pad]
  | [] => []
  end.

Example encode_man : encodeBase64 (chars "Man") = Ret (chars "TWFu").
Proof. reflexivity. Qed.
Example decode_spaces : decodeBase64 (chars "TWFu TWE=") = Ret (chars "ManMa").
Proof. vm_compute. reflexivity. Qed.

(** A text without its padding: three bytes are stored into a buffer of none. With
    room for them the size has wrapped around and the loop reads on behind
    the text. *)
Example unpadded : decodeBase64 (chars "TWE") = Crash OutOfBounds.
Proof. vm_compute. reflexivity. Qed.
Example unpadded_large_buffer : decodeBase64_mem (chars "TWE" ++ [0]) 3 (repeat 0 6) = Exn InvalidFormatException.
Proof. vm_compute. reflexivity. Qed.
Example non_ascii : decodeBase64 [200; 65; 65; 65] = Crash OutOfBounds.
Proof. vm_compute. reflexivity. Qed.

(** ** The tables *)

Lemma each_sextet (P : Z -> bool) : forallb P (seqZ 0 64) = true -> forall v, 0 <= v < 64 -> P v = true.
Proof.
  intros H v Hv. rewrite forallb_forall in H. apply H, list_elem_of_In, elem_of_seqZ. lia.
Qed.

Lemma cb64_at v : 0 <= v < 64 -> byte_at cb64 v = Ret (sextet v).
Proof.
  intros Hv. pose proof (each_sextet (fun v => bool_decide (byte_at cb64 v = Ret (sextet v))) eq_refl v Hv) as H.
  by apply bool_decide_eq_true in H.
Qed.

Lemma cd64_at v : 0 <= v < 64 ->
  s8 (sextet v) = sextet v /\ sextet v <= 122 /\ byte_at cd64 (sextet v) = Ret v.
Proof.
  intros Hv. pose proof (each_sextet (fun v => (s8 (sextet v) =? sextet v) && (sextet v <=? 122) &&
    bool_decide (byte_at cd64 (sextet v) = Ret v)) eq_refl v Hv) as H.
  apply andb_prop in H as [[H1 H2]%andb_prop H3%bool_decide_eq_true]. bool_to_prop. done.
Qed.

(** ** One block *)

Lemma sextet_1 a b : byte_ok b ->
  Z.lor (Z.shiftl (Z.land a 0x03) 4) (Z.shiftr (Z.land b 0xf0) 4) = a mod 4 * 16 + b / 16.
Proof.
  intros Hb. pose proof (all_bytes_forall (fun b => Z.shiftr (Z.land b 0xf0) 4 =? b / 16) eq_refl b Hb) as E.
  apply Z.eqb_eq in E. rewrite E, Z.lor_comm, lor_shift_add; [|done|unfold byte_ok in Hb; divlia].
  change 3 with (Z.ones 2). rewrite Z.land_ones by done. change (2 ^ 2) with 4. lia.
Qed.

Lemma sextet_2 b c : byte_ok c ->
  Z.lor (Z.shiftl (Z.land b 0x0f) 2) (Z.shiftr (Z.land c 0xc0) 6) = b mod 16 * 4 + c / 64.
Proof.
  intros Hc. pose proof (all_bytes_forall (fun c => Z.shiftr (Z.land c 0xc0) 6 =? c / 64) eq_refl c Hc) as E.
  apply Z.eqb_eq in E. rewrite E, Z.lor_comm, lor_shift_add; [|done|unfold byte_ok in Hc; divlia].
  change 15 with (Z.ones 4). rewrite Z.land_ones by done. change (2 ^ 4) with 16. lia.
Qed.

Lemma sextet_3 c : Z.land c 0x3f = c mod 64.
Proof. change 0x3f with (Z.ones 6). by rewrite Z.land_ones. Qed.

(** What a block of [len] bytes, followed by at least one more byte, becomes. *)
Definition block (len a b c : Z) : list Z :=
  [sextet (a / 4); sextet (a mod 4 * 16 + b / 16);
   if 1 <? len then sextet (b mod 16 * 4 + c / 64) else pad;
   if 2 <? len then sextet (c mod 64) else pad].

Lemma encodeB64Block_spec pre a b c l len : byte_ok a -> byte_ok b -> byte_ok c ->
  encodeB64Block (pre ++ a :: b :: c :: l) (Z.of_nat (length pre)) len = Ret (block len a b c).
Proof.
  unfold byte_ok. intros Ha Hb Hc. unfold encodeB64Block.
  rewrite byte_at_app_0, !byte_at_app by done. cbn [byte_at mbind res_bind].
  change (byte_at (a :: b :: c :: l) 1) with (Ret b). change (byte_at (a :: b :: c :: l) 2) with (Ret c).
  cbn [mbind res_bind].
  rewrite (Z.shiftr_div_pow2 a), sextet_1, sextet_2, sextet_3 by done. change (2 ^ 2) with 4.
  rewrite !cb64_at by divlia. unfold block. by destruct (1 <? len), (2 <? len).
Qed.

(** With one byte left only that byte and the next are read. *)
Lemma encodeB64Block_one pre a b l : byte_ok a -> byte_ok b ->
  encodeB64Block (pre ++ a :: b :: l) (Z.of_nat (length pre)) 1 = Ret (block 1 a b 0).
Proof.
  unfold byte_ok. intros Ha Hb. unfold encodeB64Block.
  rewrite byte_at_app_0, !byte_at_app by done. change (byte_at (a :: b :: l) 1) with (Ret b).
  cbn [mbind res_bind]. rewrite (Z.shiftr_div_pow2 a), sextet_1 by done. change (2 ^ 2) with 4.
  by rewrite !cb64_at by divlia.
Qed.

(** Induction three elements at a time. *)
Lemma list_ind_3 {A} (P : list A -> Prop) :
  P [] -> (forall a, P [a]) -> (forall a b, P [a; b]) ->
  (forall a b c l, P l -> P (a :: b :: c :: l)) -> forall l, P l.
Proof.
  intros H0 H1 H2 H3. fix IH 1. intros [|a [|b [|c l]]]; [done|done|done|]. apply H3, IH.
Qed.

Lemma length_base64 data : length (base64 data) = (4 * ((length data + 2) / 3))%nat.
Proof.
  induction data as [|a|a b|a b c l IH] using list_ind_3; [done..|].
  cbn [base64 length]. rewrite IH.
  replace (S (S (S (length l))) + 2)%nat with (1 * 3 + (length l + 2))%nat by lia.
  rewrite Nat.div_add_l by lia. lia.
Qed.

Lemma encode_loop_S fuel mem src size buf dst outsize :
  encode_loop (S fuel) mem src size buf dst outsize =
  if 0 <? s64 size then
    out ← encodeB64Block mem src (s32 size);
    buf ← mem_store buf dst out;
    encode_loop fuel mem (src + 3) (u64 (size - 3)) buf (dst + 4) (u64 (outsize + 4))
  else Ret (buf, outsize).
Proof. done. Qed.

Lemma s64_small x : 0 <= x < 2 ^ 63 -> s64 x = x.
Proof. intros. apply swrap_id; [done|]. unfold in_s. lia. Qed.
Lemma s32_small x : 0 <= x < 2 ^ 31 -> s32 x = x.
Proof. intros. apply swrap_id; [done|]. unfold in_s. lia. Qed.

(** A block is encoded and the loop goes on behind it. *)
Lemma encode_loop_block fuel pre a b c l pb old post len :
  bytes_ok [a; b; c] -> 0 < len < 2 ^ 31 -> length old = 4%nat -> Z.of_nat (length pb) + 4 < 2 ^ 64 ->
  encode_loop (S fuel) (pre ++ a :: b :: c :: l) (Z.of_nat (length pre)) len
    (pb ++ old ++ post) (Z.of_nat (length pb)) (Z.of_nat (length pb)) =
  encode_loop fuel (pre ++ a :: b :: c :: l) (Z.of_nat (length pre) + 3) (u64 (len - 3))
    (pb ++ block len a b c ++ post) (Z.of_nat (length pb) + 4) (Z.of_nat (length pb) + 4).
Proof.
  intros Hb Hlen Hold Hpb. rewrite !bytes_ok_cons in Hb. destruct Hb as (Ha & Hb & Hc & _).
  rewrite encode_loop_S, s64_small, s32_small by lia. destruct (Z.ltb_spec 0 len); [|lia].
  rewrite encodeB64Block_spec by done. cbn [mbind res_bind].
  rewrite mem_store_app by (by rewrite Hold). cbn [mbind res_bind].
  by rewrite (uwrap_id 64 (Z.of_nat (length pb) + 4)) by (unfold in_u; lia).
Qed.

Lemma encode_loop_end fuel mem src len buf dst n : - 2 ^ 63 <= len <= 0 ->
  encode_loop (S fuel) mem src (u64 len) buf dst n = Ret (buf, n).
Proof.
  intros H. rewrite encode_loop_S, swrap_uwrap, swrap_id by (done || unfold in_s; lia).
  destruct (Z.ltb_spec 0 len); [lia|done].
Qed.

Lemma bytes_ok_3 a b c : byte_ok a -> byte_ok b -> byte_ok c -> bytes_ok [a; b; c].
Proof. intros. rewrite !bytes_ok_cons. split_and!; try done. by apply Forall_nil_2. Qed.

Lemma split_4 (l : list Z) n : length l = (4 + n)%nat ->
  exists a b, l = a ++ b /\ length a = 4%nat /\ length b = n.
Proof.
  intros H. exists (take 4 l), (drop 4 l). rewrite take_drop, length_take, length_drop. split_and!; [done|lia|lia].
Qed.

Lemma encode_loop_spec data : forall fuel pre pb post,
  bytes_ok data -> (length data < fuel)%nat -> Z.of_nat (length data) < 2 ^ 31 ->
  length post = length (base64 data) -> Z.of_nat (length pb + length post) < 2 ^ 62 ->
  encode_loop fuel (pre ++ data ++ [0]) (Z.of_nat (length pre)) (Z.of_nat (length data))
    (pb ++ post) (Z.of_nat (length pb)) (Z.of_nat (length pb)) =
  Ret (pb ++ base64 data, Z.of_nat (length pb + length post)).
Proof.
  induction data as [|a|a b|a b c l IH] using list_ind_3; intros [|fuel] pre pb post Hok Hf Hs Hp Hl;
    cbn [base64 length] in Hf, Hs, Hp; try lia.
  - destruct post; [|done]. change (Z.of_nat (length (@nil Z))) with (u64 0).
    rewrite encode_loop_end by lia. simpl. by rewrite Nat.add_0_r.
  - destruct fuel as [|fuel]; [lia|]. destruct (split_4 post 0) as (old & ? & -> & Ho & Hn); [done|].
    destruct x; [|done]. rewrite app_nil_r in *. rewrite !bytes_ok_cons in Hok.
    rewrite encode_loop_S. change (0 <? s64 (Z.of_nat (length [a]))) with true.
    change (s32 (Z.of_nat (length [a]))) with 1. cbn [app].
    rewrite encodeB64Block_one by (apply Hok || done). cbn [mbind res_bind].
    rewrite <- (app_nil_r old), mem_store_app by (by rewrite Ho). cbn [mbind res_bind].
    change (u64 (Z.of_nat (length [a]) - 3)) with (u64 (-2)). rewrite encode_loop_end by lia.
    rewrite uwrap_id by (unfold in_u; lia). rewrite !app_nil_r, Ho. f_equal. f_equal.
    + f_equal. cbn [base64 block]. unfold block. simpl. by rewrite Z.add_0_r.
    + lia.
  - destruct fuel as [|fuel]; [lia|]. destruct (split_4 post 0) as (old & ? & -> & Ho & Hn); [done|].
    destruct x; [|done]. rewrite !length_app, Ho in Hl. cbn [app length]. rewrite !bytes_ok_cons in Hok.
    rewrite (encode_loop_block (S fuel) pre a b 0 [] pb old [] (Z.of_nat 2));
      [|destruct Hok as (? & ? & _); by apply bytes_ok_3|lia|done|lia].
    change (u64 (Z.of_nat 2 - 3)) with (u64 (-1)). rewrite encode_loop_end by lia.
    rewrite app_nil_r, !length_app, Ho. simpl. f_equal. f_equal; [|lia].
    f_equal. unfold block. simpl. by rewrite Z.add_0_r.
  - rewrite !bytes_ok_cons in Hok. destruct Hok as (Ha & Hb & Hc & Hok).
    destruct (split_4 post (length (base64 l))) as (old & post' & -> & Ho & Hn); [done|].
    rewrite !length_app, Ho in Hl. cbn [app].
    rewrite (encode_loop_block fuel pre a b c (l ++ [0]) pb old post');
      [|by apply bytes_ok_3|simpl; lia|done|lia].
    rewrite uwrap_id by (unfold in_u; simpl; lia).
    replace (pre ++ a :: b :: c :: l ++ [0]) with ((pre ++ [a; b; c]) ++ l ++ [0]) by (by rewrite <- app_assoc).
    replace (pb ++ block _ a b c ++ post') with ((pb ++ base64 [a; b; c]) ++ post').
    2: { rewrite <- app_assoc. f_equal. f_equal. unfold block. simpl. destruct (Z.ltb_spec 1 (Z.of_nat (S (S (S (length l)))))); [|lia].
         destruct (Z.ltb_spec 2 (Z.of_nat (S (S (S (length l)))))); [done|lia]. }
    replace (Z.of_nat (length pre) + 3) with (Z.of_nat (length (pre ++ [a; b; c]))) by (rewrite length_app; simpl; lia).
    replace (Z.of_nat (length (a :: b :: c :: l)) - 3) with (Z.of_nat (length l)) by (simpl; lia).
    replace (Z.of_nat (length pb) + 4) with (Z.of_nat (length (pb ++ base64 [a; b; c]))) by (rewrite length_app; simpl; lia).
    rewrite IH; [|done|lia|lia|done|rewrite length_app; simpl; lia].
    rewrite <- app_assoc, !length_app, Ho. simpl. f_equal. f_equal. lia.
Qed.

Lemma encodeBase64_base64 data : bytes_ok data -> Z.of_nat (length data) < 2 ^ 31 ->
  encodeBase64 data = Ret (base64 data).
Proof.
  intros Hok Hs. unfold encodeBase64, encodeBase64_mem.
  replace (Z.to_nat ((Z.of_nat (length data) + 2) / 3 * 4)) with (length (base64 data)).
  2: { rewrite length_base64.
       assert (Z.of_nat ((length data + 2) / 3) = (Z.of_nat (length data) + 2) / 3)
         by (rewrite Nat2Z.inj_div; f_equal; lia). lia. }
  pose proof (encode_loop_spec data (S (Z.to_nat (Z.of_nat (length data)))) [] []
    (repeat 0 (length (base64 data)))) as H.
  cbn [app length] in H. change (Z.of_nat 0) with 0 in H.
  rewrite H; [|done|lia|done|by rewrite repeat_length|].
  - simpl. by rewrite repeat_length, Nat2Z.id, firstn_all.
  - rewrite repeat_length, length_base64. pose proof (Nat.Div0.div_le_upper_bound (length data + 2) 3 (length data + 2)).
    lia.
Qed.

(** ** Decoding of encoded text *)

Lemma quad_sextet fuel mem src size bd v :
  byte_at mem src = Ret (sextet v) -> 0 <= v < 64 -> size <> 0 -> (length bd < 4)%nat ->
  quad_loop (S fuel) mem src size bd = quad_loop fuel mem (src + 1) (size - 1) (bd ++ [v]).
Proof.
  intros Hm Hv Hs Hb. cbn [quad_loop]. destruct (Nat.eqb_spec (length bd) 4); [lia|].
  destruct (Z.eqb_spec size 0); [done|]. rewrite Hm. cbn [mbind res_bind].
  destruct (cd64_at v Hv) as (-> & Hle & ->). destruct (Z.ltb_spec 122 (sextet v)); [lia|].
  cbn [mbind res_bind]. destruct (Z.eqb_spec v (-1)); [lia|]. destruct (Z.eqb_spec v (-2)); [lia|].
  destruct (Z.ltb_spec v 0); [lia|done].
Qed.

Lemma quad_pad fuel mem src size bd :
  byte_at mem src = Ret pad -> size <> 0 -> (length bd < 4)%nat ->
  quad_loop (S fuel) mem src size bd = Ret (length bd, zero_fill bd, src + 1, 0).
Proof.
  intros Hm Hs Hb. cbn [quad_loop]. destruct (Nat.eqb_spec (length bd) 4); [lia|].
  destruct (Z.eqb_spec size 0); [done|]. by rewrite Hm.
Qed.

Lemma quad_end fuel mem src bd : (length bd < 4)%nat ->
  quad_loop (S fuel) mem src 0 bd = Ret (length bd, zero_fill bd, src, u64 (-1)).
Proof. intros Hb. cbn [quad_loop]. by destruct (Nat.eqb_spec (length bd) 4); [lia|]. Qed.

Ltac quad_side := first [done | lia | by apply byte_at_app_0 | by rewrite byte_at_app | simpl; lia].

Section Quads.
Variables (mem pre l : list Z).

Lemma quad_full fuel v0 v1 v2 v3 size :
  0 <= v0 < 64 -> 0 <= v1 < 64 -> 0 <= v2 < 64 -> 0 <= v3 < 64 -> 4 <= size ->
  mem = pre ++ sextet v0 :: sextet v1 :: sextet v2 :: sextet v3 :: l ->
  quad_loop (5 + fuel) mem (Z.of_nat (length pre)) size [] =
  Ret (4%nat, [v0; v1; v2; v3], Z.of_nat (length pre) + 4, size - 4).
Proof.
  intros H0 H1 H2 H3 Hs ->.
  rewrite !Nat.add_succ_l, (quad_sextet _ _ _ _ [] v0) by quad_side.
  rewrite (quad_sextet _ _ _ _ [v0] v1) by quad_side.
  rewrite <- Z.add_assoc, (quad_sextet _ _ _ _ [v0; v1] v2) by quad_side.
  rewrite <- Z.add_assoc, (quad_sextet _ _ _ _ [v0; v1; v2] v3) by quad_side.
  cbn [quad_loop length app Nat.eqb]. do 2 f_equal; [f_equal|]; lia.
Qed.

Lemma quad_three fuel v0 v1 v2 size :
  0 <= v0 < 64 -> 0 <= v1 < 64 -> 0 <= v2 < 64 -> 4 <= size ->
  mem = pre ++ sextet v0 :: sextet v1 :: sextet v2 :: pad :: l ->
  quad_loop (5 + fuel) mem (Z.of_nat (length pre)) size [] =
  Ret (3%nat, [v0; v1; v2; 0], Z.of_nat (length pre) + 4, 0).
Proof.
  intros H0 H1 H2 Hs ->.
  rewrite !Nat.add_succ_l, (quad_sextet _ _ _ _ [] v0) by quad_side.
  rewrite (quad_sextet _ _ _ _ [v0] v1) by quad_side.
  rewrite <- Z.add_assoc, (quad_sextet _ _ _ _ [v0; v1] v2) by quad_side.
  rewrite <- Z.add_assoc, quad_pad by quad_side.
  do 2 f_equal. f_equal. lia.
Qed.

Lemma quad_two fuel v0 v1 x size :
  0 <= v0 < 64 -> 0 <= v1 < 64 -> 4 <= size ->
  mem = pre ++ sextet v0 :: sextet v1 :: pad :: x :: l ->
  quad_loop (5 + fuel) mem (Z.of_nat (length pre)) size [] =
  Ret (2%nat, [v0; v1; 0; 0], Z.of_nat (length pre) + 3, 0).
Proof.
  intros H0 H1 Hs ->.
  rewrite !Nat.add_succ_l, (quad_sextet _ _ _ _ [] v0) by quad_side.
  rewrite (quad_sextet _ _ _ _ [v0] v1) by quad_side.
  rewrite <- Z.add_assoc, quad_pad by quad_side.
  do 2 f_equal. f_equal. lia.
Qed.
End Quads.

(** The six-bit groups of three bytes give the bytes back. *)
Lemma decodeBlock_spec a b c : byte_ok a -> byte_ok b -> byte_ok c ->
  decodeBlock [a / 4; a mod 4 * 16 + b / 16; b mod 16 * 4 + c / 64; c mod 64] = Ret [a; b; c].
Proof.
  unfold byte_ok. intros Ha Hb Hc. unfold decodeBlock, uwrap.
  rewrite !(Z.lor_comm (Z.shiftl _ _)).
  rewrite (lor_shift_add _ _ 2), (lor_shift_add _ _ 4) by (rewrite ?Z.shiftr_div_pow2 by done; divlia).
  assert (Z.land (Z.shiftl (b mod 16 * 4 + c / 64) 6) 192 = Z.shiftl (c / 64) 6) as ->.
  { pose proof (each_sextet (fun v => Z.land (Z.shiftl v 6) 192 =? Z.shiftl (v mod 4) 6) eq_refl
      (b mod 16 * 4 + c / 64) ltac:(divlia)) as E. apply Z.eqb_eq in E. rewrite E. f_equal. divlia. }
  rewrite Z.lor_comm, lor_shift_add by divlia. rewrite !Z.shiftr_div_pow2 by done.
  repeat f_equal; divlia.
Qed.

Lemma decode_loop_S fuel mem src size buf dst :
  decode_loop (S fuel) mem src size buf dst =
  '(i, bd, src, size) ← quad_loop (5 + length mem) mem src size [];
  if (i =? 0)%nat then Ret (buf, dst)
  else
    out ← decodeBlock bd;
    buf ← mem_store buf dst out;
    decode_loop fuel mem src size buf (dst + (Z.of_nat i - 1)).
Proof. cbn [decode_loop]. by rewrite (Nat.add_comm (length mem)). Qed.

Lemma decode_loop_end fuel mem src buf dst : decode_loop (S fuel) mem src 0 buf dst = Ret (buf, dst).
Proof. rewrite decode_loop_S. rewrite Nat.add_succ_l, quad_end by (simpl; lia). done. Qed.

(** A decoded block is stored and [i - 1] bytes of it are kept. *)
Lemma decode_loop_block fuel mem src size buf pb old post i bd src' size' out :
  quad_loop (5 + length mem) mem src size [] = Ret (i, bd, src', size') -> i <> 0%nat ->
  decodeBlock bd = Ret out -> length old = length out -> buf = pb ++ old ++ post ->
  decode_loop (S fuel) mem src size buf (Z.of_nat (length pb)) =
  decode_loop fuel mem src' size' (pb ++ out ++ post) (Z.of_nat (length pb) + (Z.of_nat i - 1)).
Proof.
  intros Hq Hi Hd Hl ->. rewrite decode_loop_S, Hq. cbn [mbind res_bind].
  destruct (Nat.eqb_spec i 0); [done|]. rewrite Hd. cbn [mbind res_bind]. by rewrite mem_store_app.
Qed.

Lemma split_3 (l : list Z) : (3 <= length l)%nat ->
  exists a b, l = a ++ b /\ length a = 3%nat.
Proof. intros H. exists (take 3 l), (drop 3 l). rewrite take_drop, length_take. split; [done|lia]. Qed.

Lemma sextet_ranges a b c : byte_ok a -> byte_ok b -> byte_ok c ->
  0 <= a / 4 < 64 /\ 0 <= a mod 4 * 16 + b / 16 < 64 /\ 0 <= b mod 16 * 4 + c / 64 < 64 /\
  0 <= c mod 64 < 64.
Proof. unfold byte_ok. intros. divlia. Qed.

Lemma decode_loop_spec data : forall fuel pre tl pb post,
  bytes_ok data -> (length data + 1 < fuel)%nat ->
  (length (base64 data) / 4 * 3 <= length post)%nat ->
  exists post',
    decode_loop fuel (pre ++ base64 data ++ tl) (Z.of_nat (length pre)) (Z.of_nat (length (base64 data)))
      (pb ++ post) (Z.of_nat (length pb)) =
    Ret (pb ++ data ++ post', Z.of_nat (length pb + length data)).
Proof.
  induction data as [|a|a b|a b c l IH] using list_ind_3; intros [|fuel] pre tl pb post Hok Hf Hp;
    cbn [length] in Hf; try lia.
  - exists post. change (Z.of_nat (length (base64 []))) with 0. rewrite decode_loop_end. simpl. by rewrite Nat.add_0_r.
  - destruct fuel as [|fuel]; [lia|]. rewrite !bytes_ok_cons in Hok. destruct Hok as [Ha _].
    destruct (split_3 post) as (old & post' & -> & Ho); [exact Hp|].
    pose proof (sextet_ranges a 0 0 Ha ltac:(done) ltac:(done)) as (R1 & R2 & _ & _).
    rewrite Z.add_0_r in R2. eexists.
    erewrite (decode_loop_block _ _ _ _ _ pb old post' _ _ _ _ [a; 0; 0]);
      [|by apply (quad_two _ pre tl _ (a / 4) (a mod 4 * 16) pad)|done| |done|done].
    2: { pose proof (decodeBlock_spec a 0 0 Ha ltac:(done) ltac:(done)) as E. rewrite Z.add_0_r in E. exact E. }
    rewrite decode_loop_end. f_equal. apply f_equal2; [|simpl; lia].
    by change ([a; 0; 0] ++ post') with ([a] ++ ([0; 0] ++ post')).
  - destruct fuel as [|fuel]; [lia|]. rewrite !bytes_ok_cons in Hok. destruct Hok as (Ha & Hb & _).
    destruct (split_3 post) as (old & post' & -> & Ho); [exact Hp|].
    pose proof (sextet_ranges a b 0 Ha Hb ltac:(done)) as (R1 & R2 & R3 & _).
    rewrite Z.add_0_r in R3. eexists.
    erewrite (decode_loop_block _ _ _ _ _ pb old post' _ _ _ _ [a; b; 0]);
      [|by apply (quad_three _ pre tl _ (a / 4) (a mod 4 * 16 + b / 16) (b mod 16 * 4))|done| |done|done].
    2: { pose proof (decodeBlock_spec a b 0 Ha Hb ltac:(done)) as E. rewrite Z.add_0_r in E. exact E. }
    rewrite decode_loop_end. f_equal. apply f_equal2; [|simpl; lia].
    by change ([a; b; 0] ++ post') with ([a; b] ++ ([0] ++ post')).
  - rewrite !bytes_ok_cons in Hok. destruct Hok as (Ha & Hb & Hc & Hok).
    pose proof (sextet_ranges a b c Ha Hb Hc) as (R1 & R2 & R3 & R4).
    assert (length (base64 (a :: b :: c :: l)) = 4 + length (base64 l))%nat as Hlen by done.
    rewrite Hlen in *. replace ((4 + length (base64 l)) / 4)%nat with (1 + length (base64 l) / 4)%nat in Hp
      by (change (4 + length (base64 l))%nat with (1 * 4 + length (base64 l))%nat; by rewrite Nat.div_add_l).
    destruct (split_3 post) as (old & post' & -> & Ho); [lia|]. rewrite length_app in Hp.
    erewrite (decode_loop_block _ _ _ _ _ pb old post' _ _ _ _ [a; b; c]);
      [|apply (quad_full _ pre (base64 l ++ tl) _ (a / 4) (a mod 4 * 16 + b / 16) (b mod 16 * 4 + c / 64) (c mod 64));
          [done..|lia|reflexivity]|done
       |by apply decodeBlock_spec|done|done].
    replace (pre ++ base64 (a :: b :: c :: l) ++ tl) with
      ((pre ++ base64 [a; b; c]) ++ base64 l ++ tl) by (by rewrite <- app_assoc).
    replace (pb ++ [a; b; c] ++ post') with ((pb ++ [a; b; c]) ++ post') by (by rewrite <- app_assoc).
    replace (Z.of_nat (length pre) + 4) with (Z.of_nat (length (pre ++ base64 [a; b; c])))
      by (rewrite length_app; simpl; lia).
    replace (Z.of_nat (4 + length (base64 l)) - 4) with (Z.of_nat (length (base64 l))) by lia.
    replace (Z.of_nat (length pb) + (Z.of_nat 4 - 1)) with (Z.of_nat (length (pb ++ [a; b; c])))
      by (rewrite length_app; simpl; lia).
    destruct (IH fuel (pre ++ base64 [a; b; c]) tl (pb ++ [a; b; c]) post') as (post'' & ->); [done|lia|lia|].
    exists post''. rewrite <- app_assoc, !length_app. simpl. f_equal. f_equal. lia.
Qed.

Lemma decodeBase64_base64 data : bytes_ok data -> decodeBase64 (base64 data) = Ret data.
Proof.
  intros Hok. unfold decodeBase64, decodeBase64_mem.
  assert (length data <= length (base64 data))%nat.
  { rewrite length_base64. pose proof (Nat.div_mod (length data + 2) 3). 
    pose proof (Nat.mod_upper_bound (length data + 2) 3). lia. }
  destruct (decode_loop_spec data (length (base64 data ++ [0]) + 2) [] [0] []
    (repeat 0 (Z.to_nat (Z.of_nat (length (base64 data)) / 4 * 3)))) as (post & E).
  - done.
  - rewrite length_app. simpl. lia.
  - rewrite repeat_length. change 4 with (Z.of_nat 4). rewrite <- Nat2Z.inj_div. lia.
  - cbn [app length] in E. change (Z.of_nat 0) with 0 in E. rewrite E. cbn [mbind res_bind].
    rewrite Nat2Z.id. simpl. by rewrite take_app_length.
Qed.

(** ** Properties *)

(** The encoder, on a [Blob] of fewer than 2^31 bytes, fills exactly the
    buffer it asks for and computes the base 64 text of the bytes (groups of six
    bits, most significant first, padded to a multiple of four characters), though
    it reads one byte behind a last incomplete block. *)
Theorem encode_reference (data : list Z) :
  bytes_ok data -> Z.of_nat (length data) < 2 ^ 31 ->
  encodeBase64 data = Ret (base64 data) /\
  length (base64 data) = (4 * ((length data + 2) / 3))%nat.
Proof. intros Hok Hs. split; [by apply encodeBase64_base64|apply length_base64]. Qed.

Lemma encode_reference_witness :
  encodeBase64 [0; 255; 16; 7] = Ret (chars "AP8QBw==") /\ length (chars "AP8QBw==") = (4 * ((4 + 2) / 3))%nat.
Proof. apply (encode_reference [0; 255; 16; 7]); [|done]. by apply (bool_decide_unpack _), I. Defined.

(** C25. Round trip: decoding what the encoder made of fewer than 2^31 bytes (the
    encoder counts them as an [int]) gives the bytes back, within the output buffer
    and without reading behind the text. *)
Theorem base64_roundtrip (data : list Z) :
  bytes_ok data -> Z.of_nat (length data) < 2 ^ 31 ->
  (text ← encodeBase64 data; decodeBase64 text) = Ret data.
Proof. intros Hok Hs. rewrite encodeBase64_base64 by done. by apply decodeBase64_base64. Qed.

Lemma base64_roundtrip_witness :
  (text ← encodeBase64 [0; 255; 16; 7]; decodeBase64 text) = Ret [0; 255; 16; 7].
Proof. apply base64_roundtrip; [|done]. by apply (bool_decide_unpack _), I. Defined.
