(* ===== verification/Time.v ===== *)
(** * core/time: Time

    Conversions of [SysTime] (milliseconds since 1970) from and to seconds and
    calendar fields. [gmtime] and [timegm] are the C library's: the proleptic
    Gregorian calendar of UTC, with the [mktime] normalisation of the month. *)

From S2P Require Import Prelude Machine.

(** ** The C library *)

Record tm := mk_tm { tm_year : Z; tm_mon : Z; tm_mday : Z; tm_hour : Z; tm_min : Z; tm_sec : Z }.

(** Days since 1970-01-01 of a year, a month counted from March ([0..11]) and a
    day of the month, in eras of 400 years starting on March 1. *)
Definition days_of_year (yoe : Z) : Z := 365 * yoe + yoe / 4 - yoe / 100.
Definition days_of_month (mp : Z) : Z := (153 * mp + 2) / 5.

Definition days_from_march (y mp d : Z) : Z :=
  y / 400 * 146097 + days_of_year (y mod 400) + days_of_month mp + (d - 1) - 719468.

(** [mon] is zero based and may be out of range. *)
Definition days_from_civil (year mon day : Z) : Z :=
  let y := year + mon / 12 in
  let m := mon mod 12 in
  if m <? 2 then days_from_march (y - 1) (m + 10) day else days_from_march y (m - 2) day.

Definition timegm (t : tm) : Z :=
  days_from_civil (tm_year t + 1900) (tm_mon t) (tm_mday t) * 86400 +
  tm_hour t * 3600 + tm_min t * 60 + tm_sec t.

Definition year_of_era (doe : Z) : Z := (doe - doe / 1460 + doe / 36524 - doe / 146096) / 365.

(** The calendar date of a day: year, zero based month and day of the month. *)
Definition civil_from_days (days : Z) : Z * Z * Z :=
  let z := days + 719468 in
  let doe := z mod 146097 in
  let yoe := year_of_era doe in
  let y := yoe + z / 146097 * 400 in
  let doy := doe - days_of_year yoe in
  let mp := (5 * doy + 2) / 153 in
  let d := doy - days_of_month mp + 1 in
  if mp <? 10 then (y, mp + 2, d) else (y + 1, mp - 10, d).

(** [gmtime_r]: null when the year does not fit an [int]. *)
Definition gmtime (t : Z) : option tm :=
  let '(y, mon, d) := civil_from_days (t / 86400) in
  let s := t mod 86400 in
  if decide (in_s 32 (y - 1900)) then
    Some (mk_tm (y - 1900) mon d (s / 3600) (s / 60 mod 60) (s mod 60))
  else None.

(** ** Time *)

Definition SEC_BASE : Z := 1000.
Definition INVAL_TIME : Z := - 2 ^ 63.

Definition fromSeconds (seconds : Z) : Z :=
  if seconds =? INVAL_TIME then INVAL_TIME else s64 (seconds * SEC_BASE).
Definition toSeconds (time : Z) : Z :=
  if time =? INVAL_TIME then INVAL_TIME else Z.quot time SEC_BASE.
Definition toSecondsUp (time : Z) : Z :=
  if time =? INVAL_TIME then INVAL_TIME else Z.quot (s64 (time + SEC_BASE - 1)) SEC_BASE.
Definition fractMsecs (time : Z) : Z := u32 (Z.quot (s64 (Z.rem time SEC_BASE * 1000)) SEC_BASE).
Definition interFromMseconds (time : Z) : Z := Z.quot (s64 (time * SEC_BASE)) 1000.

Definition calendar_tm (year mon day hour min sec : Z) : tm :=
  mk_tm (s32 (year - 1900)) mon (s32 (day + 1)) hour min sec.

Definition convertUtcTime (year mon day hour min sec timezone_min : Z) : Z :=
  let tt := timegm (calendar_tm year mon day hour min sec) in
  if tt <? 0 then tt else s64 (s64 (tt + s32 (timezone_min * 60)) * SEC_BASE).

Definition convertUtcTimeMsec (year mon day hour min sec msec timezone_min : Z) : Z :=
  let tt := timegm (calendar_tm year mon day hour min sec) in
  if tt <? 0 then tt
  else s64 (fromSeconds (s64 (tt + s32 (timezone_min * 60))) + interFromMseconds msec).

(** The fields stored through the pointer arguments: year, month, day, hour,
    minute, second; the month and the day are zero based. *)
Definition timeToUtcCalendar (tvalue : Z) : res (Z * Z * Z * Z * Z * Z) :=
  match gmtime (toSeconds tvalue) with
  | None => Exn Exception
  | Some t => Ret (tm_year t + 1900, tm_mon t, tm_mday t - 1, tm_hour t, tm_min t, tm_sec t)
  end.

Definition timeToUtcCalendarMsec (tvalue : Z) : res (Z * Z * Z * Z * Z * Z * Z) :=
  '(year, mon, day, hour, min, sec) ← timeToUtcCalendar tvalue;
  Ret (year, mon, day, hour, min, sec, fractMsecs tvalue).

Example epoch : timeToUtcCalendar 0 = Ret (1970, 0, 0, 0, 0, 0).
Proof. reflexivity. Qed.
Example leap_day : timeToUtcCalendar (951782400 * 1000) = Ret (2000, 1, 28, 0, 0, 0).
Proof. reflexivity. Qed.

(** ** The calendar is a bijection *)

Lemma doy_range doe : 0 <= doe < 146097 ->
  0 <= year_of_era doe < 400 /\ 0 <= doe - days_of_year (year_of_era doe) <= 365.
Proof. unfold year_of_era, days_of_year. intros H. split; divlia. Qed.

Lemma month_range doy : 0 <= doy <= 365 ->
  0 <= (5 * doy + 2) / 153 < 12 /\ 1 <= doy - days_of_month ((5 * doy + 2) / 153) + 1 <= 31.
Proof. unfold days_of_month. intros H. split; divlia. Qed.

Lemma civil_days days : let '(y, mon, d) := civil_from_days days in
  days_from_civil y mon d = days /\ 0 <= mon < 12 /\ 1 <= d <= 31.
Proof.
  unfold civil_from_days. set (z := days + 719468). set (doe := z mod 146097).
  assert (0 <= doe < 146097) as Hdoe by (apply Z.mod_pos_bound; done).
  destruct (doy_range doe Hdoe) as [Hyoe Hdoy]. set (yoe := year_of_era doe) in *.
  set (doy := doe - days_of_year yoe) in *. set (mp := (5 * doy + 2) / 153).
  destruct (month_range doy Hdoy) as [Hmp Hd]. fold mp in Hmp, Hd.
  assert (forall y d, y = yoe + z / 146097 * 400 -> d = doy - days_of_month mp + 1 ->
    days_from_march y mp d = days) as Hm.
  { intros y d -> ->. unfold days_from_march. rewrite Z.div_add, Z.mod_add by done.
    rewrite (Z.div_small yoe), (Z.mod_small yoe) by done.
    pose proof (Z.div_mod z 146097 ltac:(done)). fold doe in H.
    assert (z = days + 719468) by done. assert (doy = doe - days_of_year yoe) by done. lia. }
  destruct (Z.ltb_spec mp 10); (split; [|lia]); unfold days_from_civil.
  - rewrite (Z.div_small (mp + 2)), (Z.mod_small (mp + 2)) by lia. destruct (Z.ltb_spec (mp + 2) 2); [lia|].
    replace (mp + 2 - 2) with mp by lia. apply Hm; lia.
  - rewrite (Z.div_small (mp - 10)), (Z.mod_small (mp - 10)) by lia. destruct (Z.ltb_spec (mp - 10) 2); [|lia].
    replace (mp - 10 + 10) with mp by lia. apply Hm; lia.
Qed.

Lemma gmtime_timegm t r : gmtime t = Some r ->
  timegm r = t /\ 0 <= tm_mon r < 12 /\ 1 <= tm_mday r <= 31 /\ in_s 32 (tm_year r) /\
  0 <= tm_hour r < 24 /\ 0 <= tm_min r < 60 /\ 0 <= tm_sec r < 60.
Proof.
  unfold gmtime. pose proof (civil_days (t / 86400)) as H.
  destruct (civil_from_days (t / 86400)) as [[y mon] d]. destruct H as (Hd & Hm & Hday).
  destruct (decide _) as [Hy|]; [|done]. intros [= <-]. unfold timegm. cbn [tm_year tm_mon tm_mday tm_hour tm_min tm_sec].
  replace (y - 1900 + 1900) with y by lia. rewrite Hd. split_and!; try done; divlia.
Qed.

(** The calendar fields of a time from 1970 on make its seconds again. *)
Lemma calendar_fields (t : Z) (r : tm) : 0 <= t < 2 ^ 63 -> gmtime (toSeconds t) = Some r ->
  calendar_tm (tm_year r + 1900) (tm_mon r) (tm_mday r - 1) (tm_hour r) (tm_min r) (tm_sec r) = r /\
  timegm r = t / 1000 /\ 0 <= t / 1000 * 1000 <= t /\
  convertUtcTime (tm_year r + 1900) (tm_mon r) (tm_mday r - 1) (tm_hour r) (tm_min r) (tm_sec r) 0 = t - t mod 1000.
Proof.
  intros Ht E. destruct (gmtime_timegm _ _ E) as (Hg & Hmon & Hday & Hy & Hh & Hmi & Hs).
  assert (calendar_tm (tm_year r + 1900) (tm_mon r) (tm_mday r - 1) (tm_hour r) (tm_min r) (tm_sec r) = r) as Hr.
  { unfold calendar_tm. replace (tm_year r + 1900 - 1900) with (tm_year r) by lia.
    replace (tm_mday r - 1 + 1) with (tm_mday r) by lia.
    rewrite !swrap_id by (done || unfold in_s; lia). by destruct r. }
  assert (toSeconds t = t / 1000) as Hts.
  { unfold toSeconds. destruct (Z.eqb_spec t INVAL_TIME); [unfold INVAL_TIME in *; lia|].
    unfold SEC_BASE. apply Z.quot_div_nonneg; lia. }
  assert (0 <= t / 1000 * 1000 <= t) by divlia. split_and!; [done|congruence|lia|lia|].
  unfold convertUtcTime. rewrite Hr, Hg, Hts. destruct (Z.ltb_spec (t / 1000) 0); [divlia|].
  rewrite Z.mul_0_l, (swrap_id 32 0), Z.add_0_r by done. rewrite (swrap_id 64 (t / 1000)) by (done || unfold in_s; lia).
  unfold SEC_BASE. rewrite swrap_id by (done || unfold in_s; lia). divlia.
Qed.

(** ** Properties *)

(** C37. A time taken apart into calendar fields is put together again: for a
    time of 1970 or later whose year can be represented, [convertUtcTime] of the
    fields [timeToUtcCalendar] stores is the time without its milliseconds, and
    the variants with milliseconds give the time itself. *)
Theorem calendar_roundtrip (t year mon day hour min sec : Z) :
  0 <= t < 2 ^ 63 -> timeToUtcCalendar t = Ret (year, mon, day, hour, min, sec) ->
  0 <= mon < 12 /\ 0 <= day < 31 /\ 0 <= hour < 24 /\ 0 <= min < 60 /\ 0 <= sec < 60 /\
  convertUtcTime year mon day hour min sec 0 = t - t mod 1000 /\
  convertUtcTimeMsec year mon day hour min sec (fractMsecs t) 0 = t.
Proof.
  intros Ht. unfold timeToUtcCalendar. destruct (gmtime (toSeconds t)) as [r|] eqn:E; [|done].
  intros [= <- <- <- <- <- <-]. destruct (gmtime_timegm _ _ E) as (_ & Hmon & Hday & _ & Hh & Hmi & Hs).
  destruct (calendar_fields t r Ht E) as (Hr & Hg & Hb & Hc). split_and!; try done; try lia.
  unfold convertUtcTimeMsec. rewrite Hr, Hg. destruct (Z.ltb_spec (t / 1000) 0); [divlia|].
  rewrite Z.mul_0_l, (swrap_id 32 0), Z.add_0_r by done. rewrite (swrap_id 64 (t / 1000)) by (done || unfold in_s; lia).
  unfold fromSeconds, fractMsecs, interFromMseconds, SEC_BASE.
  destruct (Z.eqb_spec (t / 1000) INVAL_TIME); [unfold INVAL_TIME in *; lia|].
  rewrite Z.rem_mod_nonneg by lia. pose proof (Z.mod_pos_bound t 1000 ltac:(done)).
  rewrite (swrap_id 64 (t mod 1000 * 1000)) by (done || unfold in_s; lia).
  rewrite Z.quot_mul, (uwrap_id 32) by (done || unfold in_u; lia).
  rewrite (swrap_id 64 (t mod 1000 * 1000)), Z.quot_mul by (done || unfold in_s; lia).
  rewrite (swrap_id 64 (t / 1000 * 1000)) by (done || unfold in_s; lia).
  rewrite swrap_id by (done || unfold in_s; divlia). divlia.
Qed.

Lemma calendar_roundtrip_witness :
  0 <= 1 < 12 /\ 0 <= 28 < 31 /\ 0 <= 12 < 24 /\ 0 <= 34 < 60 /\ 0 <= 56 < 60 /\
  convertUtcTime 2000 1 28 12 34 56 0 = 951827696789 - 951827696789 mod 1000 /\
  convertUtcTimeMsec 2000 1 28 12 34 56 (fractMsecs 951827696789) 0 = 951827696789.
Proof. apply calendar_roundtrip; [done|]. vm_compute. reflexivity. Defined.

Example before_1970 : convertUtcTime 1969 11 30 23 59 59 0 = -1 /\ toSeconds (-1000) = -1.
Proof. done. Qed.
