(* ===== verification/RpcDecoder.v ===== *)
(** * net/rpc: RpcDecoder

    What the decoders of the two protocols share: the types of elements, the
    values that [readVariant] makes, and the choice of a decoder for a content. *)

From S2P Require Import Prelude Machine.

Inductive RpcType :=
| RT_End | RT_Int | RT_Bool | RT_Double | RT_String | RT_Time | RT_Binary | RT_Struct | RT_Array
| RT_MethodName | RT_MethodResponse | RT_FaultResponse.

(** ** Values *)

(** What [readVariant] returns: [V_NULL] is the null pointer. The members of a
    struct are those of the hash it fills, in the order of their creation. *)
Inductive Variant :=
| V_NULL
| V_Int (v : Z)
| V_Bool (v : bool)
| V_Double (v : Z)
| V_String (v : list Z)
| V_Time (v : Z)
| V_Binary (v : list Z)
| V_Struct (members : list (list Z * Variant))
| V_Array (items : list Variant).

(** [createNode(name)->v = value]: the node of the name, created if missing. *)
Fixpoint set_member (name : list Z) (value : Variant) (l : list (list Z * Variant)) : list (list Z * Variant) :=
  match l with
  | [] => [(name, value)]
  | (k, v) :: l => if decide (k = name) then (k, value) :: l else (k, v) :: set_member name value l
  end.

Lemma set_member_new name v l : name ∉ l.*1 -> set_member name v l = l ++ [(name, v)].
Proof.
  induction l as [|[k w] l IH]; intros H; [done|]. simpl in *. rewrite not_elem_of_cons in H. destruct H as [Hk Hl].
  destruct (decide (k = name)); [congruence|]. by rewrite IH.
Qed.

(** [RpcDecoder::createDecoder]: which decoder a content is for. *)
Inductive decoder_class := DC_FastRpc | DC_XmlRpc.

Definition createDecoder (data : list Z) : res decoder_class :=
  if 2 <=? Z.of_nat (length data) then
    magic ← mem_range (data ++ [0]) 0 2;
    Ret (if bool_decide (magic = [0xCA; 0x11]) then DC_FastRpc else DC_XmlRpc)
  else Ret DC_XmlRpc.

(** Induction on values with their parts. *)
Section Variant_induction.
Variable P : Variant -> Prop.
Hypothesis H_NULL : P V_NULL.
Hypothesis H_Int : forall v, P (V_Int v).
Hypothesis H_Bool : forall v, P (V_Bool v).
Hypothesis H_Double : forall v, P (V_Double v).
Hypothesis H_String : forall v, P (V_String v).
Hypothesis H_Time : forall v, P (V_Time v).
Hypothesis H_Binary : forall v, P (V_Binary v).
Hypothesis H_Struct : forall l, Forall (fun m => P (snd m)) l -> P (V_Struct l).
Hypothesis H_Array : forall l, Forall P l -> P (V_Array l).

Fixpoint Variant_nested (v : Variant) : P v :=
  match v with
  | V_NULL => H_NULL
  | V_Int v => H_Int v
  | V_Bool v => H_Bool v
  | V_Double v => H_Double v
  | V_String v => H_String v
  | V_Time v => H_Time v
  | V_Binary v => H_Binary v
  | V_Struct l => H_Struct l
    ((fix go (l : list (list Z * Variant)) : Forall (fun m => P (snd m)) l :=
      match l with
      | [] => Forall_nil_2 _
      | m :: l => Forall_cons_2 (fun m => P (snd m)) m l (Variant_nested (snd m)) (go l)
      end) l)
  | V_Array l => H_Array l
    ((fix go (l : list Variant) : Forall P l :=
      match l with
      | [] => Forall_nil_2 _
      | v :: l => Forall_cons_2 _ _ _ (Variant_nested v) (go l)
      end) l)
  end.
End Variant_induction.
