(* ===== verification/FastRpcEncoder.v ===== *)
(** * net/rpc: FastRpcEncoder

    The encoder's state is its [length_add] (1 from the constructor on: protocol
    version 2) and the content written so far. A [String] is the list of its
    UTF-8 bytes, a [double] the 64-bit pattern of its representation. *)

From S2P Require Import Prelude Machine Time.

Record encoder := mk_encoder { length_add : Z; content : list Z }.

Definition create : encoder := mk_encoder 1 [].

(** [content.append(c, n)] of a local array of which only the first bytes were
    stored to. *)
Definition append_array (c : list Z) (n : Z) : act encoder unit := fun st =>
  if Z.of_nat (length c) <? n then Crash Uninitialized
  else Ret (tt, mk_encoder (length_add st) (content st ++ take (Z.to_nat n) c)).

Definition append (s : list Z) : act encoder unit := fun st =>
  Ret (tt, mk_encoder (length_add st) (content st ++ s)).

(** The type octet and the bytes [c[1]], [c[2]], ... stored for a length. *)
Definition gen_length_octets (type length : Z) : Z * list Z :=
  let c1 := u8 length in
  let c2 := u8 (Z.shiftr length 8) in
  if 0xff <? length then
    if 0xffff <? u32 length then
      let c4 := [c1; c2; u8 (Z.shiftr length 16); u8 (Z.shiftr length 24)] in
      if negb (Z.land length (Z.shiftl 1 32) =? 0) then
        (Z.lor type 7, c4 ++ [u8 (Z.shiftr length 32); u8 (Z.shiftr length 40);
                              u8 (Z.shiftr length 48); u8 (Z.shiftr length 56)])
      else (Z.lor type 3, c4)
    else (Z.lor type 1, [c1; c2])
  else (type, [c1]).

Definition writeGenLength (type length : Z) : act encoder unit :=
  st ← get;
  let '(type, c) := gen_length_octets type length in
  let type := if (Z.land type 7 =? 7) && (length_add st =? 0) then u8 (type - 1) else type in
  append_array (u8 (type + (1 - length_add st)) :: c) (Z.land type 7 + 2).

Definition writeHeader : act encoder unit :=
  st ← get;
  if 0 <? length_add st then append [0xCA; 0x11; 0x02; 0x00] else append [0xCA; 0x11; 0x01; 0x00].

(** The size goes into a [char]. *)
Definition writeMethodName (name : list Z) : act encoder unit :=
  _ ← append [0x68; u8 (Z.of_nat (length name))]; append name.

Definition writeMethodEnd : act encoder unit := mret tt.
Definition writeMethodResponse : act encoder unit := append [0x70].
Definition writeResponseEnd : act encoder unit := mret tt.

(** The type octet for the magnitude of a value, and the magnitude. *)
Definition int32_type (length_add value : Z) : Z * Z :=
  if 0 <? length_add then
    let '(type, value) := if value <? 0 then (0x40, s32 (- value)) else (0x38, value) in
    if value <=? 0xffff then
      if value <=? 0xff then (type, value) else (Z.lor type 1, value)
    else (Z.lor type 3, value)
  else if value <? 0 then (0x0b, value)
  else if value <? 128 then (0x08, value)
  else if value <? 32768 then (0x09, value)
  else (0x0b, value).

Definition writeInt32 (value : Z) : act encoder unit :=
  st ← get;
  let '(type, value) := int32_type (length_add st) value in
  append_array (u8 (type + (1 - length_add st)) :: le_bytes 4 (u32 value)) (Z.land type 7 + 2).

Definition int64_type (length_add value : Z) : Z * Z :=
  if 0 <? length_add then
    let '(type, value) := if value <? 0 then (0x40, s64 (- value)) else (0x38, value) in
    if value <=? 0xffff then
      if value <=? 0xff then (type, value) else (Z.lor type 1, value)
    else if value <=? 0xffffffff then (Z.lor type 3, value)
    else (Z.lor type 7, value)
  else
    let type := if value <? 0 then 0x0f
                else if value <? 128 then 0x08
                else if value <? Z.shiftl 1 16 then 0x09
                else if value <? Z.shiftl 1 32 then 0x0b
                else 0x0f in
    (if (Z.land type 7 =? 7) && (length_add =? 0) then type - 1 else type, value).

Definition writeInt64 (value : Z) : act encoder unit :=
  st ← get;
  let '(type, value) := int64_type (length_add st) value in
  append_array (u8 (type + (1 - length_add st)) :: le_bytes 8 (u64 value)) (Z.land type 7 + 2).

Definition writeBool (value : bool) : act encoder unit := append [Z.lor 0x10 (Z.b2z value)].

Definition writeDouble (value : Z) : act encoder unit := append (0x18 :: le_bytes 8 value).

Definition writeString (str : list Z) : act encoder unit :=
  _ ← writeGenLength 0x20 (Z.of_nat (length str)); append str.

Definition writeBinary (data : list Z) : act encoder unit :=
  _ ← writeGenLength 0x30 (Z.of_nat (length data)); append data.

Definition writeFaultResponse (code : Z) (message : list Z) : act encoder unit :=
  _ ← append [0x78]; _ ← writeInt64 code; writeString message.

(** The eleven octets of a time: a zone, the low 32 bits of the seconds, and the
    calendar fields packed. *)
Definition time_octets (tvalue year mon day hour min sec : Z) : list Z :=
  let wday := 7 in
  [0x28; 0; u8 tvalue; u8 (Z.shiftr tvalue 8); u8 (Z.shiftr tvalue 16); u8 (Z.shiftr tvalue 24);
   u8 (wday + Z.shiftl (Z.land sec 0x1f) 3);
   u8 (Z.shiftr (Z.land sec 0x20) 5 + Z.shiftl (Z.land min 0x3f) 1 + Z.shiftl (Z.land hour 0x01) 7);
   u8 (Z.shiftr (Z.land hour 0x1e) 1 + Z.shiftl (Z.land (day + 1) 0x0f) 4);
   u8 (Z.shiftr (Z.land (day + 1) 0x1f) 4 + Z.shiftl (Z.land (mon + 1) 0x0f) 1 +
       Z.shiftl (Z.land (year - 1600) 0x07) 5);
   u8 (Z.shiftr (Z.land (year - 1600) 0x7f8) 3)].

Definition writeTime (tvalue : Z) : act encoder unit :=
  '(year, mon, day, hour, min, sec) ← lift (timeToUtcCalendar tvalue);
  append (time_octets (toSeconds tvalue) year mon day hour min sec).

Definition writeArrayLength (length : Z) : act encoder unit := writeGenLength 0x58 length.
Definition writeStructLength (length : Z) : act encoder unit := writeGenLength 0x50 length.

Definition writeMemberName (name : list Z) : act encoder unit :=
  if 255 <? Z.of_nat (length name) then throw InvalidFormatException
  else _ ← append [u8 (Z.of_nat (length name))]; append name.

Definition writeArrayEnd : act encoder unit := mret tt.
Definition writeStructEnd : act encoder unit := mret tt.
