(* ===== verification/FastRpcDecoder.v ===== *)
(** * net/rpc: FastRpcDecoder

    The decoder over the memory of its content [Blob]: the bytes, which end at
    [end_], and the terminating zero behind them. A [String] is the list of the
    bytes handed to its constructor or to [setUtf8], a [double] its 64-bit
    pattern. [length_add] and the versions are set by [readHeader] only. *)

From S2P Require Import Prelude Machine Time RpcDecoder.

Record decoder := mk_decoder {
  mem : list Z;
  end_ : Z;
  pos : Z;
  length_add : option Z;
  version : option (Z * Z);
}.

Definition setContent (content : list Z) : decoder :=
  mk_decoder (content ++ [0]) (Z.of_nat (length content)) 0 None None.

(** ** Memory *)

Definition advance (n : Z) : act decoder unit := fun st =>
  Ret (tt, mk_decoder (mem st) (end_ st) (pos st + n) (length_add st) (version st)).

(** [pos[k]], [*pos++] and [n] bytes from [pos] on. *)
Definition peek (k : Z) : act decoder Z := fun st => b ← byte_at (mem st) (pos st + k); Ret (b, st).
Definition next : act decoder Z := b ← peek 0; _ ← advance 1; mret b.
Definition take_bytes (n : Z) : act decoder (list Z) :=
  st ← get; l ← lift (mem_range (mem st) (pos st) n); _ ← advance n; mret l.

Definition get_length_add : act decoder Z :=
  st ← get; match length_add st with Some la => mret la | None => lift (Crash Uninitialized) end.

(** The two forms of the bounds check. *)
Definition check_at_end : act decoder unit :=
  st ← get; if end_ st <=? pos st then throw EndOfDataException else mret tt.
Definition check_past (n : Z) : act decoder unit :=
  st ← get; if end_ st + n <? pos st then throw EndOfDataException else mret tt.
Definition check_left (n : Z) : act decoder unit :=
  st ← get; if end_ st <? pos st + n then throw EndOfDataException else mret tt.

(** ** Elements *)

Definition readGenLength (length_octets : Z) : act decoder Z :=
  la ← get_length_add;
  let length_octets := length_octets + la in
  _ ← check_past length_octets;
  l ← take_bytes length_octets;
  mret (u64 (le_value l)).

Definition readHeader : act decoder Z :=
  _ ← check_past 5;
  st ← get;
  magic ← lift (mem_range (mem st) (pos st) 2);
  if negb (bool_decide (magic = [0xCA; 0x11])) then throw InvalidFormatException
  else
    major ← peek 2;
    minor ← peek 3;
    _ ← put (mk_decoder (mem st) (end_ st) (pos st + 4) (Some (Z.b2z (2 <=? major))) (Some (major, minor)));
    b ← peek 0;
    let code := Z.shiftr b 3 in
    if code =? 0xd then mret 0
    else if code =? 0xe then mret 1
    else if code =? 0xf then mret 2
    else throw InvalidFormatException.

Definition type_of_code (code : Z) : option RpcType :=
  if (code =? 1) || (code =? 8) || (code =? 7) then Some RT_Int
  else if code =? 2 then Some RT_Bool
  else if code =? 3 then Some RT_Double
  else if code =? 4 then Some RT_String
  else if code =? 5 then Some RT_Time
  else if code =? 6 then Some RT_Binary
  else if code =? 10 then Some RT_Struct
  else if code =? 11 then Some RT_Array
  else if code =? 13 then Some RT_MethodName
  else if code =? 14 then Some RT_MethodResponse
  else if code =? 15 then Some RT_FaultResponse
  else None.

Definition readCheckType : act decoder RpcType :=
  st ← get;
  if end_ st <=? pos st then mret RT_End
  else
    b ← peek 0;
    match type_of_code (Z.shiftr b 3) with
    | Some t => mret t
    | None => throw InvalidFormatException
    end.

(** [for (i = 0; i < octets; i += 8) value += (UintW)*pos++<<i] for a [W]-bit
    signed value. *)
Fixpoint read_octets (w : Z) (n : nat) (i value : Z) : act decoder Z :=
  match n with
  | O => mret value
  | S n => b ← next; read_octets w n (i + 8) (swrap w (value + uwrap w (Z.shiftl b i)))
  end.

(** [value |= value<<(W-octets)>>(W-octets)]. *)
Definition extend_sign (w octets value : Z) : act decoder Z :=
  if octets =? 0 then lift (Crash BadShift)
  else mret (Z.lor value (Z.shiftr (swrap w (Z.shiftl value (w - octets))) (w - octets))).

Definition readInt32 : act decoder Z :=
  _ ← check_at_end;
  type ← next;
  let code := Z.shiftr type 3 in
  if code =? 1 then
    let octets := Z.land type 7 in
    if 4 <? octets then throw OverflowException
    else _ ← check_left octets; value ← read_octets 32 (Z.to_nat octets) 0 0; extend_sign 32 (8 * octets) value
  else if code =? 7 then
    la ← get_length_add;
    let octets := Z.land type 7 + la in
    if 4 <? octets then throw OverflowException
    else _ ← check_left octets; read_octets 32 (Z.to_nat octets) 0 0
  else if code =? 8 then
    la ← get_length_add;
    let octets := Z.land type 7 + la in
    if 4 <? octets then throw OverflowException
    else _ ← check_left octets; value ← read_octets 32 (Z.to_nat octets) 0 0; mret (s32 (- value))
  else throw InvalidFormatException.

Definition readInt64 : act decoder Z :=
  _ ← check_at_end;
  type ← next;
  let code := Z.shiftr type 3 in
  if code =? 1 then
    let octets := Z.land type 7 in
    if 8 <? octets then throw OverflowException
    else _ ← check_left octets; value ← read_octets 64 (Z.to_nat octets) 0 0; extend_sign 64 (8 * octets) value
  else if code =? 7 then
    la ← get_length_add;
    let octets := Z.land type 7 + la in
    _ ← check_left octets; read_octets 64 (Z.to_nat octets) 0 0
  else if code =? 8 then
    la ← get_length_add;
    let octets := Z.land type 7 + la in
    _ ← check_left octets; value ← read_octets 64 (Z.to_nat octets) 0 0; mret (s64 (- value))
  else throw InvalidFormatException.

Definition readBool : act decoder bool :=
  _ ← check_at_end;
  type ← next;
  if negb (Z.land type (Z.lnot 1) =? 0x10) then throw InvalidFormatException
  else mret (negb (Z.land type 1 =? 0)).

Definition readDouble : act decoder Z :=
  _ ← check_past 9;
  type ← next;
  if negb (type =? 0x18) then throw InvalidFormatException
  else l ← take_bytes 8; mret (le_value l).

(** The block shared by strings and binary data. *)
Definition readSized (code : Z) : act decoder (list Z) :=
  _ ← check_at_end;
  type ← next;
  if negb (Z.land type 0xf8 =? code) then throw InvalidFormatException
  else
    str_len ← readGenLength (Z.land type 0x7);
    _ ← check_past str_len;
    take_bytes str_len.

Definition readString : act decoder (list Z) := readSized 0x20.
Definition readBinary : act decoder (list Z) := readSized 0x30.

Definition time_of_fields (p0 p5 p6 p7 p8 p9 : Z) : Z :=
  convertUtcTime (1600 + Z.lor (Z.shiftl p9 3) (Z.shiftr p8 5)) (Z.shiftr (Z.land p8 0x1e) 1 - 1)
    (Z.lor (Z.shiftl (Z.land p8 1) 4) (Z.shiftr p7 4) - 1)
    (Z.lor (Z.shiftl (Z.land p7 0xf) 1) (Z.shiftr p6 7)) (Z.shiftr (Z.land p6 0x7e) 1)
    (Z.lor (Z.shiftl (Z.land p6 0x01) 5) (Z.shiftr (Z.land p5 0xf8) 3)) (p0 * 15).

Definition readTime : act decoder Z :=
  _ ← check_at_end;
  type ← next;
  if negb (type =? 0x28) then throw InvalidFormatException
  else
    _ ← check_past 10;
    st ← get;
    l ← lift (mem_range (mem st) (pos st + 1) 4);
    let value := le_value l in
    value ← (if value =? 0 then
      p0 ← peek 0; p5 ← peek 5; p6 ← peek 6; p7 ← peek 7; p8 ← peek 8; p9 ← peek 9;
      mret (time_of_fields p0 p5 p6 p7 p8 p9)
    else mret (fromSeconds value));
    _ ← advance 10;
    mret value.

Definition readLength (code : Z) : act decoder Z :=
  _ ← check_at_end;
  type ← next;
  if negb (Z.land type 0xf8 =? code) then throw InvalidFormatException
  else length ← readGenLength (Z.land type 0x7); mret (s64 length).

Definition readStructLength : act decoder Z := readLength 0x50.
Definition readArrayLength : act decoder Z := readLength 0x58.

Definition readMemberName : act decoder (list Z) :=
  _ ← check_at_end; len ← next; _ ← check_past len; take_bytes len.

Definition readMethodName : act decoder (list Z) :=
  _ ← check_past 1;
  type ← next;
  if negb (type =? 0x68) then throw InvalidFormatException
  else len ← next; _ ← check_past len; take_bytes len.

Definition readMethodResponse : act decoder unit :=
  _ ← check_past 1;
  type ← next;
  if negb (type =? 0x70) then throw InvalidFormatException else mret tt.

Definition readFaultResponse : act decoder (Z * list Z) :=
  _ ← check_past 1;
  type ← next;
  if negb (type =? 0x78) then throw InvalidFormatException
  else result ← readInt64; message ← readString; mret (result, message).

(** [--*count >= 0]. *)
Definition checkNext (count : Z) : Z * bool := let count := s64 (count - 1) in (count, 0 <=? count).

(** ** Values *)

(** The loop over [num_members]: its count is positive for as many turns. *)
Fixpoint times {A} (n : nat) (body : A -> act decoder A) (a : A) : act decoder A :=
  match n with
  | O => mret a
  | S n => a ← body a; times n body a
  end.

(** [depth] bounds the nesting: every level takes an octet of the content. *)
Fixpoint readVariant (depth : nat) : act decoder Variant :=
  match depth with
  | O => lift NoFuel
  | S depth =>
    type ← readCheckType;
    match type with
    | RT_End => throw EndOfDataException
    | RT_Int => v ← readInt64; mret (V_Int v)
    | RT_Bool => v ← readBool; mret (V_Bool v)
    | RT_Double => v ← readDouble; mret (V_Double v)
    | RT_String => v ← readString; mret (V_String v)
    | RT_Time => v ← readTime; mret (V_Time v)
    | RT_Binary => v ← readBinary; mret (V_Binary v)
    | RT_Struct =>
      num_members ← readStructLength;
      struc ← times (Z.to_nat num_members) (fun struc =>
        member_name ← readMemberName;
        member_value ← readVariant depth;
        mret (set_member member_name member_value struc)) [];
      mret (V_Struct struc)
    | RT_Array =>
      num_members ← readArrayLength;
      list ← times (Z.to_nat num_members) (fun list =>
        member_value ← readVariant depth;
        mret (list ++ [member_value])) [];
      mret (V_Array list)
    | RT_MethodName | RT_MethodResponse | RT_FaultResponse => mret V_NULL
    end
  end.

(** The counts of [readSkip] are unsigned. *)
Fixpoint readSkip (depth : nat) : act decoder unit :=
  match depth with
  | O => lift NoFuel
  | S depth =>
    b ← peek 0;
    match type_of_code (Z.shiftr b 3) with
    | Some RT_Int => _ ← readInt64; mret tt
    | Some RT_Bool => _ ← readBool; mret tt
    | Some RT_Double => _ ← readDouble; mret tt
    | Some RT_String => _ ← readString; mret tt
    | Some RT_Time => _ ← readTime; mret tt
    | Some RT_Binary => _ ← readBinary; mret tt
    | Some RT_Struct =>
      sc ← readStructLength;
      times (Z.to_nat (u64 sc)) (fun _ => _ ← readMemberName; readSkip depth) tt
    | Some RT_Array =>
      ac ← readArrayLength;
      times (Z.to_nat (u64 ac)) (fun _ => readSkip depth) tt
    | Some RT_MethodName => _ ← readMethodName; mret tt
    | Some RT_MethodResponse => readMethodResponse
    | Some RT_FaultResponse => _ ← readFaultResponse; mret tt
    | Some RT_End | None => throw InvalidFormatException
    end
  end.
