(* ===== verification/FastRpc.v ===== *)
(** * net/rpc: the two ends of FastRpc

    What the encoder writes and what the decoder makes of it: the round trips of
    the elements and of nested values, the agreement of [readSkip] with
    [readVariant], and the memory safety of the reads. *)

From S2P Require Import Prelude Machine Time FastRpcEncoder RpcDecoder FastRpcDecoder.

(** ** Writing and reading as relations to bytes *)

(** [writes m out]: on an encoder of protocol version 2, [m] appends [out]. *)
Definition writes {A} (m : act encoder A) (out : list Z) (a : A) : Prop :=
  forall c, m (mk_encoder 1 c) = Ret (a, mk_encoder 1 (c ++ out)).

Lemma writes_ret {A} (a : A) : writes (mret a) [] a.
Proof. intros c. by rewrite app_nil_r. Qed.

Lemma writes_bind {A B} (m : act encoder A) (f : A -> act encoder B) o1 o2 a b :
  writes m o1 a -> writes (f a) o2 b -> writes (m ≫= f) (o1 ++ o2) b.
Proof. intros Hm Hf c. unfold mbind, act_bind. by rewrite Hm, Hf, app_assoc. Qed.

Lemma writes_append s : writes (append s) s tt.
Proof. done. Qed.

Lemma writes_array c n : 0 <= n <= Z.of_nat (length c) -> writes (append_array c n) (take (Z.to_nat n) c) tt.
Proof. intros H c0. unfold append_array. by destruct (Z.ltb_spec (Z.of_nat (length c)) n); [lia|]. Qed.

(** The bytes lie in front of the decoder, within its content. *)
Definition at_bytes (bytes : list Z) (st : decoder) : Prop :=
  exists pre post, mem st = pre ++ bytes ++ post /\ pos st = Z.of_nat (length pre) /\
    pos st + Z.of_nat (length bytes) <= end_ st /\ length_add st = Some 1.

Definition skip (n : nat) (st : decoder) : decoder :=
  mk_decoder (mem st) (end_ st) (pos st + Z.of_nat n) (length_add st) (version st).

(** [reads m bytes a]: [m] takes exactly [bytes] and returns [a]. *)
Definition reads {A} (m : act decoder A) (bytes : list Z) (a : A) : Prop :=
  forall st, at_bytes bytes st -> m st = Ret (a, skip (length bytes) st).

Lemma skip_0 st : skip 0 st = st.
Proof. destruct st. unfold skip. simpl. by rewrite Z.add_0_r. Qed.

Lemma skip_skip n k st : skip n (skip k st) = skip (k + n) st.
Proof. unfold skip. simpl. f_equal. lia. Qed.

Lemma at_bytes_app b1 b2 st : at_bytes (b1 ++ b2) st -> at_bytes b1 st /\ at_bytes b2 (skip (length b1) st).
Proof.
  intros (pre & post & Hm & Hp & He & Hl). rewrite length_app in He. split.
  - exists pre, (b2 ++ post). rewrite Hm, <- app_assoc. split_and!; [done..|lia|done].
  - exists (pre ++ b1), post. simpl. rewrite Hm, <- !app_assoc, length_app. split_and!; [done|lia..|done].
Qed.

Lemma reads_ret {A} (a : A) : reads (mret a) [] a.
Proof. intros st _. by rewrite skip_0. Qed.

Lemma reads_bind {A B} (m : act decoder A) (f : A -> act decoder B) b1 b2 a b :
  reads m b1 a -> reads (f a) b2 b -> reads (m ≫= f) (b1 ++ b2) b.
Proof.
  intros Hm Hf st Hst. destruct (at_bytes_app _ _ _ Hst) as [H1 H2].
  unfold mbind, act_bind. rewrite (Hm st H1), (Hf _ H2), skip_skip. by rewrite length_app.
Qed.

(** The same with nothing read by the first part. *)
Lemma reads_bind_nil {A B} (m : act decoder A) (f : A -> act decoder B) bytes a b :
  (forall st, at_bytes bytes st -> m st = Ret (a, st)) -> reads (f a) bytes b -> reads (m ≫= f) bytes b.
Proof. intros Hm Hf st Hst. unfold mbind, act_bind. by rewrite (Hm st Hst), (Hf st Hst). Qed.

Lemma reads_check_at_end {B} (f : unit -> act decoder B) bytes b :
  bytes <> [] -> reads (f tt) bytes b -> reads (check_at_end ≫= f) bytes b.
Proof.
  intros Hne. apply reads_bind_nil. intros st (pre & post & _ & Hp & He & _).
  unfold check_at_end, get, mbind, act_bind. destruct bytes; [done|]. simpl in He.
  by destruct (Z.leb_spec (end_ st) (pos st)); [lia|].
Qed.

Lemma reads_check_past {B} (f : unit -> act decoder B) n bytes b :
  0 <= n -> reads (f tt) bytes b -> reads (check_past n ≫= f) bytes b.
Proof.
  intros Hn. apply reads_bind_nil. intros st (pre & post & _ & Hp & He & _).
  unfold check_past, get, mbind, act_bind. by destruct (Z.ltb_spec (end_ st + n) (pos st)); [lia|].
Qed.

Lemma reads_check_left {B} (f : unit -> act decoder B) n bytes b :
  n <= Z.of_nat (length bytes) -> reads (f tt) bytes b -> reads (check_left n ≫= f) bytes b.
Proof.
  intros Hn. apply reads_bind_nil. intros st (pre & post & _ & Hp & He & _).
  unfold check_left, get, mbind, act_bind. by destruct (Z.ltb_spec (end_ st) (pos st + n)); [lia|].
Qed.

Lemma reads_length_add {B} (f : Z -> act decoder B) bytes b :
  reads (f 1) bytes b -> reads (get_length_add ≫= f) bytes b.
Proof.
  apply reads_bind_nil. intros st (pre & post & _ & _ & _ & Hl).
  unfold get_length_add, get, mbind, act_bind. by rewrite Hl.
Qed.

Lemma reads_next b : reads next [b] b.
Proof.
  intros st (pre & post & Hm & Hp & _). unfold next, peek, advance, mbind, act_bind.
  rewrite Hm, Hp, byte_at_app by done. change (byte_at ([b] ++ post) 0) with (Ret b).
  unfold mbind, res_bind. unfold skip. by rewrite Hm, Hp.
Qed.

Lemma reads_take_bytes n l : n = Z.of_nat (length l) -> reads (take_bytes n) l l.
Proof.
  intros -> st (pre & post & Hm & Hp & _). unfold take_bytes, get, lift, advance, mbind, act_bind.
  rewrite Hp, Hm, mem_range_app. unfold mret, act_ret, skip. by rewrite Hm, Hp.
Qed.

Lemma reads_cons {B} (f : Z -> act decoder B) b bytes r :
  reads (f b) bytes r -> reads (next ≫= f) (b :: bytes) r.
Proof. intros Hf. change (b :: bytes) with ([b] ++ bytes). eapply reads_bind; [apply reads_next|done]. Qed.

(** ** Octets of integers *)

Lemma reads_octets w l : forall i v, bytes_ok l -> 0 <= i -> i + 8 * Z.of_nat (length l) <= w -> 0 < w -> in_s w v ->
  reads (read_octets w (length l) i v) l (swrap w (v + le_value l * 2 ^ i)).
Proof.
  induction l as [|b l IH]; intros i v Hl Hi Hw Hw0 Hv.
  - simpl. rewrite Z.mul_0_l, Z.add_0_r, swrap_id by done. apply reads_ret.
  - rewrite bytes_ok_cons in Hl. destruct Hl as [Hb Hl]. cbn [length read_octets le_value] in *.
    apply reads_cons. rewrite uwrap_shiftl by (done || lia).
    replace (swrap w (v + (b + 256 * le_value l) * 2 ^ i)) with
      (swrap w (swrap w (v + Z.shiftl b i) + le_value l * 2 ^ (i + 8))).
    { apply IH; [done|lia|lia|done|by apply swrap_range]. }
    rewrite swrap_add_l, Z.shiftl_mul_pow2, Z.pow_add_r by lia. f_equal. change (2 ^ 8) with 256. ring.
Qed.

Lemma reads_magnitude w k mag : 0 <= mag < 2 ^ (w - 1) -> mag < 2 ^ (8 * Z.of_nat k) -> 8 * Z.of_nat k <= w -> 0 < w ->
  reads (read_octets w k 0 0) (le_bytes k mag) mag.
Proof.
  intros Hm Hk Hw Hw0. pose proof (reads_octets w (le_bytes k mag) 0 0) as H.
  rewrite le_bytes_length, le_value_bytes, Z.mod_small in H by lia.
  replace (swrap w (0 + mag * 2 ^ 0)) with mag in H by (rewrite swrap_id by (done || unfold in_s; lia); lia).
  apply H; [apply le_bytes_ok|done|lia|done|]. unfold in_s. pose proof (Z.pow_pos_nonneg 2 (w - 1)). lia.
Qed.

(** An integer element: a tag with its number of octets less one and the
    octets of the magnitude. *)
Definition int_octets (tag : Z) (k : nat) (mag : Z) : list Z := (tag + Z.of_nat k - 1) :: le_bytes k mag.

Lemma tag_split tag k : (tag = 0x38 \/ tag = 0x40) -> (1 <= k <= 8)%nat ->
  Z.shiftr (tag + Z.of_nat k - 1) 3 = tag / 8 /\ Z.land (tag + Z.of_nat k - 1) 7 = Z.of_nat k - 1.
Proof.
  intros Ht Hk. rewrite Z.shiftr_div_pow2 by done. change 7 with (Z.ones 3). rewrite Z.land_ones by done.
  change (2 ^ 3) with 8. destruct Ht as [-> | ->]; split; divlia.
Qed.

Lemma reads_int32_plus k mag : (1 <= k <= 4)%nat -> 0 <= mag < 2 ^ 31 -> mag < 2 ^ (8 * Z.of_nat k) ->
  reads readInt32 (int_octets 0x38 k mag) mag.
Proof.
  intros Hk Hm Hb. destruct (tag_split 0x38 k ltac:(by left) ltac:(lia)) as [Ec Ek].
  apply reads_check_at_end; [done|]. apply reads_cons. rewrite Ec, Ek. apply reads_length_add.
  cbv zeta. rewrite Z.sub_add. destruct (Z.ltb_spec 4 (Z.of_nat k)); [lia|]. rewrite Nat2Z.id.
  apply reads_check_left; [by rewrite le_bytes_length|]. apply reads_magnitude; (done || lia).
Qed.

Lemma reads_int32_minus k mag : (1 <= k <= 4)%nat -> 0 <= mag < 2 ^ 31 -> mag < 2 ^ (8 * Z.of_nat k) ->
  reads readInt32 (int_octets 0x40 k mag) (- mag).
Proof.
  intros Hk Hm Hb. destruct (tag_split 0x40 k ltac:(by right) ltac:(lia)) as [Ec Ek].
  apply reads_check_at_end; [done|]. apply reads_cons. rewrite Ec, Ek. apply reads_length_add.
  cbv zeta. rewrite Z.sub_add. destruct (Z.ltb_spec 4 (Z.of_nat k)); [lia|]. rewrite Nat2Z.id.
  apply reads_check_left; [by rewrite le_bytes_length|]. rewrite <- (app_nil_r (le_bytes k mag)).
  eapply reads_bind; [apply (reads_magnitude 32 k mag); (done || lia)|].
  rewrite swrap_id by (done || unfold in_s; lia). apply reads_ret.
Qed.

Lemma reads_int64_plus k mag : (1 <= k <= 8)%nat -> 0 <= mag < 2 ^ 63 -> mag < 2 ^ (8 * Z.of_nat k) ->
  reads readInt64 (int_octets 0x38 k mag) mag.
Proof.
  intros Hk Hm Hb. destruct (tag_split 0x38 k ltac:(by left) ltac:(lia)) as [Ec Ek].
  apply reads_check_at_end; [done|]. apply reads_cons. rewrite Ec, Ek. apply reads_length_add.
  cbv zeta. rewrite Z.sub_add, Nat2Z.id.
  apply reads_check_left; [by rewrite le_bytes_length|]. apply reads_magnitude; (done || lia).
Qed.

Lemma reads_int64_minus k mag : (1 <= k <= 8)%nat -> 0 <= mag < 2 ^ 63 -> mag < 2 ^ (8 * Z.of_nat k) ->
  reads readInt64 (int_octets 0x40 k mag) (- mag).
Proof.
  intros Hk Hm Hb. destruct (tag_split 0x40 k ltac:(by right) ltac:(lia)) as [Ec Ek].
  apply reads_check_at_end; [done|]. apply reads_cons. rewrite Ec, Ek. apply reads_length_add.
  cbv zeta. rewrite Z.sub_add, Nat2Z.id.
  apply reads_check_left; [by rewrite le_bytes_length|]. rewrite <- (app_nil_r (le_bytes k mag)).
  eapply reads_bind; [apply (reads_magnitude 64 k mag); (done || lia)|].
  rewrite swrap_id by (done || unfold in_s; lia). apply reads_ret.
Qed.

(** What the encoder writes is of that form. *)
Lemma writes_int_array type k mag n : (k <= n)%nat -> 0 <= type < 256 -> Z.land type 7 = Z.of_nat k - 1 ->
  writes (append_array (u8 (type + (1 - 1)) :: le_bytes n mag) (Z.land type 7 + 2)) (type :: le_bytes k mag) tt.
Proof.
  intros Hk Ht ->. rewrite Z.add_0_r, uwrap_id by done.
  pose proof (writes_array (type :: le_bytes n mag) (Z.of_nat k - 1 + 2)) as H. cbn [length] in H.
  rewrite le_bytes_length in H.
  replace (Z.to_nat (Z.of_nat k - 1 + 2)) with (S k) in H by lia. cbn [take] in H.
  rewrite take_le_bytes in H by done. apply H. lia.
Qed.

Definition int_written (neg : bool) (k : nat) (mag : Z) : list Z := int_octets (if neg then 0x40 else 0x38) k mag.

Lemma writes_get {B} (f : encoder -> act encoder B) out b :
  (forall c, exists m, f (mk_encoder 1 c) = m /\ writes m out b) -> writes (get ≫= f) out b.
Proof. intros H c. unfold get, mbind, act_bind. destruct (H c) as (m & -> & Hm). apply Hm. Qed.

Lemma int32_type_spec v : in_s 32 v -> v <> - 2 ^ 31 ->
  exists (neg : bool) k mag, v = (if neg then - mag else mag) /\ (1 <= k <= 4)%nat /\ 0 <= mag < 2 ^ 31 /\
    mag < 2 ^ (8 * Z.of_nat k) /\ int32_type 1 v = ((if neg then 0x40 else 0x38) + Z.of_nat k - 1, mag).
Proof.
  unfold in_s. intros Hv Hmin. unfold int32_type. simpl Z.ltb at 1. cbv iota.
  assert (exists (neg : bool) mag, v = (if neg then - mag else mag) /\ 0 <= mag < 2 ^ 31 /\
    (if v <? 0 then (0x40, s32 (- v)) else (0x38, v)) = (if neg then 0x40 else 0x38, mag)) as (neg & mag & Hmag & Hr & ->).
  { destruct (Z.ltb_spec v 0); [exists true, (- v)|exists false, v].
    - rewrite swrap_id by (done || unfold in_s; lia). split_and!; [lia..|done].
    - split_and!; [lia..|done]. }
  exists neg. destruct (Z.leb_spec mag 0xffff); [destruct (Z.leb_spec mag 0xff)|].
  - exists 1%nat, mag. split_and!; try (done || lia); by destruct neg.
  - exists 2%nat, mag. split_and!; try (done || lia); by destruct neg.
  - exists 4%nat, mag. split_and!; try (done || lia); by destruct neg.
Qed.

Lemma int64_type_spec v : in_s 64 v -> v <> - 2 ^ 63 ->
  exists (neg : bool) k mag, v = (if neg then - mag else mag) /\ (1 <= k <= 8)%nat /\ 0 <= mag < 2 ^ 63 /\
    mag < 2 ^ (8 * Z.of_nat k) /\ int64_type 1 v = ((if neg then 0x40 else 0x38) + Z.of_nat k - 1, mag).
Proof.
  unfold in_s. intros Hv Hmin. unfold int64_type. simpl Z.ltb at 1. cbv iota.
  assert (exists (neg : bool) mag, v = (if neg then - mag else mag) /\ 0 <= mag < 2 ^ 63 /\
    (if v <? 0 then (0x40, s64 (- v)) else (0x38, v)) = (if neg then 0x40 else 0x38, mag)) as (neg & mag & Hmag & Hr & ->).
  { destruct (Z.ltb_spec v 0); [exists true, (- v)|exists false, v].
    - rewrite swrap_id by (done || unfold in_s; lia). split_and!; [lia..|done].
    - split_and!; [lia..|done]. }
  exists neg. destruct (Z.leb_spec mag 0xffff); [destruct (Z.leb_spec mag 0xff)|destruct (Z.leb_spec mag 0xffffffff)].
  - exists 1%nat, mag. split_and!; try (done || lia); by destruct neg.
  - exists 2%nat, mag. split_and!; try (done || lia); by destruct neg.
  - exists 4%nat, mag. split_and!; try (done || lia); by destruct neg.
  - exists 8%nat, mag. split_and!; try (done || lia); by destruct neg.
Qed.

Lemma int_tag_range (neg : bool) k : (1 <= k <= 8)%nat ->
  0 <= (if neg then 0x40 else 0x38) + Z.of_nat k - 1 < 256 /\
  Z.land ((if neg then 0x40 else 0x38) + Z.of_nat k - 1) 7 = Z.of_nat k - 1.
Proof.
  intros Hk. split; [destruct neg; lia|]. apply tag_split; [destruct neg; auto|done].
Qed.

Lemma le_bytes_u32 v : le_bytes 4 (u32 v) = le_bytes 4 v.
Proof. exact (le_bytes_mod 4 v). Qed.
Lemma le_bytes_u64 v : le_bytes 8 (u64 v) = le_bytes 8 v.
Proof. exact (le_bytes_mod 8 v). Qed.

Lemma writes_int32 v : in_s 32 v -> v <> - 2 ^ 31 ->
  exists out, writes (writeInt32 v) out tt /\ reads readInt32 out v /\ reads readInt64 out v /\ out <> [].
Proof.
  intros Hv Hmin. destruct (int32_type_spec v Hv Hmin) as (neg & k & mag & Hn & Hk & Hm & Hb & E).
  destruct (int_tag_range neg k ltac:(lia)) as [Ht Hl].
  exists (int_written neg k mag). split_and!; [|..|done].
  - apply writes_get. intros c. eexists. split; [done|]. cbn [FastRpcEncoder.length_add]. rewrite E.
    cbv iota beta. rewrite le_bytes_u32. by apply (writes_int_array _ k mag 4); [lia| |].
  - rewrite Hn. destruct neg; [by apply reads_int32_minus|by apply reads_int32_plus].
  - rewrite Hn. destruct neg; [apply reads_int64_minus|apply reads_int64_plus]; (done || lia).
Qed.

Lemma writes_int64 v : in_s 64 v -> v <> - 2 ^ 63 ->
  exists out, writes (writeInt64 v) out tt /\ reads readInt64 out v /\
    exists tag l, out = tag :: l /\ (Z.shiftr tag 3 = 7 \/ Z.shiftr tag 3 = 8).
Proof.
  intros Hv Hmin. destruct (int64_type_spec v Hv Hmin) as (neg & k & mag & Hn & Hk & Hm & Hb & E).
  destruct (int_tag_range neg k ltac:(lia)) as [Ht Hl].
  exists (int_written neg k mag). split_and!.
  - apply writes_get. intros c. eexists. split; [done|]. cbn [FastRpcEncoder.length_add]. rewrite E.
    cbv iota beta. rewrite le_bytes_u64. by apply (writes_int_array _ k mag 8); [lia| |].
  - rewrite Hn. destruct neg; [by apply reads_int64_minus|by apply reads_int64_plus].
  - eexists _, _. split; [done|]. destruct neg; [right|left];
      [apply (tag_split 0x40 k)|apply (tag_split 0x38 k)]; auto.
Qed.

(** ** Lengths, strings and binary data *)

Definition length_code (code : Z) : Prop := code = 0x20 \/ code = 0x30 \/ code = 0x50 \/ code = 0x58.

Definition length_octets (code : Z) (k : nat) (len : Z) : list Z := (code + Z.of_nat k - 1) :: le_bytes k len.

Lemma le_bytes_2 v : le_bytes 2 v = [u8 v; u8 (Z.shiftr v 8)].
Proof. simpl. unfold uwrap. by rewrite Z.shiftr_div_pow2. Qed.
Lemma le_bytes_4 v : le_bytes 4 v = [u8 v; u8 (Z.shiftr v 8); u8 (Z.shiftr v 16); u8 (Z.shiftr v 24)].
Proof. simpl. unfold uwrap. rewrite !Z.shiftr_div_pow2, !Z.div_div by done. done. Qed.

Lemma gen_length_spec code len : length_code code -> 0 <= len < 2 ^ 32 ->
  exists k, (k = 1 \/ k = 2 \/ k = 4)%nat /\ len < 2 ^ (8 * Z.of_nat k) /\
    gen_length_octets code len = (code + Z.of_nat k - 1, le_bytes k len).
Proof.
  intros Hc Hl. unfold gen_length_octets. rewrite (uwrap_id 32) by done.
  assert (Z.land len (Z.shiftl 1 32) = 0) as ->.
  { apply Z.bits_inj'. intros i Hi. rewrite Z.land_spec, Z.bits_0. destruct (Z.lt_ge_cases i 32).
    - rewrite (Z.shiftl_spec_low 1 32 i) by done. apply andb_false_r.
    - by rewrite (testbit_small len 32 i). }
  destruct (Z.ltb_spec 0xff len); [destruct (Z.ltb_spec 0xffff len)|].
  - exists 4%nat. split_and!; [auto|lia|]. rewrite le_bytes_4. by destruct Hc as [-> |[-> |[-> | ->]]].
  - exists 2%nat. split_and!; [auto|simpl; lia|]. rewrite le_bytes_2. by destruct Hc as [-> |[-> |[-> | ->]]].
  - exists 1%nat. split_and!; [auto|simpl; lia|]. by destruct Hc as [-> |[-> |[-> | ->]]].
Qed.

Lemma length_tag code k : length_code code -> (k = 1 \/ k = 2 \/ k = 4)%nat ->
  0 <= code + Z.of_nat k - 1 < 256 /\ Z.land (code + Z.of_nat k - 1) 0xf8 = code /\
  Z.land (code + Z.of_nat k - 1) 7 = Z.of_nat k - 1 /\
  Z.shiftr (code + Z.of_nat k - 1) 3 = code / 8.
Proof. by intros [-> |[-> |[-> | ->]]] [-> |[-> | ->]]. Qed.

Lemma writes_length code len : length_code code -> 0 <= len < 2 ^ 32 ->
  exists k, (k = 1 \/ k = 2 \/ k = 4)%nat /\ len < 2 ^ (8 * Z.of_nat k) /\
    writes (writeGenLength code len) (length_octets code k len) tt.
Proof.
  intros Hc Hl. destruct (gen_length_spec code len Hc Hl) as (k & Hk & Hb & E). exists k. split_and!; [done..|].
  destruct (length_tag code k Hc Hk) as (Ht & _ & H7 & _).
  apply writes_get. intros c. eexists. split; [done|]. cbn [FastRpcEncoder.length_add]. rewrite E.
  change (1 =? 0) with false. rewrite andb_false_r. cbv iota beta zeta.
  rewrite <- (take_le_bytes k k len) at 1 by done. rewrite firstn_all2 by (by rewrite le_bytes_length).
  by apply (writes_int_array _ k len k).
Qed.

Lemma reads_gen_length k len : (1 <= k <= 8)%nat -> 0 <= len < 2 ^ (8 * Z.of_nat k) ->
  reads (readGenLength (Z.of_nat k - 1)) (le_bytes k len) len.
Proof.
  intros Hk Hl. unfold readGenLength. apply reads_length_add. cbv zeta. rewrite Z.sub_add.
  apply reads_check_past; [lia|]. rewrite <- (app_nil_r (le_bytes k len)).
  eapply reads_bind; [apply reads_take_bytes; by rewrite le_bytes_length|].
  rewrite le_value_bytes, Z.mod_small by done.
  assert (2 ^ (8 * Z.of_nat k) <= 2 ^ 64) by (apply Z.pow_le_mono_r; lia).
  rewrite uwrap_id by (unfold in_u; lia). apply reads_ret.
Qed.

Lemma reads_length code k len : length_code code -> (k = 1 \/ k = 2 \/ k = 4)%nat -> 0 <= len < 2 ^ (8 * Z.of_nat k) ->
  len < 2 ^ 63 -> reads (readLength code) (length_octets code k len) len.
Proof.
  intros Hc Hk Hl H63. destruct (length_tag code k Hc Hk) as (Ht & H8 & H7 & _).
  apply reads_check_at_end; [done|]. apply reads_cons. rewrite H8, H7, Z.eqb_refl. cbn [negb].
  rewrite <- (app_nil_r (le_bytes k len)). eapply reads_bind; [apply reads_gen_length; [lia|done]|].
  rewrite swrap_id by (done || unfold in_s; lia). apply reads_ret.
Qed.

Lemma reads_sized code k l : length_code code -> (k = 1 \/ k = 2 \/ k = 4)%nat ->
  Z.of_nat (length l) < 2 ^ (8 * Z.of_nat k) ->
  reads (readSized code) (length_octets code k (Z.of_nat (length l)) ++ l) l.
Proof.
  intros Hc Hk Hl. destruct (length_tag code k Hc Hk) as (Ht & H8 & H7 & _).
  apply reads_check_at_end; [done|]. apply reads_cons. rewrite H8, H7, Z.eqb_refl. cbn [negb].
  eapply reads_bind; [apply reads_gen_length; lia|].
  apply reads_check_past; [lia|]. by apply reads_take_bytes.
Qed.

(** A string or binary element. *)
Lemma writes_sized code l : (code = 0x20 \/ code = 0x30) -> Z.of_nat (length l) < 2 ^ 32 ->
  exists out, writes (_ ← writeGenLength code (Z.of_nat (length l)); append l) out tt /\
    reads (readSized code) out l /\ exists tag rest, out = tag :: rest /\ Z.shiftr tag 3 = code / 8.
Proof.
  intros Hc Hl. assert (length_code code) as Hc' by (unfold length_code; tauto).
  destruct (writes_length code (Z.of_nat (length l)) Hc' ltac:(lia)) as (k & Hk & Hb & Hw).
  eexists. split_and!.
  - eapply writes_bind; [exact Hw|apply writes_append].
  - by apply reads_sized.
  - eexists _, _. split; [done|]. by apply (length_tag code k).
Qed.

Lemma reads_member_name name : bytes_ok name -> Z.of_nat (length name) <= 255 ->
  reads readMemberName (Z.of_nat (length name) :: name) name.
Proof.
  intros _ Hl. apply reads_check_at_end; [done|]. apply reads_cons.
  apply reads_check_past; [lia|]. by apply reads_take_bytes.
Qed.

Lemma writes_member_name name : Z.of_nat (length name) <= 255 ->
  writes (writeMemberName name) (Z.of_nat (length name) :: name) tt.
Proof.
  intros Hl. unfold writeMemberName. destruct (Z.ltb_spec 255 (Z.of_nat (length name))); [lia|].
  rewrite uwrap_id by (unfold in_u; lia).
  change (Z.of_nat (length name) :: name) with ([Z.of_nat (length name)] ++ name).
  eapply writes_bind; apply writes_append.
Qed.

(** ** Times *)

Lemma gmtime_recent s : 0 <= s < 2 ^ 32 -> exists r, gmtime s = Some r.
Proof.
  intros Hs. unfold gmtime. destruct (civil_from_days (s / 86400)) as [[y mon] d] eqn:E.
  destruct (decide _) as [|Hn]; [by eexists|]. exfalso. apply Hn. clear Hn.
  unfold civil_from_days in E. set (z := s / 86400 + 719468) in E.
  pose proof (doy_range (z mod 146097) ltac:(apply Z.mod_pos_bound; done)) as [Hy _].
  assert (0 <= z / 146097 < 10) by (unfold z; divlia). unfold in_s.
  destruct (_ <? 10); injection E as <- <- <-; lia.
Qed.

Lemma reads_time b0 b1 b2 b3 zone rest :
  bytes_ok [b0; b1; b2; b3] -> length rest = 5%nat -> le_value [b0; b1; b2; b3] <> 0 ->
  reads readTime (0x28 :: zone :: b0 :: b1 :: b2 :: b3 :: rest) (fromSeconds (le_value [b0; b1; b2; b3])).
Proof.
  intros Hb Hr Hv. apply reads_check_at_end; [done|]. apply reads_cons. cbn [negb Z.eqb Pos.eqb].
  apply reads_check_past; [done|]. intros st (pre & post & Hm & Hp & He & Hl).
  unfold get, lift, advance, mbind, act_bind. cbn [length app] in *.
  assert (mem_range (mem st) (pos st + 1) 4 = Ret [b0; b1; b2; b3]) as ->.
  { rewrite Hm, Hp. replace (Z.of_nat (length pre) + 1) with (Z.of_nat (length (pre ++ [zone])))
      by (rewrite length_app; simpl; lia).
    pose proof (mem_range_app (pre ++ [zone]) [b0; b1; b2; b3] (rest ++ post)) as E.
    rewrite <- app_assoc in E. exact E. }
  destruct (Z.eqb_spec (le_value [b0; b1; b2; b3]) 0); [done|].
  unfold mret, act_ret, skip. rewrite Hr. done.
Qed.

Lemma writes_time s : 0 < s < 2 ^ 32 ->
  exists out, writes (writeTime (s * 1000)) out tt /\ reads readTime out (s * 1000) /\
    exists rest, out = 0x28 :: rest.
Proof.
  intros Hs. assert (toSeconds (s * 1000) = s) as Hts.
  { unfold toSeconds, SEC_BASE, INVAL_TIME. destruct (Z.eqb_spec (s * 1000) (- 2 ^ 63)); [lia|]. by rewrite Z.quot_mul. }
  destruct (gmtime_recent s ltac:(lia)) as [r Hr].
  exists (time_octets s (tm_year r + 1900) (tm_mon r) (tm_mday r - 1) (tm_hour r) (tm_min r) (tm_sec r)). split_and!.
  - intros c. unfold writeTime, lift, timeToUtcCalendar, mbind, act_bind. by rewrite Hts, Hr.
  - unfold time_octets.
    pose proof (le_bytes_4 s) as E4.
    assert (le_value (le_bytes 4 s) = s) as Ev by (rewrite le_value_bytes; apply Z.mod_small; simpl; lia).
    pose proof (le_bytes_ok 4 s) as Ho. rewrite E4 in Ev, Ho.
    assert (fromSeconds s = s * 1000) as Hf.
    { unfold fromSeconds, SEC_BASE, INVAL_TIME. destruct (Z.eqb_spec s (- 2 ^ 63)); [lia|].
      apply swrap_id; [done|unfold in_s; lia]. }
    replace (s * 1000) with
      (fromSeconds (le_value [u8 s; u8 (Z.shiftr s 8); u8 (Z.shiftr s 16); u8 (Z.shiftr s 24)])) by (by rewrite Ev).
    apply reads_time; [exact Ho|done|]. rewrite Ev. lia.
  - by eexists.
Qed.

(** ** Booleans and doubles *)

Lemma reads_bool b : reads readBool [Z.lor 0x10 (Z.b2z b)] b.
Proof.
  apply reads_check_at_end; [done|]. apply reads_cons. destruct b; apply reads_ret.
Qed.

Lemma reads_double v : in_u 64 v -> reads readDouble (0x18 :: le_bytes 8 v) v.
Proof.
  intros Hv. apply reads_check_past; [done|]. apply reads_cons. cbn [negb Z.eqb Pos.eqb].
  rewrite <- (app_nil_r (le_bytes 8 v)). eapply reads_bind; [by apply reads_take_bytes|].
  rewrite le_value_bytes, Z.mod_small by done. apply reads_ret.
Qed.

(** ** Nested values *)

(** The calls with which a client writes a value. *)
Fixpoint write_value (v : Variant) : act encoder unit :=
  match v with
  | V_NULL => mret tt
  | V_Int v => writeInt64 v
  | V_Bool v => writeBool v
  | V_Double v => writeDouble v
  | V_String v => writeString v
  | V_Time v => writeTime v
  | V_Binary v => writeBinary v
  | V_Struct members =>
    _ ← writeStructLength (Z.of_nat (length members));
    _ ← (fix go (l : list (list Z * Variant)) : act encoder unit :=
      match l with
      | [] => mret tt
      | (name, v) :: l => _ ← writeMemberName name; _ ← write_value v; go l
      end) members;
    writeStructEnd
  | V_Array items =>
    _ ← writeArrayLength (Z.of_nat (length items));
    _ ← (fix go (l : list Variant) : act encoder unit :=
      match l with
      | [] => mret tt
      | v :: l => _ ← write_value v; go l
      end) items;
    writeArrayEnd
  end.

(** Values the protocol can carry: an integer other than the least one, a length
    of at most 32 bits, member names of at most 255 bytes, each once, and times
    of whole seconds after 1970-01-01 00:00:00 that fit 32 bits. *)
Fixpoint value_ok (v : Variant) : Prop :=
  match v with
  | V_NULL => False
  | V_Int v => in_s 64 v /\ v <> - 2 ^ 63
  | V_Bool _ => True
  | V_Double v => in_u 64 v
  | V_String v | V_Binary v => Z.of_nat (length v) < 2 ^ 32
  | V_Time v => exists s, v = s * 1000 /\ 0 < s < 2 ^ 32
  | V_Struct members =>
    Z.of_nat (length members) < 2 ^ 32 /\ NoDup members.*1 /\
    (fix go (l : list (list Z * Variant)) : Prop :=
      match l with
      | [] => True
      | (name, v) :: l => (bytes_ok name /\ Z.of_nat (length name) <= 255 /\ value_ok v) /\ go l
      end) members
  | V_Array items =>
    Z.of_nat (length items) < 2 ^ 32 /\
    (fix go (l : list Variant) : Prop :=
      match l with
      | [] => True
      | v :: l => value_ok v /\ go l
      end) items
  end.

(** [carries v out]: written as [out], which any decoder of enough depth reads
    back and skips. *)
Definition carries (v : Variant) (out : list Z) : Prop :=
  writes (write_value v) out tt /\ (1 <= length out)%nat /\
  forall d, (length out <= d)%nat -> reads (readVariant d) out v /\ reads (readSkip d) out tt.

Lemma reads_check_type {B} (f : RpcType -> act decoder B) tag rest t r :
  type_of_code (Z.shiftr tag 3) = Some t -> reads (f t) (tag :: rest) r ->
  reads (readCheckType ≫= f) (tag :: rest) r.
Proof.
  intros Ht. apply reads_bind_nil. intros st (pre & post & Hm & Hp & He & _).
  unfold readCheckType, peek, get, mbind, act_bind. simpl in He.
  destruct (Z.leb_spec (end_ st) (pos st)); [lia|].
  rewrite Hm, Hp, byte_at_app by done. simpl. by rewrite Ht.
Qed.

Lemma reads_peek {B} (f : Z -> act decoder B) tag rest r :
  reads (f tag) (tag :: rest) r -> reads (peek 0 ≫= f) (tag :: rest) r.
Proof.
  apply reads_bind_nil. intros st (pre & post & Hm & Hp & He & _).
  unfold peek. by rewrite Hm, Hp, byte_at_app.
Qed.

Lemma reads_map {A B} (m : act decoder A) (g : A -> B) out a : reads m out a -> reads (v ← m; mret (g v)) out (g a).
Proof. intros H. rewrite <- (app_nil_r out). eapply reads_bind; [exact H|apply reads_ret]. Qed.

(** A scalar: the tag selects the read. *)
Ltac carry_scalar Hw Hr Ht :=
  split; [exact Hw|split; [simpl; lia|]]; intros [|d] Hd; [simpl in Hd; lia|]; split;
  [ cbn [readVariant]; eapply reads_check_type; [exact Ht|]; cbv iota; exact (reads_map _ _ _ _ Hr)
  | cbn [readSkip]; apply reads_peek; rewrite Ht; cbv iota; exact (reads_map _ (fun _ => tt) _ _ Hr) ].

Lemma carries_scalars v :
  match v with V_NULL | V_Struct _ | V_Array _ => True | _ => value_ok v -> exists out, carries v out end.
Proof.
  destruct v as [|v|v|v|v|v|v|l|l]; try done; intros Hv; cbn [value_ok] in Hv.
  - destruct Hv as [Hv Hmin]. destruct (writes_int64 v Hv Hmin) as (out & Hw & Hr & tag & l & -> & Ht).
    exists (tag :: l). assert (type_of_code (Z.shiftr tag 3) = Some RT_Int) as E by (by destruct Ht as [-> | ->]).
    carry_scalar Hw Hr E.
  - exists [Z.lor 0x10 (Z.b2z v)]. pose proof (reads_bool v) as Hr.
    assert (type_of_code (Z.shiftr (Z.lor 0x10 (Z.b2z v)) 3) = Some RT_Bool) as E by (by destruct v).
    carry_scalar (writes_append [Z.lor 0x10 (Z.b2z v)]) Hr E.
  - exists (0x18 :: le_bytes 8 v). pose proof (reads_double v Hv) as Hr.
    assert (type_of_code (Z.shiftr 0x18 3) = Some RT_Double) as E by done.
    carry_scalar (writes_append (0x18 :: le_bytes 8 v)) Hr E.
  - destruct (writes_sized 0x20 v ltac:(by left) Hv) as (out & Hw & Hr & tag & rest & -> & Ht).
    exists (tag :: rest). assert (type_of_code (Z.shiftr tag 3) = Some RT_String) as E by (by rewrite Ht).
    carry_scalar Hw Hr E.
  - destruct Hv as (s & -> & Hs). destruct (writes_time s Hs) as (out & Hw & Hr & rest & ->).
    exists (0x28 :: rest). assert (type_of_code (Z.shiftr 0x28 3) = Some RT_Time) as E by done.
    carry_scalar Hw Hr E.
  - destruct (writes_sized 0x30 v ltac:(by right) Hv) as (out & Hw & Hr & tag & rest & -> & Ht).
    exists (tag :: rest). assert (type_of_code (Z.shiftr tag 3) = Some RT_Binary) as E by (by rewrite Ht).
    carry_scalar Hw Hr E.
Qed.

Definition write_items := (fix go (l : list Variant) : act encoder unit :=
  match l with [] => mret tt | v :: l => _ ← write_value v; go l end).
Definition write_members := (fix go (l : list (list Z * Variant)) : act encoder unit :=
  match l with [] => mret tt | (name, v) :: l => _ ← writeMemberName name; _ ← write_value v; go l end).

Lemma items_carried items outs : Forall2 carries items outs ->
  writes (write_items items) (concat outs) tt /\
  forall d, (length (concat outs) <= d)%nat ->
    (forall acc, reads (times (length items) (fun l => v ← readVariant d; mret (l ++ [v])) acc)
      (concat outs) (acc ++ items)) /\
    reads (times (length items) (fun _ => readSkip d) tt) (concat outs) tt.
Proof.
  induction 1 as [|v out items outs (Hw & _ & Hd) _ [IHw IHd]].
  - split; [apply writes_ret|]. intros d _. split; [|apply reads_ret]. intros acc. rewrite app_nil_r. apply reads_ret.
  - split; [by eapply writes_bind|]. intros d Hl. simpl in Hl. rewrite length_app in Hl.
    destruct (Hd d ltac:(lia)) as [Hv Hs]. destruct (IHd d ltac:(lia)) as [IHv IHs]. split.
    + intros acc. cbn [times concat length]. eapply reads_bind; [exact (reads_map _ (fun v => acc ++ [v]) _ _ Hv)|].
      replace (acc ++ v :: items) with ((acc ++ [v]) ++ items) by (by rewrite <- app_assoc). apply IHv.
    + cbn [times concat length]. eapply reads_bind; [exact Hs|exact IHs].
Qed.

Definition member_octets (m : list Z * Variant) (out : list Z) : list Z := (Z.of_nat (length m.1) :: m.1) ++ out.

Lemma members_carried members outs :
  Forall (fun m => bytes_ok m.1 /\ Z.of_nat (length m.1) <= 255) members ->
  Forall2 carries members.*2 outs ->
  let bytes := concat (zip_with member_octets members outs) in
  writes (write_members members) bytes tt /\
  forall d, (length bytes <= d)%nat ->
    (forall acc, NoDup (acc.*1 ++ members.*1) ->
      reads (times (length members) (fun l =>
          name ← readMemberName; v ← readVariant d; mret (set_member name v l)) acc)
        bytes (acc ++ members)) /\
    reads (times (length members) (fun _ => _ ← readMemberName; readSkip d) tt) bytes tt.
Proof.
  intros Hn Hf. remember members.*2 as vs eqn:E. revert members Hn E.
  induction Hf as [|v out vs outs (Hw & _ & Hd) _ IH]; intros [|[name w] members] Hn E; try done.
  - split; [apply writes_ret|]. intros d _. split; [|apply reads_ret]. intros acc _. rewrite app_nil_r. apply reads_ret.
  - injection E as -> ->. apply Forall_cons_1 in Hn as [[Hok Hlen] Hn]. simpl in Hok, Hlen.
    destruct (IH members Hn eq_refl) as [IHw IHd]. cbn [zip_with concat].
    set (bytes := concat (zip_with member_octets members outs)) in *.
    change (member_octets (name, w) out) with ((Z.of_nat (length name) :: name) ++ out).
    rewrite <- app_assoc. split.
    + eapply writes_bind; [by apply writes_member_name|]. by eapply writes_bind.
    + intros d Hl. rewrite !length_app in Hl.
      destruct (Hd d ltac:(lia)) as [Hv Hs]. destruct (IHd d ltac:(lia)) as [IHv IHs].
      rewrite app_assoc. cbn [times length]. split.
      * intros acc Hnd. eapply reads_bind.
        { eapply reads_bind; [by apply reads_member_name|].
          exact (reads_map _ (fun v => set_member name v acc) _ _ Hv). }
        assert (NoDup ((acc.*1 ++ [name]) ++ members.*1)) as Hnd' by (by rewrite <- app_assoc).
        rewrite set_member_new.
        2: { intros Hin. apply list.NoDup_app in Hnd as (_ & Hd' & _). apply (Hd' name Hin). by left. }
        replace (acc ++ (name, w) :: members) with ((acc ++ [(name, w)]) ++ members) by (by rewrite <- app_assoc).
        apply IHv. by rewrite fmap_app.
      * eapply reads_bind; [|exact IHs]. eapply reads_bind; [by apply reads_member_name|exact Hs].
Qed.

Lemma carries_array items outs : Z.of_nat (length items) < 2 ^ 32 -> Forall2 carries items outs ->
  exists out, carries (V_Array items) out.
Proof.
  intros Hl Hf. destruct (items_carried items outs Hf) as [Hw Hd].
  assert (length_code 0x58) as Hc by (unfold length_code; tauto).
  destruct (writes_length 0x58 (Z.of_nat (length items)) Hc ltac:(lia)) as (k & Hk & Hb & Hwl).
  destruct (length_tag 0x58 k Hc Hk) as (_ & _ & _ & Ht).
  pose proof (reads_length 0x58 k (Z.of_nat (length items)) Hc Hk ltac:(lia) ltac:(lia)) as Hrl.
  exists (length_octets 0x58 k (Z.of_nat (length items)) ++ concat outs). split_and!.
  - rewrite <- (app_nil_r (_ ++ concat outs)), <- app_assoc. eapply writes_bind; [exact Hwl|].
    eapply writes_bind; [exact Hw|apply writes_ret].
  - simpl. lia.
  - intros [|d] Hd'; [simpl in Hd'; lia|]. rewrite length_app in Hd'. simpl in Hd'.
    destruct (Hd d ltac:(lia)) as [Hv Hs].
    assert (type_of_code (Z.shiftr (0x58 + Z.of_nat k - 1) 3) = Some RT_Array) as E by (by rewrite Ht).
    split.
    + cbn [readVariant]. eapply reads_check_type; [exact E|]. cbv iota.
      eapply (reads_bind _ _ (length_octets _ _ _)); [exact Hrl|]. rewrite Nat2Z.id.
      exact (reads_map _ V_Array _ _ (Hv [])).
    + cbn [readSkip]. apply reads_peek. rewrite E. cbv iota.
      eapply (reads_bind _ _ (length_octets _ _ _)); [exact Hrl|].
      rewrite uwrap_id by (unfold in_u; lia). rewrite Nat2Z.id. exact Hs.
Qed.

Lemma carries_struct members outs : Z.of_nat (length members) < 2 ^ 32 -> NoDup members.*1 ->
  Forall (fun m => bytes_ok m.1 /\ Z.of_nat (length m.1) <= 255) members ->
  Forall2 carries members.*2 outs -> exists out, carries (V_Struct members) out.
Proof.
  intros Hl Hnd Hn Hf. destruct (members_carried members outs Hn Hf) as [Hw Hd].
  set (bytes := concat (zip_with member_octets members outs)) in *.
  assert (length_code 0x50) as Hc by (unfold length_code; tauto).
  destruct (writes_length 0x50 (Z.of_nat (length members)) Hc ltac:(lia)) as (k & Hk & Hb & Hwl).
  destruct (length_tag 0x50 k Hc Hk) as (_ & _ & _ & Ht).
  pose proof (reads_length 0x50 k (Z.of_nat (length members)) Hc Hk ltac:(lia) ltac:(lia)) as Hrl.
  exists (length_octets 0x50 k (Z.of_nat (length members)) ++ bytes). split_and!.
  - rewrite <- (app_nil_r (_ ++ bytes)), <- app_assoc. eapply writes_bind; [exact Hwl|].
    eapply writes_bind; [exact Hw|apply writes_ret].
  - simpl. lia.
  - intros [|d] Hd'; [simpl in Hd'; lia|]. rewrite length_app in Hd'. simpl in Hd'.
    destruct (Hd d ltac:(lia)) as [Hv Hs].
    assert (type_of_code (Z.shiftr (0x50 + Z.of_nat k - 1) 3) = Some RT_Struct) as E by (by rewrite Ht).
    split.
    + cbn [readVariant]. eapply reads_check_type; [exact E|]. cbv iota.
      eapply (reads_bind _ _ (length_octets _ _ _)); [exact Hrl|]. rewrite Nat2Z.id.
      exact (reads_map _ V_Struct _ _ (Hv [] Hnd)).
    + cbn [readSkip]. apply reads_peek. rewrite E. cbv iota.
      eapply (reads_bind _ _ (length_octets _ _ _)); [exact Hrl|].
      rewrite uwrap_id by (unfold in_u; lia). rewrite Nat2Z.id. exact Hs.
Qed.

Lemma value_carried v : value_ok v -> exists out, carries v out.
Proof.
  induction v as [|v|v|v|v|v|v|l IH|l IH] using Variant_nested; intros Hv;
    [done|match goal with |- exists out, carries ?x out => exact (carries_scalars x Hv) end..| |].
  - cbn [value_ok] in Hv. destruct Hv as (Hl & Hnd & Hm).
    assert (Forall (fun m => bytes_ok m.1 /\ Z.of_nat (length m.1) <= 255) l /\
      exists outs, Forall2 carries l.*2 outs) as [Hn [outs Ho]]; [|by eapply carries_struct].
    clear Hl Hnd. induction IH as [|[name v] l Hv _ IHl]; [split; [constructor|by exists []]|].
    destruct Hm as [(Hok & Hlen & Hvok) Hm]. destruct (Hv Hvok) as [out Hout].
    destruct (IHl Hm) as [Hn [outs Hf]]. split; [by constructor|]. exists (out :: outs). by constructor.
  - cbn [value_ok] in Hv. destruct Hv as (Hl & Hm).
    assert (exists outs, Forall2 carries l outs) as [outs Ho]; [|by eapply carries_array].
    clear Hl. induction IH as [|v l Hv _ IHl]; [by exists []|].
    destruct Hm as [Hvok Hm]. destruct (Hv Hvok) as [out Hout]. destruct (IHl Hm) as [outs Hf].
    exists (out :: outs). by constructor.
Qed.

(** ** Memory safety of the integer reads *)

Definition in_content (st : decoder) : Prop :=
  0 <= pos st <= end_ st /\ end_ st < Z.of_nat (length (mem st)) /\
  exists la, length_add st = Some la /\ 0 <= la <= 1.

(** A read that stays in the content or reports a malformed one; [BadShift] is the
    shift by the whole width of an integer without octets. *)
Definition read_safe {A} (r : res (A * decoder)) : Prop :=
  match r with
  | Ret (_, st) => in_content st
  | Exn e => e = EndOfDataException \/ e = InvalidFormatException \/ e = OverflowException
  | Crash c => c = BadShift
  | NoFuel => False
  end.

Lemma next_safe st : 0 <= pos st -> pos st < Z.of_nat (length (mem st)) -> exists b, next st = Ret (b, skip 1 st).
Proof.
  intros H0 Hp. destruct (lookup_lt_is_Some_2 (mem st) (Z.to_nat (pos st)) ltac:(lia)) as [b Hb].
  exists b. unfold next, peek, advance, mbind, act_bind. rewrite Z.add_0_r, (byte_at_ok _ _ b) by done. done.
Qed.

Lemma read_octets_safe w n : forall i v st, 0 <= pos st -> pos st + Z.of_nat n <= Z.of_nat (length (mem st)) ->
  exists r, read_octets w n i v st = Ret (r, skip n st).
Proof.
  induction n as [|n IH]; intros i v st H0 Hp; [by exists v; rewrite skip_0|].
  destruct (next_safe st) as [b Hb]; [lia..|]. cbn [read_octets]. unfold mbind at 1, act_bind at 1. rewrite Hb.
  destruct (IH (i + 8) (swrap w (v + uwrap w (Z.shiftl b i))) (skip 1 st)) as [r Hr]; [simpl; lia..|].
  exists r. rewrite Hr, skip_skip. done.
Qed.

Lemma in_content_skip st n : in_content st -> pos st + Z.of_nat n <= end_ st -> in_content (skip n st).
Proof. intros (Hp & He & Hl) Hn. unfold in_content, skip. simpl. split_and!; [lia..|done]. Qed.

Lemma land7_range t : 0 <= Z.land t 7 <= 7.
Proof.
  change 7 with (Z.ones 3) at 1 2. rewrite Z.land_ones by done. pose proof (Z.mod_pos_bound t (2 ^ 3) ltac:(done)).
  change (2 ^ 3) with 8 in *. lia.
Qed.

(** The octets of an integer, once they are known to be there. *)
Lemma octets_safe {B} w n (f : Z -> act decoder B) st :
  0 <= n -> in_content st ->
  (forall v st', in_content st' -> read_safe (f v st')) ->
  read_safe ((_ ← check_left n; v ← read_octets w (Z.to_nat n) 0 0; f v) st).
Proof.
  intros Hn Hst Hf. unfold check_left, get, mbind, act_bind. pose proof Hst as (Hp & He & _).
  destruct (Z.ltb_spec (end_ st) (pos st + n)); [simpl; auto|].
  destruct (read_octets_safe w (Z.to_nat n) 0 0 st) as [r Hr]; [lia..|]. unfold mret, act_ret.
  rewrite Hr. apply Hf, in_content_skip; [done|lia].
Qed.

Lemma extend_sign_safe w o v st : in_content st -> read_safe (extend_sign w o v st).
Proof. intros H. unfold extend_sign. by destruct (o =? 0). Qed.

(** The tag octet. *)
Lemma tag_safe {B} (f : Z -> act decoder B) st : in_content st ->
  (forall t st', in_content st' -> read_safe (f t st')) ->
  read_safe ((_ ← check_at_end; t ← next; f t) st).
Proof.
  intros Hst Hf. unfold check_at_end, get, mbind, act_bind. pose proof Hst as (Hp & He & _).
  destruct (Z.leb_spec (end_ st) (pos st)); [simpl; auto|]. unfold mret, act_ret.
  destruct (next_safe st) as [b ->]; [lia..|]. apply Hf, in_content_skip; [done|lia].
Qed.

Lemma length_add_safe {B} (f : Z -> act decoder B) st : in_content st ->
  (forall la, 0 <= la <= 1 -> read_safe (f la st)) -> read_safe ((la ← get_length_add; f la) st).
Proof.
  intros (_ & _ & la & Hla & Hr) Hf. unfold get_length_add, get, mbind, act_bind. rewrite Hla. by apply Hf.
Qed.

Lemma octets_safe' w n st : 0 <= n -> in_content st ->
  read_safe ((_ ← check_left n; read_octets w (Z.to_nat n) 0 0) st).
Proof.
  intros Hn Hst. pose proof (octets_safe w n (fun v => mret v) st Hn Hst (fun v st2 H2 => H2)) as H.
  unfold mbind, act_bind, mret, act_ret in *. destruct (check_left n st) as [[[] st']| | |]; [|done..].
  by destruct (read_octets w (Z.to_nat n) 0 0 st') as [[]| | |].
Qed.

Lemma readInt32_safe st : in_content st -> read_safe (readInt32 st).
Proof.
  intros Hst. apply tag_safe; [done|]. clear st Hst. intros t st Hst. cbv zeta. pose proof (land7_range t).
  destruct (_ =? 1).
  { destruct (4 <? Z.land t 7); [simpl; auto|]. apply octets_safe; [lia|done|]. intros. by apply extend_sign_safe. }
  destruct (_ =? 7).
  { apply length_add_safe; [done|]. intros la Hla. destruct (_ <? _); [simpl; auto|]. apply octets_safe'; [lia|done]. }
  destruct (_ =? 8); [|simpl; auto].
  apply length_add_safe; [done|]. intros la Hla. destruct (_ <? _); [simpl; auto|]. apply octets_safe; [lia|done|]. by intros v st' Hst'.
Qed.

Lemma readInt64_safe st : in_content st -> read_safe (readInt64 st).
Proof.
  intros Hst. apply tag_safe; [done|]. clear st Hst. intros t st Hst. cbv zeta. pose proof (land7_range t).
  destruct (_ =? 1).
  { destruct (8 <? Z.land t 7); [simpl; auto|]. apply octets_safe; [lia|done|]. intros. by apply extend_sign_safe. }
  destruct (_ =? 7).
  { apply length_add_safe; [done|]. intros la Hla. apply octets_safe'; [lia|done]. }
  destruct (_ =? 8); [|simpl; auto].
  apply length_add_safe; [done|]. intros la Hla. apply octets_safe; [lia|done|]. by intros v st' Hst'.
Qed.

Lemma readBool_safe st : in_content st -> read_safe (readBool st).
Proof. intros Hst. apply tag_safe; [done|]. intros t st' Hst'. destruct (negb _); simpl; auto. Qed.

(** ** Properties *)

(** The whole of a response, and reading it back. *)
Definition write_response (v : Variant) : act encoder unit :=
  _ ← writeHeader; _ ← writeMethodResponse; _ ← write_value v; writeResponseEnd.

Definition read_response (depth : nat) : act decoder (Z * Variant) :=
  kind ← readHeader; _ ← readMethodResponse; v ← readVariant depth; mret (kind, v).

Lemma check_past_ok n st : pos st <= end_ st + n -> check_past n st = Ret (tt, st).
Proof. intros H. unfold check_past, get, mbind, act_bind. by destruct (Z.ltb_spec (end_ st + n) (pos st)); [lia|]. Qed.

Lemma act_bind_ret {S A B} (m : act S A) (f : A -> act S B) st a st' :
  m st = Ret (a, st') -> (m ≫= f) st = f a st'.
Proof. intros H. unfold mbind, act_bind. by rewrite H. Qed.

Lemma read_header_response out :
  (kind ← readHeader; _ ← readMethodResponse; mret kind) (setContent ([0xCA; 0x11; 0x02; 0x00; 0x70] ++ out)) =
  Ret (1, mk_decoder (([0xCA; 0x11; 0x02; 0x00; 0x70] ++ out) ++ [0])
    (Z.of_nat (length ([0xCA; 0x11; 0x02; 0x00; 0x70] ++ out))) 5 (Some 1) (Some (2, 0))).
Proof.
  set (content := [0xCA; 0x11; 0x02; 0x00; 0x70] ++ out).
  erewrite act_bind_ret.
  2: { unfold readHeader. erewrite act_bind_ret by (apply check_past_ok; simpl; lia).
       erewrite act_bind_ret by reflexivity.
       erewrite act_bind_ret; [|unfold lift; exact (f_equal (fun r => match r with Ret a => Ret (a, setContent content) | Exn e => Exn e | Crash c => Crash c | NoFuel => NoFuel end)
         (mem_range_app [] [0xCA; 0x11] ([2; 0; 112] ++ out ++ [0])))].
       reflexivity. }
  erewrite act_bind_ret; [reflexivity|].
  unfold readMethodResponse. erewrite act_bind_ret by (apply check_past_ok; simpl; lia). reflexivity.
Qed.

(** C11. Round trip of responses: whatever value the protocol can carry is
    written, and a decoder given the content reads the header, the response mark
    and the same value, and stands at the end of the content; nesting as deep
    as the content is long is enough. *)
Theorem response_roundtrip (v : Variant) :
  value_ok v ->
  exists content, write_response v create = Ret (tt, mk_encoder 1 content) /\
    exists st, read_response (length content) (setContent content) = Ret ((1, v), st) /\ pos st = end_ st.
Proof.
  intros Hv. destruct (value_carried v Hv) as (out & Hw & Hl & Hd).
  exists ([0xCA; 0x11; 0x02; 0x00; 0x70] ++ out). split.
  - unfold write_response, writeHeader, writeMethodResponse, get, mbind, act_bind, create. cbn -[write_value].
    rewrite Hw. done.
  - pose proof (read_header_response out) as Hh. set (content := [0xCA; 0x11; 0x02; 0x00; 0x70] ++ out) in *.
    destruct (Hd (length content)) as [Hr _]; [unfold content; rewrite length_app; lia|].
    set (st := mk_decoder (content ++ [0]) (Z.of_nat (length content)) 5 (Some 1) (Some (2, 0))) in *.
    assert (at_bytes out st) as Hat.
    { exists [0xCA; 0x11; 0x02; 0x00; 0x70], [0]. unfold st, content. simpl. split_and!; [done..|lia|done]. }
    exists (skip (length out) st). split; [|unfold skip, st, content; simpl; lia].
    unfold read_response. unfold mbind, act_bind in Hh |- *.
    destruct (readHeader (setContent content)) as [[k st1]| | |]; [|done..].
    destruct (readMethodResponse st1) as [[[] st2]| | |]; [|done..]. injection Hh as -> ->. by rewrite (Hr st Hat).
Qed.

Lemma response_roundtrip_witness :
  exists content, write_response (V_Struct [([110; 117; 109], V_Int (-300)); ([108], V_Array [V_Bool true; V_Time 1000000; V_String [97]])]) create
      = Ret (tt, mk_encoder 1 content) /\
    exists st, read_response (length content) (setContent content) =
        Ret ((1, V_Struct [([110; 117; 109], V_Int (-300)); ([108], V_Array [V_Bool true; V_Time 1000000; V_String [97]])]), st) /\
      pos st = end_ st.
Proof.
  apply response_roundtrip. simpl. split_and!; try done.
  - by apply (bool_decide_unpack _).
  - by apply (bool_decide_unpack _).
  - by apply (bool_decide_unpack _).
  - by exists 1000.
Defined.

(** Integers: every [Sint32] and [Sint64] but the least one is read back by
    [readInt64], a [Sint32] by [readInt32] too; the least ones, which the encoder
    negates in their own width, are written as a zero. *)
Theorem fastrpc_integers (v : Z) :
  in_s 64 v ->
  (v <> - 2 ^ 63 -> exists out, writes (writeInt64 v) out tt /\ reads readInt64 out v) /\
  (in_s 32 v -> v <> - 2 ^ 31 ->
    exists out, writes (writeInt32 v) out tt /\ reads readInt32 out v /\ reads readInt64 out v) /\
  (v = - 2 ^ 63 -> writes (writeInt64 v) [0x40; 0] tt) /\
  (v = - 2 ^ 31 -> writes (writeInt32 v) [0x40; 0] tt).
Proof.
  intros Hv. split_and!.
  - intros Hm. destruct (writes_int64 v Hv Hm) as (out & Hw & Hr & _). by exists out.
  - intros H32 Hm. destruct (writes_int32 v H32 Hm) as (out & Hw & Hr & Hr' & _). by exists out.
  - intros -> c. done.
  - intros -> c. done.
Qed.

Lemma fastrpc_integers_witness :
  exists out, writes (writeInt32 (-70000)) out tt /\ reads readInt32 out (-70000) /\ reads readInt64 out (-70000).
Proof. apply (fastrpc_integers (-70000)); [split; [discriminate|reflexivity]..|discriminate]. Defined.

(** [readSkip] takes exactly the octets of a value: behind what the encoder
    wrote for it the decoder stands where [readVariant] leaves it. *)
Theorem skip_agrees (v : Variant) :
  value_ok v -> exists out, writes (write_value v) out tt /\
    forall d st, (length out <= d)%nat -> at_bytes out st ->
      readVariant d st = Ret (v, skip (length out) st) /\ readSkip d st = Ret (tt, skip (length out) st).
Proof.
  intros Hv. destruct (value_carried v Hv) as (out & Hw & _ & Hd). exists out. split; [done|].
  intros d st Hl Hat. destruct (Hd d Hl) as [Hr Hs]. split; [by apply Hr|by apply Hs].
Qed.

Lemma skip_agrees_witness : exists out, writes (write_value (V_Array [V_Int 5; V_Binary [1; 2]])) out tt /\
    forall d st, (length out <= d)%nat -> at_bytes out st ->
      readVariant d st = Ret (V_Array [V_Int 5; V_Binary [1; 2]], skip (length out) st) /\
      readSkip d st = Ret (tt, skip (length out) st).
Proof. apply skip_agrees. simpl. by split_and!. Defined.

(** Reading an integer or a boolean never leaves the content, whatever its
    bytes are: the result is a value with the position still in the content, or
    an exception, or, for an integer announced with no octets at all, the
    shift by its whole width. *)
Theorem integer_reads_safe (st : decoder) :
  in_content st -> read_safe (readInt32 st) /\ read_safe (readInt64 st) /\ read_safe (readBool st).
Proof. intros H. split_and!; [by apply readInt32_safe|by apply readInt64_safe|by apply readBool_safe]. Qed.

Lemma integer_reads_safe_witness :
  let st := mk_decoder [0x3b; 1; 2; 0] 3 0 (Some 1) (Some (2, 0)) in
  read_safe (readInt32 st) /\ read_safe (readInt64 st) /\ read_safe (readBool st).
Proof.
  apply integer_reads_safe. split; [vm_compute; split; discriminate|split; [reflexivity|]].
  exists 1. split; [reflexivity|split; discriminate].
Defined.

(** ** Where the code departs from its intent *)

(** A string of five bytes of which the content holds two: the check compares the
    position with a place behind the end. *)
Example truncated_string :
  readString (mk_decoder [0x20; 5; 104; 105; 0] 4 0 (Some 1) None) = Crash OutOfBounds.
Proof. vm_compute. reflexivity. Qed.
(** One byte short, the terminating zero is taken for the missing one. *)
Example string_with_terminator :
  readString (mk_decoder [0x20; 3; 104; 105; 0] 4 0 (Some 1) None) =
  Ret ([104; 105; 0], mk_decoder [0x20; 3; 104; 105; 0] 4 5 (Some 1) None).
Proof. vm_compute. reflexivity. Qed.
Example integer_without_octets :
  readInt32 (mk_decoder [0x08; 0] 1 0 (Some 1) None) = Crash BadShift.
Proof. vm_compute. reflexivity. Qed.
(** Lengths above 2^32 lose octets unless bit 32 itself is set. *)
Example long_length : gen_length_octets 0x58 (2 ^ 33 + 0x12345678) = (0x5b, [0x78; 0x56; 0x34; 0x12]).
Proof. vm_compute. reflexivity. Qed.
