(* ===== verification/Hash.v ===== *)
(** * core/struct: Hash_c and THash

    The chained hash table of [Hash.cxx] with the comparator and the node
    functions [THash] plugs into it. A bucket is the list of its nodes in chain
    order; the bucket array is absent while [list] is null, and an entry of it
    is absent between [realloc] and its first store. A [Node *] is named by the
    key of the node, which is unique in the table. *)

From stdpp Require Import gmap.
From S2P Require Import Prelude Machine.

(** What [Compar] supplies: [khash] and [keq]. *)
Class HashCompar (K : Type) := {
  khash : K -> Z;
  keq : K -> K -> bool;
}.

Section Hash.
Context {K V : Type} {HC : HashCompar K}.

(** The value a default-constructed [V] has. *)
Variable v_default : V.

Record node := mk_node { hash : Z; node_k : K; node_v : V }.

Definition bucket : Type := list node.

Record t := mk {
  hashmask : Z;
  buckets : option (list (option bucket));
  item_count : Z;
}.

(** [Hash_c::Hash_c]. *)
Definition create : t := mk (-1) None 0.

Definition count (h : t) : Z := item_count h.

(** ** Access to the array *)

Definition get_bucket (bs : list (option bucket)) (i : Z) : res bucket :=
  if i <? 0 then Crash OutOfBounds
  else match bs !! Z.to_nat i with
       | Some (Some b) => Ret b
       | Some None => Crash Uninitialized
       | None => Crash OutOfBounds
       end.

Definition set_bucket (bs : list (option bucket)) (i : Z) (b : bucket) : res (list (option bucket)) :=
  if i <? 0 then Crash OutOfBounds
  else if Z.of_nat (length bs) <=? i then Crash OutOfBounds
  else Ret (<[Z.to_nat i := Some b]> bs).

(** ** find_g *)

Fixpoint find_node (b : bucket) (hash_value : Z) (key : K) : option node :=
  match b with
  | [] => None
  | n :: b => if (hash n =? hash_value) && keq (node_k n) key then Some n else find_node b hash_value key
  end.

Definition find_g (h : t) (hash_value : Z) (key : K) : res (option node) :=
  match buckets h with
  | None => Ret None
  | Some bs => b ← get_bucket bs (Z.land hash_value (hashmask h)); Ret (find_node b hash_value key)
  end.

(** ** Growing *)

(** Moves the nodes that do not belong to bucket [i] under the new mask; the result
    is what stays in the bucket and the array. *)
Fixpoint relink_bucket (mask i : Z) (b : bucket) (bs : list (option bucket)) :
    res (bucket * list (option bucket)) :=
  match b with
  | [] => Ret ([], bs)
  | n :: b =>
    let j := Z.land (hash n) mask in
    if u32 j =? i then '(kept, bs) ← relink_bucket mask i b bs; Ret (n :: kept, bs)
    else
      target ← get_bucket bs j;
      bs ← set_bucket bs j (n :: target);
      relink_bucket mask i b bs
  end.

(** [for (i = 0; i < olim; i++)], [k] buckets from [i] on. *)
Fixpoint relink_loop (k : nat) (mask i : Z) (bs : list (option bucket)) : res (list (option bucket)) :=
  match k with
  | O => Ret bs
  | S k =>
    b ← get_bucket bs i;
    '(kept, bs) ← relink_bucket mask i b bs;
    bs ← set_bucket bs i kept;
    relink_loop k mask (i + 1) bs
  end.

(** [for (i = olim; i <= hashmask; i++) list[i] = NULL]. *)
Definition clear_from (olim : nat) (bs : list (option bucket)) : list (option bucket) :=
  take olim bs ++ repeat (Some []) (length bs - olim).

Definition grow (h : t) : res t :=
  let olim := u32 (hashmask h + 1) in
  let '(bs, mask) :=
    match buckets h with
    | Some bs => (bs ++ repeat None (Z.to_nat ((hashmask h + 1) * 2) - length bs), 2 * hashmask h + 1)
    | None => (repeat None 4, 3)
    end in
  bs ← relink_loop (Z.to_nat olim) mask 0 (clear_from (Z.to_nat olim) bs);
  Ret (mk mask (Some bs) (item_count h)).

(** The block shared by [addNewNode_g] and [create_g]. *)
Definition make_room (h : t) : res t :=
  if hashmask h - Z.quot (hashmask h) 4 <=? s32 (item_count h) then grow h
  else match buckets h with None => Crash AssertFailed | Some _ => Ret h end.

Definition link_node (h : t) (n : node) : res t :=
  match buckets h with
  | None => Crash NullDeref
  | Some bs =>
    let i := Z.land (hash n) (hashmask h) in
    b ← get_bucket bs i;
    bs ← set_bucket bs i (n :: b);
    Ret (mk (hashmask h) (Some bs) (u32 (item_count h + 1)))
  end.

(** [hash] is absent in a node whose hash was not set. *)
Definition addNewNode_g (h : t) (hash : option Z) (k : K) (v : V) : res t :=
  h ← make_room h;
  match hash with
  | None => Crash Uninitialized
  | Some hash => link_node h (mk_node hash k v)
  end.

(** Returns the node and whether it was created. *)
Definition create_g (h : t) (hash_value : Z) (key : K) : res (node * bool * t) :=
  r ← find_g h hash_value key;
  match r with
  | Some n => Ret (n, false, h)
  | None =>
    h ← make_room h;
    let n := mk_node hash_value key v_default in
    h ← link_node h n;
    Ret (n, true, h)
  end.

(** ** Removing *)

Fixpoint remove_node (b : bucket) (hash_value : Z) (key : K) : option bucket :=
  match b with
  | [] => None
  | n :: b =>
    if (hash n =? hash_value) && keq (node_k n) key then Some b
    else match remove_node b hash_value key with Some b => Some (n :: b) | None => None end
  end.

Definition remove_g (h : t) (hash_value : Z) (key : K) : res (bool * t) :=
  match buckets h with
  | None => Ret (false, h)
  | Some bs =>
    let i := Z.land hash_value (hashmask h) in
    b ← get_bucket bs i;
    match remove_node b hash_value key with
    | None => Ret (false, h)
    | Some b => bs ← set_bucket bs i b; Ret (true, mk (hashmask h) (Some bs) (u32 (item_count h - 1)))
    end
  end.

(** The loops over all buckets, [k] of them from [i] on: the number of nodes. *)
Fixpoint count_nodes (k : nat) (i : Z) (bs : list (option bucket)) : res Z :=
  match k with
  | O => Ret 0
  | S k => b ← get_bucket bs i; c ← count_nodes k (i + 1) bs; Ret (Z.of_nat (length b) + c)
  end.

Definition clean_g (h : t) : res t :=
  match buckets h with
  | None => Ret h
  | Some bs =>
    c ← count_nodes (Z.to_nat (hashmask h + 1)) 0 bs;
    Ret (mk (hashmask h) (Some (repeat (Some []) (Z.to_nat (hashmask h + 1)) ++ drop (Z.to_nat (hashmask h + 1)) bs))
      (u32 (item_count h - c)))
  end.

Definition destroy_g (h : t) : res t :=
  match buckets h with
  | None => Ret (mk (hashmask h) None (item_count h))
  | Some bs => _ ← count_nodes (Z.to_nat (hashmask h + 1)) 0 bs; Ret (mk (hashmask h) None (item_count h))
  end.

(** ** Iteration *)

(** The first node of the buckets from [i] on, [k] of them. *)
Fixpoint first_from (k : nat) (i : Z) (bs : option (list (option bucket))) : res (option node) :=
  match k with
  | O => Ret None
  | S k =>
    match bs with
    | None => Crash NullDeref
    | Some l =>
      b ← get_bucket l i;
      match b with n :: _ => Ret (Some n) | [] => first_from k (i + 1) bs end
    end
  end.

Definition iterFirst_g (h : t) : res (option node) :=
  first_from (Z.to_nat (hashmask h + 1)) 0 (buckets h).

(** What follows the node of a key in its chain. *)
Fixpoint after_node (b : bucket) (key : K) : bucket :=
  match b with
  | [] => []
  | n :: b => if keq (node_k n) key then b else after_node b key
  end.

Definition iterNext_g (h : t) (c : node) : res (option node) :=
  let i := Z.land (hash c) (hashmask h) in
  match buckets h with
  | None => Crash NullDeref
  | Some bs =>
    b ← get_bucket bs i;
    match after_node b (node_k c) with
    | n :: _ => Ret (Some n)
    | [] => first_from (Z.to_nat (hashmask h - i)) (i + 1) (Some bs)
    end
  end.

(** ** Whole tables: the new destination and the new source *)

Definition moveFrom_g (h source : t) : res (t * t) :=
  _ ← destroy_g h;
  Ret (mk (hashmask source) (buckets source) (item_count source), mk 0 None 0).

(** A store through the [v] of the node of a key. *)
Definition set_in_bucket (key : K) (v : V) (b : bucket) : bucket :=
  map (fun n => if keq (node_k n) key then mk_node (hash n) (node_k n) v else n) b.

Definition node_set (h : t) (n : node) (v : V) : res t :=
  match buckets h with
  | None => Crash NullDeref
  | Some bs =>
    let i := Z.land (hash n) (hashmask h) in
    b ← get_bucket bs i;
    bs ← set_bucket bs i (set_in_bucket (node_k n) v b);
    Ret (mk (hashmask h) (Some bs) (item_count h))
  end.

(** [node_def] does not set the hash of the node it makes. *)
Fixpoint replace_loop (fuel : nat) (h source : t) (o_node : option node) : res t :=
  match fuel with
  | O => NoFuel
  | S fuel =>
    match o_node with
    | None => Ret h
    | Some o =>
      r ← find_g h (hash o) (node_k o);
      h ← match r with
          | Some n => node_set h n (node_v o)
          | None => addNewNode_g h None (node_k o) (node_v o)
          end;
      o_node ← iterNext_g source o;
      replace_loop fuel h source o_node
    end
  end.

Definition replaceFrom_g (h source : t) : res t :=
  o ← iterFirst_g source; replace_loop (S (S (Z.to_nat (item_count source)))) h source o.

(** ** THash *)

Definition find (h : t) (k : K) : res (option node) := find_g h (khash k) k.

Definition accValue (h : t) (k : K) : res (option V) :=
  r ← find_g h (khash k) k; Ret (match r with Some n => Some (node_v n) | None => None end).

Definition createNode (h : t) (k : K) : res (node * bool * t) := create_g h (khash k) k.

(** [create(k, v)]. *)
Definition create_value (h : t) (k : K) (v : V) : res (bool * t) :=
  '(n, cr, h) ← createNode h k;
  if cr : bool then h ← node_set h n v; Ret (cr, h) else Ret (cr, h).

Definition replace (h : t) (k : K) (v : V) : res (bool * t) :=
  '(n, cr, h) ← createNode h k;
  h ← node_set h n v;
  Ret (cr, h).

Definition remove (h : t) (k : K) : res (bool * t) := remove_g h (khash k) k.
Definition clean (h : t) : res t := clean_g h.

End Hash.

Arguments node : clear implicits.
Arguments t : clear implicits.
