(* ===== verification/HashSpec.v ===== *)
(** * core/struct: the hash table is a finite map

    The invariant of the table, the abstraction to a finite map, and the
    refinement of every operation of [THash] to the operation on maps. *)

From stdpp Require Import gmap.
From S2P Require Import Prelude Machine Hash.

(** What the table relies on: [keq] is the equality of keys. *)
Class HashComparOk (K : Type) {HC : HashCompar K} := keq_eq : forall x y : K, keq x y = true <-> x = y.

(** ** Arrays of buckets *)

Section Arrays.
Context {K V : Type}.
Implicit Types (bs : list (option (@bucket K V))) (b : @bucket K V).

Definition nodes bs : list (node K V) := bs ≫= (fun ob => default [] ob).

Definition inited bs : Prop := Forall is_Some bs.

Lemma nodes_split bs (i : nat) b : bs !! i = Some (Some b) ->
  exists rest, nodes bs ≡ₚ b ++ rest /\ forall b', nodes (<[i := Some b']> bs) ≡ₚ b' ++ rest.
Proof.
  intros H. apply list_elem_of_split_length in H as (l1 & l2 & -> & ->).
  exists (nodes l1 ++ nodes l2). unfold nodes.
  split; [|intros b'; rewrite insert_app_r_alt, Nat.sub_diag by lia; simpl]; rewrite bind_app; simpl;
    by rewrite Permutation_app_swap_app.
Qed.

Lemma get_bucket_ok bs i : inited bs -> 0 <= i < Z.of_nat (length bs) ->
  exists b, get_bucket bs i = Ret b /\ bs !! Z.to_nat i = Some (Some b).
Proof.
  intros Hb Hi. unfold get_bucket. destruct (Z.ltb_spec i 0); [lia|].
  destruct (lookup_lt_is_Some_2 bs (Z.to_nat i) ltac:(lia)) as [ob Hob]. rewrite Hob.
  unfold inited in Hb. rewrite list.Forall_lookup in Hb. destruct (Hb _ _ Hob) as [b ->]. by exists b.
Qed.

Lemma set_bucket_ok bs i b : 0 <= i < Z.of_nat (length bs) ->
  set_bucket bs i b = Ret (<[Z.to_nat i := Some b]> bs).
Proof.
  intros Hi. unfold set_bucket. destruct (Z.ltb_spec i 0); [lia|].
  by destruct (Z.leb_spec (Z.of_nat (length bs)) i); [lia|].
Qed.

Lemma inited_insert bs i b : inited bs -> inited (<[i := Some b]> bs).
Proof. intros H. apply Forall_insert; [done|by eexists]. Qed.

(** Every node of bucket [j] satisfies [Q j]. *)
Definition placed (Q : nat -> node K V -> Prop) bs : Prop :=
  forall j b, bs !! j = Some (Some b) -> Forall (Q j) b.

Lemma placed_insert Q bs i b : placed Q bs -> Forall (Q i) b -> placed Q (<[i := Some b]> bs).
Proof.
  intros H Hb j b' Hj. apply list_lookup_insert_Some in Hj as [(<- & [= ->] & _)|[_ Hj]]; [done|by apply H].
Qed.

Lemma placed_impl (Q Q' : nat -> node K V -> Prop) bs :
  placed Q bs -> (forall j n, (j < length bs)%nat -> Q j n -> Q' j n) -> placed Q' bs.
Proof.
  intros H Hi j b Hj. eapply list.Forall_impl; [by apply H|]. intros n. apply Hi. by eapply lookup_lt_Some.
Qed.

Lemma placed_nodes (Q : nat -> node K V -> Prop) bs n :
  placed Q bs -> n ∈ nodes bs -> exists j b, bs !! j = Some (Some b) /\ n ∈ b /\ Q j n.
Proof.
  intros H Hn. unfold nodes in Hn. apply list_elem_of_bind in Hn as (ob & Hn & Hob).
  destruct ob as [b|]; [|by apply not_elem_of_nil in Hn]. apply list_elem_of_lookup in Hob as [j Hj].
  exists j, b. split_and!; [done..|]. eapply list.Forall_forall; [by apply H|done].
Qed.

(** ** Moving nodes to their new buckets *)

Definition index (mask : Z) (n : node K V) : nat := Z.to_nat (Z.land (hash n) mask).

Lemma relink_bucket_ok mask (i : nat) b : forall bs,
  inited bs -> 0 <= mask -> Z.of_nat (length bs) <= 2 ^ 32 ->
  Forall (fun n => 0 <= Z.land (hash n) mask < Z.of_nat (length bs)) b ->
  exists kept bs', relink_bucket mask (Z.of_nat i) b bs = Ret (kept, bs') /\
    length bs' = length bs /\ inited bs' /\ bs' !! i = bs !! i /\
    kept ++ nodes bs' ≡ₚ b ++ nodes bs /\ Forall (fun n => index mask n = i) kept /\ kept ⊆ b /\
    forall Q, placed Q bs -> Forall (fun n => index mask n <> i -> Q (index mask n) n) b -> placed Q bs'.
Proof.
  induction b as [|n b IH]; intros bs Hin Hm Hlen Hb.
  { exists [], bs. split_and!; try done. }
  apply Forall_cons_1 in Hb as [Hn Hb]. cbn [relink_bucket].
  rewrite uwrap_id by (unfold in_u; lia). destruct (Z.eqb_spec (Z.land (hash n) mask) (Z.of_nat i)) as [E|E].
  - destruct (IH bs Hin Hm Hlen Hb) as (kept & bs' & -> & Hl & Hin' & Hi & Hp & Hk & Hsub & HQ).
    exists (n :: kept), bs'. cbn [mbind res_bind]. split_and!; try done.
    + simpl. by rewrite Hp.
    + constructor; [unfold index; lia|done].
    + set_solver +Hsub.
    + intros Q HQ0 Hall. apply HQ; [done|]. by inv Hall.
  - destruct (get_bucket_ok bs (Z.land (hash n) mask) Hin Hn) as (target & -> & Ht). cbn [mbind res_bind].
    rewrite set_bucket_ok by done. cbn [mbind res_bind]. fold (index mask n) in *.
    destruct (IH (<[index mask n := Some (n :: target)]> bs)) as (kept & bs' & Er & Hl & Hin' & Hi & Hp & Hk & Hsub & HQ);
      [by apply inited_insert|done|by rewrite length_insert|by rewrite length_insert|].
    rewrite length_insert in Hl. exists kept, bs'. split; [exact Er|]. split_and!; try done.
    + rewrite Hi. apply list_lookup_insert_ne. unfold index. lia.
    + rewrite Hp. destruct (nodes_split bs (index mask n) target Ht) as (rest & Hr & Hr').
      rewrite Hr, Hr'. simpl. symmetry. apply Permutation_middle.
    + set_solver +Hsub.
    + intros Q HQ0 Hall. inv Hall. apply HQ; [|done]. apply placed_insert; [done|].
      constructor; [|by apply HQ0]. match goal with H : _ -> Q _ n |- _ => apply H end. unfold index. lia.
Qed.

Lemma land_mask h k : 0 <= k -> Z.land h (2 ^ k - 1) = h mod 2 ^ k.
Proof. intros Hk. rewrite <- (Z.land_ones h k) by done. f_equal. rewrite Z.ones_equiv. lia. Qed.

(** The masks of two sizes. *)
Variables (m : Z).
Hypothesis m_range : 0 <= m < 32.
Let old_mask := 2 ^ m - 1.
Let new_mask := 2 ^ (m + 1) - 1.

Lemma land_new h : Z.land h new_mask = Z.land h old_mask \/ Z.land h new_mask = Z.land h old_mask + 2 ^ m.
Proof.
  unfold new_mask, old_mask. rewrite !land_mask by lia. rewrite Z.pow_add_r by lia. change (2 ^ 1) with 2.
  pose proof (Z.pow_pos_nonneg 2 m). rewrite Z.rem_mul_r by lia.
  pose proof (Z.mod_pos_bound (h / 2 ^ m) 2 ltac:(lia)).
  assert ((h / 2 ^ m) mod 2 = 0 \/ (h / 2 ^ m) mod 2 = 1) as [-> | ->] by lia; lia.
Qed.

Lemma land_old_range h : 0 <= Z.land h old_mask < 2 ^ m.
Proof. unfold old_mask. rewrite land_mask by lia. apply Z.mod_pos_bound. pose proof (Z.pow_pos_nonneg 2 m). lia. Qed.

(** While the loop is at bucket [i]: the buckets before [i] and the new ones are
    final, the others still hold what the old mask put there. *)
Definition midway (i : nat) (j : nat) (n : node K V) : Prop :=
  if decide (i <= j < Z.to_nat (2 ^ m))%nat then index old_mask n = j else index new_mask n = j.

Lemma relink_loop_ok k : forall (i : nat) bs,
  (i + k)%nat = Z.to_nat (2 ^ m) -> length bs = Z.to_nat (2 ^ (m + 1)) -> inited bs -> placed (midway i) bs ->
  exists bs', relink_loop k new_mask (Z.of_nat i) bs = Ret bs' /\ length bs' = length bs /\ inited bs' /\
    nodes bs' ≡ₚ nodes bs /\ placed (fun j n => index new_mask n = j) bs'.
Proof.
  pose proof (Z.pow_pos_nonneg 2 m ltac:(lia) ltac:(lia)) as Hpos.
  assert (2 ^ (m + 1) = 2 * 2 ^ m) as Hpow by (rewrite Z.pow_add_r by lia; change (2 ^ 1) with 2; lia).
  assert (2 ^ (m + 1) <= 2 ^ 32) as H32 by (apply Z.pow_le_mono_r; lia).
  induction k as [|k IH]; intros i bs Hik Hlen Hin Hpl.
  { exists bs. split_and!; try done. eapply placed_impl; [exact Hpl|]. intros j n Hj. unfold midway.
    destruct (decide _); [lia|done]. }
  cbn [relink_loop]. destruct (get_bucket_ok bs (Z.of_nat i) Hin ltac:(lia)) as (b & -> & Hb).
  rewrite Nat2Z.id in Hb. cbn [mbind res_bind].
  assert (Forall (fun n => index old_mask n = i) b) as Hold.
  { eapply list.Forall_impl; [by apply Hpl|]. intros n. unfold midway. destruct (decide _); [done|lia]. }
  destruct (relink_bucket_ok new_mask i b bs Hin) as (kept & bs' & -> & Hl & Hin' & Hi & Hp & Hk & Hsub & HQ).
  { unfold new_mask. lia. } { lia. }
  { eapply list.Forall_impl; [exact Hold|]. intros n _. pose proof (land_old_range (hash n)).
    destruct (land_new (hash n)) as [-> | ->]; lia. }
  cbn [mbind res_bind]. rewrite set_bucket_ok by lia. rewrite Nat2Z.id. cbn [mbind res_bind].
  replace (Z.of_nat i + 1) with (Z.of_nat (S i)) by lia. rewrite Hb in Hi.
  destruct (IH (S i) (<[i := Some kept]> bs')) as (bs'' & -> & Hl'' & Hin'' & Hp'' & Hpl'').
  - lia.
  - by rewrite length_insert, Hl.
  - by apply inited_insert.
  - assert (placed (fun j n => j = i \/ midway (S i) j n) bs') as H.
    { apply HQ.
      - eapply placed_impl; [exact Hpl|]. intros j n Hj. unfold midway.
        destruct (decide (j = i)); [by left|right]. destruct (decide _), (decide _); (done || lia).
      - eapply list.Forall_impl; [exact Hold|]. intros n Hn Hne. right. unfold midway.
        destruct (decide _) as [Hd|]; [|done]. exfalso. unfold index in *. pose proof (land_old_range (hash n)).
        destruct (land_new (hash n)) as [E|E]; rewrite E in *; lia. }
    intros j b' Hj. apply list_lookup_insert_Some in Hj as [(<- & [= ->] & _)|[Hne Hj]].
    + eapply list.Forall_impl; [exact Hk|]. intros n Hn. unfold midway. destruct (decide _); [lia|done].
    + eapply list.Forall_impl; [by apply H|]. intros n [->|Hn]; [done|done].
  - exists bs''. rewrite length_insert in Hl''. split_and!; [done|lia|done| |done].
    rewrite Hp''. destruct (nodes_split bs' i b Hi) as (rest & Hr & Hr').
    rewrite Hr'. destruct (nodes_split bs i b Hb) as (rest0 & Hr0 & _). rewrite Hr0.
    rewrite Hr, Hr0 in Hp. apply (Permutation_app_inv_l b). rewrite <- Hp.
    by rewrite Permutation_app_swap_app.
Qed.
End Arrays.

(** ** The invariant and the map of a table *)

Section Refinement.
Context {K V : Type} `{Countable K} {HC : HashCompar K} {HO : HashComparOk K}.
Variable v_default : V.
Implicit Types (h : t K V) (n : node K V).

Definition all_nodes h : list (node K V) := match buckets h with None => [] | Some bs => nodes bs end.

(** A node lies in the bucket of its hash, which is the hash of its key. *)
Definition in_place (mask : Z) (j : nat) n : Prop := index mask n = j /\ hash n = khash (node_k n).

(** The mask is all ones, the array as long as the mask says and initialised, no
    key occurs twice, the count is the number of nodes, and at most three quarters
    of the buckets (and one more) can be taken. *)
Definition wf h : Prop :=
  match buckets h with
  | None => hashmask h = -1 /\ item_count h = 0
  | Some bs =>
    (exists m, 2 <= m <= 32 /\ hashmask h = 2 ^ m - 1 /\ Z.of_nat (length bs) = 2 ^ m) /\
    inited bs /\ placed (in_place (hashmask h)) bs /\ NoDup (node_k <$> nodes bs) /\
    item_count h = Z.of_nat (length (nodes bs)) /\ item_count h < 2 ^ 31 /\
    item_count h <= hashmask h - Z.quot (hashmask h) 4
  end.

Definition pairs (l : list (node K V)) : list (K * V) := (fun n => (node_k n, node_v n)) <$> l.

(** The map a table stands for. *)
Definition to_map h : gmap K V := list_to_map (pairs (all_nodes h)).

Lemma pairs_fst l : (pairs l).*1 = node_k <$> l.
Proof. unfold pairs. rewrite <- list_fmap_compose. done. Qed.

Lemma wf_NoDup h : wf h -> NoDup (node_k <$> all_nodes h).
Proof. unfold wf, all_nodes. destruct (buckets h); [tauto|constructor]. Qed.

Lemma to_map_lookup h n : wf h -> n ∈ all_nodes h -> to_map h !! node_k n = Some (node_v n).
Proof.
  intros Hwf Hn. apply elem_of_list_to_map_1; [by rewrite pairs_fst; apply wf_NoDup|].
  unfold pairs. apply list_elem_of_fmap. by exists n.
Qed.

Lemma to_map_lookup_None h k : (forall n, n ∈ all_nodes h -> node_k n <> k) -> to_map h !! k = None.
Proof.
  intros Hn. apply not_elem_of_list_to_map_1. rewrite pairs_fst. intros Hin.
  apply list_elem_of_fmap in Hin as (n & -> & Hin). by apply (Hn n).
Qed.

Lemma keq_true (x y : K) : keq x y = true <-> x = y.
Proof. apply keq_eq. Qed.

Lemma find_node_Some b hv k n : find_node b hv k = Some n -> n ∈ b /\ hash n = hv /\ node_k n = k.
Proof.
  induction b as [|x b IH]; [done|]. simpl. destruct (_ && _) eqn:E.
  - intros [= <-]. apply andb_prop in E as [E1%Z.eqb_eq E2%keq_true]. split_and!; [by left|done|done].
  - intros Hf. destruct (IH Hf) as (Hin & ?). split; [by right|done].
Qed.

Lemma find_node_None b hv k : find_node b hv k = None -> forall n, n ∈ b -> hash n = hv -> node_k n <> k.
Proof.
  induction b as [|x b IH]; simpl; intros Hf n Hn Hh Hk; [by apply not_elem_of_nil in Hn|].
  destruct (_ && _) eqn:E; [done|]. apply elem_of_cons in Hn as [->|Hn]; [|by apply (IH Hf n)].
  apply andb_false_iff in E as [E|E]; [by apply Z.eqb_neq in E|]. apply keq_true in Hk. congruence.
Qed.

(** The bucket a hash selects. *)
Lemma wf_bucket h bs hv : wf h -> buckets h = Some bs ->
  exists b, get_bucket bs (Z.land hv (hashmask h)) = Ret b /\
    bs !! Z.to_nat (Z.land hv (hashmask h)) = Some (Some b) /\
    0 <= Z.land hv (hashmask h) < Z.of_nat (length bs).
Proof.
  unfold wf. intros Hwf E. rewrite E in Hwf. destruct Hwf as ((m & Hm & Hmask & Hlen) & Hin & _).
  assert (0 <= Z.land hv (hashmask h) < Z.of_nat (length bs)) as Hr.
  { rewrite Hmask, Hlen, land_mask by lia. apply Z.mod_pos_bound. pose proof (Z.pow_pos_nonneg 2 m). lia. }
  destruct (get_bucket_ok bs _ Hin Hr) as (b & Hb & Hb'). by exists b.
Qed.

(** A node with the key looked for can only be in that bucket. *)
Lemma wf_elsewhere h bs n b : wf h -> buckets h = Some bs -> n ∈ nodes bs ->
  bs !! Z.to_nat (Z.land (khash (node_k n)) (hashmask h)) = Some (Some b) -> n ∈ b.
Proof.
  unfold wf. intros Hwf E Hn Hb. rewrite E in Hwf. destruct Hwf as (_ & Hin & Hpl & _).
  destruct (placed_nodes _ _ _ Hpl Hn) as (j & b' & Hj & Hnb & Hi & Hh).
  unfold index in Hi. rewrite Hh in Hi. rewrite Hi in Hb. congruence.
Qed.

Lemma bucket_nodes (bs : list (option (@bucket K V))) i b n : bs !! i = Some (Some b) -> n ∈ b -> n ∈ nodes bs.
Proof.
  intros Hi Hn. unfold nodes. apply list_elem_of_bind. exists (Some b). split; [done|]. by eapply list_elem_of_lookup_2.
Qed.

Lemma find_g_spec h k : wf h -> exists r, find_g h (khash k) k = Ret r /\
  match r with
  | Some n => n ∈ all_nodes h /\ node_k n = k /\ hash n = khash k
  | None => forall n, n ∈ all_nodes h -> node_k n <> k
  end.
Proof.
  intros Hwf. unfold find_g, all_nodes. destruct (buckets h) as [bs|] eqn:E.
  - destruct (wf_bucket h bs (khash k) Hwf E) as (b & -> & Hb & _). cbn [mbind res_bind].
    eexists. split; [done|]. destruct (find_node b (khash k) k) as [n|] eqn:Ef.
    + destruct (find_node_Some _ _ _ _ Ef) as (Hn & Hh & Hk). split; [by eapply bucket_nodes|done].
    + intros n Hn Hk. subst k. apply (find_node_None _ _ _ Ef n); [|by (unfold wf in Hwf; rewrite E in Hwf;
        destruct Hwf as (_ & _ & Hpl & _); destruct (placed_nodes _ _ _ Hpl Hn) as (? & ? & _ & _ & _ & ?))|done].
      by eapply wf_elsewhere.
  - eexists. split; [done|]. intros n Hn. by apply not_elem_of_nil in Hn.
Qed.

Lemma find_lookup h k : wf h -> exists r, find_g h (khash k) k = Ret r /\ node_v <$> r = to_map h !! k.
Proof.
  intros Hwf. destruct (find_g_spec h k Hwf) as (r & Hr & Hs). exists r. split; [done|].
  destruct r as [n|]; simpl.
  - destruct Hs as (Hn & <- & _). symmetry. by apply to_map_lookup.
  - symmetry. by apply to_map_lookup_None.
Qed.

(** ** Growing *)

Lemma nodes_app (l1 l2 : list (option (@bucket K V))) : nodes (l1 ++ l2) = nodes l1 ++ nodes l2.
Proof. apply bind_app. Qed.

Lemma nodes_empty k : nodes (repeat (Some []) k : list (option (@bucket K V))) = [].
Proof. induction k; simpl; auto. Qed.

Lemma inited_empty k : inited (repeat (Some []) k : list (option (@bucket K V))).
Proof. unfold inited. apply Forall_repeat. by eexists. Qed.

Lemma lookup_repeat_Some {A} (x y : A) k i : repeat x k !! i = Some y -> y = x.
Proof. revert i. induction k as [|k IH]; intros [|i] Hi; simpl in Hi; try done; [by inv Hi|by eapply IH]. Qed.

(** A permutation of the nodes, each where its hash belongs, with one more count
    keeps the invariant. *)
Lemma wf_intro mask bs c m : 2 <= m <= 32 -> mask = 2 ^ m - 1 -> Z.of_nat (length bs) = 2 ^ m -> inited bs ->
  placed (fun j x => index mask x = j) bs -> Forall (fun x => hash x = khash (node_k x)) (nodes bs) ->
  NoDup (node_k <$> nodes bs) -> c = Z.of_nat (length (nodes bs)) -> c < 2 ^ 31 -> c <= mask - Z.quot mask 4 -> wf (mk mask (Some bs) c).
Proof.
  intros Hm Hmask Hlen Hin Hpl Hh Hnd Hc H31 Hload. unfold wf. cbn [buckets hashmask item_count].
  split_and!; try done; [by exists m|].
  intros j b Hj. rewrite list.Forall_forall. intros x Hx. split.
  - exact (proj1 (list.Forall_forall _ _) (Hpl j b Hj) x Hx).
  - apply (proj1 (list.Forall_forall _ _) Hh). by eapply bucket_nodes.
Qed.

Lemma wf_hashes h : wf h -> Forall (fun x => hash x = khash (node_k x)) (all_nodes h).
Proof.
  unfold wf, all_nodes. destruct (buckets h) as [bs|]; [|by constructor].
  intros (_ & _ & Hpl & _). rewrite list.Forall_forall. intros n Hn.
  by destruct (placed_nodes _ _ _ Hpl Hn) as (? & ? & _ & _ & _ & ?).
Qed.

(** What an operation that only rearranges nodes preserves. *)
Definition same_nodes h h' : Prop := all_nodes h' ≡ₚ all_nodes h /\ item_count h' = item_count h.

Lemma grow_ok h : wf h -> (buckets h = None \/ hashmask h < 2 ^ 31) ->
  exists h', grow h = Ret h' /\ wf h' /\ buckets h' <> None /\ same_nodes h h' /\
    hashmask h' = (if decide (buckets h = None) then 3 else 2 * hashmask h + 1).
Proof.
  intros Hwf Hcap. unfold grow. pose proof (wf_hashes h Hwf) as Hhash. unfold wf in Hwf. unfold same_nodes.
  destruct (buckets h) as [bs|] eqn:E.
  - destruct Hwf as ((m & Hm & Hmask & Hlen) & Hin & Hpl & Hnd & Hcnt & H31 & Hload).
    destruct Hcap as [?|Hcap]; [done|]. rewrite Hmask in *.
    assert (m <= 31) as Hm31 by (destruct (decide (m = 32)) as [->|]; lia).
    assert (2 ^ m <= 2 ^ 31) by (apply Z.pow_le_mono_r; lia). pose proof (Z.pow_pos_nonneg 2 m).
    assert (2 ^ (m + 1) = 2 * 2 ^ m) as Hpow by (rewrite Z.pow_add_r by lia; change (2 ^ 1) with 2; lia).
    rewrite (uwrap_id 32) by (unfold in_u; lia). replace (2 ^ m - 1 + 1) with (2 ^ m) by lia.
    replace (2 * (2 ^ m - 1) + 1) with (2 ^ (m + 1) - 1) by lia.
    set (bs0 := clear_from _ _).
    assert (bs0 = bs ++ repeat (Some []) (Z.to_nat (2 ^ m))) as ->.
    { unfold bs0, clear_from. rewrite take_app_le, firstn_all2 by lia. f_equal. f_equal.
      rewrite length_app, repeat_length. lia. }
    destruct (relink_loop_ok m ltac:(lia) (Z.to_nat (2 ^ m)) 0 (bs ++ repeat (Some []) (Z.to_nat (2 ^ m))))
      as (bs' & Hr & Hl & Hin' & Hp & Hpl').
    + lia.
    + rewrite length_app, repeat_length. lia.
    + apply Forall_app. split; [done|apply inited_empty].
    + intros j b Hj. apply lookup_app_Some in Hj as [Hj|[_ Hj]].
      * eapply list.Forall_impl; [by apply Hpl|]. intros n [Hn _]. unfold midway.
        apply lookup_lt_Some in Hj. destruct (decide _); [done|lia].
      * apply lookup_repeat_Some in Hj. injection Hj as ->. constructor.
    + change (Z.of_nat 0) with 0 in Hr. rewrite Hr. cbn [mbind res_bind].
      rewrite nodes_app, nodes_empty, app_nil_r in Hp.
      eexists. split; [done|]. unfold all_nodes in *. rewrite E in *. cbn [buckets item_count hashmask].
      split_and!; [|done|done|done|case_decide; [done|lia]].
      apply (wf_intro _ _ _ (m + 1)); [lia|done| |done|done| | | |done|].
      * rewrite Hl, length_app, repeat_length. lia.
      * by rewrite Hp.
      * by rewrite Hp.
      * by rewrite Hp.
      * rewrite Hpow. rewrite !Z.quot_div_nonneg in * by lia. divlia.
  - destruct Hwf as [-> Hc]. change (u32 (-1 + 1)) with 0. simpl. eexists. split; [done|].
    unfold all_nodes. rewrite E. cbn [buckets item_count hashmask]. split_and!; [|done..].
    apply (wf_intro _ _ _ 2); try done; [by repeat constructor; eexists| | |by rewrite Hc..].
    + intros j b Hj. do 4 (destruct j as [|j]; [injection Hj as <-; constructor|]). done.
    + constructor.
Qed.

Lemma make_room_ok h : wf h -> item_count h < 2 ^ 31 ->
  exists h', make_room h = Ret h' /\ wf h' /\ buckets h' <> None /\ same_nodes h h' /\
    item_count h' < hashmask h' - Z.quot (hashmask h') 4.
Proof.
  intros Hwf Hc. unfold make_room.
  assert (0 <= item_count h) as Hc0.
  { unfold wf in Hwf. destruct (buckets h); [|lia]. destruct Hwf as (_ & _ & _ & _ & -> & _ & _). lia. }
  rewrite swrap_id by (done || unfold in_s; lia).
  destruct (Z.leb_spec (hashmask h - Z.quot (hashmask h) 4) (item_count h)) as [Hfull|Hroom].
  - destruct (grow_ok h Hwf) as (h' & Hg & Hwf' & Hb & Hs & Hmask).
    { destruct (buckets h) eqn:E; [right|by left]. unfold wf in Hwf. rewrite E in Hwf.
      destruct Hwf as ((m & Hm & Hmask & _) & _). rewrite Hmask in *.
      destruct (Z.lt_ge_cases m 32) as [Hlt|Hge].
      - assert (2 ^ m <= 2 ^ 31) by (apply Z.pow_le_mono_r; lia). lia.
      - assert (m = 32) as -> by lia. change (Z.quot (2 ^ 32 - 1) 4) with 1073741823 in Hfull. lia. }
    exists h'. split_and!; try done. destruct Hs as [_ Hcnt]. rewrite Hcnt, Hmask.
    destruct (decide (buckets h = None)) as [En|En].
    { unfold wf in Hwf. rewrite En in Hwf. destruct Hwf as [_ ->]. done. }
    unfold wf in Hwf. destruct (buckets h); [|done].
    destruct Hwf as ((m & Hm & Hmask' & _) & _ & _ & _ & _ & _ & Hload).
    assert (2 ^ 2 <= 2 ^ m) by (apply Z.pow_le_mono_r; lia). change (2 ^ 2) with 4 in *.
    rewrite !Z.quot_div_nonneg in * by lia. divlia.
  - destruct (buckets h) eqn:E.
    + exists h. split_and!; try done; by rewrite E.
    + unfold wf in Hwf. rewrite E in Hwf. destruct Hwf as [Hm Hi]. rewrite Hm, Hi in *. done.
Qed.

(** ** Changing one bucket *)

Lemma wf_update h bs i b b' c : wf h -> buckets h = Some bs -> bs !! i = Some (Some b) ->
  Forall (in_place (hashmask h) i) b' ->
  (forall rest, nodes bs ≡ₚ b ++ rest -> NoDup (node_k <$> (b' ++ rest)) /\ c = Z.of_nat (length (b' ++ rest))) ->
  c < 2 ^ 31 -> c <= hashmask h - Z.quot (hashmask h) 4 ->
  wf (mk (hashmask h) (Some (<[i := Some b']> bs)) c).
Proof.
  intros Hwf E Hi Hb' Hrest Hc Hload. pose proof Hwf as Hwf0. unfold wf in Hwf. rewrite E in Hwf.
  destruct Hwf as ((m & Hm & Hmask & Hlen) & Hin & Hpl & Hnd & Hcnt & H31 & _).
  destruct (nodes_split bs i b Hi) as (rest & Hr & Hr'). destruct (Hrest rest Hr) as [Hnd' Hc'].
  unfold wf. cbn [buckets hashmask item_count]. split_and!; try done.
  - exists m. by rewrite length_insert.
  - by apply inited_insert.
  - by apply placed_insert.
  - by rewrite Hr'.
  - by rewrite Hr'.
Qed.

Lemma all_nodes_update (mask : Z) (bs : list (option (@bucket K V))) i b b' c : bs !! i = Some (Some b) ->
  exists rest, nodes bs ≡ₚ b ++ rest /\ all_nodes (mk mask (Some (<[i := Some b']> bs)) c) ≡ₚ b' ++ rest.
Proof. intros Hi. destruct (nodes_split bs i b Hi) as (rest & Hr & Hr'). exists rest. split; [done|apply Hr']. Qed.

Lemma wf_count h : wf h -> item_count h = Z.of_nat (length (all_nodes h)) /\ item_count h < 2 ^ 31.
Proof.
  unfold wf, all_nodes. destruct (buckets h); [tauto|]. by intros [_ ->].
Qed.

Lemma wf_bucket_place h bs i b : wf h -> buckets h = Some bs -> bs !! i = Some (Some b) -> Forall (in_place (hashmask h) i) b.
Proof. unfold wf. intros Hwf E Hi. rewrite E in Hwf. destruct Hwf as (_ & _ & Hpl & _). by apply Hpl. Qed.

Lemma link_ok h n : wf h -> buckets h <> None -> hash n = khash (node_k n) ->
  (forall x, x ∈ all_nodes h -> node_k x <> node_k n) -> item_count h < 2 ^ 31 - 1 ->
  item_count h < hashmask h - Z.quot (hashmask h) 4 ->
  exists h', link_node h n = Ret h' /\ wf h' /\ all_nodes h' ≡ₚ n :: all_nodes h /\ item_count h' = item_count h + 1.
Proof.
  intros Hwf Hbs Hh Hfresh Hc Hload. unfold link_node. destruct (buckets h) as [bs|] eqn:E; [|done].
  destruct (wf_bucket h bs (hash n) Hwf E) as (b & -> & Hb & Hr). cbn [mbind res_bind].
  rewrite set_bucket_ok by done. cbn [mbind res_bind]. eexists. split; [done|].
  destruct (wf_count h Hwf) as [Hcnt H31]. assert (all_nodes h = nodes bs) as Ea by (unfold all_nodes; by rewrite E).
  rewrite (uwrap_id 32) by (unfold in_u; lia). cbn [item_count]. split_and!; [|..|done].
  - apply (wf_update h bs _ b); try done; [| |lia|lia].
    + constructor; [split; [done|done]|by eapply wf_bucket_place].
    + intros rest Hrest. rewrite Ea in *. rewrite Hcnt, Hrest. split; [|simpl; lia].
      simpl. apply list.NoDup_cons. split.
      * intros Hin. apply list_elem_of_fmap in Hin as (x & Hx & Hin). apply (Hfresh x); [by rewrite Hrest|done].
      * rewrite <- Hrest. pose proof (wf_NoDup h Hwf) as Hnd. by rewrite Ea in Hnd.
  - destruct (all_nodes_update (hashmask h) bs _ b (n :: b) (item_count h + 1) Hb) as (rest & Hrest & ->).
    rewrite Ea, Hrest. done.
Qed.

(** ** The map of rearranged nodes *)

Lemma to_map_nodes h l : wf h -> all_nodes h ≡ₚ l -> to_map h = list_to_map (pairs l).
Proof.
  intros Hwf Hp. unfold to_map. apply list_to_map_proper; [by rewrite pairs_fst; apply wf_NoDup|].
  unfold pairs. by rewrite Hp.
Qed.

Lemma same_nodes_map h h' : wf h -> wf h' -> same_nodes h h' -> to_map h' = to_map h.
Proof. intros Hwf Hwf' [Hp _]. by apply to_map_nodes. Qed.

Lemma find_dom h k : wf h ->
  (forall x, x ∈ all_nodes h -> node_k x <> k) <-> to_map h !! k = None.
Proof.
  intros Hwf. split; [apply to_map_lookup_None|]. intros Hn x Hx <-. rewrite to_map_lookup in Hn; done.
Qed.

(** ** createNode *)

Lemma createNode_ok h k : wf h -> item_count h < 2 ^ 31 - 1 ->
  exists n h', createNode v_default h k = Ret (n, bool_decide (to_map h !! k = None), h') /\ wf h' /\
    n ∈ all_nodes h' /\ node_k n = k /\ hash n = khash k /\
    to_map h' = (match to_map h !! k with Some _ => to_map h | None => <[k := v_default]> (to_map h) end) /\
    item_count h' = item_count h + (match to_map h !! k with Some _ => 0 | None => 1 end).
Proof.
  intros Hwf Hc. unfold createNode, create_g. destruct (find_g_spec h k Hwf) as (r & -> & Hr). cbn [mbind res_bind].
  destruct r as [n|].
  - destruct Hr as (Hn & Hk & Hh). pose proof (to_map_lookup h n Hwf Hn) as Hl. rewrite Hk in Hl. rewrite Hl.
    exists n, h. split_and!; try done. lia.
  - assert (to_map h !! k = None) as Hl by (by apply to_map_lookup_None). rewrite Hl.
    destruct (make_room_ok h Hwf) as (h1 & -> & Hwf1 & Hb1 & [Hp1 Hc1] & Hload); [lia|]. cbn [mbind res_bind].
    destruct (link_ok h1 (mk_node (khash k) k v_default)) as (h2 & -> & Hwf2 & Hp2 & Hc2); try done.
    { intros x Hx. apply Hr. by rewrite <- Hp1. } { lia. }
    cbn [mbind res_bind]. exists (mk_node (khash k) k v_default), h2.
    rewrite bool_decide_eq_true_2 by done. split_and!; try done.
    + rewrite Hp2. by left.
    + rewrite (to_map_nodes h2 (mk_node (khash k) k v_default :: all_nodes h)); [done|done|by rewrite Hp2, Hp1].
    + lia.
Qed.

(** ** Stores through a node *)

Lemma set_in_bucket_keys k v (b : @bucket K V) : node_k <$> set_in_bucket k v b = node_k <$> b.
Proof. unfold set_in_bucket. induction b as [|n b IH]; simpl; [done|].
  f_equal; [by destruct (keq _ _)|exact IH].
Qed.

Lemma set_in_bucket_place mask i k v b : Forall (in_place mask i) b -> Forall (in_place mask i) (set_in_bucket k v b).
Proof.
  unfold set_in_bucket. induction 1 as [|n b [Hi Hh] _ IH]; simpl; [constructor|]. constructor; [|done].
  unfold in_place, index in *. by destruct (keq _ _).
Qed.

Lemma set_in_bucket_absent k v (b : @bucket K V) : (forall n, n ∈ b -> node_k n <> k) -> set_in_bucket k v b = b.
Proof.
  unfold set_in_bucket. induction b as [|n b IH]; intros Hn; simpl; [done|]. rewrite IH by (intros; apply Hn; by right).
  destruct (keq (node_k n) k) eqn:E; [|done]. apply keq_true in E. exfalso. apply (Hn n); [by left|done].
Qed.

Lemma pairs_cons n (l : list (node K V)) : pairs (n :: l) = (node_k n, node_v n) :: pairs l.
Proof. done. Qed.

Lemma set_pairs k v (l : list (node K V)) : NoDup (node_k <$> l) -> (exists n, n ∈ l /\ node_k n = k) ->
  list_to_map (pairs (set_in_bucket k v l)) = <[k := v]> (list_to_map (pairs l) : gmap K V).
Proof.
  induction l as [|x l IH]; intros Hnd (n & Hn & Hk); [by apply not_elem_of_nil in Hn|].
  simpl in Hnd. apply list.NoDup_cons in Hnd as [Hx Hnd].
  change (set_in_bucket k v (x :: l)) with
    ((if keq (node_k x) k then mk_node (hash x) (node_k x) v else x) :: set_in_bucket k v l).
  destruct (keq (node_k x) k) eqn:E.
  - apply keq_true in E. rewrite (set_in_bucket_absent k v l).
    + rewrite !pairs_cons, !list_to_map_cons. simpl. rewrite E. by rewrite insert_insert_eq.
    + intros y Hy Hky. apply Hx. rewrite E, <- Hky. by apply list_elem_of_fmap_2.
  - apply elem_of_cons in Hn as [->|Hn]; [by rewrite (proj2 (keq_true _ _) Hk) in E|].
    rewrite !pairs_cons, !list_to_map_cons, IH by (done || by exists n). apply insert_insert_ne. intros <-.
    by rewrite (proj2 (keq_true _ _) eq_refl) in E.
Qed.

Lemma set_in_bucket_app k v (l1 l2 : list (node K V)) :
  set_in_bucket k v (l1 ++ l2) = set_in_bucket k v l1 ++ set_in_bucket k v l2.
Proof. apply map_app. Qed.

Lemma node_set_ok h n v : wf h -> n ∈ all_nodes h ->
  exists h', node_set h n v = Ret h' /\ wf h' /\ to_map h' = <[node_k n := v]> (to_map h) /\
    item_count h' = item_count h.
Proof.
  intros Hwf Hn. unfold node_set. destruct (buckets h) as [bs|] eqn:E;
    [|unfold all_nodes in Hn; rewrite E in Hn; by apply not_elem_of_nil in Hn].
  assert (all_nodes h = nodes bs) as Ea by (unfold all_nodes; by rewrite E). rewrite Ea in Hn.
  assert (hash n = khash (node_k n)) as Hh.
  { pose proof (wf_hashes h Hwf) as Hf. rewrite Ea in Hf. by apply (proj1 (list.Forall_forall _ _) Hf). }
  destruct (wf_bucket h bs (hash n) Hwf E) as (b & -> & Hb & Hr). cbn [mbind res_bind].
  rewrite set_bucket_ok by done. cbn [mbind res_bind]. eexists. split; [done|].
  assert (n ∈ b) as Hnb by (eapply wf_elsewhere; [done|done|done|by rewrite <- Hh]).
  destruct (wf_count h Hwf) as [Hcnt H31]. pose proof (wf_NoDup h Hwf) as Hnd. rewrite Ea in Hcnt, Hnd.
  assert (wf (mk (hashmask h) (Some (<[Z.to_nat (Z.land (hash n) (hashmask h)) := Some (set_in_bucket (node_k n) v b)]> bs)) (item_count h))) as Hwf'.
  { apply (wf_update h bs _ b); try done.
    - apply set_in_bucket_place. by eapply wf_bucket_place.
    - intros rest Hrest. rewrite Hrest in Hnd, Hcnt. rewrite fmap_app, set_in_bucket_keys, <- fmap_app. split; [done|].
      rewrite Hcnt, !length_app. unfold set_in_bucket. by rewrite length_map.
    - unfold wf in Hwf. rewrite E in Hwf. tauto. }
  split_and!; [done| |done].
  destruct (all_nodes_update (hashmask h) bs _ b (set_in_bucket (node_k n) v b) (item_count h) Hb) as (rest & Hrest & Hn').
  rewrite (to_map_nodes _ _ Hwf' Hn').
  rewrite Hrest, fmap_app in Hnd. apply list.NoDup_app in Hnd as (Hnd1 & Hdisj & Hnd2).
  rewrite <- (set_in_bucket_absent (node_k n) v rest).
  2: { intros x Hx Hk. apply (Hdisj (node_k n)); [by apply list_elem_of_fmap_2|]. rewrite <- Hk. by apply list_elem_of_fmap_2. }
  rewrite <- set_in_bucket_app, set_pairs.
  - by rewrite (to_map_nodes h (b ++ rest) Hwf) by (by rewrite Ea).
  - rewrite fmap_app. by apply list.NoDup_app.
  - exists n. split; [|done]. apply elem_of_app. by left.
Qed.

(** ** remove *)

Lemma remove_node_Some (b : @bucket K V) hv k b' : remove_node b hv k = Some b' ->
  exists n, b ≡ₚ n :: b' /\ node_k n = k /\ b' ⊆ b.
Proof.
  revert b'. induction b as [|x b IH]; intros b' Hr; [done|]. simpl in Hr. destruct (_ && _) eqn:E.
  - injection Hr as <-. apply andb_prop in E as [_ E%keq_true]. exists x. split_and!; [done|done|set_solver +].
  - destruct (remove_node b hv k) as [b1|]; [|done]. injection Hr as <-.
    destruct (IH b1 eq_refl) as (n & Hp & Hk & Hs). exists n. split_and!; [|done|set_solver +Hs].
    rewrite Hp. apply Permutation_swap.
Qed.

Lemma remove_node_None (b : @bucket K V) hv k : remove_node b hv k = None -> find_node b hv k = None.
Proof.
  induction b as [|x b IH]; [done|]. simpl. destruct (_ && _); [done|].
  destruct (remove_node b hv k); [done|]. intros _. by apply IH.
Qed.

Lemma remove_ok h k : wf h -> exists h', remove h k = Ret (bool_decide (is_Some (to_map h !! k)), h') /\ wf h' /\
  to_map h' = delete k (to_map h) /\ item_count h' = item_count h - Z.b2z (bool_decide (is_Some (to_map h !! k))).
Proof.
  intros Hwf. unfold remove, remove_g.
  assert (forall x, find_g h (khash k) k = Ret x -> node_v <$> x = to_map h !! k) as Hfind.
  { intros x Hx. destruct (find_lookup h k Hwf) as (r & Hr & Hv). rewrite Hx in Hr. injection Hr as ->. done. }
  unfold find_g in Hfind. destruct (buckets h) as [bs|] eqn:E.
  2: { specialize (Hfind None eq_refl). simpl in Hfind. rewrite <- Hfind. exists h. split_and!; [done|done| |simpl; lia].
       symmetry. apply delete_id. by rewrite <- Hfind. }
  destruct (wf_bucket h bs (khash k) Hwf E) as (b & Eb & Hb & Hr). rewrite Eb in Hfind |- *. cbn [mbind res_bind] in *.
  assert (all_nodes h = nodes bs) as Ea by (unfold all_nodes; by rewrite E).
  destruct (remove_node b (khash k) k) as [b'|] eqn:Er.
  - destruct (remove_node_Some _ _ _ _ Er) as (n & Hp & Hk & Hsub). rewrite set_bucket_ok by done. cbn [mbind res_bind].
    destruct (nodes_split bs _ b Hb) as (rest & Hrest & _).
    assert (to_map h !! k = Some (node_v n)) as Hl.
    { rewrite <- Hk. apply to_map_lookup; [done|]. rewrite Ea, Hrest, Hp. by left. }
    rewrite Hl. rewrite bool_decide_eq_true_2 by (by eexists).
    destruct (wf_count h Hwf) as [Hcnt H31]. pose proof (wf_NoDup h Hwf) as Hnd. rewrite Ea in Hcnt, Hnd.
    eexists. split; [done|]. rewrite (uwrap_id 32) by (unfold in_u; rewrite Hcnt, Hrest, Hp in *; simpl in *; lia).
    assert (wf (mk (hashmask h) (Some (<[Z.to_nat (Z.land (khash k) (hashmask h)) := Some b']> bs)) (item_count h - 1))) as Hwf'.
    { apply (wf_update h bs _ b); try done; [| |lia|].
      - rewrite list.Forall_forall. intros x Hx. pose proof (wf_bucket_place h bs _ b Hwf E Hb) as Hf.
        apply (proj1 (list.Forall_forall _ _) Hf). by apply Hsub.
      - intros rest1 Hrest1. rewrite Hrest1, Hp in Hnd, Hcnt. simpl in Hnd, Hcnt.
        apply list.NoDup_cons in Hnd as [_ Hnd]. split; [done|lia].
      - unfold wf in Hwf. rewrite E in Hwf. lia. }
    split_and!; [done| |simpl; lia].
    destruct (all_nodes_update (hashmask h) bs _ b b' (item_count h - 1) Hb) as (rest1 & Hrest1 & Hn').
    rewrite (to_map_nodes _ _ Hwf' Hn'). rewrite Hrest1, Hp in Hnd. simpl in Hnd. apply list.NoDup_cons in Hnd as [Hn _].
    rewrite (to_map_nodes h (n :: b' ++ rest1) Hwf) by (by rewrite Ea, Hrest1, Hp).
    rewrite pairs_cons, list_to_map_cons, Hk. symmetry. apply delete_insert_id.
    apply not_elem_of_list_to_map_1. rewrite pairs_fst. by rewrite <- Hk.
  - apply remove_node_None in Er. specialize (Hfind _ eq_refl). rewrite Er in Hfind. simpl in Hfind. rewrite <- Hfind.
    exists h. split_and!; [done|done| |simpl; lia]. symmetry. apply delete_id. by rewrite <- Hfind.
Qed.

(** ** clean *)

Lemma count_nodes_ok k : forall i (bs : list (option (@bucket K V))), inited bs -> (i + k)%nat = length bs ->
  count_nodes k (Z.of_nat i) bs = Ret (Z.of_nat (length (nodes (drop i bs)))).
Proof.
  induction k as [|k IH]; intros i bs Hin Hik; simpl.
  - rewrite drop_ge by lia. done.
  - destruct (get_bucket_ok bs (Z.of_nat i) Hin ltac:(lia)) as (b & -> & Hb). rewrite Nat2Z.id in Hb.
    cbn [mbind res_bind]. replace (Z.of_nat i + 1) with (Z.of_nat (S i)) by lia. rewrite IH by (done || lia).
    cbn [mbind res_bind]. rewrite (drop_S _ _ _ Hb). simpl. rewrite length_app. f_equal. lia.
Qed.

Lemma clean_ok h : wf h -> exists h', clean h = Ret h' /\ wf h' /\ to_map h' = ∅ /\ item_count h' = 0.
Proof.
  intros Hwf. unfold clean, clean_g. pose proof Hwf as Hwf0. unfold wf in Hwf. destruct (buckets h) as [bs|] eqn:E.
  - destruct Hwf as ((m & Hm & Hmask & Hlen) & Hin & Hpl & Hnd & Hcnt & H31 & Hload).
    assert (Z.to_nat (hashmask h + 1) = length bs) as -> by lia.
    pose proof (count_nodes_ok (length bs) 0 bs Hin eq_refl) as Hcn. change (Z.of_nat 0) with 0 in Hcn.
    rewrite Hcn. cbn [mbind res_bind]. eexists. split; [done|]. rewrite drop_ge, app_nil_r by lia.
    rewrite drop_0, Hcnt, Z.sub_diag. change (u32 0) with 0.
    split_and!; [|unfold to_map, all_nodes; simpl; by rewrite nodes_empty|done].
    pose proof (Z.pow_le_mono_r 2 2 m ltac:(lia) ltac:(lia)). change (2 ^ 2) with 4 in *.
    apply (wf_intro _ _ _ m); try done; rewrite ?nodes_empty; try done.
    + by rewrite repeat_length.
    + apply inited_empty.
    + intros j b Hj. apply lookup_repeat_Some in Hj. injection Hj as ->. constructor.
    + constructor.
    + rewrite Z.quot_div_nonneg by lia. divlia.
  - exists h. split_and!; [done|done|unfold to_map, all_nodes; by rewrite E|tauto].
Qed.

(** ** Iteration *)

(** [for (n = iterFirst(); n; n = iterNext(n))]: the nodes it visits. *)
Fixpoint iterate (fuel : nat) h (cur : option (node K V)) : res (list (node K V)) :=
  match fuel with
  | O => NoFuel
  | S fuel =>
    match cur with
    | None => Ret []
    | Some n => next ← iterNext_g h n; rest ← iterate fuel h next; Ret (n :: rest)
    end
  end.

Definition iterate_all h : res (list (node K V)) :=
  first ← iterFirst_g h; iterate (S (S (Z.to_nat (item_count h)))) h first.

Lemma first_from_ok k : forall i (bs : list (option (@bucket K V))), inited bs -> (i + k)%nat = length bs ->
  first_from k (Z.of_nat i) (Some bs) = Ret (head (nodes (drop i bs))).
Proof.
  induction k as [|k IH]; intros i bs Hin Hik; simpl.
  - rewrite drop_ge by lia. done.
  - destruct (get_bucket_ok bs (Z.of_nat i) Hin ltac:(lia)) as (b & -> & Hb). rewrite Nat2Z.id in Hb.
    cbn [mbind res_bind]. rewrite (drop_S _ _ _ Hb). destruct b as [|n b]; [|done].
    replace (Z.of_nat i + 1) with (Z.of_nat (S i)) by lia. by rewrite IH by (done || lia).
Qed.

(** The first node behind a bucket heads a bucket further on. *)
Lemma head_bucket (bs : list (option (@bucket K V))) i n rest : inited bs -> nodes (drop i bs) = n :: rest ->
  exists j b, bs !! j = Some (Some (n :: b)) /\ rest = b ++ nodes (drop (S j) bs).
Proof.
  remember (length bs - i)%nat as k eqn:Ek. revert i Ek. induction k as [|k IH]; intros i Ek Hin Hn.
  { rewrite drop_ge in Hn by lia. done. }
  destruct (get_bucket_ok bs (Z.of_nat i) Hin ltac:(lia)) as (b & _ & Hb). rewrite Nat2Z.id in Hb.
  rewrite (drop_S _ _ _ Hb) in Hn. destruct b as [|x b].
  - apply (IH (S i)); [lia|done|exact Hn].
  - injection Hn as -> <-. by exists i, b.
Qed.

Lemma after_node_ok (l1 : @bucket K V) n l2 : NoDup (node_k <$> (l1 ++ n :: l2)) -> after_node (l1 ++ n :: l2) (node_k n) = l2.
Proof.
  induction l1 as [|x l1 IH]; simpl.
  - intros _. by rewrite (proj2 (keq_true _ _) eq_refl).
  - intros Hnd. apply list.NoDup_cons in Hnd as [Hx Hnd]. destruct (keq (node_k x) (node_k n)) eqn:E; [|by apply IH].
    apply keq_true in E. exfalso. apply Hx. rewrite E. apply list_elem_of_fmap_2, elem_of_app. right. by left.
Qed.

Lemma iterNext_ok h bs i l1 n l2 : wf h -> buckets h = Some bs -> bs !! i = Some (Some (l1 ++ n :: l2)) ->
  iterNext_g h n = Ret (head (l2 ++ nodes (drop (S i) bs))).
Proof.
  intros Hwf E Hi. unfold iterNext_g. rewrite E.
  destruct (wf_bucket h bs (hash n) Hwf E) as (b & Eb & Hb & Hr).
  pose proof (wf_bucket_place h bs i _ Hwf E Hi) as Hpl. apply Forall_app in Hpl as [_ Hpl].
  apply Forall_cons_1 in Hpl as [[Hidx _] _]. unfold index in Hidx.
  rewrite Eb. cbn [mbind res_bind]. rewrite Hidx in Hb. pose proof (eq_trans (eq_sym Hb) Hi) as Ebb. injection Ebb as ->.
  pose proof (wf_NoDup h Hwf) as Hnd. unfold all_nodes in Hnd. rewrite E in Hnd.
  destruct (nodes_split bs i _ Hi) as (rest & Hrest & _). rewrite Hrest, fmap_app in Hnd.
  apply list.NoDup_app in Hnd as (Hnd & _ & _). rewrite after_node_ok by done.
  destruct l2 as [|x l2]; [|done]. pose proof Hwf as Hwf0. unfold wf in Hwf0. rewrite E in Hwf0.
  destruct Hwf0 as ((m & Hm & Hmask & Hlen) & Hin & _).
  replace (Z.land (hash n) (hashmask h) + 1) with (Z.of_nat (S i)) by lia.
  rewrite first_from_ok by (done || lia). done.
Qed.

Lemma iterate_ok h bs : wf h -> buckets h = Some bs -> forall fuel i l1 n l2,
  bs !! i = Some (Some (l1 ++ n :: l2)) -> (length (l2 ++ nodes (drop (S i) bs)) + 1 < fuel)%nat ->
  iterate fuel h (Some n) = Ret (n :: l2 ++ nodes (drop (S i) bs)).
Proof.
  intros Hwf E. assert (inited bs) as Hin by (unfold wf in Hwf; rewrite E in Hwf; tauto).
  induction fuel as [|fuel IH]; intros i l1 n l2 Hi Hf; [lia|]. cbn [iterate].
  rewrite (iterNext_ok h bs i l1 n l2) by done. cbn [mbind res_bind].
  destruct l2 as [|x l2].
  - simpl in *. destruct (nodes (drop (S i) bs)) as [|x rest] eqn:Er.
    + destruct fuel; [lia|done].
    + destruct (head_bucket bs (S i) x rest Hin Er) as (j & b & Hj & ->). simpl in Hf.
      cbn [head app]. rewrite (IH j [] x b Hj) by lia. done.
  - cbn [head app]. rewrite (IH i (l1 ++ [n]) x l2); [done|by rewrite <- app_assoc|simpl in *; lia].
Qed.

Lemma iterate_all_ok h : wf h -> iterate_all h = Ret (all_nodes h).
Proof.
  intros Hwf. destruct (wf_count h Hwf) as [Hcnt _]. unfold iterate_all, iterFirst_g. unfold all_nodes in *.
  pose proof Hwf as Hwf0. unfold wf in Hwf0. destruct (buckets h) as [bs|] eqn:E; [|destruct Hwf0 as [-> ->]; done].
  destruct Hwf0 as ((m & Hm & Hmask & Hlen) & Hin & _).
  pose proof (first_from_ok (Z.to_nat (hashmask h + 1)) 0 bs Hin ltac:(lia)) as Hf. change (Z.of_nat 0) with 0 in Hf.
  rewrite Hf, drop_0. cbn [mbind res_bind]. destruct (nodes bs) as [|n rest] eqn:En; [done|].
  rewrite <- (drop_0 bs) in En. destruct (head_bucket bs 0 n rest Hin En) as (j & b & Hj & ->).
  cbn [head app]. rewrite (iterate_ok h bs Hwf E _ j [] n b Hj); [done|]. rewrite Hcnt. simpl. lia.
Qed.

(** ** A sequence of operations *)

Inductive op := Find (k : K) | Create (k : K) (v : V) | Replace (k : K) (v : V) | Remove (k : K) | Clean | Count.

Inductive result := R_value (v : option V) | R_bool (b : bool) | R_unit | R_count (n : Z).

(** An operation on the table and the same one on a map. *)
Definition run_op h (o : op) : res (result * t K V) :=
  match o with
  | Find k => v ← accValue h k; Ret (R_value v, h)
  | Create k v => '(b, h) ← create_value v_default h k v; Ret (R_bool b, h)
  | Replace k v => '(b, h) ← replace v_default h k v; Ret (R_bool b, h)
  | Remove k => '(b, h) ← remove h k; Ret (R_bool b, h)
  | Clean => h ← clean h; Ret (R_unit, h)
  | Count => Ret (R_count (count h), h)
  end.

Definition run_op_map (m : gmap K V) (o : op) : result * gmap K V :=
  match o with
  | Find k => (R_value (m !! k), m)
  | Create k v => match m !! k with Some _ => (R_bool false, m) | None => (R_bool true, <[k := v]> m) end
  | Replace k v => (R_bool (bool_decide (m !! k = None)), <[k := v]> m)
  | Remove k => (R_bool (bool_decide (is_Some (m !! k))), delete k m)
  | Clean => (R_unit, ∅)
  | Count => (R_count (Z.of_nat (size m)), m)
  end.

Fixpoint run_ops h (ops : list op) : res (list result * t K V) :=
  match ops with
  | [] => Ret ([], h)
  | o :: ops => '(r, h) ← run_op h o; '(rs, h) ← run_ops h ops; Ret (r :: rs, h)
  end.

Fixpoint run_ops_map (m : gmap K V) (ops : list op) : list result * gmap K V :=
  match ops with
  | [] => ([], m)
  | o :: ops => let '(r, m) := run_op_map m o in let '(rs, m) := run_ops_map m ops in (r :: rs, m)
  end.

Lemma wf_size h : wf h -> Z.of_nat (size (to_map h)) = item_count h.
Proof.
  intros Hwf. destruct (wf_count h Hwf) as [-> _]. unfold to_map.
  assert (size (list_to_map (pairs (all_nodes h)) : gmap K V) = length (pairs (all_nodes h))) as ->;
    [|unfold pairs; by rewrite length_fmap].
  pose proof (wf_NoDup h Hwf) as Hnd. rewrite <- pairs_fst in Hnd.
  rewrite <- (length_map_to_list (list_to_map _ : gmap K V)). apply Permutation_length. by apply map_to_list_to_map.
Qed.

Lemma run_op_ok h o : wf h -> item_count h < 2 ^ 31 - 1 ->
  exists h', run_op h o = Ret (fst (run_op_map (to_map h) o), h') /\ wf h' /\
    to_map h' = snd (run_op_map (to_map h) o) /\ item_count h' <= item_count h + 1.
Proof.
  intros Hwf Hc. destruct o as [k|k v|k v|k| |]; cbn [run_op run_op_map].
  - destruct (find_lookup h k Hwf) as (r & Hr & Hv). unfold accValue. rewrite Hr. cbn [mbind res_bind].
    exists h. rewrite <- Hv. split_and!; [by destruct r|done|done|lia].
  - unfold create_value. destruct (createNode_ok h k Hwf Hc) as (n & h1 & -> & Hwf1 & Hn & Hk & _ & Hm & Hcnt).
    cbn [mbind res_bind]. destruct (to_map h !! k) eqn:El.
    + exists h1. by split_and!; [|done|done|lia].
    + destruct (node_set_ok h1 n v Hwf1 Hn) as (h2 & Hs & Hwf2 & Hm2 & Hc2).
      rewrite bool_decide_eq_true_2 by done. rewrite Hs. cbn [mbind res_bind]. exists h2.
      split_and!; [done|done| |lia]. simpl. by rewrite Hm2, Hm, Hk, insert_insert_eq.
  - unfold replace. destruct (createNode_ok h k Hwf Hc) as (n & h1 & -> & Hwf1 & Hn & Hk & _ & Hm & Hcnt).
    cbn [mbind res_bind]. destruct (node_set_ok h1 n v Hwf1 Hn) as (h2 & Hs & Hwf2 & Hm2 & Hc2).
    rewrite Hs. cbn [mbind res_bind]. exists h2. split_and!; [done|done| |destruct (to_map h !! k); lia].
    simpl. rewrite Hm2, Hm, Hk. destruct (to_map h !! k); [done|by rewrite insert_insert_eq].
  - destruct (remove_ok h k Hwf) as (h' & -> & Hwf' & Hm & Hcnt). cbn [mbind res_bind]. exists h'.
    split_and!; [done|done|done|]. destruct (bool_decide _); simpl in Hcnt; lia.
  - destruct (clean_ok h Hwf) as (h' & -> & Hwf' & Hm & Hcnt). exists h'. split_and!; [done|done|done|].
    destruct (wf_count h Hwf) as [-> _]. lia.
  - exists h. unfold count. rewrite wf_size by done. split_and!; [done|done|done|lia].
Qed.

Lemma run_ops_ok ops : forall h, wf h -> item_count h + Z.of_nat (length ops) < 2 ^ 31 ->
  exists h', run_ops h ops = Ret (fst (run_ops_map (to_map h) ops), h') /\ wf h' /\
    to_map h' = snd (run_ops_map (to_map h) ops).
Proof.
  induction ops as [|o ops IH]; intros h Hwf Hc; simpl in Hc; cbn [run_ops run_ops_map]; [by exists h|].
  destruct (run_op_ok h o Hwf ltac:(lia)) as (h1 & -> & Hwf1 & Hm1 & Hc1). cbn [mbind res_bind].
  destruct (run_op_map (to_map h) o) as [r m1]. simpl in *. subst m1.
  destruct (IH h1 Hwf1 ltac:(lia)) as (h2 & -> & Hwf2 & Hm2). cbn [mbind res_bind].
  destruct (run_ops_map (to_map h1) ops) as [rs m2]. simpl in *. by exists h2.
Qed.

Lemma create_wf : wf create.
Proof. done. Qed.

(** ** replaceFrom *)

(** The body of the loop for one node of the source. *)
Definition replace_one h (o : node K V) : res (t K V) :=
  r ← find_g h (hash o) (node_k o);
  match r with
  | Some n => node_set h n (node_v o)
  | None => addNewNode_g h None (node_k o) (node_v o)
  end.

Fixpoint replace_all h (l : list (node K V)) : res (t K V) :=
  match l with
  | [] => Ret h
  | o :: l => h ← replace_one h o; replace_all h l
  end.

Lemma replace_loop_list fuel : forall h source cur l, iterate fuel source cur = Ret l ->
  replace_loop fuel h source cur = replace_all h l.
Proof.
  induction fuel as [|fuel IH]; intros h source cur l Hl; [done|]. cbn [iterate replace_loop] in *.
  destruct cur as [o|]; [|by injection Hl as <-].
  destruct (iterNext_g source o) as [next| | |]; [|done..]. cbn [mbind res_bind] in *.
  destruct (iterate fuel source next) as [rest| | |] eqn:Er; [|done..]. cbn [mbind res_bind] in Hl. injection Hl as <-.
  cbn [replace_all]. unfold replace_one. destruct (find_g h (hash o) (node_k o)) as [r| | |]; [|done..].
  cbn [mbind res_bind]. destruct r as [n|]; [destruct (node_set _ _ _)|destruct (addNewNode_g _ _ _ _)];
    cbn [mbind res_bind]; (done || by apply IH).
Qed.

Lemma replace_one_ok h o : wf h -> hash o = khash (node_k o) -> item_count h < 2 ^ 31 ->
  match to_map h !! node_k o with
  | Some _ => exists h', replace_one h o = Ret h' /\ wf h' /\ to_map h' = <[node_k o := node_v o]> (to_map h) /\
      item_count h' = item_count h
  | None => replace_one h o = Crash Uninitialized
  end.
Proof.
  intros Hwf Hh Hc. unfold replace_one. rewrite Hh. destruct (find_g_spec h (node_k o) Hwf) as (r & -> & Hr).
  cbn [mbind res_bind]. destruct r as [n|].
  - destruct Hr as (Hn & Hk & _). pose proof (to_map_lookup h n Hwf Hn) as Hl. rewrite Hk in Hl. rewrite Hl.
    destruct (node_set_ok h n (node_v o) Hwf Hn) as (h' & Hs & Hwf' & Hm & Hcnt). exists h'. by rewrite Hk in Hm.
  - rewrite (proj1 (find_dom h (node_k o) Hwf) Hr). unfold addNewNode_g.
    by destruct (make_room_ok h Hwf Hc) as (h' & -> & _).
Qed.

Lemma replace_all_ok l : forall h, wf h -> Forall (fun o => hash o = khash (node_k o)) l -> NoDup (node_k <$> l) ->
  (Forall (fun o => is_Some (to_map h !! node_k o)) l ->
    exists h', replace_all h l = Ret h' /\ wf h' /\ to_map h' = list_to_map (pairs l) ∪ to_map h) /\
  (Exists (fun o => to_map h !! node_k o = None) l -> replace_all h l = Crash Uninitialized).
Proof.
  induction l as [|o l IH]; intros h Hwf Hh Hnd.
  - split; [intros _; exists h; split_and!; [done|done|unfold pairs; simpl; by rewrite (left_id_L ∅ (∪))]|intros Hex; inversion Hex].
  - apply Forall_cons_1 in Hh as [Ho Hh]. simpl in Hnd. apply list.NoDup_cons in Hnd as [Hn Hnd].
    destruct (wf_count h Hwf) as [_ Hc]. pose proof (replace_one_ok h o Hwf Ho Hc) as H1.
    cbn [replace_all]. destruct (to_map h !! node_k o) as [v|] eqn:El.
    + destruct H1 as (h1 & -> & Hwf1 & Hm1 & _). cbn [mbind res_bind]. destruct (IH h1 Hwf1 Hh Hnd) as [IHa IHe].
      assert (forall x, x ∈ l -> to_map h1 !! node_k x = to_map h !! node_k x) as Hsame.
      { intros x Hx. rewrite Hm1. apply lookup_insert_ne. intros E. apply Hn. rewrite E. by apply list_elem_of_fmap_2. }
      split.
      * intros Hall. apply Forall_cons_1 in Hall as [_ Hall].
        destruct IHa as (h' & Hr & Hwf' & Hm').
        { rewrite list.Forall_forall in Hall |- *. intros x Hx. rewrite Hsame by done. by apply Hall. }
        exists h'. split_and!; [done|done|]. rewrite Hm', Hm1, pairs_cons, list_to_map_cons.
        rewrite <- insert_union_r, insert_union_l; [done|].
        apply not_elem_of_list_to_map_1. by rewrite pairs_fst.
      * intros Hex. apply IHe. apply Exists_cons in Hex as [Hex|Hex]; [congruence|].
        rewrite list.Exists_exists in Hex |- *. destruct Hex as (x & Hx & Hxn). exists x. by rewrite Hsame.
    + rewrite H1. split; [|done]. intros Hall. apply Forall_cons_1 in Hall as [[v Hv] _]. congruence.
Qed.
End Refinement.

(** ** Properties *)

#[global] Instance Z_HashCompar : HashCompar Z := {| khash k := k; keq := Z.eqb |}.
#[global] Instance Z_HashComparOk : HashComparOk Z := Z.eqb_eq.

(** C9. Refinement: fewer than 2^31 operations in a row on a new hash (find,
    create, replace, remove, clean, count) succeed and give the results of the
    same operations on a finite map, through every growth of the table. *)
Theorem hash_refines_map {K V} `{Countable K} {HC : HashCompar K} {HO : HashComparOk K} (v_default : V) (ops : list (op (K:=K) (V:=V))) :
  Z.of_nat (length ops) < 2 ^ 31 ->
  exists h, run_ops v_default create ops = Ret (fst (run_ops_map ∅ ops), h) /\ wf h /\
    to_map h = snd (run_ops_map ∅ ops).
Proof. intros Hl. by apply (run_ops_ok v_default ops create create_wf). Qed.

Lemma hash_refines_map_witness :
  exists h, run_ops 0 create [Create 1 10; Create 5 50; Create 9 90; Create 13 7; Replace 5 51; Find 5; Remove 1; Create 1 2; Count] =
    Ret (fst (run_ops_map ∅ [Create 1 10; Create 5 50; Create 9 90; Create 13 7; Replace 5 51; Find 5; Remove 1; Create 1 2; Count]), h) /\
    wf h /\ to_map h = snd (run_ops_map ∅ [Create 1 10; Create 5 50; Create 9 90; Create 13 7; Replace 5 51; Find 5; Remove 1; Create 1 2; Count]).
Proof. by apply hash_refines_map. Defined.

(** Iteration with [iterFirst] and [iterNext] ends and visits every node of
    the table exactly once. *)
Theorem iteration_complete {K V} `{Countable K} {HC : HashCompar K} {HO : HashComparOk K} (h : t K V) :
  wf h -> exists l, iterate_all h = Ret l /\ NoDup (node_k <$> l) /\ Z.of_nat (length l) = count h /\
    list_to_map (pairs l) = to_map h.
Proof.
  intros Hwf. exists (all_nodes h). split_and!; [by apply iterate_all_ok|by apply wf_NoDup| |done].
  unfold count. by destruct (wf_count h Hwf) as [-> _].
Qed.

Lemma iteration_complete_witness :
  exists l, iterate_all (mk 3 (Some [Some []; Some [mk_node 9 9 90; mk_node 5 5 50]; Some []; Some [mk_node 7 7 0]]) 3) = Ret l /\
    NoDup (node_k <$> l) /\ Z.of_nat (length l) = 3 /\
    list_to_map (pairs l) = (to_map (mk 3 (Some [Some []; Some [mk_node 9 9 90; mk_node 5 5 50]; Some []; Some [mk_node 7 7 0]]) 3) : gmap Z Z).
Proof.
  apply iteration_complete. unfold wf. simpl. split_and!; try done.
  - exists 2. done.
  - by repeat (constructor; [eexists; reflexivity|]).
  - intros j b Hj. do 4 (destruct j as [|j]; [injection Hj as <-; by repeat constructor|]). done.
  - by apply (bool_decide_unpack _).
Defined.

(** [moveFrom] hands the map over, and the source is left with a mask that
    says there is a bucket: looking a key up in it finds nothing, but creating
    one reads an entry of the new array that was never set, and iterating it
    dereferences the null array. *)
Theorem move_leaves_source_unusable {K V} `{Countable K} {HC : HashCompar K} {HO : HashComparOk K}
    (v_default : V) (h source : t K V) (k : K) :
  wf h -> wf source ->
  exists h' source', moveFrom_g h source = Ret (h', source') /\ wf h' /\ to_map h' = to_map source /\
    find source' k = Ret None /\ createNode v_default source' k = Crash Uninitialized /\
    iterFirst_g source' = Crash NullDeref.
Proof.
  intros Hwf Hs. unfold moveFrom_g, destroy_g. destruct (buckets h) as [bs|] eqn:E.
  - unfold wf in Hwf. rewrite E in Hwf. destruct Hwf as ((m & Hm & Hmask & Hlen) & Hin & _).
    pose proof (count_nodes_ok (Z.to_nat (hashmask h + 1)) 0 bs Hin ltac:(lia)) as Hc. change (Z.of_nat 0) with 0 in Hc.
    rewrite Hc. cbn [mbind res_bind]. eexists _, _. split; [done|]. split_and!; try done; by destruct source.
  - cbn [mbind res_bind]. eexists _, _. split; [done|]. split_and!; try done; by destruct source.
Qed.

Lemma move_leaves_source_unusable_witness :
  exists h' source' : t Z Z, moveFrom_g create create = Ret (h', source') /\ wf h' /\ to_map h' = to_map (create : t Z Z) /\
    find source' 5 = Ret None /\ createNode 0 source' 5 = Crash Uninitialized /\ iterFirst_g source' = Crash NullDeref.
Proof. by apply move_leaves_source_unusable. Defined.

(** [replaceFrom] overwrites the values of the keys both tables have; a key
    of the source that the destination lacks makes it link a node whose hash
    was never set. *)
Theorem replace_from_common_keys {K V} `{Countable K} {HC : HashCompar K} {HO : HashComparOk K} (h source : t K V) :
  wf h -> wf source ->
  ((forall k, is_Some (to_map source !! k) -> is_Some (to_map h !! k)) ->
    exists h', replaceFrom_g h source = Ret h' /\ wf h' /\ to_map h' = to_map source ∪ to_map h) /\
  (forall k, is_Some (to_map source !! k) -> to_map h !! k = None -> replaceFrom_g h source = Crash Uninitialized).
Proof.
  intros Hwf Hs. pose proof (iterate_all_ok source Hs) as Hi. unfold iterate_all in Hi. unfold replaceFrom_g.
  destruct (iterFirst_g source) as [first| | |]; [|done..]. cbn [mbind res_bind] in *.
  rewrite (replace_loop_list _ h source first _ Hi).
  destruct (replace_all_ok (all_nodes source) h Hwf (wf_hashes source Hs) (wf_NoDup source Hs)) as [Ha He]. split.
  - intros Hk. apply Ha. rewrite list.Forall_forall. intros n Hn. apply Hk. rewrite to_map_lookup by done. by eexists.
  - intros k [v Hv] Hn. apply He. apply elem_of_list_to_map_2 in Hv. unfold pairs in Hv.
    apply list_elem_of_fmap in Hv as (n & [= -> ->] & Hin). rewrite list.Exists_exists. by exists n.
Qed.

Lemma replace_from_common_keys_witness :
  exists h' : t Z Z, replaceFrom_g (mk 3 (Some [Some []; Some [mk_node 5 5 50]; Some []; Some [mk_node 7 7 0]]) 2) (mk 3 (Some [Some []; Some [mk_node 5 5 51]; Some []; Some []]) 1) = Ret h' /\
    wf h' /\ to_map h' = to_map (mk 3 (Some [Some []; Some [mk_node 5 5 51]; Some []; Some []]) 1) ∪
      to_map (mk 3 (Some [Some []; Some [mk_node 5 5 50]; Some []; Some [mk_node 7 7 0]]) 2).
Proof.
  apply replace_from_common_keys.
  - unfold wf. simpl. split_and!; try done; [exists 2; done|by repeat (constructor; [eexists; reflexivity|])| |by apply (bool_decide_unpack _)].
    intros j b Hj. do 4 (destruct j as [|j]; [injection Hj as <-; by repeat constructor|]). done.
  - unfold wf. simpl. split_and!; try done; [exists 2; done|by repeat (constructor; [eexists; reflexivity|])| |by apply (bool_decide_unpack _)].
    intros j b Hj. do 4 (destruct j as [|j]; [injection Hj as <-; by repeat constructor|]). done.
  - intros k Hk. change (to_map _) with ({[5 := 51]} : gmap Z Z) in Hk. destruct (decide (k = 5)) as [->|Hne].
    + vm_compute. by eexists.
    + rewrite lookup_singleton_ne in Hk by done. by destruct Hk.
Defined.
