(* ===== verification/Mem.v ===== *)
(** * core/base: Mem

    Exchange of two objects in memory and the copies in a chosen byte order
    ([Mem.cxx]), for the little-endian platforms with 4-byte [int] and 8-byte
    [long]. Memory is a byte list, an address an index into it. *)

From S2P Require Import Prelude Machine.

Definition sizeof_int : Z := 4.
Definition sizeof_long : Z := 8.

(** ** Exchange *)

(** [x = *(T * )d1; *(T * )d1 = *(T * )d2; *(T * )d2 = x] for a type of [u] bytes. *)
Definition xchg_unit (u : Z) (mem : list Z) (d1 d2 : Z) : res (list Z) :=
  x ← mem_range mem d1 u;
  y ← mem_range mem d2 u;
  mem ← mem_store mem d1 y;
  mem_store mem d2 x.

(** The loop [do ... while ((len -= sizeof(T)) != 0)]. *)
Fixpoint xchg_loop (u : Z) (fuel : nat) (mem : list Z) (d1 d2 len : Z) : res (list Z) :=
  match fuel with
  | O => NoFuel
  | S fuel =>
    mem ← xchg_unit u mem d1 d2;
    let len := u64 (len - u) in
    if len =? 0 then Ret mem else xchg_loop u fuel mem (d1 + u) (d2 + u) len
  end.

Definition xchg_zero (mem : list Z) (d1 d2 len : Z) : res (list Z) :=
  if len =? 0 then Ret mem else Crash AssertFailed.
Definition xchg_bchar (mem : list Z) (d1 d2 len : Z) : res (list Z) :=
  xchg_loop 1 (S (length mem)) mem d1 d2 len.
Definition xchg_int (mem : list Z) (d1 d2 len : Z) : res (list Z) :=
  if len =? sizeof_int then xchg_unit sizeof_int mem d1 d2 else Crash AssertFailed.
Definition xchg_long (mem : list Z) (d1 d2 len : Z) : res (list Z) :=
  if len =? sizeof_long then xchg_unit sizeof_long mem d1 d2 else Crash AssertFailed.
Definition xchg_bint (mem : list Z) (d1 d2 len : Z) : res (list Z) :=
  xchg_loop sizeof_int (S (length mem)) mem d1 d2 len.
Definition xchg_blong (mem : list Z) (d1 d2 len : Z) : res (list Z) :=
  xchg_loop sizeof_long (S (length mem)) mem d1 d2 len.

(** [Mem::getXchgFunc]: a function pointer is the function. *)
Definition getXchgFunc (tsize : Z) : list Z -> Z -> Z -> Z -> res (list Z) :=
  if tsize =? 0 then xchg_zero
  else if (tsize =? 1) || (tsize =? 3) || (tsize =? 5) || (tsize =? 7) then xchg_bchar
  else if tsize =? sizeof_int then xchg_int
  else if tsize =? sizeof_long then xchg_long
  else if tsize =? 2 * sizeof_long then xchg_blong
  else if tsize mod sizeof_long =? 0 then xchg_blong
  else if tsize mod sizeof_long =? sizeof_int then xchg_bint
  else xchg_bchar.

Definition xchg (mem : list Z) (d1 d2 len : Z) : res (list Z) :=
  if len =? 0 then Ret mem
  else if (len =? 1) || (len =? 3) || (len =? 5) || (len =? 7) then xchg_bchar mem d1 d2 len
  else if len =? sizeof_int then xchg_int mem d1 d2 len
  else if len =? sizeof_long then xchg_long mem d1 d2 len
  else if len =? 2 * sizeof_long then xchg_blong mem d1 d2 len
  else if len mod sizeof_long =? 0 then xchg_blong mem d1 d2 len
  else if len mod sizeof_long =? sizeof_int then xchg_bint mem d1 d2 len
  else xchg_bchar mem d1 d2 len.

(** ** Copies *)

(** [for (; len-- > 0; dest += step) *dest = src[len]]. *)
Fixpoint copy_reversed (len : nat) (step : Z) (mem : list Z) (dest : Z) (src : list Z) : res (list Z) :=
  match len with
  | O => Ret mem
  | S len =>
    b ← byte_at src (Z.of_nat len);
    mem ← byte_store mem dest b;
    copy_reversed len step mem (dest + step) src
  end.

Definition copyLe (mem : list Z) (dest : Z) (src : list Z) (len : Z) : res (list Z) :=
  data ← mem_range src 0 len; mem_store mem dest data.
Definition copyBe (mem : list Z) (dest : Z) (src : list Z) (len : Z) : res (list Z) :=
  copy_reversed (Z.to_nat len) 1 mem dest src.
Definition copyPartialLe (mem : list Z) (dest dst_size : Z) (src : list Z) (src_size : Z) : res (list Z) :=
  data ← mem_range src 0 src_size; mem_store mem dest data.
Definition copyPartialBe (mem : list Z) (dest dst_size : Z) (src : list Z) (src_size : Z) : res (list Z) :=
  copy_reversed (Z.to_nat src_size) (-1) mem dest src.

(** ** Lemmas *)

Lemma mem_range_at mem pre l post i n : mem = pre ++ l ++ post -> i = Z.of_nat (length pre) -> n = Z.of_nat (length l) ->
  mem_range mem i n = Ret l.
Proof. intros -> -> ->. apply mem_range_app. Qed.

Lemma mem_store_at mem pre old post i new : mem = pre ++ old ++ post -> i = Z.of_nat (length pre) ->
  length old = length new -> mem_store mem i new = Ret (pre ++ new ++ post).
Proof. intros -> ->. apply mem_store_app. Qed.

Lemma xchg_unit_lt u pre a mid b post d1 d2 :
  Z.of_nat (length a) = u -> Z.of_nat (length b) = u -> d1 = Z.of_nat (length pre) ->
  d2 = Z.of_nat (length (pre ++ a ++ mid)) ->
  xchg_unit u (pre ++ a ++ mid ++ b ++ post) d1 d2 = Ret (pre ++ b ++ mid ++ a ++ post).
Proof.
  intros Ha Hb H1 H2. unfold xchg_unit. rewrite (mem_range_at _ pre a (mid ++ b ++ post) d1 u) by (done || lia). cbn [mbind res_bind].
  rewrite (mem_range_at _ (pre ++ a ++ mid) b post d2 u) by (done || lia || by rewrite <- !app_assoc). cbn [mbind res_bind].
  rewrite (mem_store_at _ pre a (mid ++ b ++ post)) by (done || lia). cbn [mbind res_bind].
  rewrite (mem_store_at _ (pre ++ b ++ mid) b post); [by rewrite <- !app_assoc|by rewrite <- !app_assoc| |lia].
  rewrite H2, !length_app. lia.
Qed.

Lemma xchg_unit_gt u pre a mid b post d1 d2 :
  Z.of_nat (length a) = u -> Z.of_nat (length b) = u -> d1 = Z.of_nat (length pre) ->
  d2 = Z.of_nat (length (pre ++ a ++ mid)) ->
  xchg_unit u (pre ++ a ++ mid ++ b ++ post) d2 d1 = Ret (pre ++ b ++ mid ++ a ++ post).
Proof.
  intros Ha Hb H1 H2. unfold xchg_unit. rewrite (mem_range_at _ (pre ++ a ++ mid) b post d2 u) by (done || lia || by rewrite <- !app_assoc). cbn [mbind res_bind].
  rewrite (mem_range_at _ pre a (mid ++ b ++ post) d1 u) by (done || lia). cbn [mbind res_bind].
  rewrite (mem_store_at _ (pre ++ a ++ mid) b post); [|by rewrite <- !app_assoc|done|lia]. cbn [mbind res_bind].
  rewrite <- !app_assoc. by rewrite (mem_store_at _ pre a (mid ++ a ++ post)) by (done || lia).
Qed.

Definition unit_swaps (u : Z) (f : list Z -> Z -> Z -> Z -> res (list Z)) (len : Z) : Prop :=
  forall pre a mid b post d1 d2,
  Z.of_nat (length a) = len -> Z.of_nat (length b) = len -> d1 = Z.of_nat (length pre) ->
  d2 = Z.of_nat (length (pre ++ a ++ mid)) ->
  f (pre ++ a ++ mid ++ b ++ post) d1 d2 len = Ret (pre ++ b ++ mid ++ a ++ post) /\
  f (pre ++ a ++ mid ++ b ++ post) d2 d1 len = Ret (pre ++ b ++ mid ++ a ++ post).

Lemma xchg_loop_swaps (sw : bool) u : 0 < u -> forall k fuel pre a mid b post d1 d2,
  Z.of_nat (length a) = u * Z.of_nat (S k) -> Z.of_nat (length b) = u * Z.of_nat (S k) -> u * Z.of_nat (S k) < 2 ^ 64 ->
  d1 = Z.of_nat (length pre) -> d2 = Z.of_nat (length (pre ++ a ++ mid)) -> (k < fuel)%nat ->
  xchg_loop u fuel (pre ++ a ++ mid ++ b ++ post) (if sw then d2 else d1) (if sw then d1 else d2) (u * Z.of_nat (S k)) =
    Ret (pre ++ b ++ mid ++ a ++ post).
Proof.
  intros Hu. induction k as [|k IH]; intros fuel pre a mid b post d1 d2 Ha Hb Hlen H1 H2 Hf;
    (destruct fuel as [|fuel]; [lia|]); cbn [xchg_loop].
  - assert (xchg_unit u (pre ++ a ++ mid ++ b ++ post) (if sw then d2 else d1) (if sw then d1 else d2) =
      Ret (pre ++ b ++ mid ++ a ++ post)) as ->.
    { destruct sw; [apply xchg_unit_gt|apply xchg_unit_lt]; (done || lia). }
    cbn [mbind res_bind]. rewrite (uwrap_id 64) by (unfold in_u; lia).
    by rewrite (proj2 (Z.eqb_eq _ _)) by lia.
  - rewrite <- (take_drop (Z.to_nat u) a), <- (take_drop (Z.to_nat u) b).
    set (a1 := take _ a). set (a2 := drop _ a). set (b1 := take _ b). set (b2 := drop _ b).
    assert (Z.of_nat (length a1) = u) as La1 by (unfold a1; rewrite length_take; lia).
    assert (Z.of_nat (length b1) = u) as Lb1 by (unfold b1; rewrite length_take; lia).
    assert (length a = length (a1 ++ a2)) as La by (unfold a1, a2; by rewrite take_drop).
    assert (length b = length (b1 ++ b2)) as Lb by (unfold b1, b2; by rewrite take_drop).
    rewrite length_app in La, Lb. rewrite <- !app_assoc.
    assert (xchg_unit u (pre ++ a1 ++ a2 ++ mid ++ b1 ++ b2 ++ post) (if sw then d2 else d1) (if sw then d1 else d2) =
      Ret (pre ++ b1 ++ (a2 ++ mid) ++ a1 ++ b2 ++ post)) as ->.
    { rewrite (app_assoc a2 mid). destruct sw; [apply xchg_unit_gt|apply xchg_unit_lt]; try done;
        rewrite H2, !length_app, La; lia. }
    cbn [mbind res_bind]. rewrite (uwrap_id 64) by (unfold in_u; nia).
    rewrite (proj2 (Z.eqb_neq _ _)) by nia.
    replace (u * Z.of_nat (S (S k)) - u) with (u * Z.of_nat (S k)) by nia.
    pose proof (IH fuel (pre ++ b1) a2 (mid ++ a1) b2 post (d1 + u) (d2 + u)) as E.
    rewrite <- !app_assoc in E. rewrite <- !app_assoc.
    replace ((if sw then d2 else d1) + u) with (if sw then d2 + u else d1 + u) by (by destruct sw).
    replace ((if sw then d1 else d2) + u) with (if sw then d1 + u else d2 + u) by (by destruct sw).
    apply E; try nia; rewrite ?H2, ?length_app; lia.
Qed.

Lemma xchg_loop_unit_swaps u len f : 0 < u -> 0 < len < 2 ^ 64 -> len mod u = 0 ->
  (forall mem d1 d2, f mem d1 d2 len = xchg_loop u (S (length mem)) mem d1 d2 len) -> unit_swaps u f len.
Proof.
  intros Hu Hlen Hm Hf pre a mid b post d1 d2 Ha Hb H1 H2.
  assert (len = u * Z.of_nat (S (Z.to_nat (len / u) - 1))) as Hk.
  { pose proof (Z.div_mod len u ltac:(lia)). rewrite Hm in *. assert (0 < len / u) by nia. rewrite Nat2Z.inj_succ, Nat2Z.inj_sub by lia. rewrite Z2Nat.id by lia. nia. }
  rewrite !Hf. rewrite Hk. split.
  - apply (xchg_loop_swaps false u Hu _ _ pre a mid b post d1 d2); try congruence; try lia.
    rewrite !length_app. nia.
  - apply (xchg_loop_swaps true u Hu _ _ pre a mid b post d1 d2); try congruence; try lia.
    rewrite !length_app. nia.
Qed.

Lemma xchg_fixed_swaps u f : (forall mem d1 d2, f mem d1 d2 u = xchg_unit u mem d1 d2) -> unit_swaps u f u.
Proof. intros Hf pre a mid b post d1 d2 Ha Hb H1 H2. rewrite !Hf. split; [by apply xchg_unit_lt|by apply xchg_unit_gt]. Qed.

Lemma getXchgFunc_swaps_aux len : 0 < len < 2 ^ 64 -> exists u, unit_swaps u (getXchgFunc len) len.
Proof.
  intros Hlen. unfold getXchgFunc.
  case_match eqn:E0; bool_to_prop; [lia|].
  case_match eqn:E1; [exists 1; apply xchg_loop_unit_swaps; (done || apply Z.mod_1_r)|].
  case_match eqn:E2; [apply Z.eqb_eq in E2 as ->; exists 4; by apply xchg_fixed_swaps|].
  case_match eqn:E3; [apply Z.eqb_eq in E3 as ->; exists 8; by apply xchg_fixed_swaps|].
  case_match eqn:E4; [apply Z.eqb_eq in E4 as ->; exists 8; by apply xchg_loop_unit_swaps|].
  case_match eqn:E5; [apply Z.eqb_eq in E5; exists 8; by apply xchg_loop_unit_swaps|].
  case_match eqn:E6; [|exists 1; apply xchg_loop_unit_swaps; (done || apply Z.mod_1_r)].
  apply Z.eqb_eq in E6. exists 4. apply xchg_loop_unit_swaps; try done.
  unfold sizeof_long, sizeof_int in E6. divlia.
Qed.

Lemma xchg_getXchgFunc mem d1 d2 len : 0 < len -> xchg mem d1 d2 len = getXchgFunc len mem d1 d2 len.
Proof.
  intros Hl. unfold xchg, getXchgFunc. case_match eqn:E; bool_to_prop; [lia|]. by repeat case_match.
Qed.

Lemma copy_reversed_ok k : forall pre old post src, length old = k -> (k <= length src)%nat ->
  copy_reversed k 1 (pre ++ old ++ post) (Z.of_nat (length pre)) src = Ret (pre ++ rev (take k src) ++ post).
Proof.
  induction k as [|k IH]; intros pre old post src Ho Hs; cbn [copy_reversed].
  - by destruct old.
  - destruct old as [|o old]; [done|]. injection Ho as Ho.
    destruct (lookup_lt_is_Some_2 src k) as [x Hx]; [lia|].
    rewrite (byte_at_ok _ _ x) by (rewrite ?Nat2Z.id; (done || lia)). cbn [mbind res_bind].
    unfold byte_store. destruct (Z.ltb_spec (Z.of_nat (length pre)) 0); [lia|].
    destruct (Z.leb_spec (Z.of_nat (length (pre ++ (o :: old) ++ post))) (Z.of_nat (length pre))).
    { rewrite length_app in *. simpl in *. lia. }
    cbn [mbind res_bind]. rewrite Nat2Z.id, insert_app_r_alt, Nat.sub_diag by lia. simpl.
    change (x :: old ++ post) with ([x] ++ old ++ post). rewrite (app_assoc pre).
    replace (Z.of_nat (length pre) + 1) with (Z.of_nat (length (pre ++ [x]))) by (rewrite length_app; simpl; lia).
    rewrite IH by (done || lia). rewrite (take_S_r src k x) by done. by rewrite rev_app_distr, <- !app_assoc.
Qed.

(** ** Properties *)

(** [Mem::xchg] and the function [Mem::getXchgFunc] chooses for a size
    exchange two disjoint objects of that size, in either order of the
    arguments, and change nothing else. *)
Theorem xchg_swaps (pre a mid b post : list Z) :
  0 < Z.of_nat (length a) < 2 ^ 64 -> length a = length b ->
  let d1 := Z.of_nat (length pre) in let d2 := Z.of_nat (length (pre ++ a ++ mid)) in
  let len := Z.of_nat (length a) in
  let before := pre ++ a ++ mid ++ b ++ post in let after := pre ++ b ++ mid ++ a ++ post in
  getXchgFunc len before d1 d2 len = Ret after /\ getXchgFunc len before d2 d1 len = Ret after /\
  xchg before d1 d2 len = Ret after /\ xchg before d2 d1 len = Ret after.
Proof.
  intros Hl He d1 d2 len before after. rewrite !xchg_getXchgFunc by (unfold len; lia).
  destruct (getXchgFunc_swaps_aux len Hl) as [u Hu].
  destruct (Hu pre a mid b post d1 d2 ltac:(done) ltac:(unfold len; lia) ltac:(done) ltac:(done)) as [H1 H2].
  done.
Qed.

Lemma xchg_swaps_witness :
  getXchgFunc 12 ([0] ++ seqZ 1 12 ++ [9; 9] ++ seqZ 21 12 ++ [7]) 1 15 12 =
    Ret ([0] ++ seqZ 21 12 ++ [9; 9] ++ seqZ 1 12 ++ [7]).
Proof. apply (xchg_swaps [0] (seqZ 1 12) [9; 9] (seqZ 21 12) [7]); done. Defined.

(** [Mem::copyLe] copies and [Mem::copyBe] copies in reversed order, into
    exactly the bytes of the destination. *)
Theorem copy_orders (pre old post src : list Z) :
  length old = length src ->
  copyLe (pre ++ old ++ post) (Z.of_nat (length pre)) src (Z.of_nat (length src)) = Ret (pre ++ src ++ post) /\
  copyBe (pre ++ old ++ post) (Z.of_nat (length pre)) src (Z.of_nat (length src)) = Ret (pre ++ rev src ++ post).
Proof.
  intros Hl. split.
  - unfold copyLe. rewrite (mem_range_at src [] src []) by (done || by rewrite app_nil_r). cbn [mbind res_bind].
    by apply mem_store_app.
  - unfold copyBe. rewrite Nat2Z.id, copy_reversed_ok by (done || lia). by rewrite firstn_all.
Qed.

Lemma copy_orders_witness :
  copyLe [0; 0; 0; 0] 1 [1; 2] 2 = Ret [0; 1; 2; 0] /\ copyBe [0; 0; 0; 0] 1 [1; 2] 2 = Ret [0; 2; 1; 0].
Proof. apply (copy_orders [0] [0; 0] [0] [1; 2]). done. Defined.

(** [copyPartialBe] walks down from the first byte of the destination: a source
    of more than one byte is written in front of it. *)
Example partial_be_underruns : copyPartialBe [0; 0; 0; 0] 0 4 [1; 2] 2 = Crash OutOfBounds.
Proof. reflexivity. Qed.
