(* ===== verification/Array.v ===== *)
(** * core/struct: Array_c and SArray

    The contiguous array of [Array.cxx] and [Array.hxx] on the bytes of its
    block. [len] is the length in bytes, an [unsigned] of 32 bits; an element is
    [tsize] bytes; an address is an offset from [data]. *)

From S2P Require Import Prelude Machine Mem.

Section Array.

(** [sizeof(V)], the value a default constructor of [V] leaves, whether the
    destructor of [V] does nothing, and what a byte never set happens to be. *)
Variable tsize : Z.
Variable v_init : list Z.
Variable trivial_dtor : bool.
Variable garbage : nat -> Z.

(** [dtors] lists the offsets of the destructor calls, the latest first. *)
Record t := mk {
  len : Z;
  data : option (list Z);
  dtors : list Z;
}.

Definition create : t := mk 0 None [].

(** ** Array_c *)

(** [realloc(data, nsize)]: the common prefix is kept. *)
Definition reallocList (data : option (list Z)) (nsize : Z) : list Z :=
  let old := default [] data in
  take (Z.to_nat nsize) old ++ (garbage <$> seq (length old) (Z.to_nat nsize - length old)).

Definition destroy_g (a : t) : t := mk (len a) None (dtors a).

Definition resize_g (a : t) (nsize : Z) : t :=
  mk (u32 nsize) (Some (reallocList (data a) nsize)) (dtors a).

(** [destroy_g] on the destination, then both objects after the move. *)
Definition moveFrom_g (a source : t) : t * t :=
  let a := destroy_g a in
  (mk (len source) (data source) (dtors a), mk 0 None (dtors source)).

(** ** Construction and destruction of an element in place *)

Definition construct (a : t) (off : Z) (v : list Z) : res t :=
  match data a with
  | None => Crash NullDeref
  | Some mem => mem ← mem_store mem off v; Ret (mk (len a) (Some mem) (dtors a))
  end.

(** [((V * )(data+off))->~V()]. *)
Definition destruct_at (a : t) (off : Z) : res t :=
  if trivial_dtor then Ret a
  else match data a with
       | None => Crash NullDeref
       | Some mem => _ ← mem_range mem off tsize; Ret (mk (len a) (Some mem) (off :: dtors a))
       end.

(** ** SArray *)

Definition count (a : t) : Z := u32 (len a / tsize).

Fixpoint trunc_loop (fuel : nat) (a : t) (i nsize : Z) : res t :=
  if i =? nsize then Ret a
  else match fuel with
       | O => NoFuel
       | S fuel =>
         let i := u32 (i - tsize) in
         a ← destruct_at a i;
         trunc_loop fuel a i nsize
       end.

Definition p_trunc (a : t) (nsize : Z) : res t :=
  let nsize := u32 (nsize * tsize) in
  a ← trunc_loop (Z.to_nat (len a)) a (len a) nsize;
  Ret (resize_g a nsize).

Fixpoint construct_loop (fuel : nat) (a : t) (i nsize : Z) : res t :=
  if i =? nsize then Ret a
  else match fuel with
       | O => NoFuel
       | S fuel => a ← construct a i v_init; construct_loop fuel a (u32 (i + tsize)) nsize
       end.

Definition resize (a : t) (nsize : Z) : res t :=
  if u64 (nsize * tsize) <? len a then p_trunc a nsize
  else
    let i := len a in
    let nsize := u32 (nsize * tsize) in
    construct_loop (S (Z.to_nat nsize)) (resize_g a nsize) i nsize.

Fixpoint init_loop (fuel : nat) (a : t) (i nsize : Z) (iv : list Z) : res t :=
  if i <? nsize then
    match fuel with
    | O => NoFuel
    | S fuel => a ← construct a (i * tsize) iv; init_loop fuel a (u32 (i + 1)) nsize iv
    end
  else Ret a.

Definition resizeInit (a : t) (nsize : Z) (iv : list Z) : res t :=
  if u64 (nsize * tsize) <? len a then p_trunc a nsize
  else
    let i := len a / tsize in
    init_loop (Z.to_nat nsize) (resize_g a (u64 (nsize * tsize))) i nsize iv.

Definition shrinkEnd (a : t) (nsize : Z) : res t := p_trunc a (u32 (count a - nsize)).

Definition append (a : t) (iv : list Z) : res t := resizeInit a (u32 (len a / tsize + 1)) iv.

(** The pointer returned, as its offset. *)
Definition accAppendingNew (a : t) : res (Z * t) :=
  a ← resize a (u32 (len a / tsize + 1)); Ret (len a - tsize, a).

(** [operator[]] as a read and as a store through the reference. *)
Definition get_elem (a : t) (i : Z) : res (list Z) :=
  if u64 (i * tsize) <? len a then
    match data a with None => Crash NullDeref | Some mem => mem_range mem (i * tsize) tsize end
  else Crash AssertFailed.
Definition set_elem (a : t) (i : Z) (v : list Z) : res t :=
  if u64 (i * tsize) <? len a then construct a (i * tsize) v else Crash AssertFailed.

(** [memcpy(data+dst, data+src, n)] inside the block. *)
Definition copy_within (mem : list Z) (dst src n : Z) : res (list Z) :=
  if (n =? 0) || (dst + n <=? src) || (src + n <=? dst) then d ← mem_range mem src n; mem_store mem dst d
  else Crash BadCopy.

Definition remove (a : t) (idx : Z) : res t :=
  a ← destruct_at a (idx + tsize);
  match data a with
  | None => Crash NullDeref
  | Some mem =>
    mem ← copy_within mem (idx * tsize) ((idx + 1) * tsize) (u64 (len a - (idx + 1) * tsize));
    Ret (mk (u32 (len a - tsize)) (Some mem) (dtors a))
  end.

(** The iterator pointers, as offsets; [None] is the null pointer. *)
Definition iterFirst (a : t) : option Z := if len a =? 0 then None else Some 0.
Definition iterNext (a : t) (iter : Z) : option Z :=
  let iter := iter + tsize in if iter =? len a then None else Some iter.

(** ** Sorting *)

(** The comparison [sortdata] carries: the element comparison of the array, or
    the user's function without or with the pointer passed to it, or one of
    these negated. [D] is what the passed pointer points to. *)
Context {D : Type}.
Variable el_cmp : list Z -> list Z -> Z.

Inductive cmpfunc :=
| cmp_tcmp
| cmp_userF (f : list Z -> list Z -> Z)
| cmp_userD (f : list Z -> list Z -> D -> Z) (pass : D)
| rcmp_tcmp
| rcmp_userF (f : list Z -> list Z -> Z)
| rcmp_userD (f : list Z -> list Z -> D -> Z) (pass : D).

Definition run_cmp (c : cmpfunc) (d1 d2 : list Z) : Z :=
  match c with
  | cmp_tcmp => el_cmp d1 d2
  | cmp_userF f => f d1 d2
  | cmp_userD f pass => f d1 d2 pass
  | rcmp_tcmp => s32 (- el_cmp d1 d2)
  | rcmp_userF f => s32 (- f d1 d2)
  | rcmp_userD f pass => s32 (- f d1 d2 pass)
  end.

(** [while (sd->cmpfunc(mi, sd->pivot, sd) < 0) mi += tsize]. *)
Fixpoint scan_up (fuel : nat) (c : cmpfunc) (mem pivot : list Z) (mi : Z) : res Z :=
  match fuel with
  | O => NoFuel
  | S fuel =>
    x ← mem_range mem mi tsize;
    if run_cmp c x pivot <? 0 then scan_up fuel c mem pivot (mi + tsize) else Ret mi
  end.

(** [while (sd->cmpfunc(sd->pivot, mj, sd) < 0) mj -= tsize]. *)
Fixpoint scan_down (fuel : nat) (c : cmpfunc) (mem pivot : list Z) (mj : Z) : res Z :=
  match fuel with
  | O => NoFuel
  | S fuel =>
    x ← mem_range mem mj tsize;
    if run_cmp c pivot x <? 0 then scan_down fuel c mem pivot (mj - tsize) else Ret mj
  end.

(** The [do] loop of [sort_i]: the memory, [mi] and [mj] after it. *)
Fixpoint partition_loop (fuel : nat) (c : cmpfunc) (mem pivot : list Z) (mi mj : Z) : res (list Z * Z * Z) :=
  match fuel with
  | O => NoFuel
  | S fuel =>
    mi ← scan_up (S (length mem)) c mem pivot mi;
    mj ← scan_down (S (length mem)) c mem pivot mj;
    if mi <? mj then
      mem ← getXchgFunc tsize mem mi mj tsize;
      let mi := mi + tsize in
      let mj := mj - tsize in
      if mi <=? mj then partition_loop fuel c mem pivot mi mj else Ret (mem, mi, mj)
    else if mi =? mj then Ret (mem, mi + tsize, mj - tsize)
    else Ret (mem, mi, mj)
  end.

Fixpoint sort_i (fuel : nat) (c : cmpfunc) (mem : list Z) (beg end_ : Z) : res (list Z) :=
  match fuel with
  | O => NoFuel
  | S fuel =>
    let med := beg + (end_ - beg) / tsize / 2 * tsize in
    pivot ← mem_range mem med tsize;
    r ← partition_loop (S (length mem)) c mem pivot beg end_;
    let '(mem, mi, mj) := r in
    mem ← (if beg <? mj then sort_i fuel c mem beg mj else Ret mem);
    if mi <? end_ then sort_i fuel c mem mi end_ else Ret mem
  end.

(** The body [sort_g], [sortF_g], [sortD_g] and their reverses share. *)
Definition sort_with (c : cmpfunc) (a : t) : res t :=
  if len a <=? tsize then Ret a
  else match data a with
       | None => Crash NullDeref
       | Some mem =>
         mem ← sort_i (S (length mem)) c mem 0 (len a - tsize);
         Ret (mk (len a) (Some mem) (dtors a))
       end.

Definition sort_g := sort_with cmp_tcmp.
Definition sortF_g f := sort_with (cmp_userF f).
Definition sortD_g f pass := sort_with (cmp_userD f pass).
Definition rsort_g := sort_with rcmp_tcmp.
Definition rsortF_g f := sort_with (rcmp_userF f).
Definition rsortD_g f pass := sort_with (rcmp_userD f pass).

End Array.

Arguments cmpfunc : clear implicits.
