(* ===== verification/ArraySort.v ===== *)
(** * Correctness of the in-place quicksort of Array_c

    The memory is always written as a concatenation of elements around the
    range being sorted; the scans, the partition and the recursion are followed
    on these lists of elements. *)

From stdpp Require Import sets sorting.
From S2P Require Import Prelude Machine Mem Array.

(** What a user's comparison has to be for a sort to make sense: a strict weak
    order through its sign. *)
Class StrictWeakOrder {A} (f : A -> A -> Z) : Prop := {
  swo_asym : forall x y, f x y < 0 -> ~ f y x < 0;
  swo_trans : forall x y z, ~ f x y < 0 -> ~ f y z < 0 -> ~ f x z < 0;
}.

Lemma StronglySorted_weaken {A} (R1 R2 : A -> A -> Prop) l :
  (forall x y, R1 x y -> R2 x y) -> StronglySorted R1 l -> StronglySorted R2 l.
Proof.
  intros Hr. induction 1 as [|x l _ IH Hf]; constructor; [done|]. eapply list.Forall_impl; [exact Hf|]. by apply Hr.
Qed.

Section Sort.
Context {D : Type}.
Variable tsize : Z.
Variable el_cmp : list Z -> list Z -> Z.
Variable c : cmpfunc D.
Hypothesis Htsize : 0 < tsize < 2 ^ 64.

Definition elem_ok (x : list Z) : Prop := Z.of_nat (length x) = tsize.

(** [x] may stand before [y]. *)
Definition le (x y : list Z) : Prop := ~ run_cmp el_cmp c y x < 0.

Hypothesis Hswo : StrictWeakOrder (run_cmp el_cmp c).

Lemma le_refl x : le x x.
Proof. intros H. by apply (swo_asym x x). Qed.

Lemma le_trans x y z : le x y -> le y z -> le x z.
Proof. unfold le. intros H1 H2. by apply (swo_trans z y x). Qed.

Lemma lt_le x y : run_cmp el_cmp c x y < 0 -> le x y.
Proof. apply swo_asym. Qed.

(** ** Elements in memory *)

Definition off (l : list (list Z)) : Z := tsize * Z.of_nat (length l).

Lemma concat_length l : Forall elem_ok l -> Z.of_nat (length (concat l)) = off l.
Proof.
  unfold off. induction 1 as [|x l Hx _ IH]; [simpl; lia|]. cbn [concat length]. rewrite length_app.
  unfold elem_ok in Hx. lia.
Qed.

Lemma off_app l1 l2 : off (l1 ++ l2) = off l1 + off l2.
Proof. unfold off. rewrite length_app. lia. Qed.

Lemma off_cons x l : off (x :: l) = tsize + off l.
Proof. unfold off. simpl length. lia. Qed.

Lemma off_nil : off [] = 0.
Proof. unfold off. simpl. lia. Qed.

Lemma off_length l1 l2 : length l1 = length l2 -> off l1 = off l2.
Proof. unfold off. by intros ->. Qed.

Lemma off_nonneg l : 0 <= off l.
Proof. unfold off. lia. Qed.

(** The element [x] is read at its place in a memory of elements. *)
Lemma read_elem l x r mem i : mem = concat (l ++ x :: r) -> Forall elem_ok (l ++ x :: r) -> i = off l ->
  mem_range mem i tsize = Ret x.
Proof.
  intros -> Hok ->. apply Forall_app in Hok as [Hl [Hx _]%Forall_cons_1]. rewrite concat_app. simpl.
  apply (mem_range_at _ (concat l) x (concat r)); [done|by rewrite concat_length|by symmetry].
Qed.

Lemma xchg_elems l x m y r i j : Forall elem_ok (l ++ x :: m ++ y :: r) -> i = off l -> j = off (l ++ x :: m) ->
  getXchgFunc tsize (concat (l ++ x :: m ++ y :: r)) i j tsize = Ret (concat (l ++ y :: m ++ x :: r)).
Proof.
  intros Hok -> ->. apply Forall_app in Hok as [Hl [Hx Hm]%Forall_cons_1]. apply Forall_app in Hm as [Hm [Hy _]%Forall_cons_1].
  destruct (getXchgFunc_swaps_aux tsize Htsize) as [u Hu].
  repeat (rewrite concat_app; cbn [concat]).
  unfold elem_ok in Hx, Hy.
  edestruct (Hu (concat l) x (concat m) y (concat r)) as [E _]; [..|exact E]; [done|done|by rewrite concat_length|].
  rewrite !length_app, off_app, off_cons, !Nat2Z.inj_add, !concat_length by done. lia.
Qed.

(** ** Scans *)

Lemma scan_up_spec pivot x r mem : forall l1 l fuel i, mem = concat (l ++ l1 ++ x :: r) -> Forall elem_ok (l ++ l1 ++ x :: r) ->
  Forall (fun y => run_cmp el_cmp c y pivot < 0) l1 -> ~ run_cmp el_cmp c x pivot < 0 -> i = off l ->
  (length l1 < fuel)%nat -> scan_up tsize el_cmp fuel c mem pivot i = Ret (off (l ++ l1)).
Proof.
  induction l1 as [|y l1 IH]; intros l fuel i Hm Hok Hl Hx Hi Hf; (destruct fuel as [|fuel]; [simpl in Hf; lia|]);
    cbn [scan_up].
  - rewrite (read_elem l x r) by done. cbn [mbind res_bind]. destruct (Z.ltb_spec (run_cmp el_cmp c x pivot) 0); [done|].
    by rewrite app_nil_r, Hi.
  - rewrite (read_elem l y (l1 ++ x :: r)) by done. cbn [mbind res_bind]. apply Forall_cons_1 in Hl as [Hy Hl].
    rewrite (proj2 (Z.ltb_lt _ _)) by done. rewrite (IH (l ++ [y]) fuel); [by rewrite <- app_assoc|by rewrite <- app_assoc..|done|done| |simpl in Hf; lia].
    rewrite off_app, off_cons, off_nil. lia.
Qed.

Lemma scan_down_spec pivot x l mem : forall l1 r fuel j, mem = concat (l ++ x :: l1 ++ r) -> Forall elem_ok (l ++ x :: l1 ++ r) ->
  Forall (fun y => run_cmp el_cmp c pivot y < 0) l1 -> ~ run_cmp el_cmp c pivot x < 0 -> j = off (l ++ l1) ->
  (length l1 < fuel)%nat -> scan_down tsize el_cmp fuel c mem pivot j = Ret (off l).
Proof.
  induction l1 as [|y l1 IH] using rev_ind; intros r fuel j Hm Hok Hl Hx Hj Hf; (destruct fuel as [|fuel]; [simpl in Hf; lia|]);
    cbn [scan_down].
  - rewrite app_nil_r in Hj. rewrite (read_elem l x ([] ++ r)) by done. cbn [mbind res_bind].
    destruct (Z.ltb_spec (run_cmp el_cmp c pivot x) 0); [done|]. by rewrite Hj.
  - apply Forall_app in Hl as [Hl Hy]. apply Forall_cons_1 in Hy as [Hy _]. rewrite length_app in Hf. simpl in Hf.
    assert (l ++ x :: (l1 ++ [y]) ++ r = (l ++ x :: l1) ++ y :: r) as E by (by rewrite <- !app_assoc, <- app_comm_cons).
    rewrite (read_elem (l ++ x :: l1) y r); [|by rewrite Hm, E|by rewrite <- E|].
    + cbn [mbind res_bind]. rewrite (proj2 (Z.ltb_lt _ _)) by done.
      apply (IH (y :: r)); [by rewrite Hm, <- app_assoc|by rewrite <- app_assoc in Hok|done|done| |lia].
      rewrite Hj, !off_app, off_cons, off_nil. lia.
    + rewrite Hj, !off_app, !off_cons, off_nil. lia.
Qed.

(** ** Partition *)

Lemma split_first (P : list Z -> Prop) `{forall x, Decision (P x)} w :
  Forall P w \/ exists w1 x v, w = w1 ++ x :: v /\ Forall P w1 /\ ~ P x.
Proof.
  induction w as [|x w IH]; [by left|]. destruct (decide (P x)) as [Hx|Hx]; [|right; by exists [], x, w].
  destruct IH as [IH|(w1 & y & v & -> & H1 & Hy)]; [left; by constructor|]. right. exists (x :: w1), y, v. by repeat constructor.
Qed.

Lemma split_last (P : list Z -> Prop) `{forall x, Decision (P x)} w :
  Forall P w \/ exists v x w2, w = v ++ x :: w2 /\ Forall P w2 /\ ~ P x.
Proof.
  induction w as [|x w IH] using rev_ind; [by left|]. destruct (decide (P x)) as [Hx|Hx]; [|right; by exists w, x, []].
  destruct IH as [IH|(w1 & y & v & -> & H1 & Hy)]; [left; by apply Forall_app_2; repeat constructor|].
  right. exists w1, y, (v ++ [x]). rewrite <- app_assoc. split_and!; [done| |done]. by apply Forall_app_2; repeat constructor.
Qed.

Definition below (pivot : list Z) (x : list Z) : Prop := run_cmp el_cmp c x pivot < 0.
Definition above (pivot : list Z) (x : list Z) : Prop := run_cmp el_cmp c pivot x < 0.

#[local] Instance below_dec pivot x : Decision (below pivot x).
Proof. unfold below. apply _. Defined.
#[local] Instance above_dec pivot x : Decision (above pivot x).
Proof. unfold above. apply _. Defined.

(** What stops the scans: elements already exchanged on both sides, or on the
    first round the pivot itself. *)
Definition sentinel (pivot : list Z) (a w cc : list (list Z)) : Prop :=
  (a <> [] /\ cc <> []) \/ Exists (fun x => le x pivot /\ le pivot x) w.

(** The two ends of what the scans leave between them. *)
Definition stops (pivot : list Z) (v : list (list Z)) : Prop :=
  match v with
  | [] => True
  | x :: _ => le pivot x /\ le (List.last v []) pivot
  end.

Lemma length_le_mem k : Forall elem_ok k -> (length k <= length (concat k))%nat.
Proof. intros H%concat_length. unfold off in H. nia. Qed.

Lemma scans_ok l a w cc r pivot mem mi mj :
  mem = concat (l ++ a ++ w ++ cc ++ r) -> Forall elem_ok (l ++ a ++ w ++ cc ++ r) ->
  Forall (fun x => le x pivot) a -> Forall (le pivot) cc -> sentinel pivot a w cc ->
  mi = off (l ++ a) -> mj = off (l ++ a ++ w) - tsize ->
  exists w1 v w2, w = w1 ++ v ++ w2 /\ Forall (below pivot) w1 /\ Forall (above pivot) w2 /\
    scan_up tsize el_cmp (S (length mem)) c mem pivot mi = Ret (off (l ++ a ++ w1)) /\
    scan_down tsize el_cmp (S (length mem)) c mem pivot mj = Ret (off (l ++ a ++ w1 ++ v) - tsize) /\
    stops pivot v /\ (v = [] -> a <> [] /\ cc <> []).
Proof.
  intros Hmem Hok Ha Hc Hs Hmi Hmj. pose proof (length_le_mem _ Hok) as Hlen. rewrite <- Hmem in Hlen.
  (* the scan down when everything between is skipped *)
  assert (forall w1 w2, w = w1 ++ w2 -> Forall (below pivot) w1 -> Forall (above pivot) w2 -> a <> [] ->
    scan_down tsize el_cmp (S (length mem)) c mem pivot mj = Ret (off (l ++ a ++ w1) - tsize)) as Hdown.
  { intros w1 w2 -> Hw1 Hw2 Hne.
    destruct (@exists_last _ (a ++ w1)) as (b & z & Eb); [by destruct a|].
    assert (le z pivot) as Hz.
    { assert (Forall (fun x => le x pivot) (a ++ w1)) as Hf; [apply Forall_app_2; [done|]|].
      - eapply list.Forall_impl; [exact Hw1|]. intros x. apply lt_le.
      - rewrite Eb in Hf. apply Forall_app in Hf as [_ Hf]. by apply Forall_cons_1 in Hf as [Hf _]. }
    assert (l ++ a ++ (w1 ++ w2) ++ cc ++ r = (l ++ b) ++ z :: w2 ++ cc ++ r) as E.
    { rewrite <- !app_assoc, (app_assoc a w1), Eb, <- !app_assoc. done. }
    rewrite E in Hmem, Hok.
    rewrite (scan_down_spec pivot z (l ++ b) mem w2 (cc ++ r)); try done.
    - f_equal. rewrite Eb, !off_app, off_cons, off_nil. lia.
    - rewrite Hmj, (app_assoc a w1), Eb, !off_app, off_cons, off_nil. lia.
    - rewrite ?Ew, ?Ev, !length_app in Hlen; simpl length in Hlen; rewrite ?length_app in Hlen; simpl length in Hlen; lia. }
  destruct (split_first (below pivot) w) as [Hall|(w1 & x & v & Ew & Hw1 & Hx)].
  - exists w, [], []. rewrite !app_nil_r. destruct Hs as [[Hne Hcc]|Hex].
    2: { rewrite list.Exists_exists in Hex. destruct Hex as (e & He & _ & He2). rewrite list.Forall_forall in Hall.
         exfalso. by apply He2, Hall. }
    destruct cc as [|c0 cc]; [done|]. apply Forall_cons_1 in Hc as [Hc0 Hc].
    split_and!; try done.
    + rewrite (scan_up_spec pivot c0 (cc ++ r) mem w (l ++ a)); [by rewrite <- app_assoc|by rewrite Hmem, <- app_assoc|by rewrite <- app_assoc|done|done|done|].
      rewrite ?Ew, ?Ev, !length_app in Hlen; simpl length in Hlen; rewrite ?length_app in Hlen; simpl length in Hlen; lia.
    + apply (Hdown w []); by rewrite ?app_nil_r.
  - assert (scan_up tsize el_cmp (S (length mem)) c mem pivot mi = Ret (off (l ++ a ++ w1))) as Hup.
    { subst w. rewrite (scan_up_spec pivot x (v ++ cc ++ r) mem w1 (l ++ a)); [by rewrite <- app_assoc| | |done|done|done|].
      - by rewrite Hmem, <- !app_assoc.
      - by rewrite <- !app_assoc in Hok |- *.
      - rewrite ?Ew, ?Ev, !length_app in Hlen; simpl length in Hlen; rewrite ?length_app in Hlen; simpl length in Hlen; lia. }
    destruct (split_last (above pivot) (x :: v)) as [Hall|(v' & y & w2 & Ev & Hw2 & Hy)].
    + exists w1, [], (x :: v). assert (a <> [] /\ cc <> []) as Hne.
      { destruct Hs as [Hne|Hex]; [done|]. subst w. apply Exists_app in Hex.
        rewrite !list.Exists_exists in Hex. rewrite !list.Forall_forall in Hw1, Hall.
        destruct Hex as [(e & He & He1 & He2)|(e & He & He1 & He2)]; exfalso; [by apply He2, Hw1|by apply He1, Hall]. }
      split_and!; try done; simpl; rewrite ?app_nil_r. destruct Hne. by apply (Hdown w1 (x :: v)).
    + exists w1, (v' ++ [y]), w2. split_and!; try done.
      * rewrite Ew, Ev, <- app_assoc. done.
      * assert (l ++ a ++ w ++ cc ++ r = (l ++ a ++ w1 ++ v') ++ y :: w2 ++ cc ++ r) as E.
        { rewrite Ew, Ev, <- !app_assoc. done. }
        rewrite E in Hmem, Hok.
        rewrite (scan_down_spec pivot y (l ++ a ++ w1 ++ v') mem w2 (cc ++ r)); try done.
        -- f_equal. rewrite !off_app, off_cons, off_nil. lia.
        -- rewrite Hmj, Ew, Ev, !off_app, off_cons. lia.
        -- rewrite ?Ew, ?Ev, !length_app in Hlen; simpl length in Hlen; rewrite ?length_app in Hlen; simpl length in Hlen; lia.
      * destruct v' as [|x' v']; simpl.
        -- injection Ev as <- <-. by split.
        -- injection Ev as <- ->. split; [done|]. change (le (List.last ((x :: v') ++ [y]) []) pivot). by rewrite last_last.
      * intros E. by destruct v'.
Qed.

Lemma below_le pivot l : Forall (below pivot) l -> Forall (fun x => le x pivot) l.
Proof. intros H. eapply list.Forall_impl; [exact H|]. intros x. apply lt_le. Qed.

Lemma above_le pivot l : Forall (above pivot) l -> Forall (le pivot) l.
Proof. intros H. eapply list.Forall_impl; [exact H|]. intros x. apply lt_le. Qed.

(** The parts a partition leaves: smaller, equal, larger. *)
Definition partitioned (pivot : list Z) (s s1 sm s2 : list (list Z)) : Prop :=
  s ≡ₚ s1 ++ sm ++ s2 /\ Forall (fun x => le x pivot) (s1 ++ sm) /\ Forall (le pivot) (sm ++ s2) /\
  s1 ++ sm <> [] /\ sm ++ s2 <> [].

Lemma ret3_eq {A B C} (a a' : A) (b b' : B) (e e' : C) : a = a' -> b = b' -> e = e' -> Ret (a, b, e) = Ret (a', b', e').
Proof. by intros -> -> ->. Qed.

Lemma partition_ok fuel : forall l a w cc r pivot mem mi mj,
  mem = concat (l ++ a ++ w ++ cc ++ r) -> Forall elem_ok (l ++ a ++ w ++ cc ++ r) ->
  Forall (fun x => le x pivot) a -> Forall (le pivot) cc -> sentinel pivot a w cc ->
  mi = off (l ++ a) -> mj = off (l ++ a ++ w) - tsize -> (length w < fuel)%nat ->
  exists s1 sm s2, partition_loop tsize el_cmp fuel c mem pivot mi mj =
      Ret (concat (l ++ s1 ++ sm ++ s2 ++ r), off (l ++ s1 ++ sm), off (l ++ s1) - tsize) /\
    partitioned pivot (a ++ w ++ cc) s1 sm s2.
Proof.
  induction fuel as [|fuel IH]; intros l a w cc r pivot mem mi mj Hmem Hok Ha Hc Hs Hmi Hmj Hf; [lia|].
  destruct (scans_ok l a w cc r pivot mem mi mj Hmem Hok Ha Hc Hs Hmi Hmj) as (w1 & v & w2 & -> & Hw1 & Hw2 & Hup & Hdown & Hst & Hv).
  apply below_le in Hw1. apply above_le in Hw2.
  cbn [partition_loop]. rewrite Hup. cbn [mbind res_bind]. rewrite Hdown. cbn [mbind res_bind].
  clear Hup Hdown. unfold partitioned.
  destruct v as [|x v].
  - destruct (Hv eq_refl) as [Hna Hnc]. rewrite !app_nil_r.
    destruct (Z.ltb_spec (off (l ++ a ++ w1)) (off (l ++ a ++ w1) - tsize)); [lia|].
    destruct (Z.eqb_spec (off (l ++ a ++ w1)) (off (l ++ a ++ w1) - tsize)); [lia|].
    exists (a ++ w1), [], (w2 ++ cc). rewrite !app_nil_r, Hmem. simpl app. rewrite <- !app_assoc.
    split_and!; [done|done|by apply Forall_app_2|by apply Forall_app_2|by destruct a|by destruct w2].
  - destruct Hst as [Hx Hy].
    destruct (@exists_last _ (x :: v)) as (m & y & Ev); [done|]. rewrite Ev, last_last in Hy.
    destruct m as [|x' m].
    + injection Ev as <- ->. assert (off (l ++ a ++ w1 ++ [x]) - tsize = off (l ++ a ++ w1)) as ->.
      { rewrite !off_app, off_cons, off_nil. lia. }
      rewrite Z.ltb_irrefl, Z.eqb_refl. exists (a ++ w1), [x], (w2 ++ cc).
      split_and!.
      * apply ret3_eq; [by rewrite Hmem, <- !app_assoc| |done].
        rewrite !off_app, off_cons, off_nil. lia.
      * by rewrite <- !app_assoc.
      * apply Forall_app_2; [by apply Forall_app_2|by repeat constructor].
      * constructor; [done|by apply Forall_app_2].
      * by destruct a, w1.
      * done.
    + injection Ev as <- ->.
      assert (off (l ++ a ++ w1 ++ x :: m ++ [y]) - tsize = off ((l ++ a ++ w1) ++ x :: m)) as ->.
      { rewrite !off_app, !off_cons, !off_app, !off_cons, off_nil. lia. }
      assert (off ((l ++ a ++ w1) ++ x :: m) = off (l ++ a ++ w1) + tsize + off m) as Eo.
      { rewrite off_app, off_cons. lia. }
      pose proof (off_nonneg m). rewrite (proj2 (Z.ltb_lt _ _)) by lia.
      assert (l ++ a ++ (w1 ++ (x :: m ++ [y]) ++ w2) ++ cc ++ r = (l ++ a ++ w1) ++ x :: m ++ y :: w2 ++ cc ++ r) as E.
      { rewrite <- !app_assoc. simpl. by rewrite <- !app_assoc. }
      rewrite Hmem, E, xchg_elems; [|by rewrite <- E|done|done].
      cbn [mbind res_bind].
      assert ((l ++ a ++ w1) ++ y :: m ++ x :: w2 ++ cc ++ r = l ++ (a ++ w1 ++ [y]) ++ m ++ (x :: w2 ++ cc) ++ r) as E'.
      { rewrite <- !app_assoc. simpl. by rewrite <- !app_assoc. }
      assert (a ++ (w1 ++ (x :: m ++ [y]) ++ w2) ++ cc ≡ₚ (a ++ w1 ++ [y]) ++ m ++ (x :: w2 ++ cc)) as Hperm.
      { rewrite <- !app_assoc. simpl. do 2 f_equiv. rewrite <- !app_assoc. simpl. solve_Permutation. }
      assert (Forall (fun z => le z pivot) (a ++ w1 ++ [y])) as Ha'.
      { repeat (apply Forall_app_2; [done|]). by repeat constructor. }
      assert (Forall (le pivot) (x :: w2 ++ cc)) as Hc'.
      { constructor; [done|]. by apply Forall_app_2. }
      assert (off (l ++ a ++ w1) + tsize = off (l ++ (a ++ w1 ++ [y]))) as Ei.
      { rewrite !off_app, off_cons, off_nil. lia. }
      assert (off ((l ++ a ++ w1) ++ x :: m) - tsize = off (l ++ (a ++ w1 ++ [y]) ++ m) - tsize) as Ej.
      { rewrite !off_app, !off_cons, off_nil. lia. }
      rewrite Ei, Ej, E'.
      destruct (Z.leb_spec (off (l ++ a ++ w1 ++ [y])) (off (l ++ (a ++ w1 ++ [y]) ++ m) - tsize)) as [Hle|Hgt].
      * destruct (IH l (a ++ w1 ++ [y]) m (x :: w2 ++ cc) r pivot _ (off (l ++ (a ++ w1 ++ [y])))
          (off (l ++ (a ++ w1 ++ [y]) ++ m) - tsize) eq_refl) as (s1 & sm & s2 & Hr & Hp & Hrest);
          [|done|done|left; by destruct a, w1|done|done| |].
        -- rewrite <- E'. rewrite E in Hok. apply Forall_app in Hok as [Hok1 Hok2]. apply Forall_app_2; [done|].
           eapply Forall_Permutation; [reflexivity| |exact Hok2]. solve_Permutation.
        -- rewrite !length_app in Hf. simpl in Hf. rewrite length_app in Hf. lia.
        -- exists s1, sm, s2. split; [exact Hr|]. split; [by rewrite Hperm|done].
      * assert (m = []) as ->.
        { destruct m as [|z m]; [done|]. rewrite !off_app, !off_cons in Hgt. pose proof (off_nonneg m). lia. }
        exists (a ++ w1 ++ [y]), [], (x :: w2 ++ cc). rewrite !app_nil_r. split_and!; first [done|by rewrite Hperm|by destruct a, w1].
Qed.

(** ** Recursion *)

Lemma StronglySorted_parts pivot s s1 sm s2 s1' s2' : partitioned pivot s s1 sm s2 ->
  s1 ≡ₚ s1' -> s2 ≡ₚ s2' -> StronglySorted le s1' -> StronglySorted le s2' ->
  s ≡ₚ s1' ++ sm ++ s2' /\ StronglySorted le (s1' ++ sm ++ s2').
Proof.
  intros (Hp & H1 & H2 & _) E1 E2 S1 S2. split; [by rewrite Hp, E1, E2|].
  apply Forall_app in H1 as [H1 Hm]. apply Forall_app in H2 as [Hm' H2]. rewrite E1 in H1. rewrite E2 in H2.
  assert (forall x y, x ∈ s1' ++ sm -> y ∈ sm ++ s2' -> le x y) as Hle.
  { intros x y Hx Hy. apply (le_trans x pivot y).
    - apply elem_of_app in Hx as [Hx|Hx]; [rewrite list.Forall_forall in H1|rewrite list.Forall_forall in Hm]; eauto.
    - apply elem_of_app in Hy as [Hy|Hy]; [rewrite list.Forall_forall in Hm'|rewrite list.Forall_forall in H2]; eauto. }
  assert (StronglySorted le sm) as Sm.
  { assert (forall x y, x ∈ sm -> y ∈ sm -> le x y) as Hs by (intros x y ??; apply Hle; set_solver).
    clear -Hs. induction sm as [|z sm IH]; constructor; [apply IH; set_solver|].
    apply list.Forall_forall. set_solver. }
  apply StronglySorted_app. split_and!; [set_solver|done|]. apply StronglySorted_app. split_and!; [set_solver|done|done].
Qed.

(** [sort_i] with the fuel given sorts every range of that many elements. *)
Definition sorts (fuel : nat) : Prop := forall l s r, s <> [] -> (length s <= fuel)%nat -> Forall elem_ok (l ++ s ++ r) ->
  exists s', sort_i tsize el_cmp fuel c (concat (l ++ s ++ r)) (off l) (off (l ++ s) - tsize) = Ret (concat (l ++ s' ++ r)) /\
    s ≡ₚ s' /\ StronglySorted le s'.

(** A recursive call of [sort_i] with the test in front of it. *)
Lemma sort_part_ok fuel l s r : sorts fuel -> (length s <= fuel)%nat -> Forall elem_ok (l ++ s ++ r) ->
  exists s', (if off l <? off (l ++ s) - tsize then sort_i tsize el_cmp fuel c (concat (l ++ s ++ r)) (off l) (off (l ++ s) - tsize)
    else Ret (concat (l ++ s ++ r))) = Ret (concat (l ++ s' ++ r)) /\ s ≡ₚ s' /\ StronglySorted le s'.
Proof.
  intros IH Hf Hok. destruct (Z.ltb_spec (off l) (off (l ++ s) - tsize)) as [Hlt|Hge].
  - apply (IH l s r); [|done|done]. intros ->. rewrite app_nil_r in Hlt. lia.
  - exists s. split_and!; [done..|]. destruct s as [|x [|y s]]; [by repeat constructor..|].
    rewrite off_app, !off_cons in Hge. pose proof (off_nonneg s). lia.
Qed.

(** The element in the middle of the range. *)
Lemma middle_elem l s : s <> [] -> exists sa p sb, s = sa ++ p :: sb /\
  off l + (off (l ++ s) - tsize - off l) / tsize / 2 * tsize = off (l ++ sa).
Proof.
  intros Hne. set (k := ((length s - 1) / 2)%nat).
  assert (k < length s)%nat as Hk by (unfold k; apply Nat.Div0.div_lt_upper_bound; destruct s; [done|simpl; lia]).
  destruct (lookup_lt_is_Some_2 s k Hk) as [p Hp]. exists (take k s), p, (drop (S k) s).
  split; [by rewrite take_drop_middle|].
  rewrite !off_app. replace (off l + off s - tsize - off l) with (Z.of_nat (length s - 1) * tsize).
  2: { unfold off. destruct s; [done|]. simpl length. lia. }
  rewrite Z.div_mul by lia. rewrite <- (Nat2Z.inj_div _ 2). fold k. unfold off. rewrite length_take. lia.
Qed.

Lemma sort_i_ok fuel : sorts fuel.
Proof.
  induction fuel as [|fuel IH]; intros l s r Hne Hf Hok; [destruct s; [done|simpl in Hf; lia]|].
  cbn [sort_i]. destruct (middle_elem l s Hne) as (sa & p & sb & Es & ->).
  rewrite (read_elem (l ++ sa) p (sb ++ r)); [|by rewrite Es, <- !app_assoc|by rewrite Es, <- !app_assoc in Hok; rewrite <- app_assoc|done].
  cbn [mbind res_bind].
  destruct (partition_ok (S (length (concat (l ++ s ++ r)))) l [] s [] r p (concat (l ++ s ++ r)) (off l) (off (l ++ s) - tsize))
    as (s1 & sm & s2 & -> & Hpart); try done.
  { right. rewrite Es. apply Exists_app. right. apply Exists_cons_hd. split; apply le_refl. }
  { by rewrite app_nil_r. }
  { pose proof (length_le_mem _ Hok) as Hl. rewrite !length_app in Hl. lia. }
  cbn [mbind res_bind]. rewrite app_nil_r in Hpart. simpl app in Hpart.
  destruct Hpart as (Hperm & Hrest). pose proof (Permutation_length Hperm) as Hlen. rewrite !length_app in Hlen.
  assert (length s1 < length s /\ length s2 < length s)%nat as [L1 L2].
  { destruct Hrest as (_ & _ & Hn1 & Hn2). split; [destruct sm, s2|destruct s1, sm]; simpl in *; (done || lia). }
  assert (Forall elem_ok (l ++ s1 ++ sm ++ s2 ++ r)) as Hok1.
  { apply Forall_app in Hok as [Hl [Hs Hr]%Forall_app]. rewrite Hperm in Hs.
    apply Forall_app in Hs as [Hs1 [Hsm Hs2]%Forall_app]. by repeat (apply Forall_app_2; [done|]). }
  destruct (sort_part_ok fuel l s1 (sm ++ s2 ++ r) IH ltac:(lia) Hok1) as (s1' & -> & P1 & S1). cbn [mbind res_bind].
  assert (off (l ++ s1 ++ sm) = off (l ++ s1' ++ sm)) as ->.
  { rewrite !off_app, (off_length s1 s1'); [done|by apply Permutation_length]. }
  assert (off (l ++ s) = off ((l ++ s1' ++ sm) ++ s2)) as ->.
  { rewrite <- !app_assoc, !off_app, (off_length s (s1' ++ sm ++ s2)), !off_app; [done|]. by rewrite Hperm, P1. }
  assert (forall x, l ++ s1' ++ sm ++ x ++ r = (l ++ s1' ++ sm) ++ x ++ r) as Ea by (intros x; by rewrite <- !app_assoc).
  rewrite Ea. destruct (sort_part_ok fuel (l ++ s1' ++ sm) s2 r IH ltac:(lia)) as (s2' & -> & P2 & S2).
  { rewrite <- Ea. apply Forall_app in Hok1 as [Hl [Hs Hr]%Forall_app]. rewrite P1 in Hs. by repeat (apply Forall_app_2; [done|]). }
  destruct (StronglySorted_parts p s s1 sm s2 s1' s2' (conj Hperm Hrest) P1 P2 S1 S2) as [Hp' Hs'].
  exists (s1' ++ sm ++ s2'). split_and!; [by rewrite <- !app_assoc|done|done].
Qed.

End Sort.

(** ** Properties *)

(** An array of the elements [els]; the block may go on with the places of
    removed elements. *)
Definition holds (tsize : Z) (a : t) (els slack : list (list Z)) : Prop :=
  len a = off tsize els /\ Forall (elem_ok tsize) (els ++ slack) /\
  (data a = Some (concat (els ++ slack)) \/ data a = None /\ els = [] /\ slack = []).

Lemma sort_with_ok {D} tsize (el_cmp : list Z -> list Z -> Z) (c : cmpfunc D) (a : t) els slack :
  0 < tsize < 2 ^ 64 -> StrictWeakOrder (run_cmp el_cmp c) -> holds tsize a els slack ->
  exists a' els', sort_with tsize el_cmp c a = Ret a' /\ holds tsize a' els' slack /\
    els ≡ₚ els' /\ StronglySorted (le el_cmp c) els'.
Proof.
  intros Ht Hswo (Hlen & Hok & Hd). unfold sort_with. rewrite Hlen.
  destruct (Z.leb_spec (off tsize els) tsize) as [Hle|Hgt].
  - exists a, els. split_and!; [done|by split_and!|done|].
    destruct els as [|x [|y els]]; [by repeat constructor..|]. rewrite !off_cons in Hle.
    pose proof (off_nonneg tsize Ht els). lia.
  - destruct Hd as [-> | (_ & -> & _)]; [|rewrite off_nil in Hgt; lia].
    destruct (sort_i_ok tsize el_cmp c Ht Hswo (S (length (concat (els ++ slack)))) [] els slack) as (els' & Hr & Hp & Hs).
    + intros ->. rewrite off_nil in Hgt. lia.
    + pose proof (length_le_mem tsize Ht _ Hok) as Hl. rewrite length_app in Hl. lia.
    + done.
    + simpl app in Hr. rewrite off_nil in Hr. rewrite Hr. cbn [mbind res_bind].
      eexists _, els'. split_and!; [done| |done|done].
      apply Forall_app in Hok as [Hok1 Hok2]. rewrite Hp in Hok1. split_and!; simpl; [|by apply Forall_app_2|by left].
      apply off_length. by apply Permutation_length.
Qed.

(** The same comparison with the order reversed. *)
Definition reverse {D} (c : cmpfunc D) : cmpfunc D :=
  match c with
  | cmp_tcmp => rcmp_tcmp
  | cmp_userF f => rcmp_userF f
  | cmp_userD f pass => rcmp_userD f pass
  | rcmp_tcmp => cmp_tcmp
  | rcmp_userF f => cmp_userF f
  | rcmp_userD f pass => cmp_userD f pass
  end.

Definition forward {D} (c : cmpfunc D) : bool :=
  match c with cmp_tcmp | cmp_userF _ | cmp_userD _ _ => true | _ => false end.

Lemma run_cmp_reverse {D} el_cmp (c : cmpfunc D) x y : forward c = true ->
  run_cmp el_cmp (reverse c) x y = s32 (- run_cmp el_cmp c x y).
Proof. by destruct c. Qed.

(** C24. Every sort of an array (by the order of the elements, by a function,
    by a function with a pointer) under a comparison that is a strict weak
    order leaves the same elements in that order, touches nothing behind them
    and reads and writes no byte outside of the array. *)
Theorem sort_sorts {D} tsize (el_cmp : list Z -> list Z -> Z) (c : cmpfunc D) (a : t) els slack :
  0 < tsize < 2 ^ 64 -> StrictWeakOrder (run_cmp el_cmp c) -> holds tsize a els slack ->
  exists a' els', sort_with tsize el_cmp c a = Ret a' /\ holds tsize a' els' slack /\
    els ≡ₚ els' /\ StronglySorted (fun x y => ~ run_cmp el_cmp c y x < 0) els'.
Proof. apply sort_with_ok. Qed.

Definition le_compare (x y : list Z) : Z := le_value x - le_value y.

#[local] Instance le_compare_swo : StrictWeakOrder le_compare.
Proof. unfold le_compare. split; intros; lia. Qed.

Lemma sort_sorts_witness :
  exists a' els', sort_g (D:=unit) 2 le_compare (mk 8 (Some [9; 1; 7; 0; 3; 0; 8; 1; 77; 77]) []) = Ret a' /\
    holds 2 a' els' [[77; 77]] /\ [[9; 1]; [7; 0]; [3; 0]; [8; 1]] ≡ₚ els' /\
    StronglySorted (fun x y => ~ le_compare y x < 0) els'.
Proof.
  apply (sort_sorts (D:=unit) 2 le_compare cmp_tcmp _ [[9; 1]; [7; 0]; [3; 0]; [8; 1]] [[77; 77]]); [done|apply le_compare_swo|].
  split_and!; [done|by repeat constructor|by left].
Defined.

(** The reverse sorts under a comparison that is antisymmetric in its sign
    and never the least [int] leave the same elements in the opposite order. *)
Theorem rsort_sorts {D} tsize (el_cmp : list Z -> list Z -> Z) (c : cmpfunc D) (a : t) els slack :
  0 < tsize < 2 ^ 64 -> StrictWeakOrder (run_cmp el_cmp c) -> forward c = true ->
  (forall x y, - 2 ^ 31 < run_cmp el_cmp c x y < 2 ^ 31 /\ (0 < run_cmp el_cmp c x y <-> run_cmp el_cmp c y x < 0)) ->
  holds tsize a els slack ->
  exists a' els', sort_with tsize el_cmp (reverse c) a = Ret a' /\ holds tsize a' els' slack /\
    els ≡ₚ els' /\ StronglySorted (fun x y => ~ run_cmp el_cmp c x y < 0) els'.
Proof.
  intros Ht Hswo Hf Hr Ha.
  assert (forall x y, run_cmp el_cmp (reverse c) x y < 0 <-> run_cmp el_cmp c y x < 0) as Hrev.
  { intros x y. destruct (Hr x y) as [Hxy <-]. rewrite run_cmp_reverse by done.
    rewrite (swrap_id 32) by (unfold in_s; lia). lia. }
  assert (StrictWeakOrder (run_cmp el_cmp (reverse c))) as Hswo'.
  { split; intros x y; [|intros z]; rewrite !Hrev; [apply swo_asym|]. intros H1 H2. by apply (swo_trans z y x). }
  destruct (sort_with_ok tsize el_cmp (reverse c) a els slack Ht Hswo' Ha) as (a' & els' & Hs & Hh & Hp & Hsorted).
  exists a', els'. split_and!; try done. eapply StronglySorted_weaken; [|exact Hsorted]. intros x y. unfold le. by rewrite Hrev.
Qed.

Definition byte_compare (x y : list Z) (base : Z) : Z :=
  Z.min 1 (Z.max (-1) ((le_value x - base) mod 256 - (le_value y - base) mod 256)).

Lemma rsort_sorts_witness :
  exists a' els', rsortD_g 1 le_compare byte_compare 100 (mk 3 (Some [99; 101; 150]) []) = Ret a' /\ holds 1 a' els' [] /\
    [[99]; [101]; [150]] ≡ₚ els' /\ StronglySorted (fun x y => ~ byte_compare x y 100 < 0) els'.
Proof.
  apply (rsort_sorts 1 le_compare (cmp_userD byte_compare 100) _ [[99]; [101]; [150]] []); [done| |done| |].
  - split; simpl; unfold byte_compare; intros; lia.
  - simpl. unfold byte_compare. intros. lia.
  - split_and!; [done|by repeat constructor|by left].
Defined.

(** A comparison that is no order can run out of the array. *)
Example sort_inconsistent : sort_g (D:=unit) 1 (fun _ _ => -1) (mk 2 (Some [1; 2]) []) = Crash OutOfBounds.
Proof. reflexivity. Qed.
