(* ===== verification/ArraySpec.v ===== *)
(** * The operations of SArray against lists

    An array holds a list of elements; every operation of [SArray] is the
    operation on that list, as long as the length in bytes fits its 32 bits. *)

From S2P Require Import Prelude Machine Mem Array ArraySort.

(** The operations of a client, and what they give back. *)
Inductive op :=
| Resize (n : Z)
| ResizeInit (n : Z) (v : list Z)
| Append (v : list Z)
| AppendNew
| ShrinkEnd (n : Z)
| Get (i : Z)
| Set_ (i : Z) (v : list Z)
| Count.

Inductive result :=
| RUnit
| RPlace (off : Z)
| RElem (v : list Z)
| RCount (n : Z).

Section Spec.
Variable tsize : Z.
Variable v_init : list Z.
Variable trivial_dtor : bool.
Variable garbage : nat -> Z.

Definition run_op (a : t) (o : op) : res (result * t) :=
  match o with
  | Resize n => a ← resize tsize v_init trivial_dtor garbage a n; Ret (RUnit, a)
  | ResizeInit n v => a ← resizeInit tsize trivial_dtor garbage a n v; Ret (RUnit, a)
  | Append v => a ← append tsize trivial_dtor garbage a v; Ret (RUnit, a)
  | AppendNew => r ← accAppendingNew tsize v_init trivial_dtor garbage a; Ret (RPlace (fst r), snd r)
  | ShrinkEnd n => a ← shrinkEnd tsize trivial_dtor garbage a n; Ret (RUnit, a)
  | Get i => v ← get_elem tsize a i; Ret (RElem v, a)
  | Set_ i v => a ← set_elem tsize a i v; Ret (RUnit, a)
  | Count => Ret (RCount (count tsize a), a)
  end.

Fixpoint run_ops (a : t) (os : list op) : res (list result * t) :=
  match os with
  | [] => Ret ([], a)
  | o :: os => r ← run_op a o; rs ← run_ops (snd r) os; Ret (fst r :: fst rs, snd rs)
  end.

(** The same on lists; [None] where an index is out of range. *)
Definition list_op (l : list (list Z)) (o : op) : option (result * list (list Z)) :=
  let grow n v := take (Z.to_nat n) l ++ repeat v (Z.to_nat n - length l) in
  match o with
  | Resize n => Some (RUnit, grow n v_init)
  | ResizeInit n v => Some (RUnit, grow n v)
  | Append v => Some (RUnit, l ++ [v])
  | AppendNew => Some (RPlace (tsize * Z.of_nat (length l)), l ++ [v_init])
  | ShrinkEnd n => Some (RUnit, take (length l - Z.to_nat n) l)
  | Get i => v ← l !! Z.to_nat i; Some (RElem v, l)
  | Set_ i v => _ ← l !! Z.to_nat i; Some (RUnit, <[Z.to_nat i := v]> l)
  | Count => Some (RCount (Z.of_nat (length l)), l)
  end.

Fixpoint list_ops (l : list (list Z)) (os : list op) : option (list result * list (list Z)) :=
  match os with
  | [] => Some ([], l)
  | o :: os => r ← list_op l o; rs ← list_ops (snd r) os; Some (fst r :: fst rs, snd rs)
  end.

(** Arguments the operation is meant for: sizes whose bytes fit [unsigned],
    values of one element, a shrink by no more than there is. *)
Definition op_ok (l : list (list Z)) (o : op) : Prop :=
  match o with
  | Resize n => 0 <= n /\ tsize * n < 2 ^ 32
  | ResizeInit n v => 0 <= n /\ tsize * n < 2 ^ 32 /\ elem_ok tsize v
  | Append v => tsize * (Z.of_nat (length l) + 1) < 2 ^ 32 /\ elem_ok tsize v
  | AppendNew => tsize * (Z.of_nat (length l) + 1) < 2 ^ 32
  | ShrinkEnd n => 0 <= n <= Z.of_nat (length l)
  | Get i => 0 <= i < 2 ^ 32
  | Set_ i v => 0 <= i < 2 ^ 32 /\ elem_ok tsize v
  | Count => True
  end.

Fixpoint ops_ok (l : list (list Z)) (os : list op) : Prop :=
  match os with
  | [] => True
  | o :: os => op_ok l o /\ match list_op l o with Some (_, l') => ops_ok l' os | None => False end
  end.

Hypothesis Htsize : 0 < tsize < 2 ^ 32.
Hypothesis Hinit : elem_ok tsize v_init.

(** ** The block *)

Abbreviation offset := (off tsize).
Abbreviation elems_ok := (Forall (elem_ok tsize)).

Definition fits (els : list (list Z)) : Prop := offset els < 2 ^ 32.

Lemma clength l : elems_ok l -> Z.of_nat (length (concat l)) = offset l.
Proof. apply concat_length. Qed.

Lemma offset_nonneg l : 0 <= offset l.
Proof. unfold off. lia. Qed.

Lemma offset_take n l : (n <= length l)%nat -> offset (take n l) = tsize * Z.of_nat n.
Proof. intros H. unfold off. by rewrite length_take, Nat.min_l. Qed.

Lemma realloc_shorter l slack n : elems_ok (l ++ slack) -> (n <= length l)%nat ->
  reallocList garbage (Some (concat (l ++ slack))) (tsize * Z.of_nat n) = concat (take n l).
Proof.
  intros Hok Hn. unfold reallocList. simpl.
  apply Forall_app in Hok as [Hl _].
  assert (l ++ slack = take n l ++ (drop n l ++ slack)) as -> by (by rewrite app_assoc, take_drop). rewrite concat_app. assert (elems_ok (take n l)) as Ht by (by apply Forall_take).
  pose proof (clength _ Ht) as Hc. rewrite offset_take in Hc by done.
  rewrite <- Hc, Nat2Z.id, take_app_length, length_app.
  replace (length (concat (take n l)) - _)%nat with O by lia. simpl. by rewrite app_nil_r.
Qed.

Lemma realloc_longer l slack nsize : elems_ok (l ++ slack) -> offset l <= nsize ->
  exists rest, reallocList garbage (Some (concat (l ++ slack))) nsize = concat l ++ rest /\
    Z.of_nat (length rest) = nsize - offset l.
Proof.
  intros Hok Hn. apply Forall_app in Hok as [Hl _]. pose proof (clength l Hl) as Hc. pose proof (offset_nonneg l).
  unfold reallocList. simpl. rewrite concat_app, take_app_ge, <- app_assoc by lia.
  eexists. split; [reflexivity|]. rewrite !length_app, length_take, length_fmap, length_seq. lia.
Qed.

Lemma realloc_none nsize : 0 <= nsize -> exists rest, reallocList garbage None nsize = rest /\ Z.of_nat (length rest) = nsize.
Proof.
  intros Hn. eexists. split; [reflexivity|]. unfold reallocList. simpl.
  rewrite take_nil. simpl. rewrite length_fmap, length_seq. lia.
Qed.

(** ** Destruction *)

(** The offsets of the elements from [n] up to [m]. *)
Definition offsets (n m : nat) : list Z := (fun j => tsize * Z.of_nat j) <$> seq n (m - n).

Definition destroyed (n m : nat) (ds : list Z) : list Z := if trivial_dtor then ds else offsets n m ++ ds.

Lemma offsets_S n m : (n <= m)%nat -> offsets n (S m) = offsets n m ++ [tsize * Z.of_nat m].
Proof.
  intros H. unfold offsets. replace (S m - n)%nat with (S (m - n)) by lia. rewrite seq_S, fmap_app. simpl.
  by replace (n + (m - n))%nat with m by lia.
Qed.

Lemma trunc_loop_ok k : forall fuel a n, (k <= fuel)%nat -> tsize * Z.of_nat (n + k) < 2 ^ 32 ->
  match data a with Some mem => tsize * Z.of_nat (n + k) <= Z.of_nat (length mem) | None => k = 0%nat end ->
  trunc_loop tsize trivial_dtor fuel a (tsize * Z.of_nat (n + k)) (tsize * Z.of_nat n) =
    Ret (mk (len a) (data a) (destroyed n (n + k) (dtors a))).
Proof.
  induction k as [|k IH]; intros fuel a n Hf Hb Hd.
  - rewrite Nat.add_0_r. unfold destroyed, offsets. rewrite Nat.sub_diag. destruct fuel; cbn [trunc_loop]; rewrite Z.eqb_refl;
      destruct a, trivial_dtor; done.
  - destruct fuel as [|fuel]; [lia|]. cbn [trunc_loop].
    rewrite (proj2 (Z.eqb_neq _ _)) by nia.
    replace (tsize * Z.of_nat (n + S k) - tsize) with (tsize * Z.of_nat (n + k)) by lia.
    rewrite (uwrap_id 32) by (unfold in_u; nia).
    destruct (data a) as [mem|] eqn:Ed; [|lia]. unfold destruct_at, destroyed in *. destruct trivial_dtor.
    + cbn [mbind res_bind]. rewrite IH; [by rewrite Ed|lia|nia|rewrite Ed; nia].
    + rewrite Ed. unfold mem_range.
      destruct (Z.ltb_spec (tsize * Z.of_nat (n + k)) 0); [nia|]. destruct (Z.ltb_spec tsize 0); [lia|]. simpl orb. cbv iota.
      destruct (Z.ltb_spec (Z.of_nat (length mem)) (tsize * Z.of_nat (n + k) + tsize)); [nia|].
      cbn [mbind res_bind]. rewrite IH; simpl; [|lia|nia|nia].
      f_equal. f_equal. replace (n + S k)%nat with (S (n + k)) by lia.
      rewrite offsets_S by lia. by rewrite <- app_assoc.
Qed.

Lemma p_trunc_ok a els slack n : holds tsize a els slack -> fits els -> 0 <= n <= Z.of_nat (length els) ->
  exists a', p_trunc tsize trivial_dtor garbage a n = Ret a' /\ holds tsize a' (take (Z.to_nat n) els) [] /\
    dtors a' = destroyed (Z.to_nat n) (length els) (dtors a).
Proof.
  intros (Hlen & Hok & Hd) Hfit Hn. unfold p_trunc, fits in *. rewrite Hlen.
  assert (0 <= tsize * n <= offset els) as Hb by (unfold off; nia).
  rewrite (uwrap_id 32) by (unfold in_u; lia).
  replace (n * tsize) with (tsize * Z.of_nat (Z.to_nat n)) by lia. set (k := Z.to_nat n) in *.
  assert (offset els = tsize * Z.of_nat (k + (length els - k))) as Ho by (unfold off; f_equal; lia).
  assert (length els - k <= Z.to_nat (offset els))%nat as Hfuel by nia.
  revert Hfuel. generalize (Z.to_nat (offset els)) as fuel. intros fuel Hfuel.
  rewrite Ho. rewrite trunc_loop_ok; [|done|lia|].
  - cbn [mbind res_bind]. eexists. split; [reflexivity|].
    replace (k + (length els - k))%nat with (length els) by lia.
    split; [|done]. split_and!; cbn [resize_g len data].
    + rewrite offset_take by lia. apply uwrap_id. unfold in_u. nia.
    + rewrite app_nil_r. apply Forall_take. by apply Forall_app in Hok as [Hok _].
    + left. rewrite app_nil_r. destruct Hd as [-> | (-> & -> & ->)]; [by rewrite realloc_shorter by (done || lia)|].
      assert (k = 0%nat) as -> by (simpl in *; lia). by rewrite Z.mul_0_r.
  - destruct Hd as [-> | (-> & -> & ->)]; [|simpl in *; lia].
    rewrite <- Ho, <- clength by (by apply Forall_app in Hok as [Hok _]). rewrite concat_app, length_app. lia.
Qed.

(** ** Construction *)

Lemma construct_ok l x rest v ds n i : elems_ok l -> elem_ok tsize v -> Z.of_nat (length x) = tsize -> i = offset l ->
  construct (mk n (Some (concat l ++ x ++ rest)) ds) i v = Ret (mk n (Some (concat (l ++ [v]) ++ rest)) ds).
Proof.
  intros Hl Hv Hx ->. unfold construct. cbn [data].
  rewrite (mem_store_at _ (concat l) x rest); [|done|by rewrite clength|unfold elem_ok in Hv; lia].
  cbn [mbind res_bind]. by rewrite concat_app, concat_cons, <- !app_assoc.
Qed.

Lemma split_block k (rest : list Z) : Z.of_nat (length rest) = tsize * Z.of_nat (S k) ->
  exists x rest', rest = x ++ rest' /\ Z.of_nat (length x) = tsize /\ Z.of_nat (length rest') = tsize * Z.of_nat k.
Proof.
  intros Hl. exists (take (Z.to_nat tsize) rest), (drop (Z.to_nat tsize) rest).
  rewrite take_drop, length_take, length_drop. split_and!; [done|nia|nia].
Qed.

Lemma construct_loop_ok k : forall fuel l rest n ds, (k <= fuel)%nat -> elems_ok l ->
  Z.of_nat (length rest) = tsize * Z.of_nat k -> offset l + tsize * Z.of_nat k < 2 ^ 32 ->
  construct_loop tsize v_init fuel (mk n (Some (concat l ++ rest)) ds) (offset l) (offset l + tsize * Z.of_nat k) =
    Ret (mk n (Some (concat (l ++ repeat v_init k))) ds).
Proof.
  induction k as [|k IH]; intros fuel l rest n ds Hf Hl Hr Hb.
  - rewrite Z.mul_0_r in Hr. destruct rest; [|done]. rewrite Z.mul_0_r, Z.add_0_r.
    simpl repeat. destruct fuel; cbn [construct_loop]; by rewrite Z.eqb_refl, !app_nil_r.
  - destruct fuel as [|fuel]; [lia|]. cbn [construct_loop]. rewrite (proj2 (Z.eqb_neq _ _)) by lia.
    destruct (split_block k rest Hr) as (x & rest' & -> & Hx & Hr').
    rewrite construct_ok by done. cbn [mbind res_bind].
    assert (offset (l ++ [v_init]) = offset l + tsize) as Ho by (rewrite off_app, off_cons, off_nil; lia).
    pose proof (offset_nonneg l). rewrite (uwrap_id 32) by (unfold in_u; lia). rewrite <- Ho.
    replace (offset l + tsize * Z.of_nat (S k)) with (offset (l ++ [v_init]) + tsize * Z.of_nat k) by lia.
    rewrite IH; [by rewrite <- app_assoc|lia|apply Forall_app_2; [done|by repeat constructor]|done|lia].
Qed.

Lemma init_loop_ok v k : forall fuel l rest n ds, (k <= fuel)%nat -> elems_ok l -> elem_ok tsize v ->
  Z.of_nat (length rest) = tsize * Z.of_nat k -> offset l + tsize * Z.of_nat k < 2 ^ 32 ->
  init_loop tsize fuel (mk n (Some (concat l ++ rest)) ds) (Z.of_nat (length l)) (Z.of_nat (length l + k)) v =
    Ret (mk n (Some (concat (l ++ repeat v k))) ds).
Proof.
  induction k as [|k IH]; intros fuel l rest n ds Hf Hl Hv Hr Hb.
  - rewrite Z.mul_0_r in Hr. destruct rest; [|done]. rewrite Nat.add_0_r.
    simpl repeat. destruct fuel; cbn [init_loop]; by rewrite Z.ltb_irrefl, !app_nil_r.
  - destruct fuel as [|fuel]; [lia|]. cbn [init_loop]. rewrite (proj2 (Z.ltb_lt _ _)) by lia.
    destruct (split_block k rest Hr) as (x & rest' & -> & Hx & Hr').
    rewrite construct_ok by (done || (unfold off; lia)). cbn [mbind res_bind].
    assert (offset (l ++ [v]) = offset l + tsize) as Ho by (rewrite off_app, off_cons, off_nil; lia).
    pose proof (offset_nonneg l). rewrite (uwrap_id 32) by (unfold in_u, off in *; nia).
    replace (Z.of_nat (length l) + 1) with (Z.of_nat (length (l ++ [v]))) by (rewrite length_app; simpl; lia).
    replace (length l + S k)%nat with (length (l ++ [v]) + k)%nat by (rewrite length_app; simpl; lia).
    rewrite IH; [by rewrite <- app_assoc|lia|apply Forall_app_2; [done|by repeat constructor]|done|done|lia].
Qed.

(** The array right after [resize_g] to at least its length. *)
Lemma resize_g_longer a els slack k : holds tsize a els slack -> offset els + tsize * Z.of_nat k < 2 ^ 32 ->
  exists rest, resize_g garbage a (offset els + tsize * Z.of_nat k) =
      mk (offset els + tsize * Z.of_nat k) (Some (concat els ++ rest)) (dtors a) /\
    Z.of_nat (length rest) = tsize * Z.of_nat k.
Proof.
  intros (Hlen & Hok & Hd) Hb. unfold resize_g. pose proof (offset_nonneg els). rewrite (uwrap_id 32) by (unfold in_u; lia).
  destruct Hd as [-> | (-> & -> & ->)].
  - destruct (realloc_longer els slack (offset els + tsize * Z.of_nat k) Hok ltac:(lia)) as (rest & -> & Hr).
    exists rest. split; [done|lia].
  - destruct (realloc_none (offset [] + tsize * Z.of_nat k)) as (rest & -> & Hr); [lia|].
    exists rest. split; [done|]. rewrite Hr, off_nil. lia.
Qed.

Lemma holds_repeat els k v ds : elems_ok els -> elem_ok tsize v ->
  holds tsize (mk (offset els + tsize * Z.of_nat k) (Some (concat (els ++ repeat v k))) ds) (els ++ repeat v k) [].
Proof.
  intros Hl Hv. split_and!; simpl; rewrite ?app_nil_r; [|apply Forall_app_2; [done|by apply Forall_repeat]|by left].
  rewrite off_app. f_equal. unfold off. by rewrite repeat_length.
Qed.

(** What [resize] and [resizeInit] make of the list. *)
Definition resized (els : list (list Z)) (n : Z) (v : list Z) : list (list Z) :=
  take (Z.to_nat n) els ++ repeat v (Z.to_nat n - length els).

Lemma resized_shorter els n v : n <= Z.of_nat (length els) -> resized els n v = take (Z.to_nat n) els.
Proof. intros H. unfold resized. replace (_ - _)%nat with O by lia. by rewrite app_nil_r. Qed.

Lemma resized_longer els n v : Z.of_nat (length els) <= n -> resized els n v = els ++ repeat v (Z.to_nat n - length els).
Proof. intros H. unfold resized. by rewrite take_ge by lia. Qed.

Lemma resize_ok a els slack n : holds tsize a els slack -> fits els -> 0 <= n -> tsize * n < 2 ^ 32 ->
  exists a', resize tsize v_init trivial_dtor garbage a n = Ret a' /\ holds tsize a' (resized els n v_init) [] /\
    dtors a' = destroyed (Z.to_nat n) (length els) (dtors a).
Proof.
  intros Ha Hfit Hn Hb. unfold resize. pose proof Ha as (Hlen & Hok & _). rewrite Hlen.
  rewrite (uwrap_id 64) by (unfold in_u; lia).
  destruct (Z.ltb_spec (n * tsize) (offset els)) as [Hlt|Hge].
  - unfold off in Hlt. rewrite resized_shorter by nia. by apply (p_trunc_ok a els slack); [..|nia].
  - assert (Z.of_nat (length els) <= n) as Hle by (unfold off in Hge; nia). rewrite resized_longer by done.
    rewrite (uwrap_id 32) by (unfold in_u; lia).
    assert (n * tsize = offset els + tsize * Z.of_nat (Z.to_nat n - length els)) as E by (unfold off; nia).
    assert (Z.to_nat n - length els <= S (Z.to_nat (n * tsize)))%nat as Hfuel by nia.
    revert Hfuel. generalize (S (Z.to_nat (n * tsize))) as fuel. intros fuel Hfuel.
    rewrite E. destruct (resize_g_longer a els slack (Z.to_nat n - length els) Ha ltac:(lia)) as (rest & -> & Hr).
    apply Forall_app in Hok as [Hl _].
    rewrite construct_loop_ok; [|done|done|done|lia]. eexists. split; [reflexivity|].
    split; [by apply holds_repeat|]. unfold destroyed, offsets.
    replace (length els - Z.to_nat n)%nat with O by lia. simpl. by destruct trivial_dtor.
Qed.

Lemma resizeInit_ok a els slack n v : holds tsize a els slack -> fits els -> 0 <= n -> tsize * n < 2 ^ 32 -> elem_ok tsize v ->
  exists a', resizeInit tsize trivial_dtor garbage a n v = Ret a' /\ holds tsize a' (resized els n v) [] /\
    dtors a' = destroyed (Z.to_nat n) (length els) (dtors a).
Proof.
  intros Ha Hfit Hn Hb Hv. unfold resizeInit. pose proof Ha as (Hlen & Hok & _). rewrite Hlen.
  rewrite (uwrap_id 64) by (unfold in_u; lia).
  destruct (Z.ltb_spec (n * tsize) (offset els)) as [Hlt|Hge].
  - unfold off in Hlt. rewrite resized_shorter by nia. by apply (p_trunc_ok a els slack); [..|nia].
  - assert (Z.of_nat (length els) <= n) as Hle by (unfold off in Hge; nia). rewrite resized_longer by done.
    assert (n * tsize = offset els + tsize * Z.of_nat (Z.to_nat n - length els)) as E by (unfold off; nia).
    rewrite E. destruct (resize_g_longer a els slack (Z.to_nat n - length els) Ha ltac:(lia)) as (rest & -> & Hr).
    apply Forall_app in Hok as [Hl _].
    assert (offset els / tsize = Z.of_nat (length els)) as -> by (unfold off; rewrite Z.mul_comm, Z.div_mul by lia; done).
    pose proof (init_loop_ok v (Z.to_nat n - length els) (Z.to_nat n) els rest) as Hi.
    replace (Z.of_nat (length els + (Z.to_nat n - length els))) with n in Hi by lia.
    rewrite Hi by (done || lia). eexists. split; [reflexivity|].
    split; [by apply holds_repeat|]. unfold destroyed, offsets.
    replace (length els - Z.to_nat n)%nat with O by lia. simpl. by destruct trivial_dtor.
Qed.

(** ** Elements *)

Lemma get_elem_ok a els slack i : holds tsize a els slack -> fits els -> 0 <= i < 2 ^ 32 ->
  get_elem tsize a i = match els !! Z.to_nat i with Some v => Ret v | None => Crash AssertFailed end.
Proof.
  intros (Hlen & Hok & Hd) Hfit Hi. unfold get_elem. rewrite Hlen, (uwrap_id 64) by (unfold in_u; nia).
  destruct (els !! Z.to_nat i) as [v|] eqn:Ev.
  - pose proof (lookup_lt_Some _ _ _ Ev) as Hlt. rewrite (proj2 (Z.ltb_lt _ _)) by (unfold off; nia).
    destruct Hd as [-> | (_ & -> & _)]; [|done].
    pose proof (take_drop_middle els (Z.to_nat i) v Ev) as E. rewrite <- E, <- app_assoc in Hok |- *.
    apply (read_elem tsize (take (Z.to_nat i) els) v (drop (S (Z.to_nat i)) els ++ slack)); [done|done|].
    rewrite offset_take by lia. lia.
  - apply lookup_ge_None_1 in Ev. rewrite (proj2 (Z.ltb_ge _ _)); [done|]. unfold off. nia.
Qed.

Lemma set_elem_ok a els slack i v : holds tsize a els slack -> fits els -> 0 <= i < 2 ^ 32 -> elem_ok tsize v ->
  match els !! Z.to_nat i with
  | Some _ => exists a', set_elem tsize a i v = Ret a' /\ holds tsize a' (<[Z.to_nat i := v]> els) slack
  | None => set_elem tsize a i v = Crash AssertFailed
  end.
Proof.
  intros (Hlen & Hok & Hd) Hfit Hi Hv. unfold set_elem. rewrite Hlen, (uwrap_id 64) by (unfold in_u; nia).
  destruct (els !! Z.to_nat i) as [w|] eqn:Ew.
  - pose proof (lookup_lt_Some _ _ _ Ew) as Hlt. rewrite (proj2 (Z.ltb_lt _ _)) by (unfold off; nia).
    destruct a as [la da ds]. simpl in *. destruct Hd as [-> | (_ & -> & _)]; [|done].
    pose proof (take_drop_middle els (Z.to_nat i) w Ew) as E.
    rewrite insert_take_drop by lia. set (l := take (Z.to_nat i) els) in *. set (r := drop (S (Z.to_nat i)) els) in *.
    assert (i * tsize = offset l) as Hoff by (unfold l; rewrite offset_take by lia; lia).
    rewrite <- E, <- app_assoc in Hok. apply Forall_app in Hok as [Hl [Hw Hr]%Forall_cons_1].
    assert (concat (els ++ slack) = concat l ++ w ++ concat (r ++ slack)) as ->.
    { by rewrite <- E, <- app_assoc, concat_app. }
    rewrite (construct_ok l w (concat (r ++ slack)) v) by done.
    eexists. split; [reflexivity|]. split_and!; simpl.
    + rewrite Hlen, <- E. apply off_length. by rewrite !length_app.
    + rewrite <- app_assoc. apply Forall_app_2; [done|]. by constructor.
    + left. by rewrite <- concat_app, <- !app_assoc.
  - apply lookup_ge_None_1 in Ew. rewrite (proj2 (Z.ltb_ge _ _)); [done|]. unfold off. nia.
Qed.

Lemma count_ok a els slack : holds tsize a els slack -> fits els -> len a / tsize = Z.of_nat (length els) /\
  count tsize a = Z.of_nat (length els).
Proof.
  intros (Hlen & _) Hfit. unfold count, fits in *. rewrite Hlen.
  assert (offset els / tsize = Z.of_nat (length els)) as -> by (unfold off; rewrite Z.mul_comm, Z.div_mul by lia; done).
  split; [done|]. apply uwrap_id. unfold in_u, off in *. nia.
Qed.

Lemma resized_one els v : resized els (Z.of_nat (length els) + 1) v = els ++ [v].
Proof.
  rewrite resized_longer by lia. by replace (Z.to_nat _ - _)%nat with 1%nat by lia.
Qed.

Lemma fits_resized els n v : 0 <= n -> tsize * n < 2 ^ 32 -> fits (resized els n v).
Proof.
  intros Hn Hb. unfold fits, resized, off. rewrite length_app, length_take, repeat_length. nia.
Qed.

(** ** One operation *)

Lemma array_op_ok a els slack o : holds tsize a els slack -> fits els -> op_ok els o ->
  match list_op els o with
  | Some (r, els') => exists a' slack', run_op a o = Ret (r, a') /\ holds tsize a' els' slack' /\ fits els'
  | None => run_op a o = Crash AssertFailed
  end.
Proof.
  intros Ha Hfit Ho. destruct (count_ok a els slack Ha Hfit) as [Hdiv Hcount].
  destruct o as [n|n v|v| |n|i|i v|]; cbn [run_op list_op op_ok] in *.
  - destruct Ho as [Hn Hb]. destruct (resize_ok a els slack n Ha Hfit Hn Hb) as (a' & -> & Ha' & _).
    exists a', []. split_and!; [done|done|by apply fits_resized].
  - destruct Ho as (Hn & Hb & Hv). destruct (resizeInit_ok a els slack n v Ha Hfit Hn Hb Hv) as (a' & -> & Ha' & _).
    exists a', []. split_and!; [done|done|by apply fits_resized].
  - destruct Ho as [Hb Hv]. unfold append. rewrite Hdiv, (uwrap_id 32) by (unfold in_u; nia).
    destruct (resizeInit_ok a els slack (Z.of_nat (length els) + 1) v Ha Hfit) as (a' & -> & Ha' & _); [lia..|done|].
    rewrite resized_one in Ha'. exists a', []. split_and!; [done|done|]. rewrite <- resized_one. apply fits_resized; lia.
  - unfold accAppendingNew. rewrite Hdiv, (uwrap_id 32) by (unfold in_u; nia).
    destruct (resize_ok a els slack (Z.of_nat (length els) + 1) Ha Hfit) as (a' & -> & Ha' & _); [lia..|].
    rewrite resized_one in Ha'. exists a', []. cbn [mbind res_bind fst snd]. split_and!; [|done|].
    + f_equal. f_equal. f_equal. destruct Ha' as (-> & _). rewrite off_app, off_cons, off_nil. unfold off. lia.
    + rewrite <- resized_one. apply fits_resized; lia.
  - unfold shrinkEnd. rewrite Hcount. unfold fits, off in Hfit. rewrite (uwrap_id 32) by (unfold in_u; nia).
    destruct (p_trunc_ok a els slack (Z.of_nat (length els) - n) Ha Hfit) as (a' & -> & Ha' & _); [lia|].
    exists a', []. cbn [mbind res_bind]. replace (length els - Z.to_nat n)%nat with (Z.to_nat (Z.of_nat (length els) - n)) by lia.
    split_and!; [done|done|]. unfold fits, off. rewrite length_take. nia.
  - rewrite (get_elem_ok a els slack) by done. destruct (els !! Z.to_nat i) as [v|]; [|done].
    cbn [mbind option_bind res_bind]. exists a, slack. by split_and!.
  - destruct Ho as [Hi Hv]. pose proof (set_elem_ok a els slack i v Ha Hfit Hi Hv) as H.
    destruct (els !! Z.to_nat i) as [w|]; [|by rewrite H]. destruct H as (a' & -> & Ha').
    cbn [mbind option_bind res_bind]. exists a', slack. split_and!; [done|done|].
    unfold fits, off in *. by rewrite length_insert.
  - exists a, slack. rewrite Hcount. by split_and!.
Qed.

Lemma array_ops_ok os : forall a els slack, holds tsize a els slack -> fits els -> ops_ok els os ->
  exists rs els' a' slack', list_ops els os = Some (rs, els') /\ run_ops a os = Ret (rs, a') /\ holds tsize a' els' slack'.
Proof.
  induction os as [|o os IH]; intros a els slack Ha Hfit Hok; [by exists [], els, a, slack|].
  cbn [ops_ok] in Hok. destruct Hok as [Ho Hos]. pose proof (array_op_ok a els slack o Ha Hfit Ho) as H.
  cbn [list_ops run_ops]. destruct (list_op els o) as [[r els1]|]; [|done]. destruct H as (a1 & slack1 & -> & Ha1 & Hfit1).
  destruct (IH a1 els1 slack1 Ha1 Hfit1 Hos) as (rs & els' & a' & slack' & Hl & Hr & Ha').
  cbn [mbind option_bind res_bind fst snd]. rewrite Hl, Hr. cbn [mbind option_bind res_bind fst snd].
  by exists (r :: rs), els', a', slack'.
Qed.

(** ** remove *)

Lemma copy_within_apart mem pre old mid new post : mem = pre ++ old ++ mid ++ new ++ post -> length old = length new ->
  copy_within mem (Z.of_nat (length pre)) (Z.of_nat (length (pre ++ old ++ mid))) (Z.of_nat (length new)) =
    Ret (pre ++ new ++ mid ++ new ++ post).
Proof.
  intros -> Hl. unfold copy_within. rewrite (proj2 (orb_true_iff _ _)).
  2: { left. apply orb_true_iff. right. apply Z.leb_le. rewrite !length_app. lia. }
  rewrite (mem_range_at _ (pre ++ old ++ mid) new post) by (rewrite <- ?app_assoc; done). cbn [mbind res_bind].
  by apply mem_store_app.
Qed.

Lemma remove_trivial_ok a els slack idx : trivial_dtor = true -> holds tsize a els slack -> fits els ->
  (idx < length els)%nat ->
  if (length els - idx <=? 2)%nat
  then exists a' slack', remove tsize trivial_dtor a (Z.of_nat idx) = Ret a' /\ holds tsize a' (delete idx els) slack'
  else remove tsize trivial_dtor a (Z.of_nat idx) = Crash BadCopy.
Proof.
  intros Ht (Hlen & Hok & Hd) Hfit Hi. destruct (lookup_lt_is_Some_2 els idx Hi) as [x Hx].
  pose proof (take_drop_middle els idx x Hx) as E. rewrite delete_take_drop.
  set (l := take idx els) in *. set (r := drop (S idx) els) in *.
  assert (length l = idx) as Hll by (unfold l; rewrite length_take; lia).
  assert (length els = idx + S (length r))%nat as Hle by (rewrite <- E, length_app; simpl; lia).
  unfold fits in Hfit. assert (offset els = offset l + tsize + offset r) as Ho by (rewrite <- E, off_app, off_cons; lia).
  pose proof (offset_nonneg l). pose proof (offset_nonneg r).
  assert (Z.of_nat idx * tsize = offset l) as Hol by (unfold off; lia).
  unfold remove, destruct_at. rewrite Ht. cbn [mbind res_bind].
  destruct Hd as [-> | (_ & -> & _)]; [|simpl in Hi; lia].
  replace ((Z.of_nat idx + 1) * tsize) with (offset l + tsize) by lia. rewrite Hlen, Ho, Hol.
  replace (offset l + tsize + offset r - (offset l + tsize)) with (offset r) by lia.
  rewrite (uwrap_id 64) by (unfold in_u; lia). rewrite (uwrap_id 32) by (unfold in_u; lia).
  replace (offset l + tsize + offset r - tsize) with (offset (l ++ r)) by (rewrite off_app; lia).
  rewrite <- E, <- app_assoc in Hok. apply Forall_app in Hok as [Hl [Hx' [Hr Hs]%Forall_app]%Forall_cons_1].
  unfold elem_ok in Hx'.
  assert (concat (els ++ slack) = concat l ++ x ++ concat r ++ concat slack) as ->.
  { rewrite <- E, <- app_assoc, concat_app. simpl. by rewrite concat_app. }
  destruct r as [|y [|z r]]; (destruct (Nat.leb_spec (length els - idx) 2) as [Hc|Hc]; simpl in Hle; try lia).
  - pose proof (copy_within_apart _ (concat l) [] x [] (concat slack) eq_refl eq_refl) as Hcp.
    simpl app in Hcp. rewrite length_app, Nat2Z.inj_add, clength, Hx' in Hcp by done. rewrite off_nil. simpl concat. simpl app.
    change (Z.of_nat (length [])) with 0 in Hcp. rewrite Hcp. cbn [mbind res_bind].
    eexists _, (x :: slack). split; [reflexivity|]. rewrite app_nil_r. split_and!; simpl; [done| |left; by rewrite concat_app].
    apply Forall_app_2; [done|by constructor].
  - apply Forall_cons_1 in Hr as [Hy _]. unfold elem_ok in Hy.
    pose proof (copy_within_apart _ (concat l) x [] y (concat slack) eq_refl ltac:(lia)) as Hcp.
    simpl app in Hcp. rewrite app_nil_r, length_app, Nat2Z.inj_add, clength, Hx', Hy in Hcp by done.
    rewrite off_cons, off_nil, Z.add_0_r. simpl concat. rewrite app_nil_r, Hcp. cbn [mbind res_bind].
    eexists _, (y :: slack). split; [reflexivity|]. split_and!; simpl; [done| |left; by rewrite concat_app, concat_app, <- app_assoc; simpl; rewrite app_nil_r].
    apply Forall_app_2; [apply Forall_app_2; [done|by repeat constructor]|by constructor].
  - rewrite !off_cons in *. pose proof (offset_nonneg r). unfold copy_within.
    destruct (Z.eqb_spec (tsize + (tsize + offset r)) 0); [lia|].
    destruct (Z.leb_spec (offset l + (tsize + (tsize + offset r))) (offset l + tsize)); [lia|].
    destruct (Z.leb_spec (offset l + tsize + (tsize + (tsize + offset r))) (offset l)); [lia|]. done.
Qed.

End Spec.

(** ** Properties *)

(** C18. Refinement: any sequence of [resize], [resizeInit], [append],
    [accAppendingNew], [shrinkEnd], [operator[]] and [count] that keeps the
    length within 32 bits and the indices in range succeeds on a new array and
    gives what the same sequence gives on a list, whatever memory fresh from the
    allocator holds. *)
Theorem array_refines_list (tsize : Z) (v_init : list Z) (trivial_dtor : bool) (garbage : nat -> Z) (os : list op) :
  0 < tsize < 2 ^ 32 -> elem_ok tsize v_init -> ops_ok tsize v_init [] os ->
  exists rs els a slack, list_ops tsize v_init [] os = Some (rs, els) /\
    run_ops tsize v_init trivial_dtor garbage create os = Ret (rs, a) /\ holds tsize a els slack.
Proof.
  intros Ht Hv Hok. apply (array_ops_ok tsize v_init trivial_dtor garbage Ht Hv os create [] []); [|unfold fits; by rewrite off_nil|done].
  split_and!; [by rewrite off_nil|done|by right].
Qed.

Lemma array_refines_list_witness :
  exists rs els a slack, list_ops 2 [0; 0] [] [Append [1; 2]; Resize 3; Set_ 1 [5; 6]; AppendNew; Get 1; ShrinkEnd 2; Count] = Some (rs, els) /\
    run_ops 2 [0; 0] false (fun _ => 99) create [Append [1; 2]; Resize 3; Set_ 1 [5; 6]; AppendNew; Get 1; ShrinkEnd 2; Count] = Ret (rs, a) /\
    holds 2 a els slack.
Proof. apply array_refines_list; [done|done|]. by repeat split. Defined.

(** Shrinking an array destroys each dropped element exactly once, and no
    other. *)
Theorem shrink_destroys_dropped (tsize : Z) (garbage : nat -> Z) (a : t) (els slack : list (list Z)) (n : Z) :
  0 < tsize < 2 ^ 32 -> holds tsize a els slack -> fits tsize els -> 0 <= n <= Z.of_nat (length els) ->
  exists a', shrinkEnd tsize false garbage a n = Ret a' /\ holds tsize a' (take (length els - Z.to_nat n) els) [] /\
    dtors a' = offsets tsize (length els - Z.to_nat n) (length els) ++ dtors a.
Proof.
  intros Ht Ha Hfit Hn. unfold shrinkEnd. destruct (count_ok tsize Ht a els slack Ha Hfit) as [_ ->].
  unfold fits, off in Hfit. rewrite (uwrap_id 32) by (unfold in_u; nia).
  destruct (p_trunc_ok tsize false garbage Ht a els slack (Z.of_nat (length els) - n) Ha Hfit ltac:(lia)) as (a' & -> & Ha' & Hd).
  replace (Z.to_nat (Z.of_nat (length els) - n)) with (length els - Z.to_nat n)%nat in * by lia. by exists a'.
Qed.

Lemma shrink_destroys_dropped_witness :
  exists a', shrinkEnd 2 false (fun _ => 0) (mk 6 (Some [1; 1; 2; 2; 3; 3]) []) 2 = Ret a' /\ holds 2 a' [[1; 1]] [] /\
    dtors a' = [2; 4] ++ [].
Proof.
  apply (shrink_destroys_dropped 2 (fun _ => 0) (mk 6 (Some [1; 1; 2; 2; 3; 3]) []) [[1; 1]; [2; 2]; [3; 3]] []); [done| |done|done].
  split_and!; [done|by repeat constructor|by left].
Defined.

(** Removing the last element or the one before it of an array of a type
    with a trivial destructor deletes it; with more elements behind it,
    [memcpy] is called on overlapping memory. *)
Theorem remove_overlaps (tsize : Z) (a : t) (els slack : list (list Z)) (idx : nat) :
  0 < tsize < 2 ^ 32 -> holds tsize a els slack -> fits tsize els -> (idx < length els)%nat ->
  if (length els - idx <=? 2)%nat
  then exists a' slack', remove tsize true a (Z.of_nat idx) = Ret a' /\ holds tsize a' (delete idx els) slack'
  else remove tsize true a (Z.of_nat idx) = Crash BadCopy.
Proof. intros Ht. by apply (remove_trivial_ok tsize true Ht). Qed.

Lemma remove_overlaps_witness :
  (exists a' slack', remove 2 true (mk 6 (Some [1; 1; 2; 2; 3; 3]) []) 1 = Ret a' /\ holds 2 a' [[1; 1]; [3; 3]] slack').
Proof.
  apply (remove_overlaps 2 (mk 6 (Some [1; 1; 2; 2; 3; 3]) []) [[1; 1]; [2; 2]; [3; 3]] [] 1); [done| |done|simpl; lia].
  split_and!; [done|by repeat constructor|by left].
Defined.

(** The element destroyed is not the one removed: the offset adds the index to
    the size of an element. *)
Example remove_destroys_neighbour : dtors <$> remove 2 false (mk 4 (Some [1; 1; 2; 2]) []) 0 = Ret [2].
Proof. reflexivity. Qed.

(** A size whose bytes do not fit 32 bits wraps around. *)
Example resize_wraps : resize 8 [0; 0; 0; 0; 0; 0; 0; 0] true (fun _ => 0) (mk 8 (Some [1; 1; 1; 1; 1; 1; 1; 1]) []) (2 ^ 29) = Crash OutOfBounds.
Proof. reflexivity. Qed.
