(* ===== verification/Heap.v ===== *)
(** * Heaps of nodes

    A pointer to a node is an optional address, a heap a finite map from
    addresses to nodes. A null pointer and an address that is not (or no longer)
    allocated are told apart. *)

From stdpp Require Export fin_maps gmap.
From S2P Require Import Prelude.

#[global] Open Scope Z_scope.

Definition addr : Type := positive.
Definition ptr : Type := option addr.

Section Heap.
Context {N : Type}.
Implicit Types (h : gmap addr N) (p : ptr).

(** [*p], and [p->field = ...] as a change of the whole node. *)
Definition load h p : res N :=
  match p with
  | None => Crash NullDeref
  | Some a => match h !! a with Some n => Ret n | None => Crash OutOfBounds end
  end.

Definition update h p (f : N -> N) : res (gmap addr N) :=
  n ← load h p; Ret (match p with Some a => <[a := f n]> h | None => h end).

Definition alloc h (n : N) : addr * gmap addr N := let a := fresh (dom h) in (a, <[a := n]> h).

Definition free h p : res (gmap addr N) :=
  _ ← load h p; Ret (match p with Some a => delete a h | None => h end).

Lemma load_ok h a n : h !! a = Some n -> load h (Some a) = Ret n.
Proof. intros H. simpl. by rewrite H. Qed.

Lemma update_ok h a n f : h !! a = Some n -> update h (Some a) f = Ret (<[a := f n]> h).
Proof. intros H. unfold update. by rewrite (load_ok _ _ _ H). Qed.

Lemma free_ok h a n : h !! a = Some n -> free h (Some a) = Ret (delete a h).
Proof. intros H. unfold free. by rewrite (load_ok _ _ _ H). Qed.

Lemma alloc_fresh h n a h' : alloc h n = (a, h') -> h !! a = None /\ h' = <[a := n]> h.
Proof. intros [= <- <-]. split; [|done]. apply not_elem_of_dom, is_fresh. Qed.

End Heap.

(** ** Counting references *)

Fixpoint cnt (a : addr) (R : list addr) : Z := match R with [] => 0 | b :: R => (if decide (b = a) then 1 else 0) + cnt a R end.

Lemma cnt_nonneg a R : 0 <= cnt a R <= Z.of_nat (length R).
Proof. induction R as [|b R IH]; simpl; [lia|]. case_decide; lia. Qed.

Lemma cnt_elem a R : a ∈ R <-> 0 < cnt a R.
Proof.
  induction R as [|b R IH]; simpl; [rewrite elem_of_nil; lia|]. rewrite elem_of_cons, IH. pose proof (cnt_nonneg a R).
  case_decide; split; intros; try lia; intuition (subst; try lia; try congruence).
Qed.

Lemma cnt_perm a R1 R2 : R1 ≡ₚ R2 -> cnt a R1 = cnt a R2.
Proof. induction 1; simpl; repeat case_decide; lia. Qed.

#[export] Instance cnt_proper a : Proper (Permutation ==> eq) (cnt a).
Proof. intros R1 R2. apply cnt_perm. Qed.

(** The references when one of the objects changes. *)
Lemma insert_perm {A} (objs : list A) i d a : objs !! i = Some d -> <[i := a]> objs ≡ₚ a :: delete i objs /\ objs ≡ₚ d :: delete i objs.
Proof.
intros H. split; [|by apply delete_Permutation]. assert (i < length objs)%nat by (by eapply lookup_lt_Some).
rewrite insert_take_drop, delete_take_drop by done. by rewrite Permutation_middle.
Qed.

Lemma elem_others {A} (objs : list A) i j b : i <> j -> objs !! j = Some b -> b ∈ delete i objs.
Proof.
intros Hij Hj. apply list_elem_of_lookup. destruct (decide (j < i)%nat).
- exists j. by rewrite list_lookup_delete_lt.
- exists (j - 1)%nat. rewrite list_lookup_delete_ge by lia. by replace (S (j - 1)) with j by lia.
Qed.
