(* ===== verification/DList.v ===== *)
(** * core/struct: List_c and TList

    The doubly linked list of [List.cxx] and [List.hxx] on a heap of nodes. A
    [ListNode_c *] is an optional address; an access through the null pointer or
    through a node already destroyed is an abnormal outcome. *)

From S2P Require Import Prelude Machine Heap.

Section List.
Context {V : Type}.

(** The value [node_undef] leaves in a node. *)
Variable v_undef : V.

Record node := mk_node { prev : ptr; next : ptr; value : V }.

#[local] Abbreviation heap := (gmap addr node).

(** [link] and [item_count] of a [List_c]; the nodes are on the heap. *)
Record t := mk { link_prev : ptr; link_next : ptr; item_count : Z }.

Definition create : t := mk None None 0.

Definition count (l : t) : Z := item_count l.

(** ** Access to a node *)

Definition set_prev (h : heap) (p : ptr) (v : ptr) : res heap := update h p (fun n => mk_node v (next n) (value n)).
Definition set_next (h : heap) (p : ptr) (v : ptr) : res heap := update h p (fun n => mk_node (prev n) v (value n)).

(** [node_def] and [node_undef]: a new node, its pointers not set. *)
Definition node_def (h : heap) (v : V) : addr * heap := alloc h (mk_node None None v).

Definition node_destroy (h : heap) (p : ptr) : res heap := free h p.

(** ** List_c *)

(** The part [append_g] and [appendNew_g] share: linking the node [n] in. *)
Definition append_node (h : heap) (l : t) (pprev : ptr) (n : addr) : res (heap * t) :=
  h ← set_prev h (Some n) pprev;
  match pprev with
  | Some _ =>
    p ← load h pprev;
    h ← set_next h (Some n) (next p);
    hl ← match next p with
         | Some _ => h ← set_prev h (next p) (Some n); Ret (h, l)
         | None => Ret (h, mk (Some n) (link_next l) (item_count l))
         end;
    h ← set_next (fst hl) pprev (Some n);
    Ret (h, mk (link_prev (snd hl)) (link_next (snd hl)) (u32 (item_count (snd hl) + 1)))
  | None =>
    h ← set_next h (Some n) (link_next l);
    hl ← match link_next l with
         | Some _ => h ← set_prev h (link_next l) (Some n); Ret (h, l)
         | None => Ret (h, mk (Some n) (link_next l) (item_count l))
         end;
    Ret (fst hl, mk (link_prev (snd hl)) (Some n) (u32 (item_count (snd hl) + 1)))
  end.

(** The part [insert_g] and [insertNew_g] share. *)
Definition insert_node (h : heap) (l : t) (pnext : ptr) (n : addr) : res (heap * t) :=
  h ← set_next h (Some n) pnext;
  match pnext with
  | Some _ =>
    p ← load h pnext;
    h ← set_prev h (Some n) (prev p);
    hl ← match prev p with
         | Some _ => h ← set_next h (prev p) (Some n); Ret (h, l)
         | None => Ret (h, mk (link_prev l) (Some n) (item_count l))
         end;
    h ← set_prev (fst hl) pnext (Some n);
    Ret (h, mk (link_prev (snd hl)) (link_next (snd hl)) (u32 (item_count (snd hl) + 1)))
  | None =>
    h ← set_prev h (Some n) (link_prev l);
    hl ← match link_prev l with
         | Some _ => h ← set_next h (link_prev l) (Some n); Ret (h, l)
         | None => Ret (h, mk (link_prev l) (Some n) (item_count l))
         end;
    Ret (fst hl, mk (Some n) (link_next (snd hl)) (u32 (item_count (snd hl) + 1)))
  end.

Definition append_g (h : heap) (l : t) (pprev : ptr) (v : V) : res (addr * heap * t) :=
  let '(n, h) := node_def h v in
  hl ← append_node h l pprev n; Ret (n, fst hl, snd hl).
Definition appendNew_g (h : heap) (l : t) (pprev : ptr) : res (addr * heap * t) :=
  let '(n, h) := node_def h v_undef in
  hl ← append_node h l pprev n; Ret (n, fst hl, snd hl).
Definition insert_g (h : heap) (l : t) (pnext : ptr) (v : V) : res (addr * heap * t) :=
  let '(n, h) := node_def h v in
  hl ← insert_node h l pnext n; Ret (n, fst hl, snd hl).
Definition insertNew_g (h : heap) (l : t) (pnext : ptr) : res (addr * heap * t) :=
  let '(n, h) := node_def h v_undef in
  hl ← insert_node h l pnext n; Ret (n, fst hl, snd hl).

Definition remove_g (h : heap) (l : t) (n : ptr) : res (heap * t) :=
  nd ← load h n;
  hl ← match prev nd with
       | Some _ =>
         h ← set_next h (prev nd) (next nd);
         match next nd with
         | Some _ => h ← set_prev h (next nd) (prev nd); Ret (h, l)
         | None => Ret (h, mk (prev nd) (link_next l) (item_count l))
         end
       | None =>
         match next nd with
         | Some _ => h ← set_prev h (next nd) None; Ret (h, mk (link_prev l) (next nd) (item_count l))
         | None => Ret (h, mk None (next nd) (item_count l))
         end
       end;
  h ← node_destroy (fst hl) n;
  Ret (h, mk (link_prev (snd hl)) (link_next (snd hl)) (u32 (item_count (snd hl) - 1))).

Fixpoint clean_loop (fuel : nat) (h : heap) (p : ptr) (cnt : Z) : res (heap * Z) :=
  match p with
  | None => Ret (h, cnt)
  | Some _ =>
    match fuel with
    | O => NoFuel
    | S fuel =>
      nd ← load h p;
      h ← node_destroy h p;
      clean_loop fuel h (next nd) (u32 (cnt - 1))
    end
  end.

Definition clean_g (h : heap) (l : t) : res (heap * t) :=
  r ← clean_loop (size h) h (link_next l) (item_count l);
  Ret (fst r, mk None None (snd r)).

Definition destroy_g := clean_g.

(** The destination and the source after the move. *)
Definition moveFrom_g (h : heap) (l source : t) : res (heap * t * t) :=
  hl ← destroy_g h l;
  Ret (fst hl, mk (link_prev source) (link_next source) (item_count source), mk None None 0).

(** ** TList *)

Definition iterFirst (l : t) : ptr := link_next l.
Definition iterLast (l : t) : ptr := link_prev l.
Definition iterNext (h : heap) (iter : ptr) : res ptr := n ← load h iter; Ret (next n).
Definition iterPrev (h : heap) (iter : ptr) : res ptr := n ← load h iter; Ret (prev n).

Definition append (h : heap) (l : t) (v : V) : res (addr * heap * t) := append_g h l (link_prev l) v.
Definition insert (h : heap) (l : t) (v : V) : res (addr * heap * t) := insert_g h l (link_next l) v.
Definition remove (h : heap) (l : t) (n : ptr) : res (heap * t) := remove_g h l n.
Definition removeFirst (h : heap) (l : t) : res (V * heap * t) :=
  n ← load h (iterFirst l); hl ← remove_g h l (iterFirst l); Ret (value n, fst hl, snd hl).
Definition removeLast (h : heap) (l : t) : res (V * heap * t) :=
  n ← load h (iterLast l); hl ← remove_g h l (iterLast l); Ret (value n, fst hl, snd hl).
Definition accAppendingNew (h : heap) (l : t) : res (addr * heap * t) := appendNew_g h l (link_prev l).
Definition accInsertingNew (h : heap) (l : t) : res (addr * heap * t) := insertNew_g h l (link_prev l).

End List.

Arguments node : clear implicits.

(** The nodes of every list, by address. *)
Abbreviation heap V := (gmap addr (node V)).
