(* ===== verification/DListSpec.v ===== *)
(** * The doubly linked list against lists

    [chain] says that the nodes of a list are linked through the heap;
    every operation of [TList] keeps the chain and is the operation on the list
    of the values. *)

From S2P Require Import Prelude Machine Heap DList.

Section Chain.
Context {V : Type}.
Implicit Types (h : heap V) (l : list (addr * V)) (p n : ptr).

(** The pointer to the first and the last node, [d] for the empty list. *)
Definition first l (d : ptr) : ptr := match l with [] => d | (a, _) :: _ => Some a end.
Fixpoint lastp l (d : ptr) : ptr := match l with [] => d | (a, _) :: l => lastp l (Some a) end.

Fixpoint chain h p l n : Prop :=
  match l with
  | [] => True
  | (a, v) :: l' => h !! a = Some (mk_node p (first l' n) v) /\ chain h (Some a) l' n
  end.

Lemma first_app l1 l2 d : first (l1 ++ l2) d = first l1 (first l2 d).
Proof. by destruct l1 as [|[a v] l1]. Qed.

Lemma lastp_app l1 l2 d : lastp (l1 ++ l2) d = lastp l2 (lastp l1 d).
Proof. revert d. induction l1 as [|[a v] l1 IH]; simpl; auto. Qed.

Lemma lastp_snoc l1 a v d : lastp (l1 ++ [(a, v)]) d = Some a.
Proof. by rewrite lastp_app. Qed.

Lemma chain_app h l1 : forall p l2 n, chain h p (l1 ++ l2) n <-> chain h p l1 (first l2 n) /\ chain h (lastp l1 p) l2 n.
Proof.
  induction l1 as [|[a v] l1 IH]; intros p l2 n; simpl; [tauto|]. rewrite IH, first_app. tauto.
Qed.

Lemma chain_lookup h p l1 a v l2 n : chain h p (l1 ++ (a, v) :: l2) n ->
  h !! a = Some (mk_node (lastp l1 p) (first l2 n) v).
Proof. rewrite chain_app. simpl. tauto. Qed.

Lemma chain_agree h h' l : forall p n, (forall a, a ∈ l.*1 -> h' !! a = h !! a) -> chain h p l n -> chain h' p l n.
Proof.
  induction l as [|[a v] l IH]; intros p n Ha; simpl; [done|]. intros [H1 H2]. split.
  - rewrite Ha; [done|]. simpl. set_solver.
  - apply IH; [|done]. intros b Hb. apply Ha. simpl. set_solver.
Qed.

Lemma chain_insert_ne h a x p l n : a ∉ l.*1 -> chain h p l n -> chain (<[a := x]> h) p l n.
Proof. intros Ha. apply chain_agree. intros b Hb. apply lookup_insert_ne. by intros ->. Qed.

Lemma chain_delete_ne h a p l n : a ∉ l.*1 -> chain h p l n -> chain (delete a h) p l n.
Proof. intros Ha. apply chain_agree. intros b Hb. apply lookup_delete_ne. by intros ->. Qed.

(** Changing what comes after the last node, and what before the first. *)
Lemma chain_set_next h p l a v n n' : NoDup (l ++ [(a, v)]).*1 -> chain h p (l ++ [(a, v)]) n ->
  chain (<[a := mk_node (lastp l p) n' v]> h) p (l ++ [(a, v)]) n'.
Proof.
  rewrite fmap_app. intros Hd. rewrite !chain_app. simpl. intros [H1 _]. split; [|by rewrite lookup_insert_eq].
  apply chain_insert_ne; [|done]. apply list.NoDup_app in Hd as (_ & Hd & _). intros Ha. apply (Hd a Ha). set_solver.
Qed.

Lemma chain_set_prev h p p' l a v n : NoDup ((a, v) :: l).*1 -> chain h p ((a, v) :: l) n ->
  chain (<[a := mk_node p' (first l n) v]> h) p' ((a, v) :: l) n.
Proof.
  simpl. intros Hd [_ H2]. split; [by rewrite lookup_insert_eq|]. apply chain_insert_ne; [|done].
  by apply list.NoDup_cons in Hd as [Hd _].
Qed.

Lemma chain_mem h p l n a : chain h p l n -> a ∈ l.*1 -> is_Some (h !! a).
Proof.
  revert p. induction l as [|[b v] l IH]; simpl; intros p; [set_solver|]. intros [H1 H2] Ha.
  apply elem_of_cons in Ha as [->|Ha]; [by eexists|by apply (IH (Some b))].
Qed.

(** ** Linking a node in *)

(** A heap in which [b] stands between [l1] and [l2]. *)
Lemma chain_between h l1 l2 b v :
  NoDup (l1 ++ l2).*1 -> b ∉ (l1 ++ l2).*1 ->
  chain h None l1 (Some b) -> h !! b = Some (mk_node (lastp l1 None) (first l2 None) v) -> chain h (Some b) l2 None ->
  chain h None (l1 ++ (b, v) :: l2) None.
Proof. intros Hd Hb H1 H2 H3. rewrite chain_app. simpl. by split_and!. Qed.

Lemma set_prev_ok h a x v : h !! a = Some x -> set_prev h (Some a) v = Ret (<[a := mk_node v (next x) (value x)]> h).
Proof. intros H. unfold set_prev. by rewrite (update_ok _ _ _ _ H). Qed.

Lemma set_next_ok h a x v : h !! a = Some x -> set_next h (Some a) v = Ret (<[a := mk_node (prev x) v (value x)]> h).
Proof. intros H. unfold set_next. by rewrite (update_ok _ _ _ _ H). Qed.

(** The list object [t] stands for [l] on the heap. *)
Record rep h (t : DList.t) l : Prop := {
  rep_chain : chain h None l None;
  rep_nodup : NoDup l.*1;
  rep_next : link_next t = first l None;
  rep_prev : link_prev t = lastp l None;
  rep_count : item_count t = Z.of_nat (length l);
}.

Lemma last_case l : l = [] \/ exists l' a v, l = l' ++ [(a, v)].
Proof. destruct l as [|x l] using rev_ind; [by left|]. destruct x. right. by eexists _, _, _. Qed.

Lemma rep_split h t l1 l2 : rep h t (l1 ++ l2) ->
  chain h None l1 (first l2 None) /\ chain h (lastp l1 None) l2 None /\
  (forall a, a ∈ l1.*1 -> a ∉ l2.*1) /\ NoDup l1.*1 /\ NoDup l2.*1.
Proof.
  intros [Hc Hd _ _ _]. apply chain_app in Hc as [H1 H2]. rewrite fmap_app in Hd.
  apply list.NoDup_app in Hd as (Hd1 & Hd & Hd2). by split_and!.
Qed.

(** The heap after the pointers of the neighbours are redirected. *)
Definition link_right h l1 (b : ptr) : heap V :=
  match lastp l1 None with
  | None => h
  | Some a => match h !! a with Some x => <[a := mk_node (prev x) b (value x)]> h | None => h end
  end.
Definition link_left h l2 (b : ptr) : heap V :=
  match first l2 None with
  | None => h
  | Some c => match h !! c with Some x => <[c := mk_node b (next x) (value x)]> h | None => h end
  end.

Lemma link_right_ok h l1 b n : NoDup l1.*1 -> chain h None l1 n ->
  chain (link_right h l1 b) None l1 b /\ (forall a, a ∉ l1.*1 -> link_right h l1 b !! a = h !! a).
Proof.
  intros Hd Hc. unfold link_right. destruct (last_case l1) as [->|(l & a & v & ->)]; [done|].
  rewrite lastp_snoc. rewrite (chain_lookup h None l a v [] n Hc). simpl. split; [by apply chain_set_next with n|].
  intros c Hcn. apply lookup_insert_ne. intros ->. apply Hcn. rewrite fmap_app. set_solver.
Qed.

Lemma link_left_ok h l2 b p : NoDup l2.*1 -> chain h p l2 None ->
  chain (link_left h l2 b) b l2 None /\ (forall a, a ∉ l2.*1 -> link_left h l2 b !! a = h !! a).
Proof.
  intros Hd Hc. unfold link_left. destruct l2 as [|[c v] l]; [done|]. simpl first. pose proof Hc as [Hc1 _].
  rewrite Hc1. cbn [next value]. split; [by apply (chain_set_prev h p)|].
  intros a Ha. apply lookup_insert_ne. intros ->. apply Ha. simpl. set_solver.
Qed.

(** The list after [b] is linked in between, from the heap with both changes. *)
Lemma linked_rep h h' t t' l1 l2 b v : rep h t (l1 ++ l2) -> b ∉ (l1 ++ l2).*1 -> Z.of_nat (length (l1 ++ l2)) + 1 < 2 ^ 32 ->
  (forall a, a ∈ l1.*1 -> h' !! a = link_right h l1 (Some b) !! a) ->
  (forall a, a ∈ l2.*1 -> h' !! a = link_left h l2 (Some b) !! a) ->
  h' !! b = Some (mk_node (lastp l1 None) (first l2 None) v) ->
  link_next t' = first l1 (Some b) -> link_prev t' = lastp l2 (Some b) -> item_count t' = u32 (item_count t + 1) ->
  rep h' t' (l1 ++ (b, v) :: l2).
Proof.
  intros Hrep Hb Hlen H1 H2 Hbn Hn Hp Hc. destruct (rep_split h t l1 l2 Hrep) as (C1 & C2 & Hdis & D1 & D2).
  destruct Hrep as [_ Hd _ _ Hcnt]. rewrite fmap_app in Hb. apply not_elem_of_app in Hb as [Hb1 Hb2].
  split.
  - rewrite chain_app. simpl. split_and!; [|done|].
    + eapply chain_agree; [|apply (proj1 (link_right_ok h l1 (Some b) _ D1 C1))]. done.
    + eapply chain_agree; [|apply (proj1 (link_left_ok h l2 (Some b) _ D2 C2))]. done.
  - rewrite fmap_app. simpl. apply list.NoDup_app. split_and!; [done| |by constructor].
    intros a Ha. apply not_elem_of_cons. split; [by intros ->|by apply Hdis].
  - by rewrite first_app.
  - by rewrite lastp_app.
  - rewrite Hc, Hcnt, (uwrap_id 32) by (unfold in_u; rewrite length_app in *; lia).
    rewrite !length_app. simpl. lia.
Qed.

Lemma append_node_ok h t l1 l2 b nb : rep h t (l1 ++ l2) -> b ∉ (l1 ++ l2).*1 -> h !! b = Some nb ->
  Z.of_nat (length (l1 ++ l2)) + 1 < 2 ^ 32 ->
  exists h' t', append_node h t (lastp l1 None) b = Ret (h', t') /\ rep h' t' (l1 ++ (b, value nb) :: l2).
Proof.
  intros Hrep Hb Hnb Hlen. destruct (rep_split h t l1 l2 Hrep) as (C1 & C2 & Hdis & D1 & D2).
  pose proof Hrep as [_ _ Hn Hp _]. rewrite fmap_app in Hb. apply not_elem_of_app in Hb as [Hb1 Hb2].
  unfold append_node. rewrite (set_prev_ok _ _ _ _ Hnb). cbn [mbind res_bind].
  destruct (last_case l1) as [->|(l & a & va & ->)].
  - simpl lastp. cbv iota. rewrite (set_next_ok _ _ _ _ (lookup_insert_eq _ _ _)). cbn [mbind res_bind prev value].
    rewrite insert_insert_eq. simpl in Hn. rewrite Hn.
    destruct l2 as [|[c vc] l2]; simpl first; cbv iota.
    + cbn [mbind res_bind]. eexists _, _. split; [reflexivity|].
      apply (linked_rep h _ t _ [] [] b _ Hrep); try done; simpl; first [set_solver|by rewrite lookup_insert_eq].
    + pose proof C2 as [Hc _]. simpl in Hb2. apply not_elem_of_cons in Hb2 as [Hbc Hb2].
      erewrite set_prev_ok by (rewrite lookup_insert_ne by done; exact Hc). cbn [mbind res_bind].
      eexists _, _. split; [reflexivity|].
      apply (linked_rep h _ t _ [] ((c, vc) :: l2) b _ Hrep); try done; [simpl; set_solver|simpl; set_solver|..].
      * intros x Hx. unfold link_left. simpl first. cbv iota. rewrite Hc. simpl in Hx |- *.
        destruct (decide (x = c)) as [->|]; [by rewrite !lookup_insert_eq|].
        rewrite !lookup_insert_ne; [done|done|set_solver|done].
      * simpl. by rewrite lookup_insert_ne, lookup_insert_eq by done.
  - assert (a <> b) as Hab by (intros ->; apply Hb1; rewrite fmap_app; set_solver).
    assert (h !! a = Some (mk_node (lastp l None) (first l2 None) va)) as Ha.
    { pose proof (chain_lookup h None l a va [] _ C1) as Ha. done. }
    rewrite lastp_snoc. cbv iota. erewrite load_ok by (rewrite lookup_insert_ne by done; exact Ha). cbn [mbind res_bind next].
    rewrite (set_next_ok _ _ _ _ (lookup_insert_eq _ _ _)). cbn [mbind res_bind prev value]. rewrite insert_insert_eq.
    destruct l2 as [|[c vc] l2]; simpl first; cbv iota; cbn [mbind res_bind fst snd].
    + erewrite set_next_ok by (rewrite lookup_insert_ne by done; exact Ha). cbn [mbind res_bind].
      eexists _, _. split; [reflexivity|].
      apply (linked_rep h _ t _ (l ++ [(a, va)]) [] b _ Hrep); try done.
      * rewrite !fmap_app. simpl. rewrite fmap_app in Hb1. set_solver.
      * intros x Hx. unfold link_right. rewrite lastp_snoc, Ha. simpl.
        destruct (decide (x = a)) as [->|]; [by rewrite !lookup_insert_eq|].
        rewrite !lookup_insert_ne; [done|done|set_solver|done].
      * simpl. set_solver.
      * rewrite lookup_insert_ne, lookup_insert_eq by done. by rewrite lastp_snoc.
      * simpl. rewrite Hn, app_nil_r. by rewrite !first_app.
    + pose proof C2 as [Hc _]. simpl in Hb2. apply not_elem_of_cons in Hb2 as [Hbc Hb2].
      assert (a <> c) as Hac by (intros ->; apply (Hdis c); rewrite ?fmap_app; simpl; set_solver).
      erewrite set_prev_ok by (rewrite lookup_insert_ne by done; exact Hc). cbn [mbind res_bind fst snd].
      erewrite set_next_ok by (rewrite !lookup_insert_ne by done; exact Ha). cbn [mbind res_bind].
      eexists _, _. split; [reflexivity|].
      apply (linked_rep h _ t _ (l ++ [(a, va)]) ((c, vc) :: l2) b _ Hrep); try done.
      * rewrite !fmap_app. simpl. rewrite fmap_app in Hb1. set_solver.
      * intros x Hx. unfold link_right. rewrite lastp_snoc, Ha. simpl.
        destruct (decide (x = a)) as [->|]; [by rewrite !lookup_insert_eq|].
        rewrite !lookup_insert_ne; [done|done|set_solver| |done]. intros ->. apply (Hdis x Hx). simpl. set_solver.
      * intros x Hx. unfold link_left. simpl first. cbv iota. rewrite Hc. cbn [next value].
        assert (a <> x) as Hax by (intros ->; apply (Hdis x); [rewrite fmap_app; set_solver|done]).
        rewrite lookup_insert_ne by done. destruct (decide (x = c)) as [->|]; [by rewrite !lookup_insert_eq|].
        rewrite !lookup_insert_ne; [done|done|set_solver|done].
      * simpl. rewrite !lookup_insert_ne by done. rewrite lookup_insert_eq, lastp_snoc. done.
      * simpl. rewrite Hn. by rewrite !first_app.
      * simpl. rewrite Hp, lastp_app. done.
Qed.

Lemma insert_node_ok h t l1 l2 b nb : rep h t (l1 ++ l2) -> b ∉ (l1 ++ l2).*1 -> h !! b = Some nb ->
  Z.of_nat (length (l1 ++ l2)) + 1 < 2 ^ 32 ->
  exists h' t', insert_node h t (first l2 None) b = Ret (h', t') /\ rep h' t' (l1 ++ (b, value nb) :: l2).
Proof.
  intros Hrep Hb Hnb Hlen. destruct (rep_split h t l1 l2 Hrep) as (C1 & C2 & Hdis & D1 & D2).
  pose proof Hrep as [_ _ Hn Hp _]. rewrite first_app in Hn. rewrite lastp_app in Hp.
  pose proof Hb as Hb0. rewrite fmap_app in Hb. apply not_elem_of_app in Hb as [Hb1 Hb2].
  unfold insert_node. rewrite (set_next_ok _ _ _ _ Hnb). cbn [mbind res_bind].
  assert (forall l a va, l1 = l ++ [(a, va)] -> a <> b /\ h !! a = Some (mk_node (lastp l None) (first l2 None) va) /\ a ∉ l2.*1) as Hlast.
  { intros l a va ->. split_and!; [|by apply (chain_lookup h None l a va [] _ C1)|].
    - intros ->. apply Hb1. rewrite fmap_app. set_solver.
    - apply Hdis. rewrite fmap_app. set_solver. }
  assert (forall l a va, l1 = l ++ [(a, va)] -> forall x, x ∈ l1.*1 ->
    <[a := mk_node (lastp l None) (Some b) va]> h !! x = link_right h l1 (Some b) !! x) as Hright.
  { intros l a va E x Hx. destruct (Hlast l a va E) as (_ & Ha & _). subst l1. unfold link_right. by rewrite lastp_snoc, Ha. }
  destruct l2 as [|[c vc] l2].
  - simpl first. cbv iota. rewrite (set_prev_ok _ _ _ _ (lookup_insert_eq _ _ _)). cbn [mbind res_bind next value].
    rewrite insert_insert_eq. simpl in Hp. rewrite Hp.
    destruct (last_case l1) as [E|(l & a & va & E)]; subst l1; rewrite ?lastp_snoc; cbv iota.
    + simpl lastp. cbv iota. clear Hlast Hright. cbn [mbind res_bind fst snd]. eexists _, _. split; [reflexivity|].
      apply (linked_rep h _ t _ [] [] b _ Hrep Hb0); try done; simpl; first [by rewrite lookup_insert_eq|set_solver].
    + destruct (Hlast l a va eq_refl) as (Hab & Ha & _).
      erewrite set_next_ok by (rewrite lookup_insert_ne by done; exact Ha). cbn [mbind res_bind fst snd].
      eexists _, _. split; [reflexivity|].
      apply (linked_rep h _ t _ (l ++ [(a, va)]) [] b _ Hrep Hb0); try done; [|clear; simpl; set_solver|..].
      * intros x Hx. rewrite <- (Hright l a va eq_refl x Hx). simpl. rewrite insert_insert_ne by done.
        apply lookup_insert_ne. intros ->. by apply Hb1.
      * rewrite lookup_insert_ne, lookup_insert_eq by done. by rewrite lastp_snoc.
      * simpl. rewrite Hn. by rewrite !first_app.
  - pose proof C2 as [Hc _]. simpl in Hb2. apply not_elem_of_cons in Hb2 as [Hbc Hb2].
    simpl first. cbv iota. erewrite load_ok by (rewrite lookup_insert_ne by done; exact Hc). cbn [mbind res_bind prev].
    rewrite (set_prev_ok _ _ _ _ (lookup_insert_eq _ _ _)). cbn [mbind res_bind next value]. rewrite insert_insert_eq.
    assert (forall x, x ∈ ((c, vc) :: l2).*1 ->
      <[c := mk_node (Some b) (first l2 None) vc]> h !! x = link_left h ((c, vc) :: l2) (Some b) !! x) as Hleft.
    { intros x _. unfold link_left. simpl first. cbv iota. by rewrite Hc. }
    destruct (last_case l1) as [E|(l & a & va & E)]; subst l1; rewrite ?lastp_snoc; cbv iota.
    + simpl lastp. cbv iota. cbn [mbind res_bind fst snd].
      erewrite set_prev_ok by (rewrite lookup_insert_ne by done; exact Hc). cbn [mbind res_bind fst snd].
      eexists _, _. split; [reflexivity|].
      apply (linked_rep h _ t _ [] ((c, vc) :: l2) b _ Hrep Hb0); try done; [clear; simpl; set_solver|..].
      * intros x Hx. rewrite <- Hleft by done. simpl. rewrite insert_insert_ne by done. apply lookup_insert_ne.
        intros ->. simpl in Hx. clear -Hx Hbc Hb2. set_solver.
      * simpl. by rewrite lookup_insert_ne, lookup_insert_eq by done.
    + destruct (Hlast l a va eq_refl) as (Hab & Ha & Hac). assert (a <> c) by (intros ->; apply Hac; simpl; set_solver).
      erewrite set_next_ok by (rewrite lookup_insert_ne by done; exact Ha). cbn [mbind res_bind fst snd].
      erewrite set_prev_ok by (rewrite !lookup_insert_ne by done; exact Hc). cbn [mbind res_bind fst snd].
      eexists _, _. split; [reflexivity|].
      apply (linked_rep h _ t _ (l ++ [(a, va)]) ((c, vc) :: l2) b _ Hrep Hb0); try done.
      * intros x Hx. rewrite <- (Hright l a va eq_refl x Hx). simpl. rewrite lookup_insert_ne by (intros ->; apply (Hdis x Hx); simpl; set_solver).
        rewrite insert_insert_ne by done. apply lookup_insert_ne. intros ->. by apply Hb1.
      * intros x Hx. rewrite <- Hleft by done. simpl.
        assert (a <> x) by (intros ->; done). assert (b <> x) by (intros ->; simpl in Hx; clear -Hx Hbc Hb2; set_solver).
        destruct (decide (x = c)) as [->|]; [by rewrite !lookup_insert_eq|]. by rewrite !lookup_insert_ne by done.
      * simpl. rewrite !lookup_insert_ne by done. rewrite lookup_insert_eq, lastp_snoc. done.
      * simpl. rewrite Hn. by rewrite !first_app.
Qed.

(** ** Unlinking a node *)

(** The list after [a] is taken out, from the heap with both neighbours
    changed. *)
Lemma unlinked_rep h h' t t' l1 a v l2 : rep h t (l1 ++ (a, v) :: l2) -> Z.of_nat (length (l1 ++ (a, v) :: l2)) < 2 ^ 32 ->
  (forall x, x ∈ l1.*1 -> h' !! x = link_right h l1 (first l2 None) !! x) ->
  (forall x, x ∈ l2.*1 -> h' !! x = link_left h l2 (lastp l1 None) !! x) ->
  link_next t' = first l1 (first l2 None) -> link_prev t' = lastp l2 (lastp l1 None) -> item_count t' = u32 (item_count t - 1) ->
  rep h' t' (l1 ++ l2).
Proof.
  intros Hrep Hlen H1 H2 Hn Hp Hc. destruct (rep_split h t l1 _ Hrep) as (C1 & [_ C2] & Hdis & D1 & D2).
  simpl in D2. apply list.NoDup_cons in D2 as [_ D2]. destruct Hrep as [_ _ _ _ Hcnt].
  split.
  - rewrite chain_app. split.
    + eapply chain_agree; [|apply (proj1 (link_right_ok h l1 (first l2 None) _ D1 C1))]. done.
    + eapply chain_agree; [|apply (proj1 (link_left_ok h l2 (lastp l1 None) _ D2 C2))]. done.
  - rewrite fmap_app. apply list.NoDup_app. split_and!; [done| |done].
    intros x Hx Hx2. apply (Hdis x Hx). simpl. by right.
  - by rewrite first_app.
  - by rewrite lastp_app.
  - rewrite Hc, Hcnt. rewrite !length_app in *. simpl in *. rewrite (uwrap_id 32) by (unfold in_u; lia). lia.
Qed.

Lemma remove_g_ok h t l1 a v l2 : rep h t (l1 ++ (a, v) :: l2) -> Z.of_nat (length (l1 ++ (a, v) :: l2)) < 2 ^ 32 ->
  exists h' t', remove_g h t (Some a) = Ret (h', t') /\ rep h' t' (l1 ++ l2).
Proof.
  intros Hrep Hlen. destruct (rep_split h t l1 _ Hrep) as (C1 & [Ca C2] & Hdis & D1 & D2).
  simpl in D2. apply list.NoDup_cons in D2 as [Ha2 D2]. pose proof Hrep as [_ _ Hn Hp _].
  rewrite first_app in Hn. rewrite lastp_app in Hp. simpl in Hn, Hp.
  assert (a ∉ l1.*1) as Ha1 by (intros Hx; apply (Hdis a Hx); simpl; set_solver).
  unfold remove_g. rewrite (load_ok _ _ _ Ca). cbn [mbind res_bind prev next].
  assert (forall c vc l, l2 = (c, vc) :: l -> c <> a /\ h !! c = Some (mk_node (Some a) (first l None) vc)) as Hfirst.
  { intros c vc l ->. destruct C2 as [C2 _]. split; [|done]. intros ->. apply Ha2. simpl. set_solver. }
  destruct (last_case l1) as [->|(l & b & vb & ->)].
  - simpl lastp. cbv iota. destruct l2 as [|[c vc] l2]; simpl first; cbv iota; cbn [mbind res_bind fst snd].
    + unfold node_destroy, free. rewrite (load_ok _ _ _ Ca). cbn [mbind res_bind]. eexists _, _. split; [reflexivity|].
      apply (unlinked_rep h _ t _ [] a v [] Hrep Hlen); try done; simpl; set_solver.
    + destruct (Hfirst c vc l2 eq_refl) as [Hca Hc].
      rewrite (set_prev_ok _ _ _ _ Hc). cbn [mbind res_bind fst snd next value]. unfold node_destroy, free.
      erewrite load_ok by (rewrite lookup_insert_ne by done; exact Ca). cbn [mbind res_bind]. eexists _, _. split; [reflexivity|].
      apply (unlinked_rep h _ t _ [] a v ((c, vc) :: l2) Hrep Hlen); try done; [clear; simpl; set_solver|].
      intros x Hx. unfold link_left. simpl first. cbv iota. rewrite Hc. apply lookup_delete_ne. by intros ->.
  - rewrite lastp_snoc in *. cbv iota.
    assert (h !! b = Some (mk_node (lastp l None) (Some a) vb)) as Hb by apply (chain_lookup h None l b vb [] _ C1).
    assert (b <> a) as Hba by (intros ->; apply Ha1; rewrite fmap_app; set_solver).
    rewrite (set_next_ok _ _ _ _ Hb). cbn [mbind res_bind prev value].
    assert (forall x, x ∈ (l ++ [(b, vb)]).*1 -> <[b := mk_node (lastp l None) (first l2 None) vb]> h !! x =
      link_right h (l ++ [(b, vb)]) (first l2 None) !! x) as Hright.
    { intros x _. unfold link_right. by rewrite lastp_snoc, Hb. }
    destruct l2 as [|[c vc] l2]; simpl first; cbv iota; cbn [mbind res_bind fst snd]; unfold node_destroy, free.
    + erewrite load_ok by (rewrite lookup_insert_ne by done; exact Ca). cbn [mbind res_bind]. eexists _, _. split; [reflexivity|].
      apply (unlinked_rep h _ t _ (l ++ [(b, vb)]) a v [] Hrep Hlen); try done.
      * intros x Hx. rewrite <- Hright by done. apply lookup_delete_ne. by intros ->.
      * clear. simpl. set_solver.
      * simpl. by rewrite Hn, !first_app.
      * simpl. by rewrite lastp_snoc.
    + destruct (Hfirst c vc l2 eq_refl) as [Hca Hc].
      assert (b <> c) as Hbc by (intros ->; apply (Hdis c); [rewrite fmap_app|simpl]; clear; set_solver).
      erewrite set_prev_ok by (rewrite lookup_insert_ne by done; exact Hc). cbn [mbind res_bind fst snd next value].
      erewrite load_ok by (rewrite !lookup_insert_ne by done; exact Ca). cbn [mbind res_bind]. eexists _, _. split; [reflexivity|].
      apply (unlinked_rep h _ t _ (l ++ [(b, vb)]) a v ((c, vc) :: l2) Hrep Hlen); try done.
      * intros x Hx. rewrite <- Hright by done. rewrite lookup_delete_ne by (by intros ->).
        apply lookup_insert_ne. intros ->. apply (Hdis x Hx). simpl. clear. set_solver.
      * intros x Hx. unfold link_left. simpl first. cbv iota. rewrite Hc, lastp_snoc. cbn [next value].
        rewrite lookup_delete_ne by (by intros ->). destruct (decide (x = c)) as [->|]; [by rewrite !lookup_insert_eq|].
        rewrite !lookup_insert_ne; [done|done|intros ->|done]. apply (Hdis x); [rewrite fmap_app; clear; set_solver|simpl in *; by right].
      * simpl. by rewrite Hn, !first_app.
Qed.

(** ** The operations of TList *)

Lemma rep_alloc h t l v : rep h t l -> let '(b, h') := node_def h v in
  rep h' t l /\ b ∉ l.*1 /\ h' !! b = Some (mk_node None None v).
Proof.
  intros [Hc Hd Hn Hp Hcnt]. unfold node_def, alloc. set (b := fresh (dom h)).
  assert (b ∉ l.*1) as Hb.
  { intros Hb. apply (is_fresh (dom h)). apply elem_of_dom. by apply (chain_mem h None l None). }
  split_and!; [|done|by rewrite lookup_insert_eq]. split; try done. by apply chain_insert_ne.
Qed.

Lemma append_between h t l1 l2 v : rep h t (l1 ++ l2) -> Z.of_nat (length (l1 ++ l2)) + 1 < 2 ^ 32 ->
  (exists b h' t', append_g h t (lastp l1 None) v = Ret (b, h', t') /\ rep h' t' (l1 ++ (b, v) :: l2)) /\
  (exists b h' t', insert_g h t (first l2 None) v = Ret (b, h', t') /\ rep h' t' (l1 ++ (b, v) :: l2)).
Proof.
  intros Hrep Hlen. pose proof (rep_alloc h t _ v Hrep) as Ha. unfold append_g, insert_g.
  destruct (node_def h v) as [b h0]. destruct Ha as (Hr & Hb & Hl). split.
  - destruct (append_node_ok h0 t l1 l2 b _ Hr Hb Hl Hlen) as (h' & t' & -> & Hr'). cbn [mbind res_bind fst snd].
    by exists b, h', t'.
  - destruct (insert_node_ok h0 t l1 l2 b _ Hr Hb Hl Hlen) as (h' & t' & -> & Hr'). cbn [mbind res_bind fst snd].
    by exists b, h', t'.
Qed.

Lemma size_ge h l n : chain h None l n -> NoDup l.*1 -> (length l <= size h)%nat.
Proof.
  intros Hc Hd. rewrite <- (size_dom (D:=gset addr)). rewrite <- (length_fmap fst), <- (size_list_to_set (C:=gset addr)) by done.
  apply subseteq_size. intros a Ha. apply elem_of_list_to_set in Ha. apply elem_of_dom. by apply (chain_mem h None l n).
Qed.

Lemma clean_loop_ok l : forall fuel h p cnt, chain h p l None -> NoDup l.*1 -> (length l <= fuel)%nat ->
  cnt = Z.of_nat (length l) -> cnt < 2 ^ 32 ->
  exists h', clean_loop fuel h (first l None) cnt = Ret (h', 0) /\ (forall x, x ∉ l.*1 -> h' !! x = h !! x).
Proof.
  induction l as [|[a v] l IH]; intros fuel h p cnt Hc Hd Hf Hcnt Hlt.
  - exists h. subst cnt. split; [by destruct fuel|done].
  - destruct fuel as [|fuel]; [simpl in Hf; lia|]. destruct Hc as [Ha Hc]. simpl in Hd. apply list.NoDup_cons in Hd as [Hal Hd].
    simpl first. cbn [clean_loop]. rewrite (load_ok _ _ _ Ha). cbn [mbind res_bind next]. unfold node_destroy, free.
    rewrite (load_ok _ _ _ Ha). cbn [mbind res_bind]. simpl in Hf, Hcnt. rewrite (uwrap_id 32) by (unfold in_u; lia).
    destruct (IH fuel (delete a h) (Some a) (cnt - 1)) as (h' & -> & Hh'); [by apply chain_delete_ne|done|lia..|].
    exists h'. split; [done|]. intros x Hx. simpl in Hx. apply not_elem_of_cons in Hx as [Hx1 Hx2].
    rewrite Hh' by done. by apply lookup_delete_ne.
Qed.

Lemma rep_nil h : rep h (mk None None 0) [].
Proof. by split; [|constructor|..]. Qed.

Lemma clean_g_ok h t l : rep h t l -> Z.of_nat (length l) < 2 ^ 32 ->
  exists h', clean_g h t = Ret (h', mk None None 0) /\ (forall x, x ∉ l.*1 -> h' !! x = h !! x).
Proof.
  intros Hr Hlen. pose proof Hr as [Hc Hd Hn Hp Hcnt]. unfold clean_g. rewrite Hn, Hcnt.
  destruct (clean_loop_ok l (size h) h None _ Hc Hd (size_ge h l None Hc Hd) eq_refl Hlen) as (h' & -> & Hh').
  cbn [mbind res_bind fst snd]. by exists h'.
Qed.

Lemma moveFrom_g_ok h t l source ls : rep h t l -> rep h source ls -> (forall a, a ∈ ls.*1 -> a ∉ l.*1) ->
  Z.of_nat (length l) < 2 ^ 32 ->
  exists h' t' source', moveFrom_g h t source = Ret (h', t', source') /\ rep h' t' ls /\ rep h' source' [].
Proof.
  intros Hr [Hc Hd Hn Hp Hcnt] Hdis Hlen. unfold moveFrom_g, destroy_g.
  destruct (clean_g_ok h t l Hr Hlen) as (h' & -> & Hh'). cbn [mbind res_bind fst].
  eexists _, _, _. split; [reflexivity|]. split; [|apply rep_nil]. split; try done.
  eapply chain_agree; [|exact Hc]. intros a Ha. by apply Hh', Hdis.
Qed.

(** ** Iteration *)

(** The values met by following [step] from [p]. *)
Fixpoint walk (step : heap V -> ptr -> res ptr) (fuel : nat) h p : res (list V) :=
  match p, fuel with
  | None, _ => Ret []
  | Some _, O => NoFuel
  | Some _, S fuel => n ← load h p; p' ← step h p; r ← walk step fuel h p'; Ret (value n :: r)
  end.

Lemma walk_next_ok l : forall fuel h p, chain h p l None -> (length l <= fuel)%nat ->
  walk iterNext fuel h (first l None) = Ret l.*2.
Proof.
  induction l as [|[a v] l IH]; intros fuel h p Hc Hf; [by destruct fuel|]. destruct Hc as [Ha Hc].
  destruct fuel as [|fuel]; simpl in Hf; [lia|]. simpl first. cbn [walk]. unfold iterNext. rewrite (load_ok _ _ _ Ha).
  cbn [mbind res_bind next value]. change (fun h p => n ← load h p; Ret (next n)) with (@iterNext V).
  by rewrite (IH fuel h (Some a) Hc) by lia.
Qed.

Lemma walk_prev_ok l : forall fuel h n, chain h None l n -> (length l <= fuel)%nat ->
  walk iterPrev fuel h (lastp l None) = Ret (rev l.*2).
Proof.
  induction l as [|[a v] l IH] using rev_ind; intros fuel h n Hc Hf; [by destruct fuel|].
  rewrite lastp_snoc. destruct fuel as [|fuel]; rewrite length_app in Hf; simpl in Hf; [lia|].
  pose proof (chain_lookup h None l a v [] n Hc) as Ha. apply chain_app in Hc as [Hc _].
  cbn [walk]. unfold iterPrev. rewrite (load_ok _ _ _ Ha). cbn [mbind res_bind prev value].
  change (fun h p => n ← load h p; Ret (prev n)) with (@iterPrev V).
  rewrite (IH fuel h _ Hc) by lia. rewrite fmap_app, rev_app_distr. done.
Qed.

End Chain.

(** ** Sequences of operations *)

(** What a client does with a [TList]: [RemoveAt] walks to a node from the
    first one and removes it, [Values] and [ValuesBack] walk the whole list. *)
Inductive op (V : Type) :=
| Append (v : V)
| Insert (v : V)
| AppendNew
| InsertNew
| RemoveAt (i : nat)
| RemoveFirst
| RemoveLast
| Clean
| Count
| Values
| ValuesBack.

Inductive result (V : Type) :=
| RUnit
| RValue (v : V)
| RCount (n : Z)
| RValues (vs : list V).

Arguments Append {V}. Arguments Insert {V}. Arguments AppendNew {V}. Arguments InsertNew {V}. Arguments RemoveAt {V}.
Arguments RemoveFirst {V}. Arguments RemoveLast {V}. Arguments Clean {V}. Arguments Count {V}. Arguments Values {V}.
Arguments ValuesBack {V}. Arguments RUnit {V}. Arguments RValue {V}. Arguments RCount {V}. Arguments RValues {V}.

Section Ops.
Context {V : Type}.
Variable v_undef : V.

Fixpoint nth_node (i : nat) (h : heap V) (p : ptr) : res ptr :=
  match i with
  | O => Ret p
  | S i => p ← iterNext h p; nth_node i h p
  end.

Definition run_op (h : heap V) (t : DList.t) (o : op V) : res (result V * heap V * DList.t) :=
  match o with
  | Append v => r ← append h t v; Ret (RUnit, snd (fst r), snd r)
  | Insert v => r ← insert h t v; Ret (RUnit, snd (fst r), snd r)
  | AppendNew => r ← accAppendingNew v_undef h t; Ret (RUnit, snd (fst r), snd r)
  | InsertNew => r ← accInsertingNew v_undef h t; Ret (RUnit, snd (fst r), snd r)
  | RemoveAt i => p ← nth_node i h (iterFirst t); r ← remove h t p; Ret (RUnit, fst r, snd r)
  | RemoveFirst => r ← removeFirst h t; Ret (RValue (fst (fst r)), snd (fst r), snd r)
  | RemoveLast => r ← removeLast h t; Ret (RValue (fst (fst r)), snd (fst r), snd r)
  | Clean => r ← clean_g h t; Ret (RUnit, fst r, snd r)
  | Count => Ret (RCount (count t), h, t)
  | Values => vs ← walk iterNext (size h) h (iterFirst t); Ret (RValues vs, h, t)
  | ValuesBack => vs ← walk iterPrev (size h) h (iterLast t); Ret (RValues vs, h, t)
  end.

Fixpoint run_ops (h : heap V) (t : DList.t) (os : list (op V)) : res (list (result V) * heap V * DList.t) :=
  match os with
  | [] => Ret ([], h, t)
  | o :: os => r ← run_op h t o; rs ← run_ops (snd (fst r)) (snd r) os; Ret (fst (fst r) :: fst (fst rs), snd (fst rs), snd rs)
  end.

(** The same on the list of the values. *)
Definition list_op (l : list V) (o : op V) : option (result V * list V) :=
  match o with
  | Append v => Some (RUnit, l ++ [v])
  | Insert v => Some (RUnit, v :: l)
  | AppendNew => Some (RUnit, l ++ [v_undef])
  | InsertNew => Some (RUnit, match rev l with v :: r => rev r ++ [v_undef; v] | [] => [v_undef] end)
  | RemoveAt i => if (i <? length l)%nat then Some (RUnit, delete i l) else None
  | RemoveFirst => match l with v :: l => Some (RValue v, l) | [] => None end
  | RemoveLast => match rev l with v :: r => Some (RValue v, rev r) | [] => None end
  | Clean => Some (RUnit, [])
  | Count => Some (RCount (Z.of_nat (length l)), l)
  | Values => Some (RValues l, l)
  | ValuesBack => Some (RValues (rev l), l)
  end.

Fixpoint list_ops (l : list V) (os : list (op V)) : option (list (result V) * list V) :=
  match os with
  | [] => Some ([], l)
  | o :: os => r ← list_op l o; rs ← list_ops (snd r) os; Some (fst r :: fst rs, snd rs)
  end.

Lemma nth_node_ok l1 : forall h p l2, chain h p (l1 ++ l2) None -> nth_node (length l1) h (first (l1 ++ l2) None) = Ret (first l2 None).
Proof.
  induction l1 as [|[a v] l1 IH]; intros h p l2 Hc; [done|]. destruct Hc as [Ha Hc]. simpl. unfold iterNext.
  rewrite (load_ok _ _ _ Ha). cbn [mbind res_bind next]. by apply (IH h (Some a) l2).
Qed.

Lemma list_op_ok h t l o r vs : rep h t l -> Z.of_nat (length l) + 1 < 2 ^ 32 -> list_op l.*2 o = Some (r, vs) ->
  exists h' t' l', run_op h t o = Ret (r, h', t') /\ rep h' t' l' /\ l'.*2 = vs /\ (length l' <= S (length l))%nat.
Proof.
  intros Hr Hlen Ho. pose proof Hr as [Hc Hd Hn Hp Hcnt].
  destruct o as [v|v| | |i| | | | | |]; cbn [list_op run_op] in *; try (injection Ho as <- <-).
  - destruct (append_between h t l [] v) as [(b & h' & t' & E & Hr') _]; [by rewrite app_nil_r..|].
    unfold append. rewrite Hp, E. cbn [mbind res_bind fst snd]. exists h', t', (l ++ [(b, v)]).
    split_and!; [done|done|by rewrite fmap_app|rewrite length_app; simpl; lia].
  - destruct (append_between h t [] l v) as [_ (b & h' & t' & E & Hr')]; [done..|].
    unfold insert. rewrite Hn, E. cbn [mbind res_bind fst snd]. by exists h', t', ((b, v) :: l).
  - destruct (append_between h t l [] v_undef) as [(b & h' & t' & E & Hr') _]; [by rewrite app_nil_r..|].
    unfold accAppendingNew. rewrite Hp. unfold append_g in E. unfold appendNew_g. rewrite E. cbn [mbind res_bind fst snd].
    exists h', t', (l ++ [(b, v_undef)]). split_and!; [done|done|by rewrite fmap_app|rewrite length_app; simpl; lia].
  - unfold accInsertingNew, insertNew_g. rewrite Hp. destruct (last_case l) as [->|(l' & a & va & ->)].
    + destruct (append_between h t [] [] v_undef Hr Hlen) as [_ (b & h' & t' & E & Hr')]. unfold insert_g in E. simpl in E |- *.
      rewrite E. cbn [mbind res_bind fst snd]. by exists h', t', [(b, v_undef)].
    + destruct (append_between h t l' [(a, va)] v_undef Hr Hlen) as [_ (b & h' & t' & E & Hr')]. unfold insert_g in E.
      rewrite lastp_snoc. simpl first in E. rewrite E. cbn [mbind res_bind fst snd]. exists h', t', (l' ++ [(b, v_undef); (a, va)]).
      split_and!; [done|done| |rewrite !length_app; simpl; lia]. rewrite !fmap_app. simpl. rewrite rev_app_distr. simpl. by rewrite rev_involutive.
  - destruct (Nat.ltb_spec i (length l.*2)) as [Hi|]; [|done]. injection Ho as <- <-. rewrite length_fmap in Hi.
    destruct (lookup_lt_is_Some_2 l i Hi) as [[a va] Ha]. pose proof (take_drop_middle l i _ Ha) as El.
    assert (nth_node i h (iterFirst t) = Ret (Some a)) as ->.
    { unfold iterFirst. rewrite Hn. rewrite <- El in Hc |- *.
      pose proof (nth_node_ok (take i l) h None _ Hc) as E. rewrite length_take, Nat.min_l in E by lia. done. }
    cbn [mbind res_bind]. rewrite <- El in Hr. destruct (remove_g_ok h t _ a va _ Hr) as (h' & t' & E & Hr'); [rewrite El; lia|].
    unfold remove. rewrite E. cbn [mbind res_bind fst snd]. exists h', t', (take i l ++ drop (S i) l).
    split_and!; [done|done| |rewrite length_app, length_take, length_drop; lia].
    by rewrite delete_take_drop, fmap_app, fmap_take, fmap_drop.
  - destruct l as [|[a va] l]; [done|]. injection Ho as <- <-. destruct Hc as [Ha Hc]. unfold removeFirst, iterFirst.
    rewrite Hn. simpl first. rewrite (load_ok _ _ _ Ha). cbn [mbind res_bind value].
    destruct (remove_g_ok h t [] a va l Hr) as (h' & t' & -> & Hr'); [simpl in *; lia|]. cbn [mbind res_bind fst snd].
    exists h', t', l. split_and!; [done|done|done|simpl; lia].
  - destruct (last_case l) as [->|(l' & a & va & ->)]; [done|]. rewrite fmap_app in Ho. simpl in Ho.
    rewrite rev_app_distr in Ho. simpl in Ho. rewrite rev_involutive in Ho. injection Ho as <- <-. unfold removeLast, iterLast. rewrite Hp, lastp_snoc.
    rewrite (load_ok _ _ _ (chain_lookup h None l' a va [] None Hc)). cbn [mbind res_bind value].
    destruct (remove_g_ok h t l' a va [] Hr) as (h' & t' & -> & Hr'); [lia|]. cbn [mbind res_bind fst snd].
    rewrite app_nil_r in Hr'. exists h', t', l'. split_and!; [done|done|done|rewrite length_app; lia].
  - destruct (clean_g_ok h t l Hr) as (h' & -> & _); [lia|]. cbn [mbind res_bind fst snd].
    exists h', (mk None None 0), []. split_and!; [done|apply rep_nil|done|simpl; lia].
  - exists h, t, l. unfold count. rewrite Hcnt, length_fmap. split_and!; [done|done|done|lia].
  - unfold iterFirst. rewrite Hn, (walk_next_ok l _ h None Hc (size_ge h l None Hc Hd)). cbn [mbind res_bind].
    exists h, t, l. split_and!; [done|done|done|lia].
  - unfold iterLast. rewrite Hp, (walk_prev_ok l _ h None Hc (size_ge h l None Hc Hd)). cbn [mbind res_bind].
    exists h, t, l. split_and!; [done|done|done|lia].
Qed.

Lemma list_ops_ok os : forall h t l rs vs, rep h t l -> Z.of_nat (length l) + Z.of_nat (length os) < 2 ^ 32 ->
  list_ops l.*2 os = Some (rs, vs) ->
  exists h' t' l', run_ops h t os = Ret (rs, h', t') /\ rep h' t' l' /\ l'.*2 = vs.
Proof.
  induction os as [|o os IH]; intros h t l rs vs Hr Hlen Ho.
  - injection Ho as <- <-. by exists h, t, l.
  - cbn [list_ops] in Ho. destruct (list_op l.*2 o) as [[r vs1]|] eqn:Eo; [|done]. simpl in Hlen.
    destruct (list_op_ok h t l o r vs1 Hr ltac:(lia) Eo) as (h1 & t1 & l1 & E1 & Hr1 & <- & Hl1).
    cbn [mbind option_bind fst snd] in Ho. destruct (list_ops l1.*2 os) as [[rs1 vs2]|] eqn:Eos; [|done].
    injection Ho as <- <-. destruct (IH h1 t1 l1 rs1 vs2 Hr1 ltac:(lia) Eos) as (h' & t' & l' & E & Hr' & <-).
    exists h', t', l'. split_and!; [|done|done]. cbn [run_ops]. rewrite E1. cbn [mbind res_bind fst snd]. by rewrite E.
Qed.

End Ops.

(** ** Properties *)

(** C17. Refinement: any sequence of fewer than 2^32 operations of a [TList]
    that has a result on lists runs on the heap without a wrong access, with
    that result, and leaves a linked list of those values; [accInsertingNew]
    puts its element before the last one. *)
Theorem dlist_refines_list {V} (v_undef : V) (os : list (op V)) (rs : list (result V)) (vs : list V) :
  Z.of_nat (length os) < 2 ^ 32 -> list_ops v_undef [] os = Some (rs, vs) ->
  exists h t l, run_ops v_undef ∅ create os = Ret (rs, h, t) /\ rep h t l /\ l.*2 = vs.
Proof. intros Hlen Ho. apply (list_ops_ok v_undef os ∅ create []); [apply rep_nil|done|done]. Qed.

Lemma dlist_refines_list_witness :
  exists h t l, run_ops 0 ∅ create [Append 1; Append 2; Insert 3; InsertNew; Values; RemoveAt 1; RemoveLast; ValuesBack; Count] =
      Ret ([RUnit; RUnit; RUnit; RUnit; RValues [3; 1; 0; 2]; RUnit; RValue 2; RValues [0; 3]; RCount 2], h, t) /\
    rep h t l /\ l.*2 = [3; 0].
Proof. by apply dlist_refines_list. Defined.

(** [moveFrom] hands all nodes of another list over, destroys the nodes the
    destination had, and leaves the source empty. *)
Theorem move_transfers {V} (h : heap V) (t source : DList.t) (l ls : list (addr * V)) :
  rep h t l -> rep h source ls -> (forall a, a ∈ ls.*1 -> a ∉ l.*1) -> Z.of_nat (length l) < 2 ^ 32 ->
  exists h' t' source', moveFrom_g h t source = Ret (h', t', source') /\ rep h' t' ls /\ rep h' source' [] .
Proof. apply moveFrom_g_ok. Qed.

Lemma move_transfers_witness :
  exists h' t' source', moveFrom_g (<[1%positive := mk_node None None 10]> (<[2%positive := mk_node None None 20]> ∅))
      (mk (Some 1%positive) (Some 1%positive) 1) (mk (Some 2%positive) (Some 2%positive) 1) = Ret (h', t', source') /\
    rep h' t' [(2%positive, 20)] /\ rep h' source' [].
Proof.
  apply (move_transfers _ _ _ [(1%positive, 10)] [(2%positive, 20)]); [| |set_solver|done].
  - split; [done|repeat constructor; set_solver|done..].
  - split; [done|repeat constructor; set_solver|done..].
Defined.
