(* ===== verification/Avl.v ===== *)
(** * core/struct: Avl_c and TAvl

    The AVL tree with parent pointers of [Avl.cxx] and [Avl.hxx] on a heap of
    nodes. [refs] of a node are its left child, its parent and its right child;
    [balance] and [direction] are between -1 and 1. *)

From S2P Require Import Prelude Machine Heap.

Section Avl.
Context {K V : Type}.

(** [Compar::kcmp]. *)
Variable kcmp : K -> K -> Z.

Record node := mk_node {
  lchild : ptr;
  parent : ptr;
  rchild : ptr;
  balance : Z;
  direction : Z;
  node_k : K;
  node_v : V;
}.

#[local] Abbreviation heap := (gmap addr node).

Record t := mk { root : ptr; lowest : ptr; item_count : Z }.

Definition create : t := mk None None 0.

Definition count (s : t) : Z := item_count s.

(** ** Access to a node *)

(** [node->refs[i]]. *)
Definition get_ref (n : node) (i : Z) : res ptr :=
  if i =? 0 then Ret (lchild n)
  else if i =? 1 then Ret (parent n)
  else if i =? 2 then Ret (rchild n)
  else Crash OutOfBounds.

Definition with_ref (n : node) (i : Z) (p : ptr) : res node :=
  if i =? 0 then Ret (mk_node p (parent n) (rchild n) (balance n) (direction n) (node_k n) (node_v n))
  else if i =? 1 then Ret (mk_node (lchild n) p (rchild n) (balance n) (direction n) (node_k n) (node_v n))
  else if i =? 2 then Ret (mk_node (lchild n) (parent n) p (balance n) (direction n) (node_k n) (node_v n))
  else Crash OutOfBounds.

Definition ref_of (h : heap) (p : ptr) (i : Z) : res ptr := n ← load h p; get_ref n i.
Definition set_ref (h : heap) (p : ptr) (i : Z) (v : ptr) : res heap :=
  n ← load h p; n ← with_ref n i v; update h p (fun _ => n).
Definition set_parent (h : heap) (p : ptr) (v : ptr) : res heap :=
  update h p (fun n => mk_node (lchild n) v (rchild n) (balance n) (direction n) (node_k n) (node_v n)).
Definition set_balance (h : heap) (p : ptr) (b : Z) : res heap :=
  update h p (fun n => mk_node (lchild n) (parent n) (rchild n) b (direction n) (node_k n) (node_v n)).
Definition set_direction (h : heap) (p : ptr) (d : Z) : res heap :=
  update h p (fun n => mk_node (lchild n) (parent n) (rchild n) (balance n) d (node_k n) (node_v n)).
Definition set_value (h : heap) (p : ptr) (v : V) : res heap :=
  update h p (fun n => mk_node (lchild n) (parent n) (rchild n) (balance n) (direction n) (node_k n) v).

(** [TAvl::node_cmp] for the node and the key. *)
Definition node_cmp (n : node) (key : K) : Z :=
  let i := kcmp (node_k n) key in if 0 <=? i then (if 0 <? i then 1 else 0) else -1.

(** [node_def]; the constructor of [Node_c] clears the pointers, [balance] and
    [direction] are set by every caller. *)
Definition node_def (h : heap) (k : K) (v : V) : addr * heap := alloc h (mk_node None None None 0 0 k v).

(** ** Lookup *)

Fixpoint find_loop (fuel : nat) (h : heap) (cur : ptr) (key : K) : res ptr :=
  match cur with
  | None => Ret None
  | Some _ =>
    match fuel with
    | O => NoFuel
    | S fuel =>
      n ← load h cur;
      let c := - node_cmp n key in
      if c =? 0 then Ret cur else cur ← get_ref n (1 + c); find_loop fuel h cur key
    end
  end.

Definition find_g (h : heap) (s : t) (key : K) : res ptr := find_loop (size h) h (root s) key.

(** ** Rebalancing after an insertion *)

(** [if ((p->refs[i] = c) != NULL) { c->parent = p; c->direction = d; }]. *)
Definition adopt (h : heap) (p : ptr) (i : Z) (c : ptr) (d : Z) : res heap :=
  h ← set_ref h p i c;
  match c with
  | None => Ret h
  | Some _ => h ← set_parent h c p; set_direction h c d
  end.

(** [if ((n->parent = p) != NULL) n->parent->refs[1+n->direction] = n; else root = n;]. *)
Definition put_below (h : heap) (s : t) (n p : ptr) : res (heap * t) :=
  h ← set_parent h n p;
  match p with
  | Some _ => nd ← load h n; h ← set_ref h p (1 + direction nd) n; Ret (h, s)
  | None => Ret (h, mk n (lowest s) (item_count s))
  end.

Definition double_rotation_added (h : heap) (s : t) (par added : ptr) : res (heap * t) :=
  a ← load h added;
  let d := direction a in
  child ← get_ref a (1 - d);
  inner ← ref_of h child (1 - d);
  h ← adopt h par (1 + d) inner d;
  c ← load h child;
  h ← set_balance h par (if balance c =? d then - d else 0);
  outer ← ref_of h child (1 + d);
  h ← adopt h added (1 - d) outer (- d);
  c ← load h child;
  h ← set_balance h added (if balance c =? direction c then d else 0);
  p ← load h par;
  h ← set_direction h child (direction p);
  hs ← put_below h s child (parent p);
  let '(h, s) := hs in
  h ← set_parent h par child;
  h ← set_direction h par (- d);
  h ← set_parent h added child;
  h ← set_balance h child 0;
  h ← set_ref h child (1 - d) par;
  h ← set_ref h child (1 + d) added;
  Ret (h, s).

Definition single_rotation_added (h : heap) (s : t) (par added : ptr) : res (heap * t) :=
  a ← load h added;
  let d := direction a in
  inner ← get_ref a (1 - d);
  h ← adopt h par (1 + d) inner d;
  p ← load h par;
  let oldpardir := direction p in
  h ← set_direction h par (- d);
  h ← set_balance h par 0;
  h ← set_balance h added 0;
  h ← set_direction h added oldpardir;
  hs ← put_below h s added (parent p);
  let '(h, s) := hs in
  p ← load h par;
  h ← set_ref h added (1 + direction p) par;
  h ← set_parent h par added;
  Ret (h, s).

Fixpoint rebalance_added_loop (fuel : nat) (h : heap) (s : t) (added par : ptr) : res (heap * t) :=
  match fuel with
  | O => NoFuel
  | S fuel =>
    p ← load h par;
    a ← load h added;
    if balance p =? 0 then
      h ← set_balance h par (direction a);
      let added := par in
      a ← load h added;
      match parent a with
      | Some _ => rebalance_added_loop fuel h s added (parent a)
      | None => Ret (h, s)
      end
    else if negb (balance p =? direction a) then
      h ← set_balance h par 0; Ret (h, s)
    else if negb (balance p =? balance a) then double_rotation_added h s par added
    else single_rotation_added h s par added
  end.

Definition rebalanceAdded_g (h : heap) (s : t) (added : ptr) : res (heap * t) :=
  a ← load h added; rebalance_added_loop (size h) h s added (parent a).

(** ** Insertion *)

(** A [Node_c **]: the root pointer, or [&node->refs[i]]. *)
Inductive slot := SRoot | SRef (n : ptr) (i : Z).

Definition read_slot (h : heap) (s : t) (c : slot) : res ptr :=
  match c with SRoot => Ret (root s) | SRef n i => ref_of h n i end.
Definition write_slot (h : heap) (s : t) (c : slot) (p : ptr) : res (heap * t) :=
  match c with
  | SRoot => Ret (h, mk p (lowest s) (item_count s))
  | SRef n i => h ← set_ref h n i p; Ret (h, s)
  end.

(** The [for] loop of [create_g]: the slot it ends on and [last_step]. *)
Fixpoint slot_loop (fuel : nat) (h : heap) (s : t) (cur : slot) (last_step : Z) (key : K) : res (slot * Z) :=
  match fuel with
  | O => NoFuel
  | S fuel =>
    p ← read_slot h s cur;
    match p with
    | None => Ret (cur, last_step)
    | Some _ =>
      n ← load h p;
      let last_step := - node_cmp n key in
      if last_step =? 0 then Ret (cur, last_step)
      else slot_loop fuel h s (SRef p (1 + last_step)) last_step key
    end
  end.

(** The node that contains the slot, computed from its address. *)
Definition slot_node (c : slot) : ptr := match c with SRoot => None | SRef n _ => n end.

(** The part after the search that [create_g], [ncreate_g] and [replace_g]
    share: the new node is linked into the slot. *)
Definition link_new (h : heap) (s : t) (cur : slot) (last_step : Z) (key : K) (value : V) : res (ptr * heap * t) :=
  let '(a, h) := node_def h key value in
  hs ← write_slot h s cur (Some a);
  let '(h, s) := hs in
  let s := mk (root s) (lowest s) (u64 (item_count s + 1)) in
  h ← set_balance h (Some a) 0;
  h ← set_direction h (Some a) last_step;
  if last_step =? 0 then
    h ← set_parent h (Some a) None;
    Ret (Some a, h, mk (root s) (Some a) (item_count s))
  else
    h ← set_parent h (Some a) (slot_node cur);
    n ← load h (Some a);
    let s := if bool_decide (parent n = lowest s) && (direction n <? 0) then mk (root s) (Some a) (item_count s) else s in
    hs ← rebalanceAdded_g h s (Some a);
    Ret (Some a, fst hs, snd hs).

Definition create_g (h : heap) (s : t) (key : K) (value : V) : res (bool * heap * t) :=
  cl ← slot_loop (S (size h)) h s SRoot 0 key;
  let '(cur, last_step) := cl in
  p ← read_slot h s cur;
  match p with
  | Some _ => Ret (false, h, s)
  | None => r ← link_new h s cur last_step key value; Ret (true, snd (fst r), snd r)
  end.

Definition ncreate_g (h : heap) (s : t) (key : K) (value : V) : res (ptr * heap * t) :=
  cl ← slot_loop (S (size h)) h s SRoot 0 key;
  let '(cur, last_step) := cl in
  p ← read_slot h s cur;
  match p with
  | Some _ => Ret (p, h, s)
  | None =>
    r ← link_new h s cur last_step key value;
    p ← read_slot (snd (fst r)) (snd r) cur;
    Ret (p, snd (fst r), snd r)
  end.

Definition replace_g (h : heap) (s : t) (key : K) (value : V) : res (bool * heap * t) :=
  cl ← slot_loop (S (size h)) h s SRoot 0 key;
  let '(cur, last_step) := cl in
  p ← read_slot h s cur;
  match p with
  | Some _ => h ← set_value h p value; Ret (false, h, s)
  | None => r ← link_new h s cur last_step key value; Ret (true, snd (fst r), snd r)
  end.

(** ** Rebalancing after a removal *)

(** What a step of [rebalanceRemoved_g] ends with: done, or on to the parent. *)
Inductive step := Done | Next (n : ptr) (d : Z).

Definition double_rotation_removed (h : heap) (s : t) (n other : ptr) (d : Z) : res (heap * t * step) :=
  child ← ref_of h other (1 + d);
  inner ← ref_of h child (1 + d);
  h ← adopt h n (1 - d) inner (- d);
  c ← load h child;
  h ← set_balance h n (if negb (balance c =? - d) then 0 else d);
  outer ← ref_of h child (1 - d);
  h ← adopt h other (1 + d) outer d;
  c ← load h child;
  h ← set_balance h other (if balance c =? d then - d else 0);
  nd ← load h n;
  h ← set_direction h child (direction nd);
  hs ← put_below h s child (parent nd);
  let '(h, s) := hs in
  h ← set_ref h child (1 + d) n;
  h ← set_parent h n child;
  h ← set_direction h n d;
  h ← set_ref h child (1 - d) other;
  h ← set_parent h other child;
  h ← set_balance h child 0;
  c ← load h child;
  Ret (h, s, match parent c with Some _ => Next (parent c) (direction c) | None => Done end).

Definition single_rotation_removed (h : heap) (s : t) (n other : ptr) (d : Z) : res (heap * t * step) :=
  inner ← ref_of h other (1 + d);
  h ← adopt h n (1 - d) inner (- d);
  o ← load h other;
  h ← set_balance h n (if balance o =? - d then 0 else - d);
  h ← set_ref h other (1 + d) n;
  nd ← load h n;
  h ← set_direction h other (direction nd);
  hs ← put_below h s other (parent nd);
  let '(h, s) := hs in
  o ← load h other;
  let decreased := match parent o with Some _ => balance o =? - d | None => false end in
  h ← set_balance h other (s8 (balance o + d));
  h ← set_parent h n other;
  h ← set_direction h n d;
  o ← load h other;
  Ret (h, s, if decreased then Next (parent o) (direction o) else Done).

Definition rebalance_removed_step (h : heap) (s : t) (n : ptr) (d : Z) : res (heap * t * step) :=
  nd ← load h n;
  if balance nd =? 0 then
    h ← set_balance h n (s8 (balance nd - d)); Ret (h, s, Done)
  else if balance nd =? d then
    h ← set_balance h n 0;
    Ret (h, s, match parent nd with Some _ => Next (parent nd) (direction nd) | None => Done end)
  else
    other ← get_ref nd (1 - d);
    o ← load h other;
    if balance o =? d then double_rotation_removed h s n other d
    else single_rotation_removed h s n other d.

Fixpoint rebalance_removed_loop (fuel : nat) (h : heap) (s : t) (n : ptr) (d : Z) : res (heap * t) :=
  match fuel with
  | O => NoFuel
  | S fuel =>
    r ← rebalance_removed_step h s n d;
    match r with
    | (h, s, Done) => Ret (h, s)
    | (h, s, Next n d) => rebalance_removed_loop fuel h s n d
    end
  end.

Definition rebalanceRemoved_g (h : heap) (s : t) (n : ptr) (d : Z) : res (heap * t) :=
  rebalance_removed_loop (size h) h s n d.

(** ** Removal *)

(** [for (repl = ...; repl->refs[1-dir] != NULL; repl = repl->refs[1-dir])]. *)
Fixpoint innermost (fuel : nat) (h : heap) (repl : ptr) (i : Z) : res ptr :=
  match fuel with
  | O => NoFuel
  | S fuel =>
    c ← ref_of h repl i;
    match c with Some _ => innermost fuel h c i | None => Ret repl end
  end.

(** [if ((p->refs[i] = c) != NULL) c->parent = p;]. *)
Definition adopt_parent (h : heap) (p : ptr) (i : Z) (c : ptr) : res heap :=
  h ← set_ref h p i c;
  match c with None => Ret h | Some _ => set_parent h c p end.

(** The children of [node] become those of [repl], which leaves its own child to
    its parent; where the rebalancing starts. *)
Definition move_children (h : heap) (n repl : ptr) (dir : Z) : res (heap * ptr * Z) :=
  nd ← load h n;
  r ← load h repl;
  let par := parent r in
  if bool_decide (par = n) then
    far ← get_ref nd (1 - dir);
    h ← adopt_parent h repl (1 - dir) far;
    Ret (h, repl, dir)
  else
    moved ← get_ref r (1 + dir);
    h ← set_ref h par (1 - dir) moved;
    h ← match moved with
        | None => Ret h
        | Some _ => h ← set_direction h moved (- dir); set_parent h moved par
        end;
    far ← ref_of h n (1 - dir);
    h ← adopt_parent h repl (1 - dir) far;
    near ← ref_of h n (1 + dir);
    h ← adopt_parent h repl (1 + dir) near;
    Ret (h, par, - dir).

(** [repl] gets the balance and the place of [node]. *)
Definition take_place (h : heap) (s : t) (n repl : ptr) : res (heap * t) :=
  nd ← load h n;
  h ← set_balance h repl (balance nd);
  h ← set_direction h repl (direction nd);
  h ← set_parent h repl (parent nd);
  match parent nd with
  | Some _ => h ← set_ref h (parent nd) (1 + direction nd) repl; Ret (h, s)
  | None => Ret (h, mk repl (lowest s) (item_count s))
  end.

(** The innermost node of the subtree on the side [dir] takes the place of
    [node]: the heap and root, and where the rebalancing starts. *)
Definition substitute (h : heap) (s : t) (n : ptr) (dir : Z) : res (heap * t * ptr * Z) :=
  first ← ref_of h n (1 + dir);
  repl ← innermost (size h) h first (1 - dir);
  hp ← move_children h n repl dir;
  let '(h, par, dir) := hp in
  hs ← take_place h s n repl;
  Ret (fst hs, snd hs, par, dir).

(** The body of [remove_g] once the node is found. *)
Definition remove_found (h : heap) (s : t) (n : ptr) : res (heap * t) :=
  let s := mk (root s) (lowest s) (u64 (item_count s - 1)) in
  nd ← load h n;
  let lowest1 := if bool_decide (n = lowest s)
                 then match rchild nd with Some _ => rchild nd | None => parent nd end
                 else lowest s in
  if bool_decide (n = lowest s) && bool_decide (lowest1 = None) then
    h ← free h n; Ret (h, mk None None (item_count s))
  else
    let s := mk (root s) lowest1 (item_count s) in
    if (balance nd =? 0) && bool_decide (lchild nd = None) then
      h ← set_ref h (parent nd) (1 + direction nd) None;
      hs ← rebalanceRemoved_g h s (parent nd) (direction nd);
      h ← free (fst hs) n; Ret (h, snd hs)
    else
      let dir := if balance nd =? 0 then 1 else balance nd in
      r ← substitute h s n dir;
      let '(h, s, par, dir) := r in
      hs ← rebalanceRemoved_g h s par dir;
      h ← free (fst hs) n; Ret (h, snd hs).

Definition remove_g (h : heap) (s : t) (key : K) : res (bool * heap * t) :=
  n ← find_g h s key;
  match n with
  | Some _ => r ← remove_found h s n; Ret (true, fst r, snd r)
  | None => Ret (false, h, s)
  end.

(** ** The whole tree *)

Fixpoint destroy_recursive (fuel : nat) (h : heap) (n : ptr) : res heap :=
  match fuel with
  | O => NoFuel
  | S fuel =>
    nd ← load h n;
    h ← match lchild nd with Some _ => destroy_recursive fuel h (lchild nd) | None => Ret h end;
    h ← match rchild nd with Some _ => destroy_recursive fuel h (rchild nd) | None => Ret h end;
    free h n
  end.

Definition destroyRecursive_g (h : heap) (n : ptr) : res heap := destroy_recursive (S (size h)) h n.

Definition destroy_g (h : heap) (s : t) : res (heap * t) :=
  h ← match root s with Some _ => destroyRecursive_g h (root s) | None => Ret h end;
  Ret (h, mk None None 0).

Definition clean_g (h : heap) (s : t) : res (heap * t) :=
  match root s with
  | Some _ => h ← destroyRecursive_g h (root s); Ret (h, mk None None 0)
  | None => Ret (h, s)
  end.

(** The destination and the source after the move. *)
Definition moveFrom_g (h : heap) (s source : t) : res (heap * t * t) :=
  r ← destroy_g h s;
  Ret (fst r, mk (root source) (lowest source) (item_count source), mk None None 0).

(** The nodes the callback of [run_g] is called with, in order. *)
Fixpoint runOne_g (fuel : nat) (h : heap) (n : ptr) : res (list ptr) :=
  match fuel with
  | O => NoFuel
  | S fuel =>
    nd ← load h n;
    left ← match lchild nd with Some _ => runOne_g fuel h (lchild nd) | None => Ret [] end;
    right ← match parent nd with Some _ => runOne_g fuel h (rchild nd) | None => Ret [] end;
    Ret (left ++ n :: right)
  end.

Definition run_g (h : heap) (s : t) : res (list ptr) :=
  match root s with Some _ => runOne_g (S (size h)) h (root s) | None => Ret [] end.

(** ** Iteration *)

Definition iterFirst_g (s : t) : ptr := lowest s.

Fixpoint leftmost (fuel : nat) (h : heap) (c : ptr) : res ptr :=
  match fuel with
  | O => NoFuel
  | S fuel =>
    n ← load h c;
    match lchild n with Some _ => leftmost fuel h (lchild n) | None => Ret c end
  end.

Fixpoint climb (fuel : nat) (h : heap) (c : ptr) : res ptr :=
  match c with
  | None => Ret None
  | Some _ =>
    match fuel with
    | O => NoFuel
    | S fuel =>
      n ← load h c;
      if direction n <? 0 then Ret (parent n) else climb fuel h (parent n)
    end
  end.

Definition iterNext_g (h : heap) (c : ptr) : res ptr :=
  n ← load h c;
  match rchild n with
  | Some _ => leftmost (size h) h (rchild n)
  | None => if direction n <? 0 then Ret (parent n) else climb (size h) h (parent n)
  end.

(** ** TAvl *)

Definition find (h : heap) (s : t) (k : K) : res ptr := find_g h s k.
Definition create_value (h : heap) (s : t) (k : K) (v : V) : res (bool * heap * t) := create_g h s k v.
Definition replace (h : heap) (s : t) (k : K) (v : V) : res (bool * heap * t) := replace_g h s k v.
Definition remove (h : heap) (s : t) (k : K) : res (bool * heap * t) := remove_g h s k.
(** [v_dummy] is the default-constructed value. *)
Definition accCreating (v_dummy : V) (h : heap) (s : t) (k : K) : res (ptr * heap * t) := ncreate_g h s k v_dummy.
Definition accValue (h : heap) (s : t) (k : K) : res (option V) :=
  p ← find_g h s k;
  match p with Some _ => n ← load h p; Ret (Some (node_v n)) | None => Ret None end.

End Avl.

Arguments node : clear implicits.
Arguments mk_node {K V}.

(** The nodes of every tree, by address. *)
Abbreviation heap K V := (gmap addr (node K V)).
