(* ===== verification/AvlTree.v ===== *)
(** * Trees on the heap

    The functional trees the AVL heap stands for, the path from a subtree up to
    the root, and the representation of both on the heap. A side of a node is a
    bool, [true] for the right one, so that mirrored cases are one case. *)

From S2P Require Import Prelude Machine Heap Avl.

Section Tree.
Context {K V : Type}.

Inductive tree :=
| Leaf
| Node (l : tree) (a : addr) (k : K) (v : V) (r : tree).

Implicit Types (h : heap K V) (s : Avl.t) (T : tree) (d : bool).

Fixpoint height T : Z :=
  match T with Leaf => 0 | Node l _ _ _ r => 1 + Z.max (height l) (height r) end.

Fixpoint balanced T : Prop :=
  match T with Leaf => True | Node l _ _ _ r => -1 <= height r - height l <= 1 /\ balanced l /\ balanced r end.

Fixpoint inorder T : list (addr * K * V) :=
  match T with Leaf => [] | Node l a k v r => inorder l ++ (a, k, v) :: inorder r end.

Definition addrs T : list addr := (fun x => fst (fst x)) <$> inorder T.

Definition root_ptr T : ptr := match T with Leaf => None | Node _ a _ _ _ => Some a end.

Lemma height_nonneg T : 0 <= height T.
Proof. induction T; simpl; lia. Qed.

Lemma addrs_node l a k v r : addrs (Node l a k v r) = addrs l ++ a :: addrs r.
Proof. unfold addrs. simpl. by rewrite fmap_app. Qed.

(** ** Sides *)

Definition dz d : Z := if d then 1 else -1.

(** The node with [near] on the side [d] and [far] on the other. *)
Definition tnode d near (a : addr) (k : K) (v : V) far : tree :=
  if d then Node far a k v near else Node near a k v far.

Definition dnode d (near par far : ptr) (bal dir : Z) (k : K) (v : V) : Avl.node K V :=
  if d then mk_node far par near bal dir k v else mk_node near par far bal dir k v.

Lemma get_ref_near d near par far bal dir k v : get_ref (dnode d near par far bal dir k v) (1 + dz d) = Ret near.
Proof. by destruct d. Qed.
Lemma get_ref_far d near par far bal dir k v : get_ref (dnode d near par far bal dir k v) (1 - dz d) = Ret far.
Proof. by destruct d. Qed.
Lemma dnode_parent d near par far bal dir k v : parent (dnode d near par far bal dir k v) = par.
Proof. by destruct d. Qed.
Lemma dnode_balance d near par far bal dir k v : balance (dnode d near par far bal dir k v) = bal.
Proof. by destruct d. Qed.
Lemma dnode_direction d near par far bal dir k v : direction (dnode d near par far bal dir k v) = dir.
Proof. by destruct d. Qed.

Lemma height_tnode d near a k v far : height (tnode d near a k v far) = 1 + Z.max (height near) (height far).
Proof. destruct d; simpl; lia. Qed.

Lemma balanced_tnode d near a k v far : balanced (tnode d near a k v far) <->
  -1 <= height near - height far <= 1 /\ balanced near /\ balanced far.
Proof. destruct d; simpl; intuition lia. Qed.

Lemma addrs_tnode d near a k v far : addrs (tnode d near a k v far) ≡ₚ a :: addrs near ++ addrs far.
Proof. destruct d; unfold tnode; rewrite addrs_node; [rewrite (Permutation_app_comm (addrs near))|]; by rewrite Permutation_middle. Qed.

Lemma root_tnode d near a k v far : root_ptr (tnode d near a k v far) = Some a.
Proof. by destruct d. Qed.

Lemma tree_tnode d T a : root_ptr T = Some a -> exists near k v far, T = tnode d near a k v far.
Proof. destruct T as [|l b k v r]; [done|]. intros [= ->]. destruct d; [by exists r, k, v, l|by exists l, k, v, r]. Qed.

Lemma height_pos T : 0 < height T -> exists a, root_ptr T = Some a.
Proof. destruct T as [|l b k v r]; simpl; [lia|]. by eexists. Qed.

(** ** Representation of a tree *)

Fixpoint reps h (par : ptr) (dir : Z) T : Prop :=
  match T with
  | Leaf => True
  | Node l a k v r =>
    h !! a = Some (mk_node (root_ptr l) par (root_ptr r) (height r - height l) dir k v) /\
    reps h (Some a) (-1) l /\ reps h (Some a) 1 r
  end.

Lemma reps_tnode h par dir d near a k v far : reps h par dir (tnode d near a k v far) <->
  h !! a = Some (dnode d (root_ptr near) par (root_ptr far) (dz d * (height near - height far)) dir k v) /\
  reps h (Some a) (dz d) near /\ reps h (Some a) (- dz d) far.
Proof.
  destruct d; unfold tnode, dnode, dz; cbn [reps].
  - replace (1 * (height near - height far)) with (height near - height far) by lia. change (- (1)) with (-1). tauto.
  - replace (-1 * (height near - height far)) with (height far - height near) by lia. change (- -1) with 1. tauto.
Qed.

Lemma reps_agree h h' T : forall par dir, (forall x, x ∈ addrs T -> h' !! x = h !! x) -> reps h par dir T -> reps h' par dir T.
Proof.
  induction T as [|l IHl a k v r IHr]; intros par dir Ha; [done|]. rewrite addrs_node in Ha. simpl. intros (H1 & H2 & H3).
  split_and!; [rewrite Ha; [done|]|apply IHl; [|done]|apply IHr; [|done]]; try intros x Hx; try apply Ha; set_solver.
Qed.

(** ** Paths *)

(** A node on the path to the root: on which side the path goes down, the node
    and the subtree on its other side. The innermost node comes first. *)
Record frame := mk_frame { f_side : bool; f_a : addr; f_k : K; f_v : V; f_sib : tree }.

Definition fill (f : frame) T : tree := tnode (f_side f) T (f_a f) (f_k f) (f_v f) (f_sib f).

Fixpoint plug (c : list frame) T : tree := match c with [] => T | f :: c => plug c (fill f T) end.

Definition ptr_up (c : list frame) : ptr := match c with [] => None | f :: _ => Some (f_a f) end.
Definition dir_up (c : list frame) : Z := match c with [] => 0 | f :: _ => dz (f_side f) end.

(** The height of the node of [f] when the subtree below has height [hh]. *)
Definition fheight (f : frame) (hh : Z) : Z := 1 + Z.max hh (height (f_sib f)).

Definition caddrs (c : list frame) : list addr := c ≫= (fun f => f_a f :: addrs (f_sib f)).

(** The path above a subtree at [hole] that had height [hh] when the balances
    on the path were stored. *)
Fixpoint reps_path h s (c : list frame) (hole : ptr) (hh : Z) : Prop :=
  match c with
  | [] => root s = hole
  | f :: c' =>
    h !! f_a f = Some (dnode (f_side f) hole (ptr_up c') (root_ptr (f_sib f)) (dz (f_side f) * (hh - height (f_sib f))) (dir_up c') (f_k f) (f_v f)) /\
    reps h (Some (f_a f)) (- dz (f_side f)) (f_sib f) /\
    reps_path h s c' (Some (f_a f)) (fheight f hh)
  end.

Fixpoint balanced_path (c : list frame) (hh : Z) : Prop :=
  match c with
  | [] => True
  | f :: c => -1 <= hh - height (f_sib f) <= 1 /\ balanced (f_sib f) /\ balanced_path c (fheight f hh)
  end.

Lemma reps_path_agree h h' s s' c : forall hole hh, root s' = root s -> (forall x, x ∈ caddrs c -> h' !! x = h !! x) ->
  reps_path h s c hole hh -> reps_path h' s' c hole hh.
Proof.
  induction c as [|f c IH]; intros hole hh Hs Ha; simpl; [congruence|]. intros (H1 & H2 & H3). unfold caddrs in Ha. simpl in Ha.
  split_and!.
  - rewrite Ha; [done|]. set_solver.
  - eapply reps_agree; [|done]. intros x Hx. apply Ha. set_solver.
  - apply IH; [done| |done]. intros x Hx. apply Ha. set_solver.
Qed.

Lemma height_fill f T : height (fill f T) = fheight f (height T).
Proof. apply height_tnode. Qed.

(** A path and a subtree of the height the path expects are a tree. *)
Lemma reps_plug h s c : forall T, reps h (ptr_up c) (dir_up c) T -> reps_path h s c (root_ptr T) (height T) ->
  reps h None 0 (plug c T) /\ root s = root_ptr (plug c T).
Proof.
  induction c as [|f c IH]; intros T HT Hc; [done|]. destruct Hc as (H1 & H2 & H3). simpl. apply IH.
  - apply reps_tnode. by split_and!.
  - unfold fill. rewrite root_tnode. fold (fill f T). by rewrite height_fill.
Qed.

Lemma reps_unplug h s c : forall T, reps h None 0 (plug c T) -> root s = root_ptr (plug c T) ->
  reps h (ptr_up c) (dir_up c) T /\ reps_path h s c (root_ptr T) (height T).
Proof.
  induction c as [|f c IH]; intros T HT Hs; [done|]. simpl in HT, Hs. destruct (IH _ HT Hs) as [H1 H2].
  unfold fill in H1. apply reps_tnode in H1 as (H1a & H1b & H1c). rewrite height_fill in H2. unfold fill in H2. rewrite root_tnode in H2.
  by split_and!.
Qed.

Lemma balanced_plug c : forall T, balanced (plug c T) <-> balanced T /\ balanced_path c (height T).
Proof.
  induction c as [|f c IH]; intros T; simpl; [tauto|]. rewrite IH. unfold fill at 1. rewrite balanced_tnode, height_fill. tauto.
Qed.

(** What the path adds on both sides of the subtree in order. *)
Fixpoint lefts (c : list frame) : list (addr * K * V) :=
  match c with
  | [] => []
  | f :: c => lefts c ++ (if f_side f then inorder (f_sib f) ++ [(f_a f, f_k f, f_v f)] else [])
  end.
Fixpoint rights (c : list frame) : list (addr * K * V) :=
  match c with
  | [] => []
  | f :: c => (if f_side f then [] else (f_a f, f_k f, f_v f) :: inorder (f_sib f)) ++ rights c
  end.

Lemma inorder_plug c : forall T, inorder (plug c T) = lefts c ++ inorder T ++ rights c.
Proof.
  induction c as [|f c IH]; intros T; simpl; [by rewrite app_nil_r|]. rewrite IH. unfold fill, tnode.
  destruct (f_side f); simpl; rewrite <- ?app_assoc; simpl; by rewrite <- ?app_assoc.
Qed.

Lemma addrs_plug c : forall T, addrs (plug c T) ≡ₚ addrs T ++ caddrs c.
Proof.
  induction c as [|f c IH]; intros T; simpl; [by rewrite app_nil_r|]. rewrite IH. unfold fill. rewrite addrs_tnode.
  unfold caddrs. simpl. rewrite <- !app_assoc. simpl. by rewrite <- Permutation_middle.
Qed.

Lemma caddrs_cons f c : caddrs (f :: c) = f_a f :: addrs (f_sib f) ++ caddrs c.
Proof. done. Qed.

Lemma plug_app c1 c2 T : plug (c1 ++ c2) T = plug c2 (plug c1 T).
Proof. revert T. induction c1 as [|f c1 IH]; intros T; simpl; auto. Qed.

(** ** Changes of the heap away from a tree *)

(** [h'] is [h] except at [p] and at the addresses in [L]. *)
Definition same_but (p : addr) (L : list addr) h h' : Prop := forall x, x <> p -> x ∉ L -> h' !! x = h !! x.

Lemma same_but_insert p n h : same_but p [] h (<[p := n]> h).
Proof. intros x Hx _. apply lookup_insert_ne. congruence. Qed.

Lemma reps_frame p L h h' par dir T : same_but p L h h' -> p ∉ addrs T -> L ## addrs T -> reps h par dir T -> reps h' par dir T.
Proof. intros Hs Hp HL. apply reps_agree. intros x Hx. apply Hs; [by intros ->|]. intros HxL. by apply (HL x). Qed.

Lemma path_frame p L h h' s c hole hh : same_but p L h h' -> p ∉ caddrs c -> L ## caddrs c ->
  reps_path h s c hole hh -> reps_path h' s c hole hh.
Proof. intros Hs Hp HL. apply reps_path_agree; [done|]. intros x Hx. apply Hs; [by intros ->|]. intros HxL. by apply (HL x). Qed.

Lemma lookup_frame p L h h' x n : same_but p L h h' -> x <> p -> x ∉ L -> h !! x = Some n -> h' !! x = Some n.
Proof. intros Hs Hx HL <-. by apply Hs. Qed.

End Tree.

Arguments tree : clear implicits.
Arguments frame : clear implicits.
