(* ===== verification/AvlBalance.v ===== *)
(** * Rotations and rebalancing of the AVL tree

    Every rotation of [Avl.cxx] turns the heap that represents a tree into one
    that represents the rotated tree, and the loops restore the balance of the
    whole tree. *)

From S2P Require Import Prelude Machine Heap Avl AvlTree.

(** ** Taking disjointness apart *)

Lemma NoDup_app_disjoint {A} (l k : list A) : NoDup (l ++ k) <-> NoDup l /\ l ## k /\ NoDup k.
Proof. rewrite list.NoDup_app. unfold disjoint, set_disjoint_instance. naive_solver. Qed.

Lemma disjoint_app {A} (l k1 k2 : list A) : l ## k1 ++ k2 <-> l ## k1 /\ l ## k2.
Proof. split; [intros H; split; intros x Hx Hk; apply (H x Hx); set_solver|]. intros [H1 H2] x Hx Hk. set_solver. Qed.

Lemma disjoint_cons {A} (l k : list A) x : l ## x :: k <-> x ∉ l /\ l ## k.
Proof. split; [intros H; split; [intros Hx; apply (H x Hx); set_solver|intros y Hy Hk; apply (H y Hy); set_solver]|]. intros [H1 H2] y Hy Hk. set_solver. Qed.

Lemma disjoint_nil {A} (l : list A) : [] ## l.
Proof. intros x Hx. by apply not_elem_of_nil in Hx. Qed.

Lemma disjoint_flip {A} (l k : list A) : l ## k -> k ## l.
Proof. intros H x Hx Hy. by apply (H x). Qed.

Ltac split_nodup :=
  repeat match goal with
  | H : NoDup (_ :: _) |- _ => apply list.NoDup_cons in H; destruct H
  | H : NoDup (_ ++ _) |- _ => apply NoDup_app_disjoint in H; destruct H as (? & ? & ?)
  | H : _ ∉ _ :: _ |- _ => apply not_elem_of_cons in H; destruct H
  | H : _ ∉ _ ++ _ |- _ => apply not_elem_of_app in H; destruct H
  | H : _ ## _ ++ _ |- _ => apply disjoint_app in H; destruct H
  | H : _ ## _ :: _ |- _ => apply disjoint_cons in H; destruct H
  end.

Ltac away := first
  [ assumption
  | apply disjoint_flip; assumption
  | apply not_eq_sym; assumption
  | apply disjoint_nil
  | apply not_elem_of_nil
  | congruence ].

(** What is known of a heap stays known after a change elsewhere. *)
Ltac carry Hs :=
  match type of Hs with
  | same_but ?p ?L ?h ?h' =>
    repeat match goal with
    | H : reps h _ _ _ |- _ => apply (reps_frame p L h h' _ _ _ Hs) in H; [|away|away]
    | H : reps_path h _ _ _ _ |- _ => apply (path_frame p L h h' _ _ _ _ Hs) in H; [|away|away]
    | H : h !! _ = Some _ |- _ => apply (lookup_frame p L h h' _ _ Hs) in H; [|away|away]
    end
  end.

(** A store into the node at [a], of which [H] says what it was: the new heap
    gets the name [h'] and everything known is carried over. *)
Ltac store_as L H h' :=
  match type of H with
  | ?h !! ?a = Some _ =>
    rewrite (L _ _ _ _ _ _ _ _ _ _ _ H); cbn [mbind res_bind];
    match goal with
    | |- context [<[a := ?n]> h] =>
      let Hs := fresh "Hs" in let E := fresh "E" in
      pose proof (same_but_insert a n h) as Hs;
      assert (<[a := n]> h !! a = Some n) as E by apply lookup_insert_eq;
      set (h' := <[a := n]> h) in *; clearbody h'; clear H; rename E into H; carry Hs
    end
  end.

(** The balances of the rotated nodes: a comparison decided by the heights. *)
Ltac heights d := destruct d; unfold dz in *; ztest; simpl negb; cbv iota; lia.

(** An address apart from all changes has the node it had. *)
Ltac unchanged :=
  repeat match goal with
  | Hs : same_but _ _ ?h1 ?h2 |- ?h2 !! ?x = _ => rewrite (Hs x); [clear Hs|away|away]
  end; reflexivity.

Ltac not_in :=
  repeat first
    [ assumption
    | match goal with
      | |- _ /\ _ => split
      | |- _ ∉ _ :: _ => apply not_elem_of_cons
      | |- _ ∉ _ ++ _ => apply not_elem_of_app
      end ].

Section Balance.
Context {K V : Type}.
Implicit Types (h : heap K V) (s : Avl.t) (T : tree K V) (d : bool) (c : list (frame K V)).

(** ** Changing a node *)

Lemma set_ref_near h a d near par far bal dir k v x : h !! a = Some (dnode d near par far bal dir k v) ->
  set_ref h (Some a) (1 + dz d) x = Ret (<[a := dnode d x par far bal dir k v]> h).
Proof.
  intros H. unfold set_ref. rewrite (load_ok _ _ _ H). cbn [mbind res_bind].
  assert (with_ref (dnode d near par far bal dir k v) (1 + dz d) x = Ret (dnode d x par far bal dir k v)) as -> by (by destruct d).
  cbn [mbind res_bind]. by rewrite (update_ok _ _ _ _ H).
Qed.

Lemma set_ref_far h a d near par far bal dir k v x : h !! a = Some (dnode d near par far bal dir k v) ->
  set_ref h (Some a) (1 - dz d) x = Ret (<[a := dnode d near par x bal dir k v]> h).
Proof.
  intros H. unfold set_ref. rewrite (load_ok _ _ _ H). cbn [mbind res_bind].
  assert (with_ref (dnode d near par far bal dir k v) (1 - dz d) x = Ret (dnode d near par x bal dir k v)) as -> by (by destruct d).
  cbn [mbind res_bind]. by rewrite (update_ok _ _ _ _ H).
Qed.

Lemma set_parent_dnode h a d near par far bal dir k v x : h !! a = Some (dnode d near par far bal dir k v) ->
  set_parent h (Some a) x = Ret (<[a := dnode d near x far bal dir k v]> h).
Proof. intros H. unfold set_parent. rewrite (update_ok _ _ _ _ H). by destruct d. Qed.

Lemma set_balance_dnode h a d near par far bal dir k v x : h !! a = Some (dnode d near par far bal dir k v) ->
  set_balance h (Some a) x = Ret (<[a := dnode d near par far x dir k v]> h).
Proof. intros H. unfold set_balance. rewrite (update_ok _ _ _ _ H). by destruct d. Qed.

Lemma set_direction_dnode h a d near par far bal dir k v x : h !! a = Some (dnode d near par far bal dir k v) ->
  set_direction h (Some a) x = Ret (<[a := dnode d near par far bal x k v]> h).
Proof. intros H. unfold set_direction. rewrite (update_ok _ _ _ _ H). by destruct d. Qed.

Lemma ref_of_near h a d near par far bal dir k v : h !! a = Some (dnode d near par far bal dir k v) ->
  ref_of h (Some a) (1 + dz d) = Ret near.
Proof. intros H. unfold ref_of. rewrite (load_ok _ _ _ H). by destruct d. Qed.

Lemma ref_of_far h a d near par far bal dir k v : h !! a = Some (dnode d near par far bal dir k v) ->
  ref_of h (Some a) (1 - dz d) = Ret far.
Proof. intros H. unfold ref_of. rewrite (load_ok _ _ _ H). by destruct d. Qed.

(** ** Moving a subtree *)

Lemma reroot h par dir T par' dir' a : reps h par dir T -> root_ptr T = Some a -> NoDup (addrs T) ->
  exists h1 h2, set_parent h (Some a) par' = Ret h1 /\ set_direction h1 (Some a) dir' = Ret h2 /\
    reps h2 par' dir' T /\ same_but a [] h h2.
Proof.
  intros HT Hr Hd. destruct T as [|l b k v r]; [done|]. injection Hr as ->. destruct HT as (H1 & H2 & H3).
  rewrite addrs_node in Hd. apply list.NoDup_app in Hd as (_ & Hl & [Hr _]%list.NoDup_cons).
  unfold set_parent. rewrite (update_ok _ _ _ _ H1). cbn [lchild rchild balance direction node_k node_v].
  eexists _, _. split; [reflexivity|]. unfold set_direction. rewrite (update_ok _ _ _ _ (lookup_insert_eq _ _ _)).
  cbn [lchild parent rchild balance direction node_k node_v]. split; [reflexivity|]. rewrite insert_insert_eq.
  assert (forall n, same_but a [] h (<[a:=n]> h)) as Hs by (intros n; apply same_but_insert).
  split; [|apply Hs]. split_and!; [by rewrite lookup_insert_eq|..].
  - eapply reps_frame; [apply Hs| |set_solver|done]. intros Ha. apply (Hl a Ha). set_solver.
  - by eapply reps_frame; [apply Hs| |set_solver|done].
Qed.

(** [adopt] on the side [d] of the node [p] and on the other side. *)
Lemma adopt_near h p d near par far bal dir k v T par0 dir0 e : h !! p = Some (dnode d near par far bal dir k v) ->
  reps h par0 dir0 T -> p ∉ addrs T -> NoDup (addrs T) ->
  exists h', adopt h (Some p) (1 + dz d) (root_ptr T) e = Ret h' /\ same_but p (addrs T) h h' /\
    h' !! p = Some (dnode d (root_ptr T) par far bal dir k v) /\ reps h' (Some p) e T.
Proof.
  intros Hp HT Hn Hd. unfold adopt. rewrite (set_ref_near _ _ _ _ _ _ _ _ _ _ _ Hp). cbn [mbind res_bind].
  set (h1 := <[p := _]> h). assert (same_but p [] h h1) as Hs1 by apply same_but_insert.
  assert (h1 !! p = Some (dnode d (root_ptr T) par far bal dir k v)) as Hp1 by (unfold h1; by rewrite lookup_insert_eq).
  destruct (root_ptr T) as [a|] eqn:Er.
  - assert (reps h1 par0 dir0 T) as HT1 by (eapply reps_frame; [exact Hs1|done|set_solver|done]).
    destruct (reroot h1 par0 dir0 T (Some p) e a HT1 Er Hd) as (h2 & h3 & -> & E & HT3 & Hs3). cbn [mbind res_bind].
    assert (a ∈ addrs T) as Ha by (destruct T as [|? b ???]; [done|]; injection Er as ->; rewrite addrs_node; set_solver).
    exists h3. split_and!; [done| | |done].
    + intros x Hx HxT. rewrite Hs3; [by apply Hs1; [|set_solver]| |set_solver]. by intros ->.
    + apply (lookup_frame a [] h1); [done| |set_solver|done]. by intros ->.
  - exists h1. split_and!; [done| |done|by destruct T]. intros x Hx _. by apply Hs1; [|set_solver].
Qed.

Lemma dnode_flip d near par far bal dir k v : dnode d near par far bal dir k v = dnode (negb d) far par near bal dir k v :> Avl.node K V.
Proof. by destruct d. Qed.

Lemma dz_negb d : dz (negb d) = - dz d.
Proof. by destruct d. Qed.

Lemma adopt_far h p d near par far bal dir k v T par0 dir0 e : h !! p = Some (dnode d near par far bal dir k v) ->
  reps h par0 dir0 T -> p ∉ addrs T -> NoDup (addrs T) ->
  exists h', adopt h (Some p) (1 - dz d) (root_ptr T) e = Ret h' /\ same_but p (addrs T) h h' /\
    h' !! p = Some (dnode d near par (root_ptr T) bal dir k v) /\ reps h' (Some p) e T.
Proof.
  intros Hp HT Hn Hd. rewrite dnode_flip in Hp.
  destruct (adopt_near h p (negb d) far par near bal dir k v T par0 dir0 e Hp HT Hn Hd) as (h' & E & Hr).
  rewrite dz_negb in E. change (1 + - dz d) with (1 - dz d) in E. exists h'. split; [done|]. by rewrite dnode_flip.
Qed.

(** Putting a node where the path expects its subtree. *)
Lemma put_below_ok h s c n d near par far bal k v hole hh : h !! n = Some (dnode d near par far bal (dir_up c) k v) ->
  reps_path h s c hole hh -> n ∉ caddrs c -> NoDup (caddrs c) ->
  exists h' s', put_below h s (Some n) (ptr_up c) = Ret (h', s') /\ same_but n (caddrs c) h h' /\
    h' !! n = Some (dnode d near (ptr_up c) far bal (dir_up c) k v) /\ reps_path h' s' c (Some n) hh /\
    lowest s' = lowest s /\ item_count s' = item_count s.
Proof.
  intros Hn Hc Hnc Hd. unfold put_below. rewrite (set_parent_dnode _ _ _ _ _ _ _ _ _ _ _ Hn). cbn [mbind res_bind].
  set (h1 := <[n := _]> h). assert (same_but n [] h h1) as Hs1 by apply same_but_insert.
  assert (h1 !! n = Some (dnode d near (ptr_up c) far bal (dir_up c) k v)) as Hn1 by (unfold h1; by rewrite lookup_insert_eq).
  assert (reps_path h1 s c hole hh) as Hc1 by (eapply path_frame; [exact Hs1|done|set_solver|done]).
  destruct c as [|f c]; simpl ptr_up; cbv iota.
  - eexists _, _. split; [reflexivity|]. by split_and!.
  - rewrite (load_ok _ _ _ Hn1). cbn [mbind res_bind]. rewrite dnode_direction. simpl dir_up.
    destruct Hc1 as (Hf & Hsib & Hc1). rewrite (set_ref_near _ _ _ _ _ _ _ _ _ _ _ Hf). cbn [mbind res_bind].
    unfold caddrs in Hnc, Hd. simpl in Hnc, Hd. apply list.NoDup_cons in Hd as [Hf1 Hd]. apply not_elem_of_app in Hf1 as [Hf1 Hf2].
    apply not_elem_of_cons in Hnc as [Hnf Hnc].
    eexists _, _. split; [reflexivity|]. set (h2 := <[f_a f := _]> h1). assert (same_but (f_a f) [] h1 h2) as Hs2 by apply same_but_insert.
    split_and!; try done.
    + intros x Hx HxL. rewrite Hs2; [apply Hs1|..]; [done|set_solver|set_solver|set_solver].
    + by eapply lookup_frame; [exact Hs2| |set_solver|done].
    + simpl. split_and!; [unfold h2; by rewrite lookup_insert_eq| |].
      * by eapply reps_frame; [exact Hs2| |set_solver|done].
      * by eapply path_frame; [exact Hs2| |set_solver|done].
Qed.

Lemma dnode_at h a d near par far bal bal' dir k v : h !! a = Some (dnode d near par far bal dir k v) -> bal = bal' ->
  h !! a = Some (dnode d near par far bal' dir k v).
Proof. by intros H <-. Qed.

(** ** The rotations after an insertion *)

Lemma double_rotation_added_ok h s c hh d p kp vp X a ka va AR b kb vb CR CL :
  h !! p = Some (dnode d (Some a) (ptr_up c) (root_ptr X) (dz d) (dir_up c) kp vp) ->
  reps h (Some p) (dz d) (tnode d AR a ka va (tnode d CR b kb vb CL)) -> reps h (Some p) (- dz d) X ->
  reps_path h s c (Some p) hh ->
  height AR = height X -> Z.max (height CR) (height CL) = height X -> -1 <= height CR - height CL <= 1 ->
  NoDup (p :: a :: b :: addrs AR ++ addrs CR ++ addrs CL ++ addrs X ++ caddrs c) ->
  exists h' s', double_rotation_added h s (Some p) (Some a) = Ret (h', s') /\
    reps h' (ptr_up c) (dir_up c) (tnode d (tnode d AR a ka va CR) b kb vb (tnode d CL p kp vp X)) /\
    reps_path h' s' c (Some b) hh /\ lowest s' = lowest s /\ item_count s' = item_count s /\
    (forall x, x ∉ p :: a :: b :: addrs CR ++ addrs CL ++ caddrs c -> h' !! x = h !! x).
Proof.
  intros Hp HA HX Hc HhA HhC HbC Hd. split_nodup.
  apply reps_tnode in HA as (Ha & HAR & HC). apply reps_tnode in HC as (Hb & HCR & HCL). rewrite root_tnode, height_tnode in Ha.
  unfold double_rotation_added. rewrite (load_ok _ _ _ Ha). cbn [mbind res_bind]. rewrite dnode_direction, get_ref_far. cbn [mbind res_bind].
  rewrite (ref_of_far _ _ _ _ _ _ _ _ _ _ Hb). cbn [mbind res_bind].
  destruct (adopt_near h p d _ _ _ _ _ _ _ CL _ _ (dz d) Hp HCL) as (h1 & -> & Hs1 & Hp1 & HCL1); [away..|]. cbn [mbind res_bind].
  clear HCL. carry Hs1.
  rewrite (load_ok _ _ _ Hb). cbn [mbind res_bind]. rewrite dnode_balance.
  store_as @set_balance_dnode Hp1 h2.
  rewrite (ref_of_near _ _ _ _ _ _ _ _ _ _ Hb). cbn [mbind res_bind].
  destruct (adopt_far h2 a d _ _ _ _ _ _ _ CR _ _ (- dz d) Ha HCR) as (h3 & -> & Hs3 & Ha3 & HCR3); [away..|]. cbn [mbind res_bind].
  clear HCR. carry Hs3.
  rewrite (load_ok _ _ _ Hb). cbn [mbind res_bind]. rewrite dnode_balance, dnode_direction.
  store_as @set_balance_dnode Ha3 h4.
  rewrite (load_ok _ _ _ Hp1). cbn [mbind res_bind]. rewrite dnode_direction, dnode_parent.
  store_as @set_direction_dnode Hb h5.
  destruct (put_below_ok h5 s c b _ _ _ _ _ _ _ _ _ Hb Hc) as (h6 & s6 & -> & Hs6 & Hb6 & Hc6 & Hlow & Hcnt); [away..|]. cbn [mbind res_bind].
  clear Hc. carry Hs6.
  store_as @set_parent_dnode Hp1 h7. store_as @set_direction_dnode Hp1 h8.
  store_as @set_parent_dnode Ha3 h9. store_as @set_balance_dnode Hb6 h10.
  store_as @set_ref_far Hb6 h11. store_as @set_ref_near Hb6 h12.
  eexists _, _. split; [reflexivity|]. split_and!; [|exact Hc6|exact Hlow|exact Hcnt|].
  - rewrite !reps_tnode, !root_tnode, !height_tnode. split_and!; try assumption; (eapply dnode_at; [eassumption|heights d]).
  - intros x Hx. split_nodup. unchanged.
Qed.

Lemma single_rotation_added_ok h s c hh d p kp vp X a ka va AR AL :
  h !! p = Some (dnode d (Some a) (ptr_up c) (root_ptr X) (dz d) (dir_up c) kp vp) ->
  reps h (Some p) (dz d) (tnode d AR a ka va AL) -> reps h (Some p) (- dz d) X ->
  reps_path h s c (Some p) hh ->
  height AR = height X + 1 -> height AL = height X ->
  NoDup (p :: a :: addrs AR ++ addrs AL ++ addrs X ++ caddrs c) ->
  exists h' s', single_rotation_added h s (Some p) (Some a) = Ret (h', s') /\
    reps h' (ptr_up c) (dir_up c) (tnode d AR a ka va (tnode d AL p kp vp X)) /\
    reps_path h' s' c (Some a) hh /\ lowest s' = lowest s /\ item_count s' = item_count s /\
    (forall x, x ∉ p :: a :: addrs AL ++ caddrs c -> h' !! x = h !! x).
Proof.
  intros Hp HA HX Hc HhR HhL Hd. split_nodup. apply reps_tnode in HA as (Ha & HAR & HAL).
  unfold single_rotation_added. rewrite (load_ok _ _ _ Ha). cbn [mbind res_bind]. rewrite dnode_direction, get_ref_far. cbn [mbind res_bind].
  destruct (adopt_near h p d _ _ _ _ _ _ _ AL _ _ (dz d) Hp HAL) as (h1 & -> & Hs1 & Hp1 & HAL1); [away..|]. cbn [mbind res_bind].
  clear HAL. carry Hs1.
  rewrite (load_ok _ _ _ Hp1). cbn [mbind res_bind]. rewrite dnode_direction, dnode_parent.
  store_as @set_direction_dnode Hp1 h2. store_as @set_balance_dnode Hp1 h3.
  store_as @set_balance_dnode Ha h4. store_as @set_direction_dnode Ha h5.
  destruct (put_below_ok h5 s c a _ _ _ _ _ _ _ _ _ Ha Hc) as (h6 & s6 & -> & Hs6 & Ha6 & Hc6 & Hlow & Hcnt); [away..|]. cbn [mbind res_bind].
  clear Hc. carry Hs6.
  rewrite (load_ok _ _ _ Hp1). cbn [mbind res_bind]. rewrite dnode_direction. change (1 + - dz d) with (1 - dz d).
  store_as @set_ref_far Ha6 h7. store_as @set_parent_dnode Hp1 h8.
  eexists _, _. split; [reflexivity|]. split_and!; [|exact Hc6|exact Hlow|exact Hcnt|].
  - rewrite !reps_tnode, !root_tnode, !height_tnode. split_and!; try assumption; (eapply dnode_at; [eassumption|heights d]).
  - intros x Hx. split_nodup. unchanged.
Qed.

(** ** The loop after an insertion *)

(** The trees that a rotation replaces by others with the same elements. *)
Lemma inorder_single d AR a ka va AL p kp vp X :
  inorder (tnode (K:=K) (V:=V) d AR a ka va (tnode d AL p kp vp X)) = inorder (tnode d (tnode d AR a ka va AL) p kp vp X).
Proof. destruct d; simpl; by rewrite <- app_assoc. Qed.

Lemma inorder_double d AR a ka va CR b kb vb CL p kp vp X :
  inorder (tnode (K:=K) (V:=V) d (tnode d AR a ka va CR) b kb vb (tnode d CL p kp vp X)) =
  inorder (tnode d (tnode d AR a ka va (tnode d CR b kb vb CL)) p kp vp X).
Proof. destruct d; simpl; by rewrite <- !app_assoc; simpl; rewrite <- ?app_assoc. Qed.

Lemma inorder_plug_eq c T1 T2 : inorder T1 = inorder T2 -> inorder (plug c T1) = inorder (plug c T2).
Proof. intros H. by rewrite !inorder_plug, H. Qed.

(** The subtree at the end of the path has grown by one: the loop makes the
    whole tree balanced again. *)
Definition rebalanced h s h' s' T (L : list (addr * K * V)) (As : list addr) : Prop :=
  reps h' None 0 T /\ root s' = root_ptr T /\ balanced T /\ inorder T = L /\
  lowest s' = lowest s /\ item_count s' = item_count s /\ (forall x, x ∉ As -> h' !! x = h !! x).

(** The last step: what the path expects is there again. *)
Lemma rebalanced_plug h s h' s' c T T0 As : reps h' (ptr_up c) (dir_up c) T -> reps_path h' s' c (root_ptr T) (height T) ->
  balanced T -> balanced_path c (height T) -> inorder T = inorder T0 -> lowest s' = lowest s -> item_count s' = item_count s ->
  (forall x, x ∉ As -> h' !! x = h !! x) -> rebalanced h s h' s' (plug c T) (inorder (plug c T0)) As.
Proof.
  intros HT Hc Hb Hbc Hi Hl Hn Hx. destruct (reps_plug h' s' c T HT Hc) as [H1 H2].
  split_and!; try done; [by apply balanced_plug|by apply inorder_plug_eq].
Qed.

Lemma rebalanced_trans h s h1 h' s' T L As1 As : rebalanced h1 s h' s' T L As1 ->
  (forall x, x ∉ As -> (x ∉ As1) /\ h1 !! x = h !! x) -> rebalanced h s h' s' T L As.
Proof.
  intros (H1 & H2 & H3 & H4 & H5 & H6 & H7) Hx. split_and!; try done. intros x Ha. destruct (Hx x Ha) as [Ha1 <-]. by apply H7.
Qed.

Lemma rebalance_rotations c fuel h s T a hh d p kp vp X :
  root_ptr T = Some a -> reps h (Some p) (dz d) T ->
  h !! p = Some (dnode d (Some a) (ptr_up c) (root_ptr X) (dz d) (dir_up c) kp vp) ->
  reps h (Some p) (- dz d) X -> reps_path h s c (Some p) (1 + Z.max hh (height X)) ->
  height T = hh + 1 -> hh = height X + 1 -> balanced T -> balanced X -> balanced_path c (1 + Z.max hh (height X)) ->
  match T with Node l _ _ _ r => height l <> height r | Leaf => True end ->
  NoDup (addrs T ++ p :: addrs X ++ caddrs c) ->
  exists h' s' T', rebalance_added_loop (S fuel) h s (Some a) (Some p) = Ret (h', s') /\
    rebalanced h s h' s' T' (inorder (plug c (tnode d T p kp vp X))) (addrs T ++ p :: addrs X ++ caddrs c).
Proof.
  intros Hr HT Hp HX Hc Hh HhX Hb HbX Hbc Hg Hd.
  destruct (tree_tnode d T a Hr) as (N & ka & va & F & ->). pose proof HT as HT0. apply reps_tnode in HT as (Ha & HN & HF).
  apply balanced_tnode in Hb as (HbT & HbN & HbF). rewrite height_tnode in Hh.
  assert (height N <> height F) as HNF by (destruct d; simpl in Hg; congruence).
  cbn [rebalance_added_loop]. rewrite (load_ok _ _ _ Hp). cbn [mbind res_bind]. rewrite (load_ok _ _ _ Ha). cbn [mbind res_bind].
  rewrite !dnode_balance, !dnode_direction, Z.eqb_refl. simpl negb.
  destruct (Z.eqb_spec (dz d) 0) as [E|_]; [by destruct d|].
  rewrite addrs_tnode in Hd.
  destruct (Z.eqb_spec (dz d) (dz d * (height N - height F))) as [E|E]; simpl negb; cbv iota.
  - assert (height N = height X + 1 /\ height F = height X) as [HhN HhF] by (destruct d; unfold dz in E; lia).
    destruct (single_rotation_added_ok h s c _ d p kp vp X a ka va N F Hp HT0 HX Hc HhN HhF) as (h' & s' & E' & HT' & Hc' & Hl & Hn & Hx).
    { eapply NoDup_Permutation_proper; [|exact Hd]. simpl. rewrite <- !app_assoc. simpl. solve_Permutation. }
    exists h', s'. eexists. split; [exact E'|].
    apply rebalanced_plug; try done; rewrite ?root_tnode, ?balanced_tnode, ?height_tnode; try done.
    + by replace (1 + Z.max (height N) _) with (1 + Z.max hh (height X)) by lia.
    + split_and!; (done || lia).
    + by replace (1 + Z.max (height N) _) with (1 + Z.max hh (height X)) by lia.
    + apply inorder_single.
    + intros x Hx'. apply Hx. rewrite addrs_tnode in Hx'. split_nodup. not_in.
  - assert (height F = height X + 1 /\ height N = height X) as [HhF HhN] by (destruct d; unfold dz in E; lia).
    destruct (height_pos F) as [b Eb]; [pose proof (height_nonneg X); lia|].
    destruct (tree_tnode d F b Eb) as (CR & kb & vb & CL & ->). rewrite height_tnode in HhF.
    apply balanced_tnode in HbF as (HbC & HbCR & HbCL).
    destruct (double_rotation_added_ok h s c _ d p kp vp X a ka va N b kb vb CR CL Hp HT0 HX Hc HhN) as (h' & s' & E' & HT' & Hc' & Hl & Hn & Hx);
      [lia|done| |].
    { eapply NoDup_Permutation_proper; [|exact Hd]. rewrite addrs_tnode. simpl. rewrite <- !app_assoc. simpl. solve_Permutation. }
    exists h', s'. eexists. split; [exact E'|].
    apply rebalanced_plug; try done; rewrite ?root_tnode, ?balanced_tnode, ?height_tnode; try done.
    + by replace (1 + Z.max (1 + _) _) with (1 + Z.max hh (height X)) by (rewrite height_tnode in Hh; lia).
    + split_and!; (done || lia).
    + by replace (1 + Z.max (1 + _) _) with (1 + Z.max hh (height X)) by (rewrite height_tnode in Hh; lia).
    + apply inorder_double.
    + intros x Hx'. apply Hx. rewrite !addrs_tnode in Hx'. split_nodup. not_in.
Qed.

Lemma rebalance_added_loop_ok c : forall fuel h s T a hh,
  c <> [] -> (length c <= fuel)%nat -> root_ptr T = Some a ->
  reps h (ptr_up c) (dir_up c) T -> reps_path h s c (Some a) hh -> height T = hh + 1 -> balanced T -> balanced_path c hh ->
  (0 < hh -> match T with Node l _ _ _ r => height l <> height r | Leaf => True end) ->
  NoDup (addrs T ++ caddrs c) ->
  exists h' s' T', rebalance_added_loop fuel h s (Some a) (ptr_up c) = Ret (h', s') /\
    rebalanced h s h' s' T' (inorder (plug c T)) (addrs T ++ caddrs c).
Proof.
  induction c as [|f c IH]; intros fuel h s T a hh Hne Hf Hr HT Hc Hh Hb Hbc Hg Hd; [done|].
  destruct fuel as [|fuel]; [simpl in Hf; lia|]. destruct f as [d p kp vp X]. destruct Hc as (Hp & HX & Hc).
  destruct Hbc as (Hbp & HbX & Hbc). cbn [f_side f_a f_k f_v f_sib] in *. unfold fheight in Hc, Hbc. cbn [f_sib] in Hc, Hbc.
  simpl ptr_up in HT |- *. simpl dir_up in HT. rewrite caddrs_cons in *. cbn [f_a f_sib plug] in *. unfold fill. cbn [f_side f_a f_k f_v f_sib].
  destruct (Z.eq_dec hh (height X + 1)) as [HhX|HhX].
  { rewrite (proj2 (Z.sub_move_r hh (height X) 1)) in Hp by lia. rewrite Z.mul_1_r in Hp.
    apply (rebalance_rotations c fuel h s T a hh d p kp vp X); try done. apply Hg. pose proof (height_nonneg X). lia. }
  destruct (tree_tnode d T a Hr) as (N & ka & va & F & ET). pose proof HT as HT0. rewrite ET in HT0. apply reps_tnode in HT0 as (Ha & _).
  cbn [rebalance_added_loop]. rewrite (load_ok _ _ _ Hp). cbn [mbind res_bind]. rewrite (load_ok _ _ _ Ha). cbn [mbind res_bind].
  rewrite !dnode_balance, !dnode_direction. split_nodup. clear Ha.
  destruct (Z.eqb_spec (dz d * (hh - height X)) 0) as [E|E].
  - assert (hh = height X) as Hhh by (destruct d; unfold dz in E; lia).
    store_as @set_balance_dnode Hp h1. rewrite (load_ok _ _ _ Hp). cbn [mbind res_bind]. rewrite dnode_parent.
    assert (reps h1 (ptr_up c) (dir_up c) (tnode d T p kp vp X)) as HT1.
    { apply reps_tnode. rewrite Hr. split_and!; [|done|done]. eapply dnode_at; [exact Hp|lia]. }
    destruct c as [|g c].
    + exists h1, s, (tnode d T p kp vp X). split; [done|].
      apply (rebalanced_plug h s h1 s [] (tnode d T p kp vp X) (tnode d T p kp vp X)); try done;
        [cbn [reps_path]; by rewrite root_tnode|by apply balanced_tnode; split_and!; (done || lia)|].
      intros x Hx. split_nodup. unchanged.
    + destruct (IH fuel h1 s (tnode d T p kp vp X) p (1 + Z.max hh (height X))) as (h' & s' & T' & E' & Hreb); try done.
      * simpl in Hf |- *. lia.
      * apply root_tnode.
      * rewrite height_tnode. lia.
      * apply balanced_tnode. split_and!; (done || lia).
      * intros _. destruct d; simpl; lia.
      * rewrite addrs_tnode. simpl. rewrite <- app_assoc. apply list.NoDup_cons. split; [not_in|].
        rewrite !NoDup_app_disjoint, disjoint_app. by split_and!.
      * exists h', s', T'. split; [exact E'|]. eapply rebalanced_trans; [exact Hreb|].
        intros x Hx. rewrite addrs_tnode. split_nodup. split; [simpl; not_in|unchanged].
  - assert (hh = height X - 1) as Hhh by (destruct d; unfold dz in E; lia).
    destruct (Z.eqb_spec (dz d * (hh - height X)) (dz d)) as [E2|_]; [destruct d; unfold dz in E2; lia|]. simpl negb. cbv iota.
    store_as @set_balance_dnode Hp h1. exists h1, s. eexists. split; [reflexivity|].
    apply (rebalanced_plug h s h1 s c (tnode d T p kp vp X)); rewrite ?root_tnode; try done.
    + apply reps_tnode. rewrite Hr. split_and!; [|done|done]. eapply dnode_at; [exact Hp|lia].
    + rewrite height_tnode. by replace (1 + Z.max (height T) _) with (1 + Z.max hh (height X)) by lia.
    + apply balanced_tnode. split_and!; (done || lia).
    + rewrite height_tnode. by replace (1 + Z.max (height T) _) with (1 + Z.max hh (height X)) by lia.
    + intros x Hx. split_nodup. unchanged.
Qed.

End Balance.
