(* ===== verification/AvlSearch.v ===== *)
(** * Searching and inserting in the AVL tree

    The order of the keys, the walk down from the root, and linking a new node
    at its end. *)

From stdpp Require Import sorting.
From S2P Require Import Prelude Machine Heap Avl AvlTree AvlBalance.

(** What [Compar::kcmp] has to be: a total order by its sign. *)
Class KeyOrder {K} (kcmp : K -> K -> Z) : Prop := {
  kcmp_eq : forall x y, kcmp x y = 0 <-> x = y;
  kcmp_flip : forall x y, kcmp x y < 0 <-> 0 < kcmp y x;
  kcmp_trans : forall x y z, kcmp x y < 0 -> kcmp y z < 0 -> kcmp x z < 0;
}.

Section Search.
Context {K V : Type}.
Variable kcmp : K -> K -> Z.
Context {HK : KeyOrder kcmp}.
Implicit Types (h : heap K V) (s : Avl.t) (T : tree K V) (c : list (frame K V)).

Definition key (x : addr * K * V) : K := snd (fst x).
Definition klt (x y : K) : Prop := kcmp x y < 0.

Definition sorted (l : list (addr * K * V)) : Prop := StronglySorted (fun x y => klt (key x) (key y)) l.

Lemma node_cmp_spec (n : Avl.node K V) k :
  (node_cmp kcmp n k = 0 /\ node_k n = k) \/ (node_cmp kcmp n k = -1 /\ klt (node_k n) k) \/ (node_cmp kcmp n k = 1 /\ klt k (node_k n)).
Proof.
  unfold node_cmp, klt. destruct (Z.leb_spec 0 (kcmp (node_k n) k)) as [H|H]; [|right; by left].
  destruct (Z.ltb_spec 0 (kcmp (node_k n) k)) as [H1|H1]; [right; right; by rewrite kcmp_flip|].
  left. split; [done|]. apply kcmp_eq. lia.
Qed.

(** The key fits between everything left and everything right of the path. *)
Definition fits (k : K) c : Prop :=
  Forall (fun x => klt (key x) k) (lefts c) /\ Forall (fun x => klt k (key x)) (rights c).

Lemma sorted_app l1 x l2 : sorted (l1 ++ x :: l2) <->
  sorted l1 /\ sorted l2 /\ Forall (fun y => klt (key y) (key x)) l1 /\ Forall (fun y => klt (key x) (key y)) l2 /\
  (forall y z, y ∈ l1 -> z ∈ l2 -> klt (key y) (key z)).
Proof.
  unfold sorted. rewrite StronglySorted_app, StronglySorted_cons, !list.Forall_forall. set_solver.
Qed.

Lemma fits_step k c f T : sorted (inorder (plug c (fill f T))) -> fits k c ->
  (if f_side f then klt (f_k f) k else klt k (f_k f)) -> fits k (f :: c).
Proof.
  rewrite inorder_plug. unfold fits, fill, tnode. simpl. intros Hs [Hl Hr] Hk. destruct (f_side f); simpl in Hs.
  - rewrite app_nil_l. split; [|done]. rewrite !Forall_app. split_and!; [done| |by repeat constructor].
    rewrite <- !app_assoc in Hs. simpl in Hs. rewrite app_assoc in Hs. apply sorted_app in Hs as (_ & _ & Hs & _).
    apply Forall_app in Hs as [_ Hs]. eapply list.Forall_impl; [exact Hs|]. intros x Hx. by apply (kcmp_trans _ (f_k f)).
  - rewrite app_nil_r. split; [done|]. rewrite Forall_app. split; [|done]. constructor; [done|].
    rewrite <- !app_assoc in Hs. simpl in Hs. rewrite app_assoc in Hs. apply sorted_app in Hs as (_ & _ & _ & Hs & _).
    apply Forall_app in Hs as [Hs _]. eapply list.Forall_impl; [exact Hs|]. intros x Hx. by apply (kcmp_trans _ (f_k f)).
Qed.

(** ** The slot at the end of a path *)

Definition slot_of c : slot := match c with [] => SRoot | f :: _ => SRef (Some (f_a f)) (1 + dz (f_side f)) end.

Lemma read_slot_ok h s c hole hh : reps_path h s c hole hh -> read_slot h s (slot_of c) = Ret hole.
Proof.
  destruct c as [|f c]; simpl; [by intros ->|]. intros (H & _). by rewrite (ref_of_near _ _ _ _ _ _ _ _ _ _ H).
Qed.

Lemma slot_node_of c : slot_node (slot_of c) = ptr_up c.
Proof. by destruct c. Qed.

(** The loop of [create_g] from a subtree: it stops at the node with the key or
    at the free place for it. *)
Lemma slot_loop_ok h s k T : forall c fuel, reps h (ptr_up c) (dir_up c) T -> reps_path h s c (root_ptr T) (height T) ->
  sorted (inorder (plug c T)) -> fits k c -> (Z.to_nat (height T) < fuel)%nat ->
  exists c', (exists l a v r, slot_loop kcmp fuel h s (slot_of c) (dir_up c) k = Ret (slot_of c', 0) /\ plug c T = plug c' (Node l a k v r)) \/
    (slot_loop kcmp fuel h s (slot_of c) (dir_up c) k = Ret (slot_of c', dir_up c') /\ plug c T = plug c' Leaf /\ fits k c').
Proof.
  induction T as [|l IHl a kn vn r IHr]; intros c fuel HT Hc Hs Hk Hf; (destruct fuel as [|fuel]; [lia|]); cbn [slot_loop];
    rewrite (read_slot_ok _ _ _ _ _ Hc); cbn [mbind res_bind root_ptr].
  - exists c. by right.
  - destruct HT as (Ha & Hl & Hr). rewrite (load_ok _ _ _ Ha). cbn [mbind res_bind].
    assert (forall d, reps_path h s (mk_frame d a kn vn (if d then l else r) :: c) (root_ptr (if d then r else l)) (height (if d then r else l))) as Hc'.
    { intros d. cbn [reps_path f_side f_a f_k f_v f_sib]. unfold fheight. cbn [f_sib]. simpl in Hc. split_and!.
      - destruct d; simpl; (rewrite Ha; do 2 f_equal; unfold dz; lia).
      - by destruct d.
      - destruct d; [|done]. by rewrite Z.max_comm. }
    pose proof (node_cmp_spec (mk_node (root_ptr l) (ptr_up c) (root_ptr r) (height r - height l) (dir_up c) kn vn) k) as Hcmp.
    cbn [node_k] in Hcmp. destruct Hcmp as [[-> <-]|[[-> Hlt]|[-> Hlt]]]; simpl (- _); simpl (_ =? _); cbv iota.
    + exists c. left. by exists l, a, vn, r.
    + assert (Z.to_nat (height r) < fuel)%nat by (simpl in Hf; pose proof (height_nonneg l); lia).
      destruct (IHr (mk_frame true a kn vn l :: c) fuel) as (c' & Hr'); [done|apply (Hc' true)|done| |done|by exists c'].
      by apply (fits_step k c (mk_frame true a kn vn l) r).
    + assert (Z.to_nat (height l) < fuel)%nat by (simpl in Hf; pose proof (height_nonneg r); lia).
      destruct (IHl (mk_frame false a kn vn r :: c) fuel) as (c' & Hl'); [done|apply (Hc' false)|done| |done|by exists c'].
      by apply (fits_step k c (mk_frame false a kn vn r) l).
Qed.

Lemma find_loop_ok h k T : forall c fuel par dir, reps h par dir T -> sorted (inorder (plug c T)) -> fits k c ->
  (Z.to_nat (height T) <= fuel)%nat ->
  exists c', (exists l a v r, find_loop kcmp fuel h (root_ptr T) k = Ret (Some a) /\ plug c T = plug c' (Node l a k v r)) \/
    (find_loop kcmp fuel h (root_ptr T) k = Ret None /\ plug c T = plug c' Leaf /\ fits k c').
Proof.
  induction T as [|l IHl a kn vn r IHr]; intros c fuel par dir HT Hs Hk Hf.
  - exists c. right. by destruct fuel.
  - destruct fuel as [|fuel]; [simpl in Hf; pose proof (height_nonneg l); lia|]. cbn [find_loop root_ptr].
    destruct HT as (Ha & Hl & Hr). rewrite (load_ok _ _ _ Ha). cbn [mbind res_bind].
    pose proof (node_cmp_spec (mk_node (root_ptr l) par (root_ptr r) (height r - height l) dir kn vn) k) as Hcmp.
    cbn [node_k] in Hcmp. destruct Hcmp as [[-> <-]|[[-> Hlt]|[-> Hlt]]]; simpl (- _); simpl (_ =? _); cbv iota.
    + exists c. left. by exists l, a, vn, r.
    + assert (Z.to_nat (height r) <= fuel)%nat by (simpl in Hf; pose proof (height_nonneg l); lia).
      change (get_ref _ (1 + 1)) with (@Ret ptr (root_ptr r)). cbn [mbind res_bind].
      destruct (IHr (mk_frame true a kn vn l :: c) fuel (Some a) 1 Hr) as (c' & Hr'); [done| |done|by exists c'].
      by apply (fits_step k c (mk_frame true a kn vn l) r).
    + assert (Z.to_nat (height l) <= fuel)%nat by (simpl in Hf; pose proof (height_nonneg r); lia).
      change (get_ref _ (1 + -1)) with (@Ret ptr (root_ptr l)). cbn [mbind res_bind].
      destruct (IHl (mk_frame false a kn vn r :: c) fuel (Some a) (-1) Hl) as (c' & Hl'); [done| |done|by exists c'].
      by apply (fits_step k c (mk_frame false a kn vn r) l).
Qed.

(** ** The tree a TAvl object stands for *)

Definition first_ptr (l : list (addr * K * V)) : ptr := match l with [] => None | x :: _ => Some (fst (fst x)) end.

Record avl_rep h s T : Prop := {
  avl_reps : reps h None 0 T;
  avl_root : root s = root_ptr T;
  avl_balanced : balanced T;
  avl_sorted : sorted (inorder T);
  avl_nodup : NoDup (addrs T);
  avl_lowest : lowest s = first_ptr (inorder T);
  avl_count : item_count s = Z.of_nat (length (inorder T));
}.

Lemma reps_mem h T : forall par dir x, reps h par dir T -> x ∈ addrs T -> is_Some (h !! x).
Proof.
  induction T as [|l IHl a k v r IHr]; intros par dir x; [by intros _ H%not_elem_of_nil|]. intros (H & Hl & Hr).
  rewrite addrs_node, elem_of_app, elem_of_cons. intros [Hx|[->|Hx]]; [by eapply IHl|by eexists|by eapply IHr].
Qed.

Lemma path_mem h s c : forall hole hh x, reps_path h s c hole hh -> x ∈ caddrs c -> is_Some (h !! x).
Proof.
  induction c as [|f c IH]; intros hole hh x; [by intros _ H%not_elem_of_nil|]. intros (H & Hs & Hc).
  rewrite caddrs_cons, elem_of_cons, elem_of_app. intros [->|[Hx|Hx]]; [by eexists|by eapply reps_mem|by eapply IH].
Qed.

Lemma size_ge_mem {A} (h : gmap addr A) (l : list addr) : NoDup l -> (forall x, x ∈ l -> is_Some (h !! x)) -> (length l <= size h)%nat.
Proof.
  intros Hd Hx. rewrite <- (size_dom (D:=gset addr)), <- (size_list_to_set (C:=gset addr)) by done.
  apply subseteq_size. intros x Hl. apply elem_of_list_to_set in Hl. by apply elem_of_dom, Hx.
Qed.

Lemma length_caddrs c : (length c <= length (caddrs c))%nat.
Proof. induction c as [|f c IH]; [done|]. rewrite caddrs_cons. simpl. rewrite length_app. lia. Qed.

Lemma height_le_length T : height T <= Z.of_nat (length (inorder T)).
Proof. induction T as [|l IHl a k v r IHr]; [done|]. simpl. rewrite length_app. simpl. lia. Qed.

Lemma avl_size h s T : avl_rep h s T -> (length (inorder T) <= size h)%nat.
Proof.
  intros [HT _ _ _ Hd _ _]. transitivity (length (addrs T)); [unfold addrs; by rewrite length_fmap|].
  apply size_ge_mem; [done|]. intros x. by apply (reps_mem h T None 0).
Qed.

Lemma lefts_head_side f c : lefts (f :: c) = [] -> f_side f = false /\ first_ptr (rights (f :: c)) = Some (f_a f).
Proof.
  simpl. intros H. apply app_eq_nil in H as [_ H]. destruct (f_side f); [|done]. by destruct (inorder (f_sib f)).
Qed.

(** Where the lowest node is after a node is linked in at the end of a path. *)
Lemma lowest_linked c f a k v : c = f :: tail c -> NoDup (fst ∘ fst <$> lefts c ++ rights c) ->
  (if bool_decide (ptr_up c = first_ptr (lefts c ++ rights c)) && (dir_up c <? 0) then Some a
   else first_ptr (lefts c ++ rights c)) = first_ptr (lefts c ++ (a, k, v) :: rights c).
Proof.
  intros Hc Hd. destruct c as [|f' c]; [done|]. clear Hc.
  destruct (lefts (f' :: c)) as [|x l] eqn:El.
  - destruct (lefts_head_side f' c El) as [Hs Hr]. rewrite !app_nil_l. rewrite Hr. simpl ptr_up. simpl dir_up. rewrite Hs.
    by rewrite bool_decide_eq_true_2.
  - simpl app. cbn [first_ptr]. destruct (bool_decide (ptr_up (f' :: c) = Some (fst (fst x)))) eqn:Eb; [|done].
    apply bool_decide_eq_true_1 in Eb. simpl ptr_up in Eb. injection Eb as Eb. simpl dir_up.
    destruct (f_side f') eqn:Ef; [done|]. exfalso. simpl in Hd. rewrite Ef in Hd. simpl in Hd.
    apply list.NoDup_cons in Hd as [Hd _]. apply Hd. rewrite fmap_app. simpl. rewrite elem_of_app, elem_of_cons. right. left.
    by rewrite <- Eb.
Qed.

Lemma sorted_insert k v a c : sorted (lefts c ++ rights c) -> fits k c -> sorted (lefts c ++ (a, k, v) :: rights c).
Proof.
  unfold sorted at 1. rewrite StronglySorted_app. intros (Hlr & Hl & Hr) [Hfl Hfr]. apply sorted_app. split_and!; try done.
Qed.

(** A node linked in at the free end of a path, before the rebalancing. *)
Lemma write_slot_ok h s c a : reps_path h s c None 0 -> NoDup (caddrs c) -> a ∉ caddrs c ->
  exists h' s', write_slot h s (slot_of c) (Some a) = Ret (h', s') /\ reps_path h' s' c (Some a) 0 /\
    (forall x, x ∉ caddrs c -> h' !! x = h !! x) /\ lowest s' = lowest s /\ item_count s' = item_count s.
Proof.
  intros Hc Hd Ha. destruct c as [|f c]; [by eexists _, _|]. destruct Hc as (Hf & Hs & Hc). rewrite caddrs_cons in *.
  cbn [write_slot slot_of]. split_nodup. store_as (@set_ref_near K V) Hf h1.
  exists h1, s. split_and!; try done. intros x Hx. split_nodup. unchanged.
Qed.

(** ** Insertion *)

Lemma addrs_lefts_rights c : addrs (plug c Leaf) = fst ∘ fst <$> lefts c ++ rights c.
Proof. unfold addrs. by rewrite inorder_plug. Qed.

Lemma avl_insert_rep h s T' c a k v : avl_rep h s (plug c Leaf) -> fits k c -> a ∉ addrs (plug c Leaf) ->
  item_count s + 1 < 2 ^ 64 -> forall h' s', reps h' None 0 T' -> root s' = root_ptr T' -> balanced T' ->
  inorder T' = lefts c ++ (a, k, v) :: rights c -> lowest s' = first_ptr (inorder T') -> item_count s' = u64 (item_count s + 1) ->
  avl_rep h' s' T'.
Proof.
  intros [_ _ _ Hs Hd _ Hn] Hk Ha Hc h' s' H1 H2 H3 Hi Hl Hn'. rewrite inorder_plug in Hs, Hn. simpl in Hs, Hn.
  split; try done.
  - rewrite Hi. by apply sorted_insert.
  - unfold addrs. rewrite Hi. rewrite addrs_lefts_rights in Ha, Hd.
    assert (fst ∘ fst <$> lefts c ++ (a, k, v) :: rights c ≡ₚ a :: (fst ∘ fst <$> lefts c ++ rights c)) as Hp.
    { rewrite <- Permutation_middle. done. }
    change (NoDup (fst ∘ fst <$> lefts c ++ (a, k, v) :: rights c)). rewrite Hp. by apply list.NoDup_cons.
  - rewrite Hn', Hn, (uwrap_id 64) by (unfold in_u; lia). rewrite Hi, !length_app. simpl. lia.
Qed.

Lemma link_new_ok h s c k v : avl_rep h s (plug c Leaf) -> fits k c -> item_count s + 1 < 2 ^ 64 ->
  exists a h' s' T', link_new h s (slot_of c) (dir_up c) k v = Ret (Some a, h', s') /\ avl_rep h' s' T' /\
    inorder T' = lefts c ++ (a, k, v) :: rights c.
Proof.
  intros Hrep Hk Hcnt. pose proof Hrep as [HT Hr Hb _ Hd Hl Hn].
  destruct (reps_unplug h s c Leaf HT Hr) as [_ Hc]. simpl in Hc. apply balanced_plug in Hb as [_ Hbc]. simpl in Hbc.
  pose proof Hd as Hdc. rewrite addrs_plug in Hdc. simpl in Hdc.
  rewrite addrs_lefts_rights in Hd. rewrite inorder_plug in Hl. simpl in Hl.
  unfold link_new, node_def. destruct (alloc h (mk_node None None None 0 0 k v)) as [a h0] eqn:Ea.
  apply alloc_fresh in Ea as [Hfresh E0].
  assert (a ∉ caddrs c) as Hac by (intros Hx; destruct (path_mem h s c None 0 a Hc Hx); congruence).
  assert (a ∉ addrs (plug c Leaf)) as Hap by (rewrite addrs_plug; simpl; done).
  assert (reps_path h0 s c None 0) as Hc0 by (rewrite E0; eapply path_frame; [apply same_but_insert|done|apply disjoint_nil|done]).
  assert (h0 !! a = Some (dnode false None None None 0 0 k v)) as Ha by (rewrite E0; apply lookup_insert_eq).
  destruct (write_slot_ok h0 s c a Hc0 Hdc Hac) as (h1 & s1 & -> & Hc1 & Hx1 & Hl1 & Hn1). cbn [mbind res_bind].
  rewrite <- (Hx1 a Hac) in Ha. clear Hc0.
  store_as (@set_balance_dnode K V) Ha h2. store_as (@set_direction_dnode K V) Ha h3.
  destruct c as [|f c].
  - simpl dir_up. rewrite Z.eqb_refl. store_as (@set_parent_dnode K V) Ha h4.
    exists a. eexists h4, _, (Node Leaf a k v Leaf). split; [reflexivity|]. split; [|done].
    apply (avl_insert_rep h s (Node Leaf a k v Leaf) [] a k v Hrep Hk Hap Hcnt); simpl; try done. by rewrite Hn1.
  - assert (dir_up (f :: c) <> 0) as Hdz by (simpl; by destruct (f_side f)).
    rewrite (proj2 (Z.eqb_neq _ _)) by done. rewrite slot_node_of.
    store_as (@set_parent_dnode K V) Ha h4. rewrite (load_ok _ _ _ Ha). cbn [mbind res_bind]. rewrite dnode_parent, dnode_direction.
    cbn [root lowest item_count]. set (s2 := if _ : bool then _ else _).
    assert (lowest s2 = first_ptr (lefts (f :: c) ++ (a, k, v) :: rights (f :: c)) /\ root s2 = root s1 /\
      item_count s2 = u64 (item_count s + 1)) as (Hl2 & Hr2 & Hn2).
    { rewrite <- (lowest_linked (f :: c) f a k v eq_refl Hd), <- Hl, <- Hl1. unfold s2.
      rewrite Hn1. by destruct (_ && _). }
    assert (reps_path h4 s2 (f :: c) (Some a) 0) as Hc2 by (by eapply reps_path_agree; [exact Hr2| |exact Hc1]).
    unfold rebalanceAdded_g. rewrite (load_ok _ _ _ Ha). cbn [mbind res_bind]. rewrite dnode_parent.
    destruct (rebalance_added_loop_ok (f :: c) (size h4) h4 s2 (Node Leaf a k v Leaf) a 0) as (h5 & s5 & T5 & E5 & Hreb); try done.
    { transitivity (length (caddrs (f :: c))); [apply length_caddrs|]. apply size_ge_mem; [done|].
      intros x. by apply (path_mem h4 s2 (f :: c) (Some a) 0). }
    { change (addrs (Node Leaf a k v Leaf)) with [a]. by apply list.NoDup_cons. }
    rewrite E5. cbn [mbind res_bind fst snd]. destruct Hreb as (HT5 & Hr5 & Hb5 & Hi5 & Hl5 & Hn5 & _).
    rewrite inorder_plug in Hi5. simpl app in Hi5.
    exists a, h5, s5, T5. split; [done|]. split; [|done].
    apply (avl_insert_rep h s T5 (f :: c) a k v Hrep Hk Hap Hcnt); try done; [|by rewrite Hn5].
    by rewrite Hl5, Hl2, Hi5.
Qed.

End Search.
