(* ===== verification/AvlRemove.v ===== *)
(** * Rebalancing of the AVL tree after a removal

    The rotations and the loop of [rebalanceRemoved_g]: a subtree has lost one
    from its height, and the path above it is made balanced again. *)

From S2P Require Import Prelude Machine Heap Avl AvlTree AvlBalance.

Section Removed.
Context {K V : Type}.
Implicit Types (h : heap K V) (s : Avl.t) (T : tree K V) (d : bool) (c : list (frame K V)).

(** Where the loop goes on: at the parent if there is one. *)
Definition next_up c : step := match c with [] => Done | f :: _ => Next (Some (f_a f)) (dz (f_side f)) end.

Lemma next_up_ptr c : match ptr_up c with Some _ => Next (ptr_up c) (dir_up c) | None => Done end = next_up c.
Proof. by destruct c. Qed.

(** ** The rotations *)

Lemma double_rotation_removed_ok h s c hh d n kn vn T a ka va b kb vb CN CF F bal :
  h !! n = Some (dnode d (root_ptr T) (ptr_up c) (Some a) bal (dir_up c) kn vn) ->
  reps h (Some n) (dz d) T -> reps h (Some n) (- dz d) (tnode d (tnode d CN b kb vb CF) a ka va F) ->
  reps_path h s c (Some n) hh ->
  height T = height F -> Z.max (height CN) (height CF) = height F -> -1 <= height CN - height CF <= 1 ->
  NoDup (n :: a :: b :: addrs T ++ addrs CN ++ addrs CF ++ addrs F ++ caddrs c) ->
  exists h' s', double_rotation_removed h s (Some n) (Some a) (dz d) = Ret (h', s', next_up c) /\
    reps h' (ptr_up c) (dir_up c) (tnode d (tnode d T n kn vn CN) b kb vb (tnode d CF a ka va F)) /\
    reps_path h' s' c (Some b) hh /\ lowest s' = lowest s /\ item_count s' = item_count s /\
    (forall x, x ∉ n :: a :: b :: addrs CN ++ addrs CF ++ caddrs c -> h' !! x = h !! x).
Proof.
  intros Hn HT HA Hc HhT HhC HbC Hd. split_nodup.
  apply reps_tnode in HA as (Ha & HC & HF). apply reps_tnode in HC as (Hb & HCN & HCF). rewrite root_tnode, height_tnode in Ha.
  unfold double_rotation_removed. rewrite (ref_of_near _ _ _ _ _ _ _ _ _ _ Ha). cbn [mbind res_bind].
  rewrite (ref_of_near _ _ _ _ _ _ _ _ _ _ Hb). cbn [mbind res_bind].
  destruct (adopt_far h n d _ _ _ _ _ _ _ CN _ _ (- dz d) Hn HCN) as (h1 & -> & Hs1 & Hn1 & HCN1); [away..|]. cbn [mbind res_bind].
  clear HCN. carry Hs1.
  rewrite (load_ok _ _ _ Hb). cbn [mbind res_bind]. rewrite dnode_balance.
  store_as (@set_balance_dnode K V) Hn1 h2.
  rewrite (ref_of_far _ _ _ _ _ _ _ _ _ _ Hb). cbn [mbind res_bind].
  destruct (adopt_near h2 a d _ _ _ _ _ _ _ CF _ _ (dz d) Ha HCF) as (h3 & -> & Hs3 & Ha3 & HCF3); [away..|]. cbn [mbind res_bind].
  clear HCF. carry Hs3.
  rewrite (load_ok _ _ _ Hb). cbn [mbind res_bind]. rewrite dnode_balance.
  store_as (@set_balance_dnode K V) Ha3 h4.
  rewrite (load_ok _ _ _ Hn1). cbn [mbind res_bind]. rewrite dnode_direction, dnode_parent.
  store_as (@set_direction_dnode K V) Hb h5.
  destruct (put_below_ok h5 s c b _ _ _ _ _ _ _ _ _ Hb Hc) as (h6 & s6 & -> & Hs6 & Hb6 & Hc6 & Hlow & Hcnt); [away..|]. cbn [mbind res_bind].
  clear Hc. carry Hs6.
  store_as (@set_ref_near K V) Hb6 h7. store_as (@set_parent_dnode K V) Hn1 h8. store_as (@set_direction_dnode K V) Hn1 h9.
  store_as (@set_ref_far K V) Hb6 h10. store_as (@set_parent_dnode K V) Ha3 h11. store_as (@set_balance_dnode K V) Hb6 h12.
  rewrite (load_ok _ _ _ Hb6). cbn [mbind res_bind]. rewrite dnode_parent, dnode_direction, next_up_ptr.
  eexists _, _. split; [reflexivity|]. split_and!; [|exact Hc6|exact Hlow|exact Hcnt|].
  - rewrite !reps_tnode, !root_tnode, !height_tnode. split_and!; try assumption; (eapply dnode_at; [eassumption|heights d]).
  - intros x Hx. split_nodup. unchanged.
Qed.

Lemma s8_small x : -128 <= x < 128 -> s8 x = x.
Proof. intros. apply swrap_id; [lia|]. unfold in_s. simpl. lia. Qed.

Lemma single_rotation_removed_ok h s c hh d n kn vn T a ka va N F bal :
  h !! n = Some (dnode d (root_ptr T) (ptr_up c) (Some a) bal (dir_up c) kn vn) ->
  reps h (Some n) (dz d) T -> reps h (Some n) (- dz d) (tnode d N a ka va F) ->
  reps_path h s c (Some n) hh ->
  height T + 1 = height F -> height N <= height F <= height N + 1 ->
  NoDup (n :: a :: addrs T ++ addrs N ++ addrs F ++ caddrs c) ->
  exists h' s', single_rotation_removed h s (Some n) (Some a) (dz d) =
      Ret (h', s', if height N =? height F then Done else next_up c) /\
    reps h' (ptr_up c) (dir_up c) (tnode d (tnode d T n kn vn N) a ka va F) /\
    reps_path h' s' c (Some a) hh /\ lowest s' = lowest s /\ item_count s' = item_count s /\
    (forall x, x ∉ n :: a :: addrs N ++ caddrs c -> h' !! x = h !! x).
Proof.
  intros Hn HT HA Hc HhT HhN Hd. split_nodup. apply reps_tnode in HA as (Ha & HN & HF).
  unfold single_rotation_removed. rewrite (ref_of_near _ _ _ _ _ _ _ _ _ _ Ha). cbn [mbind res_bind].
  destruct (adopt_far h n d _ _ _ _ _ _ _ N _ _ (- dz d) Hn HN) as (h1 & -> & Hs1 & Hn1 & HN1); [away..|]. cbn [mbind res_bind].
  clear HN. carry Hs1.
  rewrite (load_ok _ _ _ Ha). cbn [mbind res_bind]. rewrite dnode_balance.
  store_as (@set_balance_dnode K V) Hn1 h2. store_as (@set_ref_near K V) Ha h3.
  rewrite (load_ok _ _ _ Hn1). cbn [mbind res_bind]. rewrite dnode_direction, dnode_parent.
  store_as (@set_direction_dnode K V) Ha h4.
  destruct (put_below_ok h4 s c a _ _ _ _ _ _ _ _ _ Ha Hc) as (h5 & s5 & -> & Hs5 & Ha5 & Hc5 & Hlow & Hcnt); [away..|]. cbn [mbind res_bind].
  clear Hc. carry Hs5.
  rewrite (load_ok _ _ _ Ha5). cbn [mbind res_bind]. rewrite dnode_parent, dnode_balance.
  store_as (@set_balance_dnode K V) Ha5 h6. store_as (@set_parent_dnode K V) Hn1 h7. store_as (@set_direction_dnode K V) Hn1 h8.
  rewrite (load_ok _ _ _ Ha5). cbn [mbind res_bind]. rewrite dnode_parent, dnode_direction.
  eexists _, _. split; [|split_and!; [|exact Hc5|exact Hlow|exact Hcnt|]].
  - f_equal. f_equal. rewrite <- next_up_ptr. destruct (ptr_up c); [|by destruct (height N =? height F)].
    destruct (Z.eqb_spec (height N) (height F)) as [E|E]; destruct (Z.eqb_spec (dz d * (height N - height F)) (- dz d)) as [E'|E'];
      (done || (destruct d; unfold dz in E'; lia)).
  - rewrite !reps_tnode, !root_tnode, !height_tnode. split_and!; try assumption; (eapply dnode_at; [eassumption|]);
      rewrite ?s8_small by (destruct d; unfold dz; lia); heights d.
  - intros x Hx. split_nodup. unchanged.
Qed.

(** ** The loop *)

Lemma inorder_removed_single d T n kn vn N a ka va F :
  inorder (tnode (K:=K) (V:=V) d (tnode d T n kn vn N) a ka va F) = inorder (tnode d T n kn vn (tnode d N a ka va F)).
Proof. destruct d; simpl; by rewrite <- ?app_assoc. Qed.

Lemma inorder_removed_double d T n kn vn CN b kb vb CF a ka va F :
  inorder (tnode (K:=K) (V:=V) d (tnode d T n kn vn CN) b kb vb (tnode d CF a ka va F)) =
  inorder (tnode d T n kn vn (tnode d (tnode d CN b kb vb CF) a ka va F)).
Proof. destruct d; simpl; by rewrite <- ?app_assoc; simpl; rewrite <- ?app_assoc. Qed.

(** The loop, or nothing when there is no parent. *)
Definition continue (fuel : nat) h s (st : step) : res (heap K V * Avl.t) :=
  match st with Done => Ret (h, s) | Next n d => rebalance_removed_loop fuel h s n d end.

(** One step: the node at the end of the path takes the subtree that lost one
    from its height, and either the height is the old one again or it has lost
    one as well and the loop goes on. *)
Definition stepped h s h' s' c (st : step) T0 (hh : Z) (As : list addr) : Prop :=
  exists T', reps h' (ptr_up c) (dir_up c) T' /\ reps_path h' s' c (root_ptr T') hh /\ balanced T' /\ inorder T' = inorder T0 /\
    addrs T' ≡ₚ addrs T0 /\ lowest s' = lowest s /\ item_count s' = item_count s /\
    (forall x, x ∉ As -> h' !! x = h !! x) /\
    (st = Done /\ height T' = hh \/ st = next_up c /\ height T' = hh - 1).

Lemma addrs_inorder T1 T2 : inorder T1 = inorder T2 -> addrs T1 ≡ₚ addrs (K:=K) (V:=V) T2.
Proof. unfold addrs. by intros ->. Qed.

Lemma removed_step_rotation c h s d n kn vn T X hh a :
  h !! n = Some (dnode d (root_ptr T) (ptr_up c) (Some a) (- dz d) (dir_up c) kn vn) -> root_ptr X = Some a ->
  reps h (Some n) (dz d) T -> reps h (Some n) (- dz d) X -> reps_path h s c (Some n) (1 + height X) ->
  height T = hh - 1 -> height X = hh + 1 -> balanced T -> balanced X -> NoDup (n :: addrs T ++ addrs X ++ caddrs c) ->
  exists h' s' st, rebalance_removed_step h s (Some n) (dz d) = Ret (h', s', st) /\
    stepped h s h' s' c st (tnode d T n kn vn X) (1 + height X) (n :: addrs T ++ addrs X ++ caddrs c).
Proof.
  intros Hn Hr HT HX Hc HhT HhX HbT HbX Hd.
  destruct (tree_tnode d X a Hr) as (N & ka & va & F & ->). apply balanced_tnode in HbX as (HbX & HbN & HbF).
  rewrite height_tnode in *. pose proof (proj1 (reps_tnode _ _ _ _ _ _ _ _ _) HX) as (Ha & _).
  unfold rebalance_removed_step. rewrite (load_ok _ _ _ Hn). cbn [mbind res_bind]. rewrite dnode_balance, get_ref_far.
  destruct (Z.eqb_spec (- dz d) 0) as [E|_]; [by destruct d|]. destruct (Z.eqb_spec (- dz d) (dz d)) as [E|_]; [by destruct d|].
  cbn [mbind res_bind]. rewrite (load_ok _ _ _ Ha). cbn [mbind res_bind]. rewrite dnode_balance.
  destruct (Z.eqb_spec (dz d * (height N - height F)) (dz d)) as [E|E].
  - assert (height N = hh /\ height F = hh - 1) as [HhN HhF] by (destruct d; unfold dz in E; lia).
    destruct (height_pos N) as [b Eb]; [pose proof (height_nonneg F); lia|].
    destruct (tree_tnode d N b Eb) as (CN & kb & vb & CF & ->). rewrite height_tnode in HhN. apply balanced_tnode in HbN as (HbC & HbCN & HbCF).
    destruct (double_rotation_removed_ok h s c _ d n kn vn T a ka va b kb vb CN CF F _ Hn HT HX Hc) as (h' & s' & -> & HT' & Hc' & Hl & Hcn & Hx);
      [lia|lia|done| |].
    { eapply NoDup_Permutation_proper; [|exact Hd]. rewrite !addrs_tnode. simpl. rewrite <- !app_assoc. simpl. solve_Permutation. }
    exists h', s', (next_up c). split; [done|]. eexists. split_and!; [exact HT'|by rewrite root_tnode| | | |done|done| |].
    + apply balanced_tnode. rewrite !balanced_tnode, !height_tnode. split_and!; (done || lia).
    + apply inorder_removed_double.
    + apply addrs_inorder, inorder_removed_double.
    + intros x Hx'. apply Hx. rewrite !addrs_tnode in Hx'. split_nodup. not_in.
    + right. split; [done|]. rewrite !height_tnode. lia.
  - assert (height F = hh /\ hh - 1 <= height N <= hh) as [HhF HhN] by (destruct d; unfold dz in E; lia).
    destruct (single_rotation_removed_ok h s c _ d n kn vn T a ka va N F _ Hn HT HX Hc) as (h' & s' & -> & HT' & Hc' & Hl & Hcn & Hx);
      [lia|lia| |].
    { eapply NoDup_Permutation_proper; [|exact Hd]. rewrite !addrs_tnode. simpl. rewrite <- !app_assoc. simpl. solve_Permutation. }
    eexists h', s', _. split; [done|]. eexists. split_and!; [exact HT'|by rewrite root_tnode| | | |done|done| |].
    + apply balanced_tnode. rewrite !balanced_tnode, !height_tnode. split_and!; (done || lia).
    + apply inorder_removed_single.
    + apply addrs_inorder, inorder_removed_single.
    + intros x Hx'. apply Hx. rewrite !addrs_tnode in Hx'. split_nodup. not_in.
    + rewrite !height_tnode. destruct (Z.eqb_spec (height N) (height F)); [left|right]; split; (done || lia).
Qed.

Lemma removed_step_ok c h s f T hh :
  reps h (Some (f_a f)) (dz (f_side f)) T -> reps_path h s (f :: c) (root_ptr T) hh -> height T = hh - 1 ->
  balanced T -> -1 <= hh - height (f_sib f) <= 1 -> balanced (f_sib f) -> NoDup (addrs T ++ caddrs (f :: c)) ->
  exists h' s' st, rebalance_removed_step h s (Some (f_a f)) (dz (f_side f)) = Ret (h', s', st) /\
    stepped h s h' s' c st (fill f T) (fheight f hh) (addrs T ++ caddrs (f :: c)).
Proof.
  destruct f as [d n kn vn X]. unfold fill, fheight. rewrite caddrs_cons. cbn [reps_path f_a f_side f_k f_v f_sib]. unfold fheight. cbn [f_sib].
  intros HT (Hn & HX & Hc) HhT HbT HbX HbX' Hd.
  assert (NoDup (n :: addrs T ++ addrs X ++ caddrs c)) as Hd'.
  { eapply NoDup_Permutation_proper; [|exact Hd]. solve_Permutation. }
  destruct (Z.eq_dec hh (height X - 1)) as [Hhh|Hhh].
  - destruct (height_pos X) as [a Ea]; [pose proof (height_nonneg T); lia|].
    rewrite Ea in Hn. replace (dz d * (hh - height X)) with (- dz d) in Hn by (destruct d; unfold dz; lia).
    replace (1 + Z.max hh (height X)) with (1 + height X) in * by lia.
    destruct (removed_step_rotation c h s d n kn vn T X hh a Hn Ea HT HX Hc HhT ltac:(lia) HbT HbX' Hd') as (h' & s' & st & E & T' & Hs).
    exists h', s', st. split; [done|]. exists T'. destruct Hs as (H1 & H2 & H3 & H4 & H5 & H6 & H7 & H8 & H9).
    split_and!; try done. intros x Hx. apply H8. split_nodup. not_in.
  - split_nodup. unfold rebalance_removed_step. rewrite (load_ok _ _ _ Hn). cbn [mbind res_bind]. rewrite dnode_balance, dnode_parent, dnode_direction.
    assert (hh = height X \/ hh = height X + 1) as [E|E] by lia.
    + rewrite E. replace (dz d * (height X - height X)) with 0 by lia. rewrite E in *. cbn [Z.eqb].
      store_as (@set_balance_dnode K V) Hn h1. eexists _, _, _. split; [reflexivity|]. exists (tnode d T n kn vn X).
      rewrite root_tnode, height_tnode. split_and!; try done; [| | |by left; split; [|lia]].
      * apply reps_tnode. split_and!; [|done|done]. eapply dnode_at; [exact Hn|].
        rewrite s8_small by (destruct d; unfold dz; lia). lia.
      * apply balanced_tnode. split_and!; (done || lia).
      * intros x Hx. split_nodup. unchanged.
    + replace (dz d * (hh - height X)) with (dz d) by lia.
      destruct (Z.eqb_spec (dz d) 0) as [E0|_]; [by destruct d|]. rewrite Z.eqb_refl.
      store_as (@set_balance_dnode K V) Hn h1. eexists _, _, _. split; [reflexivity|]. exists (tnode d T n kn vn X).
      rewrite root_tnode, height_tnode, next_up_ptr. split_and!; try done; [| | |by right; split; [|lia]].
      * apply reps_tnode. split_and!; [|done|done]. eapply dnode_at; [exact Hn|lia].
      * apply balanced_tnode. split_and!; (done || lia).
      * intros x Hx. split_nodup. unchanged.
Qed.

Lemma rebalance_removed_ok c : forall fuel h s T hh, (length c <= fuel)%nat ->
  reps h (ptr_up c) (dir_up c) T -> reps_path h s c (root_ptr T) hh -> height T = hh - 1 ->
  balanced T -> balanced_path c hh -> NoDup (addrs T ++ caddrs c) ->
  exists h' s' T', continue fuel h s (next_up c) = Ret (h', s') /\
    rebalanced h s h' s' T' (inorder (plug c T)) (addrs T ++ caddrs c).
Proof.
  induction c as [|f c IH]; intros fuel h s T hh Hf HT Hc HhT HbT Hbc Hd.
  - exists h, s, T. split; [done|]. by split_and!.
  - destruct fuel as [|fuel]; [simpl in Hf; lia|]. simpl in Hf. destruct Hbc as (Hb1 & Hb2 & Hbc).
    destruct (removed_step_ok c h s f T hh HT Hc HhT HbT Hb1 Hb2 Hd) as (h1 & s1 & st & E & T1 & HT1 & Hc1 & HbT1 & Hi & Ha & Hl & Hn & Hx & Hst).
    cbn [continue next_up rebalance_removed_loop]. rewrite E. cbn [mbind res_bind].
    assert (addrs T ++ caddrs (f :: c) ≡ₚ addrs T1 ++ caddrs c) as Hp.
    { rewrite Ha. unfold fill. rewrite addrs_tnode, caddrs_cons. simpl. rewrite <- app_assoc. solve_Permutation. }
    destruct Hst as [[-> Hh1]|[-> Hh1]].
    + exists h1, s1, (plug c T1). split; [done|]. simpl plug. apply rebalanced_plug; try done; by rewrite Hh1.
    + destruct (IH fuel h1 s1 T1 (fheight f hh)) as (h' & s' & T' & E' & Hreb); try done; [lia|by rewrite <- Hp|].
      exists h', s', T'. split; [by destruct (next_up c)|]. simpl plug.
      destruct Hreb as (G1 & G2 & G3 & G4 & G5 & G6 & G7). split_and!; try done; [|congruence..|].
      * rewrite G4. by apply inorder_plug_eq.
      * intros x Hx'. rewrite G7; [by apply Hx|]. by rewrite <- Hp.
Qed.

End Removed.
