(* ===== verification/AvlSubstitute.v ===== *)
(** * Taking a node out of the AVL tree

    The node that takes the place of the removed one is the innermost of its
    higher subtree: the path down to it, and what [substitute] makes of the
    heap. *)

From S2P Require Import Prelude Machine Heap Avl AvlTree AvlBalance AvlSearch AvlRemove.

Section Substitute.
Context {K V : Type}.
Implicit Types (h : heap K V) (s : Avl.t) (T : tree K V) (d : bool) (c : list (frame K V)).

(** ** Paths that end below the root *)

(** The frames of a path whose last node has the parent [top] on its [dir]
  side: a path with its upper part cut off. *)
Fixpoint reps_seg h c (hole : ptr) (hh : Z) (top : ptr) (dir : Z) : Prop :=
match c with
| [] => True
| f :: c' =>
  let '(par, pdir) := match c' with [] => (top, dir) | _ => (ptr_up c', dir_up c') end in
  h !! f_a f = Some (dnode (f_side f) hole par (root_ptr (f_sib f)) (dz (f_side f) * (hh - height (f_sib f))) pdir (f_k f) (f_v f)) /\
  reps h (Some (f_a f)) (- dz (f_side f)) (f_sib f) /\
  reps_seg h c' (Some (f_a f)) (fheight f hh) top dir
end.

(** The subtree that the upper part has below it. *)
Definition seg_root c (hole : ptr) : ptr := match list.last c with Some f => Some (f_a f) | None => hole end.
Definition seg_height c (hh : Z) : Z := fold_left (fun hh f => fheight f hh) c hh.

Lemma seg_root_cons f c hole : seg_root (f :: c) hole = seg_root c (Some (f_a f)).
Proof. unfold seg_root. rewrite last_cons. by destruct (list.last c). Qed.

Lemma seg_root_plug c T : seg_root c (root_ptr T) = root_ptr (plug c T).
Proof.
revert T. induction c as [|f c IH]; intros T; [done|]. rewrite seg_root_cons. simpl. rewrite <- IH. unfold fill. by rewrite root_tnode.
Qed.

Lemma seg_height_plug c T : seg_height c (height T) = height (plug c T).
Proof. revert T. induction c as [|f c IH]; intros T; [done|]. simpl. by rewrite <- IH, height_fill. Qed.

Lemma reps_path_app h s c1 c2 : forall hole hh, reps_path h s (c1 ++ c2) hole hh <->
reps_seg h c1 hole hh (ptr_up c2) (dir_up c2) /\ reps_path h s c2 (seg_root c1 hole) (seg_height c1 hh).
Proof.
induction c1 as [|f c1 IH]; intros hole hh; [by simpl; intuition|]. rewrite seg_root_cons. cbn [app reps_path reps_seg].
rewrite IH. simpl seg_height. destruct c1; simpl; tauto.
Qed.

(** A subtree below a node is a path and the subtree at its end. *)
Lemma reps_plug_seg h par dir c : forall T, c <> [] -> reps h par dir (plug c T) <->
reps h (ptr_up c) (dir_up c) T /\ reps_seg h c (root_ptr T) (height T) par dir.
Proof.
induction c as [|f c IH]; intros T Hc; [done|]. simpl plug. cbn [reps_seg ptr_up dir_up]. destruct c as [|g c].
- simpl plug. unfold fill. rewrite reps_tnode. simpl. tauto.
- rewrite IH by done. unfold fill at 1. rewrite reps_tnode, height_fill. unfold fill. rewrite root_tnode. tauto.
Qed.

Lemma reps_seg_agree h h' c : forall hole hh top dir, (forall x, x ∈ caddrs c -> h' !! x = h !! x) ->
reps_seg h c hole hh top dir -> reps_seg h' c hole hh top dir.
Proof.
induction c as [|f c IH]; intros hole hh top dir Ha; [done|]. cbn [reps_seg]. rewrite caddrs_cons in Ha.
assert (forall x, x ∈ caddrs c -> h' !! x = h !! x) as Hc by (intros x Hx; apply Ha; rewrite elem_of_cons, elem_of_app; auto).
destruct (match c with [] => _ | _ => _ end) as [par pdir]. intros (H1 & H2 & H3). split_and!; [rewrite Ha; [done|apply elem_of_cons; auto]| |by apply IH].
eapply reps_agree; [|done]. intros x Hx. apply Ha. rewrite elem_of_cons, elem_of_app. auto.
Qed.

Lemma seg_frame p L h h' c hole hh top dir : same_but p L h h' -> p ∉ caddrs c -> L ## caddrs c ->
reps_seg h c hole hh top dir -> reps_seg h' c hole hh top dir.
Proof. intros Hs Hp HL. apply reps_seg_agree. intros x Hx. apply Hs; [by intros ->|]. intros HxL. by apply (HL x). Qed.

(** The lower end of a path takes another subtree. *)
Lemma seg_set_hole h f c hole hh top dir hole' : reps_seg h (f :: c) hole hh top dir -> NoDup (caddrs (f :: c)) ->
exists h', set_ref h (Some (f_a f)) (1 + dz (f_side f)) hole' = Ret h' /\ reps_seg h' (f :: c) hole' hh top dir /\
  same_but (f_a f) [] h h'.
Proof.
intros Hc Hd. rewrite caddrs_cons in Hd. split_nodup. cbn [reps_seg] in *.
destruct (match c with [] => _ | _ => _ end) as [par pdir]. destruct Hc as (Hc1 & Hc2 & Hc3).
rewrite (set_ref_near _ _ _ _ _ _ _ _ _ _ _ Hc1). eexists. split; [reflexivity|]. pose proof (same_but_insert (K:=K) (V:=V) (f_a f)) as Hs.
split; [|apply Hs]. split_and!; [apply lookup_insert_eq| |].
- eapply reps_frame; [apply Hs|done|apply disjoint_nil|done].
- eapply seg_frame; [apply Hs|done|apply disjoint_nil|done].
Qed.

(** The upper end of a path gets another parent. *)
Lemma seg_set_top c h hole hh top dir top' : reps_seg h c hole hh top dir -> NoDup (caddrs c) -> c <> [] ->
exists h' a, seg_root c hole = Some a /\ a ∈ caddrs c /\ set_parent h (Some a) top' = Ret h' /\ reps_seg h' c hole hh top' dir /\
  same_but a [] h h'.
Proof.
revert hole hh. induction c as [|f c IH]; intros hole hh Hc Hd Hne; [done|]. rewrite seg_root_cons. rewrite caddrs_cons in *. split_nodup.
destruct c as [|g c].
- destruct Hc as (Hc1 & Hc2 & _). exists (<[f_a f := dnode (f_side f) hole top' (root_ptr (f_sib f)) (dz (f_side f) * (hh - height (f_sib f))) dir (f_k f) (f_v f)]> h), (f_a f).
  split_and!; [done|set_solver|by rewrite (set_parent_dnode _ _ _ _ _ _ _ _ _ _ _ Hc1)| |apply same_but_insert].
  split_and!; [apply lookup_insert_eq| |done]. eapply reps_frame; [apply same_but_insert|done|apply disjoint_nil|done].
- destruct Hc as (Hc1 & Hc2 & Hc3). destruct (IH (Some (f_a f)) (fheight f hh) Hc3) as (h' & a & E & Ha & E' & Hseg & Hs); try done.
  exists h', a. split_and!; [done| |done| |done].
  + rewrite elem_of_cons, elem_of_app. by right; right.
  + assert (f_a f <> a) by (intros <-; done).
    split_and!; [|eapply reps_frame; [exact Hs| |apply disjoint_nil|done]|done].
    * eapply lookup_frame; [exact Hs|done|apply not_elem_of_nil|done].
    * intros Hx. match goal with H : addrs (f_sib f) ## _ |- _ => by apply (H a) end.
Qed.

(** ** The innermost node *)

Lemma lefts_app c1 c2 : lefts (c1 ++ c2) = lefts c2 ++ lefts c1.
Proof. induction c1 as [|f c1 IH]; [by rewrite app_nil_r|]. simpl. by rewrite IH, app_assoc. Qed.
Lemma rights_app c1 c2 : rights (c1 ++ c2) = rights c1 ++ rights c2.
Proof. induction c1 as [|f c1 IH]; [done|]. simpl. by rewrite IH, app_assoc. Qed.
Lemma caddrs_app c1 c2 : caddrs (c1 ++ c2) = caddrs c1 ++ caddrs c2.
Proof. unfold caddrs. by rewrite bind_app. Qed.

(** Every step of the path goes to the side [d]. *)
Definition one_sided d c : Prop := Forall (fun f => f_side f = d) c.

Lemma one_sided_nil d c : one_sided d c -> (if d then rights c else lefts c) = [].
Proof.
induction 1 as [|f c Hf _ IH]; [by destruct d|]. destruct d; simpl; rewrite Hf, IH; done.
Qed.

Lemma innermost_path d T : T <> Leaf -> exists c X a k v, T = plug c (tnode d X a k v Leaf) /\ one_sided (negb d) c.
Proof.
assert (forall n T, (length (inorder T) <= n)%nat -> T <> Leaf ->
  exists c X a k v, T = plug c (tnode d X a k v Leaf) /\ one_sided (negb d) c) as H; [|by apply (H (length (inorder T)))].
clear T. induction n as [|n IH]; intros T Hn HT.
- destruct T; [done|]. simpl in Hn. rewrite length_app in Hn. simpl in Hn. lia.
- destruct (root_ptr T) as [a|] eqn:Er; [|by destruct T].
  destruct (tree_tnode d T a Er) as (X & k & v & F & ->). destruct F as [|l b kb vb r] eqn:EF; [by exists [], X, a, k, v; split; [|constructor]|].
  rewrite <- EF in *. destruct (IH F) as (c & X' & a' & k' & v' & E & Hc).
  + assert (length (addrs (tnode d X a k v F)) <= S n)%nat as Hl by (unfold addrs; by rewrite length_fmap).
    rewrite addrs_tnode in Hl. simpl in Hl. rewrite length_app in Hl.
    assert (length (addrs F) = length (inorder F)) by (unfold addrs; by rewrite length_fmap). lia.
  + by rewrite EF.
  + exists (c ++ [mk_frame (negb d) a k v X]), X', a', k', v'. split.
    * rewrite plug_app, <- E. simpl. unfold fill, tnode. simpl. by destruct d.
    * apply Forall_app. split; [done|]. by repeat constructor.
Qed.

Lemma innermost_ok h d X a k v c : forall fuel par dir, one_sided (negb d) c -> (length c < fuel)%nat ->
reps h par dir (plug c (tnode d X a k v Leaf)) ->
innermost fuel h (root_ptr (plug c (tnode d X a k v Leaf))) (1 - dz d) = Ret (Some a).
Proof.
induction c as [|f c IH] using rev_ind; intros fuel par dir Hs Hf HT; (destruct fuel as [|fuel]; [lia|]).
- simpl plug in *. apply reps_tnode in HT as (Ha & _). rewrite root_tnode. cbn [innermost].
  by rewrite (ref_of_far _ _ _ _ _ _ _ _ _ _ Ha).
- rewrite plug_app in *. simpl plug in *. unfold fill in *. apply Forall_app in Hs as [Hs Hsf]. apply list.Forall_cons in Hsf as [Hsf _].
  rewrite length_app in Hf. simpl in Hf.
  rewrite root_tnode. apply reps_tnode in HT as (Ha & HT & _). cbn [innermost].
  pose proof (ref_of_near _ _ _ _ _ _ _ _ _ _ Ha) as E. rewrite Hsf, dz_negb in E. change (1 + - dz d) with (1 - dz d) in E. rewrite E.
  cbn [mbind res_bind]. rewrite <- (IH fuel _ _ Hs) by (done || lia).
  destruct (root_ptr (plug c (tnode d X a k v Leaf))) eqn:Er; [done|].
  rewrite <- seg_root_plug, root_tnode in Er. unfold seg_root in Er. by destruct (list.last c).
Qed.

(** ** Moving the children *)

Lemma root_mem T a : root_ptr T = Some a -> a ∈ addrs T.
Proof. destruct T as [|l b k v r]; [done|]. intros [= ->]. rewrite addrs_node, elem_of_app, elem_of_cons. auto. Qed.

Lemma change_root h par dir T par' dir' a : reps h par dir T -> root_ptr T = Some a -> NoDup (addrs T) ->
(exists h', set_parent h (Some a) par' = Ret h' /\ reps h' par' dir T /\ same_but a [] h h') /\
(exists h', set_direction h (Some a) dir' = Ret h' /\ reps h' par dir' T /\ same_but a [] h h').
Proof.
intros HT Hr Hd. destruct (tree_tnode true T a Hr) as (X & k & v & F & ->).
rewrite addrs_tnode in Hd. split_nodup. apply reps_tnode in HT as (Ha & HX & HF). split.
- store_as (@set_parent_dnode K V) Ha h1. exists h1. split_and!; [done| |done]. apply reps_tnode. by split_and!.
- store_as (@set_direction_dnode K V) Ha h1. exists h1. split_and!; [done| |done]. apply reps_tnode. by split_and!.
Qed.

Lemma adopt_parent_near h p d near par far bal dir k v T par0 e : h !! p = Some (dnode d near par far bal dir k v) ->
reps h par0 e T -> p ∉ addrs T -> NoDup (addrs T) ->
exists h', adopt_parent h (Some p) (1 + dz d) (root_ptr T) = Ret h' /\ same_but p (addrs T) h h' /\
  h' !! p = Some (dnode d (root_ptr T) par far bal dir k v) /\ reps h' (Some p) e T.
Proof.
intros Hp HT Hn Hd. unfold adopt_parent. store_as (@set_ref_near K V) Hp h1.
destruct (root_ptr T) as [a|] eqn:Er.
- pose proof (root_mem T a Er). assert (p <> a) by (by intros ->).
  destruct (change_root h1 par0 e T (Some p) 0 a HT Er Hd) as [(h2 & E2 & HT2 & Hs2) _]. exists h2. split_and!; [done| | |done].
  + intros x Hx HxT. assert (x <> a) by (by intros ->). unchanged.
  + by carry Hs2.
- exists h1. destruct T; [|done]. split_and!; try done.
Qed.

Lemma adopt_parent_far h p d near par far bal dir k v T par0 e : h !! p = Some (dnode d near par far bal dir k v) ->
reps h par0 e T -> p ∉ addrs T -> NoDup (addrs T) ->
exists h', adopt_parent h (Some p) (1 - dz d) (root_ptr T) = Ret h' /\ same_but p (addrs T) h h' /\
  h' !! p = Some (dnode d near par (root_ptr T) bal dir k v) /\ reps h' (Some p) e T.
Proof.
intros Hp HT Hn Hd. rewrite dnode_flip in Hp.
destruct (adopt_parent_near h p (negb d) far par near bal dir k v T par0 e Hp HT Hn Hd) as (h' & E & Hr).
rewrite dz_negb in E. change (1 + - dz d) with (1 - dz d) in E. exists h'. split; [done|]. by rewrite dnode_flip.
Qed.

(** [repl] is the child of [node]. *)
Lemma move_children_near h d n nearp par far bal dir k v r rp rbal rk rv M :
h !! n = Some (dnode d nearp par (root_ptr far) bal dir k v) -> reps h (Some n) (- dz d) far ->
reps h (Some n) (dz d) (tnode d M r rk rv Leaf) ->
NoDup (n :: r :: addrs M ++ addrs far) -> rp = Some r -> rbal = dz d * (height M - 0) ->
exists h', move_children h (Some n) rp (dz d) = Ret (h', Some r, dz d) /\ same_but r (addrs far) h h' /\
  h' !! r = Some (dnode d (root_ptr M) (Some n) (root_ptr far) rbal (dz d) rk rv) /\
  reps h' (Some r) (- dz d) far /\ reps h' (Some r) (dz d) M.
Proof.
intros Hn Hfar HR Hd -> ->. split_nodup. apply reps_tnode in HR as (Hr & HM & _). simpl root_ptr in Hr. cbn [height] in Hr.
unfold move_children. rewrite (load_ok _ _ _ Hn). cbn [mbind res_bind]. rewrite (load_ok _ _ _ Hr). cbn [mbind res_bind].
rewrite dnode_parent, bool_decide_eq_true_2 by done. rewrite get_ref_far. cbn [mbind res_bind].
destruct (adopt_parent_far h r d _ _ _ _ _ _ _ far _ _ Hr Hfar) as (h1 & -> & Hs1 & Hr1 & Hfar1); [away..|]. cbn [mbind res_bind].
clear Hfar. carry Hs1. exists h1. by split_and!.
Qed.

Ltac carry_seg Hs :=
match type of Hs with
| same_but ?p ?L ?h ?h' =>
  carry Hs; repeat match goal with
  | H : reps_seg h _ _ _ _ _ |- _ => apply (seg_frame p L h h' _ _ _ _ _ Hs) in H; [|away|away]
  end
end.

Lemma head_caddrs f c : f_a f ∈ caddrs (f :: c).
Proof. rewrite caddrs_cons. apply elem_of_cons. auto. Qed.

(** The child of [repl] goes to its parent [f_a f]. *)
Lemma give_moved_ok h d f c M r hh top dir par0 dir0 : f_side f = negb d ->
reps_seg h (f :: c) (Some r) hh top dir -> reps h par0 dir0 M -> NoDup (addrs M ++ caddrs (f :: c)) ->
exists h', (h ← set_ref h (Some (f_a f)) (1 - dz d) (root_ptr M);
    match root_ptr M with
    | None => Ret h
    | Some _ => h ← set_direction h (root_ptr M) (- dz d); set_parent h (root_ptr M) (Some (f_a f))
    end) = Ret h' /\
  reps_seg h' (f :: c) (root_ptr M) hh top dir /\ reps h' (Some (f_a f)) (- dz d) M /\ same_but (f_a f) (addrs M) h h'.
Proof.
intros Hf Hc HM Hd. split_nodup. assert (f_a f ∉ addrs M) as Hfa.
{ intros Hx. match goal with H : addrs M ## _ |- _ => apply (H _ Hx), head_caddrs end. }
destruct (seg_set_hole h f c (Some r) hh top dir (root_ptr M) Hc) as (h1 & E1 & Hc1 & Hs1); [done|].
rewrite Hf, dz_negb in E1. change (1 + - dz d) with (1 - dz d) in E1. rewrite E1. cbn [mbind res_bind]. carry Hs1.
destruct (root_ptr M) as [m|] eqn:Er.
- pose proof (root_mem M m Er).
  assert (m ∉ caddrs (f :: c)) by (intros Hx; match goal with H : addrs M ## _ |- _ => by apply (H m) end).
  destruct (change_root h1 par0 dir0 M None (- dz d) m HM Er) as [_ (h2 & -> & HM2 & Hs2)]; [done|]. cbn [mbind res_bind].
  destruct (change_root h2 par0 (- dz d) M (Some (f_a f)) 0 m HM2 Er) as [(h3 & -> & HM3 & Hs3) _]; [done|].
  carry_seg Hs2. carry_seg Hs3. exists h3. split_and!; try done. intros x Hx HxM. assert (x <> m) by (by intros ->). unchanged.
- exists h1. destruct M; [|done]. split_and!; try done.
Qed.

(** A chain whose upper end gets the new parent. *)
Lemma adopt_parent_seg h p d near par far bal dir k v c hole hh top e : h !! p = Some (dnode d near par far bal dir k v) ->
reps_seg h c hole hh top e -> c <> [] -> p ∉ caddrs c -> NoDup (caddrs c) ->
exists h', adopt_parent h (Some p) (1 + dz d) (seg_root c hole) = Ret h' /\ same_but p (caddrs c) h h' /\
  h' !! p = Some (dnode d (seg_root c hole) par far bal dir k v) /\ reps_seg h' c hole hh (Some p) e.
Proof.
intros Hp Hc Hne Hn Hd. unfold adopt_parent. store_as (@set_ref_near K V) Hp h1. carry_seg Hs.
destruct (seg_set_top c h1 hole hh top e (Some p) Hc Hd Hne) as (h2 & a & Er & Ha & E2 & Hc2 & Hs2).
rewrite Er. assert (p <> a) by (by intros ->). exists h2. split_and!; [done| |rewrite <- Er; by carry Hs2|done].
intros x Hx Hxc. assert (x <> a) by (by intros ->). unchanged.
Qed.

(** [repl] is further down. *)
Lemma move_children_far h d n par far bal dir k v r rk rv M f c :
let N := plug (f :: c) (tnode d M r rk rv Leaf) in
h !! n = Some (dnode d (root_ptr N) par (root_ptr far) bal dir k v) -> reps h (Some n) (- dz d) far ->
reps h (Some n) (dz d) N -> one_sided (negb d) (f :: c) ->
NoDup (n :: r :: addrs M ++ addrs far ++ caddrs (f :: c)) ->
exists h', move_children h (Some n) (Some r) (dz d) = Ret (h', Some (f_a f), - dz d) /\
  (forall x, x ∉ r :: addrs M ++ addrs far ++ caddrs (f :: c) -> h' !! x = h !! x) /\
  h' !! r = Some (dnode d (root_ptr N) (Some (f_a f)) (root_ptr far) (dz d * height M) (- dz d) rk rv) /\
  reps h' (Some r) (- dz d) far /\ reps h' (Some (f_a f)) (- dz d) M /\
  reps_seg h' (f :: c) (root_ptr M) (1 + height M) (Some r) (dz d).
Proof.
intros N Hn Hfar HN Ho Hd. pose proof Ho as Hof. apply list.Forall_cons in Hof as [Hof _].
assert (root_ptr N = seg_root (f :: c) (root_ptr M)) as ER.
{ unfold N. rewrite <- seg_root_plug, !seg_root_cons. done. }
apply reps_plug_seg in HN as [HR Hc]; [|done]. rewrite root_tnode, height_tnode in Hc. simpl ptr_up in HR. simpl dir_up in HR.
rewrite Hof, dz_negb in HR. apply reps_tnode in HR as (Hr & HM & _). cbn [height root_ptr] in Hr, Hc.
replace (1 + Z.max (height M) 0) with (1 + height M) in Hc by (pose proof (height_nonneg M); lia). split_nodup.
assert (f_a f <> n) as Hfn.
{ intros <-. match goal with H : f_a f ∉ caddrs (f :: c) |- _ => apply H, head_caddrs end. }
assert (f_a f <> r) as Hfr.
{ intros <-. match goal with H : f_a f ∉ caddrs (f :: c) |- _ => apply H, head_caddrs end. }
assert (f_a f ∉ addrs far) as Hff.
{ intros Hx. match goal with H : addrs far ## _ |- _ => apply (H _ Hx), head_caddrs end. }
unfold move_children. rewrite (load_ok _ _ _ Hn). cbn [mbind res_bind]. rewrite (load_ok _ _ _ Hr). cbn [mbind res_bind].
rewrite dnode_parent, bool_decide_eq_false_2, get_ref_near by congruence. cbn [mbind res_bind].
assert (NoDup (addrs M ++ caddrs (f :: c))) as HdM by (apply NoDup_app_disjoint; by split_and!).
destruct (give_moved_ok h d f c M r _ _ _ _ _ Hof Hc HM HdM) as (h1 & E1 & Hc1 & HM1 & Hs1).
revert E1. destruct (set_ref h (Some (f_a f)) (1 - dz d) (root_ptr M)) as [h0|e|e|]; cbn [mbind res_bind]; try done. intros ->.
cbn [mbind res_bind]. clear HM Hc. carry Hs1. rewrite (ref_of_far _ _ _ _ _ _ _ _ _ _ Hn). cbn [mbind res_bind].
destruct (adopt_parent_far h1 r d _ _ _ _ _ _ _ far _ _ Hr Hfar) as (h2 & -> & Hs2 & Hr2 & Hfar2); [away..|]. cbn [mbind res_bind].
clear Hfar. carry_seg Hs2. rewrite (ref_of_near _ _ _ _ _ _ _ _ _ _ Hn). cbn [mbind res_bind]. rewrite ER.
destruct (adopt_parent_seg h2 r d _ _ _ _ _ _ _ (f :: c) _ _ _ _ Hr2 Hc1) as (h3 & -> & Hs3 & Hr3 & Hc3); [done|done|done|].
cbn [mbind res_bind]. clear Hc1. carry Hs3. exists h3. split_and!; try done.
- intros x Hx. split_nodup. assert (x <> f_a f).
  { intros ->. match goal with H : f_a f ∉ caddrs (f :: c) |- _ => apply H, head_caddrs end. }
  unchanged.
- rewrite Hr3. do 2 f_equal. lia.
Qed.

End Substitute.
