(* ===== verification/AvlDelete.v ===== *)
(** * Removing from the AVL tree

    The node that takes the removed one's place, the lowest node afterwards,
    and the whole of [remove_g]. *)

From stdpp Require Import sorting.
From S2P Require Import Prelude Machine Heap Avl AvlTree AvlBalance AvlSearch AvlRemove AvlSubstitute.

Section Delete.
Context {K V : Type}.
Implicit Types (h : heap K V) (s : Avl.t) (T : tree K V) (d : bool) (c : list (frame K V)).

Lemma take_place_ok h s n r d nearp farp bal k v rn rp rf rb rd rk rv c hole hh :
h !! n = Some (dnode d nearp (ptr_up c) farp bal (dir_up c) k v) -> h !! r = Some (dnode d rn rp rf rb rd rk rv) ->
reps_path h s c hole hh -> n <> r -> n ∉ caddrs c -> r ∉ caddrs c -> NoDup (caddrs c) ->
exists h' s', take_place h s (Some n) (Some r) = Ret (h', s') /\ same_but r (caddrs c) h h' /\
  h' !! r = Some (dnode d rn (ptr_up c) rf bal (dir_up c) rk rv) /\ reps_path h' s' c (Some r) hh /\
  lowest s' = lowest s /\ item_count s' = item_count s.
Proof.
intros Hn Hr Hc Hnr Hnc Hrc Hd. unfold take_place. rewrite (load_ok _ _ _ Hn). cbn [mbind res_bind].
rewrite dnode_balance, dnode_direction, dnode_parent.
store_as (@set_balance_dnode K V) Hr h1. store_as (@set_direction_dnode K V) Hr h2. store_as (@set_parent_dnode K V) Hr h3.
destruct c as [|f c].
- exists h3. eexists. split; [reflexivity|]. split_and!; try done. intros x Hx _. unchanged.
- simpl ptr_up. simpl dir_up. destruct Hc as (Hf & Hsib & Hc). rewrite caddrs_cons in *. split_nodup.
  store_as (@set_ref_near K V) Hf h4. exists h4, s. split; [done|]. split_and!; try done. intros x Hx Hxc. split_nodup. unchanged.
Qed.

(** Where the rebalancing starts when [repl] replaces the node at the end of
  the path: in the subtree that lost one from its height. *)
Definition substituted h s h' s' c (par : ptr) (dir : Z) (d : bool) near a far (As : list addr) : Prop :=
exists c' T, next_up c' = Next par dir /\
  reps h' (ptr_up c') (dir_up c') T /\ reps_path h' s' c' (root_ptr T) (1 + height T) /\
  (balanced near -> balanced far -> (-1 <= height near - height far <= 1)%Z ->
   balanced_path c (1 + Z.max (height near) (height far)) -> balanced T /\ balanced_path c' (1 + height T)) /\
  inorder (plug c' T) = lefts c ++ (if d then inorder far ++ inorder near else inorder near ++ inorder far) ++ rights c /\
  NoDup (addrs T ++ caddrs c') /\ (a ∉ addrs T ++ caddrs c') /\
  lowest s' = lowest s /\ item_count s' = item_count s /\ h' !! a = h !! a /\ (forall x, x ∉ As -> h' !! x = h !! x).

(** The elements of the two subtrees stay in order. *)
Lemma inorder_substituted d c0 M r rk rv far c : one_sided (negb d) c0 ->
inorder (plug (c0 ++ mk_frame d r rk rv far :: c) M) =
lefts c ++ (if d then inorder far ++ inorder (plug c0 (tnode d M r rk rv Leaf)) else inorder (plug c0 (tnode d M r rk rv Leaf)) ++ inorder far) ++ rights c.
Proof.
intros Ho. apply one_sided_nil in Ho. rewrite !inorder_plug, lefts_app, rights_app. simpl.
destruct d; simpl in *; rewrite Ho, ?app_nil_r; simpl; by rewrite <- !app_assoc; simpl; rewrite <- ?app_assoc.
Qed.

Lemma balanced_substituted d c0 M r rk rv far c :
let near := plug c0 (tnode d M r rk rv Leaf) in
balanced near -> balanced far -> -1 <= height near - height far <= 1 -> balanced_path c (1 + Z.max (height near) (height far)) ->
balanced M /\ balanced_path (c0 ++ mk_frame d r rk rv far :: c) (1 + height M).
Proof.
intros near Hn Hf Hh Hc. assert (balanced (plug (c0 ++ mk_frame d r rk rv far :: c) (tnode d M r rk rv Leaf))) as Hb.
{ rewrite plug_app. simpl. apply balanced_plug. fold near. unfold fill. simpl. rewrite balanced_tnode, height_tnode. done. }
apply balanced_plug in Hb as [Hb Hbc]. rewrite height_tnode in Hbc. apply balanced_tnode in Hb as (_ & HM & _).
split; [done|]. by replace (1 + height M) with (1 + Z.max (height M) (height (@Leaf K V))) by (simpl; pose proof (height_nonneg M); lia).
Qed.

Lemma next_up_app c0 f c : next_up (c0 ++ f :: c) = Next (ptr_up (c0 ++ [f])) (dir_up (c0 ++ [f])).
Proof. by destruct c0. Qed.

Lemma addrs_near d c0 M r rk rv : addrs (plug c0 (tnode (K:=K) (V:=V) d M r rk rv Leaf)) ≡ₚ r :: addrs M ++ caddrs c0.
Proof. rewrite addrs_plug, addrs_tnode. simpl. by rewrite app_nil_r. Qed.

(** Once the children are moved, [repl] takes the place. *)
Lemma substituted_intro h s c0 d a bal (k : K) (v : V) nearp farp r rp rb rd rk rv M far c :
let near := plug c0 (tnode d M r rk rv Leaf) in let f := mk_frame d r rk rv far in
h !! a = Some (dnode d nearp (ptr_up c) farp bal (dir_up c) k v) -> bal = dz d * (height near - height far) ->
h !! r = Some (dnode d (seg_root c0 (root_ptr M)) rp (root_ptr far) rb rd rk rv) ->
reps h (Some r) (- dz d) far -> reps h (ptr_up (c0 ++ [f])) (dir_up (c0 ++ [f])) M ->
reps_seg h c0 (root_ptr M) (1 + height M) (Some r) (dz d) ->
reps_path h s c (Some a) (1 + Z.max (height near) (height far)) -> one_sided (negb d) c0 ->
NoDup (a :: r :: addrs M ++ caddrs c0 ++ addrs far ++ caddrs c) ->
exists h' s', take_place h s (Some a) (Some r) = Ret (h', s') /\
  substituted h s h' s' c (ptr_up (c0 ++ [f])) (dir_up (c0 ++ [f])) d near a far (r :: caddrs c).
Proof.
intros near f Ha -> Hr Hfar HM Hseg Hc Ho Hd. split_nodup.
destruct (take_place_ok h s a r d _ _ _ _ _ _ _ _ _ _ _ _ c _ _ Ha Hr Hc) as (h1 & s1 & E & Hs1 & Hr1 & Hc1 & Hl & Hn); [away..|].
exists h1, s1. split; [done|]. clear Hc.
assert (height near = seg_height c0 (1 + height M)) as Eh.
{ unfold near. rewrite <- seg_height_plug, height_tnode. f_equal. simpl. pose proof (height_nonneg M). lia. }
assert (caddrs (c0 ++ f :: c) = caddrs c0 ++ r :: addrs far ++ caddrs c) as Ec by (by rewrite caddrs_app, caddrs_cons).
exists (c0 ++ f :: c), M. split_and!.
- apply next_up_app.
- replace (ptr_up (c0 ++ f :: c)) with (ptr_up (c0 ++ [f])) by (by destruct c0).
  replace (dir_up (c0 ++ f :: c)) with (dir_up (c0 ++ [f])) by (by destruct c0). eapply reps_frame; [exact Hs1|away..|exact HM].
- apply reps_path_app. split; [eapply seg_frame; [exact Hs1|away..|exact Hseg]|]. cbn [reps_path f f_side f_a f_k f_v f_sib]. split_and!.
  + by rewrite <- Eh.
  + eapply reps_frame; [exact Hs1|away..|exact Hfar].
  + unfold fheight. cbn [f_sib]. by rewrite <- Eh.
- apply balanced_substituted.
- by apply inorder_substituted.
- rewrite Ec. rewrite !NoDup_app_disjoint, list.NoDup_cons, !NoDup_app_disjoint, !disjoint_app, !disjoint_cons, !disjoint_app, not_elem_of_app.
  by split_and!.
- rewrite Ec. not_in.
- done.
- done.
- unchanged.
- intros x Hx. split_nodup. unchanged.
Qed.

Lemma substituted_weaken h0 h s h' s' c par dir d near a far As0 As : substituted h s h' s' c par dir d near a far As0 ->
h !! a = h0 !! a -> (forall x, x ∉ As -> (x ∉ As0) /\ h !! x = h0 !! x) -> substituted h0 s h' s' c par dir d near a far As.
Proof.
intros (c' & T & H1 & H2 & H3 & H4 & H5 & H6 & H7 & H8 & H9 & H10 & H11) Ha Hx. exists c', T. split_and!; try done; [congruence|].
intros x Hx'. destruct (Hx x Hx') as [Hx0 <-]. by apply H11.
Qed.

Lemma substitute_ok h s c d near a k v far bal :
h !! a = Some (dnode d (root_ptr near) (ptr_up c) (root_ptr far) (dz d * (height near - height far)) (dir_up c) k v) -> bal = dz d ->
reps h (Some a) (dz d) near -> reps h (Some a) (- dz d) far -> near <> Leaf ->
reps_path h s c (Some a) (1 + Z.max (height near) (height far)) ->
NoDup (a :: addrs near ++ addrs far ++ caddrs c) ->
exists h' s' par dir, substitute h s (Some a) bal = Ret (h', s', par, dir) /\
  substituted h s h' s' c par dir d near a far (addrs near ++ addrs far ++ caddrs c).
Proof.
intros Ha -> Hnear Hfar Hne Hc Hd. unfold substitute. rewrite (ref_of_near _ _ _ _ _ _ _ _ _ _ Ha). cbn [mbind res_bind].
destruct (innermost_path d near Hne) as (c0 & M & r & rk & rv & -> & Ho). pose proof (addrs_near d c0 M r rk rv) as Hp.
assert (length c0 < size h)%nat as Hfuel.
{ apply list.NoDup_cons in Hd as [_ Hd]. apply NoDup_app_disjoint in Hd as [Hd _].
  pose proof (size_ge_mem h _ Hd (fun x => reps_mem h _ _ _ x Hnear)) as Hsz. rewrite Hp in Hsz. simpl in Hsz.
  rewrite length_app in Hsz. pose proof (length_caddrs c0). lia. }
rewrite (innermost_ok h d M r rk rv c0 _ _ _ Ho Hfuel Hnear). cbn [mbind res_bind].
assert (NoDup (a :: r :: addrs M ++ caddrs c0 ++ addrs far ++ caddrs c)) as Hd'.
{ eapply NoDup_Permutation_proper; [|exact Hd]. rewrite Hp. simpl. by rewrite <- app_assoc. }
set (As := addrs (plug c0 _) ++ _). assert (forall x, x ∉ As -> x ∉ r :: addrs M ++ caddrs c0 ++ addrs far ++ caddrs c) as HAs.
{ unfold As. intros x. rewrite Hp. simpl. by rewrite <- app_assoc. } clearbody As. clear Hd Hp Hfuel Hne.
pose proof (fun _ : True => Hd') as Hkeep. destruct c0 as [|f c0].
- simpl plug in *. rewrite root_tnode in Ha. pose proof Hd' as Hd. simpl in Hd. split_nodup.
  destruct (move_children_near h d a (Some r) _ far _ _ k v r (Some r) (dz d * (height M - 0)) rk rv M Ha Hfar Hnear) as (h1 & -> & Hs1 & Hr1 & Hfar1 & HM1); try done.
  { rewrite !list.NoDup_cons, NoDup_app_disjoint, !not_elem_of_cons, !not_elem_of_app. by split_and!. }
  clear Hnear Hfar. carry Hs1. cbn [mbind res_bind].
  destruct (substituted_intro h1 s [] d a _ k v _ _ r _ _ _ rk rv M far c Ha eq_refl Hr1) as (h2 & s2 & -> & Hsub); try (exact (Hkeep I) || done).
  eexists _, _, _, _. split; [reflexivity|]. eapply substituted_weaken; [exact Hsub|unchanged|].
  intros x Hx. apply HAs in Hx. clear HAs. split_nodup. split; [not_in|unchanged].
- pose proof Hd' as Hd. split_nodup.
  destruct (move_children_far h d a _ far _ _ k v r rk rv M f c0 Ha Hfar Hnear Ho) as (h1 & -> & Hx1 & Hr1 & Hfar1 & HM1 & Hseg1).
  { rewrite !list.NoDup_cons, !NoDup_app_disjoint, !not_elem_of_cons, !not_elem_of_app, !disjoint_app. split_and!; away. }
  cbn [mbind res_bind].
  assert (h1 !! a = h !! a) as Ea by (apply Hx1; not_in). rewrite <- Ea in Ha.
  assert (reps_path h1 s c (Some a) (1 + Z.max (height (plug (f :: c0) (tnode d M r rk rv Leaf))) (height far))) as Hc1.
  { eapply reps_path_agree; [reflexivity| |exact Hc]. intros x Hx. apply Hx1. rewrite not_elem_of_cons, !not_elem_of_app.
    split_and!; [by intros ->|..]; intros Hx'; match goal with H : ?L ## caddrs c, G : _ ∈ ?L |- _ => by apply (H x G) end. }
  assert (root_ptr (plug (f :: c0) (tnode d M r rk rv Leaf)) = seg_root (f :: c0) (root_ptr M)) as Eroot
    by (by rewrite <- seg_root_plug, !seg_root_cons).
  pose proof Ho as Hof. apply list.Forall_cons in Hof as [Hof _]. rewrite Eroot in Hr1. rewrite <- dz_negb, <- Hof in HM1 |- *.
  destruct (substituted_intro h1 s (f :: c0) d a _ k v _ _ r _ _ _ rk rv M far c Ha eq_refl Hr1) as (h2 & s2 & E & Hsub); try (exact (Hkeep I) || done).
  rewrite E. eexists _, _, _, _. split; [reflexivity|]. eapply substituted_weaken; [exact Hsub|done|].
  intros x Hx. apply HAs in Hx. clear HAs. split_nodup. split; [not_in|apply Hx1; not_in].
Qed.

(** ** The lowest node afterwards *)

Lemma lowest_removed c l a k v r : balanced (Node l a k v r) -> NoDup (addrs (plug c (Node l a k v r))) ->
(if bool_decide ((Some a : ptr) = first_ptr (inorder (plug c (Node l a k v r)))) then match root_ptr r with Some _ => root_ptr r | None => ptr_up c end
 else first_ptr (inorder (plug c (Node l a k v r)))) = first_ptr (lefts c ++ (inorder l ++ inorder r) ++ rights c).
Proof.
intros Hb Hd. unfold addrs in Hd. rewrite inorder_plug in *. simpl in *. rewrite <- !app_assoc in *. simpl in *. rewrite !app_assoc in *.
destruct (lefts c ++ inorder l) as [|x L] eqn:El.
- apply app_eq_nil in El as [Elc Ell]. simpl. rewrite bool_decide_eq_true_2 by done.
  destruct l as [|l1 b kb vb l2]; [|simpl in Ell; by destruct (inorder l1)]. destruct Hb as (Hb & _ & _). simpl in Hb.
  destruct r as [|rl b kb vb rr]; simpl.
  + destruct c as [|f c]; [done|]. destruct (lefts_head_side f c Elc) as [_ H]. by rewrite H.
  + simpl in Hb. pose proof (height_nonneg rl). pose proof (height_nonneg rr).
    assert (rl = Leaf) as -> by (destruct rl as [|l1 ? ? ? r1]; [done|]; simpl in *; pose proof (height_nonneg l1); pose proof (height_nonneg r1); lia).
    done.
- simpl. rewrite bool_decide_eq_false_2; [done|]. intros [= ->]. simpl in Hd. apply list.NoDup_cons in Hd as [Hd _]. apply Hd.
  rewrite !fmap_app. simpl. set_solver.
Qed.

(** ** Freeing the removed node *)

Variable kcmp : K -> K -> Z.
Context {HK : KeyOrder kcmp}.

(** The tree without the node, once the heap is balanced again. *)
Lemma avl_removed_rep h s c l a k v r h0 h1 s0 s1 T1 As : avl_rep kcmp h s (plug c (Node l a k v r)) -> item_count s < 2 ^ 64 ->
rebalanced h0 s0 h1 s1 T1 (lefts c ++ (inorder l ++ inorder r) ++ rights c) As ->
lowest s0 = first_ptr (lefts c ++ (inorder l ++ inorder r) ++ rights c) -> item_count s0 = u64 (item_count s - 1) ->
avl_rep kcmp (delete a h1) s1 T1 /\ a ∉ addrs T1.
Proof.
intros [_ _ _ Hs Hd _ Hn] Hc (H1 & H2 & H3 & H4 & H5 & H6 & _) Hl Hn0.
unfold addrs in Hd. rewrite inorder_plug in *. simpl in Hs, Hd, Hn.
rewrite <- !app_assoc in *. simpl in *. rewrite !app_assoc in *.
assert (NoDup (addrs T1) /\ a ∉ addrs T1) as [Hd1 Ha].
{ unfold addrs. rewrite H4, <- app_assoc. rewrite fmap_app in *. simpl in Hd. rewrite <- Permutation_middle in Hd.
  by apply list.NoDup_cons in Hd as [? ?]. }
split; [|done]. split; try done.
- eapply reps_agree; [|exact H1]. intros x Hx. rewrite lookup_delete_ne; [done|]. by intros ->.
- rewrite H4. rewrite <- app_assoc. apply (sorted_app kcmp) in Hs as (Hs1 & Hs2 & _ & _ & Hs3). unfold sorted. apply StronglySorted_app. by split_and!.
- by rewrite H5, Hl, H4.
- rewrite H6, Hn0, Hn, H4. rewrite !length_app in *. simpl in *. rewrite !length_app in *.
  rewrite (uwrap_id 64) by (unfold in_u; lia). lia.
Qed.

(** From the place where [substitute] or the removal of a leaf left it, the
  rebalancing reaches a tree. *)
Lemma rebalanceRemoved_ok h s c par dir T : next_up c = Next par dir -> reps h (ptr_up c) (dir_up c) T ->
reps_path h s c (root_ptr T) (1 + height T) -> balanced T -> balanced_path c (1 + height T) -> NoDup (addrs T ++ caddrs c) ->
exists h' s' T', rebalanceRemoved_g h s par dir = Ret (h', s') /\
  rebalanced h s h' s' T' (inorder (plug c T)) (addrs T ++ caddrs c).
Proof.
intros Hn HT Hc Hb Hbc Hd. destruct (rebalance_removed_ok c (size h) h s T (1 + height T)) as (h' & s' & T' & E & Hr); try done; [|lia|].
- transitivity (length (caddrs c)); [apply length_caddrs|]. apply NoDup_app_disjoint in Hd as (_ & _ & Hd).
  apply size_ge_mem; [done|]. intros x. by apply (path_mem h s c (root_ptr T) (1 + height T)).
- rewrite Hn in E. by exists h', s', T'.
Qed.

(** ** remove_g *)

(** A node without children, below a parent. *)
Lemma remove_leaf_ok h s c0 f a k v : let c := f :: c0 in
h !! a = Some (mk_node None (ptr_up c) None 0 (dir_up c) k v) -> reps_path h s c (Some a) 1 -> balanced_path c 1 ->
NoDup (caddrs c) -> a ∉ caddrs c ->
exists h1 h' s' T', set_ref h (ptr_up c) (1 + dir_up c) None = Ret h1 /\
  rebalanceRemoved_g h1 s (ptr_up c) (dir_up c) = Ret (h', s') /\
  rebalanced h s h' s' T' (lefts c ++ rights c) (caddrs c).
Proof.
intros c Ha Hc Hb Hd Hac. subst c. destruct Hc as (Hf & Hsib & Hc). simpl ptr_up. simpl dir_up.
rewrite (set_ref_near _ _ _ _ _ _ _ _ _ _ _ Hf). set (h1 := <[f_a f := _]> h).
assert (same_but (f_a f) [] h h1) as Hs by apply same_but_insert. pose proof Hd as Hd'. rewrite caddrs_cons in Hd'. split_nodup.
destruct (rebalanceRemoved_ok h1 s (f :: c0) (Some (f_a f)) (dz (f_side f)) Leaf) as (h' & s' & T' & E & Hr); try done.
- split_and!; [apply lookup_insert_eq|by carry Hs..].
- exists h1, h', s', T'. split_and!; [done..|]. rewrite inorder_plug in Hr. eapply rebalanced_trans; [exact Hr|].
  intros x Hx. split; [done|]. apply Hs; [|apply not_elem_of_nil]. intros ->. apply Hx, head_caddrs.
Qed.

(** The side of a node with children that [dir] stands for. *)
Lemma higher_side l a k v r bal : bal = (if height r - height l =? 0 then 1 else height r - height l) ->
-1 <= height r - height l <= 1 -> ~ (l = Leaf /\ r = Leaf) ->
exists d near far, Node (K:=K) (V:=V) l a k v r = tnode d near a k v far /\ bal = dz d /\ near <> Leaf /\
  inorder l ++ inorder r = (if d then inorder far ++ inorder near else inorder near ++ inorder far).
Proof.
intros -> Hh Hne. pose proof (height_nonneg l). pose proof (height_nonneg r).
destruct (Z.ltb_spec (height r) (height l)) as [Hlt|Hge].
- exists false, l, r. split_and!; [done| |by intros ->; simpl in *; lia|done]. unfold dz. ztest; lia.
- exists true, r, l. split_and!; [done|unfold dz; ztest; lia| |done]. intros ->. destruct l as [|l1 ? ? ? l2]; [by apply Hne|].
  simpl in *. pose proof (height_nonneg l1). pose proof (height_nonneg l2). lia.
Qed.

(** A node with children; what is freed afterwards is still allocated. *)
Lemma remove_inner_ok h s c l a k v r : reps h (ptr_up c) (dir_up c) (Node l a k v r) ->
reps_path h s c (Some a) (height (Node l a k v r)) -> balanced (Node l a k v r) -> balanced_path c (height (Node l a k v r)) ->
NoDup (addrs (Node l a k v r) ++ caddrs c) -> ~ (l = Leaf /\ r = Leaf) ->
exists h1 s1 par dir h' s' T' As, substitute h s (Some a) (if height r - height l =? 0 then 1 else height r - height l) = Ret (h1, s1, par, dir) /\
  rebalanceRemoved_g h1 s1 par dir = Ret (h', s') /\
  rebalanced h1 s h' s' T' (lefts c ++ (inorder l ++ inorder r) ++ rights c) As /\ is_Some (h' !! a).
Proof.
intros HT Hc Hb Hbc Hd Hne. set (bal := if _ : bool then _ else _).
destruct (higher_side l a k v r bal eq_refl (proj1 Hb) Hne) as (d & near & far & E & Eb & Hnear & Ei). rewrite E in *. clear E.
apply reps_tnode in HT as (Ha & Hn & Hf). rewrite height_tnode in *. apply balanced_tnode in Hb as (Hh & Hbn & Hbf).
assert (NoDup (a :: addrs near ++ addrs far ++ caddrs c)) as Hd'.
{ eapply NoDup_Permutation_proper; [|exact Hd]. rewrite addrs_tnode. simpl. by rewrite <- app_assoc. }
destruct (substitute_ok h s c d near a k v far bal Ha Eb Hn Hf Hnear Hc Hd') as (h1 & s1 & par & dir & E1 & Hsub).
destruct Hsub as (c' & T & Hnx & HT & Hc' & Hbal & Hi & Hdc & Hac & Hl1 & Hn1 & Ea & Hx1).
destruct (Hbal Hbn Hbf Hh Hbc) as [HbT Hbc'].
destruct (rebalanceRemoved_ok h1 s1 c' par dir T Hnx HT Hc' HbT Hbc' Hdc) as (h' & s' & T' & E2 & Hreb).
exists h1, s1, par, dir, h', s', T', (addrs T ++ caddrs c'). split_and!; [done..| |].
- destruct Hreb as (G1 & G2 & G3 & G4 & G5 & G6 & G7). split_and!; try done; [by rewrite G4, Hi, Ei|congruence..].
- destruct Hreb as (_ & _ & _ & _ & _ & _ & G). rewrite G by done. rewrite Ea, Ha. by eexists.
Qed.

Lemma remove_found_ok h s c l a k v r : avl_rep kcmp h s (plug c (Node l a k v r)) -> item_count s < 2 ^ 64 ->
exists h' s' T', remove_found h s (Some a) = Ret (h', s') /\ avl_rep kcmp h' s' T' /\
  inorder T' = lefts c ++ (inorder l ++ inorder r) ++ rights c.
Proof.
intros Hrep Hcnt. pose proof Hrep as [HT Hroot Hb _ Hd Hlow _].
destruct (reps_unplug h s c (Node l a k v r) HT Hroot) as [HN Hc]. apply balanced_plug in Hb as [HbN Hbc].
pose proof (lowest_removed c l a k v r HbN Hd) as Hlr. rewrite <- Hlow in Hlr.
rewrite addrs_plug in Hd. pose proof HN as (Ha & _). unfold remove_found. cbv zeta. cbn [root lowest item_count].
rewrite (load_ok _ _ _ Ha). cbn [mbind res_bind]. cbv zeta. cbn [lchild rchild parent balance direction]. rewrite Hlr.
set (s0 := mk (root s) (first_ptr _) (u64 (item_count s - 1))).
assert (reps_path h s0 c (Some a) (height (Node l a k v r))) as Hc0 by (by eapply reps_path_agree; [| |exact Hc]).
assert (forall h0 h1 s1 T1 As, rebalanced h0 s0 h1 s1 T1 (lefts c ++ (inorder l ++ inorder r) ++ rights c) As -> is_Some (h1 !! a) ->
  exists h' s' T', (hs ← Ret (h1, s1); h2 ← free (fst hs) (Some a); Ret (h2, snd hs)) = Ret (h', s') /\ avl_rep kcmp h' s' T' /\
    inorder T' = lefts c ++ (inorder l ++ inorder r) ++ rights c) as Hend.
{ intros h0 h1 s1 T1 As Hreb [n Hn]. cbn [mbind res_bind fst snd]. rewrite (free_ok _ _ _ Hn). cbn [mbind res_bind].
  exists (delete a h1), s1, T1. split_and!; [done| |apply Hreb].
  by apply (avl_removed_rep h s c l a k v r h0 h1 s0 s1 T1 As Hrep Hcnt Hreb). }
assert (forall h2, h2 !! a = h !! a -> is_Some (h2 !! a)) as Hkeep by (intros h2 ->; by eexists).
destruct (bool_decide _ && bool_decide _) eqn:Eb.
- apply andb_true_iff in Eb as [Eb1 Eb2]. rewrite bool_decide_eq_true in Eb1, Eb2.
  rewrite (free_ok _ _ _ Ha). cbn [mbind res_bind]. eexists _, _, Leaf. split; [reflexivity|].
  assert (lefts c ++ (inorder l ++ inorder r) ++ rights c = []) as Enil by (by destruct (lefts c ++ _)).
  rewrite Enil. split; [|done].
  destruct (avl_removed_rep h s c l a k v r ∅ ∅ (mk None None (u64 (item_count s - 1))) (mk None None (u64 (item_count s - 1))) Leaf []) as [[] _];
    try done; rewrite ?Enil; try done.
- destruct ((height r - height l =? 0) && _) eqn:El.
  + apply andb_true_iff in El as [El1 El2]. apply Z.eqb_eq in El1. apply bool_decide_eq_true in El2.
    assert (l = Leaf) as -> by (by destruct l).
    assert (r = Leaf) as -> by (destruct r; [done|]; simpl in El1; pose proof (height_nonneg r1); pose proof (height_nonneg r2); lia).
    assert (exists f c0, c = f :: c0) as (f & c0 & Ec).
    { destruct c as [|f c0]; [|by eexists _, _]. simpl in Hlow, Eb. rewrite Hlow in Eb. simpl in Eb.
      by rewrite !bool_decide_eq_true_2 in Eb. }
    simpl in Hd. apply list.NoDup_cons in Hd as [Hac Hdc]. rewrite Ec in Ha, Hc0, Hbc, Hdc, Hac |- *.
    destruct (remove_leaf_ok h s0 c0 f a k v Ha Hc0 Hbc Hdc Hac) as (h1 & h2 & s2 & T2 & -> & E2 & Hreb). rewrite <- Ec in *.
    cbn [mbind res_bind]. rewrite E2. eapply Hend; [exact Hreb|]. apply Hkeep. destruct Hreb as (_ & _ & _ & _ & _ & _ & G). by apply G.
  + destruct (remove_inner_ok h s0 c l a k v r HN Hc0 HbN Hbc Hd) as (h1 & s1 & par & dir & h2 & s2 & T2 & As & Es & E2 & Hreb & Hsome).
    { intros [-> ->]. by simpl in El. }
    rewrite Es. cbn [mbind res_bind]. rewrite E2. eapply Hend; [|exact Hsome].
    destruct Hreb as (G1 & G2 & G3 & G4 & G5 & G6 & G7). split_and!; done.
Qed.

Lemma avl_remove_g_ok h s T k : avl_rep kcmp h s T -> item_count s < 2 ^ 64 ->
exists b h' s' T', remove_g kcmp h s k = Ret (b, h', s') /\ avl_rep kcmp h' s' T' /\
  ((exists L a v R, inorder T = L ++ (a, k, v) :: R /\ b = true /\ inorder T' = L ++ R) \/
   (exists L R, inorder T = L ++ R /\ Forall (fun x => klt kcmp (key x) k) L /\ Forall (fun x => klt kcmp k (key x)) R /\
     b = false /\ h' = h /\ s' = s /\ T' = T)).
Proof.
intros Hrep Hc. pose proof Hrep as [HT Hr Hb Hs Hd _ _]. unfold remove_g, find_g. rewrite Hr.
destruct (find_loop_ok kcmp h k T [] (size h) None 0 HT Hs) as (c & [(l & a & v & r & E & ET)|(E & ET & Hk)]).
- by split.
- pose proof (height_le_length T). pose proof (avl_size kcmp h s T Hrep). lia.
- simpl in ET. rewrite E. cbn [mbind res_bind]. rewrite ET in Hrep.
  destruct (remove_found_ok h s c l a k v r Hrep Hc) as (h' & s' & T' & E' & Hrep' & Hi). rewrite E'. cbn [mbind res_bind fst snd].
  exists true, h', s', T'. split_and!; [done..|]. left. exists (lefts c ++ inorder l), a, v, (inorder r ++ rights c).
  rewrite ET, inorder_plug, Hi. simpl. by rewrite <- !app_assoc.
- rewrite E. cbn [mbind res_bind]. exists false, h, s, T. split_and!; [done..|]. right. exists (lefts c), (rights c).
  simpl in ET. rewrite ET, inorder_plug. destruct Hk. by split_and!.
Qed.

End Delete.
