(* ===== verification/AvlIter.v ===== *)
(** * Insertion, traversal and destruction of the AVL tree

    The entry points of [Avl_c] on a heap that represents a tree: what
    [create_g], [replace_g] and [find_g] return, the successor found by
    [iterNext_g], the freeing of a whole tree, and what [run_g] visits. *)

From stdpp Require Import sorting.
From S2P Require Import Prelude Machine Heap Avl AvlTree AvlBalance AvlSearch AvlRemove AvlSubstitute AvlDelete.

Section Iter.
Context {K V : Type}.
Variable kcmp : K -> K -> Z.
Context {HK : KeyOrder kcmp}.
Implicit Types (h : heap K V) (s : Avl.t) (T : tree K V) (d : bool) (c : list (frame K V)).

(** ** Insertion *)

(** The search of [create_g], [ncreate_g] and [replace_g] from the root. *)
Lemma search_ok h s T k : avl_rep kcmp h s T -> exists c,
(exists l a v r, slot_loop kcmp (S (size h)) h s SRoot 0 k = Ret (slot_of c, 0) /\ T = plug c (Node l a k v r) /\
   read_slot h s (slot_of c) = Ret (Some a)) \/
(slot_loop kcmp (S (size h)) h s SRoot 0 k = Ret (slot_of c, dir_up c) /\ T = plug c Leaf /\ fits kcmp k c /\
   read_slot h s (slot_of c) = Ret None).
Proof.
intros Hrep. pose proof Hrep as [HT Hr _ Hs _ _ _].
assert (forall c T', T = plug c T' -> read_slot h s (slot_of c) = Ret (root_ptr T')) as Hread.
{ intros c T' ->. destruct (reps_unplug h s c T' HT Hr) as [_ Hc]. by apply (read_slot_ok _ _ _ _ _ Hc). }
destruct (slot_loop_ok kcmp h s k T [] (S (size h)) HT Hr Hs) as (c & [(l & a & v & r & E & ET)|(E & ET & Hk)]).
- by split.
- pose proof (height_le_length T). pose proof (avl_size kcmp h s T Hrep). lia.
- exists c. left. exists l, a, v, r. split_and!; [done|done|]. by rewrite (Hread c _ ET).
- exists c. right. split_and!; [done|done|done|]. by rewrite (Hread c _ ET).
Qed.

(** A key between the two parts of the list. *)
Definition between (L : list (addr * K * V)) (k : K) (R : list (addr * K * V)) : Prop :=
Forall (fun x => klt kcmp (key x) k) L /\ Forall (fun x => klt kcmp k (key x)) R.

Lemma avl_create_g_ok h s T k v : avl_rep kcmp h s T -> item_count s + 1 < 2 ^ 64 ->
exists b h' s' T', create_g kcmp h s k v = Ret (b, h', s') /\ avl_rep kcmp h' s' T' /\
  ((exists L a v0 R, inorder T = L ++ (a, k, v0) :: R /\ b = false /\ h' = h /\ s' = s /\ T' = T) \/
   (exists L a R, inorder T = L ++ R /\ between L k R /\ b = true /\ inorder T' = L ++ (a, k, v) :: R)).
Proof.
intros Hrep Hc. unfold create_g. destruct (search_ok h s T k Hrep) as (c & [(l & a & v0 & r & -> & ET & E)|(-> & ET & Hk & E)]);
  cbn [mbind res_bind]; rewrite E; cbn [mbind res_bind].
- exists false, h, s, T. split_and!; [done..|]. left. exists (lefts c ++ inorder l), a, v0, (inorder r ++ rights c).
  rewrite ET, inorder_plug. simpl. by rewrite <- !app_assoc.
- rewrite ET in Hrep. destruct (link_new_ok kcmp h s c k v Hrep Hk Hc) as (a & h' & s' & T' & -> & Hrep' & Hi). cbn [mbind res_bind fst snd].
  exists true, h', s', T'. split_and!; [done..|]. right. exists (lefts c), a, (rights c). by rewrite ET, inorder_plug.
Qed.

(** Storing another value in a node. *)
Lemma addrs_plug_node c l a k v r : addrs (plug c (Node (K:=K) (V:=V) l a k v r)) ≡ₚ a :: addrs l ++ addrs r ++ caddrs c.
Proof. rewrite addrs_plug, addrs_node, <- Permutation_middle. simpl. by rewrite <- app_assoc. Qed.

Lemma sorted_fst (l1 l2 : list (addr * K * V)) : fst <$> l1 = fst <$> l2 -> sorted kcmp l1 -> sorted kcmp l2.
Proof.
revert l2. induction l1 as [|x l1 IH]; intros [|y l2]; try done. simpl. intros [= E1 E2]. unfold sorted. rewrite !StronglySorted_cons.
intros [Hx Hl]. split; [|by apply IH]. assert (Forall (fun z => klt kcmp (key x) (snd z)) (fst <$> l1)) as H by (by apply list.Forall_fmap).
change (fst <$> l1 = fst <$> l2) in E2. rewrite E2 in H. apply (proj1 (list.Forall_fmap fst _ _)) in H. unfold key in *. rewrite E1 in H. exact H.
Qed.

Lemma avl_rep_fst h s h' T T' : avl_rep kcmp h s T -> fst <$> inorder T = fst <$> inorder T' -> reps h' None 0 T' -> root s = root_ptr T' ->
balanced T' -> avl_rep kcmp h' s T'.
Proof.
intros [_ _ _ Hs Hd Hl Hn] E HT Hr Hb. split; try done.
- by eapply sorted_fst.
- change (NoDup (fst ∘ fst <$> inorder T)) in Hd. change (NoDup (fst ∘ fst <$> inorder T')).
  rewrite list_fmap_compose in Hd |- *. by rewrite <- E.
- rewrite Hl. destruct (inorder T) as [|x L], (inorder T') as [|y L']; try done. simpl. by injection E as ->.
- rewrite Hn. apply (f_equal length) in E. rewrite !length_fmap in E. by rewrite E.
Qed.

Lemma set_value_ok h s c l a k v0 r v : avl_rep kcmp h s (plug c (Node l a k v0 r)) ->
exists h', set_value h (Some a) v = Ret h' /\ avl_rep kcmp h' s (plug c (Node l a k v r)).
Proof.
intros Hrep. pose proof Hrep as [HT Hr Hb _ Hd _ _]. destruct (reps_unplug h s c _ HT Hr) as [(Ha & HL & HR) Hc].
unfold set_value. rewrite (update_ok _ _ _ _ Ha). cbn [lchild parent rchild balance direction node_k].
eexists. split; [reflexivity|]. set (h' := <[a := _]> h). assert (same_but a [] h h') as Hs' by apply same_but_insert.
rewrite addrs_plug_node in Hd. split_nodup.
assert (reps h' (ptr_up c) (dir_up c) (Node l a k v r)) as HN.
{ split_and!; [apply lookup_insert_eq|eapply reps_frame; [exact Hs'|away..|done]|eapply reps_frame; [exact Hs'|away..|done]]. }
destruct (reps_plug h' s c (Node l a k v r) HN) as [HT' Hr']; [eapply path_frame; [exact Hs'|away|away|exact Hc]|].
eapply avl_rep_fst; [exact Hrep| |done|done|].
- rewrite !inorder_plug. cbn [inorder]. by rewrite !fmap_app.
- apply balanced_plug. by apply balanced_plug in Hb.
Qed.

Lemma avl_replace_g_ok h s T k v : avl_rep kcmp h s T -> item_count s + 1 < 2 ^ 64 ->
exists b h' s' T', replace_g kcmp h s k v = Ret (b, h', s') /\ avl_rep kcmp h' s' T' /\
  ((exists L a v0 R, inorder T = L ++ (a, k, v0) :: R /\ b = false /\ inorder T' = L ++ (a, k, v) :: R) \/
   (exists L a R, inorder T = L ++ R /\ between L k R /\ b = true /\ inorder T' = L ++ (a, k, v) :: R)).
Proof.
intros Hrep Hc. unfold replace_g. destruct (search_ok h s T k Hrep) as (c & [(l & a & v0 & r & -> & ET & E)|(-> & ET & Hk & E)]);
  cbn [mbind res_bind]; rewrite E; cbn [mbind res_bind]; rewrite ET in Hrep.
- destruct (set_value_ok h s c l a k v0 r v Hrep) as (h' & -> & Hrep'). cbn [mbind res_bind].
  exists false, h', s. eexists. split_and!; [done|exact Hrep'|]. left. exists (lefts c ++ inorder l), a, v0, (inorder r ++ rights c).
  rewrite ET, !inorder_plug. simpl. by rewrite <- !app_assoc.
- destruct (link_new_ok kcmp h s c k v Hrep Hk Hc) as (a & h' & s' & T' & -> & Hrep' & Hi). cbn [mbind res_bind fst snd].
  exists true, h', s', T'. split_and!; [done..|]. right. exists (lefts c), a, (rights c). by rewrite ET, inorder_plug.
Qed.

Lemma accValue_ok h s T k : avl_rep kcmp h s T ->
exists o, accValue kcmp h s k = Ret o /\
  ((exists L a v R, inorder T = L ++ (a, k, v) :: R /\ o = Some v) \/
   (exists L R, inorder T = L ++ R /\ between L k R /\ o = None)).
Proof.
intros Hrep. pose proof Hrep as [HT Hr _ Hs _ _ _]. unfold accValue, find_g. rewrite Hr.
destruct (find_loop_ok kcmp h k T [] (size h) None 0 HT Hs) as (c & [(l & a & v & r & E & ET)|(E & ET & Hk)]).
- by split.
- pose proof (height_le_length T). pose proof (avl_size kcmp h s T Hrep). lia.
- simpl in ET. rewrite E. cbn [mbind res_bind]. rewrite ET in HT, Hr. destruct (reps_unplug h s c _ HT Hr) as [(Ha & _) _].
  rewrite (load_ok _ _ _ Ha). exists (Some v). split; [done|]. left. exists (lefts c ++ inorder l), a, v, (inorder r ++ rights c).
  rewrite ET, inorder_plug. simpl. by rewrite <- !app_assoc.
- rewrite E. exists None. split; [done|]. right. exists (lefts c), (rights c). simpl in ET. by rewrite ET, inorder_plug.
Qed.

(** ** Iteration *)

Lemma leftmost_ok h T : forall fuel par dir, reps h par dir T -> T <> Leaf -> (Z.to_nat (height T) <= fuel)%nat ->
leftmost fuel h (root_ptr T) = Ret (first_ptr (inorder T)).
Proof.
induction T as [|l IHl a k v r IHr]; intros fuel par dir HT Hne Hf; [done|]. simpl in Hf.
pose proof (height_nonneg l). pose proof (height_nonneg r). destruct fuel as [|fuel]; [lia|]. destruct HT as (Ha & Hl & Hr).
cbn [leftmost root_ptr inorder]. rewrite (load_ok _ _ _ Ha). cbn [mbind res_bind lchild].
destruct l as [|l1 b kb vb l2] eqn:El; [done|]. rewrite <- El in *.
assert (l <> Leaf) as Hnl by (by rewrite El). assert (root_ptr l = Some b) as Er by (by rewrite El).
rewrite (IHl fuel _ _ Hl Hnl) by lia. rewrite Er.
destruct (inorder l) eqn:Ei; [|done]. rewrite El in Ei. simpl in Ei. by destruct (inorder l1).
Qed.

(** Climbing from a subtree that was left on its right side. *)
Lemma climb_ok h s c : forall fuel hole hh, reps_path h s c hole hh -> (length c <= fuel)%nat -> ~ dir_up c < 0 ->
climb fuel h (ptr_up c) = Ret (first_ptr (rights c)).
Proof.
induction c as [|f c IH]; intros fuel hole hh Hc Hf Hd; [by destruct fuel|]. simpl in Hf. destruct fuel as [|fuel]; [lia|].
simpl in Hd. destruct (f_side f) eqn:Es; [|by unfold dz in Hd]. destruct Hc as (Ha & _ & Hc).
cbn [climb ptr_up rights]. rewrite (load_ok _ _ _ Ha). cbn [mbind res_bind]. rewrite dnode_direction, dnode_parent, Es.
destruct (Z.ltb_spec (dir_up c) 0) as [Hlt|Hge].
- destruct c as [|g c]; [done|]. simpl in *. by destruct (f_side g).
- apply (IH fuel _ _ Hc); lia.
Qed.

Lemma avl_iterNext_ok h s c l a k v r : avl_rep kcmp h s (plug c (Node l a k v r)) ->
iterNext_g h (Some a) = Ret (first_ptr (inorder r ++ rights c)).
Proof.
intros Hrep. pose proof Hrep as [HT Hroot _ _ Hd _ _]. destruct (reps_unplug h s c _ HT Hroot) as [(Ha & Hl & Hr) Hc].
unfold iterNext_g. rewrite (load_ok _ _ _ Ha). cbn [mbind res_bind rchild parent direction].
destruct (root_ptr r) as [b|] eqn:Er.
- assert (r <> Leaf) as Hne by (by intros ->). rewrite <- Er, (leftmost_ok h r _ _ _ Hr Hne).
  + destruct (inorder r) eqn:Ei; [|done]. destruct r; [done|]. simpl in Ei. by destruct (inorder r1).
  + pose proof (height_le_length r). pose proof (avl_size kcmp h s _ Hrep) as Hsz. rewrite inorder_plug in Hsz. simpl in Hsz.
    rewrite !length_app in Hsz. simpl in Hsz. rewrite ?length_app in Hsz. lia.
- assert (r = Leaf) as -> by (by destruct r). simpl app. destruct (Z.ltb_spec (dir_up c) 0) as [Hlt|Hge].
  + destruct c as [|f c]; [done|]. simpl in *. by destruct (f_side f).
  + apply (climb_ok h s c _ _ _ Hc); [|lia]. rewrite addrs_plug in Hd. apply NoDup_app_disjoint in Hd as (_ & _ & Hd).
    transitivity (length (caddrs c)); [apply length_caddrs|]. apply size_ge_mem; [done|]. intros x. by apply (path_mem h s c _ _ x Hc).
Qed.

(** Every element of a tree is the node at the end of a path. *)
Lemma element_path T : forall L a k v R, inorder T = L ++ (a, k, v) :: R ->
exists c l r, T = plug c (Node l a k v r) /\ L = lefts c ++ inorder l /\ R = inorder r ++ rights c.
Proof.
induction T as [|l IHl b kb vb r IHr]; intros L a k v R E; simpl in E; [by destruct L|].
apply app_eq_app in E as (M & [[E1 E2]|[E1 E2]]).
- destruct M as [|x M]; simpl in E2.
  + injection E2 as -> -> -> ->. exists [], l, r. rewrite !app_nil_r in *. by rewrite E1.
  + injection E2 as <- ->. destruct (IHl _ _ _ _ _ E1) as (c & l' & r' & -> & -> & ->).
    exists (c ++ [mk_frame false b kb vb r]), l', r'. rewrite plug_app, lefts_app, rights_app. simpl. rewrite ?app_nil_r, <- ?app_assoc. by split_and!.
- destruct M as [|x M]; simpl in E2.
  + injection E2 as <- <- <- <-. exists [], l, r. rewrite !app_nil_r in *. by rewrite E1.
  + injection E2 as <- E2. destruct (IHr _ _ _ _ _ E2) as (c & l' & r' & -> & -> & ->).
    exists (c ++ [mk_frame true b kb vb l]), l', r'. rewrite plug_app, lefts_app, rights_app. simpl. rewrite E1, ?app_nil_r.
    rewrite <- !app_assoc. by split_and!.
Qed.

(** ** Destruction *)

Lemma destroy_recursive_ok T : forall fuel h par dir, reps h par dir T -> T <> Leaf -> NoDup (addrs T) -> (Z.to_nat (height T) <= fuel)%nat ->
exists h', destroy_recursive fuel h (root_ptr T) = Ret h' /\ (forall x, h' !! x = if bool_decide (x ∈ addrs T) then None else h !! x).
Proof.
assert (forall fuel h par dir T, (T <> Leaf -> exists h', destroy_recursive fuel h (root_ptr T) = Ret h' /\
    (forall x, h' !! x = if bool_decide (x ∈ addrs T) then None else h !! x)) -> reps h par dir T ->
  exists h', match root_ptr T with Some _ => destroy_recursive fuel h (root_ptr T) | None => Ret h end = Ret h' /\
    (forall x, h' !! x = if bool_decide (x ∈ addrs T) then None else h !! x)) as Hopt.
{ intros fuel h par dir [|l a k v r] H _; [by exists h|]. by apply H. }
induction T as [|l IHl a k v r IHr]; intros fuel h par dir HT Hne Hd Hf; [done|]. simpl in Hf.
pose proof (height_nonneg l). pose proof (height_nonneg r). destruct fuel as [|fuel]; [lia|]. destruct HT as (Ha & Hl & Hr).
rewrite addrs_node in Hd. split_nodup. cbn [destroy_recursive root_ptr]. rewrite (load_ok _ _ _ Ha). cbn [mbind res_bind lchild rchild].
destruct (Hopt fuel h (Some a) (-1) l) as (h1 & E1 & Hx1); [|done|].
{ intros Hnl. apply (IHl fuel h _ _ Hl Hnl); [done|lia]. }
rewrite E1. cbn [mbind res_bind].
assert (reps h1 (Some a) 1 r) as Hr1.
{ eapply reps_agree; [|exact Hr]. intros x Hx. rewrite Hx1, bool_decide_eq_false_2; [done|]. intros Hxl.
  match goal with H : addrs l ## addrs r |- _ => by apply (H x) end. }
destruct (Hopt fuel h1 (Some a) 1 r) as (h2 & E2 & Hx2); [|done|].
{ intros Hnr. apply (IHr fuel h1 _ _ Hr1 Hnr); [done|lia]. }
rewrite E2. cbn [mbind res_bind].
assert (h2 !! a = h !! a) as Ea by (rewrite Hx2, bool_decide_eq_false_2, Hx1, bool_decide_eq_false_2; done).
rewrite Ha in Ea. rewrite (free_ok _ _ _ Ea). exists (delete a h2). split; [done|]. intros x. rewrite addrs_node.
destruct (decide (x = a)) as [->|Hxa].
- rewrite lookup_delete_eq, bool_decide_eq_true_2; [done|]. rewrite elem_of_app, elem_of_cons. auto.
- rewrite lookup_delete_ne by done. rewrite Hx2, Hx1. repeat case_bool_decide; set_solver.
Qed.

Lemma avl_clean_g_ok h s T : avl_rep kcmp h s T -> exists h', clean_g h s = Ret (h', create) /\
(forall x, h' !! x = if bool_decide (x ∈ addrs T) then None else h !! x).
Proof.
intros Hrep. pose proof Hrep as [HT Hr _ _ Hd Hl Hn]. unfold clean_g. rewrite Hr.
destruct T as [|l a k v r]; simpl root_ptr.
- exists h. split; [|done]. destruct s as [r0 l0 n0]. simpl in *. by subst.
- destruct (destroy_recursive_ok (Node l a k v r) (S (size h)) h None 0 HT) as (h' & E & Hx); [done|done| |].
  + pose proof (height_le_length (Node l a k v r)). pose proof (avl_size kcmp h s _ Hrep). lia.
  + unfold destroyRecursive_g. simpl root_ptr in E. rewrite E. by exists h'.
Qed.

End Iter.
