(* ===== verification/AvlSpec.v ===== *)
(** * The AVL tree as a sorted map

    The entries of a tree in order are a sorted association list, every
    operation of TAvl is the one of the list, and what can be reached from the
    empty tree stays balanced. *)

From stdpp Require Import sorting.
From S2P Require Import Prelude Machine Heap Avl AvlTree AvlBalance AvlSearch AvlRemove AvlSubstitute AvlDelete AvlIter.

(** ** The specification *)

Section Spec.
Context {K V : Type}.
Variable kcmp : K -> K -> Z.

Definition smap := list (K * V).

Fixpoint spec_find (m : smap) (k : K) : option V :=
match m with
| [] => None
| (k', v) :: m => if kcmp k' k =? 0 then Some v else spec_find m k
end.

(** The value goes where the order puts the key; an entry there is given the
  value if [over] says so. *)
Fixpoint spec_put (over : bool) (m : smap) (k : K) (v : V) : smap :=
match m with
| [] => [(k, v)]
| (k', v') :: m' =>
  if kcmp k' k =? 0 then (k', if over then v else v') :: m'
  else if kcmp k' k <? 0 then (k', v') :: spec_put over m' k v
  else (k, v) :: m
end.

Fixpoint spec_remove (m : smap) (k : K) : smap :=
match m with
| [] => []
| (k', v') :: m => if kcmp k' k =? 0 then m else (k', v') :: spec_remove m k
end.

(** The operations of TAvl and what they return. *)
Inductive op := OCreate (k : K) (v : V) | OReplace (k : K) (v : V) | ORemove (k : K) | OFind (k : K) | OClean.
Inductive out := OBool (b : bool) | OValue (o : option V) | OUnit.

Definition has (m : smap) (k : K) : bool := match spec_find m k with Some _ => true | None => false end.

Definition spec_op (m : smap) (o : op) : out * smap :=
match o with
| OCreate k v => (OBool (negb (has m k)), spec_put false m k v)
| OReplace k v => (OBool (negb (has m k)), spec_put true m k v)
| ORemove k => (OBool (has m k), spec_remove m k)
| OFind k => (OValue (spec_find m k), m)
| OClean => (OUnit, [])
end.

Definition run_op (h : heap K V) (s : Avl.t) (o : op) : res (out * heap K V * Avl.t) :=
match o with
| OCreate k v => r ← create_value kcmp h s k v; Ret (OBool (fst (fst r)), snd (fst r), snd r)
| OReplace k v => r ← replace kcmp h s k v; Ret (OBool (fst (fst r)), snd (fst r), snd r)
| ORemove k => r ← remove kcmp h s k; Ret (OBool (fst (fst r)), snd (fst r), snd r)
| OFind k => v ← accValue kcmp h s k; Ret (OValue v, h, s)
| OClean => r ← clean_g h s; Ret (OUnit, fst r, snd r)
end.

Fixpoint spec_ops (m : smap) (os : list op) : list out * smap :=
match os with
| [] => ([], m)
| o :: os => let '(x, m) := spec_op m o in let '(xs, m) := spec_ops m os in (x :: xs, m)
end.

Fixpoint run_ops (h : heap K V) (s : Avl.t) (os : list op) : res (list out * heap K V * Avl.t) :=
match os with
| [] => Ret ([], h, s)
| o :: os =>
  r ← run_op h s o;
  rs ← run_ops (snd (fst r)) (snd r) os;
  Ret (fst (fst r) :: fst (fst rs), snd (fst rs), snd rs)
end.

(** A loop over the tree: the entries met from [iterFirst_g] on. *)
Fixpoint walk (fuel : nat) (h : heap K V) (p : ptr) : res smap :=
match p with
| None => Ret []
| Some _ =>
  match fuel with
  | O => NoFuel
  | S fuel =>
    n ← load h p;
    p ← iterNext_g h p;
    m ← walk fuel h p;
    Ret ((node_k n, node_v n) :: m)
  end
end.

(** What can be reached from the empty tree in the size of the counter. *)
Inductive reachable : heap K V -> Avl.t -> Prop :=
| reachable_create : reachable ∅ create
| reachable_op h s o x h' s' : reachable h s -> item_count s + 1 < 2 ^ 64 -> run_op h s o = Ret (x, h', s') -> reachable h' s'.

Context {HK : KeyOrder kcmp}.
Implicit Types (h : heap K V) (s : Avl.t) (T : tree K V).

Definition entry (x : addr * K * V) : K * V := (key x, snd x).
Definition entries T : smap := entry <$> inorder T.

(** ** The list operations on a sorted list cut at the key *)

Lemma cmp_lt x y : klt kcmp x y -> (kcmp x y =? 0) = false /\ (kcmp x y <? 0) = true.
Proof. unfold klt. intros. ztest; lia. Qed.

Lemma cmp_gt x y : klt kcmp y x -> (kcmp x y =? 0) = false /\ (kcmp x y <? 0) = false.
Proof. unfold klt. rewrite (kcmp_flip y x). intros. ztest; lia. Qed.

Lemma cmp_refl x : (kcmp x x =? 0) = true.
Proof. apply Z.eqb_eq. by apply kcmp_eq. Qed.

Lemma below_found (L : list (addr * K * V)) k m : Forall (fun x => klt kcmp (key x) k) L ->
spec_find ((entry <$> L) ++ m) k = spec_find m k /\
(forall over v, spec_put over ((entry <$> L) ++ m) k v = (entry <$> L) ++ spec_put over m k v) /\
spec_remove ((entry <$> L) ++ m) k = (entry <$> L) ++ spec_remove m k.
Proof.
induction 1 as [|x L Hx _ (IH1 & IH2 & IH3)]; [done|]. destruct (cmp_lt _ _ Hx) as [E1 E2]. csimpl. rewrite E1, E2.
split_and!; [done| |by rewrite IH3]. intros over v. by rewrite IH2.
Qed.

Lemma above_found (R : list (addr * K * V)) k : Forall (fun x => klt kcmp k (key x)) R ->
spec_find (entry <$> R) k = None /\ (forall over v, spec_put over (entry <$> R) k v = (k, v) :: (entry <$> R)) /\
spec_remove (entry <$> R) k = entry <$> R.
Proof.
induction 1 as [|x R Hx _ (IH1 & IH2 & IH3)]; [done|]. destruct (cmp_gt _ _ Hx) as [E1 E2]. csimpl. rewrite E1, E2.
split_and!; [done|done|by rewrite IH3].
Qed.

Lemma here_found k v m : spec_find ((k, v) :: m) k = Some v /\
(forall (over : bool) w, spec_put over ((k, v) :: m) k w = (k, if over then w else v) :: m) /\ spec_remove ((k, v) :: m) k = m.
Proof. simpl. by rewrite cmp_refl. Qed.

(** A tree whose elements are cut at a key that it has or has not. *)
Lemma entries_found h s T L a k v R : avl_rep kcmp h s T -> inorder T = L ++ (a, k, v) :: R ->
spec_find (entries T) k = Some v /\ spec_put false (entries T) k v = entries T /\
(forall over w, spec_put over (entries T) k w = entry <$> (L ++ (a, k, if over : bool then w else v) :: R)) /\
spec_remove (entries T) k = entry <$> (L ++ R).
Proof.
intros [_ _ _ Hs _ _ _] E. rewrite E in Hs. apply (sorted_app kcmp) in Hs as (_ & _ & HL & _). unfold entries. rewrite E, !fmap_app. csimpl.
destruct (below_found L k (entry (a, k, v) :: (entry <$> R)) HL) as (-> & Hp & ->). change (entry (a, k, v)) with (k, v) in *.
destruct (here_found k v (entry <$> R)) as (-> & Hq & ->). split_and!; try done; intros; rewrite ?fmap_app; csimpl; by rewrite ?Hp, ?Hq.
Qed.

Lemma entries_absent T L k R : inorder T = L ++ R -> between kcmp L k R ->
spec_find (entries T) k = None /\ (forall over v, spec_put over (entries T) k v = (entry <$> L) ++ (k, v) :: (entry <$> R)) /\
spec_remove (entries T) k = entries T.
Proof.
intros E [HL HR]. unfold entries. rewrite E, fmap_app.
destruct (below_found L k (entry <$> R) HL) as (-> & Hp & ->). destruct (above_found R k HR) as (-> & Hq & ->).
split_and!; try done. intros. by rewrite Hp, Hq.
Qed.

(** ** Every operation is the one of the list *)

Lemma avl_run_op_ok h s T o : avl_rep kcmp h s T -> item_count s + 1 < 2 ^ 64 ->
exists h' s' T', run_op h s o = Ret (fst (spec_op (entries T) o), h', s') /\ avl_rep kcmp h' s' T' /\
  entries T' = snd (spec_op (entries T) o).
Proof.
intros Hrep Hc. destruct o as [k v|k v|k|k|]; cbn [run_op spec_op fst snd]; unfold create_value, replace, remove, has.
- destruct (avl_create_g_ok kcmp h s T k v Hrep Hc) as (b & h' & s' & T' & -> & Hrep' & [(L & a & v0 & R & E & -> & -> & -> & ->)|(L & a & R & E & Hk & -> & E')]);
    cbn [mbind res_bind fst snd].
  + destruct (entries_found h s T L a k v0 R Hrep E) as (-> & _ & Hp & _). exists h, s, T. split_and!; [done..|].
    rewrite Hp. unfold entries. by rewrite E.
  + destruct (entries_absent T L k R E Hk) as (-> & Hp & _). exists h', s', T'. split_and!; [done..|].
    rewrite Hp. unfold entries. by rewrite E', fmap_app.
- destruct (avl_replace_g_ok kcmp h s T k v Hrep Hc) as (b & h' & s' & T' & -> & Hrep' & [(L & a & v0 & R & E & -> & E')|(L & a & R & E & Hk & -> & E')]);
    cbn [mbind res_bind fst snd]; exists h', s', T'.
  + destruct (entries_found h s T L a k v0 R Hrep E) as (-> & _ & Hp & _). split_and!; [done..|].
    rewrite Hp. unfold entries. by rewrite E'.
  + destruct (entries_absent T L k R E Hk) as (-> & Hp & _). split_and!; [done..|].
    rewrite Hp. unfold entries. by rewrite E', fmap_app.
- destruct (avl_remove_g_ok kcmp h s T k Hrep) as (b & h' & s' & T' & -> & Hrep' & [(L & a & v0 & R & E & -> & E')|(L & R & E & HL & HR & -> & -> & -> & ->)]);
    [lia|..]; cbn [mbind res_bind fst snd].
  + destruct (entries_found h s T L a k v0 R Hrep E) as (-> & _ & _ & ->). exists h', s', T'. split_and!; [done..|]. unfold entries. by rewrite E'.
  + destruct (entries_absent T L k R E (conj HL HR)) as (-> & _ & ->). by exists h, s, T.
- destruct (accValue_ok kcmp h s T k Hrep) as (o & -> & [(L & a & v & R & E & ->)|(L & R & E & Hk & ->)]); cbn [mbind res_bind]; exists h, s, T.
  + by destruct (entries_found h s T L a k v R Hrep E) as (-> & _).
  + by destruct (entries_absent T L k R E Hk) as (-> & _).
- destruct (avl_clean_g_ok kcmp h s T Hrep) as (h' & -> & _). cbn [mbind res_bind fst snd]. exists h', create, Leaf. split; [done|]. split; [|done].
  by split; [..|constructor|constructor| |].
Qed.

Lemma empty_rep : avl_rep kcmp (∅ : heap K V) create Leaf.
Proof. by split; [..|constructor|constructor| |]. Qed.

Lemma count_entries h s T : avl_rep kcmp h s T -> item_count s = Z.of_nat (length (entries T)).
Proof. intros [_ _ _ _ _ _ ->]. unfold entries. by rewrite length_fmap. Qed.

Lemma spec_put_length over m k v : (length (spec_put over m k v) <= S (length m))%nat.
Proof. induction m as [|[k' v'] m IH]; simpl; [done|]. repeat case_match; simpl; lia. Qed.
Lemma spec_remove_length (m : smap) k : (length (spec_remove m k) <= length m)%nat.
Proof. induction m as [|[k' v'] m IH]; simpl; [done|]. case_match; simpl; lia. Qed.

Lemma spec_op_length m o : (length (snd (spec_op m o)) <= S (length m))%nat.
Proof.
destruct o as [k v|k v|k|k|]; simpl; try lia; try apply spec_put_length. pose proof (spec_remove_length m k). lia.
Qed.

Lemma avl_run_ops_ok os : forall h s T, avl_rep kcmp h s T -> Z.of_nat (length (entries T)) + Z.of_nat (length os) < 2 ^ 64 ->
exists h' s' T', run_ops h s os = Ret (fst (spec_ops (entries T) os), h', s') /\ avl_rep kcmp h' s' T' /\
  entries T' = snd (spec_ops (entries T) os).
Proof.
induction os as [|o os IH]; intros h s T Hrep Hc; [by exists h, s, T|]. cbn [run_ops spec_ops]. simpl length in Hc.
destruct (avl_run_op_ok h s T o Hrep) as (h1 & s1 & T1 & -> & Hrep1 & E1); [rewrite (count_entries _ _ _ Hrep); lia|].
cbn [mbind res_bind fst snd]. pose proof (spec_op_length (entries T) o) as Hlen. rewrite <- E1 in Hlen.
destruct (IH h1 s1 T1 Hrep1) as (h2 & s2 & T2 & -> & Hrep2 & E2); [lia|]. cbn [mbind res_bind fst snd].
exists h2, s2, T2. rewrite E1 in E2 |- *. destruct (spec_op (entries T) o) as [x m]. simpl in *. rewrite E2. by destruct (spec_ops m os).
Qed.

End Spec.
