(* ===== verification/AvlProperties.v ===== *)
(** * Properties of the AVL tree

    TAvl refines the sorted association list, its reachable states are
    balanced, a search takes a logarithmic number of steps; and what [run_g]
    and [ncreate_g] do instead of what their callers expect. *)

From stdpp Require Import sorting.
From S2P Require Import Prelude Machine Heap Avl AvlTree AvlBalance AvlSearch AvlRemove AvlSubstitute AvlDelete AvlIter AvlSpec.

Section Properties.
Context {K V : Type}.
Variable kcmp : K -> K -> Z.
Context {HK : KeyOrder kcmp}.
Implicit Types (h : heap K V) (s : Avl.t) (T : tree K V).

(** ** Iteration *)

Lemma walk_ok h s T : avl_rep kcmp h s T -> forall R L fuel, inorder T = L ++ R -> (length R <= fuel)%nat ->
walk fuel h (first_ptr R) = Ret (entry <$> R).
Proof.
intros Hrep. induction R as [|[[a k] v] R IH]; intros L fuel E Hf; [by destruct fuel|]. simpl in Hf. destruct fuel as [|fuel]; [lia|].
destruct (element_path T L a k v R E) as (c & l & r & ET & EL & ER). rewrite ET in Hrep. cbn [walk first_ptr fst].
pose proof Hrep as [HT Hr _ _ _ _ _]. destruct (reps_unplug h s c _ HT Hr) as [(Ha & _) _].
rewrite (load_ok _ _ _ Ha). cbn [mbind res_bind node_k node_v]. rewrite (avl_iterNext_ok kcmp h s c l a k v r Hrep). cbn [mbind res_bind].
rewrite <- ER, (IH (L ++ [(a, k, v)])) by (rewrite <- ?app_assoc; done || lia). done.
Qed.

(** ** Heights *)

(** The square of the number of elements and one bounds the power of the height. *)
Lemma balanced_size T : balanced T -> 2 ^ height T <= (Z.of_nat (length (inorder T)) + 1) ^ 2.
Proof.
induction T as [|l IHl a k v r IHr]; [done|]. simpl balanced. intros (Hh & Hl & Hr). specialize (IHl Hl). specialize (IHr Hr).
simpl height. simpl inorder. rewrite length_app. simpl length. pose proof (height_nonneg l). pose proof (height_nonneg r).
set (x := Z.of_nat (length (inorder l)) + 1) in *. set (y := Z.of_nat (length (inorder r)) + 1) in *.
replace (Z.of_nat _ + 1) with (x + y) by lia. assert (0 < x /\ 0 < y) as [Hx Hy] by lia. clearbody x y.
assert (forall m n x y, 0 <= n -> n <= m <= n + 1 -> 0 < x -> 0 < y -> 2 ^ m <= x ^ 2 -> 2 ^ n <= y ^ 2 -> 2 ^ (1 + m) <= (x + y) ^ 2) as Hgen.
{ clear. intros m n x y Hn Hm Hx Hy H1 H2. rewrite Z.pow_add_r by lia. assert (0 < 2 ^ n) by lia.
  assert (2 ^ m = 2 ^ n \/ 2 ^ m = 2 * 2 ^ n) as Hmn.
  { assert (m = n \/ m = 1 + n) as [->| ->] by lia; [by left|right; by rewrite Z.pow_add_r by lia]. }
  rewrite !Z.pow_2_r in *. set (p := 2 ^ n) in *. clearbody p. assert (p <= x * y) as Hxy by (apply Z.square_le_simpl_nonneg; nia).
  nia. }
destruct (Z.max_spec (height l) (height r)) as [[? ->]|[? ->]].
- rewrite Z.add_comm. rewrite (Z.add_comm x y), (Z.add_comm (height r) 1). apply (Hgen (height r) (height l)); lia.
- apply (Hgen (height l) (height r)); lia.
Qed.

Lemma reachable_rep h s : reachable kcmp h s -> exists T, avl_rep kcmp h s T.
Proof.
induction 1 as [|h s o x h' s' _ [T Hrep] Hc E]; [exists Leaf; apply empty_rep|].
destruct (avl_run_op_ok kcmp h s T o Hrep Hc) as (h1 & s1 & T1 & E1 & Hrep1 & _). rewrite E1 in E. injection E as _ <- <-. by exists T1.
Qed.

(** ** run_g *)

(** Below the root every call ends at the null child of some node. *)
Lemma runOne_below h T : forall fuel p dir, reps h (Some p) dir T -> (Z.to_nat (height T) < fuel)%nat ->
runOne_g fuel h (root_ptr T) = Crash NullDeref.
Proof.
induction T as [|l IHl a k v r IHr]; intros fuel p dir HT Hf; (destruct fuel as [|fuel]; [lia|]); [done|]. simpl in Hf.
pose proof (height_nonneg l). pose proof (height_nonneg r). destruct HT as (Ha & Hl & Hr).
cbn [runOne_g root_ptr]. rewrite (load_ok _ _ _ Ha). cbn [mbind res_bind lchild rchild parent].
destruct (root_ptr l) eqn:El; [rewrite (IHl fuel _ _ Hl) by lia; done|]. cbn [mbind res_bind]. by rewrite (IHr fuel _ _ Hr) by lia.
Qed.

(** What a program that only uses TAvl can observe. *)
Definition observe (os : list (op (K:=K) (V:=V))) : res (list (out (V:=V)) * smap (K:=K) (V:=V) * Z) :=
r ← run_ops kcmp ∅ create os;
m ← walk (S (length os)) (snd (fst r)) (iterFirst_g (snd r));
Ret (fst (fst r), m, count (snd r)).

Lemma spec_ops_length os : forall m, (length (snd (spec_ops (K:=K) (V:=V) kcmp m os)) <= length m + length os)%nat.
Proof.
induction os as [|o os IH]; intros m; [simpl; lia|]. simpl. pose proof (spec_op_length kcmp m o) as H.
destruct (spec_op kcmp m o) as [x m1]. pose proof (IH m1). destruct (spec_ops kcmp m1 os). simpl in *. lia.
Qed.

(** ** The properties *)

(** C1. Whatever calls of [create], [replace], [remove], [find] and [clean] a
  program makes of an empty TAvl, none of them fails, each returns what the
  same call of a sorted association list returns, and afterwards the loop
  over the tree meets the entries of that list in order and [count] is their
  number. *)
Theorem avl_refines_sorted_map os : Z.of_nat (length os) < 2 ^ 64 ->
observe os = Ret (fst (spec_ops kcmp [] os), snd (spec_ops kcmp [] os), Z.of_nat (length (snd (spec_ops kcmp [] os)))).
Proof.
intros Hlen. unfold observe.
destruct (avl_run_ops_ok kcmp os ∅ create Leaf (empty_rep kcmp) ltac:(simpl; lia)) as (h & s & T & -> & Hrep & E).
cbn [mbind res_bind fst snd]. change (entries Leaf) with (@nil (K * V)) in *.
pose proof (spec_ops_length os []) as Hl. rewrite <- E in Hl |- *. unfold iterFirst_g. rewrite (avl_lowest _ _ _ _ Hrep).
rewrite (walk_ok h s T Hrep (inorder T) []); [|done|unfold entries in Hl; rewrite length_fmap in Hl; simpl in Hl; lia].
cbn [mbind res_bind]. unfold count. by rewrite (count_entries kcmp _ _ _ Hrep).
Qed.

(** C13. In every state that is reached from the empty tree the nodes are a
  binary search tree with correct parent pointers, balances and directions,
  the two subtrees of every node differ by at most one in height, the lowest
  node and the count are right, and the height is at most twice the
  logarithm of the number of elements and one. *)
Theorem reachable_balanced h s : reachable kcmp h s ->
exists T, reps h None 0 T /\ root s = root_ptr T /\ balanced T /\ sorted kcmp (inorder T) /\
  lowest s = first_ptr (inorder T) /\ count s = Z.of_nat (length (inorder T)) /\ 2 ^ height T <= (count s + 1) ^ 2.
Proof.
intros H. destruct (reachable_rep h s H) as [T [HT Hr Hb Hs Hd Hl Hn]]. exists T. split_and!; try done.
unfold count. rewrite Hn. by apply balanced_size.
Qed.

(** C23. A search ends after at most twice the logarithm of the number of
  elements and one steps down, on whatever state the tree has reached. *)
Theorem search_logarithmic h s k fuel : reachable kcmp h s -> (count s + 1) ^ 2 < 2 ^ (Z.of_nat fuel + 1) ->
exists p, find_loop kcmp fuel h (root s) k = Ret p /\ find_g kcmp h s k = Ret p.
Proof.
intros H Hf. destruct (reachable_rep h s H) as [T Hrep]. pose proof Hrep as [HT Hr Hb Hs Hd Hl Hn].
assert (height T < Z.of_nat fuel + 1) as Hh.
{ apply (Z.pow_lt_mono_r_iff 2); [lia|lia|]. pose proof (balanced_size T Hb). unfold count in Hf. rewrite Hn in Hf. lia. }
pose proof (height_le_length T) as H1. pose proof (avl_size kcmp h s T Hrep) as H2.
assert (fits kcmp k (@nil (frame K V))) as Hk by (by split).
assert (forall f1 f2 T par dir, reps h par dir T -> (Z.to_nat (height T) <= f1)%nat -> (Z.to_nat (height T) <= f2)%nat ->
  find_loop kcmp f1 h (root_ptr T) k = find_loop kcmp f2 h (root_ptr T) k) as Heq.
{ clear. intros f1 f2 T. revert f1 f2. induction T as [|l IHl a kn v r IHr]; intros f1 f2 par dir HT H1 H2; [by destruct f1, f2|].
  simpl in H1, H2. pose proof (height_nonneg l). pose proof (height_nonneg r).
  destruct f1 as [|f1], f2 as [|f2]; try lia. destruct HT as (Ha & Hl & Hr). cbn [find_loop root_ptr]. rewrite (load_ok _ _ _ Ha).
  cbn [mbind res_bind]. unfold get_ref, node_cmp. cbn [lchild rchild node_k]. repeat case_match; try done; cbn [mbind res_bind].
  all: first [lia | by eapply IHl; [eassumption|lia..] | by eapply IHr; [eassumption|lia..]]. }
destruct (find_loop_ok kcmp h k T [] (size h) None 0 HT Hs Hk) as (c & E); [lia|]. unfold find_g. rewrite Hr in *.
rewrite (Heq fuel (size h) T None 0 HT) by lia. destruct E as [(l & a & v & r & E & _)|(E & _)]; rewrite E; by eexists.
Qed.

(** [run_g] is not a traversal: of a tree whose root has no left child it
  gives the root to the callback and nothing else (the right subtree is
  skipped), and with any other non-empty tree it dereferences a null child,
  because [runOne_g] tests the parent pointer where it means the right
  child. *)
Theorem run_g_visits h s : reachable kcmp h s ->
exists T, root s = root_ptr T /\ run_g h s =
  match T with
  | Leaf => Ret []
  | Node Leaf a _ _ _ => Ret [Some a]
  | Node _ _ _ _ _ => Crash NullDeref
  end.
Proof.
intros H. destruct (reachable_rep h s H) as [T Hrep]. pose proof Hrep as [HT Hr _ _ _ _ _]. exists T. split; [done|].
unfold run_g. rewrite Hr. destruct T as [|l a k v r]; [done|]. destruct HT as (Ha & Hl & _).
pose proof (height_le_length (Node l a k v r)) as H1. pose proof (avl_size kcmp h s _ Hrep) as H2.
cbn [root_ptr runOne_g]. rewrite (load_ok _ _ _ Ha). cbn [mbind res_bind lchild parent].
destruct l as [|l1 b kb vb l2] eqn:El; [done|]. rewrite <- El in *. assert (root_ptr l = Some b) as Er by (by rewrite El).
rewrite (runOne_below h l (size h) a (-1) Hl), Er; [done|]. simpl in H1, H2. rewrite length_app in H2. simpl in H2.
pose proof (height_le_length l). lia.
Qed.

End Properties.

(** ** Instances *)

(** Integers compared by their difference. *)
Definition zcmp (x y : Z) : Z := x - y.

#[export] Instance zcmp_order : KeyOrder zcmp.
Proof. unfold zcmp. split; lia. Qed.

Definition some_ops : list (op (K:=Z) (V:=Z)) :=
  [OCreate 20 1; OCreate 10 2; OCreate 40 3; OCreate 30 4; OCreate 50 5; OCreate 35 6; OReplace 10 7; OCreate 20 8;
   ORemove 20; ORemove 99; OFind 35; OFind 20].

Lemma avl_refines_sorted_map_witness :
  observe zcmp some_ops = Ret ([OBool true; OBool true; OBool true; OBool true; OBool true; OBool true; OBool false; OBool false;
    OBool true; OBool false; OValue (Some 6); OValue None], [(10, 7); (30, 4); (35, 6); (40, 3); (50, 5)], 5).
Proof. exact (avl_refines_sorted_map zcmp some_ops ltac:(reflexivity)). Defined.

(** The tree with the key 20. *)
Definition one_heap : heap Z Z := {[ 1%positive := mk_node None None None 0 0 20 1 ]}.
Definition one_tree : Avl.t := mk (Some 1%positive) (Some 1%positive) 1.

Lemma one_reachable : reachable zcmp one_heap one_tree.
Proof. eapply (reachable_op zcmp ∅ create (OCreate 20 1)); [constructor|done|vm_compute; reflexivity]. Qed.

Lemma reachable_balanced_witness : exists T : tree Z Z, reps one_heap None 0 T /\ root one_tree = root_ptr T /\ balanced T /\ sorted zcmp (inorder T) /\
  lowest one_tree = first_ptr (inorder T) /\ count one_tree = Z.of_nat (length (inorder T)) /\ 2 ^ height T <= (count one_tree + 1) ^ 2.
Proof. exact (reachable_balanced zcmp one_heap one_tree one_reachable). Defined.

Lemma search_logarithmic_witness : exists p, find_loop zcmp 2 one_heap (root one_tree) 5 = Ret p /\ find_g zcmp one_heap one_tree 5 = Ret p.
Proof. exact (search_logarithmic zcmp one_heap one_tree 5 2 one_reachable ltac:(reflexivity)). Defined.

Lemma run_g_visits_witness : exists T : tree Z Z, root one_tree = root_ptr T /\ run_g one_heap one_tree =
  match T with Leaf => Ret [] | Node Leaf a _ _ _ => Ret [Some a] | Node _ _ _ _ _ => Crash NullDeref end.
Proof. exact (run_g_visits zcmp one_heap one_tree one_reachable). Defined.

(** What [accCreating] returns for [k] after the keys were created. *)
Definition created (ks : list Z) (k : Z) : res (option Z) :=
  r ← run_ops zcmp ∅ create ((fun k => OCreate k k) <$> ks);
  a ← accCreating zcmp 0 (snd (fst r)) (snd r) k;
  match fst (fst a) with
  | Some _ => n ← load (snd (fst a)) (fst (fst a)); Ret (Some (node_k n))
  | None => Ret None
  end.

(** [accCreating] of a new key reads the new node back from the place it
    was linked into, after the rebalancing: the rotations of an insertion leave
    a null pointer or the node of another key there. *)
Theorem accCreating_wrong_node :
  created [10; 20] 30 = Ret (Some 30) /\ created [10; 20] 15 = Ret None /\ created [20; 10; 40; 30; 50] 35 = Ret (Some 40).
Proof. split_and!; vm_compute; reflexivity. Qed.
