(* ===== verification/BString.v ===== *)
(** * core/types: String_c

    The reference-counted strings of [String_c.t.hxx], for the characters of
    [BString] (bytes), on a heap of shared data blocks. A string object is the
    pointer [d] to its block; a member function takes the heap and [d] and gives
    the new heap and the new [d]. Addresses [s_null] and [s_zero] are the static
    blocks [StrData_c::null] and [StrData_c::zero]. *)

From Stdlib Require Import String Ascii.
From S2P Require Import Prelude Machine CString Heap.

(** [StrData_c]: [buf] is the memory from [str()] to the end of the block. *)
Record data := mk_data {
  refcnt : Z;
  size : Z;
  al : Z;
  hash : Z;
  buf : list Z;
}.

#[local] Abbreviation heap := (gmap addr data).

Definition s_null : addr := 1%positive.
Definition s_zero : addr := 2%positive.

(** The static blocks, before any string exists. *)
Definition statics : heap := {[ s_null := mk_data 1 0 (-1) (-1) (repeat 0 8); s_zero := mk_data 1 0 0 (-1) (repeat 0 8) ]}.

Section BString.

(** The byte that memory never set happens to hold. *)
Variable garbage : Z.

(** ** StrData_c *)

Definition with_refcnt (n : data) (x : Z) : data := mk_data x (size n) (al n) (hash n) (buf n).
Definition with_size (n : data) (x : Z) : data := mk_data (refcnt n) x (al n) (hash n) (buf n).
Definition with_hash (n : data) (x : Z) : data := mk_data (refcnt n) (size n) (al n) x (buf n).
Definition with_buf (n : data) (b : list Z) : data := mk_data (refcnt n) (size n) (al n) (hash n) b.

(** [changed()]: the subtype of a BString has nothing to reset. *)
Definition changed (h : heap) (p : ptr) : res heap := update h p (fun n => with_hash n (-1)).

Definition hash_loop (l : list Z) : Z := fold_left (fun h c => Z.lxor (u64 (h * 19)) c) l 0.
Definition hash_value (l : list Z) : Z :=
let h := hash_loop l in Z.land (Z.lxor (Z.lxor h (Z.shiftr h 10)) (Z.shiftr h 20)) (2 ^ 63 - 1).

Definition updateHash (h : heap) (p : ptr) : res (Z * heap) :=
n ← load h p;
l ← mem_range (buf n) 0 (size n);
let v := hash_value l in
h ← update h p (fun n => with_hash n v);
Ret (v, h).

(** A store of bytes at [str()+off]. *)
Definition str_store (h : heap) (p : ptr) (off : Z) (l : list Z) : res heap :=
n ← load h p; b ← mem_store (buf n) off l; update h p (fun n => with_buf n b).

(** Bytes at [str()+off]. *)
Definition str_range (h : heap) (p : ptr) (off len : Z) : res (list Z) :=
n ← load h p; mem_range (buf n) off len.

Definition roundsize (size : Z) : Z := Z.land (size + 7) (Z.lnot 7).

(** On a little-endian machine with a long of eight bytes. *)
Definition padzeroes (h : heap) (p : ptr) : res heap :=
n ← load h p;
let npad := Z.land (size n) 7 in
if npad =? 0 then str_store h p (size n) (repeat 0 8)
else
  _ ← str_range h p (size n - npad) 8;
  str_store h p (size n) (repeat 0 (Z.to_nat (8 - npad))).

(** ** Allocation and references *)

(** [compsize(size)] bytes, all of them garbage except the last long. *)
Definition allocDg (h : heap) (size : Z) : res (ptr * heap) :=
if size =? 0 then Crash AssertFailed
else
  let block := mk_data 0 garbage (s64 size) (-1) (repeat garbage (Z.to_nat ((size - 1) / 8 * 8)) ++ repeat 0 8) in
  let '(a, h) := alloc h block in Ret (Some a, h).

(** [freeDg] and [freeD]. *)
Definition freeDg (h : heap) (p : ptr) : res heap :=
n ← load h p; if al n <=? 0 then Crash AssertFailed else free h p.

(** [Atomic::inc], and [Atomic::decr] with its result. *)
Definition inc (h : heap) (p : ptr) : res heap := update h p (fun n => with_refcnt n (s64 (refcnt n + 1))).
Definition decr (h : heap) (p : ptr) : res (bool * heap) :=
n ← load h p;
let r := s64 (refcnt n - 1) in
h ← update h p (fun n => with_refcnt n r);
Ret (0 <=? r, h).

Definition refDg (h : heap) (p : ptr) : res (ptr * heap) := h ← inc h p; Ret (p, h).

(** [unrefDg], and the destructor. *)
Definition unrefDg (h : heap) (p : ptr) : res heap :=
r ← decr h p; let '(alive, h) := r in if negb alive then freeDg h p else Ret h.

Definition i_setDoref (h : heap) (d s : ptr) : res (heap * ptr) :=
h ← inc h s; h ← unrefDg h d; Ret (h, s).
Definition i_setNoref (h : heap) (d s : ptr) : res (heap * ptr) :=
h ← unrefDg h d; Ret (h, s).

(** [newcsize] is enlarged after the allocation only. *)
Definition reallocSelfDo (h : heap) (d : ptr) (newcsize : Z) : res (heap * ptr) :=
ch ← allocDg h (u64 (newcsize + 1));
let '(cr, h) := ch in
n ← load h d;
l ← mem_range (buf n) 0 (size n);
h ← str_store h cr 0 l;
h ← update h cr (fun c => with_size c (size n));
i_setNoref h d cr.

Definition reallocSelf (h : heap) (d : ptr) (newcsize : Z) : res (heap * ptr) :=
n ← load h d;
if negb (refcnt n =? 0) || (u64 (al n) <=? newcsize) then reallocSelfDo h d newcsize else Ret (h, d).

(** The [size] bytes at the source are [l]. *)
Definition createDgLen (h : heap) (l : list Z) : res (ptr * heap) :=
let size := Z.of_nat (length l) in
if size =? 0 then refDg h (Some s_zero)
else
  ah ← allocDg h (u64 (size + 1));
  let '(sh, h) := ah in
  h ← update h sh (fun n => with_size n size);
  h ← str_store h sh 0 l;
  Ret (sh, h).

(** [createDgLen(d->str()+off, len)]. *)
Definition createDgPart (h : heap) (d : ptr) (off len : Z) : res (ptr * heap) :=
if len =? 0 then createDgLen h []
else l ← str_range h d off len; createDgLen h l.

(** ** Construction and assignment *)

Definition initS (h : heap) (s : ptr) : res (heap * ptr) := h ← inc h s; Ret (h, s).
Definition initLen (h : heap) (l : list Z) : res (heap * ptr) := dh ← createDgLen h l; Ret (snd dh, fst dh).

(** [strlen]: the bytes before the first zero. *)
Fixpoint zlen (s : list Z) : res Z :=
match s with
| [] => Crash OutOfBounds
| c :: s => if c =? 0 then Ret 0 else n ← zlen s; Ret (n + 1)
end.
Definition initZ (h : heap) (s : list Z) : res (heap * ptr) := n ← zlen s; l ← mem_range s 0 n; initLen h l.

Definition setNull (h : heap) (d : ptr) : res (heap * ptr) := i_setDoref h d (Some s_null).
Definition setEmpty (h : heap) (d : ptr) : res (heap * ptr) := i_setDoref h d (Some s_zero).
Definition invalidSet (h : heap) (d : ptr) : res (heap * ptr) :=
match d with Some _ => h ← unrefDg h d; Ret (h, None) | None => Ret (h, d) end.
Definition invalidUnset (h : heap) (d : ptr) : res (heap * ptr) :=
match d with None => dh ← refDg h (Some s_zero); Ret (snd dh, fst dh) | Some _ => Ret (h, d) end.

Definition assign (h : heap) (d s : ptr) : res (heap * ptr) := i_setDoref h d s.
Definition copyS (h : heap) (d s : ptr) : res (heap * ptr) := i_setDoref h d s.
Definition copyLen (h : heap) (d : ptr) (l : list Z) : res (heap * ptr) :=
sh ← createDgLen h l; i_setNoref (snd sh) d (fst sh).
Definition copyZ (h : heap) (d : ptr) (s : list Z) : res (heap * ptr) := n ← zlen s; l ← mem_range s 0 n; copyLen h d l.

(** ** Comparison *)

Definition getCont (h : heap) (d : ptr) : res Z := n ← load h d; Ret (if 0 <? al n then 1 else al n).
Definition isNull (h : heap) (d : ptr) : res bool := c ← getCont h d; Ret (c <? 0).
Definition isEmpty (h : heap) (d : ptr) : res bool := c ← getCont h d; Ret (c =? 0).
Definition isNullEmpty (h : heap) (d : ptr) : res bool := c ← getCont h d; Ret (c <=? 0).
Definition getSize (h : heap) (d : ptr) : res Z := n ← load h d; Ret (size n).

(** [memcmp] by its sign. *)
Fixpoint pbcmp (l1 l2 : list Z) : Z :=
match l1, l2 with
| c1 :: l1, c2 :: l2 => if c1 =? c2 then pbcmp l1 l2 else if c1 <? c2 then -1 else 1
| _, _ => 0
end.

Definition getHash (h : heap) (d : ptr) : res (Z * heap) :=
n ← load h d; if 0 <=? hash n then Ret (hash n, h) else updateHash h d.

Definition beq (h : heap) (fd sd : ptr) : res (bool * heap) :=
r ← getHash h fd;
let '(_, h) := r in
r ← getHash h sd;
let '(_, h) := r in
f ← load h fd;
s ← load h sd;
if negb (hash f =? hash s) then Ret (false, h)
else if bool_decide (fd = sd) then Ret (true, h)
else if negb (size f =? size s) then Ret (false, h)
else
  lf ← mem_range (buf f) 0 (size f);
  ls ← mem_range (buf s) 0 (size f);
  Ret (pbcmp lf ls =? 0, h).

Definition beqZ (h : heap) (fd : ptr) (s : list Z) : res bool :=
f ← load h fd;
n ← zlen s;
if negb (size f =? n) then Ret false
else
  lf ← mem_range (buf f) 0 (size f);
  ls ← mem_range s 0 (size f);
  Ret (pbcmp lf ls =? 0).

Definition bcmp (h : heap) (fd sd : ptr) : res Z :=
f ← load h fd;
s ← load h sd;
if al f <? 0 then Ret (if al s <? 0 then 0 else -1 - Z.b2z (negb (al s =? 0)))
else if al s <? 0 then Ret (1 + Z.b2z (negb (al f =? 0)))
else if bool_decide (fd = sd) then Ret 0
else
  let n := if size f <? size s then size f else size s in
  lf ← mem_range (buf f) 0 n;
  ls ← mem_range (buf s) 0 n;
  let r := pbcmp lf ls in
  Ret (if r =? 0 then (if negb (size f =? size s) then (if size f <? size s then -2 else 2) else 0)
       else 4 * Z.b2z (0 <? r) - 2).

(** ** Direct access *)

(** A block of its own for [size] bytes; [nsize] is the size it gets. *)
Definition own_block (h : heap) (d : ptr) (newsize nsize : Z) : res (heap * ptr) :=
ah ← allocDg h (u64 (newsize + 1));
let '(a, h) := ah in
h ← update h a (fun n => with_size n nsize);
n ← load h d;
l ← mem_range (buf n) 0 (roundsize (size n + 1));
h ← str_store h a 0 l;
i_setNoref h d a.

Definition lock (h : heap) (d : ptr) (newsize : Z) : res (heap * ptr) :=
n ← load h d;
if (0 <? refcnt n) || (al n <=? s64 newsize) then own_block h d newsize newsize
else if negb (size n =? newsize) then
  h ← padzeroes h d; h ← update h d (fun n => with_size n newsize); Ret (h, d)
else Ret (h, d).

Definition lockKeep (h : heap) (d : ptr) (newsize : Z) : res (heap * ptr) :=
n ← load h d;
if (0 <? refcnt n) || (al n <=? s64 newsize) then own_block h d newsize (size n) else Ret (h, d).

Definition unlock_keep (h : heap) (d : ptr) : res (heap * ptr) :=
n ← load h d; if refcnt n =? 0 then Ret (h, d) else Crash AssertFailed.

(** The end of [unlock] and [unlockZ]. *)
Definition set_size (h : heap) (d : ptr) (newsize : Z) : res (heap * ptr) :=
h ← update h d (fun n => with_size n newsize);
if newsize =? 0 then i_setDoref h d (Some s_zero)
else h ← padzeroes h d; h ← changed h d; Ret (h, d).

Definition unlock (h : heap) (d : ptr) (newsize : Z) : res (heap * ptr) :=
n ← load h d;
if negb (refcnt n =? 0) then Crash AssertFailed
else if al n <=? s64 newsize then Crash AssertFailed
else if size n =? newsize then Ret (h, d)
else set_size h d newsize.

Definition unlockAppend (h : heap) (d : ptr) (addsize : Z) : res (heap * ptr) :=
n ← load h d;
if negb (refcnt n =? 0) then Crash AssertFailed
else if al n <=? s64 (size n + addsize) then Crash AssertFailed
else if addsize =? 0 then Ret (h, d)
else
  h ← update h d (fun n => with_size n (u64 (size n + addsize)));
  h ← padzeroes h d; h ← changed h d; Ret (h, d).

Definition unlockZ (h : heap) (d : ptr) : res (heap * ptr) :=
n ← load h d;
if negb (refcnt n =? 0) then Crash AssertFailed
else
  newsize ← zlen (buf n);
  if newsize =? size n then Ret (h, d) else set_size h d newsize.

(** ** Appending *)

(** [operator+]: a reference or a new block. *)
Definition concat (h : heap) (fd sd : ptr) : res (heap * ptr) :=
f ← load h fd;
s ← load h sd;
if size f =? 0 then dh ← refDg h sd; Ret (snd dh, fst dh)
else if size s =? 0 then dh ← refDg h fd; Ret (snd dh, fst dh)
else
  ah ← allocDg h (u64 (size f + size s + 1));
  let '(out, h) := ah in
  lf ← mem_range (buf f) 0 (size f);
  h ← str_store h out 0 lf;
  ls ← mem_range (buf s) 0 (size s);
  h ← str_store h out (size f) ls;
  h ← update h out (fun n => with_size n (u64 (size f + size s)));
  h ← str_store h out (u64 (size f + size s)) [0];
  Ret (h, out).

(** The bytes go behind the old ones, then the zero. *)
Definition append_here (h : heap) (d : ptr) (l : list Z) : res (heap * ptr) :=
n ← load h d;
h ← str_store h d (size n) l;
h ← update h d (fun n => with_size n (u64 (size n + Z.of_nat (length l))));
h ← str_store h d (u64 (size n + Z.of_nat (length l))) [0];
Ret (h, d).

Definition append (h : heap) (d s : ptr) : res (heap * ptr) :=
sd ← load h s;
if size sd =? 0 then Ret (h, d)
else
  n ← load h d;
  if size n =? 0 then i_setDoref h d s
  else
    hd ← reallocSelf h d (u64 (size n + size sd));
    let '(h, d) := hd in
    l ← str_range h s 0 (size sd);
    append_here h d l.

Definition appendLen (h : heap) (d : ptr) (s : list Z) : res (heap * ptr) :=
if Z.of_nat (length s) =? 0 then Ret (h, d)
else
  n ← load h d;
  hd ← reallocSelf h d (u64 (size n + Z.of_nat (length s)));
  let '(h, d) := hd in append_here h d s.

Definition appendZ (h : heap) (d : ptr) (s : list Z) : res (heap * ptr) := n ← zlen s; l ← mem_range s 0 n; appendLen h d l.
Definition appendChar (h : heap) (d : ptr) (c : Z) : res (heap * ptr) := appendLen h d [c].
Definition appendAscii (h : heap) (d : ptr) (s : list Z) : res (heap * ptr) := appendLen h d s.

Definition appendReverse (h : heap) (d : ptr) (s : list Z) : res (heap * ptr) :=
if Z.of_nat (length s) =? 0 then Ret (h, d)
else
  n ← load h d;
  ah ← allocDg h (u64 (size n + Z.of_nat (length s) + 1));
  let '(out, h) := ah in
  l ← mem_range (buf n) 0 (size n);
  h ← str_store h out 0 l;
  h ← update h out (fun c => with_size c (u64 (size n + Z.of_nat (length s))));
  h ← str_store h out (size n) (rev s);
  h ← str_store h out (u64 (size n + Z.of_nat (length s))) [0];
  i_setNoref h d out.

(** ** Numbers *)

Definition digits : list Z := chars "0123456789abcdefghijklmnopqrstuvwxyz"%string.

(** [buf[len++] = digits[number%base]] until nothing is left; the buffer has
  [cap] characters. *)
Fixpoint digit_loop (fuel : nat) (cap number base : Z) (buf : list Z) : res (list Z) :=
match fuel with
| O => NoFuel
| S fuel =>
  if base =? 0 then Crash DivByZero
  else
    c ← byte_at digits (number mod base);
    if cap <=? Z.of_nat (length buf) then Crash OutOfBounds
    else
      let buf := buf ++ [c] in
      let number := number / base in
      if number =? 0 then Ret buf else digit_loop fuel cap number base buf
end.

(** [TC buf[33]] and [TC buf[65]]. *)
Definition append_number (h : heap) (d : ptr) (w : Z) (neg : bool) (number base : Z) : res (heap * ptr) :=
b ← digit_loop (Z.to_nat w + 2) (w + 1) number base [];
if neg then
  if w + 1 <=? Z.of_nat (length b) then Crash OutOfBounds else appendReverse h d (b ++ [45])
else appendReverse h d b.

(** The overflowing negation wraps around. The base is converted to unsigned. *)
Definition appendNumberS32 (h : heap) (d : ptr) (number base : Z) : res (heap * ptr) :=
append_number h d 32 (number <? 0) (u32 (if number <? 0 then s32 (- number) else number)) (u32 base).
Definition appendNumberU32 (h : heap) (d : ptr) (number base : Z) : res (heap * ptr) :=
append_number h d 32 false number (u32 base).
Definition appendNumberS64 (h : heap) (d : ptr) (number base : Z) : res (heap * ptr) :=
append_number h d 64 (number <? 0) (u64 (if number <? 0 then s64 (- number) else number)) (u64 base).
Definition appendNumberU64 (h : heap) (d : ptr) (number base : Z) : res (heap * ptr) :=
append_number h d 64 false number (u64 base).

Definition createNumberS64 (h : heap) (value base : Z) : res (heap * ptr) :=
r ← initS h (Some s_zero); appendNumberS64 (fst r) (snd r) value base.
Definition createNumberU64 (h : heap) (value base : Z) : res (heap * ptr) :=
r ← initS h (Some s_zero); appendNumberU64 (fst r) (snd r) value base.

(** ** Parts *)

Definition new_string (dh : res (ptr * heap)) : res (heap * ptr) := dh ← dh; Ret (snd dh, fst dh).

Definition left (h : heap) (d : ptr) (length : Z) : res (heap * ptr) :=
n ← load h d;
if size n <? length then new_string (refDg h d) else new_string (createDgPart h d 0 length).

Definition mid_from (h : heap) (d : ptr) (pos : Z) : res (heap * ptr) :=
n ← load h d;
if size n <=? pos then new_string (refDg h (Some s_zero)) else new_string (createDgPart h d pos (size n - pos)).

Definition mid (h : heap) (d : ptr) (pos length : Z) : res (heap * ptr) :=
n ← load h d;
if size n <=? pos then new_string (refDg h (Some s_zero))
else new_string (createDgPart h d pos (if size n - pos <? length then size n - pos else length)).

Definition right (h : heap) (d : ptr) (len : Z) : res (heap * ptr) :=
n ← load h d;
if size n <=? len then new_string (refDg h d) else new_string (createDgPart h d (size n - len) len).

Definition cleanGet (h : heap) (d : ptr) : res (heap * ptr * ptr) :=
dh ← refDg h (Some s_zero); Ret (snd dh, fst dh, d).

Definition set_part (h : heap) (d : ptr) (off len : Z) : res (heap * ptr) :=
sh ← createDgPart h d off len; i_setNoref (snd sh) d (fst sh).

Definition removeLeft (h : heap) (d : ptr) (len : Z) : res (heap * ptr) :=
if len =? 0 then Ret (h, d)
else
  n ← load h d;
  let len := if size n <? len then size n else len in
  set_part h d len (size n - len).

Definition removeMid_from (h : heap) (d : ptr) (pos : Z) : res (heap * ptr) :=
n ← load h d; set_part h d 0 (if size n <=? pos then size n else pos).

Definition removeMid (h : heap) (d : ptr) (pos len : Z) : res (heap * ptr) :=
n ← load h d;
let pos := if size n <=? pos then size n else pos in
let len := if size n - pos <? len then size n - pos else len in
ah ← allocDg h (u64 (size n - len + 1));
let '(out, h) := ah in
l1 ← mem_range (buf n) 0 pos;
h ← str_store h out 0 l1;
l2 ← mem_range (buf n) (pos + len) (size n - (pos + len));
h ← str_store h out pos l2;
h ← update h out (fun c => with_size c (size n - len));
h ← padzeroes h out;
i_setNoref h d out.

Definition removeRight (h : heap) (d : ptr) (len : Z) : res (heap * ptr) :=
n ← load h d; set_part h d 0 (if size n <=? len then 0 else size n - len).

(** The removed part as a new string, and the rest. *)
Definition get_and (part : res (heap * ptr)) (rest : heap -> res (heap * ptr)) : res (heap * ptr * ptr) :=
r ← part; hd ← rest (fst r); Ret (fst hd, snd hd, snd r).

Definition removeLeftGet (h : heap) (d : ptr) (len : Z) := get_and (left h d len) (fun h => removeLeft h d len).
Definition removeMidGet_from (h : heap) (d : ptr) (pos : Z) := get_and (mid_from h d pos) (fun h => removeMid_from h d pos).
Definition removeMidGet (h : heap) (d : ptr) (pos len : Z) := get_and (mid h d pos len) (fun h => removeMid h d pos len).
Definition removeRightGet (h : heap) (d : ptr) (len : Z) := get_and (right h d len) (fun h => removeRight h d len).

(** ** Searching *)

(** [for (; pos < size && isspace(str[pos]); pos++)]. *)
Fixpoint skip_spaces (fuel : nat) (n : data) (pos : Z) : res Z :=
match fuel with
| O => NoFuel
| S fuel =>
  if pos <? size n then
    c ← byte_at (buf n) pos; if isspace c then skip_spaces fuel n (pos + 1) else Ret pos
  else Ret pos
end.

(** [for (end = size; isspace(str[end-1]); end--)]. *)
Fixpoint trim_end (fuel : nat) (n : data) (pos : Z) : res Z :=
match fuel with
| O => NoFuel
| S fuel => c ← byte_at (buf n) (pos - 1); if isspace c then trim_end fuel n (pos - 1) else Ret pos
end.

Definition trimSpaces (h : heap) (d : ptr) : res (heap * ptr) :=
n ← load h d;
start_pos ← skip_spaces (S (Z.to_nat (size n))) n 0;
end_pos ← (if start_pos =? size n then Ret start_pos else trim_end (S (Z.to_nat (size n))) n (size n));
r ← mid h d start_pos (end_pos - start_pos);
hd ← assign (fst r) d (snd r);
h ← unrefDg (fst hd) (snd r);
Ret (h, snd hd).

Definition skipSpaces (h : heap) (d : ptr) (start_pos : Z) : res Z :=
n ← load h d; skip_spaces (S (Z.to_nat (size n))) n start_pos.

(** From a start behind the end the search runs out of the block. *)
Fixpoint find_char (fuel : nat) (n : data) (chr pos : Z) : res Z :=
match fuel with
| O => NoFuel
| S fuel =>
  if pos =? size n then Ret (-1)
  else c ← byte_at (buf n) pos; if c =? chr then Ret pos else find_char fuel n chr (pos + 1)
end.

Definition findChar (h : heap) (d : ptr) (chr start_pos : Z) : res Z :=
n ← load h d; find_char (S (length (buf n))) n chr start_pos.

(** [for (; (ssize_t)--pos >= 0;)]. *)
Fixpoint rfind_char (n : data) (chr : Z) (pos : nat) : res Z :=
match pos with
| O => Ret (-1)
| S pos => c ← byte_at (buf n) (Z.of_nat pos); if c =? chr then Ret (Z.of_nat pos) else rfind_char n chr pos
end.

Definition rfindChar (h : heap) (d : ptr) (chr before_pos : Z) : res Z :=
n ← load h d; rfind_char n chr (Z.to_nat (if size n <? before_pos then size n else before_pos)).

(** [Subtype::peq(d->str()+pos, search->str(), ss)]. *)
Definition peq_at (n s : data) (pos : Z) : res bool :=
l1 ← mem_range (buf n) pos (size s); l2 ← mem_range (buf s) 0 (size s); Ret (pbcmp l1 l2 =? 0).

Fixpoint find_loop (fuel : nat) (n s : data) (pos : Z) : res Z :=
match fuel with
| O => NoFuel
| S fuel =>
  if size n <? u64 (pos + size s) then Ret (-1)
  else e ← peq_at n s pos; if e : bool then Ret pos else find_loop fuel n s (pos + 1)
end.

Definition find (h : heap) (d search : ptr) (start_pos : Z) : res Z :=
n ← load h d; s ← load h search; find_loop (S (S (Z.to_nat (size n)))) n s start_pos.

Fixpoint rfind_loop (n s : data) (pos : nat) : res Z :=
match pos with
| O => Ret (-1)
| S pos => e ← peq_at n s (Z.of_nat pos); if e : bool then Ret (Z.of_nat pos) else rfind_loop n s pos
end.

(** [size-ss] is unsigned. *)
Definition rfind (h : heap) (d search : ptr) (before_pos : Z) : res Z :=
n ← load h d;
s ← load h search;
let last := u64 (size n - size s) in
if (last <? before_pos) && (s64 last <? 0) then Ret (-1)
else rfind_loop n s (Z.to_nat (if last <? before_pos then last else before_pos)).

End BString.
