(* ===== verification/BStringRefs.v ===== *)
(** * Reference counts and blocks of BString

    The invariant of the heap of string data for a list of references to it:
    every block counts its references, ends in a zero and caches no wrong hash;
    and how references are taken, dropped and blocks are made. *)

From S2P Require Import Prelude Machine CString Heap BString.

#[local] Abbreviation heap := (gmap addr data).
Implicit Types (h : heap) (R : list addr) (a b : addr) (n : data) (l : list Z).

(** ** The invariant *)

Definition bytes n : list Z := take (Z.to_nat (size n)) (buf n).

(** What a string object is to its user: whether it is null, and its bytes. *)
Definition text n : bool * list Z := (al n <? 0, bytes n).
Definition txt h a : option (bool * list Z) := text <$> h !! a.

Definition hash_ok n : Prop := hash n = -1 \/ hash n = hash_value (bytes n).

Record block_ok n : Prop := {
  block_size : 0 <= size n < 2 ^ 62;
  block_al : al n = size n + 1;
  block_buf : Z.of_nat (length (buf n)) = (size n / 8 + 1) * 8;
  block_zero : buf n !! Z.to_nat (size n) = Some 0;
  block_hash : hash_ok n;
}.

Definition static_ok h R a (alloc : Z) : Prop :=
  exists hv, h !! a = Some (mk_data (1 + cnt a R) 0 alloc hv (repeat 0 8)) /\ (hv = -1 \/ hv = 0).

Record wf h R : Prop := {
  wf_null : static_ok h R s_null (-1);
  wf_empty : static_ok h R s_zero 0;
  wf_block : forall a n, h !! a = Some n -> a <> s_null -> a <> s_zero -> block_ok n /\ refcnt n = cnt a R - 1 /\ 0 <= refcnt n;
  wf_live : forall a, a ∈ R -> is_Some (h !! a);
  wf_count : Z.of_nat (length R) < 2 ^ 62;
}.

Lemma wf_perm h R1 R2 : R1 ≡ₚ R2 -> wf h R1 -> wf h R2.
Proof.
  intros Hp [H1 H2 H3 H4 H5]. split; unfold static_ok; by setoid_rewrite <- Hp.
Qed.

Lemma statics_wf : wf statics [].
Proof.
  split; [by exists (-1); split; [|left]|by exists (-1); split; [|left]| |by intros a Ha; apply elem_of_nil in Ha|done].
  intros a n Ha H1 H2. unfold statics in Ha. rewrite lookup_insert_ne, lookup_singleton_ne in Ha by congruence. done.
Qed.

(** Every block is a live one or a static one. *)
Definition alive n : Prop := block_ok n \/ size n = 0 /\ (al n = -1 \/ al n = 0) /\ buf n = repeat 0 8 /\ hash_ok n.

Lemma wf_alive h R a n : wf h R -> h !! a = Some n -> alive n.
Proof.
  intros [[h1 [E1 G1]] [h2 [E2 G2]] H3 _ _] Ha. destruct (decide (a = s_null)) as [->|]; [|destruct (decide (a = s_zero)) as [->|]].
  - rewrite E1 in Ha. injection Ha as <-. right. split_and!; try done; by left.
  - rewrite E2 in Ha. injection Ha as <-. right. split_and!; try done; by right.
  - left. by apply (H3 a n).
Qed.

Lemma alive_size n : alive n -> 0 <= size n < 2 ^ 62 /\ Z.of_nat (length (bytes n)) = size n /\ size n <= Z.of_nat (length (buf n)) /\
  length (buf n) = Z.to_nat ((size n / 8 + 1) * 8) /\ -1 <= al n <= size n + 1.
Proof.
  unfold bytes. rewrite length_take. intros [[H1 H2 H3 H4 H5]|(H1 & H2 & H3 & H4)].
  - split_and!; try lia; divlia.
  - rewrite H3, H1 in *. simpl. split_and!; try lia; done.
Qed.

Lemma wf_refcnt h R a n : wf h R -> h !! a = Some n -> 0 <= refcnt n < 2 ^ 62 + 1.
Proof.
  intros [[h1 [E1 G1]] [h2 [E2 G2]] H3 _ Hc] Ha. pose proof (cnt_nonneg a R).
  destruct (decide (a = s_null)) as [->|]; [|destruct (decide (a = s_zero)) as [->|]].
  - rewrite E1 in Ha. injection Ha as <-. simpl. lia.
  - rewrite E2 in Ha. injection Ha as <-. simpl. lia.
  - destruct (H3 a n Ha) as (_ & -> & ?); [done|done|]. lia.
Qed.

(** Reading a part of the bytes. *)
Lemma alive_range n off len : alive n -> 0 <= off -> 0 <= len -> off + len <= size n ->
  mem_range (buf n) off len = Ret (take (Z.to_nat len) (drop (Z.to_nat off) (bytes n))).
Proof.
  intros Hn H1 H2 H3. destruct (alive_size n Hn) as (G1 & G2 & G3 & _). unfold mem_range.
  ztest. simpl orb. cbv iota. f_equal. unfold bytes. rewrite skipn_firstn_comm, take_take. f_equal. lia.
Qed.

Lemma alive_bytes n : alive n -> mem_range (buf n) 0 (size n) = Ret (bytes n).
Proof.
  intros Hn. destruct (alive_size n Hn) as (G1 & G2 & _). rewrite alive_range by (done || lia). rewrite drop_0. f_equal. apply take_ge. lia.
Qed.

(** ** Taking and dropping a reference *)

Ltac counts := unfold with_refcnt; cbn [cnt refcnt size al hash buf].

Lemma inc_ok h R a : wf h R -> is_Some (h !! a) -> Z.of_nat (S (length R)) < 2 ^ 62 ->
  exists h', inc h (Some a) = Ret h' /\ wf h' (a :: R) /\ forall b, txt h' b = txt h b.
Proof.
  intros Hwf [n Ha] Hlen. pose proof (wf_refcnt h R a n Hwf Ha) as Hr. unfold inc. rewrite (update_ok _ _ _ _ Ha).
  rewrite (swrap_id 64) by (done || unfold in_s; lia). eexists. split; [reflexivity|]. split.
  - destruct Hwf as [[h1 [E1 G1]] [h2 [E2 G2]] H3 H4 H5]. split.
    + destruct (decide (a = s_null)) as [->|Hn]; [exists h1|exists h1]; split; try done.
      * rewrite lookup_insert_eq. rewrite E1 in Ha. injection Ha as <-. counts. rewrite decide_True by done. do 2 f_equal. lia.
      * rewrite lookup_insert_ne by done. rewrite E1. counts. by rewrite decide_False.
    + destruct (decide (a = s_zero)) as [->|Hn]; [exists h2|exists h2]; split; try done.
      * rewrite lookup_insert_eq. rewrite E2 in Ha. injection Ha as <-. counts. rewrite decide_True by done. do 2 f_equal. lia.
      * rewrite lookup_insert_ne by done. rewrite E2. counts. by rewrite decide_False.
    + intros b m. destruct (decide (a = b)) as [->|Hab].
      * rewrite lookup_insert_eq. intros [= <-] Hb1 Hb2. destruct (H3 b n Ha Hb1 Hb2) as ([B1 B2 B3 B4 B5] & R1 & R2).
        cbn [cnt]. rewrite decide_True by done. split; [by split|]. simpl. lia.
      * rewrite lookup_insert_ne by done. intros Hm Hb1 Hb2. cbn [cnt]. rewrite decide_False by done. apply (H3 b m Hm Hb1 Hb2).
    + intros b. rewrite elem_of_cons. intros Hb. destruct (decide (a = b)) as [->|Hab]; [rewrite lookup_insert_eq; by eexists|].
      rewrite lookup_insert_ne by done. apply H4. by destruct Hb as [->|].
    + simpl. lia.
  - intros b. unfold txt. destruct (decide (a = b)) as [->|Hab]; [by rewrite lookup_insert_eq, Ha|by rewrite lookup_insert_ne].
Qed.

Lemma unref_ok h R a : wf h (a :: R) ->
  exists h', unrefDg h (Some a) = Ret h' /\ wf h' R /\ (forall b, b ∈ R -> txt h' b = txt h b).
Proof.
  intros Hwf. pose proof Hwf as [[h1 [E1 G1]] [h2 [E2 G2]] H3 H4 H5].
  destruct (H4 a) as [n Ha]; [apply elem_of_cons; auto|]. pose proof (wf_refcnt h _ a n Hwf Ha) as Hr.
  unfold unrefDg, decr. rewrite (load_ok _ _ _ Ha). cbn [mbind res_bind]. rewrite (update_ok _ _ _ _ Ha). cbn [mbind res_bind].
  rewrite (swrap_id 64) by (done || unfold in_s; lia). set (n' := with_refcnt n (refcnt n - 1)). simpl in H5.
  assert (forall b, txt (<[a := n']> h) b = txt h b) as Htxt.
  { intros b. unfold txt. destruct (decide (a = b)) as [->|Hab]; [by rewrite lookup_insert_eq, Ha|by rewrite lookup_insert_ne]. }
  assert (forall b alloc hv, h !! b = Some (mk_data (1 + cnt b (a :: R)) 0 alloc hv (repeat 0 8)) ->
    <[a := n']> h !! b = Some (mk_data (1 + cnt b R) 0 alloc hv (repeat 0 8))) as Hst.
  { intros b alloc hv Hb. destruct (decide (a = b)) as [->|Hab].
    - rewrite lookup_insert_eq. unfold n'. rewrite Hb in Ha. injection Ha as <-. counts.
      rewrite decide_True by done. do 2 f_equal. lia.
    - rewrite lookup_insert_ne, Hb by done. counts. by rewrite decide_False. }
  assert (forall b m, <[a := n']> h !! b = Some m -> b <> s_null -> b <> s_zero -> block_ok m /\ refcnt m = cnt b R - 1) as Hbl.
  { intros b m Hm Hb1 Hb2. destruct (decide (a = b)) as [->|Hab].
    - rewrite lookup_insert_eq in Hm. injection Hm as <-. destruct (H3 b n Ha Hb1 Hb2) as ([B1 B2 B3 B4 B5] & R1 & R2).
      cbn [cnt] in R1. rewrite decide_True in R1 by done. split; [by split|]. simpl. lia.
    - rewrite lookup_insert_ne in Hm by done. destruct (H3 b m Hm Hb1 Hb2) as (B & R1 & R2).
      cbn [cnt] in R1. rewrite decide_False in R1 by done. split; [done|lia]. }
  destruct (Z.leb_spec 0 (refcnt n - 1)) as [Hpos|Hneg]; simpl negb; cbv iota.
  - exists (<[a := n']> h). split_and!; [done| |by intros b _; apply Htxt]. split; [by exists h1; auto|by exists h2; auto| | |lia].
    + intros b m Hm Hb1 Hb2. destruct (Hbl b m Hm Hb1 Hb2) as [B1 B2]. split_and!; [done|done|].
      destruct (decide (a = b)) as [->|Hab]; [rewrite lookup_insert_eq in Hm; injection Hm as <-; simpl; lia|].
      rewrite lookup_insert_ne in Hm by done. by apply (H3 b m).
    + intros b Hb. destruct (decide (a = b)) as [->|Hab]; [rewrite lookup_insert_eq; by eexists|].
      rewrite lookup_insert_ne by done. apply H4. apply elem_of_cons. auto.
  - assert (a <> s_null) as Hn1 by (intros ->; rewrite E1 in Ha; injection Ha as <-; cbn [refcnt cnt] in Hneg; pose proof (cnt_nonneg s_null R); try rewrite decide_True in Hneg by done; lia).
    assert (a <> s_zero) as Hn2 by (intros ->; rewrite E2 in Ha; injection Ha as <-; cbn [refcnt cnt] in Hneg; pose proof (cnt_nonneg s_zero R); try rewrite decide_True in Hneg by done; lia).
    destruct (Hbl a n') as [[B1 B2 B3 B4 B5] Hc]; [apply lookup_insert_eq|done|done|].
    assert (a ∉ R) as HaR by (rewrite cnt_elem; cbn [refcnt with_refcnt] in Hc; subst n'; cbn [refcnt with_refcnt] in Hc; lia).
    unfold freeDg. rewrite (load_ok _ _ _ (lookup_insert_eq h a n')). cbn [mbind res_bind].
    destruct (Z.leb_spec (al n') 0); [lia|]. rewrite (free_ok _ _ _ (lookup_insert_eq h a n')).
    exists (delete a (<[a := n']> h)). split_and!; [done| |].
    + split; [exists h1; split; [by rewrite lookup_delete_ne; [apply Hst|]|done]|exists h2; split; [by rewrite lookup_delete_ne; [apply Hst|]|done]| | |lia].
      * intros b m Hm Hb1 Hb2. apply lookup_delete_Some in Hm as [Hab Hm]. destruct (Hbl b m Hm Hb1 Hb2) as [B C]. split_and!; [done|done|].
        rewrite lookup_insert_ne in Hm by done. by apply (H3 b m).
      * intros b Hb. assert (a <> b) by (by intros ->). rewrite lookup_delete_ne, lookup_insert_ne by done. apply H4. apply elem_of_cons. auto.
    + intros b Hb. assert (a <> b) by (by intros ->). rewrite <- Htxt. unfold txt. by rewrite lookup_delete_ne.
Qed.

(** ** New blocks *)

Lemma new_block_ok h R a n : wf h R -> h !! a = None -> block_ok n -> refcnt n = 0 -> Z.of_nat (S (length R)) < 2 ^ 62 ->
  wf (<[a := n]> h) (a :: R) /\ (forall b, b ∈ R -> txt (<[a := n]> h) b = txt h b) /\ txt (<[a := n]> h) a = Some (text n).
Proof.
  intros [[h1 [E1 G1]] [h2 [E2 G2]] H3 H4 H5] Ha Hb Hr Hlen.
  assert (a ∉ R) as HaR by (intros HR; destruct (H4 a HR); congruence).
  assert (cnt a R = 0) as Hc by (rewrite cnt_elem in HaR; pose proof (cnt_nonneg a R); lia).
  assert (a <> s_null) by congruence. assert (a <> s_zero) by congruence. split_and!.
  - split.
    + exists h1. rewrite lookup_insert_ne, E1 by done. counts. by rewrite decide_False.
    + exists h2. rewrite lookup_insert_ne, E2 by done. counts. by rewrite decide_False.
    + intros b m. destruct (decide (a = b)) as [->|Hab].
      * rewrite lookup_insert_eq. intros [= <-] _ _. counts. rewrite decide_True by done. split; [done|]. lia.
      * rewrite lookup_insert_ne by done. intros Hm Hb1 Hb2. counts. rewrite decide_False by done. by apply H3.
    + intros b. rewrite elem_of_cons. destruct (decide (a = b)) as [->|Hab]; [rewrite lookup_insert_eq; by eexists|].
      rewrite lookup_insert_ne by done. intros [->|Hb']; [done|by apply H4].
    + simpl. lia.
  - intros b Hb'. unfold txt. rewrite lookup_insert_ne; [done|]. by intros ->.
  - unfold txt. by rewrite lookup_insert_eq.
Qed.
