(* ===== verification/BStringOps.v ===== *)
(** * Operations of BString on the invariant

    Making new blocks and parts, and replacing the block of an object: each
    keeps the invariant, leaves the text of every other object and gives the
    text the operation is for. *)

From S2P Require Import Prelude Machine CString Heap BString BStringRefs.

#[local] Abbreviation heap := (gmap addr data).

(** ** Stores into memory *)

Lemma mem_store_front (mem l : list Z) : (length l <= length mem)%nat -> mem_store mem 0 l = Ret (l ++ drop (length l) mem).
Proof.
  intros H. unfold mem_store. ztest. done.
Qed.

Lemma mem_store_next (mem l1 l2 : list Z) : (length l1 + length l2 <= length mem)%nat ->
  mem_store (l1 ++ drop (length l1) mem) (Z.of_nat (length l1)) l2 = Ret ((l1 ++ l2) ++ drop (length (l1 ++ l2)) mem).
Proof.
  intros H. unfold mem_store. rewrite length_app, length_drop. ztest. rewrite Nat2Z.id, take_app_length. f_equal.
  rewrite <- app_assoc. f_equal. f_equal. rewrite drop_app_ge by lia. rewrite drop_drop, length_app. f_equal. lia.
Qed.

Lemma skip_repeat (x : Z) k n : drop k (repeat x n) = repeat x (n - k).
Proof. revert n. induction k as [|k IH]; intros [|n]; simpl; auto. Qed.

Section Ops.
Variable garbage : Z.
Implicit Types (h : heap) (R : list addr) (a b d s : addr) (n : data) (l : list Z).

(** ** Fresh blocks *)

(** The memory of a new block for [len] bytes and the zero. *)
Definition fresh_buf (len : nat) : list Z := repeat garbage (Z.to_nat (Z.of_nat len / 8 * 8)) ++ repeat 0 8.
Definition zeros (len : nat) : list Z := repeat 0 (Z.to_nat (8 - Z.of_nat len mod 8)).

Lemma length_fresh_buf len : length (fresh_buf len) = Z.to_nat ((Z.of_nat len / 8 + 1) * 8).
Proof. unfold fresh_buf. rewrite length_app, !repeat_length. divlia. Qed.

Lemma drop_fresh len : drop len (fresh_buf len) = zeros len.
Proof.
unfold fresh_buf, zeros. rewrite drop_app_ge by (rewrite repeat_length; divlia). rewrite repeat_length, skip_repeat. f_equal. divlia.
Qed.

Lemma zeros_cons len : exists k, zeros len = 0 :: repeat 0 k.
Proof. unfold zeros. exists (Z.to_nat (7 - Z.of_nat len mod 8)). replace (Z.to_nat _) with (S (Z.to_nat (7 - Z.of_nat len mod 8))) by divlia. done. Qed.

Lemma length_zeros len : Z.of_nat (length (zeros len)) = 8 - Z.of_nat len mod 8.
Proof. unfold zeros. rewrite repeat_length. divlia. Qed.

(** The finished block of [l]. *)
Definition block l : data := mk_data 0 (Z.of_nat (length l)) (Z.of_nat (length l) + 1) (-1) (l ++ zeros (length l)).

Lemma bytes_block l : bytes (block l) = l.
Proof. unfold bytes, block. simpl. by rewrite Nat2Z.id, take_app_length. Qed.

Lemma text_block l : text (block l) = (false, l).
Proof. unfold text. rewrite bytes_block. unfold block. simpl. f_equal. ztest. Qed.

Lemma block_block_ok l : Z.of_nat (length l) < 2 ^ 62 -> block_ok (block l).
Proof.
intros H. split; unfold block; cbn [size al buf hash]; [lia|done| | |by left].
- rewrite length_app, Nat2Z.inj_add, length_zeros. divlia.
- rewrite Nat2Z.id. destruct (zeros_cons (length l)) as [k ->]. apply lookup_app_at.
Qed.

(** A block that is being filled: [l] so far, of [len] bytes. *)
Definition filling (len : nat) (sz : Z) l : data := mk_data 0 sz (Z.of_nat len + 1) (-1) (l ++ drop (length l) (fresh_buf len)).

Lemma filling_done l : filling (length l) (Z.of_nat (length l)) l = block l.
Proof. unfold filling, block. by rewrite drop_fresh. Qed.

Lemma allocDg_ok h (len : nat) sz : Z.of_nat len < 2 ^ 62 -> sz = Z.of_nat len + 1 ->
exists a, h !! a = None /\ allocDg garbage h (u64 sz) = Ret (Some a, <[a := filling len garbage []]> h).
Proof.
intros H ->. rewrite (uwrap_id 64) by (unfold in_u; lia). unfold allocDg. ztest.
destruct (alloc h _) as [a h'] eqn:E. apply alloc_fresh in E as [Ha ->]. exists a. split; [done|].
unfold filling. simpl. rewrite (swrap_id 64) by (done || unfold in_s; lia). by replace (Z.of_nat len + 1 - 1) with (Z.of_nat len) by lia.
Qed.

Lemma update_new h a n f : update (<[a := n]> h) (Some a) f = Ret (<[a := f n]> h).
Proof. rewrite (update_ok _ _ _ _ (lookup_insert_eq h a n)). by rewrite insert_insert_eq. Qed.

Lemma str_store_new h a n off l buf' : mem_store (buf n) off l = Ret buf' ->
str_store (<[a := n]> h) (Some a) off l = Ret (<[a := with_buf n buf']> h).
Proof.
intros E. unfold str_store. rewrite (load_ok _ _ _ (lookup_insert_eq h a n)). cbn [mbind res_bind]. rewrite E. cbn [mbind res_bind].
apply update_new.
Qed.

(** The first and the next bytes of a new block. *)
Lemma fill_first h a len sz l : (length l <= len)%nat -> str_store (<[a := filling len sz []]> h) (Some a) 0 l = Ret (<[a := filling len sz l]> h).
Proof.
intros H. erewrite str_store_new; [reflexivity|]. unfold filling. cbn [buf]. change ([] ++ drop (length []) (fresh_buf len)) with (fresh_buf len).
apply mem_store_front. rewrite length_fresh_buf. divlia.
Qed.

Lemma fill_next h a len sz l1 l2 off : off = Z.of_nat (length l1) -> (length l1 + length l2 <= len)%nat ->
str_store (<[a := filling len sz l1]> h) (Some a) off l2 = Ret (<[a := filling len sz (l1 ++ l2)]> h).
Proof.
intros -> H. erewrite str_store_new; [reflexivity|]. unfold filling. cbn [buf].
apply mem_store_next. rewrite length_fresh_buf. divlia.
Qed.

(** The terminating zero is stored where there is one already. *)
Lemma fill_end h a sz l off : off = Z.of_nat (length l) ->
str_store (<[a := filling (length l) sz l]> h) (Some a) off [0] = Ret (<[a := filling (length l) sz l]> h).
Proof.
intros ->. erewrite str_store_new; [reflexivity|]. unfold filling. cbn [buf].
rewrite mem_store_next by (rewrite length_fresh_buf; simpl; divlia).
f_equal. rewrite <- app_assoc. f_equal. destruct (zeros_cons (length l)) as [k Ek].
destruct (drop_S_lookup (fresh_buf (length l)) (length l) 0 (repeat 0 k)) as [_ E]; [by rewrite drop_fresh|].
rewrite length_app, Nat.add_comm. simpl plus. rewrite E, drop_fresh. by rewrite Ek.
Qed.

Lemma set_size_new h a len sz sz' l : update (<[a := filling len sz l]> h) (Some a) (fun n => with_size n sz') = Ret (<[a := filling len sz' l]> h).
Proof. by rewrite update_new. Qed.

(** ** What makes a new reference *)

Definition makes h R (m : res (ptr * heap)) (v : bool * list Z) : Prop :=
exists a h1, m = Ret (Some a, h1) /\ wf h1 (a :: R) /\ (forall b, b ∈ R -> txt h1 b = txt h b) /\ txt h1 a = Some v.

Lemma wf_lookup h R d v : wf h R -> d ∈ R -> txt h d = Some v -> exists n, h !! d = Some n /\ alive n /\ text n = v.
Proof.
intros Hwf Hd Ht. destruct (wf_live h R Hwf d Hd) as [n Hn]. exists n. split; [done|]. split; [by eapply wf_alive|].
unfold txt in Ht. rewrite Hn in Ht. by injection Ht.
Qed.

Lemma makes_ref h R d v : wf h R -> is_Some (h !! d) -> txt h d = Some v -> Z.of_nat (S (length R)) < 2 ^ 62 -> makes h R (refDg h (Some d)) v.
Proof.
intros Hwf Hd Ht Hl. destruct (inc_ok h R d Hwf Hd Hl) as (h' & E & Hwf' & Hx). unfold refDg. rewrite E. cbn [mbind res_bind].
exists d, h'. split_and!; [done|done|by intros; apply Hx|by rewrite Hx].
Qed.

Lemma txt_zero h R : wf h R -> is_Some (h !! s_zero) /\ txt h s_zero = Some (false, []).
Proof. intros [_ [hv [E _]] _ _ _]. unfold txt. rewrite E. by split; [eexists|]. Qed.

Lemma txt_null h R : wf h R -> is_Some (h !! s_null) /\ txt h s_null = Some (true, []).
Proof. intros [[hv [E _]] _ _ _ _]. unfold txt. rewrite E. by split; [eexists|]. Qed.

Lemma makes_zero h R : wf h R -> Z.of_nat (S (length R)) < 2 ^ 62 -> makes h R (refDg h (Some s_zero)) (false, []).
Proof. intros Hwf Hl. destruct (txt_zero h R Hwf). by apply makes_ref. Qed.

Lemma makes_block h R a l : wf h R -> h !! a = None -> Z.of_nat (length l) < 2 ^ 62 -> Z.of_nat (S (length R)) < 2 ^ 62 ->
makes h R (Ret (Some a, <[a := block l]> h)) (false, l).
Proof.
intros Hwf Ha Hl HR. destruct (new_block_ok h R a (block l) Hwf Ha) as (H1 & H2 & H3); [by apply block_block_ok|done|done|].
rewrite text_block in H3. by exists a, (<[a := block l]> h).
Qed.

Lemma makes_create h R l : wf h R -> Z.of_nat (length l) < 2 ^ 62 -> Z.of_nat (S (length R)) < 2 ^ 62 ->
makes h R (createDgLen garbage h l) (false, l).
Proof.
intros Hwf Hl HR. unfold createDgLen. destruct (Z.eqb_spec (Z.of_nat (length l)) 0) as [E|E].
- destruct l; [|simpl in E; lia]. by apply makes_zero.
- destruct (allocDg_ok h (length l) _ Hl eq_refl) as (a & Ha & ->). cbn [mbind res_bind].
  rewrite set_size_new. cbn [mbind res_bind]. rewrite fill_first by done. cbn [mbind res_bind]. rewrite filling_done.
  by apply makes_block.
Qed.

Lemma makes_part h R d n off len : wf h R -> h !! d = Some n -> 0 <= off -> 0 <= len -> off + len <= size n ->
Z.of_nat (S (length R)) < 2 ^ 62 ->
makes h R (createDgPart garbage h (Some d) off len) (false, take (Z.to_nat len) (drop (Z.to_nat off) (bytes n))).
Proof.
intros Hwf Hd H1 H2 H3 HR. pose proof (wf_alive h R d n Hwf Hd) as Hn. destruct (alive_size n Hn) as (G1 & G2 & G3 & _).
unfold createDgPart. destruct (Z.eqb_spec len 0) as [->|E].
- apply makes_create; (done || simpl; lia).
- unfold str_range. rewrite (load_ok _ _ _ Hd). cbn [mbind res_bind]. rewrite alive_range by done. cbn [mbind res_bind].
  apply makes_create; [done| |done]. rewrite length_take, length_drop. lia.
Qed.

(** ** Objects *)

(** The string objects of a program and their texts. *)
Definition rep h (objs : list addr) (vals : list (bool * list Z)) : Prop :=
wf h objs /\ Forall2 (fun a v => txt h a = Some v) objs vals.

Lemma rep_keep h h' objs vals R : (forall b, b ∈ R -> txt h' b = txt h b) -> (forall b, b ∈ objs -> b ∈ R) ->
Forall2 (fun a v => txt h a = Some v) objs vals -> Forall2 (fun a v => txt h' a = Some v) objs vals.
Proof.
intros Hk Hs H. revert Hs. induction H as [|a v objs vals Ha _ IH]; intros Hs; constructor.
- rewrite Hk; [done|]. apply Hs, elem_of_cons. auto.
- apply IH. intros b Hb. apply Hs, elem_of_cons. auto.
Qed.

Lemma makes_push h objs vals m v : rep h objs vals -> makes h objs m v ->
exists a h', new_string m = Ret (h', Some a) /\ rep h' (objs ++ [a]) (vals ++ [v]).
Proof.
intros [Hwf Hv] (a & h' & -> & Hwf' & Hk & Ht). exists a, h'. split; [done|]. split.
- eapply wf_perm; [|exact Hwf']. by rewrite Permutation_cons_append.
- apply Forall2_app; [|by repeat constructor]. by eapply rep_keep.
Qed.

(** The block of an object is replaced by a new reference. *)
Lemma set_noref h objs vals i d m v : rep h objs vals -> makes h objs m v -> objs !! i = Some d ->
exists a h', (dh ← m; i_setNoref (snd dh) (Some d) (fst dh)) = Ret (h', Some a) /\ rep h' (<[i := a]> objs) (<[i := v]> vals).
Proof.
intros [Hwf Hv] (a & h1 & -> & Hwf1 & Hk & Ht) Hi. destruct (insert_perm objs i d a Hi) as [Hp1 Hp2]. cbn [mbind res_bind fst snd].
destruct (unref_ok h1 (a :: delete i objs) d) as (h2 & E & Hwf2 & Hk2).
{ eapply wf_perm; [|exact Hwf1]. rewrite Hp2 at 1. apply perm_swap. }
unfold i_setNoref. rewrite E. cbn [mbind res_bind]. exists a, h2. split; [done|]. split; [by eapply wf_perm|].
eapply (rep_keep h1); [exact Hk2|intros b; by rewrite Hp1|]. apply Forall2_insert; [|done]. by eapply rep_keep.
Qed.

Lemma doref_noref h (d s : ptr) : i_setDoref h d s = (dh ← refDg h s; i_setNoref (snd dh) d (fst dh)).
Proof. unfold i_setDoref, refDg. by destruct (inc h s). Qed.

(** ** Appending to a block of its own *)

Lemma unref_none h d h' a : unrefDg h (Some d) = Ret h' -> h !! a = None -> h' !! a = None.
Proof.
unfold unrefDg, decr, freeDg. intros E Ha. destruct (h !! d) as [n|] eqn:Hd; [|by simpl in E; rewrite Hd in E].
assert (a <> d) by congruence.
rewrite (load_ok _ _ _ Hd) in E. cbn [mbind res_bind] in E. rewrite (update_ok _ _ _ _ Hd) in E. cbn [mbind res_bind] in E.
destruct (negb _); [|by injection E as <-; rewrite lookup_insert_ne].
rewrite (load_ok _ _ _ (lookup_insert_eq _ _ _)) in E. cbn [mbind res_bind] in E. destruct (_ <=? 0); [done|].
rewrite (free_ok _ _ _ (lookup_insert_eq _ _ _)) in E. injection E as <-. by rewrite lookup_delete_ne, lookup_insert_ne.
Qed.

Lemma unref_insert h a x d h' : a <> d -> unrefDg h (Some d) = Ret h' -> unrefDg (<[a := x]> h) (Some d) = Ret (<[a := x]> h').
Proof.
intros Had E. unfold unrefDg, decr, freeDg in *. destruct (h !! d) as [n|] eqn:Hd; [|by simpl in E; rewrite Hd in E].
assert (<[a := x]> h !! d = Some n) as Hd' by (by rewrite lookup_insert_ne).
rewrite (load_ok _ _ _ Hd) in E. rewrite (load_ok _ _ _ Hd'). cbn [mbind res_bind] in *.
rewrite (update_ok _ _ _ _ Hd) in E. rewrite (update_ok _ _ _ _ Hd'). cbn [mbind res_bind] in *.
rewrite insert_insert_ne by done. destruct (negb _); [|by injection E as <-].
rewrite (load_ok _ _ _ (lookup_insert_eq _ _ _)) in E. rewrite (load_ok (<[a:=x]> _) d (with_refcnt n (s64 (refcnt n - 1)))) by (by rewrite lookup_insert_ne, lookup_insert_eq).
cbn [mbind res_bind] in *. destruct (_ <=? 0); [done|].
rewrite (free_ok _ _ _ (lookup_insert_eq _ _ _)) in E. rewrite (free_ok (<[a:=x]> _) d (with_refcnt n (s64 (refcnt n - 1)))) by (by rewrite lookup_insert_ne, lookup_insert_eq).
injection E as <-. by rewrite delete_insert_ne.
Qed.

Lemma append_core h D d n l : wf h (d :: D) -> h !! d = Some n -> l <> [] -> size n + Z.of_nat (length l) < 2 ^ 62 ->
exists a h', let h1 := <[a := filling (length (bytes n ++ l)) (size n) (bytes n)]> h' in
  reallocSelf garbage h (Some d) (u64 (size n + Z.of_nat (length l))) = Ret (h1, Some a) /\
  h' !! a = None /\ a <> d /\ wf h' D /\ (forall b, b ∈ D -> txt h' b = txt h b) /\
  append_here h1 (Some a) l = Ret (<[a := block (bytes n ++ l)]> h', Some a).
Proof.
intros Hwf Hd Hl Hlen. pose proof (wf_alive h _ d n Hwf Hd) as Hn. destruct (alive_size n Hn) as (G1 & G2 & G3 & _ & G5).
assert (0 < Z.of_nat (length l)) as Hl0 by (destruct l; [done|simpl; lia]).
rewrite (uwrap_id 64) by (unfold in_u; lia).
assert (negb (refcnt n =? 0) || (u64 (al n) <=? size n + Z.of_nat (length l)) = true) as Hcond.
{ destruct Hwf as [[h1 [E1 _]] [h2 [E2 _]] H3 _ _]. destruct (decide (d = s_null)) as [->|]; [|destruct (decide (d = s_zero)) as [->|]].
  - rewrite E1 in Hd. injection Hd as <-. apply orb_true_iff. left. apply negb_true_iff, Z.eqb_neq. simpl. pose proof (cnt_nonneg s_null D). lia.
  - rewrite E2 in Hd. injection Hd as <-. apply orb_true_iff. left. apply negb_true_iff, Z.eqb_neq. simpl. pose proof (cnt_nonneg s_zero D). lia.
  - destruct (H3 d n Hd) as ([_ B _ _ _] & _ & _); [done|done|]. rewrite B, (uwrap_id 64) by (unfold in_u; lia).
    apply orb_true_iff. right. ztest. }
destruct (unref_ok h D d Hwf) as (h' & E & Hwf' & Hk).
set (len := length (bytes n ++ l)). assert (Z.of_nat len = size n + Z.of_nat (length l)) as Elen by (unfold len; rewrite length_app; lia).
destruct (allocDg_ok h len (size n + Z.of_nat (length l) + 1)) as (a & Ha & Ealloc); [lia|lia|].
assert (a <> d) by congruence. exists a, h'. split_and!; [|by eapply unref_none|done|done|done|].
- unfold reallocSelf. rewrite (load_ok _ _ _ Hd). cbn [mbind res_bind]. rewrite Hcond. unfold reallocSelfDo. rewrite Ealloc. cbn [mbind res_bind].
  rewrite (load_ok (<[a:=_]> h) d n) by (by rewrite lookup_insert_ne). cbn [mbind res_bind].
  rewrite (alive_bytes n Hn). cbn [mbind res_bind]. rewrite fill_first by (unfold len; rewrite length_app; lia). cbn [mbind res_bind].
  rewrite set_size_new. cbn [mbind res_bind]. unfold i_setNoref. rewrite (unref_insert h a _ d h') by done. done.
- unfold append_here. rewrite (load_ok _ _ _ (lookup_insert_eq _ _ _)). cbn [mbind res_bind]. cbn [size filling].
  change (mk_data 0 (size n) (Z.of_nat len + 1) (-1) (bytes n ++ drop (length (bytes n)) (fresh_buf len))) with (filling len (size n) (bytes n)).
  rewrite fill_next by (unfold len; rewrite ?length_app; lia). cbn [mbind res_bind].
  rewrite update_new. cbn [mbind res_bind]. unfold with_size at 1. cbn [refcnt size al hash buf filling].
  rewrite (uwrap_id 64) by (unfold in_u; lia). fold (filling len (size n + Z.of_nat (length l)) (bytes n ++ l)).
  unfold len. rewrite fill_end by (fold len; lia). cbn [mbind res_bind].
  fold len. rewrite <- Elen. unfold len. by rewrite filling_done.
Qed.

End Ops.
