(* ===== verification/BStringEdit.v ===== *)
(** * Editing and taking parts of BString

    Appending, removing and taking parts of a string, on the objects of a
    program: each call succeeds and has the effect it is for on the value of one
    object, and none on the others. *)

From S2P Require Import Prelude Machine CString Heap BString BStringRefs BStringOps.

#[local] Abbreviation heap := (gmap addr data).
#[local] Abbreviation value := (bool * list Z)%type.

Section Edit.
Variable garbage : Z.
Implicit Types (h : heap) (R objs : list addr) (a b d s : addr) (n : data) (l : list Z) (v : value) (vals : list value).

(** An object and what is known of its block. *)
Lemma rep_object h objs vals i v : rep h objs vals -> vals !! i = Some v ->
exists d n, objs !! i = Some d /\ h !! d = Some n /\ alive n /\ text n = v /\ txt h d = Some v.
Proof.
intros [Hwf Hv] Hi. destruct (Forall2_lookup_r _ _ _ _ _ Hv Hi) as (d & Hd & Ht).
destruct (wf_lookup h objs d v Hwf) as (n & H1 & H2 & H3); [by eapply list_elem_of_lookup_2|done|]. by exists d, n.
Qed.

Lemma text_bytes n v : text n = v -> bytes n = v.2 /\ (al n <? 0) = v.1.
Proof. by intros <-. Qed.

(** The new object, or the object with a new block. *)
Definition sets h objs vals i (m : res (heap * ptr)) v : Prop :=
exists a h', m = Ret (h', Some a) /\ rep h' (<[i := a]> objs) (<[i := v]> vals).
Definition pushes h objs vals (m : res (heap * ptr)) v : Prop :=
exists a h', m = Ret (h', Some a) /\ rep h' (objs ++ [a]) (vals ++ [v]).

Lemma sets_same h objs vals i d v : rep h objs vals -> objs !! i = Some d -> vals !! i = Some v -> sets h objs vals i (Ret (h, Some d)) v.
Proof. intros Hr Hd Hv. exists d, h. split; [done|]. by rewrite !list_insert_id. Qed.

Lemma sets_assign h objs vals i j d s v : rep h objs vals -> Z.of_nat (S (length objs)) < 2 ^ 62 -> objs !! i = Some d ->
objs !! j = Some s -> vals !! j = Some v -> sets h objs vals i (i_setDoref h (Some d) (Some s)) v.
Proof.
intros Hr Hc Hd Hs Hv. rewrite doref_noref. eapply set_noref; [done| |done]. destruct Hr as [Hwf Hvs].
apply makes_ref; [done| | |done].
- eapply wf_live; [done|]. by eapply list_elem_of_lookup_2.
- by eapply Forall2_lookup_lr in Hvs.
Qed.

(** ** Appending *)

Lemma elem_delete (objs : list addr) i j s : i <> j -> objs !! j = Some s -> s ∈ delete i objs.
Proof.
intros Hij Hs. apply list_elem_of_lookup. destruct (decide (j < i)%nat); [exists j; by rewrite list_lookup_delete_lt|].
exists (pred j). rewrite list_lookup_delete_ge by lia. by replace (S (pred j)) with j by lia.
Qed.

Lemma rep_replace h h' objs vals i d a v : rep h objs vals -> objs !! i = Some d -> wf h' (a :: delete i objs) ->
(forall b, b ∈ delete i objs -> txt h' b = txt h b) -> txt h' a = Some v -> rep h' (<[i := a]> objs) (<[i := v]> vals).
Proof.
intros [Hwf Hv] Hi Hwf' Hk Ha. split.
- eapply wf_perm; [|exact Hwf']. by destruct (insert_perm objs i d a Hi) as [-> _].
- pose proof (Forall2_length _ _ _ Hv) as Hlen. apply Forall2_same_length_lookup. split; [by rewrite !length_insert|].
  intros j x y. destruct (decide (i = j)) as [<-|Hij].
  + apply lookup_lt_Some in Hi as Hl. rewrite !list_lookup_insert_eq by congruence. intros [= <-] [= <-]. done.
  + rewrite !list_lookup_insert_ne by done. intros Hx Hy. rewrite Hk by (by eapply elem_delete). by eapply Forall2_lookup_lr in Hv.
Qed.

(** The two steps of an append: a block with room for more, and the store. *)
Lemma append_steps h objs vals i d n l : rep h objs vals -> objs !! i = Some d -> h !! d = Some n -> l <> [] ->
size n + Z.of_nat (length l) < 2 ^ 62 ->
exists a h1 h2, reallocSelf garbage h (Some d) (u64 (size n + Z.of_nat (length l))) = Ret (h1, Some a) /\
  (forall j s m, i <> j -> objs !! j = Some s -> h !! s = Some m -> str_range h1 (Some s) 0 (size m) = Ret (bytes m)) /\
  append_here h1 (Some a) l = Ret (h2, Some a) /\ rep h2 (<[i := a]> objs) (<[i := (false, bytes n ++ l)]> vals).
Proof.
intros [Hwf Hv] Hi Hd Hl Hlen. destruct (insert_perm objs i d d Hi) as [_ Hp].
assert (wf h (d :: delete i objs)) as Hwf1 by (by eapply wf_perm).
destruct (append_core garbage h (delete i objs) d n l Hwf1 Hd Hl Hlen) as (a & h' & E1 & Ha & _ & Hwf' & Hk & E2).
destruct (alive_size n) as (_ & G2 & _); [by apply (wf_alive h objs d n)|].
destruct (makes_block h' (delete i objs) a (bytes n ++ l) Hwf' Ha) as (a' & h2 & [= <- <-] & W & K & T).
{ rewrite length_app. lia. } { pose proof (wf_count _ _ Hwf1) as Hc. simpl in Hc. simpl. lia. }
exists a, (<[a := filling garbage (length (bytes n ++ l)) (size n) (bytes n)]> h'), (<[a := block (bytes n ++ l)]> h').
split_and!; [done| |done|].
- intros j s m Hij Hs Hm. assert (s ∈ delete i objs) as Hin by (by eapply elem_delete).
  destruct (wf_live _ _ Hwf' s Hin) as [m' Hm']. assert (text m' = text m) as Et.
  { specialize (Hk s Hin). unfold txt in Hk. rewrite Hm, Hm' in Hk. exact (inj Some _ _ Hk). }
  assert (alive m') as Ha' by (by apply (wf_alive h' (delete i objs) s)). destruct (alive_size m' Ha') as (_ & F & _).
  destruct (alive_size m) as (_ & F' & _); [by apply (wf_alive h objs s)|]. injection Et as _ Eb.
  unfold str_range. rewrite (load_ok (<[a:=_]> h') s m') by (rewrite lookup_insert_ne; [done|congruence]). cbn [mbind res_bind].
  replace (size m) with (size m') by congruence. by rewrite alive_bytes, Eb.
- eapply (rep_replace h); [done|done|done| |done]. intros b Hb. by rewrite K, Hk.
Qed.

Lemma sets_append h objs vals i j v w : rep h objs vals -> Z.of_nat (S (length objs)) < 2 ^ 62 -> i <> j -> vals !! i = Some v ->
vals !! j = Some w -> Z.of_nat (length v.2 + length w.2) < 2 ^ 62 ->
exists d s, objs !! i = Some d /\ objs !! j = Some s /\
  sets h objs vals i (append garbage h (Some d) (Some s))
    (if decide (w.2 = []) then v else if decide (v.2 = []) then w else (false, v.2 ++ w.2)).
Proof.
intros Hr Hc Hij Hi Hj Hlen. destruct (rep_object h objs vals i v Hr Hi) as (d & n & Hd & Hn & An & Tn & Xn).
destruct (rep_object h objs vals j w Hr Hj) as (s & m & Hs & Hm & Am & Tm & Xm). exists d, s. split_and!; [done|done|].
apply text_bytes in Tn as [Bn _], Tm as [Bm _]. destruct (alive_size n An) as (G1 & G2 & _), (alive_size m Am) as (F1 & F2 & _).
rewrite Bn in G2. rewrite Bm in F2. unfold append. rewrite (load_ok _ _ _ Hm). cbn [mbind res_bind].
destruct (Z.eqb_spec (size m) 0) as [E|E].
{ rewrite decide_True by (destruct w.2; [done|simpl in *; lia]). by apply sets_same. }
rewrite decide_False by (intros E1; rewrite E1 in F2; simpl in F2; lia). rewrite (load_ok _ _ _ Hn). cbn [mbind res_bind].
destruct (Z.eqb_spec (size n) 0) as [E'|E'].
{ rewrite decide_True by (destruct v.2; [done|simpl in *; lia]). by eapply sets_assign. }
rewrite decide_False by (intros E1; rewrite E1 in G2; simpl in G2; lia).
destruct (append_steps h objs vals i d n (bytes m) Hr Hd Hn) as (a & h1 & h2 & S1 & S2 & S3 & S4).
{ intros E1. rewrite <- Bm, E1 in F2. simpl in F2. lia. } { rewrite Bm. lia. }
replace (size m) with (Z.of_nat (length (bytes m))) at 1 by (rewrite Bm; lia). rewrite S1. cbn [mbind res_bind].
rewrite (S2 j s m) by done. cbn [mbind res_bind]. rewrite S3. exists a, h2. split; [done|]. by rewrite Bn, Bm in S4.
Qed.

Lemma sets_appendLen h objs vals i v l : rep h objs vals -> vals !! i = Some v -> Z.of_nat (length v.2 + length l) < 2 ^ 62 ->
exists d, objs !! i = Some d /\
  sets h objs vals i (appendLen garbage h (Some d) l) (if decide (l = []) then v else (false, v.2 ++ l)).
Proof.
intros Hr Hi Hlen. destruct (rep_object h objs vals i v Hr Hi) as (d & n & Hd & Hn & An & Tn & Xn). exists d. split; [done|].
apply text_bytes in Tn as [Bn _]. destruct (alive_size n An) as (G1 & G2 & _). rewrite Bn in G2. unfold appendLen. case_decide as E.
{ rewrite E. simpl. by apply sets_same. }
destruct (Z.eqb_spec (Z.of_nat (length l)) 0) as [E'|_]; [destruct l; simpl in *; [done|lia]|].
rewrite (load_ok _ _ _ Hn). cbn [mbind res_bind].
destruct (append_steps h objs vals i d n l Hr Hd Hn E) as (a & h1 & h2 & S1 & S2 & S3 & S4); [lia|].
rewrite S1. cbn [mbind res_bind]. rewrite S3. exists a, h2. split; [done|]. by rewrite Bn in S4.
Qed.

(** A new block for an object, or for a new object. *)
Lemma sets_block h objs vals i d a l : rep h objs vals -> objs !! i = Some d -> h !! a = None -> Z.of_nat (length l) < 2 ^ 62 ->
Z.of_nat (S (length objs)) < 2 ^ 62 -> sets h objs vals i (i_setNoref (<[a := block l]> h) (Some d) (Some a)) (false, l).
Proof.
intros Hr Hd Ha Hl Hc. pose proof Hr as [Hwf _].
change (sets h objs vals i (dh ← Ret (Some a, <[a := block l]> h); i_setNoref (snd dh) (Some d) (fst dh)) (false, l)).
by apply (set_noref h); [|apply makes_block|].
Qed.

Lemma pushes_block h objs vals a l : rep h objs vals -> h !! a = None -> Z.of_nat (length l) < 2 ^ 62 ->
Z.of_nat (S (length objs)) < 2 ^ 62 -> pushes h objs vals (Ret (<[a := block l]> h, Some a)) (false, l).
Proof.
intros Hr Ha Hl Hc. pose proof Hr as [Hwf _]. change (pushes h objs vals (new_string (Ret (Some a, <[a := block l]> h))) (false, l)).
by apply (makes_push h); [|apply makes_block].
Qed.

Lemma sets_appendReverse h objs vals i v l : rep h objs vals -> Z.of_nat (S (length objs)) < 2 ^ 62 -> vals !! i = Some v ->
Z.of_nat (length v.2 + length l) < 2 ^ 62 ->
exists d, objs !! i = Some d /\
  sets h objs vals i (appendReverse garbage h (Some d) l) (if decide (l = []) then v else (false, v.2 ++ rev l)).
Proof.
intros Hr Hc Hi Hlen. destruct (rep_object h objs vals i v Hr Hi) as (d & n & Hd & Hn & An & Tn & Xn). exists d. split; [done|].
apply text_bytes in Tn as [Bn _]. destruct (alive_size n An) as (G1 & G2 & _). rewrite Bn in G2. unfold appendReverse. case_decide as E.
{ rewrite E. simpl. by apply sets_same. }
destruct (Z.eqb_spec (Z.of_nat (length l)) 0) as [E'|_]; [destruct l; simpl in *; [done|lia]|].
rewrite (load_ok _ _ _ Hn). cbn [mbind res_bind]. set (len := length (v.2 ++ rev l)).
assert (Z.of_nat len = size n + Z.of_nat (length l)) as El by (unfold len; rewrite length_app, length_rev; lia).
destruct (allocDg_ok garbage h len (size n + Z.of_nat (length l) + 1)) as (a & Ha & ->); [lia|lia|]. cbn [mbind res_bind].
rewrite alive_bytes, Bn by done. cbn [mbind res_bind]. rewrite fill_first by (unfold len; rewrite length_app; lia). cbn [mbind res_bind].
rewrite set_size_new. cbn [mbind res_bind]. rewrite fill_next by (unfold len; rewrite ?length_app; lia). cbn [mbind res_bind].
rewrite (uwrap_id 64) by (unfold in_u; lia). unfold len in *. rewrite fill_end by lia. cbn [mbind res_bind].
rewrite <- El, filling_done. apply sets_block; (done || lia).
Qed.

Lemma pushes_ref h objs vals d v : rep h objs vals -> Z.of_nat (S (length objs)) < 2 ^ 62 -> is_Some (h !! d) -> txt h d = Some v ->
pushes h objs vals (new_string (refDg h (Some d))) v.
Proof. intros Hr Hc Hd Ht. pose proof Hr as [Hwf _]. apply (makes_push h); [done|]. by apply makes_ref. Qed.

Lemma pushes_concat h objs vals i j v w : rep h objs vals -> Z.of_nat (S (length objs)) < 2 ^ 62 -> vals !! i = Some v ->
vals !! j = Some w -> Z.of_nat (length v.2 + length w.2) < 2 ^ 62 ->
exists d s, objs !! i = Some d /\ objs !! j = Some s /\
  pushes h objs vals (concat garbage h (Some d) (Some s))
    (if decide (v.2 = []) then w else if decide (w.2 = []) then v else (false, v.2 ++ w.2)).
Proof.
intros Hr Hc Hi Hj Hlen. destruct (rep_object h objs vals i v Hr Hi) as (d & n & Hd & Hn & An & Tn & Xn).
destruct (rep_object h objs vals j w Hr Hj) as (s & m & Hs & Hm & Am & Tm & Xm). exists d, s. split_and!; [done|done|].
apply text_bytes in Tn as [Bn _], Tm as [Bm _]. destruct (alive_size n An) as (G1 & G2 & _), (alive_size m Am) as (F1 & F2 & _).
rewrite Bn in G2. rewrite Bm in F2. unfold concat. rewrite (load_ok _ _ _ Hn), (load_ok _ _ _ Hm). cbn [mbind res_bind].
pose proof Hr as [Hwf _]. destruct (Z.eqb_spec (size n) 0) as [E|E].
{ rewrite decide_True by (destruct v.2; [done|simpl in *; lia]). change (pushes h objs vals (new_string (refDg h (Some s))) w).
  by apply pushes_ref. }
rewrite decide_False by (intros E1; rewrite E1 in G2; simpl in G2; lia).
destruct (Z.eqb_spec (size m) 0) as [E'|E'].
{ rewrite decide_True by (destruct w.2; [done|simpl in *; lia]). change (pushes h objs vals (new_string (refDg h (Some d))) v).
  by apply pushes_ref. }
rewrite decide_False by (intros E1; rewrite E1 in F2; simpl in F2; lia). set (len := length (v.2 ++ w.2)).
assert (Z.of_nat len = size n + size m) as El by (unfold len; rewrite length_app; lia).
destruct (allocDg_ok garbage h len (size n + size m + 1)) as (a & Ha & ->); [lia|lia|]. cbn [mbind res_bind].
rewrite !alive_bytes, Bn, Bm by done. cbn [mbind res_bind]. rewrite fill_first by (unfold len; rewrite length_app; lia). cbn [mbind res_bind].
rewrite fill_next by (unfold len; rewrite ?length_app; lia). cbn [mbind res_bind].
rewrite set_size_new. cbn [mbind res_bind]. rewrite (uwrap_id 64) by (unfold in_u; lia). unfold len in *.
rewrite fill_end by lia. cbn [mbind res_bind]. rewrite <- El, filling_done. apply pushes_block; (done || lia).
Qed.

(** ** Parts *)

Lemma pushes_empty h objs vals : rep h objs vals -> Z.of_nat (S (length objs)) < 2 ^ 62 ->
pushes h objs vals (new_string (refDg h (Some s_zero))) (false, []).
Proof. intros Hr Hc. destruct (txt_zero h objs); [apply Hr|]. by apply pushes_ref. Qed.

Lemma pushes_part h objs vals d n off len l : rep h objs vals -> Z.of_nat (S (length objs)) < 2 ^ 62 -> h !! d = Some n -> 0 <= off -> 0 <= len ->
off + len <= size n -> l = take (Z.to_nat len) (drop (Z.to_nat off) (bytes n)) ->
pushes h objs vals (new_string (createDgPart garbage h (Some d) off len)) (false, l).
Proof. intros Hr Hc Hd H1 H2 H3 ->. pose proof Hr as [Hwf _]. apply (makes_push h); [done|]. by apply makes_part. Qed.

Lemma sets_part h objs vals i d n off len l : rep h objs vals -> Z.of_nat (S (length objs)) < 2 ^ 62 -> objs !! i = Some d ->
h !! d = Some n -> 0 <= off -> 0 <= len -> off + len <= size n -> l = take (Z.to_nat len) (drop (Z.to_nat off) (bytes n)) ->
sets h objs vals i (set_part garbage h (Some d) off len) (false, l).
Proof. intros Hr Hc Hi Hd H1 H2 H3 ->. pose proof Hr as [Hwf _]. unfold set_part. apply (set_noref h); [done| |done]. by apply makes_part. Qed.

(** The parts of a string; out of range, a reference or the empty string. *)
Section parts.
Context (h : heap) (objs : list addr) (vals : list value) (i : nat) (v : value).
Hypothesis Hr : rep h objs vals.
Hypothesis Hc : Z.of_nat (S (length objs)) < 2 ^ 62.
Hypothesis Hi : vals !! i = Some v.

(** The object and its block, the size replaced by that of the value. *)
Local Ltac object d n E1 E2 :=
destruct (rep_object h objs vals i v Hr Hi) as (d & n & Hd & Hn & An & Tn & Xn); exists d; split; [done|];
apply text_bytes in Tn as [Bn _]; destruct (alive_size n An) as (G1 & G2 & _); rewrite Bn in G2;
rewrite (load_ok _ _ _ Hn); cbn [mbind res_bind].

Lemma pushes_left (k : nat) : exists d, objs !! i = Some d /\
pushes h objs vals (left garbage h (Some d) (Z.of_nat k)) (if decide (length v.2 < k)%nat then v else (false, take k v.2)).
Proof.
unfold left. object d n E1 E2. case_decide; ztest; [by apply pushes_ref|].
apply (pushes_part h objs vals d n); try (done || lia). by rewrite Bn, Nat2Z.id.
Qed.

Lemma pushes_mid_from (k : nat) : exists d, objs !! i = Some d /\
pushes h objs vals (mid_from garbage h (Some d) (Z.of_nat k)) (false, drop k v.2).
Proof.
unfold mid_from. object d n E1 E2. ztest; [rewrite drop_ge by lia; by apply pushes_empty|].
apply (pushes_part h objs vals d n); try (done || lia). rewrite Bn, Nat2Z.id, take_ge; [done|]. rewrite length_drop. lia.
Qed.

Lemma pushes_mid (k c : nat) : exists d, objs !! i = Some d /\
pushes h objs vals (mid garbage h (Some d) (Z.of_nat k) (Z.of_nat c)) (false, take c (drop k v.2)).
Proof.
unfold mid. object d n E1 E2. destruct (Z.leb_spec (size n) (Z.of_nat k)).
{ rewrite drop_ge, take_nil by lia. by apply pushes_empty. }
apply (pushes_part h objs vals d n); try done; try lia; try (case_match; lia).
rewrite Bn, Nat2Z.id. case_match eqn:E; [|by rewrite Nat2Z.id].
rewrite !take_ge; [done| |]; rewrite length_drop; lia.
Qed.

Lemma pushes_right (k : nat) : exists d, objs !! i = Some d /\
pushes h objs vals (right garbage h (Some d) (Z.of_nat k))
(if decide (length v.2 <= k)%nat then v else (false, drop (length v.2 - k) v.2)).
Proof.
unfold right. object d n E1 E2. case_decide; ztest; [by apply pushes_ref|].
apply (pushes_part h objs vals d n); try (done || lia). rewrite Bn, Nat2Z.id, take_ge; [f_equal; lia|]. rewrite length_drop. lia.
Qed.

Lemma sets_removeLeft (k : nat) : exists d, objs !! i = Some d /\
sets h objs vals i (removeLeft garbage h (Some d) (Z.of_nat k)) (if decide (k = 0)%nat then v else (false, drop k v.2)).
Proof.
unfold removeLeft. object d n E1 E2. case_decide; ztest; [by apply sets_same| |];
apply (sets_part h objs vals i d n); try done; try lia; rewrite Bn.
- rewrite !drop_ge by lia. by rewrite take_nil.
- rewrite Nat2Z.id, take_ge; [done|]. rewrite length_drop. lia.
Qed.

Lemma sets_removeMid_from (k : nat) : exists d, objs !! i = Some d /\
sets h objs vals i (removeMid_from garbage h (Some d) (Z.of_nat k)) (false, take k v.2).
Proof.
unfold removeMid_from. object d n E1 E2. apply (sets_part h objs vals i d n); try done; try lia; try (case_match; lia).
rewrite Bn, drop_0. case_match eqn:E; [rewrite !take_ge by lia; done|by rewrite Nat2Z.id].
Qed.

Lemma sets_removeRight (k : nat) : exists d, objs !! i = Some d /\
sets h objs vals i (removeRight garbage h (Some d) (Z.of_nat k)) (false, take (length v.2 - k) v.2).
Proof.
unfold removeRight. object d n E1 E2. apply (sets_part h objs vals i d n); try done; try lia; try (case_match; lia).
rewrite Bn, drop_0. f_equal. case_match eqn:E; lia.
Qed.

(** The zeros behind a finished block are there already. *)
Lemma padzeroes_block a l : Z.of_nat (length l) < 2 ^ 62 -> padzeroes (<[a := block l]> h) (Some a) = Ret (<[a := block l]> h).
Proof.
intros Hl. unfold padzeroes. rewrite (load_ok _ _ _ (lookup_insert_eq _ _ _)). cbn [mbind res_bind size block].
change 7 with (Z.ones 3). rewrite Z.land_ones by lia. change (2 ^ 3) with 8.
assert (str_store (<[a := block l]> h) (Some a) (Z.of_nat (length l)) (zeros (length l)) = Ret (<[a := block l]> h)) as Est.
{ erewrite str_store_new; [reflexivity|]. cbn [buf block]. pose proof (length_zeros (length l)) as Ez. unfold mem_store.
rewrite length_app. ztest. rewrite Nat2Z.id, take_app_length. f_equal. f_equal. rewrite drop_ge; [by rewrite app_nil_r|]. rewrite length_app. lia. }
unfold zeros in Est. destruct (Z.eqb_spec (Z.of_nat (length l) mod 8) 0) as [E|E].
- rewrite E in Est. exact Est.
- unfold str_range. rewrite (load_ok _ _ _ (lookup_insert_eq _ _ _)). cbn [mbind res_bind buf block].
pose proof (length_zeros (length l)) as Ez. unfold mem_range. rewrite length_app.
assert (0 <= Z.of_nat (length l) mod 8 < 8 /\ Z.of_nat (length l) mod 8 <= Z.of_nat (length l)) as Hm by divlia. ztest. exact Est.
Qed.

Lemma sets_removeMid (k c : nat) : exists d, objs !! i = Some d /\
sets h objs vals i (removeMid garbage h (Some d) (Z.of_nat k) (Z.of_nat c)) (false, take k v.2 ++ drop (k + c) v.2).
Proof.
unfold removeMid. object d n E1 E2. set (pos := if size n <=? Z.of_nat k then size n else Z.of_nat k).
set (len := if size n - pos <? Z.of_nat c then size n - pos else Z.of_nat c).
assert (0 <= pos <= size n /\ 0 <= len <= size n - pos) as Hp by (unfold len, pos; repeat case_match; lia).
assert (take k v.2 = take (Z.to_nat pos) v.2) as E1.
{ unfold pos. case_match; [rewrite !take_ge by lia; done|by rewrite Nat2Z.id]. }
assert (drop (k + c) v.2 = drop (Z.to_nat (pos + len)) v.2) as E2.
{ unfold len, pos. repeat case_match; try (rewrite !drop_ge by lia; done). f_equal. lia. }
set (l1 := take k v.2). set (l2 := drop (k + c) v.2).
assert (Z.of_nat (length l1) = pos /\ Z.of_nat (length l2) = size n - (pos + len)) as [L1 L2].
{ unfold l1, l2. rewrite E1, E2, length_take, length_drop. lia. }
destruct (allocDg_ok garbage h (length (l1 ++ l2)) (size n - len + 1)) as (a & Ha & ->); [rewrite length_app; lia|rewrite length_app; lia|].
cbn [mbind res_bind]. rewrite (alive_range n 0 pos), Bn by (done || lia). change (Z.to_nat 0) with 0%nat. rewrite drop_0, <- E1. fold l1.
cbn [mbind res_bind]. rewrite fill_first by (rewrite length_app; lia). cbn [mbind res_bind].
rewrite alive_range, Bn by (done || lia). cbn [mbind res_bind]. rewrite <- E2, take_ge by (fold l2; lia). fold l2.
rewrite fill_next by (rewrite ?length_app; lia). cbn [mbind res_bind]. rewrite set_size_new. cbn [mbind res_bind].
replace (size n - len) with (Z.of_nat (length (l1 ++ l2))) by (rewrite length_app; lia). rewrite filling_done.
rewrite padzeroes_block by (rewrite length_app; lia). cbn [mbind res_bind]. apply sets_block; try done. rewrite length_app. lia.
Qed.

End parts.

End Edit.
