(* ===== verification/BStringRead.v ===== *)
(** * Reading BString

    Hashing, comparing, printing numbers, trimming and searching: what the calls
    that read a string return, for the value of its object. *)

From S2P Require Import Prelude Machine CString Heap BString BStringRefs BStringOps BStringEdit.

#[local] Abbreviation heap := (gmap addr data).
#[local] Abbreviation value := (bool * list Z)%type.
Implicit Types (h : heap) (objs : list addr) (a d s : addr) (n : data) (l : list Z) (v w : value) (vals : list value).

(** ** Hash and equality *)

Lemma hash_value_nonneg l : 0 <= hash_value l.
Proof. unfold hash_value. apply Z.land_nonneg. right. done. Qed.

Lemma hash_rep h objs vals d n : rep h objs vals -> h !! d = Some n ->
  rep (<[d := with_hash n (hash_value (bytes n))]> h) objs vals.
Proof.
  intros [Hwf Hv] Hd. set (n' := with_hash n _). assert (forall b, txt (<[d := n']> h) b = txt h b) as Ht.
  { intros b. unfold txt. destruct (decide (d = b)) as [->|]; [by rewrite lookup_insert_eq, Hd|by rewrite lookup_insert_ne]. }
  split; [|eapply (rep_keep h _ objs vals objs); auto].
  assert (forall a alloc, static_ok h objs a alloc -> static_ok (<[d := n']> h) objs a alloc) as Hs.
  { intros a alloc (hv & Ha & Hh). destruct (decide (d = a)) as [->|Hda]; [|exists hv; by rewrite lookup_insert_ne].
    exists 0. rewrite lookup_insert_eq. rewrite Hd in Ha. injection Ha as ->. split; [done|by right]. }
  destruct Hwf as [H1 H2 H3 H4 H5]. split; [by apply Hs|by apply Hs| | |done].
  - intros a m. destruct (decide (d = a)) as [->|Hda]; [|rewrite lookup_insert_ne by done; apply H3].
    rewrite lookup_insert_eq. intros [= <-] Ha1 Ha2. destruct (H3 a n Hd Ha1 Ha2) as ([B1 B2 B3 B4 B5] & R1 & R2).
    split; [split; try done; by right|done].
  - intros a Ha. destruct (decide (d = a)) as [->|]; [rewrite lookup_insert_eq; by eexists|rewrite lookup_insert_ne by done; auto].
Qed.

Lemma getHash_ok h objs vals d n : rep h objs vals -> h !! d = Some n ->
  getHash h (Some d) = Ret (hash_value (bytes n), <[d := with_hash n (hash_value (bytes n))]> h).
Proof.
  intros [Hwf _] Hd. pose proof (wf_alive h objs d n Hwf Hd) as An. pose proof (hash_value_nonneg (bytes n)).
  assert (hash_ok n) as [E|E] by (destruct An as [[]|(_ & _ & _ & ?)]; done);
    unfold getHash; rewrite (load_ok _ _ _ Hd); cbn [mbind res_bind]; rewrite E; ztest.
  - simpl. unfold updateHash. rewrite (load_ok _ _ _ Hd). cbn [mbind res_bind]. rewrite (alive_bytes n An). cbn [mbind res_bind].
    by rewrite (update_ok _ _ _ _ Hd).
  - f_equal. f_equal. rewrite <- E. rewrite insert_id; [done|]. rewrite Hd. by destruct n.
Qed.

Lemma pbcmp_eq l1 l2 : length l1 = length l2 -> pbcmp l1 l2 = 0 <-> l1 = l2.
Proof.
  revert l2. induction l1 as [|x l1 IH]; intros [|y l2] Hl; try done. simpl in *. destruct (Z.eqb_spec x y) as [->|E].
  - rewrite IH by lia. split; congruence.
  - split; [case_match; lia|congruence].
Qed.

Lemma beq_ok h objs vals i j v w : rep h objs vals -> vals !! i = Some v -> vals !! j = Some w ->
  exists d s h', objs !! i = Some d /\ objs !! j = Some s /\
    beq h (Some d) (Some s) = Ret (bool_decide (v.2 = w.2), h') /\ rep h' objs vals.
Proof.
  intros Hr Hi Hj. destruct (rep_object h objs vals i v Hr Hi) as (d & n & Hd & Hn & An & Tn & _).
  destruct (rep_object h objs vals j w Hr Hj) as (s & m0 & Hs & Hm0 & Am0 & Tm0 & _).
  set (n1 := with_hash n (hash_value (bytes n))). set (h1 := <[d := n1]> h).
  pose proof (hash_rep h objs vals d n Hr Hn) as Hr1. fold n1 h1 in Hr1.
  destruct (rep_object h1 objs vals j w Hr1 Hj) as (s' & m & Hs' & Hm & Am & Tm & _).
  rewrite Hs in Hs'. injection Hs' as <-. set (m1 := with_hash m (hash_value (bytes m))).
  pose proof (hash_rep h1 objs vals s m Hr1 Hm) as Hr2. fold m1 in Hr2. set (h2 := <[s := m1]> h1) in *.
  exists d, s, h2. split_and!; [done|done| |done]. unfold beq.
  rewrite (getHash_ok h objs vals d n Hr Hn). cbn [mbind res_bind]. fold n1 h1. rewrite (getHash_ok h1 objs vals s m Hr1 Hm).
  cbn [mbind res_bind]. fold m1 h2.
  assert (exists f, h2 !! d = Some f /\ text f = v /\ hash f = hash_value v.2 /\ alive f) as (f & Hf & Tf & Ef & Af).
  { destruct (decide (s = d)) as [->|Hsd].
    - exists m1. unfold h2. rewrite lookup_insert_eq. split; [done|]. rewrite Hn in Hm0. injection Hm0 as <-.
      assert (bytes m = v.2) as Em by (destruct (text_bytes _ _ Tm), (text_bytes _ _ Tn), (text_bytes _ _ Tm0); congruence).
      split_and!; [|simpl; by rewrite Em|].
      + change (text m1) with (text m). congruence.
      + apply (wf_alive h2 objs d); [apply Hr2|]. unfold h2. by rewrite lookup_insert_eq.
    - exists n1. unfold h2, h1. rewrite lookup_insert_ne, lookup_insert_eq by done. split_and!; [done|done| |].
      + simpl. by rewrite (proj1 (text_bytes _ _ Tn)).
      + apply (wf_alive h1 objs d); [apply Hr1|]. unfold h1. by rewrite lookup_insert_eq. }
  assert (alive m1) as Am1 by (apply (wf_alive h2 objs s); [apply Hr2|]; unfold h2; by rewrite lookup_insert_eq).
  rewrite (load_ok _ _ _ Hf). cbn [mbind res_bind]. rewrite (load_ok h2 s m1) by (unfold h2; by rewrite lookup_insert_eq). cbn [mbind res_bind].
  apply text_bytes in Tf as [Bf _], Tm as [Bm _]. change (bytes m) with (bytes m1) in Bm. rewrite Ef. unfold m1 at 1. cbn [hash with_hash].
  change (bytes m) with (bytes m1). rewrite Bm. destruct (alive_size f Af) as (F1 & F2 & _), (alive_size m1 Am1) as (M1 & M2 & _).
  rewrite Bf in F2. rewrite Bm in M2. destruct (Z.eqb_spec (hash_value v.2) (hash_value w.2)) as [E|E]; simpl negb; cbv iota.
  2:{ by rewrite bool_decide_eq_false_2 by congruence. }
  case_bool_decide as Eds.
  { injection Eds as ->. unfold h2 in Hf. rewrite lookup_insert_eq in Hf. injection Hf as <-. by rewrite bool_decide_eq_true_2 by congruence. }
  change (size m1) with (size m) in *. destruct (Z.eqb_spec (size f) (size m)) as [E'|E']; simpl negb; cbv iota.
  2:{ rewrite bool_decide_eq_false_2; [done|]. intros E1. rewrite E1 in F2. lia. }
  rewrite (alive_bytes f Af), Bf. cbn [mbind res_bind]. rewrite E'. change (size m) with (size m1). rewrite (alive_bytes m1 Am1), Bm. cbn [mbind res_bind].
  do 2 f_equal. apply eq_true_iff_eq. rewrite Z.eqb_eq, bool_decide_eq_true. apply pbcmp_eq. lia.
Qed.

(** ** Order *)

(** The lexicographic order of bytes, by its sign. *)
Fixpoint lex (l1 l2 : list Z) : Z :=
  match l1, l2 with
  | [], [] => 0
  | [], _ => -1
  | _, [] => 1
  | x :: l1, y :: l2 => if x =? y then lex l1 l2 else if x <? y then -1 else 1
  end.

(** Null strings come before all others. *)
Definition cmp_value v w : Z := if v.1 then (if w.1 then 0 else -1) else if w.1 then 1 else lex v.2 w.2.

Lemma lex_prefix l1 l2 m : m = Nat.min (length l1) (length l2) ->
  lex l1 l2 = if pbcmp (take m l1) (take m l2) =? 0 then Z.sgn (Z.of_nat (length l1) - Z.of_nat (length l2)) else pbcmp (take m l1) (take m l2).
Proof.
  revert l2 m. induction l1 as [|x l1 IH]; intros [|y l2] m ->; try done. cbn [length Nat.min lex take pbcmp].
  destruct (Z.eqb_spec x y) as [->|E]; [|by case_match]. rewrite (IH l2 _ eq_refl). case_match; [f_equal; lia|done].
Qed.

Lemma lex_refl l : lex l l = 0.
Proof. induction l as [|x l IH]; simpl; [done|]. by rewrite Z.eqb_refl. Qed.

Lemma pbcmp_sign l1 l2 : pbcmp l1 l2 = -1 \/ pbcmp l1 l2 = 0 \/ pbcmp l1 l2 = 1.
Proof. revert l2. induction l1 as [|x l1 IH]; intros [|y l2]; simpl; auto. repeat case_match; auto. Qed.

Lemma bcmp_ok h objs vals i j v w : rep h objs vals -> vals !! i = Some v -> vals !! j = Some w ->
  exists d s r, objs !! i = Some d /\ objs !! j = Some s /\ bcmp h (Some d) (Some s) = Ret r /\ Z.sgn r = cmp_value v w.
Proof.
  intros Hr Hi Hj. destruct (rep_object h objs vals i v Hr Hi) as (d & n & Hd & Hn & An & Tn & _).
  destruct (rep_object h objs vals j w Hr Hj) as (s & m & Hs & Hm & Am & Tm & _).
  assert (forall r, bcmp h (Some d) (Some s) = Ret r -> Z.sgn r = cmp_value v w ->
    exists d s r, objs !! i = Some d /\ objs !! j = Some s /\ bcmp h (Some d) (Some s) = Ret r /\ Z.sgn r = cmp_value v w) as K.
  { intros r E1 E2. by exists d, s, r. }
  destruct (text_bytes _ _ Tn) as [Bn Nn], (text_bytes _ _ Tm) as [Bm Nm]. unfold cmp_value in *. rewrite <- Nn, <- Nm in K |- *.
  unfold bcmp in K at 1. rewrite (load_ok _ _ _ Hn), (load_ok _ _ _ Hm) in K. cbn [mbind res_bind] in K.
  destruct (Z.ltb_spec (al n) 0); [eapply K; [done|]; case_match; [done|]; by destruct (al m =? 0)|].
  destruct (Z.ltb_spec (al m) 0); [eapply K; [done|]; by destruct (al n =? 0)|].
  case_bool_decide as Eds. { eapply K; [done|]. injection Eds as ->. rewrite Hn in Hm. injection Hm as <-. rewrite <- Bn, <- Bm. by rewrite lex_refl. }
  destruct (alive_size n An) as (G1 & G2 & _), (alive_size m Am) as (F1 & F2 & _). rewrite Bn in G2. rewrite Bm in F2.
  set (c := if size n <? size m then size n else size m) in K. assert (Z.to_nat c = Nat.min (length v.2) (length w.2)) as Ec by (unfold c; ztest).
  assert (0 <= c <= size n /\ c <= size m) as Hc by (unfold c; ztest). clearbody c.
  rewrite !alive_range in K by (done || lia). cbn [mbind res_bind] in K. change (Z.to_nat 0) with 0%nat in K.
  rewrite Bn, Bm, !drop_0 in K. eapply K; [done|]. rewrite (lex_prefix v.2 w.2 _ Ec).
  destruct (pbcmp_sign (take (Z.to_nat c) v.2) (take (Z.to_nat c) w.2)) as [-> | [-> | ->]]; [done| |done]. simpl. ztest; simpl; lia.
Qed.

(** ** Numbers *)

Definition digit (x : Z) : Z := if x <? 10 then 48 + x else 87 + x.
Definition digit_value (c : Z) : Z := if c <? 58 then c - 48 else c - 87.

(** The digits of [n], the lowest first, and the number that digits stand for. *)
Fixpoint rdigits (k : nat) (base n : Z) : list Z :=
  match k with
  | O => []
  | S k => digit (n mod base) :: (if n / base =? 0 then [] else rdigits k base (n / base))
  end.
Definition print_number (base n : Z) : list Z := (if n <? 0 then [45] else []) ++ rev (rdigits 64 base (Z.abs n)).
Definition read_digits (base : Z) (l : list Z) : Z := fold_left (fun acc c => acc * base + digit_value c) l 0.

Lemma digits_at x : 0 <= x < 36 -> byte_at digits x = Ret (digit x).
Proof.
  intros H. assert (forallb (fun i => match byte_at digits (Z.of_nat i) with Ret c => c =? digit (Z.of_nat i) | _ => false end) (seq 0 36) = true) as F by reflexivity.
  assert (In (Z.to_nat x) (seq 0 36)) as Hin by (apply in_seq; lia).
  rewrite forallb_forall in F. specialize (F _ Hin). rewrite Z2Nat.id in F by lia.
  destruct (byte_at digits x); try discriminate F. apply Z.eqb_eq in F. by subst.
Qed.

Lemma div_pow2 (base n : Z) (k : nat) : 2 <= base -> 0 <= n < 2 ^ Z.of_nat (S k) -> 0 <= n / base < 2 ^ Z.of_nat k.
Proof.
  intros Hb Hn. rewrite Nat2Z.inj_succ, Z.pow_succ_r in Hn by lia. split; [apply Z.div_pos; lia|]. apply Z.div_lt_upper_bound; [lia|]. nia.
Qed.

Lemma digit_loop_ok (k fuel : nat) (cap base n : Z) (b : list Z) : 2 <= base <= 36 -> 0 <= n < 2 ^ Z.of_nat (S k) -> (k < fuel)%nat -> Z.of_nat (length b + S k) <= cap ->
  digit_loop fuel cap n base b = Ret (b ++ rdigits (S k) base n).
Proof.
  intros Hb. revert fuel n b. induction k as [|k IH]; intros [|fuel] n b Hn Hf Hc; try lia;
    pose proof (div_pow2 base n _ ltac:(lia) Hn) as Hd; cbn [digit_loop rdigits];
    destruct (Z.eqb_spec base 0) as [E|_]; try lia; rewrite digits_at by (pose proof (Z.mod_pos_bound n base); lia);
    cbn [mbind res_bind]; destruct (Z.leb_spec cap (Z.of_nat (length b))) as [E|_]; try lia.
  - destruct (Z.eqb_spec (n / base) 0) as [E|E]; [done|]. simpl Z.of_nat in Hd. lia.
  - destruct (Z.eqb_spec (n / base) 0) as [E|E]; [done|].
    rewrite (IH fuel (n / base) (b ++ [digit (n mod base)])); [by rewrite <- app_assoc|done|lia|rewrite length_app; simpl; lia].
Qed.

Lemma rdigits_length (k : nat) (base n : Z) : (length (rdigits k base n) <= k)%nat.
Proof. revert n. induction k as [|k IH]; intros n; simpl; [lia|]. case_match; simpl; [lia|]. specialize (IH (n / base)). lia. Qed.

Lemma digit_inverse x : 0 <= x < 36 -> digit_value (digit x) = x.
Proof. intros H. unfold digit_value, digit. ztest. Qed.

Lemma read_rdigits (k : nat) (base n : Z) : 2 <= base <= 36 -> 0 <= n < 2 ^ Z.of_nat k -> (0 < k)%nat -> read_digits base (rev (rdigits k base n)) = n.
Proof.
  intros Hb. unfold read_digits. revert n. induction k as [|k IH]; intros n Hn Hk; [lia|].
  pose proof (div_pow2 base n k ltac:(lia) Hn) as Hd. pose proof (Z.mod_pos_bound n base ltac:(lia)). pose proof (Z.div_mod n base ltac:(lia)).
  cbn [rdigits rev]. rewrite fold_left_app. cbn [fold_left]. rewrite digit_inverse by lia.
  destruct (Z.eqb_spec (n / base) 0) as [E|E]; [simpl; lia|]. rewrite IH; [lia|done|]. destruct k; [simpl Z.of_nat in Hd; lia|lia].
Qed.

Lemma print_number_nonempty (base n : Z) : print_number base n <> [].
Proof. unfold print_number. intros E. apply app_eq_nil in E as [_ E]. cbn [rdigits rev] in E. by apply app_eq_nil in E as [_ E]. Qed.

(** The number that a text of digits in a base stands for. *)
Definition read_number (base : Z) (l : list Z) : Z :=
  match l with
  | 45 :: l => - read_digits base l
  | l => read_digits base l
  end.

Lemma rev_rdigits_head (k : nat) (base n : Z) : 2 <= base <= 36 -> forall l, rev (rdigits k base n) <> 45 :: l.
Proof.
  intros Hb l E. assert (45 ∈ rdigits k base n) as Hin.
  { apply list_elem_of_In, in_rev. rewrite E. by left. }
  clear E l. revert n Hin. induction k as [|k IH]; intros n; cbn [rdigits]; [by rewrite elem_of_nil|].
  rewrite elem_of_cons. intros [E|E].
  - pose proof (Z.mod_pos_bound n base ltac:(lia)). unfold digit in E. destruct (Z.ltb_spec (n mod base) 10); lia.
  - destruct (n / base =? 0); [by apply elem_of_nil in E|by eapply IH].
Qed.

Lemma read_print (base n : Z) : 2 <= base <= 36 -> in_s 64 n -> read_number base (print_number base n) = n.
Proof.
  intros Hb Hn. unfold in_s in Hn. unfold print_number.
  assert (read_digits base (rev (rdigits 64 base (Z.abs n))) = Z.abs n) as E by (apply read_rdigits; [done|change (Z.of_nat 64) with 64; lia|lia]).
  pose proof (rev_rdigits_head 64 base (Z.abs n) Hb) as Hh. revert E Hh. generalize (rev (rdigits 64 base (Z.abs n))). intros t E Hh.
  destruct (Z.ltb_spec n 0); cbn [app read_number]; [lia|]. destruct t as [|c t]; [cbn in E |- *; lia|].
  destruct (decide (c = 45)) as [->|Hc]; [by edestruct Hh|]. unfold read_number. repeat case_match; try lia; congruence.
Qed.

Lemma print_number_length (base n : Z) : (length (print_number base n) <= 65)%nat.
Proof.
  unfold print_number. rewrite length_app, length_rev. pose proof (rdigits_length 64 base (Z.abs n)) as H. revert H.
  generalize (length (rdigits 64 base (Z.abs n))). intros m Hm. destruct (n <? 0); cbn [length]; lia.
Qed.

Section Numbers.
Variable garbage : Z.

Lemma append_number_text h (d : ptr) (n base : Z) : 2 <= base <= 36 -> in_s 64 n ->
appendNumberS64 garbage h d n base = appendReverse garbage h d (rev (print_number base n)).
Proof.
intros Hb Hn. unfold in_s in Hn. unfold appendNumberS64, append_number, print_number.
assert (u64 (if n <? 0 then s64 (- n) else n) = Z.abs n) as ->.
{ destruct (Z.ltb_spec n 0); [|rewrite uwrap_id by (unfold in_u; lia); lia].
  destruct (decide (n = - 2 ^ 63)) as [->|]; [done|]. rewrite (swrap_id 64), (uwrap_id 64) by (done || unfold in_s, in_u; lia). lia. }
rewrite (uwrap_id 64 base) by (unfold in_u; lia).
rewrite (digit_loop_ok 63) by (lia || (simpl; lia)). cbn [mbind res_bind app]. pose proof (rdigits_length 64 base (Z.abs n)) as Hl.
destruct (Z.ltb_spec n 0).
- destruct (Z.leb_spec (64 + 1) (Z.of_nat (length (rdigits 64 base (Z.abs n))))); [lia|]. by rewrite rev_app_distr, rev_involutive.
- by rewrite app_nil_l, rev_involutive.
Qed.

End Numbers.

#[global] Opaque print_number.

(** ** Trimming and searching *)

(** Without the spaces at the front and at the end. *)
Definition trim_bytes l : list Z := rev (skip_space (rev (skip_space l))).

Lemma alive_byte n (i : nat) (c : Z) : alive n -> bytes n !! i = Some c -> byte_at (buf n) (Z.of_nat i) = Ret c.
Proof.
  intros _ Hc. unfold bytes in Hc. apply byte_at_ok; [|lia]. rewrite Nat2Z.id. by apply lookup_take_Some in Hc as [? _].
Qed.

Lemma skip_spaces_ok n l1 l2 fuel : alive n -> bytes n = l1 ++ l2 -> (length l2 < fuel)%nat ->
  skip_spaces fuel n (Z.of_nat (length l1)) = Ret (Z.of_nat (length l1) + (Z.of_nat (length l2) - Z.of_nat (length (skip_space l2)))).
Proof.
  intros An. revert l1 fuel. induction l2 as [|c l2 IH]; intros l1 [|fuel] El Hf; try (simpl in Hf; lia); cbn [skip_spaces];
    destruct (alive_size n An) as (G1 & G2 & _); rewrite El, length_app in G2; cbn [length] in G2; destruct (Z.ltb_spec (Z.of_nat (length l1)) (size n)); try lia.
  - simpl. f_equal. lia.
  - rewrite (alive_byte n _ c) by (done || rewrite El; apply lookup_app_at). cbn [mbind res_bind skip_space]. destruct (isspace c).
    + replace (Z.of_nat (length l1) + 1) with (Z.of_nat (length (l1 ++ [c]))) by (rewrite length_app; simpl; lia).
      rewrite IH; [rewrite length_app; simpl; f_equal; lia|by rewrite <- app_assoc|simpl in Hf; lia].
    + f_equal. lia.
Qed.

Lemma trim_end_ok n l : alive n -> forall r fuel rest, bytes n = rev r ++ rest -> skip_space r <> [] -> (length r <= fuel)%nat ->
  trim_end fuel n (Z.of_nat (length r)) = Ret (Z.of_nat (length (skip_space r))).
Proof.
  intros An. induction r as [|c r IH]; intros [|fuel] rest Er Hr Hf; try done; try (simpl in Hf; lia). cbn [trim_end skip_space].
  replace (Z.of_nat (length (c :: r)) - 1) with (Z.of_nat (length r)) by (simpl; lia).
  rewrite (alive_byte n _ c); [|done|].
  2:{ rewrite Er. simpl rev. rewrite <- app_assoc, <- (length_rev r). apply lookup_app_at. }
  cbn [mbind res_bind]. simpl in Hr. destruct (isspace c); [|done].
  apply (IH _ (c :: rest)); [|done|simpl in Hf; lia]. rewrite Er. simpl. by rewrite <- app_assoc.
Qed.

Lemma skip_space_suffix l : exists q, l = q ++ skip_space l.
Proof.
  induction l as [|c l [q IH]]; [by exists []|]. simpl. destruct (isspace c); [|by exists []]. exists (c :: q). simpl. by rewrite <- IH.
Qed.

Lemma skip_space_app l1 l2 : skip_space l1 <> [] -> skip_space (l1 ++ l2) = skip_space l1 ++ l2.
Proof. induction l1 as [|c l1 IH]; simpl; [done|]. by destruct (isspace c). Qed.

Lemma skip_space_head l : skip_space l <> [] -> skip_space (rev (skip_space l)) <> [].
Proof.
  intros Hl. assert (exists c t, skip_space l = c :: t /\ isspace c = false) as (c & t & -> & Hc).
  { induction l as [|c l IH]; simpl in *; [done|]. destruct (isspace c) eqn:E; [by apply IH|by exists c, l]. }
  simpl. intros E. assert (forall k, skip_space (k ++ [c]) <> []) as H.
  { induction k as [|x k IH]; simpl; [by rewrite Hc|]. by destruct (isspace x). }
  by apply H in E.
Qed.

(** The part that [trimSpaces] takes. *)
Lemma trim_part l : let s := (length l - length (skip_space l))%nat in
  skip_space l <> [] -> trim_bytes l = take (length (skip_space (rev l)) - s) (drop s l) /\ (s <= length (skip_space (rev l)))%nat /\
  skip_space (rev l) <> [].
Proof.
  intros s Hl. pose proof (skip_space_head l Hl) as Ht. destruct (skip_space_suffix l) as [q Eq]. unfold trim_bytes.
  set (t := skip_space l) in *. assert (s = length q) as Es by (unfold s; rewrite Eq, length_app; lia).
  assert (skip_space (rev l) = skip_space (rev t) ++ rev q) as Er by (rewrite Eq, rev_app_distr; by apply skip_space_app).
  rewrite Er, length_app, length_rev, Es. split_and!; [|lia|by destruct (skip_space (rev t))].
  rewrite Nat.add_sub. assert (drop (length q) l = t) as -> by (rewrite Eq; apply drop_app_length).
  destruct (skip_space_suffix (rev t)) as [q2 Eq2]. assert (t = rev (skip_space (rev t)) ++ rev q2) as E3 by (by rewrite <- rev_app_distr, <- Eq2, rev_involutive).
  rewrite E3 at 3. rewrite <- (length_rev (skip_space (rev t))). by rewrite take_app_length.
Qed.

(** Where the bytes [x] occur in [l]. *)
Definition occurs l x (p : Z) : Prop := 0 <= p /\ p + Z.of_nat (length x) <= Z.of_nat (length l) /\ take (length x) (drop (Z.to_nat p) l) = x.

#[export] Instance occurs_dec l x p : Decision (occurs l x p).
Proof. unfold occurs. apply _. Defined.

Lemma peq_at_ok n (s : data) (pos : Z) : alive n -> alive s -> 0 <= pos -> pos + size s <= size n ->
  peq_at n s pos = Ret (bool_decide (occurs (bytes n) (bytes s) pos)).
Proof.
  intros An As H1 H2. destruct (alive_size n An) as (G1 & G2 & _), (alive_size s As) as (F1 & F2 & _). unfold peq_at.
  rewrite (alive_range n), (alive_bytes s) by (done || lia). cbn [mbind res_bind]. f_equal.
  apply eq_true_iff_eq. rewrite Z.eqb_eq, bool_decide_eq_true, pbcmp_eq by (rewrite length_take, length_drop; lia). unfold occurs.
  replace (Z.to_nat (size s)) with (length (bytes s)) by lia. split; [intros E|tauto]. split_and!; [done|lia|done].
Qed.

Lemma find_loop_S fuel n (s : data) (pos : Z) : find_loop (S fuel) n s pos =
  if size n <? u64 (pos + size s) then Ret (-1)
  else e ← peq_at n s pos; if e : bool then Ret pos else find_loop fuel n s (pos + 1).
Proof. done. Qed.

(** The first occurrence from [pos] on. *)
Lemma string_find_loop_ok n (s : data) : alive n -> alive s -> forall fuel pos, 0 <= pos -> pos + size s < 2 ^ 64 -> size n - pos + 1 < Z.of_nat (S fuel) ->
  exists p, find_loop (S fuel) n s pos = Ret p /\
    ((p = -1 /\ forall q, pos <= q -> ~ occurs (bytes n) (bytes s) q) \/
     (pos <= p /\ occurs (bytes n) (bytes s) p /\ forall q, pos <= q < p -> ~ occurs (bytes n) (bytes s) q)).
Proof.
  intros An As. destruct (alive_size n An) as (G1 & G2 & _), (alive_size s As) as (F1 & F2 & _).
  induction fuel as [|fuel IH]; intros pos H1 H2 Hf; rewrite find_loop_S;
    rewrite (uwrap_id 64) by (unfold in_u; lia);
    (destruct (Z.ltb_spec (size n) (pos + size s)); [exists (-1); split; [done|left; split; [done|]]; intros q Hq (_ & Hq2 & _); lia|]).
  - lia.
  - rewrite peq_at_ok by (done || lia). cbn [mbind res_bind]. case_bool_decide as E.
    + exists pos. split; [done|]. right. split_and!; [lia|done|lia].
    + destruct (IH (pos + 1)) as (p & Ep & Hp).
      { lia. } { lia. } { lia. } exists p. split; [exact Ep|].
      assert (forall q, pos <= q -> (pos + 1 <= q -> ~ occurs (bytes n) (bytes s) q) -> ~ occurs (bytes n) (bytes s) q) as Hq.
      { intros q Hq Hn. destruct (decide (q = pos)) as [->|]; [done|]. apply Hn. lia. }
      destruct Hp as [[-> Hp]|(Hp1 & Hp2 & Hp3)]; [left|right].
      * split; [done|]. intros q Hq1. apply Hq; auto.
      * split_and!; [lia|done|]. intros q Hq1. apply Hq; [lia|]. intros Hq2. apply Hp3. lia.
Qed.

(** The last occurrence before [pos]. *)
Lemma rfind_loop_ok n (s : data) : alive n -> alive s -> forall pos : nat, Z.of_nat pos + size s <= size n + 1 ->
  exists p, rfind_loop n s pos = Ret p /\
    ((p = -1 /\ forall q, q < Z.of_nat pos -> ~ occurs (bytes n) (bytes s) q) \/
     (p < Z.of_nat pos /\ occurs (bytes n) (bytes s) p /\ forall q, p < q < Z.of_nat pos -> ~ occurs (bytes n) (bytes s) q)).
Proof.
  intros An As. induction pos as [|pos IH]; intros H; cbn [rfind_loop].
  - exists (-1). split; [done|]. left. split; [done|]. intros q Hq (Hq1 & _). simpl in Hq. lia.
  - rewrite peq_at_ok by (done || lia). cbn [mbind res_bind]. case_bool_decide as E.
    + exists (Z.of_nat pos). split; [done|]. right. split_and!; [lia|done|lia].
    + destruct IH as (p & Ep & Hp); [lia|]. exists p. split; [exact Ep|].
      assert (forall q, q < Z.of_nat (S pos) -> (q < Z.of_nat pos -> ~ occurs (bytes n) (bytes s) q) -> ~ occurs (bytes n) (bytes s) q) as Hq.
      { intros q Hq Hn. destruct (decide (q = Z.of_nat pos)) as [->|]; [done|]. apply Hn. lia. }
      destruct Hp as [[-> Hp]|(Hp1 & Hp2 & Hp3)]; [left|right].
      * split; [done|]. intros q Hq1. apply Hq; auto.
      * split_and!; [lia|done|]. intros q Hq1. apply Hq; [lia|]. intros Hq2. apply Hp3. lia.
Qed.
