(* ===== verification/BStringSpec.v ===== *)
(** * Strings as values

    What a program that uses BString sees: strings are values, each a flag for
    null and its bytes. Every sequence of calls on string objects gives the
    results of the same calls on values, whatever blocks the objects share, and
    every block is owned and freed with its last owner. *)

From Stdlib Require Import String.
From S2P Require Import Prelude Machine CString Heap BString BStringRefs BStringOps BStringEdit BStringRead.

#[local] Abbreviation heap := (gmap addr data).
#[local] Abbreviation value := (bool * list Z)%type.

(** ** Programs *)

(** A call on the objects of a program, which are numbered. *)
Inductive op :=
| New (l : list Z)
| NewNull
| Copy (i : nat)
| Concat (i j : nat)
| Left (i k : nat)
| MidFrom (i k : nat)
| Mid (i k c : nat)
| Right (i k : nat)
| Assign (i j : nat)
| SetNull (i : nat)
| SetEmpty (i : nat)
| Set_ (i : nat) (l : list Z)
| Append (i j : nat)
| AppendBytes (i : nat) (l : list Z)
| AppendReverse (i : nat) (l : list Z)
| AppendNumber (i : nat) (n base : Z)
| RemoveLeft (i k : nat)
| RemoveMidFrom (i k : nat)
| RemoveMid (i k c : nat)
| RemoveRight (i k : nat)
| Trim (i : nat)
| Destroy (i : nat)
| Equal (i j : nat)
| Compare (i j : nat)
| HashOf (i : nat)
| Get (i : nat).

Definition obj (objs : list ptr) (i : nat) : res ptr := match objs !! i with Some d => Ret d | None => Crash OutOfBounds end.

(** A call that makes an object, and one that changes an object. *)
Definition make (objs : list ptr) (m : res (heap * ptr)) : res (heap * list ptr * list Z) :=
  hd ← m; Ret (fst hd, objs ++ [snd hd], []).
Definition change (objs : list ptr) (i : nat) (m : ptr -> res (heap * ptr)) : res (heap * list ptr * list Z) :=
  d ← obj objs i; hd ← m d; Ret (fst hd, <[i := snd hd]> objs, []).
Definition observe (objs : list ptr) (m : res (list Z * heap)) : res (heap * list ptr * list Z) :=
  rh ← m; Ret (snd rh, objs, fst rh).

Definition run_op (g : Z) (o : op) (h : heap) (objs : list ptr) : res (heap * list ptr * list Z) :=
  match o with
  | New l => make objs (initLen g h l)
  | NewNull => make objs (initS h (Some s_null))
  | Copy i => make objs (d ← obj objs i; initS h d)
  | Concat i j => make objs (d ← obj objs i; s ← obj objs j; concat g h d s)
  | Left i k => make objs (d ← obj objs i; left g h d (Z.of_nat k))
  | MidFrom i k => make objs (d ← obj objs i; mid_from g h d (Z.of_nat k))
  | Mid i k c => make objs (d ← obj objs i; mid g h d (Z.of_nat k) (Z.of_nat c))
  | Right i k => make objs (d ← obj objs i; right g h d (Z.of_nat k))
  | Assign i j => change objs i (fun d => s ← obj objs j; assign h d s)
  | SetNull i => change objs i (setNull h)
  | SetEmpty i => change objs i (setEmpty h)
  | Set_ i l => change objs i (fun d => copyLen g h d l)
  | Append i j => change objs i (fun d => s ← obj objs j; append g h d s)
  | AppendBytes i l => change objs i (fun d => appendLen g h d l)
  | AppendReverse i l => change objs i (fun d => appendReverse g h d l)
  | AppendNumber i n base => change objs i (fun d => appendNumberS64 g h d n base)
  | RemoveLeft i k => change objs i (fun d => removeLeft g h d (Z.of_nat k))
  | RemoveMidFrom i k => change objs i (fun d => removeMid_from g h d (Z.of_nat k))
  | RemoveMid i k c => change objs i (fun d => removeMid g h d (Z.of_nat k) (Z.of_nat c))
  | RemoveRight i k => change objs i (fun d => removeRight g h d (Z.of_nat k))
  | Trim i => change objs i (trimSpaces g h)
  | Destroy i => d ← obj objs i; h ← unrefDg h d; Ret (h, delete i objs, [])
  | Equal i j => observe objs (d ← obj objs i; s ← obj objs j; r ← beq h d s; Ret ([Z.b2z (fst r)], snd r))
  | Compare i j => observe objs (d ← obj objs i; s ← obj objs j; r ← bcmp h d s; Ret ([Z.sgn r], h))
  | HashOf i => observe objs (d ← obj objs i; r ← getHash h d; Ret ([fst r], snd r))
  | Get i => observe objs (d ← obj objs i; b ← isNull h d; n ← getSize h d; l ← str_range h d 0 n; Ret (Z.b2z b :: l, h))
  end.

Fixpoint run_ops (g : Z) (ops : list op) (h : heap) (objs : list ptr) : res (heap * list ptr * list (list Z)) :=
  match ops with
  | [] => Ret (h, objs, [])
  | o :: ops =>
    r ← run_op g o h objs;
    let '(h, objs, out) := r in
    r ← run_ops g ops h objs;
    let '(h, objs, outs) := r in
    Ret (h, objs, out :: outs)
  end.

(** ** The same calls on values *)

Definition bytes_of (l : list Z) : value := (false, l).

Definition spec_op (o : op) (vs : list value) : option (list value * list Z) :=
  let push v := Some (vs ++ [v], []) in
  let set i v := Some (<[i := v]> vs, []) in
  match o with
  | New l => push (bytes_of l)
  | NewNull => push (true, [])
  | Copy i => v ← vs !! i; push v
  | Concat i j => v ← vs !! i; w ← vs !! j;
    push (if decide (v.2 = []) then w else if decide (w.2 = []) then v else bytes_of (v.2 ++ w.2))
  | Left i k => v ← vs !! i; push (if decide (length v.2 < k)%nat then v else bytes_of (take k v.2))
  | MidFrom i k => v ← vs !! i; push (bytes_of (drop k v.2))
  | Mid i k c => v ← vs !! i; push (bytes_of (take c (drop k v.2)))
  | Right i k => v ← vs !! i; push (if decide (length v.2 <= k)%nat then v else bytes_of (drop (length v.2 - k) v.2))
  | Assign i j => _ ← vs !! i; w ← vs !! j; set i w
  | SetNull i => _ ← vs !! i; set i (true, [])
  | SetEmpty i => _ ← vs !! i; set i (bytes_of [])
  | Set_ i l => _ ← vs !! i; set i (bytes_of l)
  | Append i j => v ← vs !! i; w ← vs !! j;
    if decide (i = j) then None
    else set i (if decide (w.2 = []) then v else if decide (v.2 = []) then w else bytes_of (v.2 ++ w.2))
  | AppendBytes i l => v ← vs !! i; set i (if decide (l = []) then v else bytes_of (v.2 ++ l))
  | AppendReverse i l => v ← vs !! i; set i (if decide (l = []) then v else bytes_of (v.2 ++ rev l))
  | AppendNumber i n base => v ← vs !! i;
    if decide (in_s 64 n /\ 2 <= base <= 36) then set i (bytes_of (v.2 ++ print_number base n)) else None
  | RemoveLeft i k => v ← vs !! i; set i (if decide (k = 0)%nat then v else bytes_of (drop k v.2))
  | RemoveMidFrom i k => v ← vs !! i; set i (bytes_of (take k v.2))
  | RemoveMid i k c => v ← vs !! i; set i (bytes_of (take k v.2 ++ drop (k + c) v.2))
  | RemoveRight i k => v ← vs !! i; set i (bytes_of (take (length v.2 - k) v.2))
  | Trim i => v ← vs !! i; set i (bytes_of (trim_bytes v.2))
  | Destroy i => _ ← vs !! i; Some (delete i vs, [])
  | Equal i j => v ← vs !! i; w ← vs !! j; Some (vs, [Z.b2z (bool_decide (v.2 = w.2))])
  | Compare i j => v ← vs !! i; w ← vs !! j; Some (vs, [cmp_value v w])
  | HashOf i => v ← vs !! i; Some (vs, [hash_value v.2])
  | Get i => v ← vs !! i; Some (vs, Z.b2z v.1 :: v.2)
  end.

(** Sizes and numbers of objects that the memory of the machine holds. *)
Definition fits (vs : list value) : bool :=
  (Z.of_nat (length vs) <? 2 ^ 61) && forallb (fun v : value => Z.of_nat (length v.2) <? 2 ^ 62) vs.

Fixpoint spec_ops (ops : list op) (vs : list value) : option (list value * list (list Z)) :=
  match ops with
  | [] => Some (vs, [])
  | o :: ops =>
    r ← spec_op o vs;
    if fits (fst r) then rs ← spec_ops ops (fst r); Some (fst rs, snd r :: snd rs) else None
  end.

(** The objects of a program, none of them invalid. *)
Definition shows (h : heap) (objs : list ptr) (vs : list value) : Prop :=
  exists la, objs = Some <$> la /\ rep h la vs /\ Z.of_nat (length vs) < 2 ^ 61.

Section Refinement.
Variable g : Z.
Implicit Types (h : heap) (la : list addr) (v w : value) (vs : list value).

Lemma fits_length vs : fits vs = true -> Z.of_nat (length vs) < 2 ^ 61.
Proof. unfold fits. rewrite andb_true_iff, Z.ltb_lt. tauto. Qed.

Lemma fits_elem vs v : fits vs = true -> v ∈ vs -> Z.of_nat (length v.2) < 2 ^ 62.
Proof.
unfold fits. rewrite andb_true_iff, forallb_forall. intros [_ H] Hv. apply Z.ltb_lt, H. by apply list_elem_of_In.
Qed.

Lemma fits_push vs v : fits (vs ++ [v]) = true -> Z.of_nat (length v.2) < 2 ^ 62.
Proof. intros H. apply (fits_elem _ _ H). apply elem_of_app. right. by apply list_elem_of_singleton. Qed.

Lemma fits_set vs i v w : fits (<[i := v]> vs) = true -> vs !! i = Some w -> Z.of_nat (length v.2) < 2 ^ 62.
Proof. intros H Hi. apply (fits_elem _ _ H). eapply list_elem_of_lookup_2, list_lookup_insert_eq. by eapply lookup_lt_Some. Qed.

Lemma rep_length h la vs : rep h la vs -> length la = length vs.
Proof. intros [_ H]. by eapply Forall2_length. Qed.

Lemma obj_some la i d : la !! i = Some d -> obj (Some <$> la) i = Ret (Some d).
Proof. intros H. unfold obj. by rewrite list_lookup_fmap, H. Qed.

(** What is to be shown of a call. *)
Definition shows_result (r : res (heap * list ptr * list Z)) vs (out : list Z) : Prop :=
exists h objs, r = Ret (h, objs, out) /\ shows h objs vs.

Lemma make_ok h la vs m v : pushes h la vs m v -> fits (vs ++ [v]) = true -> shows_result (make (Some <$> la) m) (vs ++ [v]) [].
Proof.
intros (a & h' & -> & Hr) Hf. exists h', (Some <$> (la ++ [a])). split; [unfold make; simpl; by rewrite fmap_app|].
exists (la ++ [a]). split_and!; [done|done|by apply fits_length].
Qed.

Lemma change_ok h la vs i d m v : la !! i = Some d -> sets h la vs i (m (Some d)) v -> fits (<[i := v]> vs) = true ->
shows_result (change (Some <$> la) i m) (<[i := v]> vs) [].
Proof.
intros Hd (a & h' & E & Hr) Hf. exists h', (Some <$> <[i := a]> la).
split; [unfold change; rewrite (obj_some _ _ _ Hd); cbn [mbind res_bind]; rewrite E; simpl; by rewrite list_fmap_insert|].
exists (<[i := a]> la). split_and!; [done|done|by apply fits_length].
Qed.

Lemma observe_ok h la vs m out h' : m = Ret (out, h') -> rep h' la vs -> fits vs = true -> shows_result (observe (Some <$> la) m) vs out.
Proof. intros -> Hr Hf. exists h', (Some <$> la). split; [done|]. exists la. split_and!; [done|done|by apply fits_length]. Qed.

Lemma destroy_ok h la vs i d : rep h la vs -> la !! i = Some d ->
exists h', unrefDg h (Some d) = Ret h' /\ rep h' (delete i la) (delete i vs).
Proof.
intros [Hwf Hv] Hd. destruct (insert_perm la i d d Hd) as [_ Hp].
destruct (unref_ok h (delete i la) d) as (h' & E & Hwf' & Hk); [by eapply wf_perm|]. exists h'. split; [done|]. split; [done|].
eapply (rep_keep h); [exact Hk|auto|]. by apply Forall2_delete.
Qed.

Lemma delete_last {A} (l : list A) i x y : (i < length l)%nat -> delete (length l) (<[i := x]> (l ++ [y])) = <[i := x]> l.
Proof.
intros H. rewrite insert_app_l by done. rewrite <- (length_insert l i x). generalize (<[i := x]> l). intros k.
induction k as [|z k IH]; simpl; [done|]. by f_equal.
Qed.

Lemma doref_pointer h d s r : i_setDoref h d s = Ret r -> r.2 = s.
Proof.
unfold i_setDoref. destruct (inc h s) as [h1| | |]; cbn [mbind res_bind]; try done.
destruct (unrefDg h1 d); cbn [mbind res_bind]; try done. by intros [= <-].
Qed.

Lemma sets_trim h la vs i v : rep h la vs -> Z.of_nat (S (S (length la))) < 2 ^ 62 -> vs !! i = Some v ->
exists d, la !! i = Some d /\ sets h la vs i (trimSpaces g h (Some d)) (bytes_of (trim_bytes v.2)).
Proof.
intros Hr Hc Hi. destruct (rep_object h la vs i v Hr Hi) as (d & n & Hd & Hn & An & Tn & _). exists d. split; [done|].
apply text_bytes in Tn as [Bn _]. destruct (alive_size n An) as (G1 & G2 & _). rewrite Bn in G2. unfold trimSpaces.
pose proof (skip_spaces_ok n [] v.2 (S (Z.to_nat (size n))) An Bn ltac:(lia)) as Esk. simpl (Z.of_nat (length [])) in Esk.
set (s := (length v.2 - length (skip_space v.2))%nat). pose proof (length_skip_space v.2) as Hs.
rewrite (load_ok _ _ _ Hn). cbn [mbind res_bind]. change (Z.of_nat 0) with 0 in Esk. rewrite Esk. cbn [mbind res_bind].
replace (0 + (Z.of_nat (length v.2) - _)) with (Z.of_nat s) by (unfold s; lia).
assert (forall e : nat, (s <= e)%nat -> bytes_of (take (e - s) (drop s v.2)) = bytes_of (trim_bytes v.2) ->
  sets h la vs i (r ← mid g h (Some d) (Z.of_nat s) (Z.of_nat e - Z.of_nat s);
    hd ← assign r.1 (Some d) r.2; h0 ← unrefDg hd.1 r.2; Ret (h0, hd.2)) (bytes_of (trim_bytes v.2))) as K.
{ intros e He <-. destruct (pushes_mid g h la vs i v Hr ltac:(lia) Hi s (e - s)) as (d' & Hd' & a & h1 & E & Hr1).
  rewrite Hd in Hd'. injection Hd' as <-.
  replace (Z.of_nat e - Z.of_nat s) with (Z.of_nat (e - s)) by lia. rewrite E. cbn [mbind res_bind fst snd].
  assert (length (la ++ [a]) = S (length la)) as El by (rewrite length_app; simpl; lia). apply rep_length in Hr as Hl.
  destruct (sets_assign h1 (la ++ [a]) (vs ++ [bytes_of (take (e - s) (drop s v.2))]) i (length la) d a (bytes_of (take (e - s) (drop s v.2))))
    as (a2 & h2 & E2 & Hr2); [done|rewrite El; lia|by rewrite lookup_app_l by (by eapply lookup_lt_Some)|apply lookup_app_at|rewrite Hl; apply lookup_app_at|].
  unfold assign. rewrite E2. apply doref_pointer in E2. simpl in E2. injection E2 as ->. cbn [mbind res_bind fst snd].
  assert (i < length la)%nat as Hil by (by eapply lookup_lt_Some).
  destruct (destroy_ok h2 _ _ (length la) a Hr2) as (h3 & E3 & Hr3).
  { rewrite list_lookup_insert_ne by lia. apply lookup_app_at. }
  rewrite E3. cbn [mbind res_bind]. exists a, h3. split; [done|]. rewrite delete_last in Hr3 by done.
  rewrite Hl, delete_last in Hr3 by lia. done. }
destruct (Z.eqb_spec (Z.of_nat s) (size n)) as [E|E].
- cbn [mbind res_bind]. assert (skip_space v.2 = []) as E0 by (apply length_zero_iff_nil; lia).
  apply K; [done|]. unfold trim_bytes. by rewrite E0, Nat.sub_diag.
- destruct (trim_part v.2) as (T1 & T2 & T3); [intros E0; unfold s in E; rewrite E0 in E; simpl in E; lia|]. fold s in T1, T2.
  rewrite <- G2. rewrite <- (length_rev v.2). rewrite (trim_end_ok n v.2 An (rev v.2) _ []); [|by rewrite rev_involutive, app_nil_r|done|rewrite length_rev; lia].
  cbn [mbind res_bind]. apply K; [done|]. by rewrite T1.
Qed.

Lemma initS_ref h d : initS h d = new_string (refDg h d).
Proof. unfold initS, refDg, new_string. by destruct (inc h d). Qed.

(** The object of an operation and what is known of the call. *)
Local Ltac object H := let d := fresh "d" in let Hd := fresh "Hd" in
destruct H as (d & Hd & H); rewrite (obj_some _ _ _ Hd); cbn [mbind res_bind].
Local Ltac value Hs v Hv := apply bind_Some in Hs as (v & Hv & Hs).

(** A result of two pieces that is too long is not made. *)
Local Ltac too_long v w :=
destruct v as [? ?]; try destruct w as [? ?]; simpl in *; repeat case_decide; subst; simpl in *; rewrite ?length_app, ?length_rev in *; simpl in *; lia.

Definition makes_object (o : op) : bool :=
match o with New _ | NewNull | Copy _ | Concat _ _ | Left _ _ | MidFrom _ _ | Mid _ _ _ | Right _ _ => true | _ => false end.

Lemma run_make_ok o h la vs vs' out : rep h la vs -> Z.of_nat (length vs) < 2 ^ 61 -> makes_object o = true ->
spec_op o vs = Some (vs', out) -> fits vs' = true -> shows_result (run_op g o h (Some <$> la)) vs' out.
Proof.
intros Hr Hc Ho Hs Hf. pose proof (rep_length _ _ _ Hr) as Hl. assert (Z.of_nat (S (length la)) < 2 ^ 62) as Hc' by lia.
pose proof Hr as [Hwf _]. destruct o; try done; cbn [spec_op run_op] in *.
- injection Hs as <- <-. apply (make_ok h); [|done]. apply (makes_push h); [done|]. apply makes_create; [done|by apply fits_push in Hf|done].
- injection Hs as <- <-. apply (make_ok h); [|done]. rewrite initS_ref. destruct (txt_null h la Hwf). by apply pushes_ref.
- value Hs v Hv. injection Hs as <- <-. destruct (rep_object h la vs i v Hr Hv) as (d & n & Hd & Hn & _ & _ & Ht).
  rewrite (obj_some _ _ _ Hd). cbn [mbind res_bind]. apply (make_ok h); [|done]. rewrite initS_ref. by apply pushes_ref.
- value Hs v Hv. value Hs w Hw. injection Hs as <- <-.
  destruct (Z.lt_ge_cases (Z.of_nat (length v.2 + length w.2)) (2 ^ 62)) as [Hlt|Hge].
  + destruct (pushes_concat g h la vs i j v w Hr Hc' Hv Hw Hlt) as (d & s & Hd & Hd' & K).
    rewrite (obj_some _ _ _ Hd), (obj_some _ _ _ Hd'). cbn [mbind res_bind]. by apply (make_ok h).
  + apply fits_push in Hf. too_long v w.
- value Hs v Hv. injection Hs as <- <-. pose proof (pushes_left g h la vs i v Hr Hc' Hv k) as K. object K. by apply (make_ok h).
- value Hs v Hv. injection Hs as <- <-. pose proof (pushes_mid_from g h la vs i v Hr Hc' Hv k) as K. object K. by apply (make_ok h).
- value Hs v Hv. injection Hs as <- <-. pose proof (pushes_mid g h la vs i v Hr Hc' Hv k c) as K. object K. by apply (make_ok h).
- value Hs v Hv. injection Hs as <- <-. pose proof (pushes_right g h la vs i v Hr Hc' Hv k) as K. object K. by apply (make_ok h).
Qed.

Definition changes_object (o : op) : bool :=
match o with
| Assign _ _ | SetNull _ | SetEmpty _ | Set_ _ _ | Append _ _ | AppendBytes _ _ | AppendReverse _ _ | AppendNumber _ _ _
| RemoveLeft _ _ | RemoveMidFrom _ _ | RemoveMid _ _ _ | RemoveRight _ _ | Trim _ => true
| _ => false
end.

Lemma run_change_ok o h la vs vs' out : rep h la vs -> Z.of_nat (length vs) < 2 ^ 61 -> changes_object o = true -> fits vs = true ->
spec_op o vs = Some (vs', out) -> fits vs' = true -> shows_result (run_op g o h (Some <$> la)) vs' out.
Proof.
intros Hr Hc Ho Hf0 Hs Hf. pose proof (rep_length _ _ _ Hr) as Hl. assert (Z.of_nat (S (S (length la))) < 2 ^ 62) as Hc2 by lia.
assert (Z.of_nat (S (length la)) < 2 ^ 62) as Hc' by lia. pose proof Hr as [Hwf _].
assert (forall i d m v, la !! i = Some d -> sets h la vs i (m (Some d)) v -> fits (<[i := v]> vs) = true ->
  shows_result (change (Some <$> la) i m) (<[i := v]> vs) []) as K by (by intros; eapply change_ok).
destruct o; try done; cbn [spec_op run_op] in *; value Hs v Hv.
- value Hs w Hw. injection Hs as <- <-. destruct (rep_object h la vs i v Hr Hv) as (d & _ & Hd & _).
  destruct (rep_object h la vs j w Hr Hw) as (s & _ & Hd' & _). apply (K i d); [done| |done].
  rewrite (obj_some _ _ _ Hd'). cbn [mbind res_bind]. by eapply sets_assign.
- injection Hs as <- <-. destruct (rep_object h la vs i v Hr Hv) as (d & _ & Hd & _). apply (K i d); [done| |done].
  unfold setNull. rewrite doref_noref. apply (set_noref h); [done| |done]. destruct (txt_null h la Hwf). by apply makes_ref.
- injection Hs as <- <-. destruct (rep_object h la vs i v Hr Hv) as (d & _ & Hd & _). apply (K i d); [done| |done].
  unfold setEmpty. rewrite doref_noref. apply (set_noref h); [done| |done]. by apply makes_zero.
- injection Hs as <- <-. destruct (rep_object h la vs i v Hr Hv) as (d & _ & Hd & _). apply (K i d); [done| |done].
  apply (set_noref h); [done| |done]. apply makes_create; [done|by apply (fits_set _ _ _ _ Hf Hv)|done].
- value Hs w Hw. case_decide as Hij; [done|]. injection Hs as <- <-.
  destruct (Z.lt_ge_cases (Z.of_nat (length v.2 + length w.2)) (2 ^ 62)) as [Hlt|Hge].
  + destruct (sets_append g h la vs i j v w Hr Hc' Hij Hv Hw Hlt) as (d & s & Hd & Hd' & S).
    apply (K i d); [done| |done]. by rewrite (obj_some _ _ _ Hd').
  + pose proof (fits_elem vs v Hf0 ltac:(by eapply list_elem_of_lookup_2)). pose proof (fits_elem vs w Hf0 ltac:(by eapply list_elem_of_lookup_2)).
    pose proof (fits_set _ _ _ _ Hf Hv) as Hx. too_long v w.
- injection Hs as <- <-. destruct (Z.lt_ge_cases (Z.of_nat (length v.2 + length l)) (2 ^ 62)) as [Hlt|Hge].
  + destruct (sets_appendLen g h la vs i v l Hr Hv Hlt) as (d & Hd & S). by apply (K i d).
  + pose proof (fits_elem vs v Hf0 ltac:(by eapply list_elem_of_lookup_2)).
    pose proof (fits_set _ _ _ _ Hf Hv) as Hx. too_long v v.
- injection Hs as <- <-. destruct (Z.lt_ge_cases (Z.of_nat (length v.2 + length l)) (2 ^ 62)) as [Hlt|Hge].
  + destruct (sets_appendReverse g h la vs i v l Hr Hc' Hv Hlt) as (d & Hd & S). by apply (K i d).
  + pose proof (fits_elem vs v Hf0 ltac:(by eapply list_elem_of_lookup_2)).
    pose proof (fits_set _ _ _ _ Hf Hv) as Hx. too_long v v.
- case_decide as Hb; [|done]. injection Hs as <- <-. destruct Hb as [Hn Hb]. pose proof (fits_set _ _ _ _ Hf Hv) as Hx. simpl in Hx. rewrite length_app in Hx.
  destruct (sets_appendReverse g h la vs i v (rev (print_number base n)) Hr Hc' Hv) as (d & Hd & S); [rewrite length_rev; lia|].
  apply (K i d); [exact Hd| |exact Hf]. rewrite append_number_text by done. rewrite decide_False, rev_involutive in S; [exact S|].
  intros E. apply (f_equal (@rev Z)) in E. rewrite rev_involutive in E. by apply print_number_nonempty in E.
- injection Hs as <- <-. destruct (sets_removeLeft g h la vs i v Hr Hc' Hv k) as (d & Hd & S). by apply (K i d).
- injection Hs as <- <-. destruct (sets_removeMid_from g h la vs i v Hr Hc' Hv k) as (d & Hd & S). by apply (K i d).
- injection Hs as <- <-. destruct (sets_removeMid g h la vs i v Hr Hc' Hv k c) as (d & Hd & S). by apply (K i d).
- injection Hs as <- <-. destruct (sets_removeRight g h la vs i v Hr Hc' Hv k) as (d & Hd & S). by apply (K i d).
- injection Hs as <- <-. destruct (sets_trim h la vs i v Hr Hc2 Hv) as (d & Hd & S). by apply (K i d).
Qed.

Lemma run_call_ok o h objs vs vs' out : shows h objs vs -> fits vs = true -> spec_op o vs = Some (vs', out) -> fits vs' = true ->
shows_result (run_op g o h objs) vs' out.
Proof.
intros (la & -> & Hr & Hc) Hf0 Hs Hf. destruct (makes_object o) eqn:E1; [by eapply run_make_ok|].
destruct (changes_object o) eqn:E2; [by eapply run_change_ok|]. destruct o; try done; cbn [spec_op run_op] in *; value Hs v Hv.
- injection Hs as <- <-. destruct (rep_object h la vs i v Hr Hv) as (d & _ & Hd & _). rewrite (obj_some _ _ _ Hd). cbn [mbind res_bind].
  destruct (destroy_ok h la vs i d Hr Hd) as (h' & E & Hr'). rewrite E. cbn [mbind res_bind].
  exists h', (Some <$> delete i la). split; [by rewrite list_fmap_delete|]. exists (delete i la). split_and!; [done|done|by apply fits_length].
- value Hs w Hw. injection Hs as <- <-. destruct (beq_ok h la vs i j v w Hr Hv Hw) as (d & s & h' & Hd & Hs & E & Hr').
  apply (observe_ok h' la vs _ _ h'); [|done|done]. rewrite (obj_some _ _ _ Hd), (obj_some _ _ _ Hs). cbn [mbind res_bind]. by rewrite E.
- value Hs w Hw. injection Hs as <- <-. destruct (bcmp_ok h la vs i j v w Hr Hv Hw) as (d & s & r & Hd & Hs & E & Hx).
  apply (observe_ok h la vs _ _ h); [|done|done]. rewrite (obj_some _ _ _ Hd), (obj_some _ _ _ Hs). cbn [mbind res_bind]. rewrite E.
  cbn [mbind res_bind]. by rewrite Hx.
- injection Hs as <- <-. destruct (rep_object h la vs i v Hr Hv) as (d & n & Hd & Hn & An & Tn & _). apply text_bytes in Tn as [Bn _].
  apply (observe_ok h la vs _ _ (<[d := with_hash n (hash_value (bytes n))]> h)); [|by apply hash_rep|done]. rewrite (obj_some _ _ _ Hd). cbn [mbind res_bind].
  rewrite (getHash_ok h la vs d n Hr Hn). cbn [mbind res_bind fst snd]. by rewrite Bn.
- injection Hs as <- <-. destruct (rep_object h la vs i v Hr Hv) as (d & n & Hd & Hn & An & Tn & _). apply text_bytes in Tn as [Bn Nn].
  apply (observe_ok h la vs _ _ h); [|done|done]. rewrite (obj_some _ _ _ Hd). cbn [mbind res_bind].
  unfold isNull, getCont, getSize, str_range. rewrite !(load_ok _ _ _ Hn). cbn [mbind res_bind]. rewrite (alive_bytes n An). cbn [mbind res_bind].
  rewrite Bn, <- Nn.
  assert (((if 0 <? al n then 1 else al n) <? 0) = (al n <? 0)) as -> by (destruct (Z.ltb_spec 0 (al n)); ztest). done.
Qed.

End Refinement.
