(* ===== verification/BStringProperties.v ===== *)
(** * Properties of BString

    Programs that use strings see values; blocks are counted and freed; numbers
    are printed and searches are made as they should be; and the uses of a
    string that go wrong. *)

From Stdlib Require Import String.
From S2P Require Import Prelude Machine CString Heap BString BStringRefs BStringOps BStringEdit BStringRead BStringSpec.

#[local] Abbreviation heap := (gmap addr data).
#[local] Abbreviation value := (bool * list Z)%type.
Implicit Types (h : heap) (vs : list value) (ops : list op) (outs : list (list Z)).

(** ** Programs *)

Lemma shows_start : shows statics [] [].
Proof. exists []. split_and!; [done|split; [apply statics_wf|constructor]|done]. Qed.

Lemma run_calls_ok g ops : forall h objs vs vs' outs, shows h objs vs -> fits vs = true -> spec_ops ops vs = Some (vs', outs) ->
  exists h' objs', run_ops g ops h objs = Ret (h', objs', outs) /\ shows h' objs' vs'.
Proof.
  induction ops as [|o ops IH]; intros h objs vs vs' outs Hs Hf E.
  - injection E as <- <-. by exists h, objs.
  - cbn [spec_ops] in E. apply bind_Some in E as ([vs1 out] & E1 & E). cbn [fst snd] in E. destruct (fits vs1) eqn:Hf1; [|done].
    apply bind_Some in E as ([vs2 outs2] & E2 & E). injection E as <- <-.
    destruct (run_call_ok g o h objs vs vs1 out Hs Hf E1 Hf1) as (h1 & objs1 & R1 & Hs1).
    destruct (IH h1 objs1 vs1 vs2 outs2 Hs1 Hf1 E2) as (h2 & objs2 & R2 & Hs2).
    exists h2, objs2. cbn [run_ops]. rewrite R1. cbn [mbind res_bind]. by rewrite R2.
Qed.

Lemma start_ok g ops vs outs : spec_ops ops [] = Some (vs, outs) ->
  exists h objs, run_ops g ops statics [] = Ret (h, objs, outs) /\ shows h objs vs.
Proof. intros E. by apply (run_calls_ok g ops statics [] [] vs outs shows_start). Qed.

Lemma shows_object h objs vs i v : shows h objs vs -> vs !! i = Some v ->
  exists d n, objs !! i = Some (Some d) /\ h !! d = Some n /\ alive n /\ text n = v.
Proof.
  intros (la & -> & Hr & _) Hi. destruct (rep_object h la vs i v Hr Hi) as (d & n & Hd & Hn & An & Tn & _). exists d, n.
  by rewrite list_lookup_fmap, Hd.
Qed.

(** How many of the objects use the block [a]. *)
Definition users (objs : list ptr) (a : addr) : nat := count_occ (decide_rel (=)) objs (Some a).

Lemma users_cnt (la : list addr) a : Z.of_nat (users (Some <$> la) a) = cnt a la.
Proof.
  unfold users. induction la as [|b la IH]; [done|]. rewrite fmap_cons. cbn [cnt count_occ]. unfold decide_rel at 1.
  destruct (decide (b = a)) as [->|Hb]; [destruct (option_eq_dec (Some a) (Some a))|destruct (option_eq_dec (Some b) (Some a))]; try congruence; lia.
Qed.

(** C8. A program of calls on strings (construction from bytes, copies, parts,
    concatenation, assignment, appending, printing numbers, removing, trimming,
    destruction, equality, order, hash) gives the results of the same calls on
    values: sharing of blocks, reference counts and cached hashes do not show.
    In the end every object has the null flag and the bytes of its value. It holds
    of every program whose calls [spec_ops] gives a value, which is all but those
    that append a string to itself (which reads a block that was freed, as is shown
    below), print a number outside 64 bits or in a base outside 2..36, name an
    object that is not there, or make a string of 2^62 bytes or 2^61 objects. *)
Theorem strings_are_values g ops vs outs : spec_ops ops [] = Some (vs, outs) ->
  exists h objs, run_ops g ops statics [] = Ret (h, objs, outs) /\ length objs = length vs /\
    forall i v, vs !! i = Some v -> exists d n, objs !! i = Some (Some d) /\ h !! d = Some n /\ text n = v.
Proof.
  intros E. destruct (start_ok g ops vs outs E) as (h & objs & R & Hs). exists h, objs. split_and!; [done| |].
  - destruct Hs as (la & -> & Hr & _). rewrite length_fmap. by eapply rep_length.
  - intros i v Hi. destruct (shows_object h objs vs i v Hs Hi) as (d & n & H1 & H2 & _ & H4). by exists d, n.
Qed.

Definition demo : list op := [New (chars "ab"); Copy 0; AppendBytes 1 (chars "cd"); AppendNumber 0 (-70) 16; Concat 1 0; RemoveMid 2 1 2;
  Equal 0 1; Compare 0 1; HashOf 2; Get 2; Destroy 1; Get 0].

Lemma strings_are_values_witness : exists h objs,
  run_ops 7 demo statics [] = Ret (h, objs, [[]; []; []; []; []; []; [0]; [-1]; [4643144848]; 0 :: chars "adab-46"; []; 0 :: chars "ab-46"]) /\ length objs = 2%nat /\
  forall i v, [(false, chars "ab-46"); (false, chars "adab-46")] !! i = Some v -> exists d n, objs !! i = Some (Some d) /\ h !! d = Some n /\ text n = v.
Proof. apply (strings_are_values 7 demo [(false, chars "ab-46"); (false, chars "adab-46")]). vm_compute. reflexivity. Defined.

(** C16. After any program of calls that has a value in [spec_ops] (all but the
    calls that append a string to itself, print numbers outside 64 bits or bases
    2..36, or exceed the sizes of memory) every block that is not static belongs to
    an object, counts its other owners, has room for exactly its bytes and the zero
    that ends them, and holds no wrong hash; without objects no block is left. *)
Theorem blocks_are_owned g ops vs outs : spec_ops ops [] = Some (vs, outs) ->
  exists h objs, run_ops g ops statics [] = Ret (h, objs, outs) /\ (vs = [] -> dom h = {[ s_null; s_zero ]}) /\
    forall a n, h !! a = Some n -> a <> s_null -> a <> s_zero ->
      refcnt n + 1 = Z.of_nat (users objs a) /\ (0 < users objs a)%nat /\ al n = size n + 1 /\
      buf n !! Z.to_nat (size n) = Some 0 /\ (hash n = -1 \/ hash n = hash_value (bytes n)).
Proof.
  intros E. destruct (start_ok g ops vs outs E) as (h & objs & R & la & -> & [Hwf Hv] & _). exists h, (Some <$> la).
  split; [done|]. pose proof Hwf as [(h1 & E1 & _) (h2 & E2 & _) H3 _ _].
  split.
  - intros ->. apply Forall2_nil_inv_r in Hv as ->. apply set_eq. intros a. rewrite elem_of_dom, elem_of_union, !elem_of_singleton. split.
    + intros [n Ha]. destruct (decide (a = s_null)); [auto|]. destruct (decide (a = s_zero)); [auto|].
      destruct (H3 a n Ha) as (_ & C & P); [done|done|]. simpl in C. lia.
    + intros [-> | ->]; by eexists.
  - intros a n Ha Ha1 Ha2. pose proof (users_cnt la a). destruct (H3 a n Ha Ha1 Ha2) as ([B1 B2 B3 B4 B5] & C & P).
    split_and!; (done || lia).
Qed.

Lemma blocks_are_owned_witness : exists h objs,
  run_ops 7 [New (chars "ab"); Copy 0; AppendBytes 1 (chars "c"); Destroy 0; Destroy 0] statics [] = Ret (h, objs, [[]; []; []; []; []]) /\
  (@nil value = [] -> dom h = {[ s_null; s_zero ]}) /\
    forall a n, h !! a = Some n -> a <> s_null -> a <> s_zero ->
      refcnt n + 1 = Z.of_nat (users objs a) /\ (0 < users objs a)%nat /\ al n = size n + 1 /\
      buf n !! Z.to_nat (size n) = Some 0 /\ (hash n = -1 \/ hash n = hash_value (bytes n)).
Proof. apply (blocks_are_owned 7 _ [] _). vm_compute. reflexivity. Defined.

(** ** Searching *)

(** On the objects of any program, [find] gives the first place from the
    start position where the bytes of the other string occur, and -1 if there is
    none. *)
Theorem find_first g ops vs outs i j v w (start : Z) : spec_ops ops [] = Some (vs, outs) -> vs !! i = Some v -> vs !! j = Some w ->
  0 <= start < 2 ^ 63 ->
  exists h objs d s p, run_ops g ops statics [] = Ret (h, objs, outs) /\ objs !! i = Some d /\ objs !! j = Some s /\
    find h d s start = Ret p /\
    ((p = -1 /\ forall q, start <= q -> ~ occurs v.2 w.2 q) \/
     (start <= p /\ occurs v.2 w.2 p /\ forall q, start <= q < p -> ~ occurs v.2 w.2 q)).
Proof.
  intros E Hi Hj Hs. destruct (start_ok g ops vs outs E) as (h & objs & R & Hsh).
  destruct (shows_object h objs vs i v Hsh Hi) as (d & n & Hd & Hn & An & Tn).
  destruct (shows_object h objs vs j w Hsh Hj) as (s & m & Hs' & Hm & Am & Tm).
  destruct (alive_size n An) as (G1 & _), (alive_size m Am) as (F1 & _). apply text_bytes in Tn as [<- _], Tm as [<- _].
  destruct (string_find_loop_ok n m An Am (S (Z.to_nat (size n))) start) as (p & Ep & Hp); [lia|lia|lia|].
  exists h, objs, (Some d), (Some s), p. split_and!; [done|done|done| |exact Hp].
  unfold find. by rewrite (load_ok _ _ _ Hn), (load_ok _ _ _ Hm).
Qed.

Lemma find_first_witness : exists h objs d s p,
  run_ops 7 [New (chars "abcabc"); New (chars "bc")] statics [] = Ret (h, objs, [[]; []]) /\ objs !! 0%nat = Some d /\ objs !! 1%nat = Some s /\
  find h d s 2 = Ret p /\
  ((p = -1 /\ forall q, 2 <= q -> ~ occurs (chars "abcabc") (chars "bc") q) \/
   (2 <= p /\ occurs (chars "abcabc") (chars "bc") p /\ forall q, 2 <= q < p -> ~ occurs (chars "abcabc") (chars "bc") q)).
Proof. apply (find_first 7 _ [(false, chars "abcabc"); (false, chars "bc")] _ 0 1 (false, chars "abcabc") (false, chars "bc")); (done || lia). Defined.

(** On the objects of any program, [rfind] gives the last place before the
    position where the bytes of the other string occur, except that the place
    at the very end of the string is never looked at: an occurrence there is
    missed from any position. *)
Theorem rfind_last g ops vs outs i j v w (before : Z) : spec_ops ops [] = Some (vs, outs) -> vs !! i = Some v -> vs !! j = Some w ->
  0 <= before -> (length w.2 <= length v.2)%nat ->
  exists h objs d s p, run_ops g ops statics [] = Ret (h, objs, outs) /\ objs !! i = Some d /\ objs !! j = Some s /\
    rfind h d s before = Ret p /\
    let last := Z.min before (Z.of_nat (length v.2) - Z.of_nat (length w.2)) in
    ((p = -1 /\ forall q, q < last -> ~ occurs v.2 w.2 q) \/
     (p < last /\ occurs v.2 w.2 p /\ forall q, p < q < last -> ~ occurs v.2 w.2 q)).
Proof.
  intros E Hi Hj Hb Hlen. destruct (start_ok g ops vs outs E) as (h & objs & R & Hsh).
  destruct (shows_object h objs vs i v Hsh Hi) as (d & n & Hd & Hn & An & Tn).
  destruct (shows_object h objs vs j w Hsh Hj) as (s & m & Hs' & Hm & Am & Tm).
  destruct (alive_size n An) as (G1 & G2 & _), (alive_size m Am) as (F1 & F2 & _). apply text_bytes in Tn as [En _], Tm as [Em _].
  rewrite <- En, <- Em in Hlen |- *. set (last := Z.min before (Z.of_nat (length (bytes n)) - Z.of_nat (length (bytes m)))).
  destruct (rfind_loop_ok n m An Am (Z.to_nat last)) as (p & Ep & Hp); [lia|].
  exists h, objs, (Some d), (Some s), p. rewrite Z2Nat.id in Hp by lia. split_and!; [done|done|done| |exact Hp].
  unfold rfind. rewrite (load_ok _ _ _ Hn), (load_ok _ _ _ Hm). cbn [mbind res_bind].
  rewrite (uwrap_id 64), (swrap_id 64) by (done || unfold in_s, in_u; lia).
  replace (if size n - size m <? before then size n - size m else before) with last by (unfold last; ztest).
  destruct (Z.ltb_spec (size n - size m) 0); [lia|]. rewrite andb_false_r. exact Ep.
Qed.

Lemma rfind_last_witness : exists h objs d s p,
  run_ops 7 [New (chars "abcabc"); New (chars "bc")] statics [] = Ret (h, objs, [[]; []]) /\ objs !! 0%nat = Some d /\ objs !! 1%nat = Some s /\
  rfind h d s 6 = Ret p /\
  let last := Z.min 6 4 in
  ((p = -1 /\ forall q, q < last -> ~ occurs (chars "abcabc") (chars "bc") q) \/
   (p < last /\ occurs (chars "abcabc") (chars "bc") p /\ forall q, p < q < last -> ~ occurs (chars "abcabc") (chars "bc") q)).
Proof.
  apply (rfind_last 7 _ [(false, chars "abcabc"); (false, chars "bc")] _ 0 1 (false, chars "abcabc") (false, chars "bc")); (done || simpl; lia).
Defined.

(** ** Numbers *)

(** [createNumber] of a 64-bit integer in a base from 2 to 36 makes a string
    that reads back as the integer, the least integer included, whose negation
    overflows. *)
Theorem createNumber_reads_back g n base : in_s 64 n -> 2 <= base <= 36 ->
  exists h d m, createNumberS64 g statics n base = Ret (h, Some d) /\ h !! d = Some m /\
    al m = size m + 1 /\ read_number base (bytes m) = n.
Proof.
  intros Hn Hb. assert (exists h0, inc statics (Some s_zero) = Ret h0 /\ rep h0 [s_zero] [(false, [])]) as (h0 & E0 & Hr).
  { destruct (inc_ok statics [] s_zero statics_wf) as (h0 & E0 & Hwf & Ht); [by eexists|done|].
    exists h0. split; [done|]. split; [done|]. constructor; [by rewrite Ht|constructor]. }
  unfold createNumberS64, initS. rewrite E0. cbn [mbind res_bind fst snd]. rewrite append_number_text by done.
  assert (length (rev (print_number base n)) <= 65)%nat as Hl by (rewrite length_rev; apply print_number_length).
  destruct (sets_appendReverse g h0 [s_zero] [(false, [])] 0 (false, []) (rev (print_number base n)) Hr) as (d & Hd & a & h & E & Hr');
    [cbn [length]; lia|reflexivity|cbn [length snd]; lia|].
  injection Hd as <-. rewrite decide_False, rev_involutive in Hr'; [|intros E1; apply (f_equal (@rev Z)) in E1; rewrite rev_involutive in E1; by apply print_number_nonempty in E1].
  change (rep h [a] [(false, print_number base n)]) in Hr'.
  destruct (rep_object h [a] [(false, print_number base n)] 0 (false, print_number base n) Hr' eq_refl) as (a' & m & Ha & Hm & Am & Tm & _).
  injection Ha as <-. apply text_bytes in Tm as [Bm _]. cbn [snd] in Bm. exists h, a, m. split_and!; [exact E|exact Hm| |].
  - destruct (alive_size m Am) as (_ & G & _). destruct Am as [[_ B _ _ _]|(Z & _)]; [exact B|]. rewrite Bm, Z in G.
    pose proof (print_number_nonempty base n) as Hne. destruct (print_number base n); [done|cbn [length] in G; lia].
  - rewrite Bm. by apply read_print.
Qed.

Lemma createNumber_reads_back_witness : exists h d m, createNumberS64 7 statics (- 2 ^ 63) 16 = Ret (h, Some d) /\ h !! d = Some m /\
  al m = size m + 1 /\ read_number 16 (bytes m) = - 2 ^ 63.
Proof. apply (createNumber_reads_back 7 (- 2 ^ 63) 16); unfold in_s; lia. Defined.

(** ** Uses that go wrong *)



(** An append that finds room in the block of a string keeps the hash cached
    before: the string is then unequal to another one of the same bytes. *)
Theorem append_in_place_stale_hash g :
  exists h a b n m, (a ← initLen g statics (chars "ab");
    b ← initLen g (fst a) (chars "abc");
    a ← lock g (fst b) (snd a) 16;
    a ← unlock (fst a) (snd a) 2;
    r ← getHash (fst a) (snd a);
    a ← appendLen g (snd r) (snd a) (chars "c");
    Ret (fst a, snd a, snd b)) = Ret (h, Some a, Some b) /\
    h !! a = Some n /\ h !! b = Some m /\ bytes n = chars "abc" /\ bytes m = chars "abc" /\
    exists h', beq h (Some a) (Some b) = Ret (false, h').
Proof.
  do 5 eexists. split; [vm_compute; reflexivity|]. split; [vm_compute; reflexivity|]. split; [vm_compute; reflexivity|].
  split; [reflexivity|]. split; [reflexivity|]. eexists. vm_compute. reflexivity.
Qed.

(** [lock] of a shared string for fewer bytes than it has copies all of them
    into the smaller block. *)
Theorem lock_shared_overflows g :
  (a ← initLen g statics (chars "0123456789abcdef"); b ← initS (fst a) (snd a); lock g (fst b) (snd b) 4) = Crash OutOfBounds.
Proof. vm_compute. reflexivity. Qed.
