(* ===== verification/XmlRpcEncoder.v ===== *)
(** * net/rpc/xmlrpc: XmlRpcEncoder

    The encoder of XML-RPC: the content written so far, the level of nesting and
    the flag of [writeStructLength]. A [String] is the list of its characters,
    ASCII only where [String::find] looks at it, a [double] its bit pattern. *)

From Stdlib Require Import String.
From S2P Require Import Prelude Machine CString Time Base64.

Record encoder := mk_encoder {
  content : list Z;
  value_level : Z;
  struct_clean : option bool;
}.

Definition create : encoder := mk_encoder [] 0 None.

Definition append (s : list Z) : act encoder unit := fun st =>
  Ret (tt, mk_encoder (content st ++ s) (value_level st) (struct_clean st)).
Definition appends (s : string) : act encoder unit := append (chars s).

Definition set_level (n : Z) : act encoder unit := fun st => Ret (tt, mk_encoder (content st) (u64 n) (struct_clean st)).
Definition set_clean (b : bool) : act encoder unit := fun st => Ret (tt, mk_encoder (content st) (value_level st) (Some b)).
Definition get_clean : act encoder bool :=
  st ← get; match struct_clean st with Some b => mret b | None => lift (Crash Uninitialized) end.

(** ** Replacement in strings *)

(** [String::find(s, start)]. *)
Fixpoint find_loop (fuel : nat) (str s : list Z) (start : nat) : option nat :=
  match fuel with
  | O => None
  | S fuel =>
    if (length str - length s <? start)%nat then None
    else if bool_decide (take (length s) (drop start str) = s) then Some start
    else find_loop fuel str s (S start)
  end.
Definition find (str s : list Z) (start : nat) : option nat :=
  if (length str <? length s)%nat then None else find_loop (S (length str)) str s start.

(** [String::replace]: the search goes on behind each replacement. *)
Fixpoint replace_loop (fuel : nat) (what rep str : list Z) (p : nat) : res (list Z) :=
  match fuel with
  | O => NoFuel
  | S fuel =>
    match find str what p with
    | None => Ret str
    | Some p => replace_loop fuel what rep (take p str ++ rep ++ drop (p + length what) str) (p + length rep)
    end
  end.
Definition replace (what rep str : list Z) : res (list Z) :=
  if bool_decide (what = []) then Ret str else replace_loop (S (length str)) what rep str 0.

(** ** Requests and responses *)

Definition writeHeader : act encoder unit :=
  append (chars "<?xml version=" ++ [34] ++ chars "1.0" ++ [34] ++ chars "?>" ++ [10]).

Definition writeMethodName (name : list Z) : act encoder unit :=
  _ ← appends "<methodCall><methodName>"; _ ← append name; appends "</methodName><params>".
Definition writeMethodResponse : act encoder unit := appends "<methodResponse><params>".
Definition writeMethodEnd : act encoder unit := appends "</params></methodCall>".
Definition writeResponseEnd : act encoder unit := appends "</params></methodResponse>".

(** The message is not escaped. *)
Definition writeFaultResponse (code : Z) (message : list Z) : act encoder unit :=
  _ ← appends "<methodResponse><fault><value><struct><member><name>faultCode</name><value><int>";
  _ ← append (print_int code);
  _ ← appends "</int></value></member><member><name>faultString</name><value><string>";
  _ ← append message;
  appends "</string></value></member></struct></value></fault></methodResponse>".

(** ** Values *)

(** [if (value_level == 0) content.append(...)]. *)
Definition at_top (s : string) : act encoder unit :=
  st ← get; if value_level st =? 0 then appends s else mret tt.

(** The parts that all scalars share. *)
Definition write_scalar (open : string) (text : list Z) (close : string) : act encoder unit :=
  _ ← at_top "<param>"; _ ← appends open; _ ← append text; _ ← appends close; at_top "</param>".

Definition writeInt32 (value : Z) : act encoder unit := write_scalar "<value><int>" (print_int value) "</int></value>".

Definition writeInt64 (value : Z) : act encoder unit :=
  if (- 0x7fffffff - 1 <=? value) && (value <=? 0x7fffffff)
  then write_scalar "<value><int>" (print_int value) "</int></value>"
  else write_scalar "<value><i8>" (print_int value) "</i8></value>".

Definition writeBool (value : bool) : act encoder unit :=
  write_scalar "<value><boolean>" (if value then chars "true" else chars "false") "</boolean></value>".

Definition writeString (str : list Z) : act encoder unit :=
  escaped ← lift (replace (chars "&") (chars "&amp;") str);
  escaped ← lift (replace (chars "<") (chars "&lt;") escaped);
  escaped ← lift (replace (chars ">") (chars "&gt;") escaped);
  write_scalar "<value><string>" escaped "</string></value>".

Definition writeBinary (data : list Z) : act encoder unit :=
  text ← lift (encodeBase64 data);
  write_scalar "<value><base64>" text "</base64></value>".

(** [%0nd] of an integer. *)
Definition pad_zeros (n : nat) (value : Z) : list Z :=
  if value <? 0 then 45 :: repeat 48 (n - S (length (dec (- value)))) ++ dec (- value)
  else repeat 48 (n - length (dec value)) ++ dec value.

(** The buffer has room for 28 characters with the terminating zero. *)
Definition writeTime (tvalue : Z) : act encoder unit :=
  f ← lift (timeToUtcCalendar tvalue);
  let '(year, mon, mday, hour, min, sec) := f in
  let c := pad_zeros 4 year ++ pad_zeros 2 (mon + 1) ++ pad_zeros 2 (mday + 1) ++ chars "T" ++
    pad_zeros 2 hour ++ chars ":" ++ pad_zeros 2 min ++ chars ":" ++ pad_zeros 2 sec ++ chars "+0000" in
  _ ← (if 28 <=? Z.of_nat (length c) then lift (Crash OutOfBounds) else mret tt);
  write_scalar "<value><dateTime.iso8601>" c "</dateTime.iso8601></value>".

(** ** Structures *)

Definition writeArrayLength (length : Z) : act encoder unit :=
  _ ← at_top "<param>"; _ ← appends "<value><array><data>"; st ← get; set_level (value_level st + 1).

Definition writeStructLength (length : Z) : act encoder unit :=
  _ ← at_top "<param>"; _ ← appends "<value><struct>"; _ ← set_clean true; st ← get; set_level (value_level st + 1).

(** [if (!struct_clean) ... else struct_clean = false]. *)
Definition close_member : act encoder unit :=
  clean ← get_clean; if negb clean then appends "</member>" else set_clean false.

(** The name is not escaped. *)
Definition writeMemberName (name : list Z) : act encoder unit :=
  _ ← close_member; _ ← appends "<member><name>"; _ ← append name; appends "</name>".

Definition leave_level : act encoder unit :=
  st ← get; _ ← set_level (value_level st - 1); at_top "</param>".

Definition writeArrayEnd : act encoder unit := _ ← appends "</data></array></value>"; leave_level.
Definition writeStructEnd : act encoder unit :=
  _ ← close_member; _ ← appends "</struct></value>"; leave_level.

Section Encoder.

(** [sprintf] of a double with [%g]: fewer than 32 characters. *)
Variable format_g : Z -> list Z.

Definition writeDouble (value : Z) : act encoder unit :=
write_scalar "<value><double>" (format_g value) "</double></value>".

End Encoder.
