(* ===== verification/XmlRpcDecoder.v ===== *)
(** * net/rpc/xmlrpc: XmlRpcDecoder

    The decoder of XML-RPC over the memory of its content: the bytes, which end
    at [end_], and the terminating zero behind them. A name or a text is the
    list of its bytes, a [String] its bytes in UTF-8, a [double] the number of
    its bit pattern. *)

From Stdlib Require Import String.
From S2P Require Import Prelude Machine CString Time Base64 RpcDecoder.

Record decoder := mk_decoder {
  mem : list Z;
  end_ : Z;
  pos : Z;
  empty_el : option Z;
}.

Definition setContent (content : list Z) : decoder :=
  mk_decoder (content ++ [0]) (Z.of_nat (length content)) 0 None.

(** ** Memory *)

Definition set_pos (p : Z) : act decoder unit := fun st => Ret (tt, mk_decoder (mem st) (end_ st) p (empty_el st)).
Definition set_empty (e : option Z) : act decoder unit := fun st => Ret (tt, mk_decoder (mem st) (end_ st) (pos st) e).
Definition advance (n : Z) : act decoder unit := fun st => Ret (tt, mk_decoder (mem st) (end_ st) (pos st + n) (empty_el st)).

(** [*pos], a byte and a range at a position. *)
Definition cur : act decoder Z := fun st => b ← byte_at (mem st) (pos st); Ret (b, st).
Definition at_ (p : Z) : act decoder Z := fun st => b ← byte_at (mem st) p; Ret (b, st).
Definition range (p n : Z) : act decoder (list Z) := fun st => l ← mem_range (mem st) p n; Ret (l, st).

(** Enough for every loop over the content. *)
Definition all_fuel (st : decoder) : nat := S (S (length (mem st))).

(** ** Elements *)

(** [for (; ; pos++)] over the characters of a class, none of them the end. *)
Fixpoint skip_chars (fuel : nat) (p : Z -> bool) : act decoder unit :=
  match fuel with
  | O => lift NoFuel
  | S fuel =>
    st ← get;
    if pos st =? end_ st then throw EndOfDataException
    else c ← cur; if p c then _ ← advance 1; skip_chars fuel p else mret tt
  end.
Definition skip_class (p : Z -> bool) : act decoder unit := st ← get; skip_chars (all_fuel st) p.

Definition name_char (c : Z) : bool := isalnum c || (c =? 95) || (c =? 46).

(** [*start = pos], the characters of the name, and [*length]. *)
Definition read_name : act decoder (Z * list Z) :=
  st ← get;
  _ ← skip_class name_char;
  st' ← get;
  name ← range (pos st) (pos st' - pos st);
  mret (pos st, name).

Definition expect (ch : Z) : act decoder unit :=
  c ← cur; if negb (c =? ch) then throw InvalidFormatException else advance 1.

(** Behind the [<!--] of a comment. *)
Fixpoint skip_comment (fuel : nat) : act decoder unit :=
  match fuel with
  | O => lift NoFuel
  | S fuel =>
    st ← get;
    if end_ st - 2 <=? pos st then throw EndOfDataException
    else
      l ← range (pos st) 3;
      if bool_decide (l = [45; 45; 62]) then advance 3 else _ ← advance 1; skip_comment fuel
  end.

(** 0 for a starting element, 1 for an end, and its name. *)
Fixpoint next_element (fuel : nat) : act decoder (Z * list Z) :=
  match fuel with
  | O => lift NoFuel
  | S fuel =>
    st ← get;
    if pos st =? end_ st then throw EndOfDataException
    else
      c ← cur;
      if isspace c then _ ← advance 1; next_element fuel
      else if c =? 60 then
        _ ← advance 1;
        _ ← skip_class isspace;
        c ← cur;
        if c =? 47 then
          _ ← advance 1;
          _ ← skip_class isspace;
          sn ← read_name;
          _ ← skip_class isspace;
          _ ← expect 62;
          mret (1, snd sn)
        else if c =? 33 then
          st ← get;
          if pos st <? end_ st + 3 then
            _ ← advance 1;
            l ← range (pos st + 1) 2;
            if bool_decide (l = [45; 45]) then
              _ ← advance 2;
              st ← get;
              _ ← skip_comment (all_fuel st);
              next_element fuel
            else throw InvalidFormatException
          else throw InvalidFormatException
        else
          _ ← skip_class isspace;
          sn ← read_name;
          _ ← skip_class isspace;
          c ← cur;
          _ ← (if c =? 47 then _ ← set_empty (Some (fst sn)); _ ← advance 1; skip_class isspace else mret tt);
          _ ← expect 62;
          mret (0, snd sn)
      else throw InvalidFormatException
  end.

(** A start-end element is returned once more, as its end. *)
Definition moveToNextElement : act decoder (Z * list Z) :=
  st ← get;
  match empty_el st with
  | Some e =>
    _ ← set_pos e;
    _ ← set_empty None;
    sn ← read_name;
    _ ← skip_class isspace;
    _ ← expect 47;
    _ ← skip_class isspace;
    _ ← expect 62;
    mret (1, snd sn)
  | None => next_element (all_fuel st)
  end.

Definition is_tag (name : list Z) (s : string) : bool := bool_decide (name = chars s).

Definition moveToNextElementReqStart (tag_name : string) : act decoder unit :=
  el ← moveToNextElement; if negb (fst el =? 0) || negb (is_tag (snd el) tag_name) then throw InvalidFormatException else mret tt.
Definition moveToNextElementReqEnd (tag_name : string) : act decoder unit :=
  el ← moveToNextElement; if negb (fst el =? 1) || negb (is_tag (snd el) tag_name) then throw InvalidFormatException else mret tt.

(** The name of the element inside the next [value]. *)
Fixpoint next_value (fuel : nat) : act decoder (list Z) :=
  match fuel with
  | O => lift NoFuel
  | S fuel =>
    el ← moveToNextElement;
    if negb (fst el =? 0) then throw InvalidFormatException
    else if is_tag (snd el) "value" then
      el ← moveToNextElement; if negb (fst el =? 0) then throw InvalidFormatException else mret (snd el)
    else if is_tag (snd el) "param" then next_value fuel
    else throw InvalidFormatException
  end.
Definition moveToNextValue : act decoder (list Z) := st ← get; next_value (all_fuel st).

(** The position is restored, [empty_el] is not. *)
Definition skipValueEnd : act decoder unit :=
  el ← moveToNextElement;
  if negb (fst el =? 1) then throw InvalidFormatException
  else
    _ ← moveToNextElementReqEnd "value";
    st ← get;
    el ← moveToNextElement;
    if negb (fst el =? 1) || negb (is_tag (snd el) "param") then set_pos (pos st) else mret tt.

(** [for (; pos < end && *pos != '<'; pos++)]. *)
Fixpoint skip_content (fuel : nat) : act decoder unit :=
  match fuel with
  | O => lift NoFuel
  | S fuel =>
    st ← get;
    if pos st <? end_ st then
      c ← cur; if negb (c =? 60) then _ ← advance 1; skip_content fuel else mret tt
    else mret tt
  end.

(** The start and the length of the text up to the next element. *)
Definition readContent : act decoder (Z * Z) :=
  st ← get;
  _ ← match empty_el st with None => skip_content (all_fuel st) | Some _ => mret tt end;
  st' ← get;
  mret (pos st, pos st' - pos st).

(** ** Texts *)

(** [atol], and [strtol] with base 0 is [strtoll]. *)
Definition atol (s : list Z) : Z :=
  let t := skip_space s in
  let '(neg, u) := if deref t =? 45 then (true, tail t) else if deref t =? 43 then (false, tail t) else (false, t) in
  let n := fst (digits_loop 10 0 u) in
  if neg : bool then Z.max LLONG_MIN (- n) else Z.min LLONG_MAX n.

(** The string from [p] to the terminating zero of the content. *)
Definition c_string (p : Z) : act decoder (list Z) := fun st =>
  if (p <? 0) || (Z.of_nat (length (mem st)) <=? p) then Crash OutOfBounds
  else Ret (fst (span (fun c => negb (c =? 0)) (drop (Z.to_nat p) (mem st))), st).

(** [convertToString]: [str] runs to [send], [os] has room for [cap] more. *)
Fixpoint convert_loop (fuel : nat) (str send cap : Z) (out : list Z) : act decoder (list Z) :=
  match fuel with
  | O => lift NoFuel
  | S fuel =>
    if negb (str <? send) then mret out
    else
      let store c := if cap <=? Z.of_nat (length out) then lift (Crash OutOfBounds) else mret (out ++ [c]) in
      c ← at_ str;
      let str := str + 1 in
      if c =? 38 then
        l ← range str 3;
        if bool_decide (l = chars "lt;") then out ← store 60; convert_loop fuel (str + 3) send cap out
        else if bool_decide (l = chars "gt;") then out ← store 62; convert_loop fuel (str + 3) send cap out
        else if bool_decide (l = chars "quo") then out ← store 34; convert_loop fuel (str + 5) send cap out
        else if bool_decide (l = chars "amp") then out ← store 38; convert_loop fuel (str + 4) send cap out
        else
          c ← at_ str;
          if c =? 35 then
            s ← c_string (str + 1);
            let '(n, rest) := strtoll s in
            out ← store (u8 n);
            if negb (deref rest =? 59) then throw InvalidFormatException
            else convert_loop fuel (str + 1 + (Z.of_nat (length s) - Z.of_nat (length rest)) + 1) send cap out
          else throw InvalidFormatException
      else out ← store c; convert_loop fuel str send cap out
  end.

Definition convertToString (str len : Z) : act decoder (list Z) :=
  st ← get; convert_loop (all_fuel st) str (str + len) len [].

(** ** Header and calls *)

(** Up to and over the next [>]. *)
Fixpoint skip_declaration (fuel : nat) : act decoder unit :=
  match fuel with
  | O => lift NoFuel
  | S fuel =>
    st ← get;
    if end_ st <=? pos st then throw InvalidFormatException
    else c ← cur; _ ← advance 1; if c =? 62 then mret tt else skip_declaration fuel
  end.

Definition readHeader : act decoder Z :=
  st ← get;
  if end_ st <=? pos st + 5 then throw InvalidFormatException
  else
    magic ← range (pos st) 5;
    if negb (bool_decide (magic = chars "<?xml")) then throw InvalidFormatException
    else
      _ ← advance 5;
      _ ← skip_declaration (all_fuel st);
      save ← get;
      el ← moveToNextElement;
      if negb (fst el =? 0) then throw InvalidFormatException
      else if is_tag (snd el) "methodCall" then _ ← set_pos (pos save); mret 0
      else if is_tag (snd el) "methodResponse" then
        el ← moveToNextElement;
        if negb (fst el =? 0) then throw InvalidFormatException
        else if is_tag (snd el) "params" then _ ← set_pos (pos save); mret 1
        else if is_tag (snd el) "fault" then _ ← set_pos (pos save); mret 2
        else throw InvalidFormatException
      else throw InvalidFormatException.

Definition is_int (name : list Z) : bool := is_tag name "i4" || is_tag name "i8" || is_tag name "int".

(** The type that the name of an element inside a [value] stands for. *)
Definition type_of_name (name : list Z) : act decoder RpcType :=
  if is_int name then mret RT_Int
  else if is_tag name "boolean" then mret RT_Bool
  else if is_tag name "double" then mret RT_Double
  else if is_tag name "string" then mret RT_String
  else if is_tag name "dateTime.iso8601" then mret RT_Time
  else if is_tag name "base64" then mret RT_Binary
  else if is_tag name "struct" then mret RT_Struct
  else if is_tag name "array" then mret RT_Array
  else if is_tag name "methodCall" then mret RT_MethodName
  else throw InvalidFormatException.

(** A [methodResponse] is looked for inside a [value] only. *)
Fixpoint check_type (fuel : nat) : act decoder RpcType :=
  match fuel with
  | O => lift NoFuel
  | S fuel =>
    save ← get;
    if end_ save <=? pos save then mret RT_End
    else
      el ← moveToNextElement;
      if fst el =? 0 then
        if is_tag (snd el) "param" then check_type fuel
        else if is_tag (snd el) "value" then
          el ← moveToNextElement;
          if fst el =? 0 then
            if is_tag (snd el) "methodResponse" then
              el ← moveToNextElement;
              if negb (fst el =? 0) then throw InvalidFormatException
              else
                _ ← set_pos (pos save);
                _ ← set_empty None;
                if is_tag (snd el) "params" then mret RT_MethodResponse
                else if is_tag (snd el) "fault" then mret RT_FaultResponse
                else mret RT_MethodResponse
            else _ ← set_pos (pos save); _ ← set_empty None; type_of_name (snd el)
          else throw InvalidFormatException
        else throw InvalidFormatException
      else if is_tag (snd el) "params" || is_tag (snd el) "fault" then mret RT_End
      else throw InvalidFormatException
  end.
Definition readCheckType : act decoder RpcType := st ← get; check_type (all_fuel st).

Definition readMethodName : act decoder (list Z) :=
  _ ← moveToNextElementReqStart "methodCall";
  _ ← moveToNextElementReqStart "methodName";
  cont ← readContent;
  _ ← moveToNextElementReqEnd "methodName";
  _ ← moveToNextElementReqStart "params";
  convertToString (fst cont) (snd cont).

Definition readMethodResponse : act decoder unit :=
  _ ← moveToNextElementReqStart "methodResponse"; moveToNextElementReqStart "params".

(** ** Scalars *)

(** The start and the length of the text of the next value, which has a type
    that [ok] accepts. *)
Definition scalar_content (ok : list Z -> bool) : act decoder (Z * Z) :=
  el ← moveToNextValue;
  if ok el then cont ← readContent; _ ← skipValueEnd; mret cont else throw InvalidFormatException.

Definition add_digits (w : Z) (l : list Z) : Z := fold_left (fun val c => swrap w (val * 10 + s8 c - 48)) l 0.
Definition sub_digits (w : Z) (l : list Z) : Z := fold_left (fun val c => swrap w (val * 10 - (s8 c - 48))) l 0.

Definition readInt32 : act decoder Z :=
  cont ← scalar_content is_int;
  let '(cont_start, cont_length) := cont in
  c ← at_ cont_start;
  if c =? 45 then l ← range (cont_start + 1) (u64 (cont_length - 1)); mret (sub_digits 32 l)
  else l ← range cont_start cont_length; mret (add_digits 32 l).

(** The minus sign is not skipped. *)
Definition readInt64 : act decoder Z :=
  cont ← scalar_content is_int;
  let '(cont_start, cont_length) := cont in
  c ← at_ cont_start;
  if c =? 45 then l ← range cont_start (u64 (cont_length - 1)); mret (sub_digits 64 l)
  else l ← range cont_start cont_length; mret (add_digits 64 l).

Definition readBool : act decoder bool :=
  cont ← scalar_content (fun name => is_tag name "boolean");
  l ← range (fst cont) (snd cont);
  if is_tag l "true" then mret true
  else if is_tag l "false" then mret false
  else if is_tag l "0" then mret false
  else if is_tag l "1" then mret true
  else throw InvalidFormatException.

Definition readString : act decoder (list Z) :=
  cont ← scalar_content (fun name => is_tag name "string");
  convertToString (fst cont) (snd cont).

(** The characters of a date: while digits last, at most [n] of them. *)
Fixpoint read_digits (n : nat) (val cs cl : Z) : act decoder (Z * Z * Z) :=
  match n with
  | O => mret (val, cs, cl)
  | S n =>
    if 0 <? cl then
      c ← at_ cs; if isdigit c then read_digits n (val * 10 + c - 48) (cs + 1) (cl - 1) else mret (val, cs, cl)
    else mret (val, cs, cl)
  end.

(** A field that must have a digit, and one of the separators behind it. *)
Definition date_field (n : nat) (seps : list Z) (cs cl : Z) : act decoder (Z * Z * Z) :=
  if cl <? 1 then throw InvalidFormatException
  else
    c ← at_ cs;
    if negb (isdigit c) then throw InvalidFormatException
    else
      f ← read_digits n 0 cs cl;
      let '(val, cs, cl) := f in
      if 0 <? cl then
        c ← at_ cs; if bool_decide (c ∈ seps) then mret (val, cs + 1, cl - 1) else mret (val, cs, cl)
      else mret (val, cs, cl).

(** Where the time of day may end after any field; a time zone is read if it
    has hours and minutes. *)
Definition readTime : act decoder Z :=
  cont ← scalar_content (fun name => is_tag name "dateTime.iso8601");
  f ← date_field 4 [45] (fst cont) (snd cont);
  let '(year, cs, cl) := f in
  f ← date_field 2 [45] cs cl;
  let '(mon, cs, cl) := f in
  f ← date_field 2 [84; 116; 32] cs cl;
  let '(mday, cs, cl) := f in
  hms ← (if 1 <=? cl then
    f ← date_field 2 [58] cs cl;
    let '(hour, cs, cl) := f in
    if 1 <=? cl then
      f ← date_field 2 [58] cs cl;
      let '(min, cs, cl) := f in
      sec_cs ← (if 1 <=? cl then f ← date_field 2 [58] cs cl; mret (fst (fst f), snd (fst f)) else mret (0, cs));
      s ← c_string (snd sec_cs);
      let tz := s32 (atol s) in
      mret (hour, min, fst sec_cs, s32 (tz - 40 * Z.quot tz 100))
    else mret (hour, 0, 0, 0)
  else mret (0, 0, 0, 0));
  let '(hour, min, sec, tz) := hms in
  mret (convertUtcTime year (mon - 1) (mday - 1) hour min sec (s32 (- tz))).

Section Decoder.

(** [strtod] on the characters from a place on, and the byte that memory never
  set happens to hold. *)
Variable strtod : list Z -> Z.
Variable garbage : Z.

Definition readDouble : act decoder Z :=
cont ← scalar_content (fun name => is_tag name "double");
s ← c_string (fst cont);
mret (strtod s).

(** The memory that [lock] of a new blob gives, and [unlock]. *)
Definition lock_blob (size : Z) : list Z := repeat garbage (Z.to_nat ((size / 8 + 1) * 8)).
Definition unlock_blob (buf : list Z) (lock_size size : Z) : res (list Z) :=
if lock_size + 1 <=? size then Crash AssertFailed else Ret (take (Z.to_nat size) buf).

Definition readBinary : act decoder (list Z) :=
cont ← scalar_content (fun name => is_tag name "base64");
st ← get;
let cap := snd cont * 2 / 3 + 2 in
lift ('(buf, n) ← decodeBase64_mem (drop (Z.to_nat (fst cont)) (mem st)) (snd cont) (lock_blob cap);
  unlock_blob buf cap n).

(** ** Structures *)

Definition readStructLength : act decoder Z :=
el ← moveToNextValue; if is_tag el "struct" then mret (-1) else throw InvalidFormatException.

Definition readArrayLength : act decoder Z :=
el ← moveToNextValue;
if is_tag el "array" then _ ← moveToNextElementReqStart "data"; mret (-1) else throw InvalidFormatException.

Definition readMemberName : act decoder (list Z) :=
_ ← moveToNextElementReqStart "member";
_ ← moveToNextElementReqStart "name";
cont ← readContent;
_ ← moveToNextElementReqEnd "name";
range (fst cont) (snd cont).

Definition checkArrayNext : act decoder bool :=
save ← get;
el ← moveToNextElement;
if negb (fst el =? 1) || negb (is_tag (snd el) "data") then _ ← set_pos (pos save); mret true
else _ ← skipValueEnd; mret false.

(** A start element of six characters other than [member] is skipped by mistake:
  [memcmp] is not compared with zero. *)
Fixpoint check_struct_next (fuel : nat) : act decoder bool :=
match fuel with
| O => lift NoFuel
| S fuel =>
  save ← get;
  el ← moveToNextElement;
  if fst el =? 1 then
    if is_tag (snd el) "member" then check_struct_next fuel
    else if is_tag (snd el) "struct" then _ ← set_pos (pos save); _ ← skipValueEnd; mret false
    else throw InvalidFormatException
  else if bool_decide (length (snd el) = 6%nat) && negb (is_tag (snd el) "member") then
    save ← get;
    el ← moveToNextElement;
    if negb (fst el =? 1) || negb (is_tag (snd el) "struct") then _ ← set_pos (pos save); mret true
    else throw InvalidFormatException
  else if negb (is_tag (snd el) "struct") then _ ← set_pos (pos save); mret true
  else throw InvalidFormatException
end.
Definition checkStructNext : act decoder bool := st ← get; check_struct_next (all_fuel st).

(** [while (check()) body]. *)
Fixpoint while_next {A} (fuel : nat) (check : act decoder bool) (body : A -> act decoder A) (a : A) : act decoder A :=
match fuel with
| O => lift NoFuel
| S fuel => b ← check; if b : bool then a ← body a; while_next fuel check body a else mret a
end.

(** [depth] bounds the nesting and the turns of a loop: each takes an element. *)
Fixpoint readVariant (depth : nat) : act decoder Variant :=
match depth with
| O => lift NoFuel
| S depth =>
  type ← readCheckType;
  match type with
  | RT_End => throw EndOfDataException
  | RT_Int => v ← readInt64; mret (V_Int v)
  | RT_Bool => v ← readBool; mret (V_Bool v)
  | RT_Double => v ← readDouble; mret (V_Double v)
  | RT_String => v ← readString; mret (V_String v)
  | RT_Time => v ← readTime; mret (V_Time v)
  | RT_Binary => v ← readBinary; mret (V_Binary v)
  | RT_Struct =>
    _ ← readStructLength;
    struc ← while_next (S depth) checkStructNext (fun struc =>
      member_name ← readMemberName;
      member_value ← readVariant depth;
      mret (set_member member_name member_value struc)) [];
    mret (V_Struct struc)
  | RT_Array =>
    _ ← readArrayLength;
    list ← while_next (S depth) checkArrayNext (fun list =>
      member_value ← readVariant depth;
      mret (list ++ [member_value])) [];
    mret (V_Array list)
  | RT_MethodName | RT_MethodResponse | RT_FaultResponse => mret V_NULL
  end
end.

(** A failure of a member is thrown again as an [RpcException]. *)
Definition rethrow {A} (m : act decoder A) : act decoder A := fun st =>
match m st with Exn _ => Exn OtherException | r => r end.

(** [RpcHelper::readStruct] with the map of [Fault_rpc]: the code and the
  string, unset before. *)
Definition readFaultStruct (fuel : nat) : act decoder (option Z * list Z) :=
_ ← readStructLength;
while_next fuel checkStructNext (fun fault =>
  name ← readMemberName;
  if is_tag name "faultCode" then v ← rethrow readInt32; mret (Some v, snd fault)
  else if is_tag name "faultString" then v ← rethrow readString; mret (fst fault, v)
  else throw InvalidFormatException) (None, []).

Definition readFaultResponse : act decoder (Z * list Z) :=
_ ← moveToNextElementReqStart "methodResponse";
_ ← moveToNextElementReqStart "fault";
st ← get;
fault ← readFaultStruct (all_fuel st);
_ ← moveToNextElementReqEnd "fault";
_ ← moveToNextElementReqEnd "methodResponse";
match fst fault with Some code => mret (code, snd fault) | None => lift (Crash Uninitialized) end.

(** An array is read with [readStructLength]. *)
Fixpoint readSkip (depth : nat) : act decoder unit :=
match depth with
| O => lift NoFuel
| S depth =>
  type ← readCheckType;
  match type with
  | RT_Int => _ ← readInt64; mret tt
  | RT_Bool => _ ← readBool; mret tt
  | RT_Double => _ ← readDouble; mret tt
  | RT_String => _ ← readString; mret tt
  | RT_Time => _ ← readTime; mret tt
  | RT_Binary => _ ← readBinary; mret tt
  | RT_Struct => _ ← readStructLength; while_next (S depth) checkStructNext (fun _ => _ ← readMemberName; readSkip depth) tt
  | RT_Array => _ ← readStructLength; while_next (S depth) checkArrayNext (fun _ => readSkip depth) tt
  | RT_MethodName => _ ← readMethodName; mret tt
  | RT_MethodResponse => readMethodResponse
  | RT_FaultResponse => _ ← readFaultResponse; mret tt
  | RT_End => throw InvalidFormatException
  end
end.

End Decoder.
