(* ===== verification/XmlRpcText.v ===== *)
(** * Elements and texts of XML-RPC

    How the decoder reads one element, one text and one scalar from the bytes at
    its position, and what the replacements of the encoder do to a string. *)

From Stdlib Require Import String.
From S2P Require Import Prelude Machine CString Time Base64 RpcDecoder XmlRpcDecoder XmlRpcEncoder.

#[local] Open Scope list_scope.

(** ** Reading *)

(** The bytes from the position on to the end are [rest]. *)
Definition at_rest (st : decoder) (rest : list Z) : Prop :=
  exists pre, mem st = pre ++ rest ++ [0] /\ pos st = Z.of_nat (length pre) /\ end_ st = Z.of_nat (length (pre ++ rest)) /\ empty_el st = None.

Definition skip (n : nat) (st : decoder) : decoder := mk_decoder (mem st) (end_ st) (pos st + Z.of_nat n) (empty_el st).

(** [m] reads [bytes], before [rest], and returns [a]. *)
Definition reads {A} (m : act decoder A) (bytes rest : list Z) (a : A) : Prop :=
  forall st, at_rest st (bytes ++ rest) -> m st = Ret (a, skip (length bytes) st).

Lemma xml_skip_0 st : skip 0 st = st.
Proof. unfold skip. destruct st. simpl. f_equal. lia. Qed.

Lemma xml_skip_skip n k st : skip n (skip k st) = skip (k + n) st.
Proof. unfold skip. simpl. f_equal. lia. Qed.

Lemma at_rest_skip st l rest : at_rest st (l ++ rest) -> at_rest (skip (length l) st) rest.
Proof.
  intros (pre & Hm & Hp & He & Hn). exists (pre ++ l). unfold skip. simpl. rewrite Hm, Hp, He, Hn, !length_app.
  split_and!; [by rewrite <- !app_assoc|lia|f_equal; lia|done].
Qed.

Lemma xml_reads_ret {A} (a : A) rest : reads (mret a) [] rest a.
Proof. intros st _. simpl. by rewrite xml_skip_0. Qed.

Lemma xml_reads_bind {A B} (m : act decoder A) (f : A -> act decoder B) b1 b2 rest a b :
  reads m b1 (b2 ++ rest) a -> reads (f a) b2 rest b -> reads (m ≫= f) (b1 ++ b2) rest b.
Proof.
  intros Hm Hf st Hst. rewrite <- app_assoc in Hst. unfold mbind, act_bind. rewrite (Hm st Hst).
  rewrite (Hf _ (at_rest_skip _ _ _ Hst)). by rewrite xml_skip_skip, length_app.
Qed.

Lemma xml_reads_bind_nil {A B} (m : act decoder A) (f : A -> act decoder B) bytes rest a b :
  reads m [] (bytes ++ rest) a -> reads (f a) bytes rest b -> reads (m ≫= f) bytes rest b.
Proof. intros. by eapply (xml_reads_bind m f []). Qed.

Lemma reads_get {B} (f : decoder -> act decoder B) bytes rest b :
  (forall st, at_rest st (bytes ++ rest) -> f st st = Ret (b, skip (length bytes) st)) -> reads (get ≫= f) bytes rest b.
Proof. intros H st Hst. by apply H. Qed.

Lemma reads_cur {B} (f : Z -> act decoder B) c bytes rest b :
  reads (f c) (c :: bytes) rest b -> reads (cur ≫= f) (c :: bytes) rest b.
Proof.
  intros H st Hst. rewrite <- (H st Hst). destruct Hst as (pre & Hm & Hp & He & Hn). unfold cur, mbind, act_bind. rewrite Hm, Hp.
  rewrite (byte_at_ok _ _ c); [done| |lia]. rewrite Nat2Z.id. apply lookup_app_at.
Qed.

(** The next byte may be the first of the rest. *)
Lemma reads_cur_rest {B} (f : Z -> act decoder B) c bytes rest rest' b :
  bytes ++ rest = c :: rest' -> reads (f c) bytes rest b -> reads (cur ≫= f) bytes rest b.
Proof.
  intros E H st Hst. rewrite <- (H st Hst). destruct Hst as (pre & Hm & Hp & He & Hn). unfold cur, mbind, act_bind. rewrite Hm, Hp, E.
  rewrite (byte_at_ok _ _ c); [done| |lia]. rewrite Nat2Z.id. apply lookup_app_at.
Qed.

Lemma reads_advance c rest : reads (advance 1) [c] rest tt.
Proof. by intros st _. Qed.

Lemma reads_expect c rest : reads (expect c) [c] rest tt.
Proof. unfold expect. apply reads_cur. rewrite Z.eqb_refl. apply reads_advance. Qed.

Lemma not_at_end st bytes rest c rest' : at_rest st (bytes ++ rest) -> bytes ++ rest = c :: rest' -> (pos st =? end_ st) = false.
Proof. intros (pre & _ & Hp & He & _) E. rewrite Hp, He, E, length_app. simpl. apply Z.eqb_neq. lia. Qed.

Lemma reads_skip_chars p l : forall fuel c rest, Forall (fun x => p x = true) l -> p c = false -> (length l < fuel)%nat ->
  reads (skip_chars fuel p) l (c :: rest) tt.
Proof.
  induction l as [|x l IH]; intros [|fuel] c rest Hl Hc Hf; try (simpl in Hf; lia); cbn [skip_chars]; apply reads_get; intros st Hst.
  - rewrite (not_at_end st [] (c :: rest) c rest Hst eq_refl). revert st Hst. apply reads_cur_rest with (c := c) (rest' := rest); [done|].
    rewrite Hc. apply xml_reads_ret.
  - rewrite (not_at_end st (x :: l) (c :: rest) x (l ++ c :: rest) Hst eq_refl). revert st Hst. apply list.Forall_cons in Hl as [Hx Hl].
    apply reads_cur. rewrite Hx. eapply (xml_reads_bind _ _ [x] l); [apply reads_advance|]. apply IH; [done|done|simpl in Hf; lia].
Qed.

Lemma all_fuel_large st rest : at_rest st rest -> (length rest < all_fuel st)%nat.
Proof. intros (pre & Hm & _). unfold all_fuel. rewrite Hm, !length_app. lia. Qed.

Lemma reads_skip_class p l c rest : Forall (fun x => p x = true) l -> p c = false -> reads (skip_class p) l (c :: rest) tt.
Proof.
  intros Hl Hc. apply reads_get. intros st Hst. pose proof (all_fuel_large st _ Hst) as Hf. rewrite length_app in Hf. revert st Hst Hf.
  intros st Hst Hf. apply (reads_skip_chars p l (all_fuel st) c rest Hl Hc); [lia|done].
Qed.

(** ** Names *)

Definition tag_name (n : list Z) : Prop := n <> [] /\ Forall (fun c => name_char c = true) n.

Lemma name_char_class c : name_char c = true -> isspace c = false /\ c <> 47 /\ c <> 33 /\ c <> 62 /\ c <> 60.
Proof. unfold name_char, isspace, isalnum, isalpha, isdigit. intros H. ztest; simpl in *; try done; split_and!; (done || lia). Qed.

Lemma mem_range_skip st l rest : at_rest st (l ++ rest) -> mem_range (mem st) (pos st) (Z.of_nat (length l)) = Ret l.
Proof. intros (pre & -> & -> & _). rewrite <- app_assoc. apply mem_range_app. Qed.

(** A name, before a character that is none of a name. *)
Lemma reads_name {B} (f : Z * list Z -> act decoder B) n bytes rest b c rest' :
  Forall (fun c => name_char c = true) n -> name_char c = false -> bytes ++ rest = c :: rest' ->
  (forall p, reads (f (p, n)) bytes rest b) -> reads (read_name ≫= f) (n ++ bytes) rest b.
Proof.
  intros Hn Hc E Hf st Hst. rewrite <- app_assoc in Hst. pose proof Hst as Hst1. rewrite E in Hst1.
  unfold read_name, get, mbind, act_bind. rewrite (reads_skip_class name_char n c rest' Hn Hc st Hst1).
  unfold range. cbn [mem pos skip]. replace (pos st + Z.of_nat (length n) - pos st) with (Z.of_nat (length n)) by lia.
  rewrite (mem_range_skip st n _ Hst). cbn [mbind res_bind mret act_ret].
  rewrite (Hf (pos st) _ (at_rest_skip _ _ _ Hst)). by rewrite xml_skip_skip, length_app.
Qed.

(** ** Elements *)

Definition start_tag (n : list Z) : list Z := 60 :: n ++ [62].
Definition end_tag (n : list Z) : list Z := 60 :: 47 :: n ++ [62].

(** Nothing of a class, before a character outside it. *)
Lemma reads_skip_none {B} p (f : unit -> act decoder B) bytes rest b c rest' :
  bytes ++ rest = c :: rest' -> p c = false -> reads (f tt) bytes rest b -> reads (skip_class p ≫= f) bytes rest b.
Proof. intros E Hc Hf. eapply xml_reads_bind_nil; [rewrite E; by apply (reads_skip_class p [] c rest')|done]. Qed.

Lemma reads_next_start fuel n rest : tag_name n -> reads (next_element (S fuel)) (start_tag n) rest (0, n).
Proof.
  intros [Hne Hn]. destruct n as [|x n]; [done|]. apply list.Forall_cons in Hn as Hx. destruct Hx as [Hx _].
  destruct (name_char_class x Hx) as (H1 & H2 & H3 & H4 & H5). cbn [next_element]. apply reads_get. intros st Hst.
  rewrite (not_at_end st _ _ _ _ Hst eq_refl). revert st Hst. apply reads_cur. cbn [isspace Z.eqb Z.leb Pos.eqb Pos.compare Pos.compare_cont orb andb].
  eapply (xml_reads_bind _ _ [60]); [apply reads_advance|]. eapply reads_skip_none; [done|done|].
  apply reads_cur. destruct (Z.eqb_spec x 47); [done|]. destruct (Z.eqb_spec x 33); [done|].
  eapply reads_skip_none; [done|done|]. eapply (reads_name _ (x :: n) [62] rest _ 62 rest); [done|done|done|]. intros p.
  eapply reads_skip_none; [done|done|]. apply reads_cur. cbn [Z.eqb Pos.eqb].
  eapply xml_reads_bind_nil; [apply xml_reads_ret|]. eapply (xml_reads_bind _ _ [62] []); [apply reads_expect|]. apply xml_reads_ret.
Qed.

Lemma reads_next_end fuel n rest : tag_name n -> reads (next_element (S fuel)) (end_tag n) rest (1, n).
Proof.
  intros [Hne Hn]. destruct n as [|x n]; [done|]. apply list.Forall_cons in Hn as Hx. destruct Hx as [Hx _].
  destruct (name_char_class x Hx) as (H1 & H2 & H3 & H4 & H5). cbn [next_element]. apply reads_get. intros st Hst.
  rewrite (not_at_end st _ _ _ _ Hst eq_refl). revert st Hst. apply reads_cur. cbn [isspace Z.eqb Z.leb Pos.eqb Pos.compare Pos.compare_cont orb andb].
  eapply (xml_reads_bind _ _ [60]); [apply reads_advance|]. eapply reads_skip_none; [done|done|].
  apply reads_cur. cbn [Z.eqb Pos.eqb]. eapply (xml_reads_bind _ _ [47]); [apply reads_advance|].
  eapply reads_skip_none; [done|done|]. eapply (reads_name _ (x :: n) [62] rest _ 62 rest); [done|done|done|]. intros p.
  eapply reads_skip_none; [done|done|]. eapply (xml_reads_bind _ _ [62] []); [apply reads_expect|]. apply xml_reads_ret.
Qed.

(** White space before an element. *)
Lemma reads_next_space ws : forall fuel l rest r, Forall (fun c => isspace c = true) ws -> (length ws < fuel)%nat ->
  (forall fuel, reads (next_element (S fuel)) l rest r) -> reads (next_element fuel) (ws ++ l) rest r.
Proof.
  induction ws as [|x ws IH]; intros [|fuel] l rest r Hw Hf Hr; try (simpl in Hf; lia); [apply Hr|].
  apply list.Forall_cons in Hw as [Hx Hw]. cbn [next_element app]. apply reads_get. intros st Hst.
  rewrite (not_at_end st _ _ _ _ Hst eq_refl). revert st Hst. apply reads_cur. rewrite Hx.
  eapply (xml_reads_bind _ _ [x]); [apply reads_advance|]. apply IH; [done|simpl in Hf; lia|done].
Qed.

Lemma reads_move ws l rest r : Forall (fun c => isspace c = true) ws ->
  (forall fuel, reads (next_element (S fuel)) l rest r) -> reads moveToNextElement (ws ++ l) rest r.
Proof.
  intros Hw Hr. unfold moveToNextElement. apply reads_get. intros st Hst. pose proof Hst as (_ & _ & _ & _ & ->).
  pose proof (all_fuel_large st _ Hst) as Hf. rewrite !length_app in Hf.
  apply (reads_next_space ws (all_fuel st) l rest r Hw); [lia|done|done].
Qed.

Lemma reads_start n rest : tag_name n -> reads moveToNextElement (start_tag n) rest (0, n).
Proof. intros Hn. apply (reads_move []); [done|]. intros fuel. by apply reads_next_start. Qed.

Lemma reads_end n rest : tag_name n -> reads moveToNextElement (end_tag n) rest (1, n).
Proof. intros Hn. apply (reads_move []); [done|]. intros fuel. by apply reads_next_end. Qed.

(** The tags of the protocol, whose names are given as strings. *)
Definition otag (s : string) : list Z := start_tag (chars s).
Definition ctag (s : string) : list Z := end_tag (chars s).

Definition tag_string (s : string) : bool := match chars s with [] => false | l => forallb name_char l end.

Lemma tag_string_ok s : tag_string s = true -> tag_name (chars s).
Proof.
  unfold tag_string, tag_name. destruct (chars s) as [|c l]; [done|]. intros H. split; [done|].
  apply list.Forall_forall. intros x Hx. rewrite forallb_forall in H. apply H. by apply list_elem_of_In.
Qed.

Lemma is_tag_refl s : is_tag (chars s) s = true.
Proof. by apply bool_decide_eq_true_2. Qed.

Lemma reads_req_start s rest : tag_string s = true -> reads (moveToNextElementReqStart s) (otag s) rest tt.
Proof.
  intros Hs. unfold moveToNextElementReqStart. rewrite <- (app_nil_r (otag s)).
  eapply xml_reads_bind; [by apply reads_start, tag_string_ok|]. simpl fst. simpl snd. rewrite is_tag_refl. apply xml_reads_ret.
Qed.

Lemma reads_req_end s rest : tag_string s = true -> reads (moveToNextElementReqEnd s) (ctag s) rest tt.
Proof.
  intros Hs. unfold moveToNextElementReqEnd. rewrite <- (app_nil_r (ctag s)).
  eapply xml_reads_bind; [by apply reads_end, tag_string_ok|]. simpl fst. simpl snd. rewrite is_tag_refl. apply xml_reads_ret.
Qed.

(** ** Values *)

(** A value at the top of a message is inside a [param]. *)
Definition popen (top : bool) : list Z := if top then otag "param" else [].
Definition pclose (top : bool) : list Z := if top then ctag "param" else [].

(** What may follow a value: an element that is not the end of a [param]. *)
Definition follows (top : bool) (rest : list Z) : Prop :=
  if top then True else
  exists n r, tag_name n /\ ((rest = start_tag n ++ r) \/ (rest = end_tag n ++ r /\ n <> chars "param")).

Lemma reads_next_value top t rest : tag_name t -> reads moveToNextValue (popen top ++ otag "value" ++ start_tag t) rest t.
Proof.
  intros Ht. unfold moveToNextValue. apply reads_get. intros st Hst.
  assert (forall fuel, reads (next_value (S fuel)) (otag "value" ++ start_tag t) rest t) as Hv.
  { intros fuel. cbn [next_value]. eapply xml_reads_bind; [by apply reads_start, tag_string_ok|]. simpl fst. simpl snd. rewrite is_tag_refl.
    cbn [negb Z.eqb]. rewrite <- (app_nil_r (start_tag t)). eapply xml_reads_bind; [by apply reads_start|]. apply xml_reads_ret. }
  revert st Hst. unfold all_fuel. intros st Hst. destruct top; [|by apply Hv]. revert Hst. generalize (length (mem st)). intros k. revert st.
  change (reads (next_value (S (S k))) (otag "param" ++ otag "value" ++ start_tag t) rest t).
  eapply (xml_reads_bind moveToNextElement); [by apply reads_start, tag_string_ok|]. cbn [fst snd negb Z.eqb].
  change (is_tag (chars "param") "value") with false. rewrite is_tag_refl. apply Hv.
Qed.

(** The end of a value, and of the [param] around it; what follows is looked at
    only. *)
Lemma reads_value_end top t rest : tag_name t -> follows top rest ->
  reads skipValueEnd (end_tag t ++ ctag "value" ++ pclose top) rest tt.
Proof.
  intros Ht Hf. unfold skipValueEnd. eapply xml_reads_bind; [by apply reads_end|]. cbn [fst snd negb Z.eqb Pos.eqb].
  eapply xml_reads_bind; [by apply reads_req_end|]. apply reads_get. intros st Hst. destruct top; cbn [pclose follows app length] in *.
  - unfold mbind at 1, act_bind. rewrite (reads_end (chars "param") rest ltac:(by apply tag_string_ok) st Hst). cbn [fst snd negb Z.eqb Pos.eqb orb].
    by rewrite is_tag_refl.
  - destruct Hf as (n & r & Hn & Hr). assert (exists k m, moveToNextElement st = Ret ((k, n), skip m st) /\ (k = 1 -> n <> chars "param")) as (k & m & E & Hk).
    { destruct Hr as [-> | [-> Hp]]; [exists 0, (length (start_tag n))|exists 1, (length (end_tag n))]; (split; [|done]); [by apply reads_start with (rest := r)|by apply reads_end with (rest := r)]. }
    unfold mbind at 1, act_bind. rewrite E. cbn [fst snd].
    assert (negb (k =? 1) || negb (is_tag n "param") = true) as ->.
    { destruct (Z.eqb_spec k 1) as [Ek|]; [|done]. simpl. apply negb_true_iff, bool_decide_eq_false. by apply Hk. }
    unfold set_pos, skip. simpl. f_equal. f_equal. destruct st; simpl; f_equal; lia.
Qed.

(** ** Texts *)

Definition no_tag (l : list Z) : Prop := Forall (fun c => c <> 60) l.

Lemma before_end st bytes rest c rest' : at_rest st (bytes ++ rest) -> bytes ++ rest = c :: rest' -> (pos st <? end_ st) = true.
Proof. intros (pre & _ & Hp & He & _) E. rewrite Hp, He, E, length_app. simpl. apply Z.ltb_lt. lia. Qed.

Lemma reads_skip_content l : forall fuel r, no_tag l -> (length l < fuel)%nat -> reads (skip_content fuel) l (60 :: r) tt.
Proof.
  induction l as [|x l IH]; intros [|fuel] r Hl Hf; try (simpl in Hf; lia); cbn [skip_content]; apply reads_get; intros st Hst.
  - rewrite (before_end st [] _ _ _ Hst eq_refl). revert st Hst. apply reads_cur_rest with (c := 60) (rest' := r); [done|]. apply xml_reads_ret.
  - rewrite (before_end st (x :: l) _ _ _ Hst eq_refl). revert st Hst. apply list.Forall_cons in Hl as [Hx Hl].
    apply reads_cur. destruct (Z.eqb_spec x 60); [done|]. cbn [negb]. eapply (xml_reads_bind _ _ [x] l); [apply reads_advance|].
    apply IH; [done|simpl in Hf; lia].
Qed.

Lemma reads_content {B} (f : Z * Z -> act decoder B) l bytes rest b r :
  no_tag l -> bytes ++ rest = 60 :: r ->
  (forall st, at_rest st (l ++ bytes ++ rest) -> f (pos st, Z.of_nat (length l)) (skip (length l) st) = Ret (b, skip (length (l ++ bytes)) st)) ->
  reads (readContent ≫= f) (l ++ bytes) rest b.
Proof.
  intros Hl E Hf st Hst. rewrite <- app_assoc in Hst. unfold readContent, get, mbind, act_bind.
  assert (empty_el st = None) as -> by (by destruct Hst as (_ & _ & _ & _ & ?)).
  pose proof (all_fuel_large st _ Hst) as Hfu. rewrite length_app in Hfu. pose proof Hst as Hst1. rewrite E in Hst1.
  rewrite (reads_skip_content l (all_fuel st) r Hl ltac:(lia) st Hst1).
  cbn [pos skip mret act_ret]. replace (pos st + Z.of_nat (length l) - pos st) with (Z.of_nat (length l)) by lia. by apply Hf.
Qed.

(** ** Scalars *)

(** Any computation on the text of a scalar that leaves the decoder alone. *)
Definition at_text {B} (f : Z * Z -> act decoder B) (l : list Z) (b : B) : Prop :=
  forall st pre post, mem st = pre ++ l ++ 60 :: post -> f (Z.of_nat (length pre), Z.of_nat (length l)) st = Ret (b, st).

Definition scalar (t l : list Z) (top : bool) : list Z := otag "value" ++ start_tag t ++ l ++ end_tag t ++ ctag "value" ++ pclose top.

Lemma reads_scalar {B} (ok : list Z -> bool) (f : Z * Z -> act decoder B) o top t l rest b :
  tag_name t -> ok t = true -> no_tag l -> follows top rest -> at_text f l b ->
  reads (scalar_content ok ≫= f) (popen o ++ scalar t l top) rest b.
Proof.
  intros Ht Hok Hl Hfo Hf. unfold scalar. rewrite (app_assoc (otag "value")), (app_assoc (popen o)).
  unfold scalar_content. intros st Hst. rewrite <- app_assoc in Hst. pose proof (reads_next_value o t _ Ht st Hst) as E.
  apply at_rest_skip in Hst. set (st1 := skip (length (popen o ++ otag "value" ++ start_tag t)) st) in *.
  assert (reads (cont ← readContent; _ ← skipValueEnd; mret cont ≫= f) (l ++ end_tag t ++ ctag "value" ++ pclose top) rest b) as K.
  { eapply (reads_content _ l _ rest _ (47 :: (t ++ [62]) ++ (ctag "value" ++ pclose top) ++ rest)); [done|by unfold end_tag; simpl; rewrite <- !app_assoc|]. intros st2 Hst2. pose proof (at_rest_skip _ _ _ Hst2) as Hst3.
    rewrite <- app_assoc in Hst2. unfold mbind, act_bind. rewrite (reads_value_end top t rest Ht Hfo _ Hst3). rewrite xml_skip_skip, <- length_app.
    simpl. destruct Hst2 as (pre & Hm & Hp & _). rewrite Hp. rewrite (Hf _ pre (47 :: t ++ [62] ++ ctag "value" ++ pclose top ++ rest ++ [0])); [done|].
    unfold skip. cbn [mem]. rewrite Hm.
    unfold end_tag. cbn [app]. do 3 (rewrite <- ?app_assoc; cbn [app]). done. }
  rewrite length_app, <- xml_skip_skip. fold st1. rewrite <- (K st1 Hst). unfold mbind, act_bind. rewrite E, Hok. fold st1.
  destruct (readContent st1) as [[cont st2]| | |]; try done. by destruct (skipValueEnd st2) as [[[] st3]| | |].
Qed.
