(* ===== verification/XmlRpcScalar.v ===== *)
(** * Scalars of XML-RPC

    What the decoder makes of the text of a scalar: integers, booleans, strings
    with their entities, base64 and dates. *)

From Stdlib Require Import String.
From S2P Require Import Prelude Machine CString Time Base64 RpcDecoder XmlRpcDecoder XmlRpcEncoder XmlRpcText.

#[local] Open Scope list_scope.

Lemma range_text {B} (f : list Z -> act decoder B) st pre l post :
  mem st = pre ++ l ++ post -> (range (Z.of_nat (length pre)) (Z.of_nat (length l)) ≫= f) st = f l st.
Proof. intros Hm. unfold range, mbind, act_bind. by rewrite Hm, mem_range_app. Qed.

Lemma at_pos {B} (f : Z -> act decoder B) st pre c post p :
  mem st = pre ++ c :: post -> p = Z.of_nat (length pre) -> (at_ p ≫= f) st = f c st.
Proof.
  intros Hm ->. unfold at_, mbind, act_bind. rewrite Hm, (byte_at_ok _ _ c); [done| |lia]. rewrite Nat2Z.id. apply lookup_app_at.
Qed.

(** ** Integers *)

Lemma s8_digit c : 0 <= c < 128 -> s8 c = c.
Proof. intros H. apply swrap_id; [done|unfold in_s; lia]. Qed.

Lemma dec_rev_S fuel n : dec_rev (S fuel) n = if n <? 10 then [48 + n] else (48 + n mod 10) :: dec_rev fuel (n / 10).
Proof. done. Qed.

Lemma add_digits_rev w fuel n : 0 < w -> 0 <= n < 2 ^ (w - 1) -> n < 10 ^ Z.of_nat fuel -> (0 < fuel)%nat ->
  add_digits w (rev (dec_rev fuel n)) = n.
Proof.
  intros Hw. unfold add_digits. revert n. induction fuel as [|fuel IH]; intros n Hn Hf Hp; [lia|]. rewrite dec_rev_S.
  rewrite Nat2Z.inj_succ, Z.pow_succ_r in Hf by lia. destruct (Z.ltb_spec n 10).
  - cbn [rev app fold_left]. rewrite s8_digit by lia. replace (0 * 10 + (48 + n) - 48) with n by lia. apply swrap_id; [done|unfold in_s; lia].
  - cbn [rev]. rewrite fold_left_app. cbn [fold_left]. assert (0 <= n / 10 < 2 ^ (w - 1)) as Hd by divlia.
    rewrite IH; [|done|apply Z.div_lt_upper_bound; lia|destruct fuel; [simpl in Hf; lia|lia]]. rewrite s8_digit by divlia.
    replace (n / 10 * 10 + (48 + n mod 10) - 48) with n by divlia. apply swrap_id; [done|unfold in_s; lia].
Qed.

Lemma sub_digits_rev w fuel n a : 0 < w -> 0 <= n -> n < 10 ^ Z.of_nat fuel -> (0 < fuel)%nat ->
  let k := Z.of_nat (length (dec_rev fuel n)) in - 2 ^ (w - 1) <= a * 10 ^ k - n -> a * 10 ^ k < 2 ^ (w - 1) -> 0 <= a ->
  fold_left (fun val c => swrap w (val * 10 - (s8 c - 48))) (rev (dec_rev fuel n)) a = a * 10 ^ k - n.
Proof.
  intros Hw. revert n. induction fuel as [|fuel IH]; intros n Hn Hf Hp k H1 H2 H3; [lia|]. subst k. rewrite dec_rev_S in *.
  rewrite Nat2Z.inj_succ, Z.pow_succ_r in Hf by lia. destruct (Z.ltb_spec n 10).
  - cbn [rev app fold_left length] in *. rewrite s8_digit by lia. change (Z.of_nat 1) with 1 in *. rewrite Z.pow_1_r in *.
    replace (a * 10 - (48 + n - 48)) with (a * 10 - n) by lia. apply swrap_id; [done|unfold in_s; lia].
  - cbn [rev length] in *. rewrite fold_left_app. cbn [fold_left]. rewrite Nat2Z.inj_succ, Z.pow_succ_r in * by lia.
    set (p := 10 ^ Z.of_nat (length (dec_rev fuel (n / 10)))) in *. assert (0 < p) by (apply Z.pow_pos_nonneg; lia).
    assert (0 < 2 ^ (w - 1)) as HM by (apply Z.pow_pos_nonneg; lia). set (M := 2 ^ (w - 1)) in *.
    replace (a * (10 * p)) with (10 * (a * p)) in * by ring. assert (0 <= a * p) by (apply Z.mul_nonneg_nonneg; lia). set (ap := a * p) in *.
    assert (10 * (n / 10) <= n /\ 0 <= n / 10) by divlia.
    rewrite IH; [|lia|apply Z.div_lt_upper_bound; lia|destruct fuel; [simpl in Hf; lia|lia]|fold p ap; lia|fold p ap; lia|done]; fold p ap.
    rewrite s8_digit by divlia. replace ((ap - n / 10) * 10 - (48 + n mod 10 - 48)) with (10 * ap - n) by divlia.
    apply swrap_id; [done|unfold in_s; fold M; lia].
Qed.

Lemma add_digits_dec w n : 0 < w -> 0 <= n < 2 ^ (w - 1) -> add_digits w (dec n) = n.
Proof. intros Hw Hn. unfold dec. apply add_digits_rev; [done|done|by apply dec_fuel; lia|lia]. Qed.

Lemma sub_digits_dec w n : 0 < w -> 0 <= n <= 2 ^ (w - 1) -> sub_digits w (dec n) = - n.
Proof.
  intros Hw Hn. assert (0 < 2 ^ (w - 1)) by (apply Z.pow_pos_nonneg; lia). unfold sub_digits, dec.
  rewrite sub_digits_rev; rewrite ?Z.mul_0_l; (done || lia || (by apply dec_fuel; lia)).
Qed.

Lemma dec_digit_text n : 0 <= n -> exists c l, dec n = c :: l /\ 48 <= c <= 57.
Proof.
  intros Hn. pose proof (dec_digits n Hn) as Hd. destruct (dec n) as [|c l] eqn:E.
  - pose proof (dec_starts n [] Hn) as Hs. by rewrite E in Hs.
  - exists c, l. split; [done|]. apply list.Forall_cons in Hd as [Hd _]. by apply isdigit_bounds.
Qed.

Lemma dec_no_tag n : 0 <= n -> no_tag (dec n).
Proof. intros Hn. unfold no_tag. eapply list.Forall_impl; [by apply dec_digits|]. intros c Hc. simpl in Hc. apply isdigit_bounds in Hc. lia. Qed.

Definition int64_of (cont : Z * Z) : act decoder Z :=
  let '(cont_start, cont_length) := cont in
  c ← at_ cont_start;
  if c =? 45 then l ← range cont_start (u64 (cont_length - 1)); mret (sub_digits 64 l)
  else l ← range cont_start cont_length; mret (add_digits 64 l).

Definition int32_of (cont : Z * Z) : act decoder Z :=
  let '(cont_start, cont_length) := cont in
  c ← at_ cont_start;
  if c =? 45 then l ← range (cont_start + 1) (u64 (cont_length - 1)); mret (sub_digits 32 l)
  else l ← range cont_start cont_length; mret (add_digits 32 l).

Lemma int64_text n : 0 <= n < 2 ^ 63 -> at_text int64_of (dec n) n.
Proof.
  intros Hn st pre post Hm. destruct (dec_digit_text n ltac:(lia)) as (c & l & E & Hc). unfold int64_of.
  rewrite (at_pos _ st pre c (l ++ 60 :: post)); [|by rewrite Hm, E|done]. destruct (Z.eqb_spec c 45); [lia|].
  erewrite range_text by exact Hm. rewrite add_digits_dec by lia. done.
Qed.

(** The digits of an integer of 64 bits are few. *)
Lemma int32_text n : in_s 32 n -> at_text int32_of (print_int n) n.
Proof.
  intros Hn st pre post Hm. unfold in_s in Hn. unfold int32_of, print_int in *. destruct (Z.ltb_spec n 0).
  - cbn [app] in Hm. rewrite (at_pos _ st pre 45 (dec (- n) ++ 60 :: post)) by done. cbn [Z.eqb Pos.eqb].
    pose proof (dec_short (- n) ltac:(lia)) as Hs. rewrite (uwrap_id 64) by (unfold in_u; cbn [length]; lia).
    replace (Z.of_nat (length pre) + 1) with (Z.of_nat (length (pre ++ [45]))) by (rewrite length_app; simpl; lia).
    replace (Z.of_nat (length (45 :: dec (- n))) - 1) with (Z.of_nat (length (dec (- n)))) by (cbn [length]; lia).
    erewrite range_text by (rewrite Hm, <- app_assoc; reflexivity). rewrite sub_digits_dec by lia. by rewrite Z.opp_involutive.
  - destruct (dec_digit_text n ltac:(lia)) as (c & l & E & Hc).
    rewrite (at_pos _ st pre c (l ++ 60 :: post)); [|by rewrite Hm, E|done]. destruct (Z.eqb_spec c 45); [lia|].
    erewrite range_text by exact Hm. rewrite add_digits_dec by lia. done.
Qed.

Lemma dec_rev_bound f n : 0 <= n < 10 ^ Z.of_nat f -> n < 10 ^ Z.of_nat (length (dec_rev f n)).
Proof.
  revert n. induction f as [|f IH]; intros n Hn; [simpl in *; lia|]. rewrite dec_rev_S. rewrite Nat2Z.inj_succ, Z.pow_succ_r in Hn by lia.
  destruct (Z.ltb_spec n 10); [simpl; lia|]. cbn [length]. rewrite Nat2Z.inj_succ, Z.pow_succ_r by lia.
  assert (n / 10 < 10 ^ Z.of_nat (length (dec_rev f (n / 10)))) by (apply IH; split; [divlia|apply Z.div_lt_upper_bound; lia]). divlia.
Qed.

Lemma dec_rev_digits_max f n k : 0 <= n < 10 ^ Z.of_nat k -> (0 < k)%nat -> (length (dec_rev f n) <= k)%nat.
Proof.
  revert n k. induction f as [|f IH]; intros n k Hn Hk; [simpl; lia|]. rewrite dec_rev_S. destruct (Z.ltb_spec n 10); [simpl; lia|].
  destruct k as [|[|k]]; [lia|simpl in Hn; lia|]. rewrite Nat2Z.inj_succ, Z.pow_succ_r in Hn by lia. cbn [length].
  specialize (IH (n / 10) (S k)). pose proof (Z.div_lt_upper_bound n 10 (10 ^ Z.of_nat (S k)) ltac:(lia) ltac:(lia)).
  assert (0 <= n / 10) by divlia. lia.
Qed.

(** What [readInt64] makes of a negative number. *)
Lemma int64_negative_text m : 0 < m <= 2 ^ 63 -> exists r, 0 < r /\ at_text int64_of (45 :: dec m) r.
Proof.
  intros Hm. pose proof (dec_short m ltac:(lia)) as Hs. pose proof (dec_fuel m ltac:(lia)) as Hf.
  assert (forall l c, dec m = l ++ [c] -> at_text int64_of (45 :: dec m) (sub_digits 64 (45 :: l))) as K.
  { intros l c E st pre post Hmem. unfold int64_of. cbn [app] in Hmem. rewrite (at_pos _ st pre 45 (dec m ++ 60 :: post)) by done. cbn [Z.eqb Pos.eqb].
    rewrite (uwrap_id 64) by (unfold in_u; cbn [length]; lia). rewrite E.
    replace (Z.of_nat (length (45 :: l ++ [c])) - 1) with (Z.of_nat (length (45 :: l))) by (cbn [length]; rewrite length_app; simpl; lia).
    erewrite range_text; [done|]. rewrite Hmem, E. cbn [app]. rewrite <- app_assoc. reflexivity. }
  unfold dec in K at 1. rewrite dec_rev_S in K. destruct (Z.ltb_spec m 10) as [Hlt|Hge].
  - exists 3. split; [done|]. apply (K [] (48 + m)). done.
  - set (f := Z.to_nat (Z.log2 m)) in *. rewrite Nat2Z.inj_succ, Z.pow_succ_r in Hf by lia.
    assert (0 <= m / 10 < 10 ^ Z.of_nat f) as Hd by (split; [divlia|apply Z.div_lt_upper_bound; lia]).
    exists (sub_digits 64 (45 :: rev (dec_rev f (m / 10)))). split; [|by apply (K _ (48 + m mod 10))].
    pose proof (dec_rev_bound f (m / 10) Hd) as Hb. pose proof (dec_rev_digits_max f (m / 10) 18) as Hk.
    assert (10 ^ Z.of_nat (length (dec_rev f (m / 10))) <= 10 ^ 18) as Hp.
    { apply Z.pow_le_mono_r; [lia|]. assert (0 <= m / 10 < 10 ^ Z.of_nat 18) by (split; [lia|simpl; divlia]). specialize (Hk H). lia. }
    assert ((0 < f)%nat) by (destruct f; [simpl in Hd; divlia|lia]).
    unfold sub_digits. cbn [fold_left]. replace (swrap 64 (0 * 10 - (s8 45 - 48))) with 3 by done.
    rewrite sub_digits_rev; lia.
Qed.

(** ** Strings *)

Definition escape_char (c : Z) : list Z :=
  if c =? 38 then chars "&amp;" else if c =? 60 then chars "&lt;" else if c =? 62 then chars "&gt;" else [c].
Definition escape (l : list Z) : list Z := flat_map escape_char l.

Lemma take_1 {A} (l : list A) p x : l !! p = Some x -> take 1 (drop p l) = [x].
Proof. intros H. apply drop_S in H. by rewrite H. Qed.

Lemma find_loop_single c : forall fuel str p, (length str < p + fuel)%nat -> (1 <= length str)%nat ->
  match find_loop fuel str [c] p with
  | None => Forall (fun x => x <> c) (drop p str)
  | Some q => (p <= q)%nat /\ str !! q = Some c /\ Forall (fun x => x <> c) (drop p (take q str))
  end.
Proof.
  induction fuel as [|fuel IH]; intros str p Hf Hl; cbn [find_loop length]; [rewrite drop_ge by lia; constructor|].
  destruct (Nat.ltb_spec (length str - 1) p) as [Hp|Hp]; [rewrite drop_ge by lia; constructor|].
  destruct (lookup_lt_is_Some_2 str p ltac:(lia)) as [x Hx]. rewrite (take_1 str p x Hx). case_bool_decide as E.
  - injection E as ->. split_and!; [lia|done|]. rewrite drop_ge by (rewrite length_take; lia). constructor.
  - specialize (IH str (S p) ltac:(lia) Hl). assert (x <> c) by congruence. destruct (find_loop fuel str [c] (S p)) as [q|].
    + destruct IH as (H1 & H2 & H3). split_and!; [lia|done|]. rewrite (drop_S _ x) by (rewrite lookup_take_lt by lia; done). by constructor.
    + rewrite (drop_S _ x) by done. by constructor.
Qed.

Lemma flat_map_none {A} (f : A -> list A) (l : list A) : Forall (fun x => f x = [x]) l -> flat_map f l = l.
Proof. induction 1 as [|x l Hx _ IH]; simpl; [done|]. by rewrite Hx, IH. Qed.

(** Replacing one character. *)
Lemma replace_single c rep : forall fuel done_ str, (length str < fuel)%nat ->
  replace_loop fuel [c] rep (done_ ++ str) (length done_) = Ret (done_ ++ flat_map (fun x => if x =? c then rep else [x]) str).
Proof.
  induction fuel as [|fuel IH]; intros done_ str Hf; [lia|]. cbn [replace_loop]. unfold find. cbn [length].
  destruct (Nat.ltb_spec (length (done_ ++ str)) 1) as [H0|H0].
  { rewrite length_app in H0. destruct str; [done|simpl in H0; lia]. }
  pose proof (find_loop_single c (S (length (done_ ++ str))) (done_ ++ str) (length done_) ltac:(lia) ltac:(lia)) as Hs.
  destruct (find_loop _ _ _ _) as [q|].
  - destruct Hs as (H1 & H2 & H3). rewrite lookup_app_r in H2 by done. remember (q - length done_)%nat as k eqn:Ek.
    assert (q = (length done_ + k)%nat) as -> by lia. clear Ek. destruct (list_elem_of_split_length str k c H2) as (l1 & l2 & -> & Hk).
    rewrite take_app_add, drop_app_length, Hk, take_app_length in H3. rewrite take_app_add, Hk, take_app_length.
    replace (drop (length done_ + length l1 + 1) (done_ ++ l1 ++ c :: l2)) with l2.
    2:{ rewrite app_assoc. change (c :: l2) with ([c] ++ l2). rewrite app_assoc, drop_app_length'; [done|]. rewrite !length_app. simpl. lia. }
    replace ((done_ ++ l1) ++ rep ++ l2) with ((done_ ++ l1 ++ rep) ++ l2) by (by rewrite <- !app_assoc).
    replace (length done_ + length l1 + length rep)%nat with (length (done_ ++ l1 ++ rep)) by (rewrite !length_app; lia).
    rewrite IH by (rewrite length_app in Hf; simpl in Hf; lia). f_equal. rewrite <- !app_assoc, flat_map_app. simpl. rewrite Z.eqb_refl.
    rewrite (flat_map_none _ l1); [done|]. eapply list.Forall_impl; [exact H3|]. intros x Hx. simpl. by rewrite (proj2 (Z.eqb_neq x c) Hx).
  - rewrite drop_app_length in Hs. rewrite flat_map_none; [done|]. eapply list.Forall_impl; [exact Hs|].
    intros x Hx. simpl. by rewrite (proj2 (Z.eqb_neq x c) Hx).
Qed.

Lemma replace_char c rep str : replace [c] rep str = Ret (flat_map (fun x => if x =? c then rep else [x]) str).
Proof. unfold replace. rewrite bool_decide_eq_false_2 by done. apply (replace_single c rep _ []); lia. Qed.

Lemma flat_map_map {A B C} (f : A -> list B) (g : B -> list C) l : flat_map g (flat_map f l) = flat_map (fun x => flat_map g (f x)) l.
Proof. induction l as [|x l IH]; simpl; [done|]. by rewrite flat_map_app, IH. Qed.

Lemma replace_all str : (e ← replace (chars "&") (chars "&amp;") str; e ← replace (chars "<") (chars "&lt;") e; replace (chars ">") (chars "&gt;") e) = Ret (escape str).
Proof.
  change (chars "&") with [38]. change (chars "<") with [60]. change (chars ">") with [62]. rewrite replace_char. cbn [mbind res_bind].
  rewrite replace_char. cbn [mbind res_bind]. rewrite replace_char, !flat_map_map. f_equal. apply flat_map_ext. intros x. unfold escape_char.
  destruct (Z.eqb_spec x 38) as [->|]; [done|]. cbn [flat_map]. destruct (Z.eqb_spec x 60) as [->|]; [done|]. cbn [app flat_map].
  by destruct (Z.eqb_spec x 62).
Qed.

Lemma escape_no_tag l : no_tag (escape l).
Proof.
  unfold no_tag, escape. induction l as [|x l IH]; simpl; [constructor|]. apply Forall_app. split; [|done]. unfold escape_char.
  destruct (Z.eqb_spec x 38); [by repeat constructor|]. destruct (Z.eqb_spec x 60); [by repeat constructor|].
  destruct (Z.eqb_spec x 62); [by repeat constructor|]. by repeat constructor.
Qed.

(** ** Entities *)

Lemma range_at {B} (f : list Z -> act decoder B) st pre l post p n :
  mem st = pre ++ l ++ post -> p = Z.of_nat (length pre) -> n = Z.of_nat (length l) -> (range p n ≫= f) st = f l st.
Proof. intros Hm -> ->. by eapply range_text. Qed.

Lemma convert_loop_S fuel str send cap out : convert_loop (S fuel) str send cap out =
  if negb (str <? send) then mret out
  else
    let store c := if cap <=? Z.of_nat (length out) then lift (Crash OutOfBounds) else mret (out ++ [c]) in
    c ← at_ str;
    let str := str + 1 in
    if c =? 38 then
      l ← range str 3;
      if bool_decide (l = chars "lt;") then out ← store 60; convert_loop fuel (str + 3) send cap out
      else if bool_decide (l = chars "gt;") then out ← store 62; convert_loop fuel (str + 3) send cap out
      else if bool_decide (l = chars "quo") then out ← store 34; convert_loop fuel (str + 5) send cap out
      else if bool_decide (l = chars "amp") then out ← store 38; convert_loop fuel (str + 4) send cap out
      else
        c ← at_ str;
        if c =? 35 then
          s ← c_string (str + 1);
          let '(n, rest) := strtoll s in
          out ← store (u8 n);
          if negb (deref rest =? 59) then throw InvalidFormatException
          else convert_loop fuel (str + 1 + (Z.of_nat (length s) - Z.of_nat (length rest)) + 1) send cap out
        else throw InvalidFormatException
    else out ← store c; convert_loop fuel str send cap out.
Proof. done. Qed.

Lemma convert_escape st l : forall fuel pre post cap out, mem st = pre ++ escape l ++ post -> (length l < fuel)%nat ->
  Z.of_nat (length out + length l) <= cap ->
  convert_loop fuel (Z.of_nat (length pre)) (Z.of_nat (length pre + length (escape l))) cap out st = Ret (out ++ l, st).
Proof.
  induction l as [|x l IH]; intros [|fuel] pre post cap out Hm Hf Hc; try (simpl in Hf; lia); rewrite convert_loop_S.
  - change (length (escape [])) with 0%nat. destruct (Z.ltb_spec (Z.of_nat (length pre)) (Z.of_nat (length pre + 0))); [lia|].
    by rewrite app_nil_r.
  - cbn [length] in *. assert (escape (x :: l) = escape_char x ++ escape l) as Ex by done. rewrite Ex in *.
    (* one character is stored and the rest is left to the induction *)
    assert (forall k, k = length (escape_char x) ->
      convert_loop fuel (Z.of_nat (length pre) + Z.of_nat k) (Z.of_nat (length pre + length (escape_char x ++ escape l))) cap (out ++ [x]) st = Ret (out ++ x :: l, st)) as K.
    { intros k ->. replace (out ++ x :: l) with ((out ++ [x]) ++ l) by (by rewrite <- app_assoc).
      replace (Z.of_nat (length pre) + Z.of_nat (length (escape_char x))) with (Z.of_nat (length (pre ++ escape_char x))) by (rewrite length_app; lia).
      replace (length pre + length (escape_char x ++ escape l))%nat with (length (pre ++ escape_char x) + length (escape l))%nat by (rewrite !length_app; lia).
      apply (IH fuel (pre ++ escape_char x) post); [by rewrite Hm, <- !app_assoc|lia|rewrite length_app; simpl; lia]. }
    assert (0 < length (escape_char x))%nat as Hpos by (unfold escape_char; repeat case_match; simpl; lia).
    destruct (Z.ltb_spec (Z.of_nat (length pre)) (Z.of_nat (length pre + length (escape_char x ++ escape l)))); [|rewrite length_app in *; lia].
    cbn [negb]. destruct (Z.leb_spec cap (Z.of_nat (length out))); [lia|]. cbv zeta. clear IH Ex.
    unfold escape_char in *. destruct (Z.eqb_spec x 38) as [->|E1]; [|destruct (Z.eqb_spec x 60) as [->|E2]; [|destruct (Z.eqb_spec x 62) as [->|E3]]].
    + rewrite (at_pos _ st pre 38 (chars "amp;" ++ escape l ++ post)) by (done || by rewrite Hm, <- app_assoc). cbn [Z.eqb Pos.eqb].
      erewrite (range_at _ st (pre ++ [38]) (chars "amp") (chars ";" ++ escape l ++ post)); [|rewrite Hm, <- !app_assoc; reflexivity|rewrite length_app; simpl; lia|done].
      change (bool_decide (chars "amp" = chars "lt;")) with false. change (bool_decide (chars "amp" = chars "gt;")) with false.
      change (bool_decide (chars "amp" = chars "quo")) with false. change (bool_decide (chars "amp" = chars "amp")) with true.
      cbv iota. specialize (K 5%nat eq_refl). unfold mret, mbind, act_ret, act_bind.
      replace (Z.of_nat (length pre) + 1 + 4) with (Z.of_nat (length pre) + Z.of_nat 5) by lia. exact K.
    + rewrite (at_pos _ st pre 38 (chars "lt;" ++ escape l ++ post)) by (done || by rewrite Hm, <- app_assoc). cbn [Z.eqb Pos.eqb].
      erewrite (range_at _ st (pre ++ [38]) (chars "lt;") (escape l ++ post)); [|rewrite Hm, <- !app_assoc; reflexivity|rewrite length_app; simpl; lia|done].
      change (bool_decide (chars "lt;" = chars "lt;")) with true. cbv iota. specialize (K 4%nat eq_refl). unfold mret, mbind, act_ret, act_bind.
      replace (Z.of_nat (length pre) + 1 + 3) with (Z.of_nat (length pre) + Z.of_nat 4) by lia. exact K.
    + rewrite (at_pos _ st pre 38 (chars "gt;" ++ escape l ++ post)) by (done || by rewrite Hm, <- app_assoc). cbn [Z.eqb Pos.eqb].
      erewrite (range_at _ st (pre ++ [38]) (chars "gt;") (escape l ++ post)); [|rewrite Hm, <- !app_assoc; reflexivity|rewrite length_app; simpl; lia|done].
      change (bool_decide (chars "gt;" = chars "lt;")) with false. change (bool_decide (chars "gt;" = chars "gt;")) with true.
      cbv iota. specialize (K 4%nat eq_refl). unfold mret, mbind, act_ret, act_bind.
      replace (Z.of_nat (length pre) + 1 + 3) with (Z.of_nat (length pre) + Z.of_nat 4) by lia. exact K.
    + rewrite (at_pos _ st pre x (escape l ++ post)) by (done || by rewrite Hm, <- app_assoc). destruct (Z.eqb_spec x 38); [done|].
      specialize (K 1%nat eq_refl). unfold mret, mbind, act_ret, act_bind. exact K.
Qed.

Lemma convert_text l : at_text (fun cont => convertToString (fst cont) (snd cont)) (escape l) l.
Proof.
  intros st pre post Hm. unfold convertToString, get, mbind, act_bind. cbn [fst snd].
  assert (length l <= length (escape l))%nat as Hl.
  { clear Hm. unfold escape. induction l as [|x l IH]; simpl; [done|]. rewrite length_app.
    assert (0 < length (escape_char x))%nat by (unfold escape_char; repeat case_match; simpl; lia). lia. }
  rewrite <- Nat2Z.inj_add. apply (convert_escape st l _ pre (60 :: post)); [done| |simpl; lia].
  unfold all_fuel. rewrite Hm, !length_app. lia.
Qed.

(** ** Booleans and binary data *)

Lemma bool_text (b : bool) : at_text (fun cont => (l ← range (fst cont) (snd cont);
  if is_tag l "true" then mret true else if is_tag l "false" then mret false
  else if is_tag l "0" then mret false else if is_tag l "1" then mret true else throw InvalidFormatException) : act decoder bool)
  (if b then chars "true" else chars "false") b.
Proof. intros st pre post Hm. cbn [fst snd]. erewrite range_text by exact Hm. by destruct b. Qed.

Lemma base64_no_tag data : bytes_ok data -> no_tag (base64 data).
Proof.
  assert (forall v, 0 <= v < 64 -> sextet v <> 60) as Hs.
  { intros v Hv. pose proof (each_sextet (fun v => negb (sextet v =? 60)) ltac:(vm_compute; reflexivity) v Hv) as H.
    by apply negb_true_iff, Z.eqb_neq in H. }
  unfold no_tag. induction data as [|a|a b|a b c l IH] using list_ind_3; intros Hok; rewrite ?bytes_ok_cons in Hok; cbn [base64].
  - constructor.
  - destruct Hok as [Ha _]. pose proof (sextet_ranges a 0 0 Ha ltac:(done) ltac:(done)) as (R1 & R2 & _). rewrite Z.add_0_r in R2.
    repeat constructor; try (by apply Hs); done.
  - destruct Hok as (Ha & Hb & _). pose proof (sextet_ranges a b 0 Ha Hb ltac:(done)) as (R1 & R2 & R3 & _). rewrite Z.add_0_r in R3.
    repeat constructor; try (by apply Hs); done.
  - destruct Hok as (Ha & Hb & Hc & Hok). pose proof (sextet_ranges a b c Ha Hb Hc) as (R1 & R2 & R3 & R4).
    repeat constructor; try (by apply Hs). by apply IH.
Qed.

Lemma binary_text g data : bytes_ok data -> (length data <= 20)%nat ->
  at_text (fun cont => (st ← get;
    let cap := snd cont * 2 / 3 + 2 in
    lift ('(buf, n) ← decodeBase64_mem (drop (Z.to_nat (fst cont)) (mem st)) (snd cont) (lock_blob g cap);
      unlock_blob buf cap n)) : act decoder (list Z)) (base64 data) data.
Proof.
  intros Hok Hlen st pre post Hm. unfold get, mbind, act_bind, lift. cbn [fst snd]. rewrite Hm, Nat2Z.id, drop_app_length.
  unfold decodeBase64_mem. set (q := ((length data + 2) / 3)%nat). pose proof (length_base64 data) as Hb. fold q in Hb.
  assert (3 * q < length data + 3 /\ length data <= 3 * q)%nat as Hq.
  { unfold q. pose proof (Nat.div_mod (length data + 2) 3 ltac:(done)). pose proof (Nat.mod_upper_bound (length data + 2) 3 ltac:(done)). lia. }
  set (cap := Z.of_nat (length (base64 data)) * 2 / 3 + 2). assert (Z.of_nat (length data) <= cap /\ 3 * Z.of_nat q <= (cap / 8 + 1) * 8) as Hcap.
  { unfold cap. rewrite Hb. assert (q <= 7)%nat by lia. clear -Hq Hlen H. do 8 (destruct q as [|q]; [split; [divlia|vm_compute; done]|]). lia. }
  destruct (decode_loop_spec data (length (base64 data ++ 60 :: post) + 2) [] (60 :: post) [] (lock_blob g cap)) as (post' & E); [done| | |].
  - rewrite length_app. lia.
  - unfold lock_blob. rewrite repeat_length. rewrite Hb. replace (4 * q / 4)%nat with q by (by rewrite (Nat.mul_comm 4), Nat.div_mul). lia.
  - cbn [app length] in E. change (Z.of_nat 0) with 0 in E. rewrite E. cbn [mbind res_bind]. unfold unlock_blob. simpl plus.
    destruct (Z.leb_spec (cap + 1) (Z.of_nat (length data))); [lia|]. by rewrite Nat2Z.id, take_app_length.
Qed.

(** ** Dates *)

Definition two (n : Z) : list Z := [48 + n / 10; 48 + n mod 10].
Definition four (n : Z) : list Z := [48 + n / 1000; 48 + n / 100 mod 10; 48 + n / 10 mod 10; 48 + n mod 10].

Lemma pad_two n : 0 <= n < 100 -> pad_zeros 2 n = two n.
Proof.
  intros Hn. unfold pad_zeros, two. rewrite (dec_small 2 n ltac:(lia) Hn). destruct (Z.ltb_spec n 0); [lia|]. cbn [dec_rev].
  repeat (match goal with |- context [?a <? 10] => destruct (Z.ltb_spec a 10) end; try divlia); simpl; repeat (f_equal; try divlia).
Qed.

Lemma pad_four n : 0 <= n < 10000 -> pad_zeros 4 n = four n.
Proof.
  intros Hn. unfold pad_zeros, four. rewrite (dec_small 4 n ltac:(lia) Hn). destruct (Z.ltb_spec n 0); [lia|]. cbn [dec_rev].
  repeat (match goal with |- context [?a <? 10] => destruct (Z.ltb_spec a 10) end; try divlia); simpl; repeat (f_equal; try divlia).
Qed.

Definition is_digits (l : list Z) : Prop := Forall (fun c => isdigit c = true) l.
Definition digits_from (val : Z) (l : list Z) : Z := fold_left (fun val c => val * 10 + c - 48) l val.

Lemma read_digits_text st ds : forall val pre post cl, is_digits ds -> mem st = pre ++ ds ++ post -> Z.of_nat (length ds) <= cl ->
  read_digits (length ds) val (Z.of_nat (length pre)) cl st =
  Ret ((digits_from val ds, Z.of_nat (length (pre ++ ds)), cl - Z.of_nat (length ds)), st).
Proof.
  induction ds as [|d ds IH]; intros val pre post cl Hd Hm Hc; cbn [read_digits length].
  - rewrite app_nil_r, Z.sub_0_r. done.
  - apply list.Forall_cons in Hd as [Hd1 Hd]. cbn [length] in Hc. destruct (Z.ltb_spec 0 cl); [|lia].
    rewrite (at_pos _ st pre d (ds ++ post)) by done. rewrite Hd1.
    replace (Z.of_nat (length pre) + 1) with (Z.of_nat (length (pre ++ [d]))) by (rewrite length_app; simpl; lia).
    rewrite (IH _ (pre ++ [d]) post) by (done || lia || by rewrite Hm, <- app_assoc). unfold digits_from at 1. cbn [fold_left].
    do 2 f_equal. rewrite <- app_assoc. simpl app. f_equal. lia.
Qed.

(** A field of a date, before a separator or not. *)
Lemma date_field_text {B} (f : Z * Z * Z -> act decoder B) st (pre ds : list Z) x (post seps : list Z) cl :
  is_digits ds -> (0 < length ds)%nat -> mem st = pre ++ ds ++ x :: post -> Z.of_nat (length ds) < cl ->
  (date_field (length ds) seps (Z.of_nat (length pre)) cl ≫= f) st =
  (if bool_decide (x ∈ seps) then f (digits_from 0 ds, Z.of_nat (length (pre ++ ds ++ [x])), cl - Z.of_nat (length ds) - 1)
   else f (digits_from 0 ds, Z.of_nat (length (pre ++ ds)), cl - Z.of_nat (length ds))) st.
Proof.
  intros Hd Hl Hm Hc. unfold date_field. destruct (Z.ltb_spec cl 1); [lia|]. pose proof (read_digits_text st ds 0 pre (x :: post) cl Hd Hm ltac:(lia)) as E.
  destruct ds as [|d ds]; [simpl in Hl; lia|]. apply list.Forall_cons in Hd as [Hd1 _].
  unfold mbind at 1, act_bind at 1. rewrite (at_pos _ st pre d (ds ++ x :: post)) by done. rewrite Hd1. cbn [negb].
  unfold mbind at 1, act_bind at 1. rewrite E. destruct (Z.ltb_spec 0 (cl - Z.of_nat (length (d :: ds)))); [|lia].
  rewrite (at_pos _ st (pre ++ d :: ds) x post) by (done || by rewrite Hm, <- app_assoc). case_bool_decide; [|done].
  unfold mret, act_ret. rewrite app_assoc, (length_app (pre ++ d :: ds) [x]). simpl (length [x]). repeat f_equal. lia.
Qed.

(** The characters that [writeTime] prints. *)
Definition date_text (year mon mday hour min sec : Z) : list Z :=
  four year ++ two (mon + 1) ++ two (mday + 1) ++ [84] ++ two hour ++ [58] ++ two min ++ [58] ++ two sec ++ chars "+0000".

Lemma two_digits n : 0 <= n < 100 -> is_digits (two n) /\ digits_from 0 (two n) = n.
Proof.
  intros Hn. split; [|unfold digits_from, two; cbn [fold_left]; divlia].
  unfold two, is_digits. repeat constructor; apply isdigit_bounds; divlia.
Qed.

Lemma four_digits n : 0 <= n < 10000 -> is_digits (four n) /\ digits_from 0 (four n) = n.
Proof.
  intros Hn. split; [|unfold digits_from, four; cbn [fold_left]; divlia].
  unfold four, is_digits. repeat constructor; apply isdigit_bounds; divlia.
Qed.

Definition time_of (cont : Z * Z) : act decoder Z :=
  f ← date_field 4 [45] (fst cont) (snd cont);
  let '(year, cs, cl) := f in
  f ← date_field 2 [45] cs cl;
  let '(mon, cs, cl) := f in
  f ← date_field 2 [84; 116; 32] cs cl;
  let '(mday, cs, cl) := f in
  hms ← (if 1 <=? cl then
    f ← date_field 2 [58] cs cl;
    let '(hour, cs, cl) := f in
    if 1 <=? cl then
      f ← date_field 2 [58] cs cl;
      let '(min, cs, cl) := f in
      sec_cs ← (if 1 <=? cl then f ← date_field 2 [58] cs cl; mret (fst (fst f), snd (fst f)) else mret (0, cs));
      s ← c_string (snd sec_cs);
      let tz := s32 (atol s) in
      mret (hour, min, fst sec_cs, s32 (tz - 40 * Z.quot tz 100))
    else mret (hour, 0, 0, 0)
  else mret (0, 0, 0, 0));
  let '(hour, min, sec, tz) := hms in
  mret (convertUtcTime year (mon - 1) (mday - 1) hour min sec (s32 (- tz))).

Lemma act_bind_assoc {S A B C} (m : act S A) (f : A -> act S B) (g : B -> act S C) st :
  ((m ≫= f) ≫= g) st = (m ≫= (fun a => f a ≫= g)) st.
Proof. unfold mbind, act_bind. by destruct (m st) as [[a st']| | |]. Qed.

Lemma time_text year mon mday hour min sec : 0 <= year < 10000 -> 0 <= mon < 12 -> 0 <= mday < 31 ->
  0 <= hour < 24 -> 0 <= min < 60 -> 0 <= sec < 60 ->
  at_text time_of (date_text year mon mday hour min sec) (convertUtcTime year mon mday hour min sec 0).
Proof.
  intros Hy Hmo Hd Hh Hmi Hs st pre post Hm. unfold time_of. cbn [fst snd]. change (Z.of_nat (length (date_text _ _ _ _ _ _))) with 22.
  destruct (four_digits year Hy) as [Y1 Y2], (two_digits (mon + 1) ltac:(lia)) as [M1 M2], (two_digits (mday + 1) ltac:(lia)) as [D1 D2],
    (two_digits hour ltac:(lia)) as [H1 H2], (two_digits min ltac:(lia)) as [N1 N2], (two_digits sec ltac:(lia)) as [S1 S2].
  unfold date_text in Hm.
  assert (forall n seps, 0 <= n < 100 -> Forall (fun s => s < 48 \/ 57 < s) seps -> bool_decide (48 + n / 10 ∈ seps) = false) as Hsep.
  { intros n seps Hn Hf. apply bool_decide_eq_false. intros Hin. rewrite list.Forall_forall in Hf. specialize (Hf _ Hin). divlia. }
  change (date_field 4) with (date_field (length (four year))).
  erewrite (date_field_text _ st pre (four year) (48 + (mon + 1) / 10)); [|done|simpl; lia|rewrite Hm; reflexivity|simpl; lia].
  rewrite Hsep, Y2 by (lia || (repeat constructor; lia)). set (p1 := pre ++ four year).
  change (date_field 2 [45]) with (date_field (length (two (mon + 1))) [45]).
  erewrite (date_field_text _ st p1 (two (mon + 1)) (48 + (mday + 1) / 10)); [|done|simpl; lia|unfold p1; rewrite Hm, <- !app_assoc; reflexivity|simpl; lia].
  rewrite Hsep, M2 by (lia || (repeat constructor; lia)). set (p2 := p1 ++ two (mon + 1)).
  change (date_field 2 [84; 116; 32]) with (date_field (length (two (mday + 1))) [84; 116; 32]).
  erewrite (date_field_text _ st p2 (two (mday + 1)) 84); [|done|simpl; lia|unfold p2, p1; rewrite Hm, <- !app_assoc; reflexivity|simpl; lia].
  rewrite D2. change (bool_decide (84 ∈ [84; 116; 32])) with true. cbv iota. set (p3 := p2 ++ two (mday + 1) ++ [84]).
  change (1 <=? 22 - _ - _ - _ - 1) with true. cbv iota. rewrite act_bind_assoc.
  change (date_field 2 [58] (Z.of_nat (length p3))) with (date_field (length (two hour)) [58] (Z.of_nat (length p3))).
  erewrite (date_field_text _ st p3 (two hour) 58); [|done|simpl; lia|unfold p3, p2, p1; rewrite Hm, <- !app_assoc; reflexivity|simpl; lia].
  rewrite H2. change (bool_decide (58 ∈ [58])) with true. cbv iota. set (p4 := p3 ++ two hour ++ [58]).
  change (1 <=? 22 - _ - _ - _ - 1 - _ - 1) with true. cbv iota. rewrite act_bind_assoc.
  change (date_field 2 [58] (Z.of_nat (length p4))) with (date_field (length (two min)) [58] (Z.of_nat (length p4))).
  erewrite (date_field_text _ st p4 (two min) 58); [|done|simpl; lia|unfold p4, p3, p2, p1; rewrite Hm, <- !app_assoc; reflexivity|simpl; lia].
  rewrite N2. change (bool_decide (58 ∈ [58])) with true. cbv iota. set (p5 := p4 ++ two min ++ [58]).
  change (1 <=? 22 - _ - _ - _ - 1 - _ - 1 - _ - 1) with true. cbv iota. rewrite !act_bind_assoc.
  change (date_field 2 [58] (Z.of_nat (length p5))) with (date_field (length (two sec)) [58] (Z.of_nat (length p5))).
  erewrite (date_field_text _ st p5 (two sec) 43); [|done|simpl; lia|unfold p5, p4, p3, p2, p1; rewrite Hm, <- !app_assoc; reflexivity|simpl; lia].
  rewrite S2. change (bool_decide (43 ∈ [58])) with false. cbv iota. set (p6 := p5 ++ two sec).
  unfold mbind at 1, act_bind at 1, mret at 1, act_ret at 1. cbn [fst snd].
  assert (mem st = p6 ++ (chars "+0000" ++ [60]) ++ post) as Hm6 by (unfold p6, p5, p4, p3, p2, p1; rewrite Hm, <- !app_assoc; reflexivity).
  assert (c_string (Z.of_nat (length p6)) st = Ret (fst (span (fun c => negb (c =? 0)) ((chars "+0000" ++ [60]) ++ post)), st)) as Ec.
  { unfold c_string. rewrite Hm6, !length_app. simpl (length (chars "+0000")). simpl (length [60]). ztest. simpl orb. cbv iota.
    by rewrite Nat2Z.id, drop_app_length. }
  unfold mbind, act_bind, mret, act_ret. rewrite Ec.
  assert (atol (fst (span (fun c => negb (c =? 0)) ((chars "+0000" ++ [60]) ++ post))) = 0) as ->.
  { simpl. by destruct (span _ post). }
  change (s32 (- s32 (s32 0 - 40 * Z.quot (s32 0) 100))) with 0. by rewrite !Z.add_simpl_r.
Qed.

Lemma date_no_tag year mon mday hour min sec : 0 <= year < 10000 -> 0 <= mon < 12 -> 0 <= mday < 31 ->
  0 <= hour < 24 -> 0 <= min < 60 -> 0 <= sec < 60 -> no_tag (date_text year mon mday hour min sec).
Proof. intros. unfold no_tag, date_text, four, two. repeat constructor; try done; divlia. Qed.
