(* ===== verification/XmlRpc.v ===== *)
(** * Messages of XML-RPC

    The text of a value and of a message, as the encoder writes it and as the
    decoder reads it back; integers, strings and skipping. *)

From Stdlib Require Import String.
From S2P Require Import Prelude Machine CString Time Base64 RpcDecoder XmlRpcDecoder XmlRpcEncoder XmlRpcText XmlRpcScalar.

#[local] Open Scope list_scope.

Section Messages.
Variable strtod : list Z -> Z.
Variable format_g : Z -> list Z.
Variable garbage : Z.

(** ** The text of a value *)

Definition int_name (n : Z) : list Z := if (- 0x7fffffff - 1 <=? n) && (n <=? 0x7fffffff) then chars "int" else chars "i8".

Definition time_chars (t : Z) : list Z :=
match gmtime (toSeconds t) with
| Some r => date_text (tm_year r + 1900) (tm_mon r) (tm_mday r - 1) (tm_hour r) (tm_min r) (tm_sec r)
| None => []
end.

(** One member of a structure. *)
Definition member (name text : list Z) : list Z := otag "member" ++ otag "name" ++ name ++ ctag "name" ++ text.

(** The text behind the start of a [param]; [top]: with its end. *)
Fixpoint body (v : Variant) (top : bool) : list Z :=
match v with
| V_NULL => []
| V_Int n => scalar (int_name n) (print_int n) top
| V_Bool b => scalar (chars "boolean") (if b then chars "true" else chars "false") top
| V_Double d => scalar (chars "double") (format_g d) top
| V_String s => scalar (chars "string") (escape s) top
| V_Time t => scalar (chars "dateTime.iso8601") (time_chars t) top
| V_Binary d => scalar (chars "base64") (base64 d) top
| V_Struct members => otag "value" ++ otag "struct" ++
  (fix go (l : list (list Z * Variant)) : list Z :=
    match l with
    | [] => []
    | (name, v) :: l => member name (body v false) ++ ctag "member" ++ go l
    end) members ++ ctag "struct" ++ ctag "value" ++ pclose top
| V_Array items => otag "value" ++ otag "array" ++ otag "data" ++
  (fix go (l : list Variant) : list Z :=
    match l with
    | [] => []
    | v :: l => body v false ++ go l
    end) items ++ ctag "data" ++ ctag "array" ++ ctag "value" ++ pclose top
end.

Definition members_text := fix go (l : list (list Z * Variant)) : list Z :=
match l with
| [] => []
| (name, v) :: l => member name (body v false) ++ ctag "member" ++ go l
end.
Definition items_text := fix go (l : list Variant) : list Z :=
match l with
| [] => []
| v :: l => body v false ++ go l
end.

(** How deep a value is nested. *)
Fixpoint height (v : Variant) : nat :=
match v with
| V_Struct members => S ((fix go (l : list (list Z * Variant)) : nat := match l with [] => O | (_, v) :: l => Nat.max (height v) (go l) end) members)
| V_Array items => S ((fix go (l : list Variant) : nat := match l with [] => O | v :: l => Nat.max (height v) (go l) end) items)
| _ => O
end.

(** Values that a message carries: integers that are not negative, strings of
  ASCII characters, at most twenty bytes of binary data, whole seconds from
  1970 to 9999, doubles that survive their text, and members with different
  names without markup. *)
Fixpoint value_ok (v : Variant) : Prop :=
match v with
| V_NULL => False
| V_Int n => 0 <= n < 2 ^ 63
| V_Bool _ => True
| V_Double d => no_tag (format_g d) /\ (0 ∉ format_g d) /\ forall rest, strtod (format_g d ++ 60 :: rest) = d
| V_String s => Forall (fun c => 0 <= c < 128) s
| V_Time t => 0 <= t < 2 ^ 63 /\ t mod 1000 = 0 /\ exists r, gmtime (toSeconds t) = Some r /\ 0 <= tm_year r + 1900 < 10000
| V_Binary d => bytes_ok d /\ (length d <= 20)%nat
| V_Struct members => NoDup members.*1 /\
  (fix go (l : list (list Z * Variant)) : Prop :=
    match l with
    | [] => True
    | (name, v) :: l => (no_tag name /\ value_ok v) /\ go l
    end) members
| V_Array items =>
  (fix go (l : list Variant) : Prop :=
    match l with
    | [] => True
    | v :: l => value_ok v /\ go l
    end) items
end.

(** ** Writing *)

(** The calls with which a client writes a value. *)
Fixpoint write_value (v : Variant) : act encoder unit :=
match v with
| V_NULL => mret tt
| V_Int n => writeInt64 n
| V_Bool b => writeBool b
| V_Double d => writeDouble format_g d
| V_String s => writeString s
| V_Time t => writeTime t
| V_Binary d => writeBinary d
| V_Struct members =>
  _ ← writeStructLength (Z.of_nat (length members));
  _ ← (fix go (l : list (list Z * Variant)) : act encoder unit :=
    match l with
    | [] => mret tt
    | (name, v) :: l => _ ← writeMemberName name; _ ← write_value v; go l
    end) members;
  writeStructEnd
| V_Array items =>
  _ ← writeArrayLength (Z.of_nat (length items));
  _ ← (fix go (l : list Variant) : act encoder unit :=
    match l with
    | [] => mret tt
    | v :: l => _ ← write_value v; go l
    end) items;
  writeArrayEnd
end.

(** [m] writes [out] at a level: the flag for the members is kept or cleared. *)
Definition writes (m : act encoder unit) (level : Z) (out : list Z) : Prop :=
forall c cl, exists cl', m (mk_encoder c level cl) = Ret (tt, mk_encoder (c ++ out) level cl') /\ (cl' = cl \/ cl' = Some false).

Definition at_level (level : Z) : bool := level =? 0.

Lemma at_top_open level c cl : at_top "<param>" (mk_encoder c level cl) = Ret (tt, mk_encoder (c ++ popen (at_level level)) level cl).
Proof. unfold at_top, at_level, get, mbind, act_bind. cbn [value_level]. destruct (level =? 0); [done|]. by rewrite app_nil_r. Qed.

Lemma at_top_close level c cl : at_top "</param>" (mk_encoder c level cl) = Ret (tt, mk_encoder (c ++ pclose (at_level level)) level cl).
Proof. unfold at_top, at_level, get, mbind, act_bind. cbn [value_level]. destruct (level =? 0); [done|]. by rewrite app_nil_r. Qed.

Lemma bind_step {S A B} (m : act S A) (f : A -> act S B) st a st' : m st = Ret (a, st') -> (m ≫= f) st = f a st'.
Proof. intros E. unfold mbind, act_bind. by rewrite E. Qed.

Lemma appends_ok s c level cl : appends s (mk_encoder c level cl) = Ret (tt, mk_encoder (c ++ chars s) level cl).
Proof. done. Qed.

Lemma append_ok s c level cl : append s (mk_encoder c level cl) = Ret (tt, mk_encoder (c ++ s) level cl).
Proof. done. Qed.

(** Runs the writes of the goal one by one. *)
Ltac write_steps := repeat first
[erewrite bind_step by apply at_top_open | erewrite bind_step by apply at_top_close | erewrite bind_step by apply appends_ok
| erewrite bind_step by apply append_ok | rewrite at_top_close | rewrite appends_ok].

Lemma writes_scalar open text close t level : chars open = otag "value" ++ start_tag t -> chars close = end_tag t ++ ctag "value" ->
writes (write_scalar open text close) level (popen (at_level level) ++ scalar t text (at_level level)).
Proof.
intros Ho Hc c cl. exists cl. split; [|by left]. unfold write_scalar. write_steps. rewrite Ho, Hc. unfold scalar. by rewrite <- !app_assoc.
Qed.

Lemma lift_ok {S A B} (r : res A) (f : A -> act S B) a st : r = Ret a -> (lift r ≫= f) st = f a st.
Proof. by intros ->. Qed.

Lemma writes_string s level : writes (writeString s) level (popen (at_level level) ++ scalar (chars "string") (escape s) (at_level level)).
Proof.
intros c cl. pose proof (replace_all s) as E. unfold writeString.
destruct (replace (chars "&") (chars "&amp;") s) as [e1| | |]; try done. cbn [mbind res_bind] in E. erewrite lift_ok by reflexivity.
destruct (replace (chars "<") (chars "&lt;") e1) as [e2| | |]; try done. cbn [mbind res_bind] in E. erewrite lift_ok by reflexivity.
erewrite lift_ok by exact E. by apply writes_scalar.
Qed.

Lemma writes_binary d level : bytes_ok d -> (length d <= 20)%nat ->
writes (writeBinary d) level (popen (at_level level) ++ scalar (chars "base64") (base64 d) (at_level level)).
Proof.
intros Hok Hl c cl. unfold writeBinary. rewrite encodeBase64_base64 by (done || lia). erewrite lift_ok by reflexivity. by apply writes_scalar.
Qed.

Lemma writes_int n level : writes (writeInt64 n) level (popen (at_level level) ++ scalar (int_name n) (print_int n) (at_level level)).
Proof. unfold writeInt64, int_name. destruct (_ && _); by apply writes_scalar. Qed.

Lemma time_ok t r : gmtime (toSeconds t) = Some r -> 0 <= tm_year r + 1900 < 10000 ->
0 <= tm_mon r < 12 /\ 0 <= tm_mday r - 1 < 31 /\ 0 <= tm_hour r < 24 /\ 0 <= tm_min r < 60 /\ 0 <= tm_sec r < 60.
Proof. intros E Hy. destruct (gmtime_timegm _ _ E) as (_ & H1 & H2 & _ & H3 & H4 & H5). lia. Qed.

Lemma xml_writes_time t r level : gmtime (toSeconds t) = Some r -> 0 <= tm_year r + 1900 < 10000 ->
writes (writeTime t) level (popen (at_level level) ++ scalar (chars "dateTime.iso8601") (time_chars t) (at_level level)).
Proof.
intros E Hy c cl. pose proof (time_ok t r E Hy) as (H1 & H2 & H3 & H4 & H5). unfold writeTime, timeToUtcCalendar. rewrite E.
erewrite lift_ok by reflexivity. cbv iota beta zeta. rewrite pad_four, !pad_two by lia. unfold time_chars. rewrite E. unfold date_text.
unfold mbind, act_bind. change (28 <=? Z.of_nat (length _)) with false. cbv iota. unfold mret, act_ret. by apply writes_scalar.
Qed.

Lemma writes_bool b level : writes (writeBool b) level (popen (at_level level) ++ scalar (chars "boolean") (if b then chars "true" else chars "false") (at_level level)).
Proof. by apply writes_scalar. Qed.

(** ** Structures *)

Lemma xml_writes_bind (m : act encoder unit) (k : act encoder unit) level o1 o2 : writes m level o1 -> writes k level o2 -> writes (_ ← m; k) level (o1 ++ o2).
Proof.
intros Hm Hk c cl. destruct (Hm c cl) as (cl1 & E1 & H1). destruct (Hk (c ++ o1) cl1) as (cl2 & E2 & H2). exists cl2.
rewrite (bind_step _ _ _ _ _ E1), E2. rewrite <- app_assoc. split; [done|]. destruct H1 as [-> | ->]; destruct H2; auto.
Qed.

Definition write_items := (fix go (l : list Variant) : act encoder unit :=
match l with [] => mret tt | v :: l => _ ← write_value v; go l end).
Definition write_members := (fix go (l : list (list Z * Variant)) : act encoder unit :=
match l with [] => mret tt | (name, v) :: l => _ ← writeMemberName name; _ ← write_value v; go l end).

Lemma leave_ok level c cl : 0 <= level -> level + 1 < 2 ^ 64 ->
leave_level (mk_encoder c (level + 1) cl) = Ret (tt, mk_encoder (c ++ pclose (at_level level)) level cl).
Proof.
intros H1 H2. unfold leave_level, get, set_level. unfold mbind, act_bind. cbn [value_level content struct_clean].
replace (level + 1 - 1) with level by lia. rewrite (uwrap_id 64) by (unfold in_u; lia). apply at_top_close.
Qed.

Lemma writes_items l level : Forall (fun v => writes (write_value v) level (body v false)) l -> writes (write_items l) level (items_text l).
Proof.
induction 1 as [|v l Hv _ IH]; cbn [write_items items_text].
- intros c cl. exists cl. split; [|by left]. by rewrite app_nil_r.
- by apply xml_writes_bind.
Qed.
Lemma close_member_ok (b : bool) c level : close_member (mk_encoder c level (Some b)) =
Ret (tt, mk_encoder (c ++ if b then [] else ctag "member") level (Some false)).
Proof. unfold close_member, get_clean, get, mbind, act_bind. cbn [struct_clean]. destruct b; [by rewrite app_nil_r|done]. Qed.

Lemma members_ok l : forall (b : bool) c level, Forall (fun m => writes (write_value (snd m)) level (body (snd m) false)) l ->
(_ ← write_members l; close_member) (mk_encoder c level (Some b)) =
Ret (tt, mk_encoder (c ++ (if b then [] else ctag "member") ++ members_text l) level (Some false)).
Proof.
induction l as [|[name v] l IH]; intros b c level Hl; cbn [write_members members_text].
- erewrite bind_step by reflexivity. rewrite close_member_ok. by rewrite app_nil_r.
- apply list.Forall_cons in Hl as [Hv Hl]. rewrite (act_bind_assoc (writeMemberName name)).
  assert (writeMemberName name (mk_encoder c level (Some b)) = Ret (tt, mk_encoder ((((c ++ if b then [] else ctag "member") ++ chars "<member><name>") ++ name) ++ chars "</name>") level (Some false))) as E.
  { unfold writeMemberName. rewrite (bind_step _ _ _ _ _ (close_member_ok b c level)). by write_steps. }
  rewrite (bind_step _ _ _ _ _ E), (act_bind_assoc (write_value v)).
  destruct (Hv ((((c ++ if b then [] else ctag "member") ++ chars "<member><name>") ++ name) ++ chars "</name>") (Some false)) as (cl & Ev & Hcl).
  rewrite (bind_step _ _ _ _ _ Ev). assert (cl = Some false) as -> by (by destruct Hcl). rewrite IH by done.
  unfold member. by rewrite <- !app_assoc.
Qed.

Lemma height_members l m : m ∈ l -> (height (snd m) < height (V_Struct l))%nat.
Proof.
intros Hm. cbn [height]. apply Nat.lt_succ_r. induction l as [|[n v] l IH]; [by apply elem_of_nil in Hm|].
apply elem_of_cons in Hm as [->|Hm]; cbn [snd]; [lia|]. etrans; [by apply IH|]. lia.
Qed.

Lemma height_items l v : v ∈ l -> (height v < height (V_Array l))%nat.
Proof.
intros Hm. cbn [height]. apply Nat.lt_succ_r. induction l as [|w l IH]; [by apply elem_of_nil in Hm|].
apply elem_of_cons in Hm as [->|Hm]; [lia|]. etrans; [by apply IH|]. lia.
Qed.

Lemma value_ok_members l m : value_ok (V_Struct l) -> m ∈ l -> no_tag (fst m) /\ value_ok (snd m).
Proof.
intros [_ H] Hm. induction l as [|[n v] l IH]; [by apply elem_of_nil in Hm|]. destruct H as [H1 H2].
apply elem_of_cons in Hm as [->|Hm]; [done|by apply IH].
Qed.

Lemma value_ok_items l v : value_ok (V_Array l) -> v ∈ l -> value_ok v.
Proof.
intros H Hm. induction l as [|w l IH]; [by apply elem_of_nil in Hm|]. destruct H as [H1 H2].
apply elem_of_cons in Hm as [->|Hm]; [done|by apply IH].
Qed.

Lemma writes_value v : value_ok v -> forall level, 0 <= level -> level + Z.of_nat (height v) < 2 ^ 63 ->
writes (write_value v) level (popen (at_level level) ++ body v (at_level level)).
Proof.
induction v as [|n|b|d|s|t|d|members IH|items IH] using Variant_nested; intros Hok level Hl Hh; cbn [write_value body].
- done.
- apply writes_int.
- apply writes_bool.
- by apply writes_scalar.
- apply writes_string.
- destruct Hok as (_ & _ & r & E & Hy). by eapply xml_writes_time.
- destruct Hok. by apply writes_binary.
- fold write_members members_text. intros c cl. exists (Some false). split; [|by right].
  assert (Forall (fun m => writes (write_value (snd m)) (level + 1) (body (snd m) false)) members) as Hm.
  { apply list.Forall_forall. intros m Hm. rewrite list.Forall_forall in IH. pose proof (height_members members m Hm) as Hhm.
    pose proof (IH m Hm (proj2 (value_ok_members _ _ Hok Hm)) (level + 1) ltac:(lia) ltac:(lia)) as W.
    unfold at_level in W. destruct (Z.eqb_spec (level + 1) 0); [lia|]. exact W. }
  unfold writeStructLength, writeStructEnd. rewrite act_bind_assoc. write_steps. rewrite act_bind_assoc. write_steps.
  rewrite act_bind_assoc. unfold set_clean at 1. erewrite bind_step by reflexivity. rewrite act_bind_assoc. unfold get at 1. erewrite bind_step by reflexivity.
  unfold set_level at 1. erewrite bind_step by reflexivity. cbn [content value_level struct_clean]. rewrite (uwrap_id 64) by (unfold in_u; lia).
  rewrite <- (act_bind_assoc (write_members members)). erewrite bind_step by (by apply members_ok). write_steps.
  rewrite leave_ok by lia. unfold at_level. rewrite <- !app_assoc. reflexivity.
- fold write_items items_text. intros c cl.
  assert (Forall (fun v => writes (write_value v) (level + 1) (body v false)) items) as Hm.
  { apply list.Forall_forall. intros v Hv. rewrite list.Forall_forall in IH. pose proof (height_items items v Hv) as Hhm.
    pose proof (IH v Hv (value_ok_items _ _ Hok Hv) (level + 1) ltac:(lia) ltac:(lia)) as W.
    unfold at_level in W. destruct (Z.eqb_spec (level + 1) 0); [lia|]. exact W. }
  unfold writeArrayLength, writeArrayEnd. rewrite act_bind_assoc. write_steps. rewrite act_bind_assoc. write_steps.
  rewrite act_bind_assoc. unfold get at 1. erewrite bind_step by reflexivity.
  unfold set_level at 1. erewrite bind_step by reflexivity. cbn [content value_level struct_clean]. rewrite (uwrap_id 64) by (unfold in_u; lia).
  destruct (writes_items items (level + 1) Hm ((c ++ popen (at_level level)) ++ chars "<value><array><data>") cl) as (cl' & E & Hcl).
  exists cl'. split; [|exact Hcl]. rewrite (bind_step _ _ _ _ _ E). write_steps. rewrite leave_ok by lia. unfold at_level. rewrite <- !app_assoc. reflexivity.
Qed.
(** ** Reading *)

Lemma xml_reads_check_type {B} (f : RpcType -> act decoder B) o t ty more rest r :
tag_name t -> is_tag t "methodResponse" = false -> (forall st, type_of_name t st = Ret (ty, st)) ->
reads (f ty) (otag "value" ++ start_tag t ++ more) rest r ->
reads (readCheckType ≫= f) (popen o ++ otag "value" ++ start_tag t ++ more) rest r.
Proof.
intros Ht Hr Hty Hf.
assert (forall k st, at_rest st ((otag "value" ++ start_tag t ++ more) ++ rest) -> check_type (S k) st = Ret (ty, st)) as K.
{ intros k st Hst. cbn [check_type]. unfold get at 1. erewrite bind_step by reflexivity.
  assert ((end_ st <=? pos st) = false) as -> by (destruct Hst as (pre & _ & -> & -> & _); apply Z.leb_gt; rewrite !length_app; unfold otag, start_tag; cbn [length]; lia).
  assert (at_rest st (otag "value" ++ start_tag t ++ more ++ rest)) as Hst1 by (by rewrite <- !app_assoc in Hst).
  rewrite (bind_step _ _ _ _ _ (reads_start (chars "value") _ ltac:(by apply tag_string_ok) st Hst1)). cbn [fst snd Z.eqb].
  change (is_tag (chars "value") "param") with false. change (is_tag (chars "value") "value") with true. cbv iota.
  pose proof (at_rest_skip _ _ _ Hst1) as Hst2.
  rewrite (bind_step _ _ _ _ _ (reads_start t _ Ht _ Hst2)). cbn [fst snd Z.eqb]. rewrite Hr.
  unfold set_pos at 1. erewrite bind_step by reflexivity. unfold set_empty at 1. erewrite bind_step by reflexivity.
  rewrite Hty. destruct Hst as (pre & _ & _ & _ & He). unfold skip. cbn [mem end_ pos empty_el]. f_equal. f_equal. destruct st. simpl in *. by rewrite He. }
unfold readCheckType. intros st Hst. unfold get, mbind, act_bind. unfold all_fuel. generalize (length (mem st)). intros k.
destruct o; cbn [popen app] in *.
- remember (S k) as k' eqn:Ek. cbn [check_type]. unfold get at 1. erewrite bind_step by reflexivity.
  assert ((end_ st <=? pos st) = false) as -> by (destruct Hst as (pre & _ & -> & -> & _); apply Z.leb_gt; rewrite !length_app; unfold otag, start_tag; cbn [length]; lia).
  rewrite <- app_assoc in Hst. rewrite (bind_step _ _ _ _ _ (reads_start (chars "param") _ ltac:(by apply tag_string_ok) st Hst)). cbn [fst snd Z.eqb].
  change (is_tag (chars "param") "param") with true. cbv iota. pose proof (at_rest_skip _ _ _ Hst) as Hst1. subst k'.
  change (start_tag (chars "param")) with (otag "param"). rewrite (K k _ Hst1).
  rewrite (Hf _ Hst1). rewrite xml_skip_skip. by rewrite <- length_app.
- rewrite (K (S k) st Hst). by apply Hf.
Qed.

(** The value is read by any decoder of enough depth. *)
Definition carried (v : Variant) : Prop := forall o top rest d, follows top rest -> (length (body v top) < d)%nat ->
reads (readVariant strtod garbage d) (popen o ++ body v top) rest v.

Lemma xml_reads_map {A B} (m : act decoder A) (g : A -> B) out rest a : reads m out rest a -> reads (v ← m; mret (g v)) out rest (g a).
Proof. intros H. rewrite <- (app_nil_r out). eapply xml_reads_bind; [exact H|apply xml_reads_ret]. Qed.

(** A scalar, from what its text is read as. *)
Lemma carried_scalar {A} (m : act decoder A) ok (f : Z * Z -> act decoder A) (g : A -> Variant) t ty l a v :
tag_name t -> is_tag t "methodResponse" = false -> (forall st, type_of_name t st = Ret (ty, st)) ->
(forall d, exists k, readVariant strtod garbage (S d) = (type ← readCheckType; k type) /\ k ty = (v ← m; mret (g v))) ->
m = (scalar_content ok ≫= f) -> ok t = true -> no_tag l -> at_text f l a -> v = g a -> (forall top, body v top = scalar t l top) -> carried v.
Proof.
intros Ht Hr Hty Hk -> Hok Hl Hf -> Hb o top rest [|d] Hfo Hd; [lia|]. destruct (Hk d) as (k & -> & Ek). rewrite Hb. unfold scalar at 1.
apply (xml_reads_check_type k o t ty); [done|done|done|]. rewrite Ek. apply xml_reads_map. by apply (reads_scalar ok f false top).
Qed.

Lemma print_int_no_tag n : no_tag (print_int n).
Proof. unfold print_int. destruct (Z.ltb_spec n 0); [apply list.Forall_cons; split; [done|]|]; apply dec_no_tag; lia. Qed.

Lemma carried_int n : 0 <= n < 2 ^ 63 -> carried (V_Int n).
Proof.
intros Hn. assert (int_name n = chars "int" \/ int_name n = chars "i8") as Hi by (unfold int_name; destruct (_ && _); auto).
assert (print_int n = dec n) as Ep by (unfold print_int; destruct (Z.ltb_spec n 0); [lia|done]).
eapply (carried_scalar readInt64 is_int int64_of V_Int (int_name n) RT_Int (dec n) n).
- destruct Hi as [-> | ->]; by apply tag_string_ok.
- by destruct Hi as [-> | ->].
- intros st. by destruct Hi as [-> | ->].
- intros d. eexists. split; [reflexivity|]. reflexivity.
- reflexivity.
- by destruct Hi as [-> | ->].
- apply dec_no_tag. lia.
- by apply int64_text.
- done.
- intros top. cbn [body]. by rewrite Ep.
Qed.
(** The side conditions of [carried_scalar] for a fixed name. *)
Local Ltac fixed_tag := first [done | by apply tag_string_ok | by intros | by (intros; eexists; split; reflexivity) | reflexivity].

Lemma carried_bool b : carried (V_Bool b).
Proof.
eapply (carried_scalar readBool (fun name => is_tag name "boolean") _ V_Bool (chars "boolean") RT_Bool (if b then chars "true" else chars "false") b);
  [fixed_tag..| | |fixed_tag|fixed_tag].
- destruct b; by repeat constructor.
- apply bool_text.
Qed.

Lemma carried_string s : carried (V_String s).
Proof.
eapply (carried_scalar readString (fun name => is_tag name "string") _ V_String (chars "string") RT_String (escape s) s);
  [fixed_tag..| | |fixed_tag|fixed_tag]; [apply escape_no_tag|apply convert_text].
Qed.

Lemma carried_binary l : bytes_ok l -> (length l <= 20)%nat -> carried (V_Binary l).
Proof.
intros Hok Hl. eapply (carried_scalar (readBinary garbage) (fun name => is_tag name "base64") _ V_Binary (chars "base64") RT_Binary (base64 l) l);
  [fixed_tag..| | |fixed_tag|fixed_tag]; [by apply base64_no_tag|by apply binary_text].
Qed.

Lemma carried_time t r : 0 <= t < 2 ^ 63 -> t mod 1000 = 0 -> gmtime (toSeconds t) = Some r -> 0 <= tm_year r + 1900 < 10000 -> carried (V_Time t).
Proof.
intros Ht Hs E Hy. pose proof (time_ok t r E Hy) as (H1 & H2 & H3 & H4 & H5). destruct (calendar_fields t r Ht E) as (_ & _ & _ & Ec).
assert (t = convertUtcTime (tm_year r + 1900) (tm_mon r) (tm_mday r - 1) (tm_hour r) (tm_min r) (tm_sec r) 0) as Et by lia.
eapply (carried_scalar readTime (fun name => is_tag name "dateTime.iso8601") time_of V_Time (chars "dateTime.iso8601") RT_Time (time_chars t) t);
  [fixed_tag..| | |fixed_tag|fixed_tag]; unfold time_chars; rewrite E; [by apply date_no_tag|]. rewrite Et at 1. by apply time_text.
Qed.

Lemma double_text d : no_tag (format_g d) -> 0 ∉ format_g d -> (forall rest, strtod (format_g d ++ 60 :: rest) = d) ->
at_text (fun cont => (s ← c_string (fst cont); mret (strtod s)) : act decoder Z) (format_g d) d.
Proof.
intros Hn H0 Hr st pre post Hm. cbn [fst]. assert (exists rest, c_string (Z.of_nat (length pre)) st = Ret (format_g d ++ 60 :: rest, st)) as [rest E].
{ unfold c_string. rewrite Hm, !length_app. cbn [length]. ztest. cbn [orb]. cbv iota. rewrite Nat2Z.id, drop_app_length.
  exists (fst (span (fun c => negb (c =? 0)) post)). do 3 f_equal. clear Hm Hr Hn.
  induction (format_g d) as [|c l IH]; [simpl; by destruct (span _ post)|]. rewrite elem_of_cons in H0. cbn [app span].
  destruct (Z.eqb_spec c 0) as [->|]; [tauto|]. cbn [negb]. destruct (span _ (l ++ 60 :: post)) eqn:Es. cbn [fst] in *.
  f_equal. apply IH; [tauto|lia]. }
rewrite (bind_step _ _ _ _ _ E). by rewrite Hr.
Qed.

Lemma carried_double d : value_ok (V_Double d) -> carried (V_Double d).
Proof.
intros (Hn & H0 & Hr). eapply (carried_scalar (readDouble strtod) (fun name => is_tag name "double") _ V_Double (chars "double") RT_Double (format_g d) d);
  [fixed_tag..| | |fixed_tag|fixed_tag]; [done|by apply double_text].
Qed.

(** ** Structures *)

(** The next element is looked at only. *)
Lemma peek_start {B} (f : Z * list Z -> act decoder B) st n rest :
at_rest st (start_tag n ++ rest) -> tag_name n -> (moveToNextElement ≫= f) st = f (0, n) (skip (length (start_tag n)) st).
Proof. intros Hst Hn. apply bind_step. by apply (reads_start n rest Hn). Qed.

Lemma peek_end {B} (f : Z * list Z -> act decoder B) st n rest :
at_rest st (end_tag n ++ rest) -> tag_name n -> (moveToNextElement ≫= f) st = f (1, n) (skip (length (end_tag n)) st).
Proof. intros Hst Hn. apply bind_step. by apply (reads_end n rest Hn). Qed.

Lemma set_pos_back {B} (f : unit -> act decoder B) st n : (set_pos (pos st) ≫= f) (skip n st) = f tt st.
Proof. unfold set_pos, skip, mbind, act_bind. cbn. by destruct st. Qed.

Lemma reads_array_more rest : reads checkArrayNext [] (otag "value" ++ rest) true.
Proof.
intros st Hst. unfold checkArrayNext. unfold get at 1. erewrite bind_step by reflexivity.
rewrite (peek_start _ st (chars "value") rest Hst) by (by apply tag_string_ok). cbn [fst snd Z.eqb negb orb]. rewrite set_pos_back. by rewrite xml_skip_0.
Qed.

Lemma reads_array_end top rest : follows top rest -> reads checkArrayNext (ctag "data" ++ ctag "array" ++ ctag "value" ++ pclose top) rest false.
Proof.
intros Hf st Hst. unfold checkArrayNext. unfold get at 1. erewrite bind_step by reflexivity. rewrite <- app_assoc in Hst.
rewrite (peek_end _ st (chars "data") _ Hst) by (by apply tag_string_ok). cbn [fst snd Z.eqb Pos.eqb negb orb].
change (is_tag (chars "data") "data") with true. cbn [negb]. pose proof (at_rest_skip _ _ _ Hst) as Hst1.
rewrite (bind_step _ _ _ _ _ (reads_value_end top (chars "array") rest ltac:(by apply tag_string_ok) Hf _ Hst1)).
rewrite xml_skip_skip. by rewrite (length_app (ctag "data")).
Qed.

Lemma value_starts v top : value_ok v -> exists tail, body v top = otag "value" ++ tail.
Proof. intros Hv. destruct v; try done; eexists; cbn [body]; unfold scalar; reflexivity. Qed.

(** The end of an array, or its next item. *)
Lemma items_follow l top rest : Forall value_ok l -> follows false (items_text l ++ (ctag "data" ++ ctag "array" ++ ctag "value" ++ pclose top) ++ rest).
Proof.
intros [|v l' Hv Hl]; cbn [items_text follows app].
- exists (chars "data"). eexists. split; [by apply tag_string_ok|]. right. split; [|done]. rewrite <- !app_assoc. reflexivity.
- destruct (value_starts v false Hv) as [tail ->]. exists (chars "value"). eexists. split; [by apply tag_string_ok|]. left.
  unfold otag. rewrite <- !app_assoc. reflexivity.
Qed.

Lemma reads_items d top rest l : follows top rest -> Forall value_ok l -> Forall carried l -> forall fuel acc, (length l < fuel)%nat ->
(length (items_text l) < d)%nat ->
reads (while_next fuel checkArrayNext (fun list => member_value ← readVariant strtod garbage d; mret (list ++ [member_value])) acc)
  (items_text l ++ ctag "data" ++ ctag "array" ++ ctag "value" ++ pclose top) rest (acc ++ l).
Proof.
intros Hfo Hok Hc. induction Hc as [|v l Hv Hc IH]; intros [|fuel] acc Hf Hd; try (simpl in Hf; lia); cbn [while_next items_text].
- rewrite <- (app_nil_r ([] ++ _)). eapply xml_reads_bind; [rewrite app_nil_l; by apply reads_array_end|]. cbv iota. rewrite app_nil_r. apply xml_reads_ret.
- apply list.Forall_cons in Hok as [Hok1 Hok]. cbn [items_text] in Hd. rewrite length_app in Hd. rewrite <- app_assoc.
  eapply xml_reads_bind_nil.
  { destruct (value_starts v false Hok1) as [tail ->]. rewrite <- !app_assoc. apply reads_array_more. }
  cbv iota. eapply xml_reads_bind.
  { apply xml_reads_map. apply (Hv false false); [|lia]. rewrite <- app_assoc. by apply items_follow. }
  replace (acc ++ v :: l) with ((acc ++ [v]) ++ l) by (by rewrite <- app_assoc). apply IH; [done|cbn [length] in Hf; lia|lia].
Qed.

Lemma carried_array l : Forall value_ok l -> Forall carried l -> carried (V_Array l).
Proof.
intros Hok Hc o top rest [|d] Hfo Hd; [lia|]. cbn [body] in *. fold items_text in *. cbn [readVariant].
apply (xml_reads_check_type _ o (chars "array") RT_Array); [by apply tag_string_ok|done|by intros|].
rewrite (app_assoc (otag "value")). rewrite app_assoc. eapply xml_reads_bind.
{ unfold readArrayLength. eapply xml_reads_bind; [by apply (reads_next_value false), tag_string_ok|].
  change (is_tag (chars "array") "array") with true. cbv iota. rewrite <- (app_nil_r (otag "data")). eapply xml_reads_bind; [by apply reads_req_start|apply xml_reads_ret]. }
apply xml_reads_map. rewrite !length_app in Hd. assert (length l <= length (items_text l))%nat as Hl.
{ clear -Hok. induction Hok as [|v l Hv _ IH]; cbn [items_text length]; [lia|]. destruct (value_starts v false Hv) as [tail ->].
  rewrite !length_app. unfold otag at 1, start_tag at 1. cbn [length]. lia. }
apply (reads_items d top rest l Hfo Hok Hc (S d) []); unfold otag, ctag, start_tag in Hd; cbn [length] in Hd; lia.
Qed.

(** [checkStructNext] goes over the end of the member before. *)
Lemma reads_struct_skip {B} (f : bool -> act decoder B) (b : bool) bytes rest r :
(forall k, reads (check_struct_next (S k) ≫= f) bytes rest r) ->
reads (checkStructNext ≫= f) ((if b then [] else ctag "member") ++ bytes) rest r.
Proof.
intros H st Hst. unfold checkStructNext. rewrite act_bind_assoc. unfold get at 1. erewrite bind_step by reflexivity.
unfold all_fuel. generalize (length (mem st)). intros k. destruct b; cbn [app] in *; [by apply H|].
remember (S k) as k' eqn:Ek. cbn [check_struct_next]. rewrite act_bind_assoc. unfold get at 1. erewrite bind_step by reflexivity.
rewrite act_bind_assoc. rewrite <- app_assoc in Hst. rewrite (peek_end _ st (chars "member") _ Hst) by (by apply tag_string_ok).
cbn [fst snd Z.eqb Pos.eqb]. change (is_tag (chars "member") "member") with true. cbv iota. subst k'.
pose proof (at_rest_skip _ _ _ Hst) as Hst1. change (end_tag (chars "member")) with (ctag "member"). rewrite (H k _ Hst1).
rewrite xml_skip_skip. by rewrite (length_app (ctag "member")).
Qed.

Lemma reads_struct_more {B} (f : bool -> act decoder B) b bytes rest rest' r : bytes ++ rest = otag "member" ++ rest' ->
reads (f true) bytes rest r -> reads (checkStructNext ≫= f) ((if b : bool then [] else ctag "member") ++ bytes) rest r.
Proof.
intros E H. apply reads_struct_skip. intros k st Hst. cbn [check_struct_next]. rewrite act_bind_assoc. unfold get at 1. erewrite bind_step by reflexivity.
rewrite act_bind_assoc. pose proof Hst as Hst1. rewrite E in Hst1. rewrite (peek_start _ st (chars "member") _ Hst1) by (by apply tag_string_ok).
cbn [fst snd Z.eqb Pos.eqb]. change (bool_decide _ && negb (is_tag (chars "member") "member")) with false.
change (is_tag (chars "member") "struct") with false. cbn [negb]. cbv iota. rewrite act_bind_assoc, set_pos_back. by apply H.
Qed.

Lemma reads_struct_end {B} (f : bool -> act decoder B) b top rest r : follows top rest -> reads (f false) [] rest r ->
reads (checkStructNext ≫= f) ((if b : bool then [] else ctag "member") ++ ctag "struct" ++ ctag "value" ++ pclose top) rest r.
Proof.
intros Hf H. apply reads_struct_skip. intros k st Hst. cbn [check_struct_next]. rewrite act_bind_assoc. unfold get at 1. erewrite bind_step by reflexivity.
rewrite act_bind_assoc. pose proof Hst as Hst1. rewrite <- app_assoc in Hst1. rewrite (peek_end _ st (chars "struct") _ Hst1) by (by apply tag_string_ok).
cbn [fst snd Z.eqb Pos.eqb]. change (is_tag (chars "struct") "member") with false. change (is_tag (chars "struct") "struct") with true. cbv iota.
rewrite act_bind_assoc, set_pos_back, act_bind_assoc.
rewrite (bind_step _ _ _ _ _ (reads_value_end top (chars "struct") rest ltac:(by apply tag_string_ok) Hf _ Hst)).
apply at_rest_skip in Hst. rewrite <- (app_nil_l rest) in Hst. etrans; [apply (H _ Hst)|].
simpl. by rewrite xml_skip_0.
Qed.

Lemma xml_reads_member_name name rest : no_tag name -> reads readMemberName (otag "member" ++ otag "name" ++ name ++ ctag "name") rest name.
Proof.
intros Hn. unfold readMemberName. eapply xml_reads_bind; [by apply reads_req_start|]. eapply xml_reads_bind; [by apply reads_req_start|].
eapply (reads_content _ name (ctag "name") rest); [done|reflexivity|]. intros st Hst. cbn [fst snd].
rewrite app_assoc in Hst. pose proof (at_rest_skip _ _ _ ltac:(by rewrite <- app_assoc in Hst)) as Hst1.
rewrite (bind_step _ _ _ _ _ (reads_req_end "name" rest eq_refl _ Hst1)). rewrite xml_skip_skip, <- length_app.
unfold range. change (mem (skip _ st)) with (mem st). rewrite <- app_assoc in Hst. by rewrite (mem_range_skip _ _ _ Hst).
Qed.
Lemma reads_members d top rest l : follows top rest -> Forall (fun m => no_tag (fst m) /\ carried (snd m)) l ->
forall fuel (b : bool) acc, NoDup (acc ++ l).*1 -> (length l < fuel)%nat -> (length (members_text l) < d)%nat ->
reads (while_next fuel checkStructNext (fun struc =>
    member_name ← readMemberName; member_value ← readVariant strtod garbage d; mret (set_member member_name member_value struc)) acc)
  ((if b then [] else ctag "member") ++ members_text l ++ ctag "struct" ++ ctag "value" ++ pclose top) rest (acc ++ l).
Proof.
intros Hfo Hc. induction Hc as [|[name v] l [Hn Hv] Hc IH]; intros [|fuel] b acc Hnd Hf Hd; try (simpl in Hf; lia); cbn [while_next members_text].
- rewrite app_nil_r, app_nil_l. apply reads_struct_end; [done|]. apply xml_reads_ret.
- cbn [members_text] in Hd. rewrite !length_app in Hd. cbn [fst snd] in *. unfold member at 1. unfold member in Hd. rewrite !length_app in Hd.
  rewrite <- !app_assoc. eapply reads_struct_more; [rewrite <- !app_assoc; reflexivity|]. cbv iota.
  replace (otag "member" ++ otag "name" ++ name ++ ctag "name" ++ body v false ++ _) with
    (((otag "member" ++ otag "name" ++ name ++ ctag "name") ++ body v false) ++ ctag "member" ++ members_text l ++ ctag "struct" ++ ctag "value" ++ pclose top)
    by (by rewrite <- !app_assoc).
  eapply xml_reads_bind.
  { eapply xml_reads_bind; [by apply xml_reads_member_name|]. apply xml_reads_map. apply (Hv false false); [|lia].
    exists (chars "member"). eexists. split; [by apply tag_string_ok|]. right. split; [|done]. rewrite <- !app_assoc. reflexivity. }
  rewrite set_member_new.
  + replace (acc ++ (name, v) :: l) with ((acc ++ [(name, v)]) ++ l) in * by (by rewrite <- app_assoc).
    apply (IH fuel false); [done|cbn [length] in Hf; lia|lia].
  + rewrite fmap_app in Hnd. apply list.NoDup_app in Hnd as (_ & Hnd & _). intros Hin. apply (Hnd _ Hin). cbn [fmap list_fmap fst]. apply elem_of_cons. auto.
Qed.

Lemma carried_struct l : NoDup l.*1 -> Forall (fun m => no_tag (fst m) /\ carried (snd m)) l -> carried (V_Struct l).
Proof.
intros Hnd Hc o top rest [|d] Hfo Hd; [lia|]. cbn [body] in *. fold members_text in *. cbn [readVariant].
apply (xml_reads_check_type _ o (chars "struct") RT_Struct); [by apply tag_string_ok|done|by intros|].
rewrite (app_assoc (otag "value")). eapply xml_reads_bind.
{ unfold readStructLength. rewrite <- (app_nil_r (otag "value" ++ start_tag _)). eapply xml_reads_bind; [by apply (reads_next_value false), tag_string_ok|].
  change (is_tag (chars "struct") "struct") with true. cbv iota. apply xml_reads_ret. }
apply xml_reads_map. rewrite !length_app in Hd. assert (length l <= length (members_text l))%nat as Hl.
{ clear. induction l as [|[name v] l IH]; cbn [members_text length]; [lia|]. unfold member. rewrite !length_app. unfold otag at 1, start_tag at 1. cbn [length]. lia. }
apply (reads_members d top rest l Hfo Hc (S d) true []); [done| |]; unfold otag, ctag, start_tag in Hd; cbn [length] in Hd; lia.
Qed.

Lemma xml_value_carried v : value_ok v -> carried v.
Proof.
induction v as [|n|b|d|s|t|d|members IH|items IH] using Variant_nested; intros Hok.
- done.
- by apply carried_int.
- apply carried_bool.
- by apply carried_double.
- apply carried_string.
- destruct Hok as (H1 & H2 & r & E & Hy). by eapply carried_time.
- destruct Hok. by apply carried_binary.
- apply carried_struct; [apply Hok|]. apply list.Forall_forall. intros m Hm. destruct (value_ok_members _ _ Hok Hm) as [H1 H2].
  split; [done|]. rewrite list.Forall_forall in IH. by apply IH.
- assert (Forall value_ok items) as Hv by (apply list.Forall_forall; intros v Hv; by apply (value_ok_items items)).
  apply carried_array; [done|]. apply list.Forall_forall. intros v Hin. rewrite list.Forall_forall in IH, Hv. by apply IH, Hv.
Qed.

(** ** Messages *)

(** A call with its parameters, or a response. *)
Inductive message := Call (name : list Z) (params : list Variant) | Response (v : Variant).

Definition write_message (m : message) : act encoder unit :=
match m with
| Call name params => _ ← writeHeader; _ ← writeMethodName name; _ ← write_items params; writeMethodEnd
| Response v => _ ← writeHeader; _ ← writeMethodResponse; _ ← write_value v; writeResponseEnd
end.

Fixpoint read_params (n d : nat) : act decoder (list Variant) :=
match n with
| O => lift NoFuel
| S n =>
  type ← readCheckType;
  match type with
  | RT_End => mret []
  | _ => v ← readVariant strtod garbage d; l ← read_params n d; mret (v :: l)
  end
end.

Definition read_message (d : nat) : act decoder (option message) :=
kind ← readHeader;
if kind =? 0 then name ← readMethodName; params ← read_params d d; mret (Some (Call name params))
else if kind =? 1 then _ ← readMethodResponse; v ← readVariant strtod garbage d; mret (Some (Response v))
else mret None.

Definition message_ok (m : message) : Prop :=
match m with
| Call name params => Forall (fun c => c <> 38 /\ c <> 60 /\ c <> 62) name /\ Forall value_ok params /\ Forall (fun v => Z.of_nat (height v) < 2 ^ 63) params
| Response v => value_ok v /\ Z.of_nat (height v) < 2 ^ 63
end.

Definition declaration : list Z := chars "<?xml version=" ++ [34] ++ chars "1.0" ++ [34] ++ chars "?>".
Definition param_text (v : Variant) : list Z := popen true ++ body v true.
Definition params_text (params : list Variant) : list Z := flat_map param_text params.

Definition message_text (m : message) : list Z :=
match m with
| Call name params => declaration ++ 10 :: otag "methodCall" ++ otag "methodName" ++ name ++ ctag "methodName" ++ otag "params" ++
    params_text params ++ ctag "params" ++ ctag "methodCall"
| Response v => declaration ++ 10 :: otag "methodResponse" ++ otag "params" ++ param_text v ++ ctag "params" ++ ctag "methodResponse"
end.

Lemma writes_params params c cl : Forall value_ok params -> Forall (fun v => Z.of_nat (height v) < 2 ^ 63) params ->
exists cl', write_items params (mk_encoder c 0 cl) = Ret (tt, mk_encoder (c ++ params_text params) 0 cl').
Proof.
intros Hok Hh. revert c cl. induction Hok as [|v l Hv Hok IH]; intros c cl; cbn [write_items params_text flat_map].
- exists cl. by rewrite app_nil_r.
- apply list.Forall_cons in Hh as [Hh1 Hh]. destruct (writes_value v Hv 0 ltac:(lia) ltac:(lia) c cl) as (cl1 & E & _).
  destruct (IH Hh (c ++ param_text v) cl1) as (cl2 & E2). exists cl2. rewrite (bind_step _ _ _ _ _ E).
  change (popen (at_level 0) ++ body v (at_level 0)) with (param_text v). rewrite E2. by rewrite <- app_assoc.
Qed.

Lemma writes_message m : message_ok m -> exists st, write_message m create = Ret (tt, st) /\ content st = message_text m.
Proof.
destruct m as [name params|v]; cbn [message_ok write_message message_text]; unfold create, writeHeader.
- intros (_ & Hok & Hh). write_steps. unfold writeMethodName. rewrite ?act_bind_assoc. write_steps. rewrite ?act_bind_assoc. write_steps.
  destruct (writes_params params (((([] ++ chars "<?xml version=" ++ [34] ++ chars "1.0" ++ [34] ++ chars "?>" ++ [10]) ++ chars "<methodCall><methodName>") ++ name) ++ chars "</methodName><params>") None Hok Hh) as (cl & E).
  rewrite (bind_step _ _ _ _ _ E). unfold writeMethodEnd. write_steps. eexists. split; [reflexivity|]. cbn [content]. rewrite <- !app_assoc. reflexivity.
- intros [Hok Hh]. write_steps. unfold writeMethodResponse. write_steps.
  destruct (writes_value v Hok 0 ltac:(lia) ltac:(lia) (([] ++ chars "<?xml version=" ++ [34] ++ chars "1.0" ++ [34] ++ chars "?>" ++ [10]) ++ chars "<methodResponse><params>") None) as (cl & E & _).
  rewrite (bind_step _ _ _ _ _ E). unfold writeResponseEnd. write_steps. eexists. split; [reflexivity|]. cbn [content].
  change (popen (at_level 0) ++ body v (at_level 0)) with (param_text v). rewrite <- !app_assoc. reflexivity.
Qed.
(** Reading stops behind the parameters of a call, behind the value of a response. *)
Definition message_rest (m : message) : list Z :=
match m with Call _ _ => ctag "methodCall" | Response _ => ctag "params" ++ ctag "methodResponse" end.

Lemma reads_skip_declaration l : forall fuel rest, Forall (fun c => c <> 62) l -> (length l < fuel)%nat ->
reads (skip_declaration fuel) (l ++ [62]) rest tt.
Proof.
induction l as [|x l IH]; intros [|fuel] rest Hl Hf; try (simpl in Hf; lia); cbn [skip_declaration app]; apply reads_get; intros st Hst;
  pose proof (before_end st _ _ _ _ Hst eq_refl) as Hb; apply Z.ltb_lt in Hb; (destruct (Z.leb_spec (end_ st) (pos st)); [lia|]);
  revert st Hst H Hb; intros st Hst _ _; revert st Hst.
- apply reads_cur. eapply (xml_reads_bind _ _ [62] []); [apply reads_advance|]. apply xml_reads_ret.
- apply list.Forall_cons in Hl as [Hx Hl]. apply reads_cur. eapply (xml_reads_bind _ _ [x] (l ++ [62])); [apply reads_advance|].
  destruct (Z.eqb_spec x 62); [done|]. apply IH; [done|simpl in Hf; lia].
Qed.

Lemma reads_newline_start s rest : tag_string s = true -> reads moveToNextElement (10 :: otag s) rest (0, chars s).
Proof. intros Hs. apply (reads_move [10]); [by repeat constructor|]. intros fuel. by apply reads_next_start, tag_string_ok. Qed.

(** The declaration is read, the elements behind it are looked at. *)
Lemma reads_declaration rest r : (forall st, at_rest st rest ->
  (save ← get;
    el ← moveToNextElement;
    if negb (fst el =? 0) then throw InvalidFormatException
    else if is_tag (snd el) "methodCall" then _ ← set_pos (pos save); mret 0
    else if is_tag (snd el) "methodResponse" then
      el ← moveToNextElement;
      if negb (fst el =? 0) then throw InvalidFormatException
      else if is_tag (snd el) "params" then _ ← set_pos (pos save); mret 1
      else if is_tag (snd el) "fault" then _ ← set_pos (pos save); mret 2
      else throw InvalidFormatException
    else throw InvalidFormatException) st = Ret (r, st)) ->
reads readHeader declaration rest r.
Proof.
intros H st Hst. unfold readHeader. unfold get at 1. erewrite bind_step by reflexivity.
assert ((end_ st <=? pos st + 5) = false) as ->.
{ destruct Hst as (pre & _ & -> & -> & _). apply Z.leb_gt. rewrite !length_app. change (length declaration) with 21%nat. lia. }
change declaration with (chars "<?xml" ++ drop 5 declaration) in Hst. rewrite <- app_assoc in Hst.
assert (range (pos st) 5 st = Ret (chars "<?xml", st)) as E by (unfold range; change 5 with (Z.of_nat (length (chars "<?xml"))) at 1; by rewrite (mem_range_skip st _ _ Hst)).
rewrite (bind_step _ _ _ _ _ E).
change (bool_decide (chars "<?xml" = chars "<?xml")) with true. cbn [negb]. unfold advance at 1.
erewrite bind_step by reflexivity. apply at_rest_skip in Hst as Hst1.
change (mk_decoder (mem st) _ _ _) with (skip (length (chars "<?xml")) st).
change (drop 5 declaration) with ((chars " version=" ++ [34] ++ chars "1.0" ++ [34; 63]) ++ [62]) in Hst1.
pose proof (all_fuel_large st _ Hst) as Hf. rewrite !length_app in Hf.
assert (reads (skip_declaration (all_fuel st)) ((chars " version=" ++ [34] ++ chars "1.0" ++ [34; 63]) ++ [62]) rest tt) as Hd.
{ apply reads_skip_declaration; [by repeat constructor|]. change (length (drop 5 declaration)) with 16%nat in Hf. cbn. lia. }
rewrite (bind_step _ _ _ _ _ (Hd _ Hst1)).
apply at_rest_skip in Hst1. etrans; [exact (H _ Hst1)|]. rewrite xml_skip_skip. reflexivity.
Qed.

Lemma reads_header_call rest : reads readHeader declaration (10 :: otag "methodCall" ++ rest) 0.
Proof.
apply reads_declaration. intros st Hst. unfold get at 1. erewrite bind_step by reflexivity.
rewrite (bind_step _ _ _ _ _ (reads_newline_start "methodCall" rest eq_refl st Hst)).
cbn [fst snd Z.eqb negb]. change (is_tag (chars "methodCall") "methodCall") with true. cbv iota. apply set_pos_back.
Qed.

Lemma reads_header_response rest : reads readHeader declaration (10 :: otag "methodResponse" ++ otag "params" ++ rest) 1.
Proof.
apply reads_declaration. intros st Hst. unfold get at 1. erewrite bind_step by reflexivity.
rewrite (bind_step _ _ _ _ _ (reads_newline_start "methodResponse" _ eq_refl st Hst)). apply (at_rest_skip _ (10 :: otag "methodResponse")) in Hst.
cbn [fst snd Z.eqb negb]. change (is_tag (chars "methodResponse") "methodCall") with false.
change (is_tag (chars "methodResponse") "methodResponse") with true. cbv iota.
rewrite (bind_step _ _ _ _ _ (reads_start (chars "params") rest ltac:(by apply tag_string_ok) _ Hst)).
cbn [fst snd Z.eqb negb]. change (is_tag (chars "params") "params") with true. cbv iota. rewrite xml_skip_skip. apply set_pos_back.
Qed.
(** ** Reading a message *)

Lemma escape_name name : Forall (fun c => c <> 38 /\ c <> 60 /\ c <> 62) name -> escape name = name.
Proof.
unfold escape. induction 1 as [|c l (H1 & H2 & H3) _ IH]; [done|]. cbn [flat_map]. rewrite IH. unfold escape_char.
destruct (Z.eqb_spec c 38); [done|]. destruct (Z.eqb_spec c 60); [done|]. by destruct (Z.eqb_spec c 62).
Qed.

Lemma reads_method_name name rest : Forall (fun c => c <> 38 /\ c <> 60 /\ c <> 62) name ->
reads readMethodName (10 :: otag "methodCall" ++ otag "methodName" ++ name ++ ctag "methodName" ++ otag "params") rest name.
Proof.
intros Hn. unfold readMethodName. eapply (xml_reads_bind _ _ (10 :: otag "methodCall")).
{ unfold moveToNextElementReqStart. rewrite <- (app_nil_r (10 :: _)). eapply xml_reads_bind; [by apply reads_newline_start|].
  cbn [fst snd]. rewrite is_tag_refl. apply xml_reads_ret. }
eapply xml_reads_bind; [by apply reads_req_start|].
eapply reads_content; [by eapply list.Forall_impl; [exact Hn|]; intros c (_ & H & _)|reflexivity|].
intros st Hst. cbn [fst snd]. pose proof (at_rest_skip _ _ _ Hst) as Hst1. rewrite <- app_assoc in Hst1.
rewrite (bind_step _ _ _ _ _ (reads_req_end "methodName" _ eq_refl _ Hst1)). apply at_rest_skip in Hst1.
rewrite (bind_step _ _ _ _ _ (reads_req_start "params" _ eq_refl _ Hst1)). rewrite !xml_skip_skip, <- !length_app.
destruct Hst as (pre & Hm & Hp & _). pose proof (convert_text name) as E. rewrite (escape_name name Hn) in E.
specialize (E (skip (length (name ++ ctag "methodName" ++ otag "params")) st) pre). rewrite Hp.
eapply E. unfold skip. cbn [mem]. rewrite Hm. rewrite <- !app_assoc. cbn [app]. reflexivity.
Qed.
(** The element inside the [value] of a value, and its type. *)
Lemma value_type v top : value_ok v -> exists t ty more, body v top = otag "value" ++ start_tag t ++ more /\ tag_name t /\
is_tag t "methodResponse" = false /\ (forall st, type_of_name t st = Ret (ty, st)) /\ ty <> RT_End.
Proof.
assert (forall (s : string) ty, tag_string s = true -> is_tag (chars s) "methodResponse" = false -> (forall st, type_of_name (chars s) st = Ret (ty, st)) ->
  ty <> RT_End -> (exists more, body v top = otag "value" ++ otag s ++ more) ->
  exists t ty more, body v top = otag "value" ++ start_tag t ++ more /\ tag_name t /\
    is_tag t "methodResponse" = false /\ (forall st, type_of_name t st = Ret (ty, st)) /\ ty <> RT_End) as K.
{ intros s ty H1 H2 H3 H4 (more & E). exists (chars s), ty, more. split_and!; try done. by apply tag_string_ok. }
intros Hv. destruct v as [|n|b|d|s|t|d|members|items]; [done|..].
- assert (int_name n = chars "int" \/ int_name n = chars "i8") as [E|E] by (unfold int_name; destruct (_ && _); auto);
    [apply (K "int"%string RT_Int)|apply (K "i8"%string RT_Int)]; try done; eexists; cbn [body]; unfold scalar; by rewrite E.
- apply (K "boolean"%string RT_Bool); try done; by eexists.
- apply (K "double"%string RT_Double); try done; by eexists.
- apply (K "string"%string RT_String); try done; by eexists.
- apply (K "dateTime.iso8601"%string RT_Time); try done; by eexists.
- apply (K "base64"%string RT_Binary); try done; by eexists.
- apply (K "struct"%string RT_Struct); try done; by eexists.
- apply (K "array"%string RT_Array); try done; by eexists.
Qed.

Lemma reads_params_end n d rest : reads (read_params (S n) d) (ctag "params") rest [].
Proof.
intros st Hst. cbn [read_params]. unfold readCheckType. rewrite act_bind_assoc. unfold get at 1. erewrite bind_step by reflexivity.
unfold all_fuel. cbn [check_type]. rewrite act_bind_assoc. unfold get at 1. erewrite bind_step by reflexivity.
pose proof (before_end st _ _ _ _ Hst eq_refl) as Hb. apply Z.ltb_lt in Hb. destruct (Z.leb_spec (end_ st) (pos st)); [lia|].
rewrite act_bind_assoc. rewrite (peek_end _ st (chars "params") _ Hst) by (by apply tag_string_ok). cbn [fst snd Z.eqb Pos.eqb].
change (is_tag (chars "params") "params" || is_tag (chars "params") "fault") with true. cbv iota. reflexivity.
Qed.

Lemma reads_params d rest l : Forall value_ok l -> (length (params_text l) < d)%nat -> forall n, (length l < n)%nat ->
reads (read_params n d) (params_text l ++ ctag "params") rest l.
Proof.
intros Hok Hd. induction Hok as [|v l Hv Hok IH]; intros [|n] Hn; cbn [length] in Hn; try lia; [apply reads_params_end|].
cbn [params_text flat_map] in *. fold (params_text l) in *. rewrite length_app in Hd. cbn [read_params]. unfold param_text in *. rewrite length_app in Hd.
destruct (value_type v true Hv) as (t & ty & more & E & Ht & Hr & Hty & Hne). pose proof (xml_value_carried v Hv false true) as C.
rewrite E in *. rewrite <- !app_assoc. apply (xml_reads_check_type _ true t ty); [done|done|done|].
assert (reads (v ← readVariant strtod garbage d; l ← read_params n d; mret (v :: l)) ((otag "value" ++ start_tag t ++ more) ++ params_text l ++ ctag "params") rest (v :: l)) as K.
{ eapply xml_reads_bind; [apply (C ((params_text l ++ ctag "params") ++ rest) d I); lia|]. apply xml_reads_map. apply IH; lia. }
rewrite <- !app_assoc in K. by destruct ty.
Qed.
Lemma params_short l : Forall value_ok l -> (length l <= length (params_text l))%nat.
Proof.
induction 1 as [|v l Hv _ IH]; cbn [params_text flat_map length]; [lia|]. fold (params_text l). rewrite length_app.
unfold param_text. cbn [popen]. unfold otag at 1, start_tag at 1. rewrite length_app. cbn [length]. lia.
Qed.

Lemma reads_message m d : message_ok m -> (length (message_text m) < d)%nat ->
exists n, read_message d (setContent (message_text m)) = Ret (Some m, skip n (setContent (message_text m))).
Proof.
intros Hok Hd. assert (exists bytes, message_text m = bytes ++ message_rest m /\ reads (read_message d) bytes (message_rest m) (Some m)) as (bytes & E & R).
{ destruct m as [name params|v]; cbn [message_ok message_text message_rest] in *; unfold read_message.
  - destruct Hok as (Hn & Hp & _). exists (declaration ++ (10 :: otag "methodCall" ++ otag "methodName" ++ name ++ ctag "methodName" ++ otag "params") ++
      (params_text params ++ ctag "params")). split; [by rewrite <- !app_assoc; cbn [app]; rewrite <- !app_assoc|].
    rewrite !length_app in Hd. cbn [length] in Hd. rewrite !length_app in Hd.
    eapply xml_reads_bind; [cbn [app]; rewrite <- !app_assoc; apply reads_header_call|]. cbn [Z.eqb].
    eapply xml_reads_bind; [by apply reads_method_name|]. apply (xml_reads_map _ (fun params => Some (Call name params))). pose proof (params_short params Hp). apply reads_params; [done|lia|lia].
  - destruct Hok as (Hv & _). exists (declaration ++ (10 :: otag "methodResponse" ++ otag "params") ++ param_text v).
    split; [by rewrite <- !app_assoc; cbn [app]; rewrite <- !app_assoc|].
    rewrite !length_app in Hd. cbn [length] in Hd. rewrite !length_app in Hd. unfold param_text in Hd. rewrite length_app in Hd.
    eapply xml_reads_bind; [cbn [app]; rewrite <- !app_assoc; apply reads_header_response|]. cbn [Z.eqb Pos.eqb].
    eapply xml_reads_bind; [|apply (xml_reads_map _ (fun v => Some (Response v))), (xml_value_carried v Hv true true); [done|lia]].
    unfold readMethodResponse. rewrite <- (app_nil_r (10 :: _)). cbn [app]. rewrite app_nil_r.
    eapply (xml_reads_bind _ _ (10 :: otag "methodResponse") (otag "params")); [|by apply reads_req_start].
    unfold moveToNextElementReqStart. rewrite <- (app_nil_r (10 :: _)). eapply xml_reads_bind; [by apply reads_newline_start|].
    cbn [fst snd]. rewrite is_tag_refl. apply xml_reads_ret. }
exists (length bytes). apply R. rewrite <- E. by exists [].
Qed.
End Messages.

(** ** Properties *)

(** C12. Round trip of messages that XML-RPC as coded here can carry: a call
    with any number of parameters, or a response, is written by the encoder
    without a failure, and a decoder on the bytes finds the kind in the header
    and reads the same method name and the same values, structures and arrays
    nested to any depth. The values are integers from 0 below 2^63, booleans,
    strings of ASCII characters, at most twenty bytes of binary data, times of
    whole seconds in the years from 1970 to 9999, doubles whose printed text,
    with no less-than sign and no zero byte in it, [strtod] reads as the same
    number, and arrays and structures of them, whose members have different
    names without a less-than sign; the name of the method has no ampersand and
    no angle bracket. Outside of this it fails for negative integers
    ([xml_int64_negative]) and longer binary data ([xml_binary_fails]), for
    instance. A depth that exceeds the length of the text is enough. *)
Theorem xml_message_roundtrip (strtod : list Z -> Z) (format_g : Z -> list Z) (garbage : Z) (m : message) (d : nat) :
  message_ok strtod format_g m ->
  (length (message_text format_g m) < d)%nat ->
  exists st st', write_message format_g m create = Ret (tt, st) /\
    read_message strtod garbage d (setContent (content st)) = Ret (Some m, st').
Proof.
  intros Hok Hd. destruct (writes_message strtod format_g m Hok) as (st & Ew & Ec).
  destruct (reads_message strtod format_g garbage m d Hok Hd) as (n & Er). rewrite <- Ec in Er. by eauto.
Qed.

(** A call with a value of every type: [strtod] and the printing of doubles
    agree on the one double in it. *)
Definition demo_strtod (s : list Z) : Z := 4609434218613702656.
Definition demo_format_g (d : Z) : list Z := if d =? 4609434218613702656 then chars "1.5" else chars "nan".
Definition demo_call : message := Call (chars "store")
  [V_Int 2147483648; V_Struct [(chars "name", V_String (chars "a < b & c")); (chars "list", V_Array [V_Bool true; V_Double 4609434218613702656; V_Array []])];
   V_Time 1234567890000; V_Binary [0; 255; 10]].

Lemma xml_message_roundtrip_witness : exists st st', write_message demo_format_g demo_call create = Ret (tt, st) /\
  read_message demo_strtod 170 1000 (setContent (content st)) = Ret (Some demo_call, st').
Proof.
  apply (xml_message_roundtrip demo_strtod demo_format_g 170 demo_call 1000).
  - split; [by repeat constructor|]. split; [|by repeat constructor].
    constructor; [done|]. constructor; [|constructor; [|constructor; [|by constructor]]].
    + split; [apply (bool_decide_unpack _); vm_compute; exact I|]. cbn. split_and!; try done; try by repeat constructor.
      apply (bool_decide_unpack _). vm_compute. exact I.
    + split; [done|]. split; [done|]. eexists. split; [vm_compute; reflexivity|]. by vm_compute.
    + split; [by repeat constructor|cbn; lia].
  - vm_compute. lia.
Defined.

(** C39. Integers of 32 bits: every [Sint32], the least and the negative ones
    included, is read back by [readInt32] from the value that [writeInt32]
    writes, at the top level. *)
Theorem xml_int32_roundtrip (n : Z) : in_s 32 n ->
  exists st st', writeInt32 n create = Ret (tt, st) /\ readInt32 (setContent (content st)) = Ret (n, st').
Proof.
  intros Hn. destruct (writes_scalar "<value><int>" (print_int n) "</int></value>" (chars "int") 0 eq_refl eq_refl [] None) as (cl & Ew & _).
  eexists. eexists. split; [exact Ew|]. cbn [content app]. apply (reads_scalar is_int int32_of true true (chars "int") (print_int n) [] n);
    [by apply tag_string_ok|done| |done|by apply int32_text|eexists []; split_and!; [by rewrite app_nil_r|done|by rewrite app_nil_r|done]].
  by apply print_int_no_tag.
Qed.

Lemma xml_int32_roundtrip_witness : exists st st', writeInt32 (-2147483648) create = Ret (tt, st) /\
  readInt32 (setContent (content st)) = Ret (-2147483648, st').
Proof. apply xml_int32_roundtrip. unfold in_s. lia. Defined.

(** A negative [Sint64] is read as a positive number: the minus sign is taken
    for a digit and the last digit is left out. *)
Theorem xml_int64_negative (n : Z) : - 2 ^ 63 <= n < 0 ->
  exists st st' r, writeInt64 n create = Ret (tt, st) /\ readInt64 (setContent (content st)) = Ret (r, st') /\ 0 < r.
Proof.
  intros Hn. destruct (int64_negative_text (- n) ltac:(lia)) as (r & Hr & Ht).
  assert (print_int n = 45 :: dec (- n)) as Ep by (unfold print_int; destruct (Z.ltb_spec n 0); [done|lia]).
  destruct (writes_int n 0 [] None) as (cl & Ew & _). do 2 eexists. exists r. split; [exact Ew|]. split; [|done]. cbn [content app].
  assert (int_name n = chars "int" \/ int_name n = chars "i8") as Hi by (unfold int_name; destruct (_ && _); auto).
  apply (reads_scalar is_int int64_of true true (int_name n) (print_int n) [] r);
    [destruct Hi as [-> | ->]; by apply tag_string_ok|by destruct Hi as [-> | ->]|by apply print_int_no_tag|done|by rewrite Ep|].
  eexists []; split_and!; [by rewrite app_nil_r|done|by rewrite app_nil_r|done].
Qed.

(** An array whose item is a [methodCall] is read without end: [readVariant]
    returns nothing for the item and leaves it where it is. *)
Theorem xml_array_diverges (strtod : list Z -> Z) (garbage : Z) (d : nat) :
  readVariant strtod garbage d (setContent (chars "<value><array><data><value><methodCall>")) = NoFuel.
Proof.
  set (content := chars "<value><array><data><value><methodCall>"). set (item := mk_decoder (content ++ [0]) 39 20 None).
  assert (checkArrayNext item = Ret (true, item)) as En by reflexivity.
  assert (readCheckType item = Ret (RT_MethodName, item)) as Et by reflexivity.
  assert (readCheckType (setContent content) = Ret (RT_Array, setContent content)) as E1 by reflexivity.
  assert (readArrayLength (setContent content) = Ret (-1, item)) as E2 by reflexivity.
  assert (forall fuel d acc, while_next fuel checkArrayNext (fun list => v ← readVariant strtod garbage d; mret (list ++ [v])) acc item = NoFuel) as K.
  { induction fuel as [|fuel IH]; intros d' acc; [done|]. cbn [while_next]. rewrite (bind_step _ _ _ _ _ En). cbv iota.
    destruct d' as [|d']; [done|]. erewrite bind_step; [apply IH|]. cbn [readVariant]. rewrite act_bind_assoc, (bind_step _ _ _ _ _ Et). reflexivity. }
  destruct d as [|d]; [done|]. cbn [readVariant]. rewrite (bind_step _ _ _ _ _ E1). cbv iota. rewrite (bind_step _ _ _ _ _ E2).
  unfold mbind at 1, act_bind at 1. by rewrite K.
Qed.

(** Twenty-one bytes of binary data, which the encoder writes, do not fit the
    blob that the decoder locks for them. *)
Lemma xml_binary_fails (garbage : Z) :
  readBinary garbage (setContent (chars "<param><value><base64>" ++ base64 (repeat 7 21) ++ chars "</base64></value></param>")) = Crash AssertFailed.
Proof. vm_compute. reflexivity. Qed.

(** An array is not skipped: its element is compared with [struct]. *)
Lemma xml_skip_array_fails (strtod : list Z -> Z) (garbage : Z) :
  readSkip strtod garbage 5 (setContent (chars "<param><value><array><data></data></array></value></param>")) = Exn InvalidFormatException.
Proof. reflexivity. Qed.

(** The check for the end of a comment lets [<!] at the end of the content
    through: the bytes behind the terminating zero are read. *)
Lemma xml_comment_at_end : moveToNextElement (setContent (chars "<!")) = Crash OutOfBounds.
Proof. reflexivity. Qed.

(** A character reference with hexadecimal digits is not one of XML. *)
Lemma xml_hexadecimal_reference : readString (setContent (chars "<param><value><string>&#x41;</string></value></param>")) = Exn InvalidFormatException.
Proof. reflexivity. Qed.
