(* ===== verification/XmlRpcTotal.v ===== *)
(** * Reading XML-RPC ends

    Every read of an element, a text, a scalar or a header ends, on any memory
    and from any state: the loops of the decoder move the position towards the
    end of the memory. *)

From Stdlib Require Import String.
From S2P Require Import Prelude Machine CString Time Base64 RpcDecoder XmlRpcDecoder.

#[local] Open Scope list_scope.

(** ** Judgement *)

(** [m] ends from [st], and a result with its state satisfies [Q]. *)
Definition yields {A} (m : act decoder A) (st : decoder) (Q : A -> decoder -> Prop) : Prop :=
  match m st with Ret (a, st') => Q a st' | NoFuel => False | _ => True end.

Lemma yields_bind {A B} (m : act decoder A) (f : A -> act decoder B) st Q :
  yields m st (fun a st' => yields (f a) st' Q) -> yields (m ≫= f) st Q.
Proof. unfold yields, mbind, act_bind. by destruct (m st) as [[a st']| | |]. Qed.

Lemma yields_mono {A} (m : act decoder A) st (P Q : A -> decoder -> Prop) :
  yields m st P -> (forall a st', P a st' -> Q a st') -> yields m st Q.
Proof. unfold yields. destruct (m st) as [[a st']| | |]; auto. Qed.

Lemma yields_seq {A B} (m : act decoder A) (f : A -> act decoder B) st P Q :
  yields m st P -> (forall a st', P a st' -> yields (f a) st' Q) -> yields (m ≫= f) st Q.
Proof. intros Hm Hf. apply yields_bind. eapply yields_mono; [exact Hm|exact Hf]. Qed.

Lemma yields_get {B} (f : decoder -> act decoder B) st Q : yields (f st) st Q -> yields (get ≫= f) st Q.
Proof. done. Qed.

Lemma yields_ret {A} (a : A) st (Q : A -> decoder -> Prop) : Q a st -> yields (mret a) st Q.
Proof. done. Qed.

Lemma yields_throw {A} e st (Q : A -> decoder -> Prop) : yields (throw e) st Q.
Proof. done. Qed.

(** The bytes left in the memory. *)
Definition room (st : decoder) : Z := Z.of_nat (length (mem st)) - pos st.

(** The position moved by [k] at least, and nothing else changed. *)
Definition moved (k : Z) (st st' : decoder) : Prop := mem st' = mem st /\ empty_el st' = empty_el st /\ pos st + k <= pos st'.

Lemma moved_trans j k st st1 st2 : moved j st st1 -> moved k st1 st2 -> moved (j + k) st st2.
Proof. intros (M1 & E1 & P1) (M2 & E2 & P2). split_and!; [by rewrite M2|by rewrite E2|lia]. Qed.

Lemma moved_refl st : moved 0 st st.
Proof. split_and!; [done|done|lia]. Qed.

Lemma yields_cur st : yields cur st (fun _ st' => st' = st /\ 0 <= pos st /\ 0 < room st).
Proof.
  unfold yields, cur, byte_at, room. destruct (Z.ltb_spec (pos st) 0); [done|]. destruct (mem st !! Z.to_nat (pos st)) eqn:E; [|done].
  apply lookup_lt_Some in E. simpl. split_and!; (done || lia).
Qed.

Lemma yields_at p st : yields (at_ p) st (fun _ st' => st' = st /\ 0 <= p < Z.of_nat (length (mem st))).
Proof.
  unfold yields, at_, byte_at. destruct (Z.ltb_spec p 0); [done|]. destruct (mem st !! Z.to_nat p) eqn:E; [|done].
  apply lookup_lt_Some in E. simpl. split_and!; (done || lia).
Qed.

Lemma yields_range p n st : yields (range p n) st (fun _ st' => st' = st /\ 0 <= p /\ 0 <= n /\ p + n <= Z.of_nat (length (mem st))).
Proof.
  unfold yields, range, mem_range. destruct (Z.ltb_spec p 0); [done|]. destruct (Z.ltb_spec n 0); [done|].
  simpl. destruct (Z.ltb_spec (Z.of_nat (length (mem st))) (p + n)); [done|]. simpl. split_and!; (done || lia).
Qed.

Lemma yields_advance n st : yields (advance n) st (fun _ st' => moved n st st').
Proof. split_and!; (done || simpl; lia). Qed.

(** ** Elements *)

(** Takes the next step of a read, whose result is unchanged or moved. *)
Ltac yield_with H := eapply yields_seq; [apply H|]; cbv beta.

(** Fuel for what is left. *)
Definition enough (fuel : nat) (st : decoder) : Prop := (0 < fuel)%nat /\ room st < Z.of_nat fuel.

Lemma enough_moved fuel k st st' : enough (S fuel) st -> moved k st st' -> 0 < k -> 0 < room st -> enough fuel st'.
Proof. intros [_ H] (M & _ & P) Hk Hr. unfold enough, room in *. rewrite M in *. split; lia. Qed.

Lemma all_fuel_enough st : 0 <= pos st -> enough (all_fuel st) st.
Proof. unfold enough, all_fuel, room. intros. split; lia. Qed.

Lemma moved_weaken j k st st' : moved j st st' -> k <= j -> moved k st st'.
Proof. intros (M & E & P) H. split_and!; (done || lia). Qed.

Lemma yields_skip_chars p : forall fuel st, enough fuel st -> yields (skip_chars fuel p) st (fun _ st' => moved 0 st st').
Proof.
  induction fuel as [|fuel IH]; intros st Hf; [by destruct Hf; lia|]. cbn [skip_chars]. apply yields_get. destruct (_ =? _); [apply yields_throw|].
  yield_with yields_cur. intros c _ (-> & Hpos & Hr). destruct (p c); [|apply yields_ret, moved_refl].
  yield_with yields_advance. intros _ st' Hm. eapply yields_mono; [apply IH; by eapply enough_moved|].
  intros [] st2 H2. eapply moved_weaken; [by eapply moved_trans|lia].
Qed.

(** A position in front of the memory is a crash of its own. *)
Lemma yields_skip_class p st : yields (skip_class p) st (fun _ st' => moved 0 st st').
Proof.
  unfold skip_class. apply yields_get. destruct (Z.leb_spec 0 (pos st)); [by apply yields_skip_chars, all_fuel_enough|].
  unfold all_fuel. cbn [skip_chars]. apply yields_get. destruct (_ =? _); [apply yields_throw|].
  yield_with yields_cur. intros c _ (-> & ? & _). lia.
Qed.

Lemma yields_expect c st : yields (expect c) st (fun _ st' => moved 1 st st' /\ 0 <= pos st /\ 0 < room st).
Proof.
  unfold expect. yield_with yields_cur. intros x _ (-> & Hp & Hr). destruct (negb _); [apply yields_throw|].
  eapply yields_mono; [apply yields_advance|]. auto.
Qed.

Lemma yields_read_name st : yields read_name st (fun r st' => moved 0 st st' /\ fst r = pos st /\ 0 <= pos st).
Proof.
  unfold read_name. apply yields_get. yield_with yields_skip_class. intros _ st1 Hm. apply yields_get.
  yield_with yields_range. intros l _ (-> & Hp & _). by apply yields_ret.
Qed.

Lemma yields_skip_comment : forall fuel st, enough fuel st -> yields (skip_comment fuel) st (fun _ st' => moved 0 st st').
Proof.
  induction fuel as [|fuel IH]; intros st Hf; [by destruct Hf; lia|]. cbn [skip_comment]. apply yields_get. destruct (_ <=? _); [apply yields_throw|].
  yield_with yields_range. intros l _ (-> & Hp & _ & Hr). destruct (bool_decide _).
  - eapply yields_mono; [apply yields_advance|]. intros [] st' H. by eapply moved_weaken.
  - yield_with yields_advance. intros _ st' Hm. eapply yields_mono; [apply IH; eapply enough_moved; try done; unfold room; lia|].
    intros [] st2 H2. eapply moved_weaken; [by eapply moved_trans|lia].
Qed.

(** The state behind an element that was read from [st]: a start-end element
    began behind [st]. *)
Definition next_from (st st' : decoder) : Prop :=
  mem st' = mem st /\ pos st + 1 <= pos st' /\ (empty_el st' = None \/ exists e, empty_el st' = Some e /\ pos st + 1 <= e).

Lemma next_from_moved k st st1 st2 : moved k st st1 -> 0 <= k -> next_from st1 st2 -> next_from st st2.
Proof. intros (M & E & P) Hk (M' & P' & H). split_and!; [by rewrite M'|lia|]. destruct H as [H | (e & H & He)]; [auto|right; exists e; split; [done|lia]]. Qed.

Lemma moved_next k st st' : empty_el st = None -> moved k st st' -> 1 <= k -> next_from st st'.
Proof. intros Hn (M & E & P) Hk. split_and!; [done|lia|left; congruence]. Qed.

(** The rest of an element behind [/] or the name. *)
Lemma yields_next_element : forall fuel st, empty_el st = None -> enough fuel st -> yields (next_element fuel) st (fun _ st' => next_from st st').
Proof.
  induction fuel as [|fuel IH]; intros st Hn Hf; [by destruct Hf; lia|]. cbn [next_element]. apply yields_get. destruct (_ =? _); [apply yields_throw|].
  yield_with yields_cur. intros c _ (-> & Hp & Hr). destruct (isspace c).
  { yield_with yields_advance. intros _ st' Hm. eapply yields_mono; [apply IH; [destruct Hm as (_ & -> & _); done|by eapply enough_moved]|].
    intros [] st2 H2. by eapply next_from_moved. }
  destruct (c =? 60); [|apply yields_throw]. yield_with yields_advance. intros _ st1 M1. yield_with yields_skip_class. intros _ st2 M2.
  pose proof (moved_trans _ _ _ _ _ M1 M2) as M. yield_with yields_cur. intros c1 _ (-> & _ & Hr2). destruct (c1 =? 47).
  { yield_with yields_advance. intros _ st3 M3. yield_with yields_skip_class. intros _ st4 M4. yield_with yields_read_name. intros sn st5 (M5 & _).
    yield_with yields_skip_class. intros _ st6 M6. yield_with yields_expect. intros _ st7 (M7 & _). apply yields_ret.
    pose proof (moved_trans _ _ _ _ _ (moved_trans _ _ _ _ _ (moved_trans _ _ _ _ _ (moved_trans _ _ _ _ _ (moved_trans _ _ _ _ _ M M3) M4) M5) M6) M7) as M8.
    eapply moved_next; [done|exact M8|lia]. }
  destruct (c1 =? 33).
  { apply yields_get. destruct (_ <? _); [|apply yields_throw]. yield_with yields_advance. intros _ st3 M3.
    yield_with yields_range. intros l _ (-> & _). destruct (bool_decide _); [|apply yields_throw].
    yield_with yields_advance. intros _ st4 M4. pose proof (moved_trans _ _ _ _ _ (moved_trans _ _ _ _ _ M M3) M4) as M5. apply yields_get.
    assert (0 <= pos st4) by (destruct M5 as (_ & _ & ?); lia).
    yield_with yields_skip_comment; [by apply all_fuel_enough|]. intros [] st5 M6. pose proof (moved_trans _ _ _ _ _ M5 M6) as M7.
    eapply yields_mono; [apply IH; [destruct M7 as (_ & -> & _); done|eapply enough_moved; [done|exact M7|lia|done]]|].
    intros [] st7 H7. eapply next_from_moved; [exact M7|lia|done]. }
  yield_with yields_skip_class. intros _ st3 M3. pose proof (moved_trans _ _ _ _ _ M M3) as M4. yield_with yields_read_name. intros sn st4 (M5 & Hsn & _).
  pose proof (moved_trans _ _ _ _ _ M4 M5) as M6.
  yield_with yields_skip_class. intros _ st5 M7. pose proof (moved_trans _ _ _ _ _ M6 M7) as M8. yield_with yields_cur. intros c2 _ (-> & _).
  apply yields_bind. eapply yields_mono with (P := fun _ st' => mem st' = mem st /\ pos st + 1 <= pos st' /\ (empty_el st' = None \/ empty_el st' = Some (fst sn))).
  - destruct M8 as (A & B & C). destruct (c2 =? 47); [|apply yields_ret; split_and!; [done|lia|left; congruence]].
    unfold set_empty. apply yields_bind. unfold yields at 1. cbn [mem empty_el pos end_].
    yield_with yields_advance. intros _ st6 (D & E & F). eapply yields_mono; [apply yields_skip_class|]. intros [] st7 (G & H & I).
    cbn [mem empty_el pos] in *. split_and!; [congruence|lia|right; congruence].
  - intros _ st6 (A & B & C). yield_with yields_expect. intros _ st7 ((D & E & F) & _). apply yields_ret.
    destruct M4 as (_ & _ & P4). rewrite Hsn in C. split_and!; [congruence|lia|]. rewrite E. destruct C as [C|C]; [by left|right; eexists; split; [exact C|lia]].
Qed.

(** ** Sequences of elements *)

(** The bytes that are left to elements: a start-end element is read again from
    its name. *)
Definition remains (st : decoder) : Z :=
  Z.of_nat (length (mem st)) - Z.max 0 (match empty_el st with None => pos st | Some e => Z.min (pos st) e end).

(** An element was read between the states. *)
Definition after (st st' : decoder) : Prop :=
  mem st' = mem st /\ remains st' + 1 <= remains st /\ 0 < remains st /\ (empty_el st' = None \/ exists e, empty_el st' = Some e /\ pos st < e).

Lemma next_element_inside fuel st a st' : next_element fuel st = Ret (a, st') -> 0 <= pos st /\ 0 < room st.
Proof.
  destruct fuel as [|fuel]; [done|]. cbn [next_element]. unfold get, mbind at 1, act_bind at 1. destruct (_ =? _); [done|].
  unfold mbind at 1, act_bind at 1. pose proof (yields_cur st) as H. unfold yields in H. destruct (cur st) as [[c st1]| | |]; try done.
  intros _. by destruct H as (_ & H).
Qed.

Lemma yields_move st : yields moveToNextElement st (fun _ st' => after st st').
Proof.
  unfold moveToNextElement. apply yields_get. destruct (empty_el st) as [e|] eqn:Ee.
  - unfold set_pos, set_empty. do 2 (apply yields_bind; unfold yields at 1; cbn [mem end_ pos empty_el]).
    yield_with yields_read_name. intros sn st1 (M1 & _ & He). yield_with yields_skip_class. intros _ st2 M2.
    yield_with yields_expect. intros _ st3 (M3 & Hp & Hr). yield_with yields_skip_class. intros _ st4 M4.
    yield_with yields_expect. intros _ st5 (M5 & _). apply yields_ret. pose proof (moved_trans _ _ _ _ _ M1 M2) as (A & B & C).
    pose proof (moved_trans _ _ _ _ _ (moved_trans _ _ _ _ _ M3 M4) M5) as (D & E & F). cbn [mem pos empty_el] in *.
    unfold after, remains, room in *. rewrite E, B, D, A, Ee. rewrite A in Hr. split_and!; [done|lia|lia|by left].
  - pose proof (next_element_inside (all_fuel st) st) as Hin. assert (yields (next_element (all_fuel st)) st (fun _ st' => next_from st st')) as H.
    { destruct (Z.leb_spec 0 (pos st)); [by apply yields_next_element; [|apply all_fuel_enough]|].
      unfold all_fuel, yields. cbn [next_element]. unfold get, mbind at 1, act_bind at 1. destruct (_ =? _); [done|].
      unfold mbind at 1, act_bind at 1. pose proof (yields_cur st) as K. unfold yields in K. destruct (cur st) as [[c st1]| | |]; try done. destruct K as (_ & K & _). lia. }
    unfold yields in *. destruct (next_element _ st) as [[a st']| | |]; try done. destruct (Hin a st' eq_refl) as [Hp Hr].
    destruct H as (M & P & He). unfold after, remains, room in *. rewrite M, Ee. split_and!; [done| |lia|].
    + destruct He as [-> | (e & -> & He)]; lia.
    + destruct He as [He | (e & He & Hlt)]; [by left|right; exists e; split; [done|lia]].
Qed.

(** ** Reads *)

Definition passed (k : Z) (st st' : decoder) : Prop := mem st' = mem st /\ remains st' + k <= remains st.

(** [m] ends, and takes elements of [k] bytes at least. *)
Definition runs {A} (k : Z) (m : act decoder A) : Prop := forall st, yields m st (fun _ st' => passed k st st').

Lemma passed_trans j k st st1 st2 : passed j st st1 -> passed k st1 st2 -> passed (j + k) st st2.
Proof. intros (M1 & P1) (M2 & P2). split; [by rewrite M2|lia]. Qed.

Lemma moved_passed k st st' : moved k st st' -> 0 <= k -> passed 0 st st'.
Proof. intros (M & E & P) Hk. split; [done|]. unfold remains. rewrite M, E. destruct (empty_el st); lia. Qed.

Lemma runs_bind {A B} j k (m : act decoder A) (f : A -> act decoder B) : runs j m -> (forall a, runs k (f a)) -> runs (j + k) (m ≫= f).
Proof.
  intros Hm Hf st. eapply yields_seq; [apply Hm|]. intros a st1 H1. eapply yields_mono; [apply Hf|]. intros b st2 H2. by apply (passed_trans _ _ _ _ _ H1 H2).
Qed.

Lemma runs_weaken {A} j k (m : act decoder A) : k <= j -> runs j m -> runs k m.
Proof. intros Hk H st. eapply yields_mono; [apply H|]. intros a st' [M P]. split; [done|lia]. Qed.

(** A step whose elements are not counted. *)
Lemma runs_then {A B} k (m : act decoder A) (f : A -> act decoder B) : runs 0 m -> (forall a, runs k (f a)) -> runs k (m ≫= f).
Proof. intros Hm Hf. change k with (0 + k). by apply runs_bind. Qed.

Lemma runs_first {A B} k (m : act decoder A) (f : A -> act decoder B) : runs k m -> (forall a, runs 0 (f a)) -> runs k (m ≫= f).
Proof. intros Hm Hf. replace k with (k + 0) by lia. by apply runs_bind. Qed.

Lemma runs_ret {A} (a : A) : runs 0 (mret a).
Proof. intros st. apply yields_ret. split; [done|lia]. Qed.
Lemma runs_throw {A} k e : runs k (throw e : act decoder A).
Proof. done. Qed.
Lemma runs_lift {A} (r : res A) : r <> NoFuel -> runs 0 (lift r).
Proof. intros H st. unfold yields, lift. destruct r; try done. split; [done|lia]. Qed.
Lemma runs_same {A} (m : act decoder A) : (forall st, yields m st (fun _ st' => st' = st)) -> runs 0 m.
Proof. intros H st. eapply yields_mono; [apply H|]. intros a st' ->. split; [done|lia]. Qed.
Lemma runs_get : runs 0 get.
Proof. by apply runs_same. Qed.
Lemma runs_at p : runs 0 (at_ p).
Proof. apply runs_same. intros st. eapply yields_mono; [apply yields_at|]. by intros a st' [-> _]. Qed.
Lemma runs_range p n : runs 0 (range p n).
Proof. apply runs_same. intros st. eapply yields_mono; [apply yields_range|]. by intros a st' [-> _]. Qed.
Lemma runs_cur : runs 0 cur.
Proof. apply runs_same. intros st. eapply yields_mono; [apply yields_cur|]. by intros a st' [-> _]. Qed.
Lemma runs_c_string p : runs 0 (c_string p).
Proof. apply runs_same. intros st. unfold yields, c_string. by destruct (_ || _). Qed.
Lemma runs_move : runs 1 moveToNextElement.
Proof. intros st. eapply yields_mono; [apply yields_move|]. intros a st' (M & P & _). split; [done|lia]. Qed.
Lemma runs_move0 : runs 0 moveToNextElement.
Proof. by apply (runs_weaken 1), runs_move. Qed.
Lemma runs_if {A} k (b : bool) (m1 m2 : act decoder A) : runs k m1 -> runs k m2 -> runs k (if b then m1 else m2).
Proof. by destruct b. Qed.

(** Shows that a read without loops ends, from the hints and hypotheses. *)
Create HintDb xml_runs.
#[export] Hint Resolve runs_ret runs_throw runs_get runs_at runs_range runs_cur runs_c_string runs_move0 : xml_runs.
Ltac runs_steps := repeat first
  [ progress intros | solve [eauto with xml_runs] | apply runs_if
  | match goal with
    | |- runs _ (let '(_, _) := ?x in _) => destruct x
    | |- runs _ (match ?x with Some _ => _ | None => _ end) => destruct x
    end
  | apply runs_then ].

Lemma runs_req_start s : runs 1 (moveToNextElementReqStart s).
Proof. unfold moveToNextElementReqStart. apply runs_first; [apply runs_move|]. runs_steps. Qed.
Lemma runs_req_end s : runs 1 (moveToNextElementReqEnd s).
Proof. unfold moveToNextElementReqEnd. apply runs_first; [apply runs_move|]. runs_steps. Qed.
Lemma runs_req_start0 s : runs 0 (moveToNextElementReqStart s).
Proof. by apply (runs_weaken 1), runs_req_start. Qed.
Lemma runs_req_end0 s : runs 0 (moveToNextElementReqEnd s).
Proof. by apply (runs_weaken 1), runs_req_end. Qed.
#[export] Hint Resolve runs_req_start0 runs_req_end0 : xml_runs.

(** Looking at an element and going back. *)
Lemma yields_back st st' : after st st' -> yields (set_pos (pos st)) st' (fun _ st2 => passed 0 st st2).
Proof.
  intros (M & P & _ & He). unfold set_pos, yields, passed. cbn [mem]. split; [done|]. unfold remains in *. cbn [mem empty_el pos]. rewrite M in *.
  destruct He as [-> | (e & -> & He)]; destruct (empty_el st); lia.
Qed.

Lemma runs_value_end : runs 0 skipValueEnd.
Proof.
  unfold skipValueEnd. apply runs_then; [apply runs_move0|]. intros el. apply runs_if; [done|]. apply runs_then; [apply runs_req_end0|].
  intros _ st. apply yields_get. eapply yields_seq; [apply yields_move|]. intros el2 st2 H2. destruct (_ || _).
  - by apply yields_back.
  - apply yields_ret. destruct H2 as (M & P & _). split; [done|lia].
Qed.

(** A loop that takes an element per turn. *)
Definition fuelled (fuel : nat) (st : decoder) : Prop := (0 < fuel)%nat /\ remains st < Z.of_nat fuel.

Lemma fuelled_after fuel st st' : fuelled (S fuel) st -> after st st' -> fuelled fuel st'.
Proof. intros [_ Hf] (M & P & H0 & _). unfold fuelled. split; lia. Qed.

Lemma all_fuel_fuelled st : fuelled (all_fuel st) st.
Proof. unfold fuelled, all_fuel, remains. split; [lia|]. destruct (empty_el st); lia. Qed.

Lemma after_passed st st' : after st st' -> passed 1 st st'.
Proof. intros (M & P & _). split; [done|lia]. Qed.

Lemma runs_next_value : forall fuel st, fuelled fuel st -> yields (next_value fuel) st (fun _ st' => passed 1 st st').
Proof.
  induction fuel as [|fuel IH]; intros st Hf; [by destruct Hf; lia|]. cbn [next_value]. eapply yields_seq; [apply yields_move|]. intros el st1 H1.
  pose proof (after_passed _ _ H1) as P1. destruct (negb _); [apply yields_throw|]. destruct (is_tag _ "value").
  - eapply yields_seq; [apply yields_move|]. intros el2 st2 H2. pose proof (after_passed _ _ H2) as P2. destruct (negb _); [apply yields_throw|].
    apply yields_ret. destruct P1, P2. split; [congruence|lia].
  - destruct (is_tag _ "param"); [|apply yields_throw]. eapply yields_mono; [apply IH; by eapply fuelled_after|]. intros a st2 P2.
    destruct P1, P2. split; [congruence|lia].
Qed.

Lemma runs_value : runs 1 moveToNextValue.
Proof. intros st. unfold moveToNextValue. apply yields_get. apply runs_next_value, all_fuel_fuelled. Qed.
Lemma runs_value0 : runs 0 moveToNextValue.
Proof. by apply (runs_weaken 1), runs_value. Qed.

Lemma yields_skip_content : forall fuel st, enough fuel st -> yields (skip_content fuel) st (fun _ st' => moved 0 st st').
Proof.
  induction fuel as [|fuel IH]; intros st Hf; [by destruct Hf; lia|]. cbn [skip_content]. apply yields_get. destruct (_ <? _); [|apply yields_ret, moved_refl].
  yield_with yields_cur. intros c _ (-> & Hp & Hr). destruct (negb _); [|apply yields_ret, moved_refl].
  yield_with yields_advance. intros _ st' Hm. eapply yields_mono; [apply IH; by eapply enough_moved|].
  intros [] st2 H2. eapply moved_weaken; [by eapply moved_trans|lia].
Qed.

Lemma runs_content : runs 0 readContent.
Proof.
  unfold readContent. intros st. apply yields_get. eapply yields_seq with (P := fun _ st' => moved 0 st st').
  - destruct (empty_el st); [apply yields_ret, moved_refl|]. destruct (Z.leb_spec 0 (pos st)); [by apply yields_skip_content, all_fuel_enough|].
    unfold all_fuel. cbn [skip_content]. apply yields_get. destruct (_ <? _); [|apply yields_ret, moved_refl].
    yield_with yields_cur. intros c _ (-> & ? & _). lia.
  - intros _ st1 H1. apply yields_get. apply yields_ret. by eapply moved_passed.
Qed.
#[export] Hint Resolve runs_value_end runs_value0 runs_content : xml_runs.

(** ** Types and headers *)

(** [m] ends, wherever it leaves the position. *)
Definition ends {A} (m : act decoder A) : Prop := forall st, m st <> NoFuel.

Lemma yields_ends {A} (m : act decoder A) st Q : yields m st Q -> m st <> NoFuel.
Proof. unfold yields. by destruct (m st) as [[a st']| | |]. Qed.

Lemma ends_yields {A} (m : act decoder A) st : ends m -> yields m st (fun _ _ => True).
Proof. intros H. specialize (H st). unfold yields. by destruct (m st) as [[a st']| | |]. Qed.

Lemma runs_ends {A} k (m : act decoder A) : runs k m -> ends m.
Proof. intros H st. by eapply yields_ends. Qed.

Lemma yields_type_of_name name st : yields (type_of_name name) st (fun _ _ => True).
Proof. unfold type_of_name. by repeat case_match. Qed.

Lemma yields_check_type : forall fuel st, fuelled fuel st -> yields (check_type fuel) st (fun _ _ => True).
Proof.
  induction fuel as [|fuel IH]; intros st Hf; [by destruct Hf; lia|]. cbn [check_type]. apply yields_get. destruct (_ <=? _); [done|].
  eapply yields_seq; [apply yields_move|]. intros el st1 H1. destruct (fst el =? 0); [|by destruct (_ || _)].
  destruct (is_tag _ "param"); [apply IH; by eapply fuelled_after|]. destruct (is_tag _ "value"); [|done].
  eapply yields_seq; [apply yields_move|]. intros el2 st2 _. destruct (fst el2 =? 0); [|done]. destruct (is_tag _ "methodResponse").
  - eapply yields_seq; [apply yields_move|]. intros el3 st3 _. destruct (negb _); [done|]. unfold set_pos, set_empty.
    do 2 (apply yields_bind; unfold yields at 1). by destruct (is_tag (snd el3) "params"), (is_tag (snd el3) "fault").
  - unfold set_pos, set_empty. do 2 (apply yields_bind; unfold yields at 1). apply yields_type_of_name.
Qed.

Lemma ends_check_type : ends readCheckType.
Proof. intros st. eapply yields_ends, yields_get, yields_check_type, all_fuel_fuelled. Qed.

Lemma yields_skip_declaration : forall fuel st, enough fuel st -> yields (skip_declaration fuel) st (fun _ _ => True).
Proof.
  induction fuel as [|fuel IH]; intros st Hf; [by destruct Hf; lia|]. cbn [skip_declaration]. apply yields_get. destruct (_ <=? _); [done|].
  yield_with yields_cur. intros c _ (-> & Hp & Hr). yield_with yields_advance. intros _ st' Hm. destruct (_ =? _); [done|].
  apply IH. by eapply enough_moved.
Qed.

Lemma ends_header : ends readHeader.
Proof.
  intros st. eapply (yields_ends _ _ (fun _ _ => True)). unfold readHeader. apply yields_get. destruct (_ <=? _); [done|].
  yield_with yields_range. intros l _ (-> & Hp & _). destruct (negb _); [done|]. yield_with yields_advance. intros _ st1 H1.
  assert (enough (all_fuel st) st1) as Hf by (destruct H1 as (M & _ & P); unfold enough, all_fuel, room; rewrite M; lia).
  eapply yields_seq; [by apply yields_skip_declaration|]. intros _ st2 _. apply yields_get. eapply yields_seq; [apply yields_move|].
  intros el st3 _. destruct (negb _); [done|]. destruct (is_tag _ "methodCall"); [done|]. destruct (is_tag _ "methodResponse"); [|done].
  eapply yields_seq; [apply yields_move|]. intros el2 st4 _. destruct (negb _); [done|]. by destruct (is_tag (snd el2) "params"), (is_tag (snd el2) "fault").
Qed.

(** ** Texts and scalars *)

Lemma length_strtoll s : (length (snd (strtoll s)) <= length s)%nat.
Proof.
  unfold strtoll. set (t := skip_space s). pose proof (length_skip_space s) as Ht. fold t in Ht.
  assert (forall l : list Z, (length (tail l) <= length l)%nat) as Htl by (intros [|? ?]; simpl; lia). pose proof (Htl t).
  assert (forall u, (length (snd (number_base u)) <= length u)%nat) as Hb.
  { intros u. unfold number_base. destruct (_ =? _); [|done]. destruct u as [|x [|y [|c u]]]; simpl; try done. destruct (_ && _); simpl; lia. }
  destruct (if deref t =? 45 then _ else _) as [neg u] eqn:E.
  assert (length u <= length s)%nat as Hu by (destruct (_ =? _); [|destruct (_ =? _)]; injection E as <- <-; lia).
  pose proof (Hb u) as Hbu. destruct (number_base u) as [base v]. simpl in Hbu. destruct (digit_value base (deref v)); [|done].
  pose proof (length_digits_loop base 0 v) as Hd. destruct (digits_loop base 0 v) as [n rest]. simpl in *. lia.
Qed.

Lemma yields_convert send cap : forall fuel str out st, (0 < fuel)%nat -> Z.of_nat (length (mem st)) - str < Z.of_nat fuel ->
  yields (convert_loop fuel str send cap out) st (fun _ st' => st' = st).
Proof.
  induction fuel as [|fuel IH]; intros str out st Hp Hf; [lia|]. cbn [convert_loop]. destruct (negb _); [done|].
  yield_with yields_at. intros c _ (-> & Hs). set (store := fun c => if cap <=? Z.of_nat (length out) then lift (Crash OutOfBounds) else mret (out ++ [c]) : act decoder (list Z)).
  assert (forall k x, 1 <= k -> yields (out ← store x; convert_loop fuel (str + k) send cap out) st (fun _ st' => st' = st)) as K.
  { intros k x Hk. unfold store. destruct (_ <=? _); [done|]. apply yields_bind, yields_ret. apply IH; lia. }
  cbv zeta. destruct (c =? 38).
  - yield_with yields_range. intros l _ (-> & _).
    repeat (destruct (bool_decide _); [rewrite <- Z.add_assoc; by apply K|]).
    yield_with yields_at. intros c2 _ (-> & _). destruct (_ =? _); [|done]. eapply yields_seq with (P := fun _ st' => st' = st).
    { unfold yields, c_string. by destruct (_ || _). }
    intros s st1 ->. pose proof (length_strtoll s) as Hl. destruct (strtoll s) as [n rest]. simpl in Hl. fold (store (u8 n)).
    unfold store at 1. destruct (cap <=? _); [done|]. apply yields_bind, yields_ret. destruct (negb _); [done|]. apply IH; lia.
  - by apply K.
Qed.

Lemma runs_convert str len : runs 0 (convertToString str len).
Proof.
  apply runs_same. intros st. unfold convertToString. apply yields_get. destruct (Z.leb_spec 0 str); [apply yields_convert; unfold all_fuel; lia|].
  unfold all_fuel. cbn [convert_loop]. destruct (negb _); [done|]. yield_with yields_at. lia.
Qed.

Lemma runs_scalar_content ok : runs 0 (scalar_content ok).
Proof. unfold scalar_content. runs_steps. Qed.
Lemma runs_int64 : runs 0 readInt64.
Proof. unfold readInt64. apply runs_then; [apply runs_scalar_content|]. runs_steps. Qed.
Lemma runs_int32 : runs 0 readInt32.
Proof. unfold readInt32. apply runs_then; [apply runs_scalar_content|]. runs_steps. Qed.
Lemma runs_bool : runs 0 readBool.
Proof. unfold readBool. apply runs_then; [apply runs_scalar_content|]. runs_steps. Qed.
Lemma runs_string : runs 0 readString.
Proof. unfold readString. apply runs_then; [apply runs_scalar_content|]. intros. apply runs_convert. Qed.
Lemma runs_double strtod : runs 0 (readDouble strtod).
Proof. unfold readDouble. apply runs_then; [apply runs_scalar_content|]. runs_steps. Qed.

Lemma runs_read_digits n : forall val cs cl, runs 0 (read_digits n val cs cl).
Proof. induction n as [|n IH]; intros; cbn [read_digits]; runs_steps. Qed.
Lemma runs_date_field n seps cs cl : runs 0 (date_field n seps cs cl).
Proof. pose proof (runs_read_digits n). unfold date_field. runs_steps. Qed.
#[export] Hint Resolve runs_scalar_content runs_int64 runs_int32 runs_bool runs_string runs_double runs_date_field runs_convert : xml_runs.

Lemma runs_time : runs 0 readTime.
Proof. unfold readTime. runs_steps. Qed.

(** ** Binary data *)

(** The result of collecting a block: its values are bytes of the source. *)
Definition quad_taken (m : list Z) (n : nat) (src : Z) (r : res (nat * list Z * Z * Z)) : Prop :=
  match r with
  | NoFuel => False
  | Ret (i, _, src', _) => src + (Z.of_nat i - Z.of_nat n) <= src' /\ src' <= Z.max src (Z.of_nat (length m))
  | _ => True
  end.

Lemma byte_at_cases m i : (exists c, byte_at m i = Ret c /\ 0 <= i < Z.of_nat (length m)) \/ byte_at m i = Crash OutOfBounds.
Proof.
  unfold byte_at. destruct (Z.ltb_spec i 0); [by right|]. destruct (m !! Z.to_nat i) as [c|] eqn:E; [|by right].
  apply lookup_lt_Some in E. left. exists c. split; [done|lia].
Qed.

Lemma quad_loop_ends m : forall fuel src size bd, (0 < fuel)%nat -> Z.of_nat (length m) + 1 - src < Z.of_nat fuel -> (length bd <= 4)%nat ->
  quad_taken m (length bd) src (quad_loop fuel m src size bd).
Proof.
  induction fuel as [|fuel IH]; intros src size bd Hp Hf Hl; [lia|]. cbn [quad_loop].
  destruct (Nat.eqb_spec (length bd) 4); [cbn [quad_taken]; lia|]. destruct (size =? 0); [cbn [quad_taken]; lia|].
  unfold mbind, res_bind. destruct (byte_at_cases m src) as [(c & -> & Hs) | ->]; [|done].
  destruct (122 <? _); [done|]. match goal with |- context [byte_at cd64 ?i] => destruct (byte_at_cases cd64 i) as [(v & -> & _) | ->]; [|done] end.
  destruct (v =? -1); [done|]. destruct (v =? -2); [cbn [quad_taken]; lia|]. destruct (v <? 0).
  - pose proof (IH (src + 1) (size - 1) bd ltac:(lia) ltac:(lia) Hl) as K. destruct (quad_loop fuel m _ _ _) as [[[[i b] s'] z]| | |]; cbn [quad_taken] in *; try done; lia.
  - pose proof (IH (src + 1) (size - 1) (bd ++ [v]) ltac:(lia) ltac:(lia) ltac:(rewrite length_app; simpl; lia)) as K.
    rewrite length_app in K. destruct (quad_loop fuel m _ _ _) as [[[[i b] s'] z]| | |]; cbn [quad_taken length] in *; try done; lia.
Qed.

Lemma decode_loop_ends m : forall fuel src size buf dst, 0 <= src -> (0 < fuel)%nat -> Z.of_nat (length m) + 1 - src < Z.of_nat fuel ->
  decode_loop fuel m src size buf dst <> NoFuel.
Proof.
  induction fuel as [|fuel IH]; intros src size buf dst Hs Hp Hf; [lia|]. cbn [decode_loop]. unfold mbind at 1, res_bind at 1.
  pose proof (quad_loop_ends m (length m + 5) src size [] ltac:(lia) ltac:(lia) ltac:(simpl; lia)) as K.
  destruct (quad_loop _ m _ _ _) as [[[[i b] s'] z]| | |]; cbn [quad_taken length] in K; try done. destruct (Nat.eqb_spec i 0); [done|].
  unfold mbind, res_bind. destruct (decodeBlock b) eqn:Eb; try done; [|by unfold decodeBlock in Eb; repeat case_match].
  unfold mem_store. destruct (dst <? 0); [done|]. destruct (_ <? _); [done|]. apply IH; lia.
Qed.

Lemma runs_binary garbage : runs 0 (readBinary garbage).
Proof.
  unfold readBinary. apply runs_then; [apply runs_scalar_content|]. intros cont. apply runs_then; [apply runs_get|]. intros st.
  cbv zeta. apply runs_lift. unfold decodeBase64_mem. pose proof (decode_loop_ends (drop (Z.to_nat (fst cont)) (mem st))) as H.
  match goal with |- context [decode_loop ?f ?m ?s ?z ?b ?d] => specialize (H f s z b d); destruct (decode_loop f m s z b d) as [[buf n]| | |] end;
    try done; [|exfalso; apply H; (lia || done)]. cbn [mbind res_bind]. unfold unlock_blob. by destruct (_ <=? _).
Qed.

(** ** Members and items *)

Lemma runs_member_name : runs 1 readMemberName.
Proof. unfold readMemberName. apply runs_first; [apply runs_req_start|]. runs_steps. Qed.

Lemma runs_array_length : runs 1 readArrayLength.
Proof. unfold readArrayLength. apply runs_first; [apply runs_value|]. runs_steps. Qed.

Lemma runs_struct_length : runs 1 readStructLength.
Proof. unfold readStructLength. apply runs_first; [apply runs_value|]. runs_steps. Qed.

Lemma runs_array_next : runs 0 checkArrayNext.
Proof.
  intros st. unfold checkArrayNext. apply yields_get. eapply yields_seq; [apply yields_move|]. intros el st1 H1. destruct (_ || _).
  - eapply yields_seq; [by apply yields_back|]. intros [] st2 H2. by apply yields_ret.
  - pose proof (after_passed _ _ H1) as [M P]. eapply yields_seq; [apply runs_value_end|]. intros _ st2 [M2 P2]. apply yields_ret. split; [congruence|lia].
Qed.

Lemma yields_struct_next : forall fuel st, fuelled fuel st -> yields (check_struct_next fuel) st (fun _ st' => passed 0 st st').
Proof.
  induction fuel as [|fuel IH]; intros st Hf; [by destruct Hf; lia|]. cbn [check_struct_next]. apply yields_get.
  eapply yields_seq; [apply yields_move|]. intros el st1 H1. pose proof (after_passed _ _ H1) as [M1 P1]. destruct (fst el =? 1).
  - destruct (is_tag _ "member").
    + eapply yields_mono; [apply IH; by eapply fuelled_after|]. intros b st2 [M2 P2]. split; [congruence|lia].
    + destruct (is_tag _ "struct"); [|done]. eapply yields_seq; [by apply yields_back|]. intros _ st2 [M2 P2].
      eapply yields_seq; [apply runs_value_end|]. intros _ st3 [M3 P3]. apply yields_ret. split; [congruence|lia].
  - assert (yields (_ ← set_pos (pos st); mret true) st1 (fun _ st' => passed 0 st st')) as K.
    { eapply yields_seq; [by apply yields_back|]. intros [] st2 H2. by apply yields_ret. }
    destruct (_ && _); [|by destruct (negb _)]. apply yields_get. eapply yields_seq; [apply yields_move|]. intros el2 st2 H2. destruct (_ || _); [|done].
    eapply yields_seq; [by apply yields_back|]. intros _ st3 [M3 P3]. apply yields_ret. split; [congruence|lia].
Qed.

Lemma runs_struct_next : runs 0 checkStructNext.
Proof. intros st. unfold checkStructNext. apply yields_get. apply yields_struct_next, all_fuel_fuelled. Qed.
#[export] Hint Resolve runs_time runs_binary runs_array_next runs_struct_next : xml_runs.

(** A loop over members ends when each turn takes an element. *)
Lemma yields_while_next {A} check (body : A -> act decoder A) : runs 0 check -> (forall a, runs 1 (body a)) ->
  (forall a st, yields (body a) st (fun _ _ => 0 < remains st)) ->
  forall fuel a st, fuelled fuel st -> yields (while_next fuel check body a) st (fun _ st' => passed 0 st st').
Proof.
  intros Hc Hb Hr. induction fuel as [|fuel IH]; intros a st Hf; [by destruct Hf; lia|]. cbn [while_next].
  eapply yields_seq; [apply Hc|]. intros b st1 [M1 P1]. destruct b; [|by apply yields_ret].
  eapply yields_seq with (P := fun _ st2 => passed 1 st1 st2 /\ 0 < remains st1).
  - pose proof (Hb a st1) as H1. pose proof (Hr a st1) as H2. unfold yields in *. by destruct (body a st1) as [[a2 st2]| | |].
  - intros a2 st2 [[M2 P2] R]. eapply yields_mono; [apply IH; destruct Hf; split; lia|]. intros a3 st3 [M3 P3]. split; [congruence|lia].
Qed.

Lemma runs_rethrow {A} k (m : act decoder A) : runs k m -> runs k (rethrow m).
Proof. intros H st. specialize (H st). unfold yields, rethrow in *. by destruct (m st) as [[a st']| | |]. Qed.

(** What follows an element does not matter for what was left before it. *)
Lemma yields_first {A B} (m : act decoder A) (f : A -> act decoder B) st (P : Prop) :
  yields m st (fun _ _ => P) -> (forall a, ends (f a)) -> yields (m ≫= f) st (fun _ _ => P).
Proof.
  intros Hm Hf. eapply yields_seq; [exact Hm|]. intros a st' HP. eapply yields_mono; [apply ends_yields, Hf|]. by intros.
Qed.

Lemma yields_fault_struct fuel st : fuelled fuel st -> yields (readFaultStruct fuel) st (fun _ _ => True).
Proof.
  intros Hf. unfold readFaultStruct. eapply yields_seq; [apply runs_struct_length|]. intros _ st1 [M1 P1].
  eapply yields_mono; [apply yields_while_next|by intros]; [apply runs_struct_next| | |destruct Hf; split; lia].
  - intros a. apply runs_first; [apply runs_member_name|]. pose proof (runs_rethrow 0 readInt32 runs_int32). pose proof (runs_rethrow 0 readString runs_string). runs_steps.
  - intros a st2. pose proof (runs_rethrow 0 readInt32 runs_int32). pose proof (runs_rethrow 0 readString runs_string).
    apply yields_first; [|intros; apply (runs_ends 0); runs_steps]. unfold readMemberName.
    apply yields_first; [|intros; apply (runs_ends 0); runs_steps]. unfold moveToNextElementReqStart.
    apply yields_first; [|intros; apply (runs_ends 0); runs_steps]. eapply yields_mono; [apply yields_move|]. by intros el st3 (_ & _ & ? & _).
Qed.

Lemma ends_fault : ends readFaultResponse.
Proof.
  intros st. eapply (yields_ends _ _ (fun _ _ => True)). unfold readFaultResponse. do 2 (eapply yields_seq; [apply runs_req_start|]; intros _ ? _).
  apply yields_get. eapply yields_seq; [apply yields_fault_struct, all_fuel_fuelled|]. intros fault ? _.
  do 2 (eapply yields_seq; [apply runs_req_end|]; intros _ ? _). by destruct (fst fault).
Qed.

Lemma runs_method_name : runs 0 readMethodName.
Proof. unfold readMethodName. runs_steps. Qed.
Lemma runs_method_response : runs 0 readMethodResponse.
Proof. unfold readMethodResponse. runs_steps. Qed.

(** C22. Termination: on any memory and from any state, well-formed or not, every
    read of a header, a name, a type, a scalar, a fault and every step between
    members and items ends with a result, an exception or a failed check; the
    loops of the code take a byte or an element in each turn. *)
Theorem xml_reads_terminate (strtod : list Z -> Z) (garbage : Z) (st : decoder) :
  moveToNextElement st <> NoFuel /\ moveToNextValue st <> NoFuel /\ skipValueEnd st <> NoFuel /\ readContent st <> NoFuel /\
  readHeader st <> NoFuel /\ readCheckType st <> NoFuel /\ readMethodName st <> NoFuel /\ readMethodResponse st <> NoFuel /\
  readInt32 st <> NoFuel /\ readInt64 st <> NoFuel /\ readBool st <> NoFuel /\ readString st <> NoFuel /\ readTime st <> NoFuel /\
  readDouble strtod st <> NoFuel /\ readBinary garbage st <> NoFuel /\ readStructLength st <> NoFuel /\ readArrayLength st <> NoFuel /\
  readMemberName st <> NoFuel /\ checkArrayNext st <> NoFuel /\ checkStructNext st <> NoFuel /\ readFaultResponse st <> NoFuel.
Proof.
  split_and!; first [apply ends_check_type | apply ends_header | apply ends_fault | eapply runs_ends; eauto using runs_move, runs_value, runs_method_name, runs_method_response, runs_struct_length, runs_array_length, runs_member_name with xml_runs].
Qed.
