(* ===== verification/StreamBuffer.v ===== *)
(** * io/stream: StreamBuffer

    The buffer over a handle of [StreamBuffer.cxx]. A handle is an interface of
    the io layer: what it reads, writes and waits for is the class [Handle]. A
    [Blob] is a value, [None] for null (BStringSpec.v shows that strings behave
    as values). An exception keeps the state of the buffer, which is used again
    after it. *)

From S2P Require Import Prelude Machine.

Abbreviation blob := (option (list Z)).

Definition bytes (b : blob) : list Z := default [] b.
Definition getSize (b : blob) : Z := Z.of_nat (length (bytes b)).
Definition isNullEmpty (b : blob) : bool := bool_decide (bytes b = []).

(** What [lock] adds to reach a size: memory that was not set. *)
Definition grown (garbage : Z -> Z) (b : blob) (size : Z) : blob :=
  Some (bytes b ++ (garbage <$> seqZ (getSize b) (size - getSize b))).

(** [findChar(search, p)]. *)
Fixpoint find_from (c : Z) (l : list Z) (p : nat) : option nat :=
  match l with
  | [] => None
  | x :: l => if x =? c then Some p else find_from c l (S p)
  end.
Definition findChar (b : blob) (c : Z) (p : Z) : option Z :=
  Z.of_nat <$> find_from c (drop (Z.to_nat p) (bytes b)) (Z.to_nat p).

(** What a handle does: [read(void *, size)] gives bytes, [write] a count,
    [waitData(M_READ, ns)] a mode; and the clock. *)
Class Handle (H : Type) := {
  handle_read : H -> Z -> res (list Z * H);
  handle_write : H -> list Z -> res (Z * H);
  handle_wait : H -> Z -> Z * H;
  getTime : H -> Z;
}.

Definition interToNsecondsUp (time : Z) : Z := Z.quot (s64 (s64 (s64 (time * 1000000000) + 1000) - 1)) 1000.

Section StreamBuffer.
Context {H : Type} `{Handle H}.

(** The byte at a place of memory that was not set. *)
Variable garbage : Z -> Z.

Record stream := mk_stream {
  handle : H;
  cache : blob;
  cache_suggest : Z;
  time_limit : Z;
}.

Definition create (h : H) : stream := mk_stream h (Some []) 4096 0.
Definition reinit (h : H) (st : stream) : stream := mk_stream h (Some []) (cache_suggest st) 0.
Definition setCacheSize (n : Z) (st : stream) : stream := mk_stream (handle st) (cache st) n (time_limit st).
Definition setTimeLimit (t : Z) (st : stream) : stream := mk_stream (handle st) (cache st) (cache_suggest st) t.

(** A member function: its outcome, and the buffer afterwards. *)
Definition io (A : Type) : Type := stream -> res A * stream.
#[global] Instance io_ret : MRet io := fun A a st => (Ret a, st).
#[global] Instance io_bind : MBind io := fun A B f m st =>
  match m st with
  | (Ret a, st) => f a st
  | (Exn e, st) => (Exn e, st)
  | (Crash c, st) => (Crash c, st)
  | (NoFuel, st) => (NoFuel, st)
  end.
Definition io_get : io stream := fun st => (Ret st, st).
Definition raise {A} (e : exn) : io A := fun st => (Exn e, st).
Definition out_of_fuel {A} : io A := fun st => (NoFuel, st).
Definition out_of_bounds {A} : io A := fun st => (Crash OutOfBounds, st).
Definition set_cache (b : blob) : io unit := fun st => (Ret tt, mk_stream (handle st) b (cache_suggest st) (time_limit st)).

(** [handle->read]: at most [size] bytes. *)
Definition read_bytes (size : Z) : io (list Z) := fun st =>
  match handle_read (handle st) size with
  | Ret (d, h) => (Ret d, mk_stream h (cache st) (cache_suggest st) (time_limit st))
  | Exn e => (Exn e, st)
  | Crash c => (Crash c, st)
  | NoFuel => (NoFuel, st)
  end.

(** Waits for data until the time limit, if one is set. *)
Definition wait_limit : io unit := fun st =>
  if time_limit st =? 0 then (Ret tt, st)
  else
    let cur_time := s64 (time_limit st - getTime (handle st)) in
    let cur_time := if cur_time <? 0 then 0 else cur_time in
    let '(mode, h) := handle_wait (handle st) (interToNsecondsUp cur_time) in
    let st := mk_stream h (cache st) (cache_suggest st) (time_limit st) in
    if mode =? 0 then (Exn TimeoutException, st) else (Ret tt, st).

(** How much is read into a cache of [cur] bytes. *)
Definition read_size (suggest cur : Z) : Z :=
  if cur <? suggest then suggest - cur else if 2048 <? cur then 4096 else cur * 2.

(** ** Cache *)

(** At the end of the data the exception leaves the locked bytes in the cache. *)
Definition extendCache (min_size : Z) : io unit :=
  st ← io_get;
  let cur := getSize (cache st) in
  if cur <? min_size then
    _ ← wait_limit;
    let toread := read_size (cache_suggest st) cur in
    _ ← set_cache (grown garbage (cache st) (cur + toread));
    d ← read_bytes toread;
    if bool_decide (d = []) then raise EndOfDataException
    else set_cache (Some (bytes (cache st) ++ d))
  else mret tt.

Definition extendCacheAdd (add_size : Z) : io unit :=
  st ← io_get; extendCache (getSize (cache st) + add_size).

Fixpoint extend_loop (fuel : nat) (min_size : Z) : io unit :=
  match fuel with
  | O => out_of_fuel
  | S fuel =>
    st ← io_get;
    let cur := getSize (cache st) in
    if cur <? min_size then
      _ ← wait_limit;
      let toread := read_size (cache_suggest st) cur in
      _ ← set_cache (Some (bytes (cache st)));
      d ← read_bytes toread;
      _ ← set_cache (Some (bytes (cache st) ++ d));
      if bool_decide (d = []) then mret tt else extend_loop fuel min_size
    else mret tt
  end.

(** Each turn reads a byte at least: the missing bytes are enough turns. *)
Definition tryExtendCache (min_size : Z) : io Z :=
  st ← io_get;
  _ ← extend_loop (S (Z.to_nat (min_size - getSize (cache st)))) min_size;
  st ← io_get;
  mret (getSize (cache st)).

Definition tryExtendCacheAdd (add_size : Z) : io Z :=
  st ← io_get;
  let orig_size := getSize (cache st) in
  n ← tryExtendCache (orig_size + add_size);
  mret (n - orig_size).

(** [cache.removeLeftGet(n)] and [cache.cleanGet()]. *)
Definition removeLeftGet (n : Z) : io blob :=
  st ← io_get;
  _ ← set_cache (Some (drop (Z.to_nat n) (bytes (cache st))));
  mret (Some (take (Z.to_nat n) (bytes (cache st)))).
Definition cleanGet : io blob :=
  st ← io_get; _ ← set_cache (Some []); mret (cache st).

(** ** Lines *)

Fixpoint until_loop (fuel : nat) (search p : Z) : io Z :=
  match fuel with
  | O => out_of_fuel
  | S fuel =>
    st ← io_get;
    match findChar (cache st) search p with
    | Some n => mret n
    | None =>
      let p := getSize (cache st) in
      n ← tryExtendCacheAdd 1;
      if n =? 0 then mret (-1) else until_loop fuel search p
    end
  end.
Definition tryReadUntilChar (fuel : nat) (search : Z) : io Z := until_loop fuel search 0.

Fixpoint read_until_loop (fuel : nat) (search p : Z) : io Z :=
  match fuel with
  | O => out_of_fuel
  | S fuel =>
    st ← io_get;
    match findChar (cache st) search p with
    | Some n => mret n
    | None =>
      let p := getSize (cache st) in
      _ ← extendCacheAdd 256;
      read_until_loop fuel search p
    end
  end.
Definition readUntilChar (fuel : nat) (search : Z) : io Z := read_until_loop fuel search 0.

Definition tryReadLine (fuel : nat) : io blob :=
  p ← tryReadUntilChar fuel 10;
  if p <? 0 then
    st ← io_get;
    if 0 <? getSize (cache st) then cleanGet else mret None
  else removeLeftGet (p + 1).

(** [for (; ; req++)] over the cached bytes: the place behind a newline, or the
    size to ask for next. *)
Fixpoint scan_line (fuel : nat) (c : list Z) (req : Z) : option (Z * bool) :=
  match fuel with
  | O => None
  | S fuel =>
    if default 0 (c !! Z.to_nat (req - 1)) =? 10 then Some (req, true)
    else if req =? Z.of_nat (length c) then Some (req + 1, false)
    else scan_line fuel c (req + 1)
  end.

Fixpoint read_line_loop (fuel : nat) (req : Z) : io blob :=
  match fuel with
  | O => out_of_fuel
  | S fuel =>
    _ ← extendCache req;
    st ← io_get;
    if getSize (cache st) <? req then
      if getSize (cache st) =? 0 then mret None else cleanGet
    else
      match scan_line (S (length (bytes (cache st)))) (bytes (cache st)) req with
      | Some (req, true) => removeLeftGet req
      | Some (req, false) => read_line_loop fuel req
      | None => out_of_fuel
      end
  end.
Definition readLine (fuel : nat) : io blob := read_line_loop fuel 1.

(** ** Blocks *)

(** [handle->read(data, size, offs)] with the contents of [data]. *)
Definition read_into (data : list Z) (size : Z) : io (list Z) :=
  _ ← wait_limit;
  d ← read_bytes size;
  _ ← (if bool_decide (d = []) then set_cache None else mret tt);
  mret (data ++ d).

(** The bytes of [data], and the number returned. *)
Definition read (maxsize : Z) : io (list Z) :=
  st ← io_get;
  match cache st with
  | None => raise EndOfDataException
  | Some c =>
    if bool_decide (c = []) then read_into [] maxsize
    else if maxsize <? Z.of_nat (length c) then b ← removeLeftGet maxsize; mret (bytes b)
    else _ ← set_cache (Some []); mret c
  end.

Definition readExtendAdd (data : list Z) (add_size : Z) : io (list Z) :=
  st ← io_get;
  match cache st with
  | None => raise EndOfDataException
  | Some c =>
    if bool_decide (c = []) then read_into data add_size
    else if add_size <? Z.of_nat (length c) then b ← removeLeftGet add_size; mret (data ++ bytes b)
    else _ ← set_cache (Some []); mret (data ++ c)
  end.

Fixpoint full_loop (fuel : nat) (data : list Z) (size : Z) : io (list Z) :=
  match fuel with
  | O => out_of_fuel
  | S fuel =>
    if Z.of_nat (length data) <? size then
      data ← readExtendAdd data (size - Z.of_nat (length data));
      full_loop fuel data size
    else mret data
  end.

(** Each turn but the last adds a byte. *)
Definition readFull (size : Z) : io (list Z) :=
  if size =? 0 then mret []
  else data ← read size; full_loop (S (S (Z.to_nat size))) data size.

Definition write (data : list Z) : io Z := fun st =>
  match handle_write (handle st) data with
  | Ret (n, h) => (Ret n, mk_stream h (cache st) (cache_suggest st) (time_limit st))
  | Exn e => (Exn e, st)
  | Crash c => (Crash c, st)
  | NoFuel => (NoFuel, st)
  end.

Fixpoint write_loop (fuel : nat) (data : list Z) : io unit :=
  match fuel with
  | O => out_of_fuel
  | S fuel =>
    if bool_decide (data = []) then mret tt
    else n ← write data; if (n <? 0) || (Z.of_nat (length data) <? n) then out_of_bounds else write_loop fuel (drop (Z.to_nat n) data)
  end.
Definition writeFull (fuel : nat) (data : list Z) : io Z :=
  _ ← write_loop fuel data; mret (Z.of_nat (length data)).

End StreamBuffer.

Arguments stream H : clear implicits.
