(* ===== verification/StreamSpec.v ===== *)
(** * Lines and blocks of a stream

    A handle that gives the bytes of a content in pieces of any size: the buffer
    reads the same lines and blocks from it whatever the pieces are. *)

From S2P Require Import Prelude Machine StreamBuffer.

(** ** Lines *)

(** The first line with its newline, or all bytes, and the rest. *)
Fixpoint first_line (l : list Z) : list Z * list Z :=
  match l with
  | [] => ([], [])
  | c :: l => if c =? 10 then ([c], l) else let '(a, b) := first_line l in (c :: a, b)
  end.

Fixpoint lines_of (fuel : nat) (l : list Z) : list (list Z) :=
  match fuel with
  | O => []
  | S fuel => match l with [] => [] | _ => let '(a, b) := first_line l in a :: lines_of fuel b end
  end.

(** The lines of a text; each but the last ends with a newline. *)
Definition lines (l : list Z) : list (list Z) := lines_of (length l) l.

Lemma first_line_app l : fst (first_line l) ++ snd (first_line l) = l.
Proof. induction l as [|c l IH]; [done|]. simpl. destruct (c =? 10); [done|]. destruct (first_line l). simpl in *. by rewrite IH. Qed.

Lemma first_line_shorter c l : (length (snd (first_line (c :: l))) <= length l)%nat.
Proof.
  revert c. induction l as [|x l IH]; intros c; cbn [first_line].
  - by destruct (c =? 10).
  - destruct (c =? 10); [done|]. specialize (IH x). cbn [first_line] in IH. cbn [length].
    destruct (x =? 10); [simpl in *; lia|]. destruct (first_line l). simpl in *. lia.
Qed.

Lemma lines_of_enough f1 : forall f2 l, (length l <= f1)%nat -> (length l <= f2)%nat -> lines_of f1 l = lines_of f2 l.
Proof.
  induction f1 as [|f1 IH]; intros f2 l H1 H2.
  - destruct l; [|simpl in H1; lia]. by destruct f2.
  - destruct l as [|c l]; [by destruct f2|]. destruct f2 as [|f2]; [simpl in H2; lia|]. cbn [lines_of].
    pose proof (first_line_shorter c l) as Hs. destruct (first_line (c :: l)) as [a b]. simpl in *. f_equal. apply IH; lia.
Qed.

(** The equation of [lines]. *)
Lemma lines_cons l : l <> [] -> lines l = fst (first_line l) :: lines (snd (first_line l)).
Proof.
  destruct l as [|c l]; [done|]. intros _. unfold lines at 1. cbn [length lines_of]. pose proof (first_line_shorter c l) as Hs.
  destruct (first_line (c :: l)) as [a b]. simpl in *. f_equal. apply lines_of_enough; lia.
Qed.

Lemma lines_concat l : concat (lines l) = l.
Proof.
  remember (length l) as n eqn:En. revert l En. induction n as [n IH] using lt_wf_ind. intros l ->.
  destruct l as [|c l]; [done|]. rewrite lines_cons by done. cbn [concat]. rewrite (IH (length (snd (first_line (c :: l))))); [apply first_line_app| |done].
  pose proof (first_line_shorter c l). cbn [length] in *. lia.
Qed.

(** A line that [find_from] ends. *)
Lemma find_from_line l p : match find_from 10 l p with
  | Some n => first_line l = (take (S (n - p)) l, drop (S (n - p)) l) /\ (p <= n < p + length l)%nat
  | None => first_line l = (l, []) end.
Proof.
  revert p. induction l as [|c l IH]; intros p; [done|]. cbn [find_from first_line]. destruct (c =? 10).
  - rewrite Nat.sub_diag. simpl. split; [done|lia].
  - specialize (IH (S p)). destruct (find_from 10 l (S p)) as [n|]; [|by rewrite IH].
    destruct IH as [-> Hn]. replace (n - p)%nat with (S (n - S p)) by lia. simpl. split; [done|lia].
Qed.

Lemma find_from_app l1 l2 p : find_from 10 l1 p = None -> find_from 10 (l1 ++ l2) p = find_from 10 l2 (p + length l1).
Proof.
  revert p. induction l1 as [|c l1 IH]; intros p H; simpl in *; [by rewrite Nat.add_0_r|]. destruct (c =? 10); [done|].
  rewrite IH by done. f_equal. lia.
Qed.

Lemma find_from_app_some l1 l2 p n : find_from 10 l1 p = Some n -> find_from 10 (l1 ++ l2) p = Some n.
Proof. revert p. induction l1 as [|c l1 IH]; intros p H; simpl in *; [done|]. destruct (c =? 10); [done|]. by apply IH. Qed.

(** ** Handles *)

(** A handle with a content: a read gives some of it, nothing only at its end. *)
Class Lawful (H : Type) `{Handle H} := {
  content : H -> list Z;
  read_law h n : 0 < n -> exists d h', handle_read h n = Ret (d, h') /\ content h = d ++ content h' /\
    Z.of_nat (length d) <= n /\ (d = [] -> content h = []);
}.

Section Reading.
Context {H : Type} `{Lawful H}.
Variable garbage : Z -> Z.

(** The bytes not read yet, in the cache and in the handle. *)
Definition pending (st : stream H) : list Z := bytes (cache st) ++ content (handle st).

(** A buffer without a time limit that reads in pieces. *)
Definition ready (st : stream H) : Prop := time_limit st = 0 /\ 0 < cache_suggest st.

Definition with_parts (st : stream H) (h : H) (b : blob) : stream H := mk_stream h b (cache_suggest st) (time_limit st).

Lemma read_size_pos suggest cur : 0 < suggest -> 0 <= cur -> 0 < read_size suggest cur.
Proof. intros. unfold read_size. ztest. Qed.

Lemma io_step {A B} (m : io (H:=H) A) (f : A -> io B) st a st' : m st = (Ret a, st') -> (m ≫= f) st = f a st'.
Proof. intros E. unfold mbind, io_bind. by rewrite E. Qed.

Lemma io_get_step {B} (f : stream H -> io B) st : (io_get ≫= f) st = f st st.
Proof. done. Qed.

Lemma wait_ready {B} (f : unit -> io B) (st : stream H) : time_limit st = 0 -> (wait_limit ≫= f) st = f tt st.
Proof. intros E. apply io_step. unfold wait_limit. by rewrite E. Qed.

(** A read on behalf of the cache. *)
Lemma read_bytes_ok n (st : stream H) : 0 < n -> exists d h, read_bytes n st = (Ret d, with_parts st h (cache st)) /\
  content (handle st) = d ++ content h /\ Z.of_nat (length d) <= n /\ (d = [] -> content (handle st) = []).
Proof. intros Hn. destruct (read_law (handle st) n Hn) as (d & h & E & Hc & Hl & He). exists d, h. unfold read_bytes. by rewrite E. Qed.

(** One byte more in the cache, unless the content is at its end. *)
Lemma try_extend_one (st : stream H) : ready st -> exists d h, content (handle st) = d ++ content h /\ (d = [] -> content (handle st) = []) /\
  tryExtendCacheAdd 1 st = (Ret (Z.of_nat (length d)), with_parts st h (Some (bytes (cache st) ++ d))).
Proof.
  intros [Ht Hs]. unfold tryExtendCacheAdd, tryExtendCache. rewrite io_get_step. cbv zeta. unfold mbind at 1, io_bind at 1. rewrite io_get_step.
  replace (Z.to_nat (getSize (cache st) + 1 - getSize (cache st))) with 1%nat by lia. cbn [extend_loop].
  unfold mbind at 1, io_bind at 1. rewrite io_get_step. destruct (Z.ltb_spec (getSize (cache st)) (getSize (cache st) + 1)); [|lia].
  rewrite wait_ready by done. unfold set_cache at 1. erewrite io_step by reflexivity. cbn [handle cache cache_suggest time_limit].
  assert (0 < read_size (cache_suggest st) (getSize (cache st))) as Hr by (apply read_size_pos; [done|unfold getSize; lia]).
  destruct (read_bytes_ok _ (with_parts st (handle st) (Some (bytes (cache st)))) Hr) as (d & h & E & Hc & _ & He).
  exists d, h. split; [exact Hc|]. split; [exact He|]. change (mk_stream (handle st) _ _ _) with (with_parts st (handle st) (Some (bytes (cache st)))).
  rewrite (io_step _ _ _ _ _ E). unfold set_cache at 1. erewrite io_step by reflexivity. unfold with_parts. cbn [handle cache cache_suggest time_limit].
  destruct (bool_decide (d = [])) eqn:Ed.
  - apply bool_decide_eq_true in Ed as ->. unfold mbind, io_bind, mret, io_ret, io_get, getSize. simpl. rewrite app_nil_r. by rewrite Z.sub_diag.
  - apply bool_decide_eq_false in Ed. rewrite io_get_step. cbn [cache]. unfold getSize at 1. cbn [bytes default from_option id]. rewrite length_app.
    assert (0 < length d)%nat by (destruct d; [done|simpl; lia]). destruct (Z.ltb_spec (Z.of_nat (length (bytes (cache st)) + length d)) (getSize (cache st) + 1)); [unfold getSize in *; lia|].
    unfold mbind, io_bind, mret, io_ret, io_get, getSize. simpl. rewrite length_app. do 2 f_equal. lia.
Qed.

(** Reading on until a newline is in the cache or the content is at its end. *)
Lemma until_loop_ok fuel : forall (st : stream H) p, ready st -> (p <= length (bytes (cache st)))%nat ->
  find_from 10 (take p (bytes (cache st))) 0 = None -> (length (content (handle st)) < fuel)%nat ->
  exists r h b, until_loop fuel 10 (Z.of_nat p) st = (Ret r, with_parts st h b) /\ bytes b ++ content h = pending st /\
    (length (content h) <= length (content (handle st)))%nat /\ match find_from 10 (pending st) 0 with
    | Some n => r = Z.of_nat n /\ (n < length (bytes b))%nat
    | None => r = -1 /\ content h = []
    end.
Proof.
  induction fuel as [|fuel IH]; intros st p Hr Hp Hn Hf; [lia|]. cbn [until_loop]. rewrite io_get_step.
  assert (find_from 10 (bytes (cache st)) 0 = find_from 10 (drop p (bytes (cache st))) p) as Ef.
  { rewrite <- (take_drop p (bytes (cache st))) at 1. rewrite find_from_app by done. by rewrite length_take, Nat.min_l. }
  unfold findChar. rewrite Nat2Z.id, <- Ef. destruct (find_from 10 (bytes (cache st)) 0) as [n|] eqn:E; cbn [fmap option_fmap option_map].
  - exists (Z.of_nat n), (handle st), (cache st). split; [by destruct st|]. do 2 (split; [done|]). unfold pending. rewrite (find_from_app_some _ _ _ _ E).
    split; [done|]. pose proof (find_from_line (bytes (cache st)) 0) as K. rewrite E in K. lia.
  - cbv zeta. destruct (try_extend_one st Hr) as (d & h & Hc & He & Ex). rewrite (io_step _ _ _ _ _ Ex). destruct d as [|x d].
    + cbn [length Z.of_nat Z.eqb]. exists (-1), h, (Some (bytes (cache st) ++ [])). split; [done|]. unfold pending. rewrite (He eq_refl). cbn [bytes default from_option id app].
      rewrite (He eq_refl) in Hc. cbn [app] in Hc. rewrite <- Hc, !app_nil_r, E. split_and!; simpl; (done || lia).
    + destruct (Z.eqb_spec (Z.of_nat (length (x :: d))) 0); [simpl in *; lia|].
      destruct (IH (with_parts st h (Some (bytes (cache st) ++ x :: d))) (length (bytes (cache st)))) as (r & h' & b & Er & Hb & Hlen & Hm).
      * done.
      * simpl. rewrite length_app. lia.
      * cbn [with_parts cache bytes default from_option id]. by rewrite take_app_length.
      * cbn [with_parts handle]. rewrite Hc, length_app in Hf. simpl in Hf. lia.
      * exists r, h', b. unfold getSize. rewrite Er. split; [done|].
        assert (pending (with_parts st h (Some (bytes (cache st) ++ x :: d))) = pending st) as Hpe by (unfold pending; simpl; rewrite Hc, <- app_assoc; done).
        rewrite Hpe in *. split; [done|]. split; [|done]. cbn [with_parts handle] in Hlen. rewrite Hc, length_app. lia.
Qed.

(** [tryReadLine] takes the first line of what is pending; null at the end. *)
Lemma tryReadLine_ok fuel (st : stream H) : ready st -> (length (content (handle st)) < fuel)%nat ->
  exists st', ready st' /\ tryReadLine fuel st = (Ret (match pending st with [] => None | _ => Some (fst (first_line (pending st))) end), st') /\
    pending st' = snd (first_line (pending st)) /\ (length (content (handle st')) <= length (content (handle st)))%nat.
Proof.
  intros Hr Hf. destruct (until_loop_ok fuel st 0 Hr ltac:(lia) eq_refl Hf) as (r & h & b & Er & Hb & Hle & Hm).
  assert (forall b', ready (with_parts st h b')) as Hrd by done. unfold tryReadLine, tryReadUntilChar.
  rewrite (io_step _ _ _ _ _ Er). pose proof (find_from_line (pending st) 0) as Hl. destruct (find_from 10 (pending st) 0) as [n|].
  - destruct Hm as [-> Hn]. destruct Hl as [Hl Hn2]. rewrite Nat.sub_0_r in Hl. destruct (Z.ltb_spec (Z.of_nat n) 0); [lia|].
    unfold removeLeftGet. rewrite io_get_step. cbn [with_parts cache]. replace (Z.to_nat (Z.of_nat n + 1)) with (S n) by lia.
    eexists. split; [apply (Hrd (Some (drop (S n) (bytes b))))|]. split; [|split].
    + unfold set_cache at 1. erewrite io_step by reflexivity. rewrite Hl. destruct (pending st) as [|c l] eqn:E; [simpl in Hn2; lia|].
      rewrite <- Hb. cbn [fst]. rewrite take_app_le by lia. done.
    + unfold pending at 1. cbn [with_parts cache handle bytes default from_option id]. rewrite Hl, <- Hb. cbn [snd]. by rewrite drop_app_le by lia.
    + done.
  - destruct Hm as [-> Hc]. rewrite Hc, app_nil_r in Hb. rewrite Hl. change (-1 <? 0) with true. cbv iota. rewrite io_get_step. cbn [with_parts cache fst snd].
    unfold getSize. rewrite Hb. destruct (pending st) as [|c l] eqn:E; cbn [length Z.of_nat].
    + cbn [Z.ltb Z.compare]. exists (with_parts st h b). split; [apply Hrd|]. split; [done|]. split; [|done].
      unfold pending. cbn [with_parts cache handle]. by rewrite Hb, Hc.
    + destruct (Z.ltb_spec 0 (Z.of_nat (S (length l)))); [|lia]. unfold cleanGet. rewrite io_get_step. unfold set_cache at 1. erewrite io_step by reflexivity.
      exists (with_parts st h (Some [])). split; [apply Hrd|]. split; [|split; [|done]].
      * destruct b; cbn [bytes default from_option id] in Hb; [by rewrite Hb|done].
      * unfold pending. cbn [with_parts cache handle]. by rewrite Hc.
Qed.

(** [while (!(line = stream->tryReadLine()).isNull())], collecting the lines. *)
Fixpoint read_lines (n fuel : nat) : io (H:=H) (list (list Z)) :=
  match n with
  | O => out_of_fuel
  | S n =>
    line ← tryReadLine fuel;
    match line with
    | None => mret []
    | Some l => ls ← read_lines n fuel; mret (l :: ls)
    end
  end.

Lemma read_lines_ok fuel n : forall st : stream H, ready st -> (length (content (handle st)) < fuel)%nat -> (length (pending st) < n)%nat ->
  exists st', read_lines n fuel st = (Ret (lines (pending st)), st') /\ pending st' = [].
Proof.
  induction n as [|n IH]; intros st Hr Hf Hn; [lia|]. cbn [read_lines]. destruct (tryReadLine_ok fuel st Hr Hf) as (st1 & Hr1 & E & Hp & Hc).
  rewrite (io_step _ _ _ _ _ E). destruct (pending st) as [|c l] eqn:Ep; [by exists st1|].
  pose proof (first_line_shorter c l) as Hs. destruct (IH st1 Hr1 ltac:(lia)) as (st2 & E2 & Hp2); [rewrite Hp; simpl in Hn; lia|].
  exists st2. rewrite (io_step _ _ _ _ _ E2). rewrite Hp. by rewrite (lines_cons (c :: l)).
Qed.

(** ** Blocks *)

(** Some of what is pending, nothing only at the end, which is noted in the
    cache. *)
Definition takes (m : io (H:=H) (list Z)) (data : list Z) (n : Z) (st : stream H) : Prop :=
  exists d st', m st = (Ret (data ++ d), st') /\ pending st = d ++ pending st' /\ time_limit st' = 0 /\ Z.of_nat (length d) <= n /\
    (d = [] -> pending st = []) /\ (d <> [] -> cache st' <> None) /\ (d = [] -> cache st' = None).

Lemma read_into_ok data n (st : stream H) : time_limit st = 0 -> cache st = Some [] -> 0 < n -> takes (read_into data n) data n st.
Proof.
  intros Ht Hca Hn. unfold read_into. destruct (read_bytes_ok n st Hn) as (d & h & E & Hc & Hl & He). exists d.
  exists (with_parts st h (if bool_decide (d = []) then None else Some [])). split.
  - rewrite wait_ready by done. rewrite (io_step _ _ _ _ _ E), Hca. by destruct (bool_decide _).
  - unfold pending. rewrite Hca. cbn [with_parts cache handle time_limit bytes default from_option id app]. case_bool_decide as Hd; subst; simpl; split_and!; try done; by rewrite ?(He eq_refl).
Qed.

Lemma readExtendAdd_ok data n (st : stream H) : time_limit st = 0 -> cache st <> None -> 0 < n -> takes (readExtendAdd data n) data n st.
Proof.
  intros Ht Hca Hn. destruct (cache st) as [c|] eqn:E; [|done]. unfold readExtendAdd. unfold takes. rewrite io_get_step. rewrite E.
  case_bool_decide as Hc; [subst; by apply read_into_ok|]. assert (0 < length c)%nat by (destruct c; [done|simpl; lia]).
  destruct (Z.ltb_spec n (Z.of_nat (length c))).
  - unfold removeLeftGet. exists (take (Z.to_nat n) c), (with_parts st (handle st) (Some (drop (Z.to_nat n) c))). split.
    + unfold mbind, io_bind, io_get, set_cache, mret, io_ret. by rewrite E.
    + unfold pending. rewrite E. cbn [with_parts cache handle time_limit bytes default from_option id]. rewrite length_take.
      split_and!; [by rewrite app_assoc, take_drop|done|lia| |done|]; intros Ez; apply (f_equal length) in Ez; rewrite length_take in Ez; simpl in Ez; lia.
  - exists c, (with_parts st (handle st) (Some [])). split; [done|]. unfold pending. rewrite E. cbn [with_parts cache handle time_limit bytes default from_option id app].
    split_and!; try done; lia.
Qed.

Lemma read_extend n (st : stream H) : read n st = readExtendAdd [] n st.
Proof. unfold read, readExtendAdd, mbind, io_bind, io_get. destruct (cache st) as [c|]; [|done]. destruct (bool_decide _); [done|]. by destruct (n <? _). Qed.

Lemma full_loop_ok fuel : forall (st : stream H) data size, time_limit st = 0 -> (0 < fuel)%nat -> (Z.of_nat (length data) <= size) ->
  size - Z.of_nat (length data) < Z.of_nat fuel - 1 \/ (cache st = None /\ Z.of_nat (length data) < size) ->
  (cache st = None -> pending st = [] \/ Z.of_nat (length data) = size) ->
  if size - Z.of_nat (length data) <=? Z.of_nat (length (pending st)) then
    exists st', full_loop fuel data size st = (Ret (data ++ take (Z.to_nat (size - Z.of_nat (length data))) (pending st)), st') /\
      pending st' = drop (Z.to_nat (size - Z.of_nat (length data))) (pending st)
  else exists st', full_loop fuel data size st = (Exn EndOfDataException, st').
Proof.
  induction fuel as [|fuel IH]; intros st data size Ht Hp Hd Hf Hc; [lia|]. cbn [full_loop].
  destruct (Z.ltb_spec (Z.of_nat (length data)) size).
  2: { replace (size - Z.of_nat (length data)) with 0 by lia. destruct (Z.leb_spec 0 (Z.of_nat (length (pending st)))); [|lia].
    exists st. simpl. by rewrite app_nil_r. }
  destruct (cache st) as [c|] eqn:Ec.
  2: { destruct (Hc eq_refl) as [Hc0|]; [|lia]. rewrite Hc0. simpl length. destruct (Z.leb_spec (size - Z.of_nat (length data)) (Z.of_nat 0)); [lia|].
    exists st. unfold readExtendAdd, mbind, io_bind, io_get. by rewrite Ec. }
  destruct (readExtendAdd_ok data (size - Z.of_nat (length data)) st Ht ltac:(by rewrite Ec) ltac:(lia)) as (d & st1 & E & Hpe & Ht1 & Hl & He & Hn1 & Hn2).
  rewrite (io_step _ _ _ _ _ E). destruct Hf as [Hf|[? _]]; [|done].
  specialize (IH st1 (data ++ d) size Ht1 ltac:(lia)). rewrite length_app in IH. rewrite Hpe, length_app.
  destruct (decide (d = [])) as [->|Hd0].
  - specialize (He eq_refl). specialize (Hn2 eq_refl). simpl in *. rewrite He in Hpe. rewrite <- Hpe in *. simpl in *.
    rewrite app_nil_r, Nat.add_0_r in IH. specialize (IH ltac:(lia) ltac:(right; split; [done|lia]) ltac:(by left)). by rewrite app_nil_r.
  - assert (0 < length d)%nat by (destruct d; [done|simpl; lia]). specialize (IH ltac:(lia) ltac:(left; lia) ltac:(intros Hx; exfalso; by apply Hn1)).
    replace (size - Z.of_nat (length data + length d)) with (size - Z.of_nat (length data) - Z.of_nat (length d)) in IH by lia.
    destruct (Z.leb_spec (size - Z.of_nat (length data) - Z.of_nat (length d)) (Z.of_nat (length (pending st1)))).
    + destruct (Z.leb_spec (size - Z.of_nat (length data)) (Z.of_nat (length d + length (pending st1)))); [|lia].
      destruct IH as (st2 & -> & E2). exists st2. rewrite E2. split.
      * do 2 f_equal. rewrite <- app_assoc. f_equal. rewrite take_app_ge by lia. do 2 f_equal. lia.
      * rewrite drop_app_ge by lia. f_equal. lia.
    + destruct (Z.leb_spec (size - Z.of_nat (length data)) (Z.of_nat (length d + length (pending st1)))); [lia|]. done.
Qed.

Lemma readFull_ok size (st : stream H) : time_limit st = 0 -> cache st <> None -> 0 <= size ->
  if size <=? Z.of_nat (length (pending st)) then
    exists st', readFull size st = (Ret (take (Z.to_nat size) (pending st)), st') /\ pending st' = drop (Z.to_nat size) (pending st)
  else exists st', readFull size st = (Exn EndOfDataException, st').
Proof.
  intros Ht Hc Hs. unfold readFull. destruct (Z.eqb_spec size 0) as [->|Hne].
  { destruct (Z.leb_spec 0 (Z.of_nat (length (pending st)))); [|lia]. by exists st. }
  destruct (readExtendAdd_ok [] size st Ht Hc ltac:(lia)) as (d & st1 & E & Hpe & Ht1 & Hl & He & Hn1 & Hn2).
  rewrite <- read_extend in E. rewrite (io_step _ _ _ _ _ E). simpl app.
  pose proof (full_loop_ok (S (S (Z.to_nat size))) st1 d size Ht1 ltac:(lia) Hl) as K. rewrite Hpe, length_app.
  specialize (K ltac:(left; lia)). assert (cache st1 = None -> pending st1 = [] \/ Z.of_nat (length d) = size) as Hx.
  { intros Hx. left. destruct (decide (d = [])) as [Hd|Hd]; [|exfalso; by apply Hn1]. rewrite (He Hd), Hd in Hpe. by simpl in Hpe. }
  specialize (K Hx). destruct (Z.leb_spec (size - Z.of_nat (length d)) (Z.of_nat (length (pending st1)))).
  - destruct (Z.leb_spec size (Z.of_nat (length d + length (pending st1)))); [|lia]. destruct K as (st2 & -> & E2). exists st2. rewrite E2. split.
    + do 2 f_equal. rewrite take_app_ge by lia. do 2 f_equal. lia.
    + rewrite drop_app_ge by lia. f_equal. lia.
  - destruct (Z.leb_spec size (Z.of_nat (length d + length (pending st1)))); [lia|]. done.
Qed.

End Reading.

(** ** A handle that gives pieces *)

(** Pieces that are not empty: the first byte and the others. *)
Abbreviation pieces := (list (Z * list Z)).

Definition piece_bytes (p : Z * list Z) : list Z := fst p :: snd p.

#[global] Instance pieces_handle : Handle pieces := {
  handle_read h n :=
    match h with
    | [] => Ret ([], [])
    | p :: rest =>
      match drop (Z.to_nat n) (piece_bytes p) with
      | [] => Ret (piece_bytes p, rest)
      | c :: l => Ret (take (Z.to_nat n) (piece_bytes p), (c, l) :: rest)
      end
    end;
  handle_write h data := Ret (Z.of_nat (length data), h);
  handle_wait h ns := (1, h);
  getTime h := 0;
}.

#[global] Program Instance pieces_lawful : Lawful pieces := { content h := flat_map piece_bytes h }.
Next Obligation.
  intros h n Hn. destruct h as [|p rest]; [exists [], []; split_and!; simpl; (done || lia)|]. cbn [handle_read pieces_handle flat_map].
  pose proof (take_drop (Z.to_nat n) (piece_bytes p)) as Ht. destruct (drop (Z.to_nat n) (piece_bytes p)) as [|c l] eqn:E.
  - exists (piece_bytes p), rest. rewrite app_nil_r in Ht. split_and!; try done. rewrite <- Ht, length_take. lia.
  - eexists _, _. split; [reflexivity|]. cbn [flat_map]. change (piece_bytes (c, l)) with (c :: l). rewrite app_assoc, Ht. split_and!; try done.
    + rewrite length_take. lia.
    + intros Ez. apply (f_equal length) in Ez. rewrite length_take in Ez. unfold piece_bytes in Ez. simpl in Ez. lia.
Qed.

(** ** Properties *)

(** C30. Whatever pieces the handle gives, the lines that a client of a stream
    without a time limit and with a positive size of its cache (as the constructor
    makes it) reads until null are the lines of what is pending: each with its
    newline, the last one without if the content does not end with one, none lost
    and none joined. *)
Theorem stream_lines {H} `{Lawful H} (st : stream H) (n fuel : nat) :
  ready st ->
  (length (content (handle st)) < fuel)%nat ->
  (length (pending st) < n)%nat ->
  exists st', read_lines n fuel st = (Ret (lines (pending st)), st') /\ pending st' = [] /\ concat (lines (pending st)) = pending st.
Proof. intros Hr Hf Hn. destruct (read_lines_ok fuel n st Hr Hf Hn) as (st' & E & Hp). exists st'. by rewrite lines_concat. Qed.

(** A newline inside a piece, a piece without one and one that starts with it. *)
Definition demo_stream : stream pieces := create [(97, [10; 98]); (99, []); (10, [10; 100])].

Lemma stream_lines_witness : (exists st', read_lines 9 9 demo_stream = (Ret (lines (pending demo_stream)), st') /\ pending st' = [] /\
  concat (lines (pending demo_stream)) = pending demo_stream) /\ lines (pending demo_stream) = [[97; 10]; [98; 99; 10]; [10]; [100]].
Proof. split; [|reflexivity]. apply (stream_lines demo_stream 9 9); [done|simpl; lia|cbn; lia]. Defined.

(** [readFull] returns exactly the next [size] bytes and leaves the others,
    or throws [EndOfDataException] when fewer are left, whatever pieces the
    handle gives and however the cache was filled. *)
Theorem readFull_exact {H} `{Lawful H} (st : stream H) (size : Z) :
  time_limit st = 0 -> cache st <> None -> 0 <= size ->
  if size <=? Z.of_nat (length (pending st)) then
    exists st', readFull size st = (Ret (take (Z.to_nat size) (pending st)), st') /\ pending st' = drop (Z.to_nat size) (pending st)
  else exists st', readFull size st = (Exn EndOfDataException, st').
Proof. apply readFull_ok. Qed.

Lemma readFull_exact_witness : exists st', readFull 3 demo_stream = (Ret (take 3 (pending demo_stream)), st') /\ pending st' = drop 3 (pending demo_stream).
Proof.
  pose proof (readFull_exact demo_stream 3 eq_refl ltac:(done) ltac:(lia)) as K.
  change (3 <=? Z.of_nat (length (pending demo_stream))) with true in K. exact K.
Defined.

(** At the end of the content [readLine] throws, also when bytes without a
    newline are left, and its cache then holds memory that was never read. *)
Lemma readLine_at_end garbage : exists st', readLine garbage 9 (create [(97, [])]) = (Exn EndOfDataException, st') /\ getSize (cache st') = 4096 /\
  bytes (cache st') !! 1%nat = Some (garbage 1).
Proof. eexists. split; [vm_compute; reflexivity|]. split; reflexivity. Qed.
