(* ===== verification/SqlDump.v ===== *)
(** * sql/sqldump_filt: rules and lines

    What the filter of SQL dumps does with a line: the rules of
    [QueueManager::addRuleFile], the splitting of a row by [getNextValues] and
    the filter [processOneData]. A line is its bytes and the terminating zero
    behind them; [memcmp] with a constant accesses as many bytes as it has. *)

From Stdlib Require Import String.
From stdpp Require Import gmap.
From S2P Require Import Prelude Machine CString Evaluator IntEvaluator.

#[local] Open Scope list_scope.

(** ** Characters of a line *)

Section Line.
Variable line : list Z.

Definition line_at (pos : Z) : res Z := byte_at (line ++ [0]) pos.
Definition line_size : Z := Z.of_nat (length line).

(** [line_data.mid(pos, length)]. *)
Definition mid (pos len : Z) : list Z := take (Z.to_nat len) (drop (Z.to_nat pos) line).

(** [memcmp(line+pos, s, strlen(s)) == 0]: all bytes of both are accessed. *)
Definition memcmp_at (pos : Z) (s : list Z) : res bool :=
  l ← mem_range (line ++ [0]) pos (Z.of_nat (length s)); Ret (bool_decide (l = s)).

(** [for (; isspace(line[pos]); pos++) ;]. *)
Fixpoint skip_spaces_at (fuel : nat) (pos : Z) : res Z :=
  match fuel with
  | O => NoFuel
  | S fuel => c ← line_at pos; if isspace c then skip_spaces_at fuel (pos + 1) else Ret pos
  end.

(** ** Rows *)

(** Behind an apostrophe, up to and over the closing one. *)
Fixpoint skip_quoted (fuel : nat) (pos : Z) : res Z :=
  match fuel with
  | O => NoFuel
  | S fuel =>
    c ← line_at pos;
    if c =? 39 then Ret (pos + 1)
    else if c =? 92 then
      if pos + 1 =? line_size then Exn InvalidFormatException else skip_quoted fuel (pos + 2)
    else if c =? 0 then
      if pos =? line_size then Exn InvalidFormatException else skip_quoted fuel (pos + 1)
    else skip_quoted fuel (pos + 1)
  end.

(** The rest of a column that began at [spos]: its end, and whether it is the
    last of the row. *)
Fixpoint column_end (fuel : nat) (pos : Z) : res (Z * bool) :=
  match fuel with
  | O => NoFuel
  | S fuel =>
    c ← line_at pos;
    if c =? 44 then Ret (pos, false)
    else if c =? 41 then Ret (pos, true)
    else if c =? 39 then pos ← skip_quoted (S (length line)) (pos + 1); column_end fuel pos
    else if c =? 0 then
      if pos =? line_size then Exn InvalidFormatException else column_end fuel (pos + 1)
    else column_end fuel (pos + 1)
  end.

Fixpoint columns (fuel : nat) (pos : Z) (values : list (list Z)) : res (list (list Z) * Z) :=
  match fuel with
  | O => NoFuel
  | S fuel =>
    '(e, last) ← column_end (S (length line)) pos;
    let values := values ++ [mid pos (e - pos)] in
    if last : bool then Ret (values, e + 1) else columns fuel (e + 1) values
  end.

(** The values and the text of the next row and the position behind it, [None]
    behind the last one. *)
Definition getNextValues (pos : Z) : res (option (list (list Z) * list Z * Z)) :=
  c ← line_at pos;
  if c =? 59 then
    if pos + 1 =? line_size then Ret None
    else n ← line_at (pos + 1); if (n =? 10) && (pos + 2 =? line_size) then Ret None else Exn InvalidFormatException
  else if c =? 40 then
    '(values, e) ← columns (S (length line)) (pos + 1) [];
    n ← line_at e;
    Ret (Some (values, mid pos (e - pos), if n =? 44 then e + 1 else e))
  else Exn InvalidFormatException.

End Line.

(** ** Values and rules *)

(** [strtoll(s, NULL, 10)] of a text that begins with a digit. *)
Definition number (s : list Z) : Z := Z.min LLONG_MAX (fst (digits_loop 10 0 s)).

(** The columns that are numbers, NULL counting as zero. *)
Fixpoint column_values (i : Z) (values : list (list Z)) : gmap Z Z :=
  match values with
  | [] => ∅
  | v :: values =>
    let vals := column_values (i + 1) values in
    if isdigit (deref v) then <[i := number v]> vals
    else if bool_decide (v = chars "NULL") then <[i := 0]> vals
    else vals
  end.

Abbreviation rules := (gmap (list Z) (list Expression)).

(** Does a rule accept the row? A rule that throws does not. *)
Fixpoint accepted (evals : list Expression) (args : Arguments_) : res bool :=
  match evals with
  | [] => Ret false
  | e :: evals =>
    match evaluate e args with
    | Ret v => if v =? 0 then accepted evals args else Ret true
    | Exn _ => accepted evals args
    | Crash c => Crash c
    | NoFuel => NoFuel
    end
  end.

(** The rows of a line: [output] with the rows accepted so far. *)
Fixpoint filter_rows (fuel : nat) (constants : gmap (list Z) Z) (tname line : list Z) (evals : list Expression) (pos : Z) (val_count : Z) (output : list Z) :
    res (Z * list Z) :=
  match fuel with
  | O => NoFuel
  | S fuel =>
    row ← getNextValues line pos;
    match row with
    | None => Ret (val_count, output)
    | Some (values, ins_str, pos) =>
      a ← accepted evals (ArgumentsHash.arguments (ArgumentsHash.mk constants (column_values 0 values)));
      if a : bool then
        filter_rows fuel constants tname line evals pos (val_count + 1)
          (output ++ (if val_count =? 0 then chars "INSERT INTO " ++ tname ++ chars " VALUES " else chars ",") ++ ins_str)
      else filter_rows fuel constants tname line evals pos val_count output
    end
  end.

(** [findChar('`', pos)]. *)
Fixpoint find_char (c : Z) (l : list Z) (pos : Z) : option Z :=
  match l with
  | [] => None
  | x :: l => if x =? c then Some pos else find_char c l (pos + 1)
  end.

Definition processOneData (evaluators : rules) (constants : gmap (list Z) Z) (line : list Z) : res (list Z) :=
  insert ← memcmp_at line 0 (chars "INSERT INTO `");
  if negb insert then Ret []
  else
    match find_char 96 (drop 13 line) 13 with
    | None => Ret []
    | Some tend_p =>
      let tname := mid line 13 (tend_p - 13) in
      pos ← skip_spaces_at line (S (length line)) (tend_p + 1);
      v ← memcmp_at line pos (chars "VALUES");
      if negb v then Ret []
      else
        pos ← skip_spaces_at line (S (length line)) (pos + 6);
        match evaluators !! tname with
        | None => Ret []
        | Some tev =>
          '(val_count, output) ← filter_rows (S (length line)) constants tname line tev pos 0 [];
          Ret (if val_count =? 0 then output else output ++ chars ";" ++ [10])
        end
    end.

(** ** Rule files *)

(** [while (isspace(line[line.getSize()-1])) line.removeRight(1)]: a line of
    spaces only is read before its start. *)
Fixpoint trim_right (fuel : nat) (line : list Z) : res (list Z) :=
  match fuel with
  | O => NoFuel
  | S fuel =>
    c ← byte_at line (Z.of_nat (length line) - 1);
    if isspace c then trim_right fuel (take (length line - 1) line) else Ret line
  end.

Definition is_table_char (c : Z) : bool := isalnum c || (c =? 95).

(** One line of a rule file: a comment, or a table and an expression. *)
Definition rule_line (evaluators : rules) (line : list Z) : res rules :=
  line ← trim_right (S (length line)) line;
  let s := skip_space line in
  if (deref s =? 35) || (deref s =? 0) then Ret evaluators
  else
    let '(t, te) := span is_table_char s in
    let s := skip_space te in
    if bool_decide (t = []) || negb (deref s =? 58) then Exn InvalidFormatException
    else
      e ← parseExpression (c_text (tail s));
      Ret (<[t := default [] (evaluators !! t) ++ [e]]> evaluators).

(** [addRuleFile] on the lines that [tryReadLine] gives. *)
Fixpoint addRuleFile (evaluators : rules) (file : list (list Z)) : res rules :=
  match file with
  | [] => Ret evaluators
  | line :: file => evaluators ← rule_line evaluators line; addRuleFile evaluators file
  end.
