(* ===== verification/SqlSpec.v ===== *)
(** * What the filter does with a line

    [processOneData] on any line ends, and stays within the line but where a
    line is shorter than the text it is compared with; on a well-formed [INSERT] it keeps the rows that a rule of the
    table accepts, and the others go. *)

From Stdlib Require Import String.
From stdpp Require Import gmap.
From S2P Require Import Prelude Machine CString Evaluator IntEvaluator SqlDump.

#[local] Open Scope list_scope.

(** ** Outcomes on any line *)

(** A result, an exception for the form of the line, or an operation of a rule
    that C++ leaves undefined. *)
Definition outcome {A} (P : A -> Prop) (r : res A) : Prop :=
  match r with
  | Ret v => P v
  | Exn e => e = InvalidFormatException
  | Crash c => c = DivByZero \/ c = BadShift
  | NoFuel => False
  end.

Lemma outcome_bind {A B} (P : A -> Prop) (Q : B -> Prop) m f : outcome P m -> (forall v, P v -> outcome Q (f v)) -> outcome Q (m ≫= f).
Proof. destruct m; simpl; auto. Qed.

Lemma outcome_mono {A} (P Q : A -> Prop) m : outcome P m -> (forall v, P v -> Q v) -> outcome Q m.
Proof. destruct m; simpl; auto. Qed.

Section Line.
Variable line : list Z.
Let size := line_size line.

Lemma line_at_in pos : 0 <= pos <= size -> exists c, line_at line pos = Ret c /\ (pos = size -> c = 0).
Proof.
  subst size. unfold line_size, line_at. intros H. destruct (decide (pos = Z.of_nat (length line))) as [->|Hne].
  - exists 0. split; [|done]. apply byte_at_app_0.
  - destruct (lookup_lt_is_Some_2 (line ++ [0]) (Z.to_nat pos)) as [c Hc]; [rewrite length_app; simpl; lia|].
    exists c. split; [apply byte_at_ok; [done|lia]|lia].
Qed.

Ltac at_pos p c H0 := destruct (line_at_in p ltac:(lia)) as (c & -> & H0); cbn [mbind res_bind].

Lemma skip_spaces_outcome fuel pos : 0 <= pos <= size -> size - pos < Z.of_nat fuel -> outcome (fun p => pos <= p <= size) (skip_spaces_at line fuel pos).
Proof.
  revert pos. induction fuel as [|fuel IH]; intros pos Hp Hf; [lia|]. cbn [skip_spaces_at]. at_pos pos c H0.
  destruct (isspace c) eqn:E; [|simpl; lia]. assert (pos <> size) by (intros Hs; rewrite (H0 Hs) in E; done).
  eapply outcome_mono; [apply IH; lia|]. simpl. lia.
Qed.

Lemma skip_quoted_outcome fuel pos : 0 <= pos <= size -> size - pos < Z.of_nat fuel -> outcome (fun p => pos < p <= size) (skip_quoted line fuel pos).
Proof.
  revert pos. induction fuel as [|fuel IH]; intros pos Hp Hf; [lia|]. cbn [skip_quoted]. at_pos pos c H0.
  assert (c <> 0 -> pos < size) as Hlt by (intros Hc; destruct (decide (pos = size)); [by rewrite H0 in Hc|lia]).
  fold size. ztest; first [done|simpl; lia|eapply outcome_mono; [apply IH; lia|simpl; lia]].
Qed.

Lemma column_end_outcome fuel pos : 0 <= pos <= size -> size - pos < Z.of_nat fuel -> outcome (fun '(e, _) => pos <= e < size) (column_end line fuel pos).
Proof.
  revert pos. induction fuel as [|fuel IH]; intros pos Hp Hf; [lia|]. cbn [column_end]. at_pos pos c H0.
  assert (c <> 0 -> pos < size) as Hlt by (intros Hc; destruct (decide (pos = size)); [by rewrite H0 in Hc|lia]).
  fold size. ztest; try first [done|simpl; lia|eapply outcome_mono; [apply IH; lia|intros [e1 l]; simpl; lia]].
  eapply outcome_bind; [apply skip_quoted_outcome; subst size; unfold line_size in *; lia|]. intros p Hq. cbn beta in Hq.
  eapply outcome_mono; [apply IH; lia|]. intros [e1 l]. simpl. lia.
Qed.

Lemma columns_outcome fuel pos values : 0 <= pos <= size -> size - pos < Z.of_nat fuel -> outcome (fun '(_, e) => pos < e <= size) (columns line fuel pos values).
Proof.
  revert pos values. induction fuel as [|fuel IH]; intros pos values Hp Hf; [lia|]. cbn [columns].
  eapply outcome_bind; [apply column_end_outcome; subst size; unfold line_size in *; lia|]. intros [e []] He; [simpl; lia|].
  eapply outcome_mono; [apply IH; lia|]. intros [v p]. simpl. lia.
Qed.

Lemma getNextValues_outcome pos : 0 <= pos <= size ->
  outcome (fun r => match r with None => True | Some (_, _, p) => pos < p <= size end) (getNextValues line pos).
Proof.
  intros Hp. unfold getNextValues. at_pos pos c H0. fold size.
  assert (c <> 0 -> pos < size) as Hlt by (intros Hc; destruct (decide (pos = size)); [by rewrite H0 in Hc|lia]).
  destruct (Z.eqb_spec c 59).
  - destruct (Z.eqb_spec (pos + 1) size); [done|]. at_pos (pos + 1) nx Hnx. by destruct (_ && _).
  - destruct (Z.eqb_spec c 40); [|done]. eapply outcome_bind; [apply columns_outcome; subst size; unfold line_size in *; lia|].
    intros [v e1] He. cbn beta iota in He. at_pos e1 nx Hn. simpl. destruct (Z.eqb_spec nx 44); [|lia]. destruct (decide (e1 = size)) as [E|]; [specialize (Hn E)|]; lia.
Qed.

(** A comparison with a constant: the line has enough bytes, or is left. *)
Lemma memcmp_at_inside s pre post : line = pre ++ post -> (length s <= S (length post))%nat ->
  memcmp_at line (Z.of_nat (length pre)) s = Ret (bool_decide (take (length s) (post ++ [0]) = s)).
Proof.
  intros -> Hl. unfold memcmp_at, mem_range. rewrite !length_app. cbn [length].
  destruct (Z.ltb_spec (Z.of_nat (length pre)) 0); [lia|]. destruct (Z.ltb_spec (Z.of_nat (length s)) 0); [lia|]. cbn [orb].
  destruct (Z.ltb_spec (Z.of_nat (length pre + length post + 1)) (Z.of_nat (length pre) + Z.of_nat (length s))); [lia|].
  cbn [mbind res_bind]. by rewrite !Nat2Z.id, <- app_assoc, drop_app_length.
Qed.

Lemma memcmp_at_outside s pre post : line = pre ++ post -> (S (length post) < length s)%nat -> memcmp_at line (Z.of_nat (length pre)) s = Crash OutOfBounds.
Proof.
  intros -> Hl. unfold memcmp_at, mem_range. rewrite !length_app. cbn [length]. destruct (_ || _); [done|].
  destruct (Z.ltb_spec (Z.of_nat (length pre + length post + 1)) (Z.of_nat (length pre) + Z.of_nat (length s))); [done|lia].
Qed.

Lemma list_no_zero (s : list Z) : forallb (fun c => negb (c =? 0)) s = true -> 0 ∉ s.
Proof. rewrite forallb_forall. intros H Hin. by specialize (H 0 (proj1 (list_elem_of_In _ _) Hin)). Qed.

(** What follows a text without zeros that a line begins with. *)
Lemma take_zero (s post : list Z) : 0 ∉ s -> take (length s) (post ++ [0]) = s -> exists r, post = s ++ r.
Proof.
  intros H0 E. destruct (decide (length s <= length post)%nat) as [Hl|Hl].
  - exists (drop (length s) post). rewrite take_app_le in E by done. rewrite <- E at 1. by rewrite take_drop.
  - exfalso. apply H0. rewrite <- E. rewrite take_ge by (rewrite length_app; simpl; lia). apply elem_of_app. right. by left.
Qed.

(** Spaces are skipped to the first character that is not one. *)
Lemma skip_spaces_to fuel pre post : line = pre ++ post -> (length post < fuel)%nat ->
  skip_spaces_at line fuel (Z.of_nat (length pre)) = Ret (Z.of_nat (length line - length (skip_space post))).
Proof.
  revert pre post. induction fuel as [|fuel IH]; intros pre post El Hf; [lia|]. cbn [skip_spaces_at]. destruct post as [|c post].
  - assert (line_at line (Z.of_nat (length pre)) = Ret 0) as ->.
    { unfold line_at. rewrite El, app_nil_r. apply byte_at_app_0. }
    cbn [mbind res_bind skip_space]. change (isspace 0) with false. cbv iota. rewrite El, length_app. do 2 f_equal. cbn [length]. lia.
  - assert (line_at line (Z.of_nat (length pre)) = Ret c) as -> by (unfold line_at; rewrite El, <- app_assoc; apply byte_at_app_0).
    cbn [mbind res_bind skip_space]. destruct (isspace c).
    + specialize (IH (pre ++ [c]) post). rewrite <- app_assoc, length_app in IH. cbn [app length] in *.
      replace (Z.of_nat (length pre) + 1) with (Z.of_nat (length pre + 1)) by lia. apply IH; [done|lia].
    + rewrite El, length_app. do 2 f_equal. cbn [length]. lia.
Qed.

(** ** Rules *)

Lemma number_in_s v : in_s 64 (number v).
Proof. pose proof (digits_loop_nonneg 10 0 v ltac:(lia) ltac:(lia)). unfold number, in_s, LLONG_MAX. change (2 ^ (64 - 1)) with (2 ^ 63). lia. Qed.

Lemma column_values_in_s i values : map_Forall (fun _ v => in_s 64 v) (column_values i values).
Proof.
  revert i. induction values as [|v values IH]; intros i; cbn [column_values]; [apply map_Forall_empty|].
  destruct (isdigit _); [|case_bool_decide]; [..|done]; (apply map_Forall_insert_2; [|done]); [apply number_in_s|done].
Qed.

Definition rules_ok (evaluators : rules) : Prop := map_Forall (fun _ l => Forall well_formed l) evaluators.
Definition constants_ok (constants : gmap (list Z) Z) : Prop := map_Forall (fun _ v => in_s 64 v) constants.

Lemma accepted_outcome evals h : Forall well_formed evals -> hash_ok h -> outcome (fun _ => True) (accepted evals (ArgumentsHash.arguments h)).
Proof.
  intros He Hh. induction He as [|e evals He _ IH]; cbn [accepted]; [done|].
  pose proof (evaluate_outcome e (ArgumentsHash.arguments h) He (hash_args_ok h Hh)) as Ho.
  destruct (evaluate e _) as [v|x|c|]; simpl in *; [by destruct (v =? 0)|done|done|done].
Qed.

Lemma filter_rows_outcome fuel constants tname evals pos n out : Forall well_formed evals -> constants_ok constants ->
  0 <= pos <= size -> size - pos < Z.of_nat fuel -> outcome (fun _ => True) (filter_rows fuel constants tname line evals pos n out).
Proof.
  intros He Hc. revert pos n out. induction fuel as [|fuel IH]; intros pos n out Hp Hf; [lia|]. cbn [filter_rows].
  eapply outcome_bind; [by apply getNextValues_outcome|]. intros [[[values ins] p]|] Hr; cbn beta iota in *; [|done].
  eapply outcome_bind; [apply accepted_outcome; [done|split; [done|apply column_values_in_s]]|].
  intros [] _; apply IH; lia.
Qed.

Lemma find_char_bounds c l pos p : find_char c l pos = Some p -> pos <= p < pos + Z.of_nat (length l).
Proof.
  revert pos. induction l as [|x l IH]; intros pos; cbn [find_char]; [done|]. destruct (x =? c).
  - intros [= <-]. cbn [length]. lia.
  - intros H. apply IH in H. cbn [length]. lia.
Qed.

Lemma find_char_span c l pos : find_char c l pos =
  match snd (span (fun x => negb (x =? c)) l) with [] => None | _ => Some (pos + Z.of_nat (length (fst (span (fun x => negb (x =? c)) l)))) end.
Proof.
  revert pos. induction l as [|x l IH]; intros pos; [done|]. cbn [find_char span]. destruct (Z.eqb_spec x c); cbn [negb].
  - cbn [fst snd length]. f_equal. lia.
  - rewrite IH. destruct (span _ l) as [a [|y b]]; cbn [fst snd length]; [done|]. f_equal. lia.
Qed.

(** A line that ends where it is compared with [INSERT INTO `] or, behind the
    name of the table and spaces, with [VALUES]. *)
Definition too_short : bool :=
  (length line <? 12)%nat ||
  bool_decide (take 13 line = chars "INSERT INTO `") &&
    match snd (span (fun c => negb (c =? 96)) (drop 13 line)) with [] => false | _ :: rest => (length (skip_space rest) <? 5)%nat end.

Lemma skip_space_split l : exists sp, l = sp ++ skip_space l.
Proof.
  induction l as [|c l [sp IH]]; [by exists []|]. cbn [skip_space]. destruct (isspace c); [|by exists []].
  exists (c :: sp). cbn [app]. by rewrite <- IH.
Qed.

Lemma process_outcome evaluators constants : rules_ok evaluators -> constants_ok constants ->
  if too_short then processOneData evaluators constants line = Crash OutOfBounds
  else outcome (fun _ => True) (processOneData evaluators constants line).
Proof.
  intros Hr Hc. unfold processOneData, too_short. change (memcmp_at line 0) with (memcmp_at line (Z.of_nat (length (@nil Z)))).
  destruct (Nat.ltb_spec (length line) 12) as [Hs|Hs]; cbn [orb].
  { rewrite (memcmp_at_outside (chars "INSERT INTO `") [] line eq_refl); [done|]. change (length (chars _)) with 13%nat. lia. }
  rewrite (memcmp_at_inside (chars "INSERT INTO `") [] line eq_refl) by (change (length (chars _)) with 13%nat; lia). cbn [mbind res_bind].
  change (length (chars "INSERT INTO `")) with 13%nat. destruct (bool_decide (take 13 (line ++ [0]) = _)) eqn:Ei; cbn [negb]; cbv iota.
  2: { apply bool_decide_eq_false in Ei. rewrite bool_decide_eq_false_2; [done|]. intros E. apply Ei. apply (f_equal length) in E as El.
       rewrite length_take in El. change (length (chars _)) with 13%nat in El. by rewrite take_app_le by lia. }
  apply bool_decide_eq_true in Ei.
  apply (take_zero (chars "INSERT INTO `")) in Ei as [r Er]; [|apply list_no_zero; reflexivity].
  rewrite bool_decide_eq_true_2 by (rewrite Er; apply (take_app_length (chars "INSERT INTO `"))). cbn [andb].
  assert (drop 13 line = r) as -> by (rewrite Er; apply (drop_app_length (chars "INSERT INTO `"))).
  rewrite find_char_span. pose proof (span_app (fun x => negb (x =? 96)) r) as Ea.
  destruct (span _ r) as [t [|x rest]]; cbn [fst snd] in *; [done|].
  set (pre := chars "INSERT INTO `" ++ t ++ [x]). assert (line = pre ++ rest) as El by (subst pre; rewrite Er, <- Ea, <- !app_assoc; done).
  assert (13 + Z.of_nat (length t) + 1 = Z.of_nat (length pre)) as -> by (subst pre; rewrite !length_app; change (length (chars _)) with 13%nat; cbn [length]; lia).
  rewrite (skip_spaces_to _ pre rest El) by (rewrite El, length_app; lia). cbn [mbind res_bind].
  pose proof (length_skip_space rest) as Hls. pose proof (skip_space_split rest) as (sp & Esp).
  assert (line = (pre ++ sp) ++ skip_space rest) as El2 by (rewrite El, <- app_assoc, <- Esp; done).
  assert (length line - length (skip_space rest) = length (pre ++ sp))%nat as -> by (rewrite El2 at 1; rewrite length_app; lia).
  destruct (Nat.ltb_spec (length (skip_space rest)) 5) as [H5|H5].
  { rewrite (memcmp_at_outside (chars "VALUES") _ _ El2); [done|]. change (length (chars _)) with 6%nat. lia. }
  rewrite (memcmp_at_inside (chars "VALUES") _ _ El2) by (change (length (chars _)) with 6%nat; lia). cbn [mbind res_bind].
  case_bool_decide as Ev; cbn [negb]; [|done].
  apply (take_zero (chars "VALUES")) in Ev as [rows Ev]; [|apply list_no_zero; reflexivity].
  assert (Z.of_nat (length (pre ++ sp)) + 6 <= size) as H6.
  { assert (length line = length (pre ++ sp) + (6 + length rows))%nat as Hll by (rewrite El2 at 1; rewrite Ev; rewrite (length_app (pre ++ sp)), (length_app (chars "VALUES")); done).
    subst size. unfold line_size. lia. }
  eapply outcome_bind; [apply skip_spaces_outcome; [lia|subst size; unfold line_size in *; lia]|]. intros q Hq. cbn beta in Hq.
  destruct (evaluators !! _) as [evals|] eqn:Ee; [|done].
  eapply outcome_bind; [apply filter_rows_outcome; [by eapply Hr|done|lia|subst size; unfold line_size in *; lia]|].
  intros [n out] _. done.
Qed.

End Line.

(** ** Well-formed lines *)

(** A character in a quoted string, as it is or behind a backslash. *)
Inductive qchar := Lit (c : Z) | Esc (c : Z).
(** A column is made of characters and quoted strings. *)
Inductive part := Plain (c : Z) | Quoted (l : list qchar).

Abbreviation column := (list part).
Abbreviation row := (list column).

Definition qchar_text (q : qchar) : list Z := match q with Lit c => [c] | Esc c => [92; c] end.
Definition quoted_text (l : list qchar) : list Z := concat (qchar_text <$> l).
Definition part_text (p : part) : list Z := match p with Plain c => [c] | Quoted l => 39 :: quoted_text l ++ [39] end.
Definition column_text (c : column) : list Z := concat (part_text <$> c).

Definition qchar_ok (q : qchar) : Prop := match q with Lit c => c <> 39 /\ c <> 92 | Esc _ => True end.
Definition part_ok (p : part) : Prop := match p with Plain c => c <> 44 /\ c <> 41 /\ c <> 39 | Quoted l => Forall qchar_ok l end.
Definition column_ok (c : column) : Prop := Forall part_ok c.
Definition row_ok (r : row) : Prop := r <> [] /\ Forall column_ok r.

(** Texts with commas between them. *)
Fixpoint join (l : list (list Z)) : list Z :=
  match l with [] => [] | [x] => x | x :: l => x ++ [44] ++ join l end.

Definition row_text (r : row) : list Z := [40] ++ join (column_text <$> r) ++ [41].
Definition rows_text (rows : list row) : list Z := join (row_text <$> rows).

Definition insert_line (t : list Z) (rows : list row) (eol : list Z) : list Z :=
  chars "INSERT INTO `" ++ t ++ chars "` VALUES " ++ rows_text rows ++ [59] ++ eol.

Definition row_values (constants : gmap (list Z) Z) (r : row) : Arguments_ :=
  ArgumentsHash.arguments (ArgumentsHash.mk constants (column_values 0 (column_text <$> r))).

(** The line written for the rows that are kept. *)
Definition kept_line (t : list Z) (rows : list row) : list Z :=
  match rows with
  | [] => []
  | _ => chars "INSERT INTO " ++ t ++ chars " VALUES " ++ rows_text rows ++ chars ";" ++ [10]
  end.

(** *** Scanning them *)

Abbreviation len l := (Z.of_nat (length l)).

Lemma line_at_app pre c post : line_at (pre ++ c :: post) (len pre) = Ret c.
Proof. unfold line_at. rewrite <- app_assoc. apply byte_at_app_0. Qed.

Lemma mid_app pre t post : mid (pre ++ t ++ post) (len pre) (len t) = t.
Proof. unfold mid. by rewrite !Nat2Z.id, drop_app_length, take_app_length. Qed.

(** Scanning goes on behind a prefix. *)
Lemma shift_at (f : list Z -> Z -> Prop) pre c post :
  f ((pre ++ c) ++ post) (len (pre ++ c)) -> f (pre ++ c ++ post) (len pre + len c).
Proof. rewrite <- app_assoc, length_app, Nat2Z.inj_add. done. Qed.

Lemma skip_quoted_text l pre post fuel : Forall qchar_ok l -> (length (quoted_text l) < fuel)%nat ->
  skip_quoted (pre ++ quoted_text l ++ 39 :: post) fuel (len pre) = Ret (len pre + len (quoted_text l) + 1).
Proof.
  intros Hl. revert pre fuel. induction Hl as [|q l Hq _ IH]; intros pre [|fuel] Hf; try (simpl in Hf; lia).
  - cbn [quoted_text fmap list_fmap concat app skip_quoted]. rewrite line_at_app. simpl. f_equal. lia.
  - change (quoted_text (q :: l)) with (qchar_text q ++ quoted_text l) in *. rewrite length_app in *. rewrite <- app_assoc.
    destruct q as [c|c]; cbn [qchar_text app length] in *; cbn [skip_quoted]; rewrite line_at_app; cbn [mbind res_bind].
    + destruct Hq as [H39 H92]. specialize (IH (pre ++ [c]) fuel ltac:(lia)). rewrite <- app_assoc, length_app in IH. cbn [app length] in IH.
      replace (len pre + 1) with (Z.of_nat (length pre + 1)) by lia. unfold line_size. rewrite length_app. cbn [length]. ztest; rewrite IH; f_equal; lia.
    + specialize (IH (pre ++ [92; c]) fuel ltac:(lia)). rewrite <- app_assoc, length_app in IH. cbn [app length] in IH.
      replace (len pre + 2) with (Z.of_nat (length pre + 2)) by lia. unfold line_size. rewrite length_app. cbn [length Z.eqb Pos.eqb]. ztest; rewrite IH; f_equal; lia.
Qed.

Lemma column_end_text c pre x post fuel : column_ok c -> (x = 44 \/ x = 41) -> (length (column_text c) < fuel)%nat ->
  column_end (pre ++ column_text c ++ x :: post) fuel (len pre) = Ret (len pre + len (column_text c), x =? 41).
Proof.
  intros Hc Hx. revert pre fuel. induction Hc as [|p c Hp _ IH]; intros pre [|fuel] Hf; try (simpl in Hf; lia).
  - cbn [column_text fmap list_fmap concat app column_end]. rewrite line_at_app. destruct Hx as [-> | ->]; simpl; f_equal; f_equal; lia.
  - change (column_text (p :: c)) with (part_text p ++ column_text c) in *. rewrite length_app in *. rewrite <- app_assoc.
    destruct p as [b|l]; cbn [part_text app length] in *; cbn [column_end]; rewrite line_at_app; cbn [mbind res_bind].
    + destruct Hp as (H44 & H41 & H39). specialize (IH (pre ++ [b]) fuel ltac:(lia)). rewrite <- app_assoc, length_app in IH. cbn [app length] in IH.
      replace (len pre + 1) with (Z.of_nat (length pre + 1)) by lia. unfold line_size. rewrite length_app. cbn [length]. ztest; rewrite IH; f_equal; f_equal; lia.
    + cbn [Z.eqb Pos.eqb]. rewrite length_app in Hf. cbn [length] in Hf.
      pose proof (skip_quoted_text l (pre ++ [39]) (column_text c ++ x :: post)) as Hq. rewrite <- app_assoc in Hq. cbn [app] in Hq.
      rewrite length_app in Hq. cbn [length] in Hq. replace (len pre + 1) with (Z.of_nat (length pre + 1)) by lia.
      rewrite <- (app_assoc (quoted_text l)). cbn [app]. rewrite Hq; [|done|rewrite length_app; cbn [length]; rewrite length_app; lia]. cbn [mbind res_bind].
      specialize (IH (pre ++ 39 :: quoted_text l ++ [39]) fuel ltac:(lia)). rewrite <- app_assoc in IH. cbn [app] in IH. rewrite <- app_assoc in IH. cbn [app] in IH.
      rewrite length_app in IH. cbn [length] in IH. rewrite length_app in IH. cbn [length] in IH.
      replace (Z.of_nat (length pre + 1) + len (quoted_text l) + 1) with (Z.of_nat (length pre + S (length (quoted_text l) + 1))) by lia.
      rewrite IH. f_equal. f_equal. cbn [length]. rewrite length_app. cbn [length]. lia.
Qed.

Lemma columns_text cols pre post values fuel : cols <> [] -> Forall column_ok cols -> (length (join (column_text <$> cols)) < fuel)%nat ->
  columns (pre ++ join (column_text <$> cols) ++ 41 :: post) fuel (len pre) values =
    Ret (values ++ (column_text <$> cols), len pre + len (join (column_text <$> cols)) + 1).
Proof.
  intros Hne Hc. revert pre values fuel. induction cols as [|c cols IH]; [done|]. intros pre values [|fuel] Hf; [lia|].
  apply list.Forall_cons in Hc as [Hc Hcs]. destruct cols as [|c2 cols].
  - cbn [fmap list_fmap join columns] in *. rewrite (column_end_text c pre 41 post); [|done|by right|rewrite length_app; cbn [length]; rewrite length_app; lia].
    cbn [mbind res_bind]. change (41 =? 41) with true. cbn iota.
    replace (len pre + len (column_text c) - len pre) with (len (column_text c)) by lia. by rewrite mid_app.
  - set (rest := join (column_text <$> c2 :: cols)) in *.
    assert (join (column_text <$> c :: c2 :: cols) = column_text c ++ 44 :: rest) as Ej by done. rewrite Ej in *. rewrite <- app_assoc. cbn [app columns].
    rewrite (column_end_text c pre 44); [|done|by left|rewrite !length_app; lia].
    cbn [mbind res_bind]. change (44 =? 41) with false. cbn iota.
    replace (len pre + len (column_text c) - len pre) with (len (column_text c)) by lia. rewrite mid_app.
    rewrite length_app in Hf. cbn [length] in Hf.
    specialize (IH ltac:(done) Hcs (pre ++ column_text c ++ [44]) (values ++ [column_text c]) fuel ltac:(lia)). fold rest in IH.
    rewrite <- !app_assoc in IH. cbn [app] in IH. rewrite !length_app in IH. cbn [length] in IH.
    replace (len pre + len (column_text c) + 1) with (Z.of_nat (length pre + (length (column_text c) + 1))) by lia. rewrite IH.
    f_equal. f_equal. rewrite length_app. cbn [length]. lia.
Qed.

Lemma row_next r pre x post : row_ok r ->
  getNextValues (pre ++ row_text r ++ x :: post) (len pre) =
    Ret (Some (column_text <$> r, row_text r, len pre + len (row_text r) + (if x =? 44 then 1 else 0))).
Proof.
  intros [Hne Hr]. unfold row_text. cbn [app]. rewrite <- !app_assoc. cbn [app]. unfold getNextValues. rewrite line_at_app. cbn [mbind res_bind].
  change (40 =? 59) with false. change (40 =? 40) with true. cbn iota.
  set (line := pre ++ _). assert (line = (pre ++ [40]) ++ join (column_text <$> r) ++ 41 :: x :: post) as El by (subst line; by rewrite <- app_assoc).
  pose proof (columns_text r (pre ++ [40]) (x :: post) [] (S (length line)) Hne Hr) as H. rewrite <- El in H.
  rewrite length_app in H. cbn [length] in H. replace (len pre + 1) with (Z.of_nat (length pre + 1)) by lia.
  rewrite H; [|rewrite El, !length_app; lia]. cbn [mbind res_bind].
  assert (line = (pre ++ 40 :: join (column_text <$> r) ++ [41]) ++ x :: post) as El2 by (subst line; rewrite <- app_assoc; cbn [app]; by rewrite <- app_assoc).
  replace (Z.of_nat (length pre + 1) + len (join (column_text <$> r)) + 1) with (len (pre ++ 40 :: join (column_text <$> r) ++ [41])) by (rewrite length_app; cbn [length]; rewrite length_app; cbn [length]; lia).
  rewrite El2 at 1. rewrite line_at_app. cbn [mbind res_bind]. f_equal. f_equal. f_equal; [f_equal|].
  - rewrite El2, <- app_assoc. rewrite length_app. replace (_ - len pre) with (len (40 :: join (column_text <$> r) ++ [41])) by lia. apply mid_app.
  - rewrite length_app. destruct (x =? 44); lia.
Qed.

Lemma row_text_cons r : exists t, row_text r = 40 :: t.
Proof. by eexists. Qed.

(** *** Keeping rows *)

Section Keep.
Variable constants : gmap (list Z) Z.
Variable evals : list Expression.
Variable verdict : row -> bool.

(** What the loop appends for the rows after [n] accepted ones. *)
Fixpoint emitted (t : list Z) (n : Z) (rows : list row) : list Z :=
  match rows with
  | [] => []
  | r :: rows =>
    if verdict r then (if n =? 0 then chars "INSERT INTO " ++ t ++ chars " VALUES " else [44]) ++ row_text r ++ emitted t (n + 1) rows
    else emitted t n rows
  end.

Fixpoint count_kept (rows : list row) : Z :=
  match rows with [] => 0 | r :: rows => (if verdict r then 1 else 0) + count_kept rows end.

Lemma filter_rows_text t rows pre eol fuel n out : rows <> [] -> Forall row_ok rows ->
  Forall (fun r => accepted evals (row_values constants r) = Ret (verdict r)) rows -> eol = [] \/ eol = [10] ->
  (length rows < fuel)%nat ->
  filter_rows fuel constants t (pre ++ rows_text rows ++ 59 :: eol) evals (len pre) n out =
    Ret (n + count_kept rows, out ++ emitted t n rows).
Proof.
  intros Hne Hok Ha He. revert pre fuel n out. induction rows as [|r rows IH]; [done|]. intros pre [|fuel] n out Hf; [lia|].
  apply list.Forall_cons in Hok as [Hr Hok]. apply list.Forall_cons in Ha as [Har Ha]. cbn [length] in Hf.
  cbn [filter_rows].
  assert (forall fuel n out rest, rest = match rows with [] => 59 :: eol | _ => rows_text rows ++ 59 :: eol end ->
    (length rows < fuel)%nat ->
    filter_rows fuel constants t (pre ++ row_text r ++ (match rows with [] => [] | _ => [44] end) ++ rest) evals
      (len pre + len (row_text r) + (match rows with [] => 0 | _ => 1 end)) n out = Ret (n + count_kept rows, out ++ emitted t n rows)) as Hrest.
  { intros f m o rest -> Hf'. destruct rows as [|r2 rows].
    - destruct f as [|f]; [lia|]. cbn [filter_rows app count_kept emitted]. rewrite Z.add_0_r. rewrite <- Nat2Z.inj_add, <- length_app.
      rewrite app_assoc. unfold getNextValues. rewrite line_at_app. cbn [mbind res_bind]. change (59 =? 59) with true. cbn iota.
      assert (forall e, line_size ((pre ++ row_text r) ++ 59 :: e) = len (pre ++ row_text r) + 1 + len e) as Els by (intros e; unfold line_size; rewrite (length_app _ (59 :: e)); cbn [length]; lia).
      rewrite Els. destruct He as [-> | ->].
      + destruct (Z.eqb_spec (len (pre ++ row_text r) + 1) (len (pre ++ row_text r) + 1 + len (@nil Z))) as [_|E]; [|simpl in E; lia].
        cbn [mbind res_bind]. by rewrite app_nil_r, Z.add_0_r.
      + destruct (Z.eqb_spec (len (pre ++ row_text r) + 1) (len (pre ++ row_text r) + 1 + len [10])) as [E|_]; [simpl in E; lia|].
        replace (len (pre ++ row_text r) + 1) with (len ((pre ++ row_text r) ++ [59])) at 1 by (rewrite (length_app _ [59]); cbn [length]; lia).
        replace ((pre ++ row_text r) ++ [59; 10]) with (((pre ++ row_text r) ++ [59]) ++ 10 :: []) by (by rewrite <- app_assoc).
        rewrite line_at_app. cbn [mbind res_bind]. change (10 =? 10) with true.
        destruct (Z.eqb_spec (len (pre ++ row_text r) + 2) (len (pre ++ row_text r) + 1 + len [10])) as [_|E]; [|simpl in E; lia].
        cbn [andb mbind res_bind]. by rewrite app_nil_r, Z.add_0_r.
    - specialize (IH ltac:(done) Hok Ha (pre ++ row_text r ++ [44]) f m o Hf').
      rewrite <- !app_assoc in IH. rewrite !length_app in IH. cbn [length] in IH.
      replace (len pre + len (row_text r) + 1) with (Z.of_nat (length pre + (length (row_text r) + 1))) by lia. done. }
  assert (pre ++ rows_text (r :: rows) ++ 59 :: eol = pre ++ row_text r ++ (match rows with [] => [] | _ => [44] end) ++ (match rows with [] => 59 :: eol | _ => rows_text rows ++ 59 :: eol end)) as El.
  { destruct rows as [|r2 rows]; [done|]. change (rows_text (r :: r2 :: rows)) with (row_text r ++ [44] ++ rows_text (r2 :: rows)). by rewrite <- !app_assoc. }
  rewrite El.
  assert (getNextValues (pre ++ row_text r ++ (match rows with [] => [] | _ => [44] end) ++ (match rows with [] => 59 :: eol | _ => rows_text rows ++ 59 :: eol end)) (len pre) =
    Ret (Some (column_text <$> r, row_text r, len pre + len (row_text r) + match rows with [] => 0 | _ => 1 end))) as ->.
  { destruct rows as [|r2 rows]; [exact (row_next r pre 59 eol Hr)|exact (row_next r pre 44 _ Hr)]. }
  cbn [mbind res_bind]. fold (row_values constants r). rewrite Har. cbn [mbind res_bind]. cbn [count_kept emitted].
  destruct (verdict r); (rewrite (Hrest fuel _ _ _ eq_refl ltac:(lia))); f_equal; f_equal; try lia.
  by rewrite <- !app_assoc.
Qed.

Lemma emitted_later t n rows : 0 < n -> emitted t n rows = concat ((fun r => 44 :: row_text r) <$> filter (fun r => verdict r = true) rows).
Proof.
  revert n. induction rows as [|r rows IH]; intros n Hn; [done|]. cbn [emitted]. rewrite filter_cons. destruct (verdict r) eqn:E; cbn [decide].
  - rewrite (proj2 (Z.eqb_neq _ _)) by lia. rewrite decide_True by done. cbn [fmap list_fmap concat app]. rewrite IH by lia. done.
  - rewrite decide_False by done. by apply IH.
Qed.

Lemma rows_text_later r rows : rows_text (r :: rows) = row_text r ++ concat ((fun r => 44 :: row_text r) <$> rows).
Proof.
  revert r. induction rows as [|r2 rows IH]; intros r; [by rewrite app_nil_r|].
  change (rows_text (r :: r2 :: rows)) with (row_text r ++ [44] ++ rows_text (r2 :: rows)). by rewrite IH.
Qed.

Lemma emitted_first t rows : emitted t 0 rows =
  match filter (fun r => verdict r = true) rows with [] => [] | kept => chars "INSERT INTO " ++ t ++ chars " VALUES " ++ rows_text kept end.
Proof.
  induction rows as [|r rows IH]; [done|]. cbn [emitted]. rewrite filter_cons. destruct (verdict r) eqn:E.
  - rewrite decide_True by done. change (0 =? 0) with true. cbn iota. rewrite rows_text_later, emitted_later by lia. by rewrite <- !app_assoc.
  - rewrite decide_False by done. exact IH.
Qed.

Lemma count_kept_len rows : count_kept rows = len (filter (fun r => verdict r = true) rows).
Proof.
  induction rows as [|r rows IH]; [done|]. cbn [count_kept]. rewrite filter_cons, IH. destruct (verdict r).
  - rewrite decide_True by done. cbn [length]. lia.
  - rewrite decide_False by done. done.
Qed.

End Keep.

Lemma memcmp_at_text s pre post : memcmp_at (pre ++ s ++ post) (len pre) s = Ret true.
Proof.
  rewrite (memcmp_at_inside _ s pre (s ++ post) eq_refl) by (rewrite length_app; lia).
  by rewrite <- app_assoc, take_app_length, bool_decide_eq_true_2.
Qed.

Lemma find_char_text c t post pos : c ∉ t -> find_char c (t ++ c :: post) pos = Some (pos + len t).
Proof.
  revert pos. induction t as [|x t IH]; intros pos Hc; cbn [find_char app length].
  - rewrite Z.eqb_refl. f_equal. simpl. lia.
  - apply not_elem_of_cons in Hc as [Hx Hc]. rewrite (proj2 (Z.eqb_neq _ _)) by done. rewrite IH by done. f_equal. lia.
Qed.

Lemma row_open rows eol : rows <> [] -> exists r, rows_text rows ++ 59 :: eol = 40 :: r.
Proof. destruct rows as [|r [|r2 rows]]; [done| |]; intros _; by eexists. Qed.

Lemma rows_text_length rows : (length rows <= length (rows_text rows))%nat.
Proof.
  destruct rows as [|r rows]; [done|]. rewrite rows_text_later, length_app. cbn [length].
  assert (1 <= length (row_text r))%nat by (unfold row_text; simpl; lia).
  assert (length rows <= length (concat ((fun r => 44%Z :: row_text r) <$> rows)))%nat; [|lia].
  induction rows as [|r2 rows IH]; [done|]. rewrite fmap_cons. cbn [concat]. rewrite length_app. cbn [length]. lia.
Qed.

(** Behind the name of the table: a space, VALUES, a space and the rows. *)
Lemma after_name pre r :
  let line := pre ++ 32 :: chars "VALUES" ++ 32 :: 40 :: r in
  skip_spaces_at line (S (length line)) (len pre) = Ret (len pre + 1) /\
  memcmp_at line (len pre + 1) (chars "VALUES") = Ret true /\
  skip_spaces_at line (S (length line)) (len pre + 1 + 6) = Ret (len (pre ++ [32] ++ chars "VALUES" ++ [32])).
Proof.
  intros line. assert (exists k, S (length line) = S (S k)) as [k ->] by (exists (length line - 1)%nat; subst line; rewrite length_app; cbn [length]; lia).
  assert (forall l c post, line = (pre ++ l) ++ c :: post -> line_at line (len pre + len l) = Ret c) as Hat.
  { intros l c post ->. rewrite <- Nat2Z.inj_add, <- length_app. apply line_at_app. }
  assert (line_at line (len pre) = Ret 32) as H0 by apply line_at_app.
  assert (line_at line (len pre + 1) = Ret 86) as H1 by (eapply (Hat [32]); by rewrite <- app_assoc).
  assert (line_at line (len pre + 1 + 6) = Ret 32) as H7 by (rewrite <- Z.add_assoc; eapply (Hat ([32] ++ chars "VALUES")); by rewrite <- !app_assoc).
  assert (line_at line (len pre + 1 + 6 + 1) = Ret 40) as H8 by (rewrite <- !Z.add_assoc; eapply (Hat ([32] ++ chars "VALUES" ++ [32])); by rewrite <- !app_assoc).
  split_and!.
  - cbn [skip_spaces_at]. rewrite H0. cbn [mbind res_bind]. change (isspace 32) with true. cbn iota. by rewrite H1.
  - pose proof (memcmp_at_text (chars "VALUES") (pre ++ [32]) (32 :: 40 :: r)) as H. rewrite <- app_assoc, length_app in H. cbn [length] in H.
    by replace (len pre + 1) with (Z.of_nat (length pre + 1)) by lia.
  - cbn [skip_spaces_at]. rewrite H7. cbn [mbind res_bind]. change (isspace 32) with true. cbn iota. rewrite H8. cbn [mbind res_bind]. change (isspace 40) with false.
    rewrite !length_app. change (length (chars "VALUES")) with 6%nat. cbn [length]. f_equal. lia.
Qed.

Lemma keep_line evaluators constants evals verdict t rows eol : evaluators !! t = Some evals -> 96 ∉ t -> rows <> [] -> Forall row_ok rows ->
  Forall (fun r => accepted evals (row_values constants r) = Ret (verdict r)) rows -> eol = [] \/ eol = [10] ->
  processOneData evaluators constants (insert_line t rows eol) = Ret (kept_line t (filter (fun r => verdict r = true) rows)).
Proof.
  intros Ht Hq Hne Hok Ha He. unfold processOneData.
  set (line := insert_line t rows eol). set (body := rows_text rows ++ 59 :: eol).
  assert (line = chars "INSERT INTO `" ++ t ++ 96 :: 32 :: chars "VALUES" ++ 32 :: body) as El by done.
  assert (memcmp_at line 0 (chars "INSERT INTO `") = Ret true) as -> by (rewrite El; exact (memcmp_at_text (chars "INSERT INTO `") [] _)).
  cbn [mbind res_bind negb].
  assert (drop 13 line = t ++ 96 :: 32 :: chars "VALUES" ++ 32 :: body) as -> by (rewrite El; apply (drop_app_length (chars "INSERT INTO `"))).
  rewrite find_char_text by done. cbv zeta.
  assert (mid line 13 (13 + len t - 13) = t) as ->.
  { rewrite El. replace (13 + len t - 13) with (len t) by lia. apply (mid_app (chars "INSERT INTO `")). }
  set (pre := chars "INSERT INTO `" ++ t ++ [96]).
  assert (line = pre ++ 32 :: chars "VALUES" ++ 32 :: body) as El2 by (rewrite El; subst pre; by rewrite <- !app_assoc).
  assert (13 + len t + 1 = len pre) as Ep by (subst pre; rewrite !length_app; change (length (chars "INSERT INTO `")) with 13%nat; simpl; lia).
  destruct (row_open rows eol Hne) as [r Hr]. fold body in Hr. rewrite Hr in El2.
  rewrite Ep. destruct (after_name pre r) as (H1 & H2 & H3). rewrite <- El2 in H1, H2, H3. rewrite H1. cbn [mbind res_bind]. rewrite H2. cbn [mbind res_bind negb]. rewrite H3.
  set (pre2 := pre ++ [32] ++ chars "VALUES" ++ [32]). rewrite <- Hr in El2.
  assert (line = pre2 ++ body) as El3 by (rewrite El2; subst pre2; by rewrite <- !app_assoc).
  cbn [mbind res_bind]. rewrite Ht.
  assert (length rows < S (length line))%nat as Hf.
  { rewrite El3, length_app. subst body. rewrite length_app. pose proof (rows_text_length rows). lia. }
  pose proof (filter_rows_text constants evals verdict t rows pre2 eol (S (length line)) 0 [] Hne Hok Ha He Hf) as H. fold body in H. rewrite <- El3 in H. rewrite H.
  cbn [mbind res_bind]. rewrite count_kept_len, emitted_first. unfold kept_line.
  destruct (filter (fun r => verdict r = true) rows) as [|r1 kept]; [done|].
  rewrite (proj2 (Z.eqb_neq _ _)) by (cbn [length]; lia). cbn [app]. by rewrite <- !app_assoc.
Qed.

(** ** Rule files *)

Definition not_blank (line : list Z) : Prop := exists c, c ∈ line /\ isspace c = false.

Lemma trim_right_ok fuel line : not_blank line -> (length line < fuel)%nat -> exists l, trim_right fuel line = Ret l.
Proof.
  revert line. induction fuel as [|fuel IH]; intros line (c & Hc & Hs) Hf; [lia|]. cbn [trim_right].
  destruct line as [|x line _] using rev_ind; [by apply not_elem_of_nil in Hc|].
  rewrite length_app in *. cbn [length] in *. replace (Z.of_nat (length line + 1) - 1) with (Z.of_nat (length line)) by lia.
  rewrite byte_at_app_0. cbn [mbind res_bind]. destruct (isspace x) eqn:Ex; [|by eexists].
  rewrite Nat.add_sub, take_app_length. apply IH; [|lia]. exists c. split; [|done].
  apply elem_of_app in Hc as [Hc|Hc]; [done|]. apply list_elem_of_singleton in Hc. congruence.
Qed.

Lemma rule_line_ok evaluators line : rules_ok evaluators -> not_blank line -> ends_in rules_ok (rule_line evaluators line).
Proof.
  intros Hr Hb. unfold rule_line. destruct (trim_right_ok (S (length line)) line Hb ltac:(lia)) as [l ->]. cbn [mbind res_bind].
  destruct (_ || _); [done|]. destruct (span is_table_char (skip_space l)) as [t te]. destruct (_ || _); [by left|].
  eapply ends_in_bind; [apply parseExpression_ok|]. intros e He. simpl. apply map_Forall_insert_2; [|done].
  apply Forall_app. split; [|by repeat constructor]. destruct (evaluators !! t) as [l0|] eqn:E; [by eapply Hr|constructor].
Qed.

Lemma addRuleFile_ok evaluators file : rules_ok evaluators -> Forall not_blank file -> ends_in rules_ok (addRuleFile evaluators file).
Proof.
  intros Hr Hf. revert evaluators Hr. induction Hf as [|line file Hl _ IH]; intros ev Hr; [done|]. cbn [addRuleFile].
  eapply ends_in_bind; [by apply rule_line_ok|]. exact IH.
Qed.

(** ** Theorems *)

(** C36. A rule file without blank lines is loaded, or refused for its syntax,
    whatever else is in it; with rules that were loaded, [processOneData] on any
    line, well-formed or not, ends, and reads nothing outside the line and its
    terminating zero, with one exception: [memcmp] is given thirteen bytes of the
    line, and six behind the name of its table, and accesses memory behind the
    line exactly if it is [too_short] for one of them. On every other line it
    gives a text, throws the exception for a malformed line, or divides by zero
    or shifts too far in a rule. *)
Theorem filter_safe file constants line : Forall not_blank file -> constants_ok constants ->
  ends_in (fun evaluators =>
    if too_short line then processOneData evaluators constants line = Crash OutOfBounds
    else outcome (fun _ => True) (processOneData evaluators constants line)) (addRuleFile ∅ file).
Proof.
  intros Hf Hc. pose proof (addRuleFile_ok ∅ file (map_Forall_empty _) Hf) as H.
  destruct (addRuleFile ∅ file) as [ev|e|c|]; [|done..]. by apply process_outcome.
Qed.

(** C29. On a line [INSERT INTO `t` VALUES (...),(...);] whose columns are
    well-formed, with quoted strings in which the delimiters and escaped quotes
    do not count, [processOneData] gives one INSERT of exactly the rows that a
    rule of the table accepts, as they stand in the line and in their order, or
    nothing when there is none. *)
Theorem filter_keeps evaluators constants evals verdict t rows eol : evaluators !! t = Some evals -> 96 ∉ t -> rows <> [] -> Forall row_ok rows ->
  Forall (fun r => accepted evals (row_values constants r) = Ret (verdict r)) rows -> eol = [] \/ eol = [10] ->
  processOneData evaluators constants (insert_line t rows eol) = Ret (kept_line t (filter (fun r => verdict r = true) rows)).
Proof. apply keep_line. Qed.

(** The rule [#0 > 1] on two rows, the first with a quoted comma. *)
Definition rule_gt1 : Expression := IntBinaryFullExpression OP_BinGreater (ValueExpression 0) (DirectExpression 1).
Definition row_1 : row := [[Plain 49]; [Quoted [Lit 44; Esc 39]]].
Definition row_2 : row := [[Plain 50]; [Quoted [Lit 41]]].
Definition row_first (r : row) : bool := bool_decide (column_text <$> take 1 r = [[50]]).

Lemma filter_safe_witness : exists evaluators, addRuleFile ∅ [chars "# rules"; chars "t: \0 / 2 > 1"] = Ret evaluators /\
  outcome (fun _ => True) (processOneData evaluators ∅ (chars "INSERT INTO `t` VALUES (1")).
Proof.
  assert (Forall not_blank [chars "# rules"; chars "t: \0 / 2 > 1"]) as Hb.
  { apply list.Forall_cons. split; [|apply list.Forall_cons; split; [|done]]; [exists 35|exists 116]; (split; [|done]); by vm_compute; left. }
  pose proof (filter_safe [chars "# rules"; chars "t: \0 / 2 > 1"] ∅ (chars "INSERT INTO `t` VALUES (1") Hb (map_Forall_empty _)) as H.
  destruct (addRuleFile ∅ [chars "# rules"; chars "t: \0 / 2 > 1"]) as [ev|e|c|] eqn:E; [|vm_compute in E; discriminate E..].
  exists ev. split; [done|exact H].
Defined.

(** An empty line, and one that ends behind the name of its table. *)
Example short_lines : processOneData ∅ ∅ [10] = Crash OutOfBounds /\ processOneData ∅ ∅ (chars "INSERT INTO `t` VAL") = Crash OutOfBounds.
Proof. split; vm_compute; reflexivity. Qed.

(** A blank line in a rule file is read before its start. *)
Example blank_rule_line : addRuleFile ∅ [[10]] = Crash OutOfBounds.
Proof. reflexivity. Qed.

Lemma filter_keeps_witness : processOneData {[ chars "t" := [rule_gt1] ]} ∅ (insert_line (chars "t") [row_1; row_2] [10]) = Ret (kept_line (chars "t") [row_2]).
Proof.
  rewrite (filter_keeps _ _ [rule_gt1] row_first (chars "t") [row_1; row_2] [10]).
  - vm_compute. reflexivity.
  - apply lookup_singleton_eq.
  - vm_compute. intros H. by apply list_elem_of_singleton in H.
  - done.
  - repeat constructor; done.
  - repeat constructor.
  - by right.
Defined.
