(* ===== verification/QueueManager.v ===== *)
(** * sql/sqldump_filt: QueueManager and its threads

    The queue between the thread that reads the dump ([main.cxx]) and the
    workers. [access_lock] is held over each of the member functions but while
    they wait, so one function, up to its end or its [wait], is one step of the
    system; a thread that waits sleeps until it is signalled, and then takes the
    lock again. The interleaving of the steps, the choice of the thread that a
    signal wakes and spurious wakeups are those of the step relation. *)

From stdpp Require Import gmap.
From S2P Require Import Prelude Machine.

#[local] Open Scope list_scope.

(** ** The queue *)

(** [proc_counter] and [return_counter] count lines; [num_free_workers],
    [max_workers] and [max_pending] are [unsigned]. *)
Record queue := mk_queue {
  waiting_data : list (list Z);
  processed_data : gmap Z (list Z);
  proc_counter : Z;
  return_counter : Z;
  num_free_workers : Z;
  max_workers : Z;
  max_pending : Z;
  is_waiting : bool;
}.

Definition create : queue := mk_queue [] ∅ 0 0 0 1 2 false.

Definition setNumWorkers (n : Z) (q : queue) : queue :=
  mk_queue (waiting_data q) (processed_data q) (proc_counter q) (return_counter q) (num_free_workers q) n (max_pending q) (is_waiting q).
Definition setNumPending (n : Z) (q : queue) : queue :=
  mk_queue (waiting_data q) (processed_data q) (proc_counter q) (return_counter q) (num_free_workers q) (max_workers q) n (is_waiting q).
Definition set_waiting (b : bool) (q : queue) : queue :=
  mk_queue (waiting_data q) (processed_data q) (proc_counter q) (return_counter q) (num_free_workers q) (max_workers q) (max_pending q) b.
Definition set_free (n : Z) (q : queue) : queue :=
  mk_queue (waiting_data q) (processed_data q) (proc_counter q) (return_counter q) (u32 n) (max_workers q) (max_pending q) (is_waiting q).
Definition set_waiting_data (l : list (list Z)) (q : queue) : queue :=
  mk_queue l (processed_data q) (proc_counter q) (return_counter q) (num_free_workers q) (max_workers q) (max_pending q) (is_waiting q).
Definition set_processed (m : gmap Z (list Z)) (q : queue) : queue :=
  mk_queue (waiting_data q) m (proc_counter q) (return_counter q) (num_free_workers q) (max_workers q) (max_pending q) (is_waiting q).

(** One turn of the loop of [getNextWork]: no more work, a line with its
    number (and a signal), or waiting. *)
Inductive get_result := G_Quit | G_Work (id : Z) (data : list Z) (q : queue) | G_Wait.

Definition getNextWork (q : queue) : get_result :=
  if max_workers q =? 0 then G_Quit
  else
    match waiting_data q with
    | data :: rest =>
      G_Work (proc_counter q) data
        (mk_queue rest (processed_data q) (proc_counter q + 1) (return_counter q) (u32 (num_free_workers q - 1)) (max_workers q) (max_pending q) (is_waiting q))
    | [] => G_Wait
    end.

(** The new queue, and whether the waiting threads are woken. *)
Definition putProcessedData (id : Z) (data : list Z) (q : queue) : queue * bool :=
  (set_free (num_free_workers q + 1) (set_processed (<[id := data]> (processed_data q)) q), is_waiting q && (id =? return_counter q)).

(** What [putNextWork] does for the line it appended. *)
Inductive work_call := Spawn | Signal | Nothing.

Definition counts (q : queue) : Z := Z.of_nat (length (waiting_data q)) + Z.of_nat (size (processed_data q)).

(** [all_workers.count()] is [workers]. *)
Definition putNextWork (data : list Z) (workers : Z) (q : queue) : queue * work_call * bool :=
  let q := set_waiting_data (waiting_data q ++ [data]) q in
  let '(q, call) :=
    if num_free_workers q <? Z.of_nat (length (waiting_data q)) then
      if workers <? max_workers q then (set_free (num_free_workers q + 1) q, Spawn) else (q, Nothing)
    else (q, Signal) in
  (q, call, (max_pending q <? u64 (counts q - num_free_workers q)) || bool_decide (is_Some (processed_data q !! return_counter q))).

(** One turn of the loop of [waitProcessedData]: the next result, null, or
    waiting. *)
Inductive pop_result := P_Data (data : list Z) (q : queue) | P_Null | P_Wait.

Definition waitProcessedData (q : queue) : pop_result :=
  match processed_data q !! return_counter q with
  | Some data =>
    P_Data data (mk_queue (waiting_data q) (delete (return_counter q) (processed_data q)) (proc_counter q) (return_counter q + 1)
      (num_free_workers q) (max_workers q) (max_pending q) (is_waiting q))
  | None => if return_counter q =? proc_counter q then P_Null else P_Wait
  end.

(** ** Threads *)

(** A worker: about to take the lock in [getNextWork], waiting in it, between
    [getNextWork] and [putProcessedData], ended by an exception of
    [processOneData], ended. *)
Inductive worker := W_Lock | W_Sleep | W_Busy (id : Z) (data : list Z) | W_Failed (id : Z) (data : list Z) | W_Done.

(** Where the main thread calls [waitProcessedData]: in the loop over the input
    or after it. *)
Inductive phase := InLoop | AtEnd.

(** The main thread: about to read a line, about to take the lock in
    [waitProcessedData], waiting in it, woken, in [destroy]: at its start,
    joining the workers, ended. *)
Inductive main_state := M_Read | M_Pop (p : phase) | M_Sleep (p : phase) | M_Woken (p : phase) | M_Destroy | M_Join | M_End.

Record sys := mk_sys {
  q_of : queue;
  workers : list worker;
  main : main_state;
  input : list (list Z);
  output : list (list Z);
}.

Definition wake_worker (w : worker) : worker := match w with W_Sleep => W_Lock | w => w end.
Definition wake_main (m : main_state) : main_state := match m with M_Sleep p => M_Woken p | m => m end.

Definition broadcast (s : sys) : sys := mk_sys (q_of s) (wake_worker <$> workers s) (wake_main (main s)) (input s) (output s).

Definition set_worker (i : nat) (w : worker) (s : sys) : sys := mk_sys (q_of s) (<[i := w]> (workers s)) (main s) (input s) (output s).
Definition set_main (m : main_state) (s : sys) : sys := mk_sys (q_of s) (workers s) m (input s) (output s).
Definition set_queue (q : queue) (s : sys) : sys := mk_sys q (workers s) (main s) (input s) (output s).

(** [signal] wakes one of the threads that wait, if there is one. *)
Inductive signalled (s : sys) : sys -> Prop :=
| sig_worker i : workers s !! i = Some W_Sleep -> signalled s (set_worker i W_Lock s)
| sig_main p : main s = M_Sleep p -> signalled s (set_main (M_Woken p) s)
| sig_none : W_Sleep ∉ workers s -> (forall p, main s <> M_Sleep p) -> signalled s s.

(** After [waitProcessedData] the main thread reads on or ends. *)
Definition after_null (p : phase) : main_state := match p with InLoop => M_Read | AtEnd => M_Destroy end.
Definition after_data (p : phase) : main_state := match p with InLoop => M_Read | AtEnd => M_Pop AtEnd end.

(** The main thread with the lock in [waitProcessedData]. *)
Definition pop (p : phase) (s : sys) : sys :=
  match waitProcessedData (q_of s) with
  | P_Data data q => mk_sys q (workers s) (after_data p) (input s) (output s ++ [data])
  | P_Null => set_main (after_null p) s
  | P_Wait => set_main (M_Sleep p) (set_queue (set_waiting true (q_of s)) s)
  end.

Section System.

(** [processOneData]. *)
Variable process : list Z -> res (list Z).

(** The steps of the system; [true] for a spurious wakeup. *)
Inductive step : bool -> sys -> sys -> Prop :=
| step_quit s i : workers s !! i = Some W_Lock -> getNextWork (q_of s) = G_Quit -> step false s (set_worker i W_Done s)
| step_get s s' i id data q : workers s !! i = Some W_Lock -> getNextWork (q_of s) = G_Work id data q ->
    signalled (set_queue q (set_worker i (W_Busy id data) s)) s' -> step false s s'
| step_wait s i : workers s !! i = Some W_Lock -> getNextWork (q_of s) = G_Wait -> step false s (set_worker i W_Sleep s)
| step_put s i id data out q wake : workers s !! i = Some (W_Busy id data) -> process data = Ret out ->
    putProcessedData id out (q_of s) = (q, wake) ->
    step false s ((if wake : bool then broadcast else fun s => s) (set_queue q (set_worker i W_Lock s)))
| step_fail s i id data e : workers s !! i = Some (W_Busy id data) -> process data = Exn e -> step false s (set_worker i (W_Failed id data) s)
| step_read s s' line rest q call over : main s = M_Read -> input s = line :: rest ->
    putNextWork line (Z.of_nat (length (workers s))) (q_of s) = (q, call, over) ->
    (let m := if over : bool then M_Pop InLoop else M_Read in
     match call with
     | Spawn => s' = mk_sys q (W_Lock :: workers s) m rest (output s)
     | Signal => signalled (mk_sys q (workers s) m rest (output s)) s'
     | Nothing => s' = mk_sys q (workers s) m rest (output s)
     end) -> step false s s'
| step_end_input s : main s = M_Read -> input s = [] -> step false s (set_main (M_Pop AtEnd) s)
| step_pop s p : main s = M_Pop p -> step false s (pop p s)
| step_woken s p : main s = M_Woken p -> step false s (pop p (set_queue (set_waiting false (q_of s)) s))
| step_destroy s : main s = M_Destroy -> step false s (broadcast (set_main M_Join (set_queue (setNumWorkers 0 (q_of s)) s)))
| step_join s w rest : main s = M_Join -> workers s = w :: rest -> (w = W_Done \/ exists id data, w = W_Failed id data) ->
    step false s (mk_sys (q_of s) rest (main s) (input s) (output s))
| step_end s : main s = M_Join -> workers s = [] -> step false s (set_main M_End s)
| step_spurious_worker s i : workers s !! i = Some W_Sleep -> step true s (set_worker i W_Lock s)
| step_spurious_main s p : main s = M_Sleep p -> step true s (set_main (M_Woken p) s).

(** The program at its start: [-p] gives the workers and eight lines each. *)
Definition start (max : Z) (pending : Z) (lines : list (list Z)) : sys :=
  mk_sys (setNumPending pending (setNumWorkers max create)) [] M_Read lines [].

Definition any_step (s s' : sys) : Prop := exists b, step b s s'.

Inductive reachable (max pending : Z) (lines : list (list Z)) : sys -> Prop :=
| reach_start : reachable max pending lines (start max pending lines)
| reach_step s s' : reachable max pending lines s -> any_step s s' -> reachable max pending lines s'.

End System.
