(* ===== verification/QueueSafety.v ===== *)
(** * Order and accounting of the queue

    Invariants of the threads of the filter, for every interleaving of their
    steps: where each line of the input is, what has been written, and which
    threads are awake. *)

From stdpp Require Import gmap.
From S2P Require Import Prelude Machine QueueManager.

#[local] Open Scope list_scope.

Section Safety.
Variable process : list Z -> res (list Z).
Variable lines : list (list Z).

(** The line that a worker holds. *)
Definition held (w : worker) : option (Z * list Z) :=
  match w with W_Busy id d | W_Failed id d => Some (id, d) | _ => None end.

(** ** Lines and results *)

Record safe (s : sys) : Prop := mk_safe {
  safe_lines : exists taken, lines = taken ++ waiting_data (q_of s) ++ input s /\ Z.of_nat (length taken) = proc_counter (q_of s);
  safe_held : forall w id d, w ∈ workers s -> held w = Some (id, d) -> 0 <= id < proc_counter (q_of s) /\ lines !! Z.to_nat id = Some d;
  safe_processed : forall id out, processed_data (q_of s) !! id = Some out ->
    0 <= id < proc_counter (q_of s) /\ exists d, lines !! Z.to_nat id = Some d /\ process d = Ret out;
  safe_output : Z.of_nat (length (output s)) = return_counter (q_of s) /\ return_counter (q_of s) <= proc_counter (q_of s) /\
    Forall2 (fun l o => process l = Ret o) (take (length (output s)) lines) (output s);
}.

(** Workers that hold no new line do not matter for [safe]. *)
Definition fewer_held (l l' : list worker) : Prop := forall w id d, w ∈ l' -> held w = Some (id, d) -> exists w', w' ∈ l /\ held w' = Some (id, d).

Lemma fewer_refl l : fewer_held l l.
Proof. intros w id d Hw Hh. eauto. Qed.

Lemma fewer_insert l i w : held w = None -> fewer_held l (<[i:=w]> l).
Proof.
  intros Hn w' id d Hw Hh. exists w'. split; [|done]. apply list_elem_of_lookup in Hw as [j Hj].
  destruct (decide (i = j)) as [->|Hne].
  - destruct (decide (j < length l)%nat); [rewrite list_lookup_insert_eq in Hj by done; congruence|].
    apply lookup_lt_Some in Hj. rewrite length_insert in Hj. lia.
  - rewrite list_lookup_insert_ne in Hj by done. by eapply list_elem_of_lookup_2.
Qed.

Lemma fewer_cons l w : held w = None -> fewer_held l (w :: l).
Proof. intros Hn w' id d Hw Hh. apply elem_of_cons in Hw as [->|Hw]; [congruence|eauto]. Qed.

Lemma fewer_tail l w : fewer_held (w :: l) l.
Proof. intros w' id d Hw Hh. exists w'. split; [by right|done]. Qed.

Lemma fewer_wake l : fewer_held l (wake_worker <$> l).
Proof. intros w id d Hw Hh. apply list_elem_of_fmap in Hw as (w' & -> & Hw). exists w'. split; [done|]. by destruct w'. Qed.

Lemma fewer_trans l1 l2 l3 : fewer_held l1 l2 -> fewer_held l2 l3 -> fewer_held l1 l3.
Proof. intros H1 H2 w id d Hw Hh. destruct (H2 w id d Hw Hh) as (w' & Hw' & Hh'). eauto. Qed.

(** The parts of the queue that [safe] speaks of. *)
Definition same_data (q q' : queue) : Prop :=
  waiting_data q' = waiting_data q /\ processed_data q' = processed_data q /\ proc_counter q' = proc_counter q /\ return_counter q' = return_counter q.

Lemma safe_mono s s' : safe s -> same_data (q_of s) (q_of s') -> fewer_held (workers s) (workers s') -> input s' = input s -> output s' = output s -> safe s'.
Proof.
  intros [H1 H2 H3 H4] (E1 & E2 & E3 & E4) Hf Ei Eo. split; rewrite ?E1, ?E2, ?E3, ?E4, ?Ei, ?Eo; try done.
  intros w id d Hw Hh. destruct (Hf w id d Hw Hh) as (w' & Hw' & Hh'). eauto.
Qed.

Lemma safe_signalled s s' : signalled s s' -> safe s -> safe s'.
Proof. intros [i Hi|p Hp|] Hs; [|apply (safe_mono s); try done; apply fewer_refl|done]. apply (safe_mono s); try done. by apply fewer_insert. Qed.

Lemma safe_broadcast s : safe s -> safe (broadcast s).
Proof. intros Hs. apply (safe_mono s); try done. apply fewer_wake. Qed.

Lemma safe_pop s p : safe s -> safe (pop p s).
Proof.
  intros Hs. unfold pop, waitProcessedData. destruct (processed_data (q_of s) !! return_counter (q_of s)) as [out|] eqn:E.
  - destruct Hs as [H1 H2 H3 (H4 & H5 & H6)]. destruct (H3 _ _ E) as (Hid & d & Hd & Hp). split; cbn [q_of workers input output waiting_data processed_data proc_counter return_counter]; try done.
    + intros id out' Hl. apply lookup_delete_Some in Hl as [_ Hl]. by apply H3.
    + rewrite length_app. simpl. split; [lia|]. split; [lia|]. rewrite Nat.add_1_r.
      assert (Z.to_nat (return_counter (q_of s)) = length (output s)) as En by lia. rewrite En in Hd.
      rewrite (take_S_r _ _ _ Hd). apply Forall2_app; [done|]. by constructor.
  - destruct (_ =? _); apply (safe_mono s); try done; apply fewer_refl.
Qed.

Lemma safe_get s i id data q : safe s -> workers s !! i = Some W_Lock -> getNextWork (q_of s) = G_Work id data q ->
  safe (set_queue q (set_worker i (W_Busy id data) s)).
Proof.
  intros [(taken & Hl & Hp) H2 H3 (H4 & H5 & H6)] Hi. unfold getNextWork. destruct (_ =? 0); [done|].
  destruct (waiting_data (q_of s)) as [|d rest] eqn:Ew; [done|]. intros [= <- <- <-].
  assert (lines !! Z.to_nat (proc_counter (q_of s)) = Some d) as Hd by (rewrite Hl, <- Hp, Nat2Z.id; apply lookup_app_at).
  split; cbn [set_queue set_worker q_of workers input output waiting_data processed_data proc_counter return_counter].
  - exists (taken ++ [d]). rewrite <- app_assoc. split; [done|]. rewrite length_app. simpl. lia.
  - intros w id d' Hw Hh. apply list_elem_of_lookup in Hw as [j Hj]. destruct (decide (i = j)) as [<-|Hne].
    + rewrite list_lookup_insert_eq in Hj by (by eapply lookup_lt_Some). injection Hj as <-. injection Hh as <- <-. split; [lia|done].
    + rewrite list_lookup_insert_ne in Hj by done. destruct (H2 w id d') as [? ?]; [by eapply list_elem_of_lookup_2|done|]. split; [lia|done].
  - intros id out Ho. destruct (H3 id out Ho) as [? ?]. split; [lia|done].
  - split_and!; [done|lia|done].
Qed.

Lemma safe_put s i id data out : safe s -> workers s !! i = Some (W_Busy id data) -> process data = Ret out ->
  safe (set_queue (fst (putProcessedData id out (q_of s))) (set_worker i W_Lock s)).
Proof.
  intros Hs Hi Hp. assert (W_Busy id data ∈ workers s) as Hin by (by eapply list_elem_of_lookup_2).
  pose proof Hs as [H1 H2 H3 H4]. destruct (H2 _ _ _ Hin eq_refl) as [Hid Hd].
  split; cbn [set_queue set_worker putProcessedData fst set_free set_processed q_of workers input output waiting_data processed_data proc_counter return_counter]; try done.
  - intros w id' d' Hw Hh. destruct (fewer_insert (workers s) i W_Lock eq_refl w id' d' Hw Hh) as (w' & Hw' & Hh'). by apply (H2 w').
  - intros id' out' Hl. destruct (decide (id = id')) as [<-|Hne].
    + rewrite lookup_insert_eq in Hl. injection Hl as <-. eauto.
    + rewrite lookup_insert_ne in Hl by done. by apply H3.
Qed.

Lemma put_data line n q q' call over : putNextWork line n q = (q', call, over) ->
  waiting_data q' = waiting_data q ++ [line] /\ processed_data q' = processed_data q /\ proc_counter q' = proc_counter q /\ return_counter q' = return_counter q.
Proof. unfold putNextWork. cbv zeta. destruct (_ <? _); [destruct (_ <? _)|]; intros [= <- <- <-]; done. Qed.

Lemma safe_read s line rest q call over m ws : safe s -> input s = line :: rest -> putNextWork line (Z.of_nat (length (workers s))) (q_of s) = (q, call, over) ->
  fewer_held (workers s) ws -> safe (mk_sys q ws m rest (output s)).
Proof.
  intros [(taken & Hl & Hp) H2 H3 H4] Hi Hput Hw. destruct (put_data _ _ _ _ _ _ Hput) as (E1 & E2 & E3 & E4).
  split; cbn [q_of workers input output]; rewrite ?E1, ?E2, ?E3, ?E4; try done.
  - exists taken. rewrite Hl, Hi, <- app_assoc. done.
  - intros w id d Hin Hh. destruct (Hw w id d Hin Hh) as (w' & Hw' & Hh'). eauto.
Qed.

Lemma safe_step b s s' : step process b s s' -> safe s -> safe s'.
Proof.
  destruct 1 as [s i Hi Hg|s s' i id data q Hi Hg Hsig|s i Hi Hg|s i id data out q wake Hi Hp Hput|s i id data e Hi Hp|s s' line rest q call over Hm Hin Hput Hs'|s Hm Hin|s p Hm|s p Hm|s Hm|s w rest Hm Hw Hd|s Hm Hw|s i Hi|s p Hm]; intros Hs.
  - apply (safe_mono s); try done. by apply fewer_insert.
  - eapply safe_signalled; [exact Hsig|]. by apply safe_get.
  - apply (safe_mono s); try done. by apply fewer_insert.
  - pose proof (safe_put s i id data out Hs Hi Hp) as H. rewrite Hput in H. cbn [fst] in H. destruct wake; [by apply safe_broadcast|done].
  - apply (safe_mono s); try done. intros w id' d Hw Hh. apply list_elem_of_lookup in Hw as [j Hj]. cbn [set_worker workers] in Hj. destruct (decide (i = j)) as [<-|Hne].
    + rewrite list_lookup_insert_eq in Hj by (by eapply lookup_lt_Some). injection Hj as <-. exists (W_Busy id data). split; [by eapply list_elem_of_lookup_2|done].
    + rewrite list_lookup_insert_ne in Hj by done. exists w. split; [by eapply list_elem_of_lookup_2|done].
  - cbv zeta in Hs'. destruct call; [subst s'|eapply safe_signalled; [exact Hs'|]|subst s']; (eapply safe_read; [exact Hs|exact Hin|exact Hput|]); first [by apply fewer_cons|apply fewer_refl].
  - apply (safe_mono s); try done; apply fewer_refl.
  - by apply safe_pop.
  - apply safe_pop. apply (safe_mono s); try done; apply fewer_refl.
  - apply safe_broadcast. apply (safe_mono s); try done; apply fewer_refl.
  - apply (safe_mono s); try done. rewrite Hw. apply fewer_tail.
  - apply (safe_mono s); try done; apply fewer_refl.
  - apply (safe_mono s); try done. by apply fewer_insert.
  - apply (safe_mono s); try done; apply fewer_refl.
Qed.

Lemma safe_start max pending : safe (start max pending lines).
Proof.
  split; cbn.
  - by exists [].
  - intros w id d Hw. by apply elem_of_nil in Hw.
  - intros id out Ho. by rewrite lookup_empty in Ho.
  - rewrite take_0. by split_and!.
Qed.

Lemma reachable_safe max pending s : reachable process max pending lines s -> safe s.
Proof. induction 1 as [|s s' _ IH [b Hst]]; [apply safe_start|by eapply safe_step]. Qed.

End Safety.
