(* ===== verification/QueueLive.v ===== *)
(** * Progress of the queue

    Which threads are awake: an invariant of the threads of the filter from
    which follow that no wakeup is lost, that the threads cannot block each
    other, and, with a measure, that every run ends. *)

From stdpp Require Import gmap relations.
From S2P Require Import Prelude Machine QueueManager QueueSafety.

#[local] Open Scope list_scope.

(** ** Sums over the workers *)

Fixpoint total (f : worker -> nat) (l : list worker) : nat :=
  match l with [] => O | w :: l => (f w + total f l)%nat end.

Lemma total_insert f l i w w' : l !! i = Some w -> (total f (<[i := w']> l) + f w = total f l + f w')%nat.
Proof.
  revert i. induction l as [|x l IH]; intros [|i] Hi; try done.
  - injection Hi as ->. simpl. lia.
  - simpl in Hi |- *. specialize (IH i Hi). lia.
Qed.

Lemma total_le f g l : (forall w, f w <= g w)%nat -> (total f l <= total g l)%nat.
Proof. intros H. induction l as [|w l IH]; simpl; [lia|]. specialize (H w). lia. Qed.

Lemma total_wake f l : (forall w, f (wake_worker w) <= f w + 1)%nat -> (total f (wake_worker <$> l) <= total f l + length l)%nat.
Proof. intros H. induction l as [|w l IH]; rewrite ?fmap_nil, ?fmap_cons; simpl; [lia|]. specialize (H w). lia. Qed.

Lemma total_wake_eq f l : (forall w, f (wake_worker w) = f w) -> total f (wake_worker <$> l) = total f l.
Proof. intros H. induction l as [|w l IH]; rewrite ?fmap_nil, ?fmap_cons; simpl; [done|]. by rewrite H, IH. Qed.

Lemma total_len f l : (forall w, f w <= 1)%nat -> (total f l <= length l)%nat.
Proof. intros H. induction l as [|w l IH]; simpl; [lia|]. specialize (H w). lia. Qed.

Lemma total_eq_all f g l : (forall w, w ∈ l -> f w = g w) -> total f l = total g l.
Proof.
  induction l as [|w l IH]; intros H; simpl; [done|].
  rewrite (H w) by by left. rewrite IH; [done|]. intros w' Hw. apply H. by right.
Qed.

Lemma insert_elem (l : list worker) i w x : x ∈ <[i := w]> l -> x = w \/ x ∈ l.
Proof.
  intros H. apply list_elem_of_lookup in H as [j Hj]. destruct (decide (i = j)) as [<-|Hne].
  - destruct (decide (i < length l)%nat) as [Hlt|]; [rewrite list_lookup_insert_eq in Hj by done; left; congruence|].
    apply lookup_lt_Some in Hj. rewrite length_insert in Hj. lia.
  - rewrite list_lookup_insert_ne in Hj by done. right. by eapply list_elem_of_lookup_2.
Qed.

Lemma wake_elem (l : list worker) x : x ∈ wake_worker <$> l -> x = W_Lock \/ x ∈ l.
Proof. intros H. apply list_elem_of_fmap in H as (w & -> & Hw). destruct w; simpl; auto. Qed.

(** A worker that [num_free_workers] counts, and one that will take the lock. *)
Definition free (w : worker) : nat := match w with W_Lock | W_Sleep => 1 | _ => 0 end.
Definition awake (w : worker) : nat := match w with W_Lock => 1 | _ => 0 end.

Lemma awake_all l : W_Sleep ∉ l -> total awake l = total free l.
Proof. intros H. apply total_eq_all. intros [] Hw; done. Qed.

Lemma awake_le_free l : (total awake l <= total free l)%nat.
Proof. apply total_le. intros []; simpl; lia. Qed.

Lemma awake_wake (l : list worker) : total awake (wake_worker <$> l) = total free l.
Proof. induction l as [|[] l IH]; rewrite ?fmap_nil, ?fmap_cons; simpl; by rewrite ?IH. Qed.

Lemma no_sleep_wake (l : list worker) : W_Sleep ∉ wake_worker <$> l.
Proof. intros H. apply list_elem_of_fmap in H as ([] & E & _); discriminate E. Qed.

Lemma no_sleep_insert (l : list worker) i w : w <> W_Sleep -> W_Sleep ∉ l -> W_Sleep ∉ <[i := w]> l.
Proof. intros Hw Hl H. destruct (insert_elem l i w _ H); congruence. Qed.

(** ** The invariant *)

Section Live.
Variable process : list Z -> res (list Z).
Variable max : Z.
Hypothesis Hmax : 0 < max < 2 ^ 32.

(** A line that was taken and not returned is with a worker or processed. *)
Definition covered (s : sys) : Prop :=
  forall id, return_counter (q_of s) <= id < proc_counter (q_of s) ->
    (exists w d, w ∈ workers s /\ held w = Some (id, d)) \/ is_Some (processed_data (q_of s) !! id).

(** Before [destroy]; [k] more workers may have to be woken. *)
Record before (k : nat) (s : sys) : Prop := mk_before {
  b_max : max_workers (q_of s) = max;
  b_free : num_free_workers (q_of s) = Z.of_nat (total free (workers s));
  b_done : W_Done ∉ workers s;
  b_some : waiting_data (q_of s) <> [] -> workers s <> [];
  b_awake : (Nat.min (length (waiting_data (q_of s))) (total free (workers s)) <= total awake (workers s) + k)%nat;
  b_covered : covered s;
  b_sleep : forall p, main s = M_Sleep p ->
    return_counter (q_of s) < proc_counter (q_of s) /\ processed_data (q_of s) !! return_counter (q_of s) = None /\ is_waiting (q_of s) = true;
}.

Definition ending (m : main_state) : bool := match m with M_Join | M_End => true | _ => false end.

Record live (k : nat) (s : sys) : Prop := mk_live {
  l_len : Z.of_nat (length (workers s)) <= max;
  l_failed : forall id d, W_Failed id d ∈ workers s -> exists e, process d = Exn e;
  l_before : ending (main s) = false -> before k s;
  l_after : ending (main s) = true -> max_workers (q_of s) = 0 /\ W_Sleep ∉ workers s;
  l_end : main s = M_End -> workers s = [];
}.


(** ** Held lines are kept *)

Lemma keep_insert l i w w' : l !! i = Some w -> held w = None \/ held w = held w' -> fewer_held (<[i := w']> l) l.
Proof.
  intros Hi Hh x id d Hx Hxd. apply list_elem_of_lookup in Hx as [j Hj]. destruct (decide (i = j)) as [<-|Hne].
  - assert (x = w) as -> by congruence. destruct Hh as [Hh|Hh]; [congruence|]. exists w'. split; [|congruence].
    apply list_elem_of_insert. by eapply lookup_lt_Some.
  - exists x. split; [|done]. apply (list_elem_of_lookup_2 _ j). by rewrite list_lookup_insert_ne.
Qed.

Lemma keep_cons l w : fewer_held (w :: l) l.
Proof. apply fewer_tail. Qed.

Lemma keep_wake l : fewer_held (wake_worker <$> l) l.
Proof.
  intros x id d Hx Hxd. exists x. split; [|done]. apply list_elem_of_fmap. exists x. split; [|done]. by destruct x.
Qed.

Lemma covered_mono s s' : covered s -> processed_data (q_of s') = processed_data (q_of s) -> proc_counter (q_of s') = proc_counter (q_of s) ->
  return_counter (q_of s') = return_counter (q_of s) -> fewer_held (workers s') (workers s) -> covered s'.
Proof.
  intros Hc E1 E2 E3 Hf id. rewrite E1, E2, E3. intros Hid. destruct (Hc id Hid) as [(w & d & Hw & Hh)|?]; [|by right].
  destruct (Hf w id d Hw Hh) as (w' & ? & ?). left. eauto.
Qed.

(** ** Signals *)

Lemma before_signalled k s s' : signalled s s' -> before k s -> before k s'.
Proof.
  intros [i Hi|p Hp|] [H1 H2 H3 H4 H5 H6 H7]; [| |done].
  - pose proof (total_insert free _ _ _ W_Lock Hi) as Hf. pose proof (total_insert awake _ _ _ W_Lock Hi) as Ha. simpl in Hf, Ha.
    split; cbn [set_worker q_of workers main]; try done.
    + rewrite H2. lia.
    + intros Hd. by destruct (insert_elem _ _ _ _ Hd).
    + intros Hw E. apply (H4 Hw). apply (f_equal length) in E. rewrite length_insert in E. by destruct (workers s).
    + lia.
    + eapply covered_mono; [exact H6|done..|]. cbn. eapply keep_insert; [done|by left].
  - split; done.
Qed.

(** A signal of the main thread wakes a worker, if one sleeps. *)
Lemma before_signal s s' : signalled s s' -> (forall p, main s <> M_Sleep p) -> before 1 s -> before 0 s'.
Proof.
  intros Hsig Hm Hb. pose proof (before_signalled _ _ _ Hsig Hb) as Hb'. destruct Hsig as [i Hi|p Hp|Hs _].
  - pose proof (total_insert free _ _ _ W_Lock Hi) as Hf. pose proof (total_insert awake _ _ _ W_Lock Hi) as Ha. simpl in Hf, Ha.
    destruct Hb as [_ _ _ _ H5 _ _], Hb' as [H1 H2 H3 H4 _ H6 H7]. split; try done. cbn [set_worker q_of workers] in *. lia.
  - by destruct (Hm p).
  - destruct Hb' as [H1 H2 H3 H4 _ H6 H7]. split; try done. rewrite (awake_all _ Hs). lia.
Qed.

Lemma live_signalled s s' : signalled s s' -> live 0 s -> live 0 s'.
Proof.
  intros Hsig [H1 H2 H3 H4 H5].
  assert (length (workers s') = length (workers s)) as El by (destruct Hsig; cbn; by rewrite ?length_insert).
  assert (ending (main s') = ending (main s)) as Em by (destruct Hsig as [| p Hp |]; cbn; by rewrite ?Hp).
  split; rewrite ?El, ?Em.
  - done.
  - intros id d Hw. destruct Hsig as [i Hi| |]; [|by eapply H2..]. destruct (insert_elem _ _ _ _ Hw); [done|by eapply H2].
  - intros He. eapply before_signalled; [done|auto].
  - intros He. destruct (H4 He) as [? ?]. destruct Hsig as [i Hi| |]; [|done..]. split; [done|]. by apply no_sleep_insert.
  - destruct Hsig as [i Hi|p Hp|]; cbn; [|done..]. intros He. by rewrite (H5 He) in Hi.
Qed.

(** ** Steps *)

(** One worker changes, and the counters with it. *)
Lemma live_worker s i w w' q k : live 0 s -> workers s !! i = Some w ->
  (forall id d, w' = W_Failed id d -> exists e, process d = Exn e) ->
  (ending (main s) = false -> before k (set_queue q (set_worker i w' s))) ->
  (ending (main s) = true -> max_workers q = 0 /\ w' <> W_Sleep) ->
  live k (set_queue q (set_worker i w' s)).
Proof.
  intros [H1 H2 H3 H4 H5] Hi Hf Hb Ha. split; cbn [set_queue set_worker q_of workers main].
  - by rewrite length_insert.
  - intros id d Hw. destruct (insert_elem _ _ _ _ Hw); [by eapply Hf|by eapply H2].
  - done.
  - intros He. destruct (Ha He) as [? ?]. split; [done|]. apply no_sleep_insert; [done|]. by apply H4.
  - intros He. by rewrite (H5 He) in Hi.
Qed.

(** What happens to the counts when a worker changes. *)
Ltac counts Hi w' :=
  pose proof (total_insert free _ _ _ w' Hi); pose proof (total_insert awake _ _ _ w' Hi); simpl free in *; simpl awake in *.

Lemma some_insert s i (w : worker) : workers s !! i = Some w -> workers s <> [].
Proof. intros Hi E. by rewrite E in Hi. Qed.

Lemma insert_not_nil (l : list worker) i w : l <> [] -> <[i := w]> l <> [].
Proof. intros Hl E. apply (f_equal length) in E. rewrite length_insert in E. by destruct l. Qed.

Lemma live_quit s i : live 0 s -> workers s !! i = Some W_Lock -> getNextWork (q_of s) = G_Quit -> live 0 (set_worker i W_Done s).
Proof.
  intros Hl Hi Hg. change (set_worker i W_Done s) with (set_queue (q_of s) (set_worker i W_Done s)).
  assert (max_workers (q_of s) = 0) as Hz.
  { unfold getNextWork in Hg. destruct (max_workers (q_of s) =? 0) eqn:E; [lia|]. by destruct (waiting_data _). }
  eapply live_worker; try done. intros He. destruct Hl as [_ _ Hb _ _]. destruct (Hb He) as [Hm _ _ _ _ _ _]. lia.
Qed.

Lemma live_sleep s i : live 0 s -> workers s !! i = Some W_Lock -> getNextWork (q_of s) = G_Wait -> live 0 (set_worker i W_Sleep s).
Proof.
  intros Hl Hi Hg. change (set_worker i W_Sleep s) with (set_queue (q_of s) (set_worker i W_Sleep s)).
  unfold getNextWork in Hg. destruct (max_workers (q_of s) =? 0) eqn:E; [done|]. destruct (waiting_data (q_of s)) eqn:Ew; [|done].
  eapply live_worker; try done.
  - intros He. destruct Hl as [_ _ Hb _ _]. destruct (Hb He) as [H1 H2 H3 H4 H5 H6 H7].
    counts Hi W_Sleep. split; cbn [set_queue set_worker q_of workers main]; try done.
    + rewrite H2. lia.
    + intros Hd. by destruct (insert_elem _ _ _ _ Hd).
    + rewrite Ew. simpl. lia.
    + eapply covered_mono; [exact H6|done..|]. cbn. eapply keep_insert; [done|by left].
  - intros He. destruct Hl as [_ _ _ Ha _]. destruct (Ha He). lia.
Qed.

Lemma live_fail s i id data e : live 0 s -> workers s !! i = Some (W_Busy id data) -> process data = Exn e -> live 0 (set_worker i (W_Failed id data) s).
Proof.
  intros Hl Hi Hp. change (set_worker i (W_Failed id data) s) with (set_queue (q_of s) (set_worker i (W_Failed id data) s)).
  eapply live_worker; try done.
  - intros id' d' [= <- <-]. eauto.
  - intros He. destruct Hl as [_ _ Hb _ _]. destruct (Hb He) as [H1 H2 H3 H4 H5 H6 H7].
    counts Hi (W_Failed id data). split; cbn [set_queue set_worker q_of workers main]; try done.
    + rewrite H2. lia.
    + intros Hd. by destruct (insert_elem _ _ _ _ Hd).
    + intros Hw. apply insert_not_nil. by apply H4.
    + lia.
    + eapply covered_mono; [exact H6|done..|]. cbn. eapply keep_insert; [done|by right].
  - intros He. destruct Hl as [_ _ _ Ha _]. by destruct (Ha He).
Qed.

Lemma u32_count n : 0 <= n <= max -> u32 n = n.
Proof. intros H. unfold uwrap. apply Z.mod_small. lia. Qed.

Lemma free_bound s k : live k s -> 0 <= Z.of_nat (total free (workers s)) <= max.
Proof. intros [H1 _ _ _ _]. pose proof (total_len free (workers s)) as H. assert (forall w, (free w <= 1)%nat) as Hf by (intros []; simpl; lia). specialize (H Hf). lia. Qed.

Lemma live_get s i id data q : live 0 s -> workers s !! i = Some W_Lock -> getNextWork (q_of s) = G_Work id data q ->
  live 0 (set_queue q (set_worker i (W_Busy id data) s)).
Proof.
  intros Hl Hi. unfold getNextWork. destruct (max_workers (q_of s) =? 0) eqn:E; [done|].
  destruct (waiting_data (q_of s)) as [|d rest] eqn:Ew; [done|]. intros [= <- <- <-].
  eapply live_worker; try done.
  - intros He. pose proof (free_bound _ _ Hl) as Hfb. destruct Hl as [_ _ Hb _ _]. destruct (Hb He) as [H1 H2 H3 H4 H5 H6 H7].
    counts Hi (W_Busy (proc_counter (q_of s)) d).
    split; cbn [set_queue set_worker q_of workers main max_workers num_free_workers waiting_data processed_data return_counter proc_counter is_waiting]; try done.
    + rewrite H2, u32_count; lia.
    + intros Hd. by destruct (insert_elem _ _ _ _ Hd).
    + intros Hw. apply insert_not_nil. apply H4. by rewrite Ew.
    + rewrite Ew in H5. cbn [length] in H5. lia.
    + intros id Hid. cbn in Hid. destruct (decide (id = proc_counter (q_of s))) as [->|Hne].
      * left. exists (W_Busy (proc_counter (q_of s)) d), d. split; [|done]. apply list_elem_of_insert. by eapply lookup_lt_Some.
      * destruct (H6 id) as [(w & d' & Hw & Hh)|?]; [lia| |by right]. left.
        destruct (keep_insert _ _ _ (W_Busy (proc_counter (q_of s)) d) Hi (or_introl eq_refl) w id d' Hw Hh) as (w' & ? & ?). eauto.
    + intros p Hp. destruct (H7 p Hp) as (? & ? & ?). split; [lia|done].
  - intros He. destruct Hl as [_ _ _ Ha _]. destruct (Ha He). lia.
Qed.

Lemma ending_wake m : ending (wake_main m) = ending m.
Proof. by destruct m. Qed.

Lemma live_put s i id data out q wake : live 0 s -> workers s !! i = Some (W_Busy id data) -> putProcessedData id out (q_of s) = (q, wake) ->
  live 0 (set_main (if wake then wake_main (main s) else main s) (set_queue q (set_worker i W_Lock s))).
Proof.
  intros Hl Hi [= <- <-]. pose proof (free_bound _ _ Hl) as Hfb. pose proof Hl as [L1 L2 L3 L4 L5].
  set (m := if is_waiting (q_of s) && (id =? return_counter (q_of s)) then _ else _).
  assert (ending m = ending (main s)) as Em by (subst m; destruct (_ && _); [apply ending_wake|done]).
  split; cbn [set_main set_queue set_worker q_of workers main]; rewrite ?Em; rewrite ?length_insert; try done.
  - intros id' d' Hw. destruct (insert_elem _ _ _ _ Hw); [done|by eapply L2].
  - intros He. destruct (L3 He) as [H1 H2 H3 H4 H5 H6 H7]. counts Hi W_Lock.
    assert (Z.of_nat (total free (<[i:=W_Lock]> (workers s))) <= max) as Hb.
    { pose proof (total_len free (<[i:=W_Lock]> (workers s))) as H'. rewrite length_insert in H'.
      assert (forall w, (free w <= 1)%nat) as Hf by (intros []; simpl; lia). specialize (H' Hf). lia. }
    split; cbn [set_main set_queue set_worker set_free set_processed q_of workers main max_workers num_free_workers waiting_data processed_data return_counter proc_counter is_waiting]; try done.
    + rewrite H2, u32_count; lia.
    + intros Hd. by destruct (insert_elem _ _ _ _ Hd).
    + intros Hw. apply insert_not_nil. by apply H4.
    + lia.
    + intros id' Hid. cbn in Hid. cbn [set_main set_queue set_worker set_free set_processed q_of workers processed_data].
      destruct (decide (id' = id)) as [->|Hne]; [right; rewrite lookup_insert_eq; by eexists|].
      rewrite lookup_insert_ne by done. destruct (H6 id' Hid) as [(w & d' & Hw & Hh)|?]; [|by right]. left.
      apply list_elem_of_lookup in Hw as [j Hj]. exists w, d'. split; [|done]. apply (list_elem_of_lookup_2 _ j).
      rewrite list_lookup_insert_ne; [done|]. intros <-. assert (w = W_Busy id data) as -> by congruence. by injection Hh.
    + intros p Hp. subst m. destruct (is_waiting (q_of s)) eqn:Ew, (id =? return_counter (q_of s)) eqn:Eid; cbn [andb] in Hp.
      * by destruct (main s).
      * destruct (H7 p Hp) as (? & ? & ?). rewrite lookup_insert_ne by lia. done.
      * by destruct (H7 p Hp) as (? & ? & ?).
      * by destruct (H7 p Hp) as (? & ? & ?).
  - intros He. destruct (L4 He) as [? ?]. split; [done|]. by apply no_sleep_insert.
  - intros He. assert (ending (main s) = true) as He' by (by rewrite <- Em, He).
    assert (main s = M_End) as Hm. { subst m. destruct (_ && _); [|done]. by destruct (main s). }
    by rewrite (L5 Hm) in Hi.
Qed.

Lemma broadcast_main s : broadcast (set_main (wake_main (main s)) s) = broadcast s.
Proof. unfold broadcast. cbn. f_equal. by destruct (main s). Qed.

Lemma live_broadcast s : live 0 s -> live 0 (broadcast s).
Proof.
  intros [L1 L2 L3 L4 L5]. split; cbn [broadcast q_of workers main]; rewrite ?ending_wake, ?length_fmap; try done.
  - intros id d Hw. destruct (wake_elem _ _ Hw); [done|by eapply L2].
  - intros He. destruct (L3 He) as [H1 H2 H3 H4 H5 H6 H7].
    assert (total free (wake_worker <$> workers s) = total free (workers s)) as Ef by (apply total_wake_eq; by intros []).
    split; cbn [broadcast q_of workers main]; rewrite ?Ef; try done.
    + intros Hd. by destruct (wake_elem _ _ Hd).
    + intros Hw E. apply (H4 Hw). by apply fmap_nil_inv in E.
    + rewrite awake_wake. lia.
    + eapply covered_mono; [exact H6|done..|]. apply keep_wake.
    + intros p Hp. by destruct (main s).
  - intros He. destruct (L4 He). split; [done|]. apply no_sleep_wake.
  - intros He. assert (main s = M_End) as Hm by by destruct (main s). by rewrite (L5 Hm).
Qed.

(** The main thread moves, and the queue with it; the workers stay. *)
Lemma live_main s q m o inp : live 0 s -> ending (main s) = false -> ending m = false ->
  max_workers q = max_workers (q_of s) -> num_free_workers q = num_free_workers (q_of s) -> waiting_data q = waiting_data (q_of s) ->
  covered (mk_sys q (workers s) m inp o) ->
  (forall p, m = M_Sleep p -> return_counter q < proc_counter q /\ processed_data q !! return_counter q = None /\ is_waiting q = true) ->
  live 0 (mk_sys q (workers s) m inp o).
Proof.
  intros [L1 L2 L3 L4 L5] He Hm E1 E2 E3 Hc Hs. destruct (L3 He) as [H1 H2 H3 H4 H5 H6 H7].
  split; cbn [q_of workers main]; try done.
  - intros _. split; cbn [q_of workers main]; rewrite ?E1, ?E2, ?E3; done.
  - rewrite Hm. done.
  - intros ->. done.
Qed.

Lemma live_pop s p : live 0 s -> ending (main s) = false -> return_counter (q_of s) <= proc_counter (q_of s) ->
  live 0 (pop p s) /\ live 0 (pop p (set_queue (set_waiting false (q_of s)) s)).
Proof.
  assert (forall b, live 0 s -> ending (main s) = false -> return_counter (q_of s) <= proc_counter (q_of s) -> live 0 (pop p (set_queue (mk_queue (waiting_data (q_of s)) (processed_data (q_of s)) (proc_counter (q_of s)) (return_counter (q_of s)) (num_free_workers (q_of s)) (max_workers (q_of s)) (max_pending (q_of s)) b) s))) as H.
  { intros b Hl He Hle. pose proof Hl as [_ _ L3 _ _]. destruct (L3 He) as [H1 H2 H3 H4 H5 H6 H7].
    unfold pop, waitProcessedData. cbn [set_queue q_of processed_data return_counter proc_counter workers].
    destruct (processed_data (q_of s) !! return_counter (q_of s)) as [out|] eqn:E; [|destruct (return_counter (q_of s) =? proc_counter (q_of s)) eqn:Ec].
    - apply (live_main s); try done; [by destruct p| |intros p' Hp; by destruct p].
      intros id Hid. cbn in Hid. destruct (H6 id) as [Hw|Hw]; [lia|by left|]. right. cbn [q_of processed_data]. rewrite lookup_delete_ne by lia. done.
    - apply (live_main s); try done; [by destruct p|]. intros p' Hp. by destruct p.
    - apply (live_main s); try done. intros p' _. cbn. split_and!; [lia|done..]. }
  intros Hl He Hle. split; [|by apply H]. specialize (H (is_waiting (q_of s)) Hl He Hle). destruct s as [[] ? ? ? ?]. apply H.
Qed.

Lemma live_signal s s' : signalled s s' -> ending (main s) = false -> (forall p, main s <> M_Sleep p) -> live 1 s -> live 0 s'.
Proof.
  intros Hsig He Hm [L1 L2 L3 L4 L5].
  assert (length (workers s') = length (workers s)) as El by (destruct Hsig; cbn; by rewrite ?length_insert).
  assert (ending (main s') = ending (main s)) as Em by (destruct Hsig as [| p Hp |]; cbn; by rewrite ?Hp).
  split; rewrite ?El, ?Em; try done.
  - intros id d Hw. destruct Hsig as [i Hi| |]; [|by eapply L2..]. destruct (insert_elem _ _ _ _ Hw); [done|by eapply L2].
  - intros _. eapply before_signal; [done..|auto].
  - intros Hd. rewrite He in *. done.
  - intros Hd. rewrite Hd in Em. by rewrite He in Em.
Qed.

(** After [putNextWork]; one more worker is to be woken when it signals. *)
Lemma live_put_next s line rest q call over ws m : live 0 s -> main s = M_Read ->
  putNextWork line (Z.of_nat (length (workers s))) (q_of s) = (q, call, over) ->
  ws = match call with Spawn => W_Lock :: workers s | _ => workers s end ->
  m = (if over : bool then M_Pop InLoop else M_Read) ->
  live (match call with Signal => 1 | _ => 0 end) (mk_sys q ws m rest (output s)).
Proof.
  intros Hl Hr Hput -> ->. pose proof (free_bound _ _ Hl) as Hfb. pose proof Hl as [L1 L2 L3 L4 L5].
  assert (ending (main s) = false) as He by by rewrite Hr. destruct (L3 He) as [H1 H2 H3 H4 H5 H6 H7].
  destruct (put_data _ _ _ _ _ _ Hput) as (E1 & E2 & E3 & E4).
  assert (max_workers q = max /\ match call with
    | Spawn => num_free_workers q = Z.of_nat (total free (workers s)) + 1 /\ Z.of_nat (length (workers s)) < max /\ (total free (workers s) <= length (waiting_data (q_of s)))%nat
    | Nothing => num_free_workers q = Z.of_nat (total free (workers s)) /\ max <= Z.of_nat (length (workers s)) /\ (total free (workers s) <= length (waiting_data (q_of s)))%nat
    | Signal => num_free_workers q = Z.of_nat (total free (workers s)) /\ (length (waiting_data (q_of s)) < total free (workers s))%nat
    end) as [Em Hcall].
  { revert Hput. unfold putNextWork. cbv zeta. cbn [set_waiting_data waiting_data num_free_workers]. rewrite length_app. cbn [length].
    pose proof (total_len free (workers s) ltac:(intros []; simpl; lia)) as Htl.
    destruct (num_free_workers (q_of s) <? _) eqn:Ef; [cbn [max_workers set_waiting_data]; destruct (_ <? max_workers (q_of s)) eqn:Ew|];
      intros [= <- <- _]; cbn [set_free set_waiting_data max_workers num_free_workers]; rewrite ?H1, ?H2 in *; (split; [done|]).
    - apply Z.ltb_lt in Ew, Ef. rewrite u32_count by lia. lia.
    - apply Z.ltb_ge in Ew. apply Z.ltb_lt in Ef. lia.
    - apply Z.ltb_ge in Ef. lia. }
  assert (forall o m0, covered (mk_sys q (workers s) m0 rest o)) as Hcov.
  { intros o m0. eapply covered_mono; [exact H6|done..|]. apply fewer_refl. }
  assert (forall p, (if over then M_Pop InLoop else M_Read) <> M_Sleep p) as Hns by by destruct over.
  assert (ending (if over then M_Pop InLoop else M_Read) = false) as Hne by by destruct over.
  assert (0 < length (workers s) \/ total free (workers s) = 0)%nat as Hfree.
  { destruct (workers s); [right; done|left; simpl; lia]. }
  destruct call; (split; cbn [q_of workers main]; [| |intros _|by rewrite Hne|by destruct over]).
  all: try (intros id d Hw; first [by eapply L2|apply elem_of_cons in Hw as [Hw|Hw]; [done|by eapply L2]]).
  all: try (split; cbn [q_of workers main]; rewrite ?E1; try done; try (intros p Hp; by destruct (Hns p))).
  all: rewrite ?length_app; cbn [total free awake length]; try lia.
  all: try (intros Hd; apply elem_of_cons in Hd as [|]; done).
  all: try (intros _ Hnil; rewrite Hnil in *; simpl in *; lia).
  eapply covered_mono; [apply (Hcov [] M_Read)|done..|]. apply keep_cons.
Qed.

Lemma live_read s s' line rest q call over : live 0 s -> main s = M_Read ->
  putNextWork line (Z.of_nat (length (workers s))) (q_of s) = (q, call, over) ->
  (let m := if over : bool then M_Pop InLoop else M_Read in
   match call with
   | Spawn => s' = mk_sys q (W_Lock :: workers s) m rest (output s)
   | Signal => signalled (mk_sys q (workers s) m rest (output s)) s'
   | Nothing => s' = mk_sys q (workers s) m rest (output s)
   end) -> live 0 s'.
Proof.
  intros Hl Hr Hput Hs. pose proof (live_put_next _ _ rest _ _ _ _ _ Hl Hr Hput eq_refl eq_refl) as H. cbv zeta in Hs. destruct call; [subst; exact H| |subst; exact H].
  eapply live_signal; [exact Hs| | |exact H]; cbn [main]; by destruct over.
Qed.

Lemma live_destroy s : live 0 s -> live 0 (broadcast (set_main M_Join (set_queue (setNumWorkers 0 (q_of s)) s))).
Proof.
  intros [L1 L2 L3 L4 L5]. split; cbn [broadcast set_main set_queue q_of workers main]; rewrite ?length_fmap; try done.
  - intros id d Hw. destruct (wake_elem _ _ Hw); [done|by eapply L2].
  - intros _. split; [done|apply no_sleep_wake].
Qed.

Lemma live_join s w rest : live 0 s -> main s = M_Join -> workers s = w :: rest -> live 0 (mk_sys (q_of s) rest (main s) (input s) (output s)).
Proof.
  intros [L1 L2 L3 L4 L5] Hm Hw. rewrite Hm in *. rewrite Hw in *. split; cbn [q_of workers main]; try done.
  - simpl in L1. lia.
  - intros id d Hin. apply (L2 id d). by right.
  - intros _. destruct (L4 eq_refl) as [? Hs]. split; [done|]. intros Hn. apply Hs. by right.
Qed.

Lemma live_step b s s' : step process b s s' -> return_counter (q_of s) <= proc_counter (q_of s) -> live 0 s -> live 0 s'.
Proof.
  destruct 1 as [s i Hi Hg|s s' i id data q Hi Hg Hsig|s i Hi Hg|s i id data out q wake Hi Hp Hput|s i id data e Hi Hp|s s' line rest q call over Hm Hin Hput Hs'|s Hm Hin|s p Hm|s p Hm|s Hm|s w rest Hm Hw Hd|s Hm Hw|s i Hi|s p Hm]; intros Hle Hl.
  - by apply live_quit.
  - eapply live_signalled; [exact Hsig|]. by eapply live_get.
  - by apply live_sleep.
  - pose proof (live_put _ _ _ _ _ _ _ Hl Hi Hput) as H. destruct wake; [|exact H]. apply live_broadcast in H. by rewrite <- broadcast_main.
  - by eapply live_fail.
  - by eapply live_read.
  - apply (live_main s (q_of s)); try done; [by rewrite Hm|]. destruct Hl as [_ _ L3 _ _]. rewrite Hm in L3. by destruct (L3 eq_refl).
  - apply live_pop; [done|by rewrite Hm|done].
  - apply live_pop; [done|by rewrite Hm|done].
  - by apply live_destroy.
  - by eapply live_join.
  - destruct Hl as [L1 L2 L3 L4 L5]. rewrite Hm in L4. by split.
  - eapply live_signalled; [by constructor|done].
  - eapply live_signalled; [by constructor|done].
Qed.

Lemma live_start pending lines : live 0 (start max pending lines).
Proof.
  split; cbn; try done; [lia|..].
  - intros id d Hw. by apply elem_of_nil in Hw.
  - intros _. split; cbn; try done; [by apply not_elem_of_nil|].
    intros id Hid. cbn in Hid. lia.
Qed.

Lemma reachable_live pending lines s : reachable process max pending lines s -> live 0 s.
Proof.
  induction 1 as [|s s' Hr IH [b Hst]]; [apply live_start|]. apply reachable_safe in Hr. destruct Hr as [_ _ _ (_ & Hle & _)].
  by eapply live_step.
Qed.

End Live.
