(* ===== verification/QueueRuns.v ===== *)
(** * Runs of the filter

    Every run of the threads of the filter ends, whatever the interleaving; a
    run in which no line is refused cannot block and ends with its output; what
    can block or be lost otherwise. *)

From stdpp Require Import gmap relations.
From S2P Require Import Prelude Machine QueueManager QueueSafety QueueLive.

#[local] Open Scope list_scope.

#[export] Instance worker_eq_dec : EqDecision worker.
Proof. solve_decision. Defined.

Section Runs.
Variable process : list Z -> res (list Z).
Variable max : Z.
Hypothesis Hmax : 0 < max < 2 ^ 32.

(** A run with its spurious wakeups marked. *)
Inductive run : list bool -> sys -> sys -> Prop :=
| run_nil s : run [] s s
| run_cons b l s1 s2 s3 : step process b s1 s2 -> run l s2 s3 -> run (b :: l) s1 s3.

Definition spurious (l : list bool) : nat := length (filter (fun b => b = true) l).

(** ** A measure *)

Let M : nat := Z.to_nat max.

Definition weight (w : worker) : nat :=
  match w with W_Lock => 3 | W_Sleep => 2 | W_Busy _ _ => M + 7 | W_Failed _ _ | W_Done => 1 end.

Definition main_weight (m : main_state) : nat :=
  match m with
  | M_End => 0
  | M_Join => 1
  | M_Destroy => M + 2
  | M_Sleep AtEnd => M + 3
  | M_Woken AtEnd => M + 4
  | M_Pop AtEnd => M + 5
  | M_Read => M + 6
  | M_Sleep InLoop => M + 7
  | M_Woken InLoop => M + 8
  | M_Pop InLoop => M + 9
  end.

Definition measure (s : sys) : nat :=
  (total weight (workers s) + (M + 7) * length (waiting_data (q_of s)) + (M + 14) * length (input s) +
   2 * size (processed_data (q_of s)) + main_weight (main s))%nat.

Lemma weight_wake w : (weight (wake_worker w) <= weight w + 1)%nat.
Proof. destruct w; simpl; lia. Qed.

Lemma main_wake m : (main_weight (wake_main m) <= main_weight m + 1)%nat.
Proof. destruct m as [|[]|[]|[]| | |]; simpl; lia. Qed.

Lemma measure_signalled s s' : signalled s s' -> (measure s' <= measure s + 1)%nat.
Proof.
  intros [i Hi|p Hp|]; unfold measure; cbn [set_worker set_main q_of workers main input].
  - pose proof (total_insert weight _ _ _ W_Lock Hi) as H. simpl weight in H. lia.
  - rewrite Hp. destruct p; simpl; lia.
  - lia.
Qed.

Lemma measure_broadcast s : (measure (broadcast s) <= measure s + length (workers s) + 1)%nat.
Proof.
  unfold measure; cbn [broadcast q_of workers main input].
  pose proof (total_wake weight (workers s) weight_wake). pose proof (main_wake (main s)). lia.
Qed.

Lemma size_delete (m : gmap Z (list Z)) i x : m !! i = Some x -> size m = S (size (delete i m)).
Proof.
  intros H. rewrite <- (insert_delete_id m i x H) at 1. apply map_size_insert_None. apply lookup_delete_eq.
Qed.

Lemma size_insert (m : gmap Z (list Z)) i x : (size (<[i := x]> m) <= size m + 1)%nat.
Proof. rewrite map_size_insert. destruct (m !! i); simpl; lia. Qed.

Lemma measure_pop p s : main s = M_Pop p \/ main s = M_Woken p -> (measure (pop p s) < measure s)%nat.
Proof.
  intros Hm. assert (main_weight (main s) = main_weight (M_Pop p) \/ main_weight (main s) = main_weight (M_Woken p)) as Hw by (destruct Hm as [-> | ->]; auto).
  unfold pop, waitProcessedData. destruct (processed_data (q_of s) !! return_counter (q_of s)) as [out|] eqn:E; [|destruct (_ =? _)];
    unfold measure; cbn [set_main set_queue set_waiting q_of workers main input waiting_data processed_data].
  - rewrite (size_delete _ _ _ E). destruct p; simpl in *; lia.
  - destruct p; simpl in *; lia.
  - destruct p; simpl in *; lia.
Qed.

Lemma measure_step b s s' : step process b s s' -> live process max 0 s ->
  if b then (measure s' <= measure s + 1)%nat else (measure s' < measure s)%nat.
Proof.
  intros Hst Hl. assert (length (workers s) <= M)%nat as HM by (destruct Hl as [L1 _ _ _ _]; subst M; lia).
  destruct Hst as [s i Hi Hg|s s' i id data q Hi Hg Hsig|s i Hi Hg|s i id data out q wake Hi Hp Hput|s i id data e Hi Hp|s s' line rest q call over Hm Hin Hput Hs'|s Hm Hin|s p Hm|s p Hm|s Hm|s w rest Hm Hw Hd|s Hm Hw|s i Hi|s p Hm].
  - pose proof (total_insert weight _ _ _ W_Done Hi) as H. simpl weight in H. unfold measure. cbn [set_worker q_of workers main input]. lia.
  - apply measure_signalled in Hsig. pose proof (total_insert weight _ _ _ (W_Busy id data) Hi) as H. simpl weight in H.
    unfold getNextWork in Hg. destruct (_ =? 0); [done|]. destruct (waiting_data (q_of s)) as [|d r] eqn:Ew; [done|]. injection Hg as <- <- <-.
    unfold measure in *. cbn [set_queue set_worker q_of workers main input waiting_data processed_data] in Hsig. rewrite Ew. cbn [length]. lia.
  - pose proof (total_insert weight _ _ _ W_Sleep Hi) as H. simpl weight in H. unfold measure. cbn [set_worker q_of workers main input]. lia.
  - pose proof (total_insert weight _ _ _ W_Lock Hi) as H. simpl weight in H. injection Hput as <- <-.
    set (s1 := set_queue _ _). assert (measure s1 + M + 2 <= measure s)%nat as Hs1.
    { subst s1. unfold measure. cbn [set_queue set_worker set_free set_processed q_of workers main input waiting_data processed_data].
      pose proof (size_insert (processed_data (q_of s)) id out). lia. }
    destruct (_ && _); [|lia]. pose proof (measure_broadcast s1) as Hb. subst s1. cbn [set_queue set_worker workers] in Hb. rewrite length_insert in Hb. lia.
  - pose proof (total_insert weight _ _ _ (W_Failed id data) Hi) as H. simpl weight in H. unfold measure. cbn [set_worker q_of workers main input]. lia.
  - destruct (put_data _ _ _ _ _ _ Hput) as (E1 & E2 & _ & _).
    assert (main_weight (if over then M_Pop InLoop else M_Read) <= M + 9)%nat as Hmw by (destruct over; simpl; lia).
    cbv zeta in Hs'. unfold measure at 2. rewrite Hm, Hin. destruct call; [subst s'|apply measure_signalled in Hs'|subst s']; unfold measure in *; cbn [q_of workers main input] in *;
      rewrite E1, E2, length_app in *; cbn [total length weight main_weight] in *; lia.
  - unfold measure. cbn [set_main q_of workers main input]. rewrite Hm. simpl. lia.
  - apply measure_pop. by left.
  - assert (measure (set_queue (set_waiting false (q_of s)) s) = measure s) as <- by done. apply measure_pop. by right.
  - pose proof (total_wake weight (workers s) weight_wake) as Hb.
    unfold measure. cbn [broadcast set_main set_queue setNumWorkers q_of workers main input waiting_data processed_data wake_main main_weight]. rewrite Hm. cbn [main_weight]. lia.
  - unfold measure. cbn [q_of workers main input]. rewrite Hw. destruct Hd as [->|(id & d & ->)]; simpl; lia.
  - unfold measure. cbn [set_main q_of workers main input]. rewrite Hm. simpl. lia.
  - apply measure_signalled. by constructor.
  - apply measure_signalled. by constructor.
Qed.

Lemma run_measure l s s' pending lines : run l s s' -> reachable process max pending lines s ->
  (length l + measure s' <= measure s + 2 * spurious l)%nat.
Proof.
  induction 1 as [s|b l s1 s2 s3 Hst _ IH]; intros Hr; [simpl; lia|].
  assert (reachable process max pending lines s2) as Hr2 by (eapply reach_step; [exact Hr|by exists b]). specialize (IH Hr2).
  pose proof (measure_step _ _ _ Hst (reachable_live _ _ Hmax _ _ _ Hr)) as Hm. unfold spurious in *. rewrite filter_cons.
  destruct b; simpl in *; lia.
Qed.

(** ** What can be stepped *)

Lemma signalled_total s : exists s', signalled s s'.
Proof.
  destruct (decide (W_Sleep ∈ workers s)) as [H|H].
  - apply list_elem_of_lookup in H as [i Hi]. eexists. by eapply sig_worker.
  - destruct (main s) eqn:Em; try (exists s; apply sig_none; [done|congruence]). eexists. by eapply sig_main.
Qed.

Lemma read_total s line rest : main s = M_Read -> input s = line :: rest -> exists s', step process false s s'.
Proof.
  intros Hm Hi. destruct (putNextWork line (Z.of_nat (length (workers s))) (q_of s)) as [[q call] over] eqn:E.
  destruct call.
  - eexists. eapply step_read; [done..|]. reflexivity.
  - destruct (signalled_total (mk_sys q (workers s) (if over then M_Pop InLoop else M_Read) rest (output s))) as [s' Hs]. exists s'. eapply step_read; [done..|]. exact Hs.
  - eexists. eapply step_read; [done..|]. reflexivity.
Qed.

(** [process] gives a result or throws; it does not run on. *)
Hypothesis Hends : forall d, (exists out, process d = Ret out) \/ (exists e, process d = Exn e).

Lemma busy_steps s i id d : workers s !! i = Some (W_Busy id d) -> exists s', step process false s s'.
Proof.
  intros Hi. destruct (Hends d) as [[out Ho]|[e He]].
  - destruct (putProcessedData id out (q_of s)) as [q wake] eqn:E. eexists. by eapply step_put.
  - eexists. by eapply step_fail.
Qed.

Definition finished (s : sys) : Prop := main s = M_End /\ workers s = [].

(** The main thread waits for a line whose processing has thrown. *)
Definition blocked (s : sys) : Prop :=
  exists p d, main s = M_Sleep p /\ W_Failed (return_counter (q_of s)) d ∈ workers s.

Lemma progress s pending lines : reachable process max pending lines s -> (exists s', step process false s s') \/ finished s \/ blocked s.
Proof.
  intros Hr. pose proof (reachable_live _ _ Hmax _ _ _ Hr) as [L1 L2 L3 L4 L5].
  destruct (main s) as [|p|p|p| | |] eqn:Em.
  - left. destruct (input s) as [|line rest] eqn:Ei; [eexists; by apply step_end_input|by eapply read_total].
  - left. eexists. by apply step_pop.
  - destruct (L3 eq_refl) as [B1 B2 B3 B4 B5 B6 B7]. destruct (B7 p Em) as (Hlt & Hn & _).
    destruct (B6 (return_counter (q_of s))) as [(w & d & Hw & Hh)|[? ?]]; [lia| |congruence].
    destruct w; try done; injection Hh as -> ->.
    + left. apply list_elem_of_lookup in Hw as [i Hi]. by eapply busy_steps.
    + right. right. by exists p, d.
  - left. eexists. by apply step_woken.
  - left. eexists. by apply step_destroy.
  - left. destruct (workers s) as [|w rest] eqn:Ew; [eexists; by apply step_end|].
    assert (workers s !! 0%nat = Some w) as Hi by by rewrite Ew. destruct (L4 eq_refl) as [Hz Hs].
    destruct w as [| |id d|id d|].
    + eexists. eapply step_quit; [exact Hi|]. unfold getNextWork. by rewrite Hz.
    + destruct Hs. by left.
    + by eapply busy_steps.
    + eexists. eapply step_join; [done..|]. right. eauto.
    + eexists. eapply step_join; [done..|]. by left.
  - right. left. split; [done|]. by apply L5.
Qed.

(** Every run without spurious wakeups meets [P]. *)
Inductive inevitably (P : sys -> Prop) (s : sys) : Prop :=
| now : P s -> inevitably P s
| later : (exists s', step process false s s') -> (forall s', step process false s s' -> inevitably P s') -> inevitably P s.

Lemma inevitable (P : sys -> Prop) pending lines :
  (forall s, reachable process max pending lines s -> (exists s', step process false s s') \/ P s) ->
  forall s, reachable process max pending lines s -> inevitably P s.
Proof.
  intros HP s. remember (measure s) as n eqn:En. revert s En. induction n as [n IH] using lt_wf_ind. intros s -> Hr.
  destruct (HP s Hr) as [Hst|Hp]; [|by apply now]. apply later; [done|]. intros s' Hs'.
  eapply IH; [|done|].
  - exact (measure_step _ _ _ Hs' (reachable_live _ _ Hmax _ _ _ Hr)).
  - eapply reach_step; [exact Hr|by exists false].
Qed.

(** ** The end of the input *)

Definition at_end (m : main_state) : bool :=
  match m with M_Pop AtEnd | M_Sleep AtEnd | M_Woken AtEnd | M_Destroy | M_Join | M_End => true | _ => false end.

Lemma signalled_input s s' : signalled s s' -> input s' = input s /\ (at_end (main s') = at_end (main s)).
Proof. intros [i Hi|p Hp|]; [done| |done]. split; [done|]. cbn. rewrite Hp. by destruct p. Qed.

Lemma at_end_step b s s' : step process b s s' -> (at_end (main s) = true -> input s = []) -> (at_end (main s') = true -> input s' = []).
Proof.
  assert (forall p s, at_end (main (pop p s)) = true -> p = AtEnd /\ input (pop p s) = input s) as Hpop.
  { intros p s0. unfold pop. destruct (waitProcessedData _); destruct p; cbn; done. }
  destruct 1 as [s i Hi Hg|s s' i id data q Hi Hg Hsig|s i Hi Hg|s i id data out q wake Hi Hp Hput|s i id data e Hi Hp|s s' line rest q call over Hm Hin Hput Hs'|s Hm Hin|s p Hm|s p Hm|s Hm|s w rest Hm Hw Hd|s Hm Hw|s i Hi|s p Hm]; intros Hl He; try (by apply Hl).
  - apply signalled_input in Hsig as [E1 E2]. rewrite E1. rewrite E2 in He. by apply Hl.
  - destruct wake; [|by apply Hl]. cbn in He. apply Hl. destruct (main s) as [|[]|[]|[]| | |]; done.
  - cbv zeta in Hs'. assert (at_end (if over then M_Pop InLoop else M_Read) = false) as Hno by by destruct over.
    destruct call; [subst s'|apply signalled_input in Hs' as [_ E2]; rewrite E2 in He|subst s']; cbn [main] in He; by rewrite Hno in He.
  - done.
  - destruct (Hpop p s He) as [-> E]. rewrite E. apply Hl. by rewrite Hm.
  - destruct (Hpop p _ He) as [-> E]. rewrite E. apply Hl. by rewrite Hm.
  - apply Hl. by rewrite Hm.
  - apply Hl. by rewrite Hm.
  - apply Hl. cbn in He. rewrite Hm. by destruct p.
Qed.

Lemma reachable_end pending lines s : reachable process max pending lines s -> at_end (main s) = true -> input s = [].
Proof. induction 1 as [|s s' _ IH [b Hst]]; [done|]. by eapply at_end_step. Qed.

Lemma pop_destroy p s : main (pop p s) = M_Destroy -> return_counter (q_of (pop p s)) = proc_counter (q_of (pop p s)).
Proof.
  unfold pop, waitProcessedData. destruct (processed_data (q_of s) !! _); [by destruct p|].
  destruct (return_counter (q_of s) =? proc_counter (q_of s)) eqn:E; [|done]. apply Z.eqb_eq in E. done.
Qed.

Lemma signalled_destroy s s' : signalled s s' -> main s' = M_Destroy -> main s = M_Destroy.
Proof. by intros [i Hi|p Hp|]. Qed.

Lemma step_to_destroy b s s' : step process b s s' -> main s <> M_Destroy -> main s' = M_Destroy -> return_counter (q_of s') = proc_counter (q_of s').
Proof.
  destruct 1 as [s i Hi Hg|s s' i id data q Hi Hg Hsig|s i Hi Hg|s i id data out q wake Hi Hp Hput|s i id data e Hi Hp|s s' line rest q call over Hm Hin Hput Hs'|s Hm Hin|s p Hm|s p Hm|s Hm|s w rest Hm Hw Hd|s Hm Hw|s i Hi|s p Hm]; intros Hn He; try done.
  - apply (signalled_destroy _ _ Hsig) in He. done.
  - destruct wake; [|done]. cbn in He. by destruct (main s).
  - cbv zeta in Hs'. destruct call; [subst s'|apply (signalled_destroy _ _ Hs') in He|subst s']; cbn [main] in He; by destruct over.
  - by apply pop_destroy.
  - by apply pop_destroy.
Qed.

End Runs.
