(* ===== verification/QueueSpec.v ===== *)
(** * What the queue promises

    The output is the results of the lines in their order; the workers are
    counted and no wakeup is lost; every run ends, and can only end before its
    end because a line was refused; what is lost when the main thread is faster
    than the workers. *)

From stdpp Require Import gmap.
From S2P Require Import Prelude Machine QueueManager QueueSafety QueueLive QueueRuns.

#[local] Open Scope list_scope.

(** ** A scheduler

    Runs as lists of choices: which thread moves, and whom its signal wakes. *)

Inductive act := A_Worker (i : nat) (woken : nat) | A_Main (woken : nat) | A_Spurious.

Definition exec_signal (j : nat) (s : sys) : option sys :=
  match workers s !! j with
  | Some W_Sleep => Some (set_worker j W_Lock s)
  | _ =>
    if decide (W_Sleep ∈ workers s) then None
    else match main s with M_Sleep p => Some (set_main (M_Woken p) s) | _ => Some s end
  end.

Section Exec.
Variable process : list Z -> res (list Z).

Definition exec_worker (i j : nat) (s : sys) : option sys :=
  match workers s !! i with
  | Some W_Lock =>
    match getNextWork (q_of s) with
    | G_Quit => Some (set_worker i W_Done s)
    | G_Work id data q => exec_signal j (set_queue q (set_worker i (W_Busy id data) s))
    | G_Wait => Some (set_worker i W_Sleep s)
    end
  | Some (W_Busy id data) =>
    match process data with
    | Ret out => let '(q, wake) := putProcessedData id out (q_of s) in
      Some ((if wake : bool then broadcast else fun s => s) (set_queue q (set_worker i W_Lock s)))
    | Exn _ => Some (set_worker i (W_Failed id data) s)
    | _ => None
    end
  | _ => None
  end.

Definition exec_main (j : nat) (s : sys) : option sys :=
  match main s with
  | M_Read =>
    match input s with
    | line :: rest =>
      let '(q, call, over) := putNextWork line (Z.of_nat (length (workers s))) (q_of s) in
      let m := if over : bool then M_Pop InLoop else M_Read in
      match call with
      | Spawn => Some (mk_sys q (W_Lock :: workers s) m rest (output s))
      | Signal => exec_signal j (mk_sys q (workers s) m rest (output s))
      | Nothing => Some (mk_sys q (workers s) m rest (output s))
      end
    | [] => Some (set_main (M_Pop AtEnd) s)
    end
  | M_Pop p => Some (pop p s)
  | M_Woken p => Some (pop p (set_queue (set_waiting false (q_of s)) s))
  | M_Destroy => Some (broadcast (set_main M_Join (set_queue (setNumWorkers 0 (q_of s)) s)))
  | M_Join =>
    match workers s with
    | W_Done :: rest | W_Failed _ _ :: rest => Some (mk_sys (q_of s) rest (main s) (input s) (output s))
    | [] => Some (set_main M_End s)
    | _ => None
    end
  | _ => None
  end.

Definition exec (a : act) (s : sys) : option sys :=
  match a with
  | A_Worker i j => exec_worker i j s
  | A_Main j => exec_main j s
  | A_Spurious => match main s with M_Sleep p => Some (set_main (M_Woken p) s) | _ => None end
  end.

Fixpoint schedule (l : list act) (s : sys) : option sys :=
  match l with [] => Some s | a :: l => s' ← exec a s; schedule l s' end.

Lemma exec_signal_ok j s s' : exec_signal j s = Some s' -> signalled s s'.
Proof.
  unfold exec_signal. intros H. destruct (workers s !! j) as [[]|] eqn:Ej.
  2: { injection H as <-. by apply sig_worker. }
  all: destruct (decide (W_Sleep ∈ workers s)); [done|]; destruct (main s) eqn:Em; injection H as <-; first [by apply sig_main|by (apply sig_none; [done|congruence])].
Qed.

Definition is_spurious (a : act) : bool := match a with A_Spurious => true | _ => false end.

Lemma exec_step a s s' : exec a s = Some s' -> step process (is_spurious a) s s'.
Proof.
  destruct a as [i j|j|]; cbn [exec is_spurious].
  - unfold exec_worker. destruct (workers s !! i) as [[| |id d|id d|]|] eqn:Ei; try done.
    + destruct (getNextWork (q_of s)) eqn:Eg; [intros [= <-]|intros H|intros [= <-]].
      * by apply step_quit.
      * eapply step_get; [done..|]. by eapply exec_signal_ok.
      * by apply step_wait.
    + destruct (process d) as [out|e| |] eqn:Ep; try done.
      * destruct (putProcessedData id out (q_of s)) as [q wake] eqn:E. intros [= <-]. by eapply step_put.
      * intros [= <-]. by eapply step_fail.
  - unfold exec_main. destruct (main s) as [|p|p|p| | |] eqn:Em; try done.
    + destruct (input s) as [|line rest] eqn:Ei; [intros [= <-]; by apply step_end_input|].
      destruct (putNextWork _ _ _) as [[q call] over] eqn:E. intros H.
      eapply step_read; [done..|]. cbv zeta. destruct call; [congruence| |congruence]. by eapply exec_signal_ok.
    + intros [= <-]. by apply step_pop.
    + intros [= <-]. by apply step_woken.
    + intros [= <-]. by apply step_destroy.
    + destruct (workers s) as [|w rest] eqn:Ew; [intros [= <-]; by apply step_end|].
      destruct w as [| |id d|id d|]; try done; intros [= <-]; rewrite <- Em; eapply step_join; try done; eauto.
  - destruct (main s) eqn:Em; try done. intros [= <-]. by apply step_spurious_main.
Qed.

Lemma schedule_reachable max pending lines l s : schedule l (start max pending lines) = Some s -> reachable process max pending lines s.
Proof.
  assert (forall s0, reachable process max pending lines s0 -> schedule l s0 = Some s -> reachable process max pending lines s) as H.
  { induction l as [|a l IH]; intros s0 Hr Hs; cbn [schedule] in Hs; [by injection Hs as <-|].
    destruct (exec a s0) as [s1|] eqn:E; [|done]. eapply IH; [|exact Hs]. eapply reach_step; [exact Hr|exists (is_spurious a); by eapply exec_step]. }
  apply H. constructor.
Qed.

Lemma schedule_run l s s' : schedule l s = Some s' -> run process (is_spurious <$> l) s s'.
Proof.
  revert s. induction l as [|a l IH]; intros s H; cbn [schedule] in H; [injection H as <-; constructor|].
  destruct (exec a s) as [s1|] eqn:E; [|done]. eapply run_cons; [by eapply exec_step|by apply IH].
Qed.

(** A state in which no thread can move. *)
Lemma no_step s p : main s = M_Sleep p -> (forall w, w ∈ workers s -> w = W_Sleep \/ exists id d, w = W_Failed id d) -> ~ exists s', step process false s s'.
Proof.
  intros Hm Hw [s' Hst].
  assert (forall i w, workers s !! i = Some w -> w = W_Sleep \/ exists id d, w = W_Failed id d) as Hl by (intros i w Hi; apply Hw; by eapply list_elem_of_lookup_2).
  inversion Hst; subst; try congruence.
  all: match goal with H : workers _ !! _ = Some _ |- _ => destruct (Hl _ _ H) as [?|(? & ? & ?)]; congruence end.
Qed.

End Exec.

(** ** Theorems *)

(** C2. Whatever the interleaving of the main thread and any number of workers,
    whomever the signals wake and with spurious wakeups, what the main thread
    has written is the results of [processOneData] on the first lines of the
    input, each once and in their order. *)
Theorem output_in_order process max pending lines s : reachable process max pending lines s ->
  Forall2 (fun line out => process line = Ret out) (take (length (output s)) lines) (output s).
Proof. intros Hr. by destruct (reachable_safe _ _ _ _ _ Hr) as [_ _ _ (_ & _ & H)]. Qed.

(** C34. Every run ends: with [max] workers, a run over [n] lines with [k]
    spurious wakeups has at most [(max + 14) n + max + 6 + 2 k] steps, whether
    or not lines are refused. *)
Theorem pipeline_terminates process max pending lines l s : 0 < max < 2 ^ 32 -> run process l (start max pending lines) s ->
  (length l <= (Z.to_nat max + 14) * length lines + Z.to_nat max + 6 + 2 * spurious l)%nat.
Proof.
  intros Hm Hr. pose proof (run_measure _ _ Hm _ _ _ pending lines Hr (reach_start _ _ _ _)) as H.
  assert (measure max (start max pending lines) = (Z.to_nat max + 14) * length lines + Z.to_nat max + 6)%nat as E; [|lia].
  unfold measure. cbn [start q_of workers main input total waiting_data processed_data setNumPending setNumWorkers create length main_weight].
  rewrite map_size_empty. lia.
Qed.

(** C3. If [processOneData] gives a result for every line, the filter finishes:
    from each of its states, every run without spurious wakeups comes to the
    state in which the main thread has ended and joined all the workers. *)
Theorem pipeline_finishes process max pending lines s : 0 < max < 2 ^ 32 -> (forall d, exists out, process d = Ret out) ->
  reachable process max pending lines s -> inevitably process finished s.
Proof.
  intros Hm Hp. eapply inevitable; [exact Hm|]. clear s. intros s Hr.
  assert (forall d, (exists out, process d = Ret out) \/ (exists e, process d = Exn e)) as Hends by auto.
  destruct (progress process max Hm Hends s pending lines Hr) as [?|[?|(p & d & _ & Hf)]]; [by left|by right|].
  destruct (reachable_live _ _ Hm _ _ _ Hr) as [_ L2 _ _ _]. destruct (L2 _ _ Hf) as [e He]. destruct (Hp d). congruence.
Qed.

(** C35. The threads do not deadlock by themselves: when no thread can move the
    filter has ended, or the main thread waits for the result of a line on which
    [processOneData] has thrown, whose worker has died. *)
Theorem blocks_only_on_failure process max pending lines s : 0 < max < 2 ^ 32 ->
  (forall d, (exists out, process d = Ret out) \/ (exists e, process d = Exn e)) ->
  reachable process max pending lines s -> ~ (exists s', step process false s s') ->
  finished s \/ exists e line, lines !! Z.to_nat (return_counter (q_of s)) = Some line /\ process line = Exn e.
Proof.
  intros Hm Hends Hr Hn. destruct (progress process max Hm Hends s pending lines Hr) as [?|[?|(p & d & _ & Hf)]]; [done|by left|right].
  destruct (reachable_live _ _ Hm _ _ _ Hr) as [_ L2 _ _ _]. destruct (L2 _ _ Hf) as [e He].
  destruct (reachable_safe _ _ _ _ _ Hr) as [_ Hh _ _]. destruct (Hh _ _ _ Hf eq_refl) as [_ Hl]. eauto.
Qed.

(** C33. Before [destroy], [num_free_workers] is the number of the workers that
    are in [getNextWork], there are at most [max_workers] of them, and no wakeup
    is lost: as many of the free workers as there are lines waiting, or all of
    them, are awake. *)
Theorem no_lost_wakeup process max pending lines s : 0 < max < 2 ^ 32 -> reachable process max pending lines s -> ending (main s) = false ->
  num_free_workers (q_of s) = Z.of_nat (total free (workers s)) /\ Z.of_nat (length (workers s)) <= max /\
  (Nat.min (length (waiting_data (q_of s))) (total free (workers s)) <= total awake (workers s))%nat.
Proof.
  intros Hm Hr He. destruct (reachable_live _ _ Hm _ _ _ Hr) as [L1 _ L3 _ _]. destruct (L3 He) as [_ H2 _ _ H5 _ _].
  split_and!; [done|done|lia].
Qed.

(** C40. When the main thread leaves its last loop while no line waits for a
    worker, everything has been written: the output is the results of all the
    lines of the input. *)
Theorem output_complete process max pending lines b s s' : reachable process max pending lines s -> step process b s s' ->
  main s <> M_Destroy -> main s' = M_Destroy -> waiting_data (q_of s') = [] ->
  Forall2 (fun line out => process line = Ret out) lines (output s').
Proof.
  intros Hr Hst Hm Hm' Hw. assert (reachable process max pending lines s') as Hr' by (eapply reach_step; [exact Hr|by exists b]).
  pose proof (reachable_end _ _ _ _ _ Hr') as Hi. rewrite Hm' in Hi. specialize (Hi eq_refl).
  destruct (reachable_safe _ _ _ _ _ Hr') as [(taken & Hl & Hp) _ _ (H4 & H5 & H6)].
  rewrite Hw, Hi, !app_nil_r in Hl. subst taken.
  assert (return_counter (q_of s') = proc_counter (q_of s')) as Hc by (eapply step_to_destroy; eauto).
  rewrite take_ge in H6 by lia. done.
Qed.

(** ** Examples *)

(** One line through one worker. *)
Definition one_line : list act := [A_Main 0; A_Main 0; A_Worker 0 0; A_Worker 0 0; A_Main 0; A_Main 0; A_Main 0].

Lemma output_in_order_witness : exists s, schedule (fun l => Ret l) one_line (start 2 8 [[65]; [66]]) = Some s /\
  output s = [[65]] /\ Forall2 (fun line out => Ret line = Ret out) (take (length (output s)) [[65]; [66]]) (output s).
Proof.
  eexists. split; [vm_compute; reflexivity|]. split; [reflexivity|].
  apply (output_in_order (fun l => Ret l) 2 8). eapply (schedule_reachable _ _ _ _ one_line). vm_compute. reflexivity.
Defined.

Lemma pipeline_terminates_witness : exists s, run (fun l => Ret l) (is_spurious <$> one_line) (start 2 8 [[65]; [66]]) s /\
  (length (is_spurious <$> one_line) <= (Z.to_nat 2 + 14) * length [[65]; [66]] + Z.to_nat 2 + 6 + 2 * spurious (is_spurious <$> one_line))%nat.
Proof.
  assert (exists s, run (fun l => Ret l) (is_spurious <$> one_line) (start 2 8 [[65]; [66]]) s) as [s Hs].
  { eexists. apply schedule_run. vm_compute. reflexivity. }
  exists s. split; [exact Hs|]. apply (pipeline_terminates (fun l => Ret l) 2 8 [[65]; [66]] _ s); [lia|exact Hs].
Defined.

Lemma pipeline_finishes_witness : inevitably (fun l => Ret l) finished (start 2 8 [[65]; [66]]).
Proof.
  apply (pipeline_finishes (fun l => Ret l) 2 8 [[65]; [66]]); [lia|intros d; by exists d|constructor].
Defined.

(** The worker that throws: the main thread waits for its line for ever. *)
Definition refused (l : list Z) : res (list Z) := Exn InvalidFormatException.
Definition blocking : list act := [A_Main 0; A_Worker 0 0; A_Main 0; A_Worker 0 0; A_Main 0].

Lemma blocks_only_on_failure_witness : exists s, reachable refused 1 8 [[65]] s /\ ~ (exists s', step refused false s s') /\ ~ finished s /\
  (finished s \/ exists e line, [[65]] !! Z.to_nat (return_counter (q_of s)) = Some line /\ refused line = Exn e).
Proof.
  assert (exists s, schedule refused blocking (start 1 8 [[65]]) = Some s /\ workers s = [W_Failed 0 [65]] /\ main s = M_Sleep AtEnd) as (s & Hs & Hw & Hm).
  { eexists. split; [vm_compute; reflexivity|]. done. }
  apply schedule_reachable in Hs. assert (~ (exists s', step refused false s s')) as Hn.
  { eapply no_step; [exact Hm|]. rewrite Hw. intros w H. apply list_elem_of_singleton in H. right. eauto. }
  exists s. split_and!; [done|done|by intros [He _]; rewrite Hm in He|].
  apply (blocks_only_on_failure refused 1 8 [[65]] s); [lia|intros d; right; by exists InvalidFormatException|exact Hs|exact Hn].
Defined.

Lemma no_lost_wakeup_witness : exists s, reachable (fun l => Ret l) 2 8 [[65]; [66]] s /\ waiting_data (q_of s) = [[66]] /\
  (num_free_workers (q_of s) = Z.of_nat (total free (workers s)) /\ Z.of_nat (length (workers s)) <= 2 /\
  (Nat.min (length (waiting_data (q_of s))) (total free (workers s)) <= total awake (workers s))%nat).
Proof.
  assert (exists s, schedule (fun l => Ret l) [A_Main 0; A_Main 0; A_Worker 0 0] (start 2 8 [[65]; [66]]) = Some s /\ waiting_data (q_of s) = [[66]] /\ main s = M_Read) as (s & Hs & Hw & Hm).
  { eexists. split; [vm_compute; reflexivity|]. done. }
  apply schedule_reachable in Hs. exists s. split_and!; [done|done|..].
  all: apply (no_lost_wakeup (fun l => Ret l) 2 8 [[65]; [66]] s); [lia|exact Hs|by rewrite Hm].
Defined.

Lemma output_complete_witness : exists s, Forall2 (fun line out => Ret line = Ret out) [[65]] (output s) /\ output s = [[65]].
Proof.
  assert (exists s s', schedule (fun l => Ret l) [A_Main 0; A_Worker 0 0; A_Worker 0 0; A_Main 0; A_Main 0] (start 1 8 [[65]]) = Some s /\
    exec (fun l => Ret l) (A_Main 0) s = Some s' /\ main s <> M_Destroy /\ main s' = M_Destroy /\ waiting_data (q_of s') = [] /\ output s' = [[65]]) as (s & s' & Hs & He & H1 & H2 & H3 & H4).
  { eexists _, _. split; [vm_compute; reflexivity|]. split; [vm_compute; reflexivity|]. done. }
  exists s'. split; [|done].
  apply (output_complete (fun l => Ret l) 1 8 [[65]] false s s'); [by eapply schedule_reachable|exact (exec_step _ _ _ _ He)|done..].
Defined.

(** The main thread that reaches the end of the input before a worker has taken
    the line finds [return_counter == proc_counter] in [waitProcessedData], takes
    it for the end of the work, and ends without the output of the line. *)
Example output_lost : exists s, reachable (fun l => Ret l) 1 8 [[65]] s /\ finished s /\ output s = [].
Proof.
  assert (exists s, schedule (fun l => Ret l) [A_Main 0; A_Main 0; A_Main 0; A_Main 0; A_Worker 0 0; A_Main 0; A_Main 0] (start 1 8 [[65]]) = Some s /\
    finished s /\ output s = []) as (s & Hs & Hf & Ho).
  { eexists. split; [vm_compute; reflexivity|]. done. }
  apply schedule_reachable in Hs. eauto.
Qed.

(** With more free workers than lines, the unsigned difference in [putNextWork]
    wraps and the main thread waits for a result at once. *)
Example pending_wraps :
  putNextWork [65] 2 (mk_queue [] ∅ 2 2 2 2 16 false) = (mk_queue [[65]] ∅ 2 2 2 2 16 false, Signal, true).
Proof. reflexivity. Qed.
