(* ===== verification/MMDefault.v ===== *)
(** * core/mem: MM_default

    The default allocator: small blocks from lists by size, which are common to
    the threads and, with [MMD_THREAD], have a cache in each of them; other
    blocks from the system. Here for pointers of 8 bytes and an alignment of 16.
    What the threads share is changed by one instruction or between [i_lock] and
    [i_unlock] of a list; [alloc_step] is one such part of [impl_alloc], the
    functions below it run them one after the other. Backtraces, logs and the
    hash of blocks of the other debug options are left out. *)

From stdpp Require Import functions.
From S2P Require Import Prelude Machine.

#[local] Open Scope list_scope.

(** ** Memory *)

(** The bytes, what the system's malloc has given (address and size), the heads
    of the common lists, the heads and tails of those of each thread. *)
Record state := mk_state {
  mem : Z -> Z;
  chunks : list (Z * Z);
  alsmall : nat -> Z;
  thr_alsmall : nat -> nat -> Z * Z;
}.

Definition set_mem (m : Z -> Z) (st : state) : state := mk_state m (chunks st) (alsmall st) (thr_alsmall st).
Definition set_chunks (l : list (Z * Z)) (st : state) : state := mk_state (mem st) l (alsmall st) (thr_alsmall st).
Definition set_alsmall (c : nat) (v : Z) (st : state) : state := mk_state (mem st) (chunks st) (<[c := v]> (alsmall st)) (thr_alsmall st).
Definition set_thr (t c : nat) (v : Z * Z) (st : state) : state :=
  mk_state (mem st) (chunks st) (alsmall st) (<[t := <[c := v]> (thr_alsmall st t)]> (thr_alsmall st)).

Definition load (m : Z -> Z) (a n : Z) : list Z := m <$> seqZ a n.
Definition store (m : Z -> Z) (a : Z) (l : list Z) : Z -> Z :=
  fun x => if (a <=? x) && (x <? a + Z.of_nat (length l)) then nth (Z.to_nat (x - a)) l 0 else m x.

(** Inside of a block of the system. *)
Definition accessible (st : state) (a n : Z) : bool :=
  existsb (fun '(b, l) => (b <=? a) && (a + n <=? b + l)) (chunks st).

Definition read_mem (a n : Z) : act state (list Z) := fun st =>
  if accessible st a n then Ret (load (mem st) a n, st) else Crash OutOfBounds.
Definition write_mem (a : Z) (l : list Z) : act state unit := fun st =>
  if accessible st a (Z.of_nat (length l)) then Ret (tt, set_mem (store (mem st) a l) st) else Crash OutOfBounds.

(** A pointer in memory. *)
Definition read_ptr (a : Z) : act state Z := l ← read_mem a 8; mret (le_value l).
Definition write_ptr (a v : Z) : act state unit := write_mem a (le_bytes 8 v).
Definition memset (a b n : Z) : act state unit := write_mem a (replicate (Z.to_nat n) b).

Definition modify (f : state -> state) : act state unit := fun st => Ret (tt, f st).

(** The system's malloc gave [got], 0 for null; its free. *)
Definition sys_malloc (got n : Z) : act state Z := fun st =>
  if got =? 0 then Ret (0, st) else Ret (got, set_chunks ((got, n) :: chunks st) st).
Definition sys_free (a : Z) : act state unit := fun st =>
  if existsb (fun '(b, _) => b =? a) (chunks st) then Ret (tt, set_chunks (filter (fun c => c.1 <> a) (chunks st)) st)
  else Crash BadCopy.

(** ** Sizes and lists *)

(** The bits of [debug_options] that change the blocks. *)
Record options := mk_options {
  MMD_THREAD : bool;
  MMD_CLEAN : bool;
  MMD_BOUND : bool;
}.

Definition round_up (size : Z) : Z := Z.land (u64 (size + 15)) (Z.lnot 15).

(** The size of a block with its length before it, and its guards. *)
Definition block_size (o : options) (size_ : Z) : Z :=
  let size := u64 (size_ + 8) in
  if MMD_BOUND o then u64 (round_up size + 64) else size.

(** The lists: 0 is [alsmall_ptr], 1 to 8 [alsmall_small], 9 to 14
    [alsmall_bigger]. *)
Definition bigger (size : Z) : nat :=
  if size <=? 192 then 9%nat else if size <=? 256 then 10%nat else if size <=? 384 then 11%nat
  else if size <=? 512 then 12%nat else if size <=? 768 then 13%nat else 14%nat.

Definition alloc_class (size : Z) : nat :=
  if size <=? 8 then O
  else if (size - 1) / 16 <? 8 then S (Z.to_nat ((size - 1) / 16))
  else bigger (round_up size).

Definition free_class (size : Z) : nat :=
  if size <=? 8 then O
  else if (size - 1) / 16 <? 8 then S (Z.to_nat ((size - 1) / 16))
  else bigger size.

Definition class_size (c : nat) : Z :=
  nth c [8; 16; 32; 48; 64; 80; 96; 112; 128; 192; 256; 384; 512; 768; 1024] 0.

(** How much is taken from the system for a list. *)
Definition class_alloc (c : nat) : Z :=
  if (c =? 0)%nat then 512 - 4 * 8 else if (c <? 9)%nat then 1024 - 4 * 8 else 4096 - 4 * 8.

(** The list that takes the rest of it. *)
Definition rest_class (remain_size : Z) : res nat :=
  if remain_size <? 16 then Ret O
  else if remain_size / 16 <=? 8 then Ret (S (Z.to_nat ((remain_size - 16) / 16)))
  else if remain_size <? 192 then Ret 8%nat
  else if remain_size <? 256 then Ret 9%nat
  else if remain_size <? 384 then Ret 10%nat
  else if remain_size <? 512 then Ret 11%nat
  else if remain_size <? 768 then Ret 12%nat
  else if remain_size <? 1024 then Ret 13%nat
  else Crash AssertFailed.

(** ** Allocation *)

(** Makes a list of the blocks of [size] bytes up to [end_]: where they end. *)
Fixpoint carve (fuel : nat) (cur size end_ : Z) : act state Z :=
  match fuel with
  | O => fun _ => NoFuel
  | S fuel =>
    let next := cur + size in
    if next <=? end_ then write_ptr cur next;; carve fuel next size end_
    else write_ptr (cur - size) 0;; mret cur
  end.

(** Where a thread is in [impl_alloc]; the size is rounded to that of a list. *)
Inductive local :=
| L_Read (size : Z) (* before the test of the head *)
| L_Pop (size : Z) (* it was not null *)
| L_Chunk (size : Z) (* go_alloc *)
| L_Publish (size add remain remain_size : Z) (* a list was made *)
| L_Discard (size out add : Z) (* the head is not null any more *)
| L_Rest (size out remain remain_size : Z) (* the rest is not in a list yet *)
| L_Out (size out : Z). (* has_out *)

Definition alloc_start (o : options) (t : nat) (size_ got : Z) : act state local :=
  let size := block_size o size_ in
  if 1024 <? size then
    a ← sys_malloc got (u64 (size + 16)); mret (L_Out size (a + 16 - 8))
  else if MMD_THREAD o then
    let c := alloc_class size in
    let size := class_size c in
    st ← get;
    let '(out, tail) := thr_alsmall st t c in
    if out =? 0 then mret (L_Read size)
    else next ← read_ptr out; modify (set_thr t c (next, tail));; mret (L_Out size out)
  else mret (L_Read size).

Definition alloc_step (got : Z) (l : local) : act state local :=
  match l with
  | L_Read size =>
    let c := alloc_class size in
    st ← get; mret (if alsmall st c =? 0 then L_Chunk (class_size c) else L_Pop (class_size c))
  | L_Pop size =>
    let c := alloc_class size in
    st ← get;
    let out := alsmall st c in
    if out =? 0 then mret (L_Chunk size)
    else next ← read_ptr out; modify (set_alsmall c next);; mret (L_Out size out)
  | L_Chunk size =>
    let alloc := class_alloc (alloc_class size) in
    add ← sys_malloc got alloc;
    if add =? 0 then throw MemException
    else
      let end_ := add + alloc in
      let add := add + (16 - 8) in
      remain ← carve (S (Z.to_nat alloc)) add size end_;
      mret (L_Publish size add remain (end_ - remain))
  | L_Publish size add remain remain_size =>
    let c := alloc_class size in
    st ← get;
    let out := alsmall st c in
    if out =? 0 then
      next ← read_ptr add; modify (set_alsmall c next);;
      mret (if 0 <? remain_size then L_Rest size add remain remain_size else L_Out size add)
    else next ← read_ptr out; modify (set_alsmall c next);; mret (L_Discard size out add)
  | L_Discard size out add => sys_free (add - (16 - 8));; mret (L_Out size out)
  | L_Rest size out remain remain_size =>
    c ← lift (rest_class remain_size);
    st ← get; write_ptr remain (alsmall st c);; modify (set_alsmall c remain);; mret (L_Out size out)
  | L_Out size out => mret (L_Out size out)
  end.

(** From [has_out]: the fillings, the guards and the length; what is returned. *)
Definition alloc_finish (o : options) (size_ size out : Z) : act state Z :=
  (if MMD_CLEAN o then memset out 0xcd size else mret tt);;
  out ← (if MMD_BOUND o then
           memset out 0xcb 32;;
           memset (out + 32 + 8 + size_) 0xcf (size - size_ - 8 - 32);;
           mret (out + 32)
         else mret out);
  write_ptr out size_;;
  mret (out + 8).

(** A thread by itself: the head it tests, what it takes from the system, the
    list it makes and the rest are five steps at most. *)
Fixpoint alloc_loop (fuel : nat) (o : options) (size_ got : Z) (l : local) : act state Z :=
  match l with
  | L_Out size out => alloc_finish o size_ size out
  | _ =>
    match fuel with
    | O => fun _ => NoFuel
    | S fuel => l ← alloc_step got l; alloc_loop fuel o size_ got l
    end
  end.

Definition impl_alloc (o : options) (t : nat) (size_ got : Z) : act state Z :=
  l ← alloc_start o t size_ got; alloc_loop 5 o size_ got l.

(** ** Release *)

(** [memcmp] with a guard; the assertion fails when it is overwritten. *)
Definition check_guard (a b n : Z) : act state unit :=
  l ← read_mem a n;
  if bool_decide (l = replicate (Z.to_nat n) b) then mret tt else lift (Crash AssertFailed).

Definition impl_free (o : options) (t : nat) (m : Z) : act state unit :=
  size_ ← read_ptr (m - 8);
  let size := block_size o size_ in
  let m := m - 8 in
  m ← (if MMD_BOUND o then
         let m := m - 32 in
         check_guard m 0xcb 32;;
         check_guard (m + 32 + 8 + size_) 0xcf (size - size_ - 8 - 32);;
         mret m
       else mret m);
  (if MMD_CLEAN o then memset m 0xcd size else mret tt);;
  if 1024 <? size then sys_free (m + 8 - 16)
  else
    let c := free_class size in
    st ← get;
    if MMD_THREAD o then
      let '(head, tail) := thr_alsmall st t c in
      write_ptr m head;; modify (set_thr t c (m, if head =? 0 then m else tail))
    else write_ptr m (alsmall st c);; modify (set_alsmall c m).

Definition impl_size (m : Z) : act state Z := read_ptr (m - 8).

Definition impl_regrow (o : options) (t : nat) (m newsize got : Z) : act state Z :=
  oldsize ← read_ptr (m - 8);
  if newsize <=? oldsize then mret m
  else
    nm ← impl_alloc o t newsize got;
    data ← read_mem m oldsize; write_mem nm data;;
    impl_free o t m;;
    mret nm.

(** ** The caches of a thread *)

Definition insertGlobalCache (c : nat) (first last : Z) : act state unit :=
  if first =? 0 then mret tt
  else st ← get; write_ptr last (alsmall st c);; modify (set_alsmall c first).

(** One list of [impl_closingThread], and all of them. *)
Definition close_class (t c : nat) : act state unit :=
  st ← get;
  let '(first, last) := thr_alsmall st t c in
  insertGlobalCache c first last;; modify (set_thr t c (0, last)).

Fixpoint close_from (t c n : nat) : act state unit :=
  match n with O => mret tt | S n => close_class t c;; close_from t (S c) n end.
Definition impl_closingThread (t : nat) : act state unit := close_from t 0 15.
