(* ===== verification/MMLists.v ===== *)
(** * Blocks and free lists of the allocator

    Who owns each block: a list, a thread in the middle of an operation, the
    program. Owners are a function from the addresses of blocks; what the lists
    are in memory, and how taking from them and adding to them change both. *)

From stdpp Require Import functions.
From S2P Require Import Prelude Machine MMDefault.

#[local] Open Scope list_scope.

(** ** Memory *)

Lemma length_load m a n : length (load m a n) = Z.to_nat n.
Proof. unfold load. by rewrite length_fmap, length_seqZ. Qed.

Lemma load_ext m m' a n : (forall x, a <= x < a + n -> m' x = m x) -> load m' a n = load m a n.
Proof. intros H. apply list_fmap_ext. intros i x Hx. apply H. apply lookup_seqZ in Hx. lia. Qed.

Lemma store_out m a l x : x < a \/ a + Z.of_nat (length l) <= x -> store m a l x = m x.
Proof. intros H. unfold store. destruct (Z.leb_spec a x), (Z.ltb_spec x (a + Z.of_nat (length l))); simpl; try done; lia. Qed.

Lemma load_store m a l : load (store m a l) a (Z.of_nat (length l)) = l.
Proof.
  apply list_eq. intros i. unfold load. rewrite list_lookup_fmap. destruct (decide (i < length l)%nat) as [Hi|Hi].
  - rewrite lookup_seqZ_lt by lia. simpl. unfold store.
    destruct (Z.leb_spec a (a + Z.of_nat i)), (Z.ltb_spec (a + Z.of_nat i) (a + Z.of_nat (length l))); try lia. cbn [andb].
    replace (Z.to_nat (a + Z.of_nat i - a)) with i by lia. destruct (nth_lookup_or_length l i 0) as [->|]; [done|lia].
  - rewrite lookup_seqZ_ge by lia. rewrite lookup_ge_None_2 by lia. done.
Qed.

(** A pointer. *)
Definition ptr (m : Z -> Z) (a : Z) : Z := le_value (load m a 8).

Lemma ptr_ext m m' a : (forall x, a <= x < a + 8 -> m' x = m x) -> ptr m' a = ptr m a.
Proof. intros H. unfold ptr. by rewrite (load_ext m m'). Qed.

Lemma ptr_store m a v : in_u 64 v -> ptr (store m a (le_bytes 8 v)) a = v.
Proof.
  intros Hv. unfold ptr. pose proof (load_store m a (le_bytes 8 v)) as H. rewrite le_bytes_length in H. change (Z.of_nat 8) with 8 in H. rewrite H.
  rewrite le_value_bytes. apply Z.mod_small. exact Hv.
Qed.

(** ** Owners *)

Inductive place :=
| P_List (c : nat) (* a common list *)
| P_Cache (t c : nat) (* a list of a thread *)
| P_Local (t : nat) (* a thread in an operation *)
| P_User.

#[export] Instance place_eq_dec : EqDecision place.
Proof. solve_decision. Defined.

(** The size and the owner of the block at an address. *)
Abbreviation owners := (Z -> option (Z * place)).

Definition give (own : owners) (a : Z) (x : option (Z * place)) : owners := <[a := x]> own.

(** Blocks are in the memory that the system gave, and do not overlap. *)
Definition inside (l : list (Z * Z)) (a n : Z) : Prop := exists b k, (b, k) ∈ l /\ b <= a /\ a + n <= b + k.
Definition apart (a n b k : Z) : Prop := a + n <= b \/ b + k <= a.

Record blocks (l : list (Z * Z)) (own : owners) : Prop := mk_blocks {
  chunk_ok : forall b k, (b, k) ∈ l -> 0 < b /\ b mod 16 = 0 /\ 0 < k /\ b + k < 2 ^ 64;
  chunk_apart : forall b k b' k', (b, k) ∈ l -> (b', k') ∈ l -> (b, k) = (b', k') \/ apart b k b' k';
  block_in : forall a n p, own a = Some (n, p) -> 8 <= n /\ inside l a n;
  block_apart : forall a n p b k q, own a = Some (n, p) -> own b = Some (k, q) -> a <> b -> apart a n b k;
}.

Lemma accessible_inside st a n : inside (chunks st) a n -> accessible st a n = true.
Proof.
  intros (b & k & Hb & H1 & H2). unfold accessible. apply existsb_exists. exists (b, k). split; [by apply list_elem_of_In|].
  apply andb_true_intro. split; by apply Z.leb_le.
Qed.

Lemma inside_sub l a n b k : inside l a n -> a <= b -> b + k <= a + n -> inside l b k.
Proof. intros (c & j & Hc & H1 & H2) H3 H4. exists c, j. split; [done|lia]. Qed.

Lemma block_bounds l own a n p : blocks l own -> own a = Some (n, p) -> 0 < a /\ a + n < 2 ^ 64 /\ 8 <= n.
Proof. intros Hb Ho. destruct (block_in _ _ Hb _ _ _ Ho) as (Hn & b & k & Hc & H1 & H2). destruct (chunk_ok _ _ Hb _ _ Hc) as (? & ? & ? & ?). lia. Qed.

(** A block changes hands. *)
Lemma blocks_give l own a n p q : blocks l own -> own a = Some (n, p) -> blocks l (give own a (Some (n, q))).
Proof.
  intros [H1 H2 H3 H4] Ho. split; [done|done|..].
  - intros b k r. unfold give. destruct (decide (a = b)) as [<-|Hne]; [rewrite fn_lookup_insert; intros [= <- <-]; eauto|rewrite fn_lookup_insert_ne by done; eauto].
  - intros b k r b' k' r'. unfold give.
    destruct (decide (a = b)) as [<-|Hne]; [rewrite fn_lookup_insert; intros [= <- <-]|rewrite fn_lookup_insert_ne by done; intros Hb];
      (destruct (decide (a = b')) as [<-|Hne']; [rewrite fn_lookup_insert; intros [= <- <-]|rewrite fn_lookup_insert_ne by done; intros Hb']); intros Hab; [done|by eapply H4..].
Qed.

(** A block is given up. *)
Lemma blocks_drop l own a : blocks l own -> blocks l (give own a None).
Proof.
  intros [H1 H2 H3 H4]. split; [done|done|..].
  - intros b k r. unfold give. destruct (decide (a = b)) as [<-|Hne]; [by rewrite fn_lookup_insert|rewrite fn_lookup_insert_ne by done; eauto].
  - intros b k r b' k' r'. unfold give.
    destruct (decide (a = b)) as [<-|Hne]; [by rewrite fn_lookup_insert|rewrite fn_lookup_insert_ne by done; intros Hb];
      (destruct (decide (a = b')) as [<-|Hne']; [by rewrite fn_lookup_insert|rewrite fn_lookup_insert_ne by done; intros Hb']); by eapply H4.
Qed.

(** ** Free lists *)

Fixpoint chain (m : Z -> Z) (head : Z) (ls : list Z) : Prop :=
  match ls with [] => head = 0 | a :: ls => head = a /\ a <> 0 /\ chain m (ptr m a) ls end.

Lemma chain_ext m m' head ls : (forall a, a ∈ ls -> ptr m' a = ptr m a) -> chain m head ls -> chain m' head ls.
Proof.
  revert head. induction ls as [|a ls IH]; intros head H; cbn [chain]; [done|]. intros (-> & Ha & Hc). split_and!; [done|done|].
  rewrite H by by left. apply IH; [|done]. intros b Hb. apply H. by right.
Qed.

(** The places of the blocks of a list: in all but the first, whose addresses
    give users only their length, the user's memory is aligned to 16 bytes. *)
Definition aligned (c : nat) (a : Z) : Prop := a mod 8 = 0 /\ (c <> O -> a mod 16 = 8).

Record free_list (own : owners) (m : Z -> Z) (head : Z) (c : nat) (pl : place) (ls : list Z) : Prop := mk_free_list {
  fl_chain : chain m head ls;
  fl_nodup : NoDup ls;
  fl_own : forall a, a ∈ ls <-> own a = Some (class_size c, pl);
  fl_aligned : forall a, a ∈ ls -> aligned c a;
}.

Lemma fl_head own m head c pl ls : free_list own m head c pl ls -> head <> 0 -> exists rest, ls = head :: rest.
Proof. intros [Hc _ _ _] Hh. destruct ls as [|a ls]; [done|]. destruct Hc as (-> & _ & _). eauto. Qed.

(** Taking the first block. *)
Lemma fl_pop own m head c pl rest q : free_list own m head c pl (head :: rest) -> q <> pl ->
  own head = Some (class_size c, pl) /\ aligned c head /\
  free_list (give own head (Some (class_size c, q))) m (ptr m head) c pl rest.
Proof.
  intros [Hc Hn Ho Ha] Hq. assert (own head = Some (class_size c, pl)) as Hh by (apply Ho; by left).
  split_and!; [done|apply Ha; by left|]. cbn [chain] in Hc. destruct Hc as (_ & _ & Hc). apply list.NoDup_cons in Hn as [Hn1 Hn2]. split; [done|done|..].
  - intros a. unfold give. destruct (decide (head = a)) as [<-|Hne].
    + rewrite fn_lookup_insert. split; [done|]. intros [= Hqp]. done.
    + rewrite fn_lookup_insert_ne by done. rewrite <- Ho. rewrite elem_of_cons. naive_solver.
  - intros a Hin. apply Ha. by right.
Qed.

(** Adding a block. *)
Lemma fl_push l own m head c pl ls a p : blocks l own -> free_list own m head c pl ls -> own a = Some (class_size c, p) -> p <> pl -> aligned c a -> in_u 64 head ->
  free_list (give own a (Some (class_size c, pl))) (store m a (le_bytes 8 head)) a c pl (a :: ls).
Proof.
  intros Hb [Hc Hn Ho Ha] Hoa Hp Hal Hh. assert (a ∉ ls) as Hni by (intros Hin; apply Ho in Hin; congruence). split.
  - cbn [chain]. split_and!; [done|destruct (block_bounds _ _ _ _ _ Hb Hoa); lia|]. rewrite ptr_store by done. eapply chain_ext; [|done].
    intros b Hin. apply ptr_ext. intros x Hx. apply store_out. rewrite le_bytes_length. apply Ho in Hin.
    assert (b <> a) by congruence. pose proof (block_apart _ _ Hb _ _ _ _ _ _ Hin Hoa ltac:(done)) as Hab. unfold apart in Hab.
    destruct (block_in _ _ Hb _ _ _ Hin), (block_in _ _ Hb _ _ _ Hoa). lia.
  - by apply list.NoDup_cons.
  - intros b. rewrite elem_of_cons. unfold give. destruct (decide (a = b)) as [<-|Hne].
    + rewrite fn_lookup_insert. naive_solver.
    + rewrite fn_lookup_insert_ne by done. rewrite <- Ho. naive_solver.
  - intros b Hin. apply elem_of_cons in Hin as [->|Hin]; [done|by apply Ha].
Qed.

(** Changes elsewhere. *)
Lemma fl_frame own own' m m' head c pl ls : free_list own m head c pl ls ->
  (forall a n, own' a = Some (n, pl) <-> own a = Some (n, pl)) ->
  (forall a n, own a = Some (n, pl) -> forall x, a <= x < a + n -> m' x = m x) ->
  (forall a n, own a = Some (n, pl) -> 8 <= n) ->
  free_list own' m' head c pl ls.
Proof.
  intros [Hc Hn Ho Ha] Ho' Hm H8. split; [|done| |done].
  - eapply chain_ext; [|done]. intros a Hin. apply ptr_ext. intros x Hx. apply Ho in Hin. eapply Hm; [exact Hin|]. specialize (H8 _ _ Hin). lia.
  - intros a. by rewrite Ho', Ho.
Qed.
