(* ===== verification/MMInv.v ===== *)
(** * The invariant of the allocator

    What each list, each thread in an operation and each block of the program
    owns, and that every part of [impl_alloc] keeps it and leaves alone the
    blocks of others. *)

From stdpp Require Import functions.
From S2P Require Import Prelude Machine MMDefault MMLists.

#[local] Open Scope list_scope.

(** ** Sizes *)

Definition count (c : nat) : Z := (class_alloc c - 8) / class_size c.
Definition rest_size (c : nat) : Z := class_alloc c - 8 - class_size c * count c.

Lemma class_facts c : (c < 15)%nat -> 8 <= class_size c <= 1024 /\ class_size c mod 8 = 0 /\ (c <> O -> class_size c mod 16 = 0) /\
  alloc_class (class_size c) = c /\ 0 < count c /\ 0 <= rest_size c < class_size c /\ class_alloc c mod 8 = 0 /\ class_size c * count c <= 4096 /\ count c <= 100.
Proof. intros Hc. do 15 (destruct c as [|c]; [vm_compute; repeat split; congruence|]). lia. Qed.

Definition rest_place (c : nat) : res nat := rest_class (rest_size c).

Lemma rest_facts c : (c < 15)%nat -> 0 < rest_size c ->
  exists rc, rest_class (rest_size c) = Ret rc /\ (rc < 15)%nat /\ class_size rc <= rest_size c /\ (rc <> O -> c <> O).
Proof. intros Hc Hr. do 15 (destruct c as [|c]; [first [vm_compute in Hr; discriminate Hr|eexists; split; [vm_compute; reflexivity|]; vm_compute; repeat split; (lia || congruence)]|]). lia. Qed.

Definition size_ok (size : Z) : bool :=
  let c := alloc_class size in (c <? 15)%nat && (size <=? class_size c) && (free_class size =? c)%nat.

Lemma sizes_ok : forallb size_ok (seqZ 1 1024) = true.
Proof. vm_compute. reflexivity. Qed.

Lemma size_facts size : 0 < size <= 1024 -> (alloc_class size < 15)%nat /\ size <= class_size (alloc_class size) /\ free_class size = alloc_class size.
Proof.
  intros Hs. pose proof (proj1 (forallb_forall _ _) sizes_ok size) as H. rewrite <- list_elem_of_In, elem_of_seqZ in H. specialize (H ltac:(lia)).
  unfold size_ok in H. apply andb_prop in H as [H H3]. apply andb_prop in H as [H1 H2].
  apply Nat.ltb_lt in H1. apply Z.leb_le in H2. apply Nat.eqb_eq in H3. done.
Qed.

(** A request whose block and chunk have a size: with the length, the guards and
    the alignment, at most 103 bytes more. *)
Definition request (size_ : Z) : Prop := 0 <= size_ < 2 ^ 64 - 128.

Lemma round_up_id size : 0 <= size < 2 ^ 64 - 16 -> round_up size = (size + 15) / 16 * 16.
Proof.
  intros Hs. unfold round_up. rewrite uwrap_id by (unfold in_u; lia). change (Z.lnot 15) with (Z.lnot (Z.ones 4)). rewrite <- Z.ldiff_land, Z.ldiff_ones_r by lia.
  rewrite Z.shiftl_mul_pow2, Z.shiftr_div_pow2 by lia. done.
Qed.

Lemma block_size_eq o size_ : request size_ ->
  block_size o size_ = if MMD_BOUND o then (size_ + 8 + 15) / 16 * 16 + 64 else size_ + 8.
Proof.
  intros Hr. unfold request in Hr. unfold block_size. rewrite (uwrap_id 64 (size_ + 8)) by (unfold in_u; lia). destruct (MMD_BOUND o); [|done].
  rewrite round_up_id by lia. apply uwrap_id. unfold in_u. divlia.
Qed.

Lemma block_size_bounds o size_ : request size_ -> size_ + 8 <= block_size o size_ < 2 ^ 64 - 32 /\ (MMD_BOUND o = true -> size_ + 8 + 64 <= block_size o size_ <= size_ + 8 + 79).
Proof. intros Hr. rewrite block_size_eq by done. unfold request in Hr. destruct (MMD_BOUND o); [divlia|]. split; [lia|done]. Qed.

(** ** The lists *)

Record lists_ok (st : state) (own : owners) : Prop := mk_lists_ok {
  l_blocks : blocks (chunks st) own;
  l_common : forall c, (c < 15)%nat -> exists ls, free_list own (mem st) (alsmall st c) c (P_List c) ls;
  l_cache : forall t c, (c < 15)%nat -> exists ls, free_list own (mem st) (fst (thr_alsmall st t c)) c (P_Cache t c) ls /\
    (ls <> [] -> list.last ls = Some (snd (thr_alsmall st t c)));
}.

(** What a step of thread [t] leaves alone. *)
Definition others (t : nat) (p : place) : Prop := p = P_User \/ exists t', p = P_Local t' /\ t' <> t.

Record evolves (t : nat) (st : state) (own : owners) (st' : state) (own' : owners) : Prop := mk_evolves {
  ev_own : forall a n p, others t p -> own a = Some (n, p) -> own' a = Some (n, p);
  ev_mem : forall a n p, others t p -> own a = Some (n, p) -> forall x, a <= x < a + n -> mem st' x = mem st x;
  ev_chunk : forall a n p, others t p -> own a = Some (n, p) -> (a, n) ∈ chunks st -> (a, n) ∈ chunks st';
}.

Lemma evolves_refl t st own : evolves t st own st own.
Proof. by split. Qed.

Lemma evolves_trans t st1 own1 st2 own2 st3 own3 : evolves t st1 own1 st2 own2 -> evolves t st2 own2 st3 own3 -> evolves t st1 own1 st3 own3.
Proof.
  intros [H1 H2 H3] [H4 H5 H6]. split.
  - eauto.
  - intros a n p Hp Ho x Hx. rewrite (H5 a n p) by eauto. by eapply H2.
  - eauto.
Qed.

Lemma head_u own m head c pl ls l : blocks l own -> free_list own m head c pl ls -> in_u 64 head.
Proof.
  intros Hb [Hc _ Ho _]. destruct ls as [|a ls]; [cbn in Hc; subst; unfold in_u; lia|]. destruct Hc as (-> & _ & _).
  destruct (block_bounds _ _ _ _ _ Hb (proj1 (Ho a) ltac:(by left))) as (? & ? & ?). unfold in_u. lia.
Qed.

(** ** Taking from a list and adding to it *)

Ltac fn_at c c' := destruct (decide (c = c')) as [<-|?]; [rewrite ?fn_lookup_insert|rewrite ?fn_lookup_insert_ne by done].

Lemma give_other own a x b n p : own a <> Some (n, p) -> x <> Some (n, p) -> give own a x b = Some (n, p) <-> own b = Some (n, p).
Proof. intros H1 H2. unfold give. destruct (decide (a = b)) as [<-|Hne]; [rewrite fn_lookup_insert; naive_solver|by rewrite fn_lookup_insert_ne]. Qed.

Lemma give_at own a x : give own a x a = x.
Proof. unfold give. by rewrite fn_lookup_insert. Qed.
Lemma give_ne own a x b : a <> b -> give own a x b = own b.
Proof. intros. unfold give. by rewrite fn_lookup_insert_ne. Qed.

(** The lists other than that of [pl] when a block goes from [p] to [q] and
    memory changes in blocks of [p] only. *)
Lemma lists_frame st own m' a n p q pl c head ls : free_list own (mem st) head c pl ls -> blocks (chunks st) own -> own a = Some (n, p) -> p <> pl -> q <> pl ->
  (forall x, ~ (a <= x < a + n) -> m' x = mem st x) -> free_list (give own a (Some (n, q))) m' head c pl ls.
Proof.
  intros Hf Hb Ho Hp Hq Hm. eapply fl_frame; [exact Hf|..].
  - intros b k. apply give_other; congruence.
  - intros b k Hbk x Hx. apply Hm. intros Hax. assert (a <> b) as Hab by congruence.
    pose proof (block_apart _ _ Hb _ _ _ _ _ _ Ho Hbk Hab) as Hap. unfold apart in Hap. lia.
  - intros b k Hbk. apply (block_in _ _ Hb _ _ _ Hbk).
Qed.

Lemma others_local t : ~ others t (P_Local t).
Proof. by intros [?|(t' & [= <-] & ?)]. Qed.
Lemma others_list t c : ~ others t (P_List c).
Proof. by intros [?|(t' & ? & ?)]. Qed.
Lemma others_cache t t' c : ~ others t (P_Cache t' c).
Proof. by intros [?|(? & ? & ?)]. Qed.

Lemma evolves_give t st own m' al th a n p q : blocks (chunks st) own -> own a = Some (n, p) -> ~ others t p ->
  (forall x, ~ (a <= x < a + n) -> m' x = mem st x) ->
  evolves t st own (mk_state m' (chunks st) al th) (give own a (Some (n, q))).
Proof.
  intros Hb Ho Hp Hm. split; cbn [mem chunks].
  - intros b k r Hr Hbk. destruct (decide (a = b)) as [<-|Hne]; [|by rewrite give_ne]. assert (r = p) by congruence. by subst.
  - intros b k r Hr Hbk x Hx. apply Hm. intros Hax. assert (a <> b) as Hab by (intros ->; assert (r = p) by congruence; by subst).
    pose proof (block_apart _ _ Hb _ _ _ _ _ _ Ho Hbk Hab) as Hap. unfold apart in Hap. lia.
  - done.
Qed.

(** Pop of a common list. *)
Lemma pop_common t st own c : lists_ok st own -> (c < 15)%nat -> alsmall st c <> 0 ->
  let out := alsmall st c in let st' := set_alsmall c (ptr (mem st) out) st in let own' := give own out (Some (class_size c, P_Local t)) in
  accessible st out 8 = true /\ own out = Some (class_size c, P_List c) /\ aligned c out /\ lists_ok st' own' /\ evolves t st own st' own'.
Proof.
  intros [Hb Hl Ht] Hc Hne out st' own'. destruct (Hl c Hc) as [ls Hf]. destruct (fl_head _ _ _ _ _ _ Hf Hne) as [rest ->].
  destruct (fl_pop _ _ _ _ _ _ (P_Local t) Hf ltac:(done)) as (Ho & Ha & Hf').
  destruct (block_in _ _ Hb _ _ _ Ho) as [H8 Hin]. fold out in Ho.
  split_and!; [|done|done| |].
  - apply accessible_inside. eapply inside_sub; [exact Hin|lia|lia].
  - split; subst st' own'; cbn [set_alsmall chunks mem alsmall thr_alsmall].
    + by eapply blocks_give.
    + intros d Hd. fn_at c d; [eauto|]. destruct (Hl d Hd) as [ls' Hf2]. exists ls'. eapply lists_frame; [exact Hf2|done|exact Ho|congruence|done|done].
    + intros t' d Hd. destruct (Ht t' d Hd) as (ls' & Hf2 & Hlast). exists ls'. split; [|done]. eapply lists_frame; [exact Hf2|done|exact Ho|done|done|done].
  - apply evolves_give with (p := P_List c); [done|done|apply others_list|done].
Qed.

(** Pop of a list of the thread. *)
Lemma pop_cache t st own c : lists_ok st own -> (c < 15)%nat -> fst (thr_alsmall st t c) <> 0 ->
  let out := fst (thr_alsmall st t c) in let st' := set_thr t c (ptr (mem st) out, snd (thr_alsmall st t c)) st in let own' := give own out (Some (class_size c, P_Local t)) in
  accessible st out 8 = true /\ own' out = Some (class_size c, P_Local t) /\ aligned c out /\ lists_ok st' own' /\ evolves t st own st' own'.
Proof.
  intros [Hb Hl Ht] Hc Hne out st' own'. destruct (Ht t c Hc) as (ls & Hf & Hlast). destruct (fl_head _ _ _ _ _ _ Hf Hne) as [rest ->].
  destruct (fl_pop _ _ _ _ _ _ (P_Local t) Hf ltac:(done)) as (Ho & Ha & Hf').
  destruct (block_in _ _ Hb _ _ _ Ho) as [H8 Hin]. fold out in Ho.
  split_and!; [|apply give_at|done| |].
  - apply accessible_inside. eapply inside_sub; [exact Hin|lia|lia].
  - split; subst st' own'; cbn [set_thr chunks mem alsmall thr_alsmall].
    + by eapply blocks_give.
    + intros d Hd. destruct (Hl d Hd) as [ls' Hf2]. exists ls'. eapply lists_frame; [exact Hf2|done|exact Ho|done|done|done].
    + intros t' d Hd. destruct (decide (t = t')) as [<-|Htt]; [rewrite fn_lookup_insert; fn_at c d|rewrite fn_lookup_insert_ne by done].
      * exists rest. split; [exact Hf'|]. intros Hr. specialize (Hlast ltac:(done)). cbn [snd]. rewrite <- Hlast. by destruct rest.
      * destruct (Ht t d Hd) as (ls' & Hf2 & Hl2). exists ls'. split; [|done]. eapply lists_frame; [exact Hf2|done|exact Ho|congruence|done|done].
      * destruct (Ht t' d Hd) as (ls' & Hf2 & Hl2). exists ls'. split; [|done]. eapply lists_frame; [exact Hf2|done|exact Ho|congruence|done|done].
  - apply evolves_give with (p := P_Cache t c); [done|done|apply others_cache|done].
Qed.

Lemma store_ptr_out m a v n x : 8 <= n -> ~ (a <= x < a + n) -> store m a (le_bytes 8 v) x = m x.
Proof. intros Hn Hx. apply store_out. rewrite le_bytes_length. lia. Qed.

(** Push on a common list. *)
Lemma push_common t st own c a : lists_ok st own -> (c < 15)%nat -> own a = Some (class_size c, P_Local t) -> aligned c a ->
  let st' := set_alsmall c a (set_mem (store (mem st) a (le_bytes 8 (alsmall st c))) st) in let own' := give own a (Some (class_size c, P_List c)) in
  accessible st a 8 = true /\ lists_ok st' own' /\ evolves t st own st' own'.
Proof.
  intros [Hb Hl Ht] Hc Ho Ha st' own'. destruct (Hl c Hc) as [ls Hf]. destruct (block_in _ _ Hb _ _ _ Ho) as [H8 Hin].
  split_and!.
  - apply accessible_inside. eapply inside_sub; [exact Hin|lia|lia].
  - split; subst st' own'; cbn [set_alsmall set_mem chunks mem alsmall thr_alsmall].
    + by eapply blocks_give.
    + intros d Hd. fn_at c d.
      * exists (a :: ls). eapply fl_push; [exact Hb|exact Hf|exact Ho|done|done|by eapply head_u].
      * destruct (Hl d Hd) as [ls' Hf2]. exists ls'. eapply lists_frame; [exact Hf2|done|exact Ho|done|congruence|].
        intros x Hx. by eapply store_ptr_out.
    + intros t' d Hd. destruct (Ht t' d Hd) as (ls' & Hf2 & Hlast). exists ls'. split; [|done]. eapply lists_frame; [exact Hf2|done|exact Ho|done|done|].
      intros x Hx. by eapply store_ptr_out.
  - subst st' own'. unfold set_alsmall, set_thr, set_mem. cbn [chunks mem alsmall thr_alsmall].
    eapply evolves_give; [done|exact Ho|apply others_local|]. intros x Hx. by eapply store_ptr_out.
Qed.

(** Push on a list of the thread. *)
Lemma push_cache t st own c a : lists_ok st own -> (c < 15)%nat -> own a = Some (class_size c, P_Local t) -> aligned c a ->
  let head := fst (thr_alsmall st t c) in
  let st' := set_thr t c (a, if head =? 0 then a else snd (thr_alsmall st t c)) (set_mem (store (mem st) a (le_bytes 8 head)) st) in
  let own' := give own a (Some (class_size c, P_Cache t c)) in
  accessible st a 8 = true /\ lists_ok st' own' /\ evolves t st own st' own'.
Proof.
  intros [Hb Hl Ht] Hc Ho Ha head st' own'. destruct (Ht t c Hc) as (ls & Hf & Hlast). destruct (block_in _ _ Hb _ _ _ Ho) as [H8 Hin].
  split_and!.
  - apply accessible_inside. eapply inside_sub; [exact Hin|lia|lia].
  - split; subst st' own'; cbn [set_thr set_mem chunks mem alsmall thr_alsmall].
    + by eapply blocks_give.
    + intros d Hd. destruct (Hl d Hd) as [ls' Hf2]. exists ls'. eapply lists_frame; [exact Hf2|done|exact Ho|done|done|].
      intros x Hx. by eapply store_ptr_out.
    + intros t' d Hd. destruct (decide (t = t')) as [<-|Htt]; [rewrite fn_lookup_insert; fn_at c d|rewrite fn_lookup_insert_ne by done].
      * exists (a :: ls). split; [eapply fl_push; [exact Hb|exact Hf|exact Ho|done|done|by eapply head_u]|]. intros _. cbn [snd].
        destruct ls as [|b ls].
        -- assert (head = 0) as -> by (destruct Hf as [Hch _ _ _]; exact Hch). done.
        -- assert (head = b /\ b <> 0) as [-> Hnz] by (destruct Hf as [Hch _ _ _]; destruct Hch as (? & ? & _); done).
           rewrite (proj2 (Z.eqb_neq _ _)) by done. rewrite <- Hlast by done. done.
      * destruct (Ht t d Hd) as (ls' & Hf2 & Hl2). exists ls'. split; [|done]. eapply lists_frame; [exact Hf2|done|exact Ho|done|congruence|].
        intros x Hx. by eapply store_ptr_out.
      * destruct (Ht t' d Hd) as (ls' & Hf2 & Hl2). exists ls'. split; [|done]. eapply lists_frame; [exact Hf2|done|exact Ho|done|congruence|].
        intros x Hx. by eapply store_ptr_out.
  - subst st' own'. unfold set_alsmall, set_thr, set_mem. cbn [chunks mem alsmall thr_alsmall].
    eapply evolves_give; [done|exact Ho|apply others_local|]. intros x Hx. by eapply store_ptr_out.
Qed.

(** A block of the thread is written. *)
Lemma write_own t st own a n m' : lists_ok st own -> own a = Some (n, P_Local t) -> (forall x, ~ (a <= x < a + n) -> m' x = mem st x) ->
  lists_ok (set_mem m' st) own /\ evolves t st own (set_mem m' st) own.
Proof.
  intros [Hb Hl Ht] Ho Hm.
  assert (forall pl c head ls, pl <> P_Local t -> free_list own (mem st) head c pl ls -> free_list own m' head c pl ls) as Hfr.
  { intros pl c head ls Hpl Hf. eapply fl_frame; [exact Hf|done| |intros b k Hbk; apply (block_in _ _ Hb _ _ _ Hbk)].
    intros b k Hbk x Hx. apply Hm. intros Hax. assert (a <> b) as Hab by congruence.
    pose proof (block_apart _ _ Hb _ _ _ _ _ _ Ho Hbk Hab) as Hap. unfold apart in Hap. lia. }
  split.
  - split; cbn [set_mem chunks mem alsmall thr_alsmall]; [done|..].
    + intros c Hc. destruct (Hl c Hc) as [ls Hf]. exists ls. by apply Hfr.
    + intros t' c Hc. destruct (Ht t' c Hc) as (ls & Hf & Hlast). exists ls. split; [by apply Hfr|done].
  - split; cbn [set_mem mem chunks]; [done| |done].
    intros b k r Hr Hbk x Hx. apply Hm. intros Hax. assert (a <> b) as Hab by (intros ->; assert (r = P_Local t) by congruence; subst; by eapply others_local).
    pose proof (block_apart _ _ Hb _ _ _ _ _ _ Ho Hbk Hab) as Hap. unfold apart in Hap. lia.
Qed.

(** ** Memory of the system *)

(** What malloc promises. *)
Definition malloc_ok (l : list (Z * Z)) (got n : Z) : Prop :=
  got <> 0 -> 0 < got /\ got mod 16 = 0 /\ got + n < 2 ^ 64 /\ forall b k, (b, k) ∈ l -> apart got n b k.

Lemma fresh_block l own got n a k p : blocks l own -> malloc_ok l got n -> got <> 0 -> 8 <= n -> own a = Some (k, p) -> apart got n a k.
Proof.
  intros Hb Hm Hg Hn Ho. destruct (Hm Hg) as (_ & _ & _ & Hap). destruct (block_in _ _ Hb _ _ _ Ho) as (Hk & b & j & Hbj & H1 & H2).
  specialize (Hap _ _ Hbj). unfold apart in *. lia.
Qed.

Lemma malloc_lists t st own got n : lists_ok st own -> malloc_ok (chunks st) got n -> got <> 0 -> 8 <= n ->
  let st' := set_chunks ((got, n) :: chunks st) st in let own' := give own got (Some (n, P_Local t)) in
  lists_ok st' own' /\ evolves t st own st' own' /\ own got = None.
Proof.
  intros [Hb Hl Ht] Hm Hg Hn st' own'. destruct (Hm Hg) as (Hg0 & Hg16 & Hgn & Hap).
  assert (own got = None) as Hnone.
  { destruct (own got) as [[k p]|] eqn:Eo; [|done]. pose proof (fresh_block _ _ _ _ _ _ _ Hb Hm Hg Hn Eo) as H.
    destruct (block_in _ _ Hb _ _ _ Eo). unfold apart in H. lia. }
  assert (forall pl c head ls, pl <> P_Local t -> free_list own (mem st) head c pl ls -> free_list own' (mem st) head c pl ls) as Hfr.
  { intros pl c head ls Hpl Hf. eapply fl_frame; [exact Hf| |done|intros b k Hbk; apply (block_in _ _ Hb _ _ _ Hbk)].
    intros b k. apply give_other; congruence. }
  split_and!; [| |done].
  - split; subst st' own'; cbn [set_chunks chunks mem alsmall thr_alsmall].
    + split.
      * intros b k Hin. apply elem_of_cons in Hin as [[= -> ->]|Hin]; [lia|by apply (chunk_ok _ _ Hb)].
      * intros b k b' k' H1 H2. apply elem_of_cons in H1 as [[= -> ->]|H1]; apply elem_of_cons in H2 as [[= -> ->]|H2]; [by left|right|right|by eapply (chunk_apart _ _ Hb)].
        -- by apply Hap.
        -- specialize (Hap _ _ H1). unfold apart in *. lia.
      * intros a k p. unfold give. fn_at got a; [intros [= <- <-]|intros Ho].
        -- split; [done|]. exists got, n. split; [by left|lia].
        -- destruct (block_in _ _ Hb _ _ _ Ho) as (? & b & j & Hbj & ? & ?). split; [done|]. exists b, j. split; [by right|done].
      * intros a k p b j q. unfold give. fn_at got a; (fn_at got b; [|]); intros H1 H2 Hab; try done.
        -- injection H1 as <- <-. by eapply fresh_block.
        -- injection H2 as <- <-. pose proof (fresh_block _ _ _ _ _ _ _ Hb Hm Hg Hn H1) as H. unfold apart in *. lia.
        -- by eapply (block_apart _ _ Hb).
    + intros c Hc. destruct (Hl c Hc) as [ls Hf]. exists ls. by apply Hfr.
    + intros t' c Hc. destruct (Ht t' c Hc) as (ls & Hf & Hlast). exists ls. split; [by apply Hfr|done].
  - split; subst st' own'; cbn [set_chunks mem chunks]; [|done|].
    + intros a k p Hp Ho. rewrite give_ne; [done|congruence].
    + intros a k p Hp Ho Hin. by right.
Qed.

(** A chunk that is one block of the thread goes back. *)
Lemma free_lists t st own a n : lists_ok st own -> own a = Some (n, P_Local t) -> (a, n) ∈ chunks st ->
  let st' := set_chunks (filter (fun c => c.1 <> a) (chunks st)) st in let own' := give own a None in
  existsb (fun '(b, _) => b =? a) (chunks st) = true /\ lists_ok st' own' /\ evolves t st own st' own'.
Proof.
  intros [Hb Hl Ht] Ho Hin st' own'.
  assert (forall b k p, own b = Some (k, p) -> b <> a -> forall c j, (c, j) ∈ chunks st -> c <= b -> b + k <= c + j -> (c, j) ∈ chunks st') as Hkeep.
  { intros b k p Hbk Hba c j Hcj H1 H2. subst st'. cbn [set_chunks chunks]. apply list_elem_of_filter. split; [|done]. cbn [fst]. intros ->.
    destruct (chunk_apart _ _ Hb _ _ _ _ Hin Hcj) as [[= ->]|Hap].
    - pose proof (block_apart _ _ Hb _ _ _ _ _ _ Ho Hbk ltac:(done)) as Hap. destruct (block_in _ _ Hb _ _ _ Hbk). unfold apart in Hap. lia.
    - destruct (chunk_ok _ _ Hb _ _ Hin) as (_ & _ & ? & _), (chunk_ok _ _ Hb _ _ Hcj) as (_ & _ & ? & _). unfold apart in Hap. lia. }
  assert (forall pl c head ls, pl <> P_Local t -> free_list own (mem st) head c pl ls -> free_list own' (mem st) head c pl ls) as Hfr.
  { intros pl c head ls Hpl Hf. eapply fl_frame; [exact Hf| |done|intros b k Hbk; apply (block_in _ _ Hb _ _ _ Hbk)].
    intros b k. apply give_other; congruence. }
  split_and!.
  - apply existsb_exists. exists (a, n). split; [by apply list_elem_of_In|]. by apply Z.eqb_refl.
  - split; [split| |]; cbn [st' own' set_chunks chunks mem alsmall thr_alsmall].
    + intros b k H. apply list_elem_of_filter in H as [_ H]. by apply (chunk_ok _ _ Hb).
    + intros b k b' k' H1 H2. apply list_elem_of_filter in H1 as [_ H1], H2 as [_ H2]. by apply (chunk_apart _ _ Hb).
    + intros b k p Hbk. subst own'. unfold give in Hbk. destruct (decide (a = b)) as [<-|Hne]; [by rewrite fn_lookup_insert in Hbk|].
      rewrite fn_lookup_insert_ne in Hbk by done. destruct (block_in _ _ Hb _ _ _ Hbk) as (? & c & j & Hcj & ? & ?). split; [done|].
      exists c, j. split; [by eapply Hkeep|done].
    + by apply (block_apart _ _ (blocks_drop _ _ a Hb)).
    + intros c Hc. destruct (Hl c Hc) as [ls Hf]. exists ls. by apply Hfr.
    + intros t' c Hc. destruct (Ht t' c Hc) as (ls & Hf & Hlast). exists ls. split; [by apply Hfr|done].
  - split; [|done|].
    + intros b k p Hp Hbk. subst own'. rewrite give_ne; [done|]. intros <-. assert (p = P_Local t) by congruence. subst. by eapply others_local.
    + intros b k p Hp Hbk Hbc. apply (Hkeep b k p Hbk); [|done|lia|lia]. intros ->. assert (p = P_Local t) by congruence. subst. by eapply others_local.
Qed.
