(* ===== verification/MMCarve.v ===== *)
(** * Memory of the system made into lists

    [carve] links the blocks of a chunk; publishing them splits the chunk into a
    block for the caller, blocks of the list and a rest. *)

From stdpp Require Import functions.
From S2P Require Import Prelude Machine MMDefault MMLists MMInv.

#[local] Open Scope list_scope.

(** ** Carving *)

(** [k] blocks one behind the other. *)
Fixpoint run (a size : Z) (k : nat) : list Z :=
  match k with O => [] | S k => a :: run (a + size) size k end.

Lemma elem_of_run x a size k : x ∈ run a size k <-> exists i, 0 <= i < Z.of_nat k /\ x = a + size * i.
Proof.
  revert a. induction k as [|k IH]; intros a; cbn [run].
  - split; [by intros ?%elem_of_nil|]. intros (i & ? & _). lia.
  - rewrite elem_of_cons, IH. split.
    + intros [->|(i & Hi & ->)]; [exists 0; lia|exists (i + 1); lia].
    + intros (i & Hi & ->). destruct (decide (i = 0)) as [->|]; [left; lia|right; exists (i - 1); lia].
Qed.

Lemma nodup_run a size k : 0 < size -> NoDup (run a size k).
Proof.
  intros Hs. revert a. induction k as [|k IH]; intros a; cbn [run]; [constructor|]. apply list.NoDup_cons. split; [|apply IH].
  intros (i & Hi & E)%elem_of_run. nia.
Qed.

Lemma write_ptr_ok st a v b n : (b, n) ∈ chunks st -> b <= a -> a + 8 <= b + n ->
  write_ptr a v st = Ret (tt, set_mem (store (mem st) a (le_bytes 8 v)) st).
Proof.
  intros Hin H1 H2. unfold write_ptr, write_mem. rewrite le_bytes_length. change (Z.of_nat 8) with 8.
  rewrite accessible_inside; [done|]. exists b, n. done.
Qed.

Lemma carve_ok st b n k size end_ cur fuel : (b, n) ∈ chunks st -> b <= cur - size -> end_ <= b + n -> 0 < b -> b + n < 2 ^ 64 -> 8 <= size ->
  cur + size * Z.of_nat k <= end_ < cur + size * Z.of_nat k + size -> (k < fuel)%nat ->
  ptr (mem st) (cur - size) = cur ->
  exists m', carve fuel cur size end_ st = Ret (cur + size * Z.of_nat k, set_mem m' st) /\
    chain m' (ptr m' (cur - size)) (run cur size k) /\ (forall x, ~ (cur - size <= x < cur + size * Z.of_nat k) -> m' x = mem st x) /\
    (k <> O -> ptr m' (cur - size) = cur).
Proof.
  revert st cur fuel. induction k as [|k IH]; intros st cur fuel Hin Hb1 Hb2 Hb Hb64 Hs Hend Hf Hp; (destruct fuel as [|fuel]; [lia|]); cbn [carve]; unfold mbind, act_bind, mret, act_ret.
  - rewrite (proj2 (Z.leb_gt _ _)) by lia. rewrite (write_ptr_ok _ _ _ b n) by (done || lia). eexists. split; [|split_and!].
    + by rewrite Z.mul_0_r, Z.add_0_r.
    + cbn [run chain]. rewrite ptr_store; [done|]. unfold in_u. lia.
    + intros x Hx. apply store_out. rewrite le_bytes_length. lia.
    + done.
  - assert (0 <= size * Z.of_nat k) as Hk0 by nia. assert (size * Z.of_nat (S k) = size + size * Z.of_nat k) as HS by lia. rewrite HS in *.
    rewrite (proj2 (Z.leb_le _ _)) by lia. rewrite (write_ptr_ok _ _ _ b n) by (done || lia).
    set (st1 := set_mem _ st).
    destruct (IH st1 (cur + size) fuel) as (m' & E & Hc & Ho & _); try done; try lia.
    { subst st1. cbn [set_mem mem]. replace (cur + size - size) with cur by lia. apply ptr_store. unfold in_u. lia. }
    exists m'. rewrite E. split; [f_equal; f_equal; lia|]. replace (cur + size - size) with cur in * by lia.
    assert (forall x, ~ (cur <= x < cur + (size + size * Z.of_nat k)) -> m' x = mem st x) as Hout.
    { intros x Hx. rewrite Ho by lia. apply store_out. rewrite le_bytes_length. lia. }
    assert (ptr m' (cur - size) = cur) as Hprev by (etransitivity; [|exact Hp]; apply ptr_ext; intros x Hx; apply Hout; lia).
    split_and!; [|intros x Hx; apply Hout; lia|done].
    rewrite Hprev. cbn [run chain]. split_and!; [done|lia|done].
Qed.

(** From the start of a chunk. *)
Lemma carve_chunk st c add : (c < 15)%nat -> (add - 8, class_alloc c) ∈ chunks st -> 0 < add - 8 -> add - 8 + class_alloc c < 2 ^ 64 ->
  exists m', carve (S (Z.to_nat (class_alloc c))) add (class_size c) (add - 8 + class_alloc c) st = Ret (add + class_size c * count c, set_mem m' st) /\
    chain m' add (run add (class_size c) (Z.to_nat (count c))) /\ (forall x, ~ (add <= x < add - 8 + class_alloc c) -> m' x = mem st x).
Proof.
  intros Hc Hin Hpos H64. pose proof (class_facts c Hc) as (Hs & _ & _ & _ & Hk & Hr & _ & Hkk & Hk100). unfold rest_size in Hr.
  assert (exists k, Z.to_nat (count c) = S k) as [k Ek] by (exists (Z.to_nat (count c) - 1)%nat; lia). rewrite Ek.
  assert (Z.of_nat k = count c - 1) as Ek' by lia.
  cbn [carve]. unfold mbind, act_bind. rewrite (proj2 (Z.leb_le _ _)) by nia. rewrite (write_ptr_ok _ _ _ (add - 8) (class_alloc c)) by (done || nia).
  set (st1 := set_mem _ st).
  destruct (carve_ok st1 (add - 8) (class_alloc c) k (class_size c) (add - 8 + class_alloc c) (add + class_size c) (Z.to_nat (class_alloc c))) as (m' & E & Hch & Ho & _); try done; try nia.
  { subst st1. cbn [set_mem mem]. replace (add + class_size c - class_size c) with add by lia. apply ptr_store. unfold in_u. nia. }
  replace (add + class_size c - class_size c) with add in * by lia.
  exists m'. rewrite E. split_and!.
  - f_equal. f_equal. nia.
  - cbn [run chain]. split_and!; [done|lia|done].
  - intros x Hx. rewrite Ho by nia. apply store_out. rewrite le_bytes_length. nia.
Qed.

(** ** Publishing *)

(** The blocks of a chunk: the first for thread [t], the others for the list,
    the rest for [t]. *)
Definition parts (t c : nat) (add x : Z) : option (Z * place) :=
  if x =? add then Some (class_size c, P_Local t)
  else if bool_decide (x ∈ run (add + class_size c) (class_size c) (Z.to_nat (count c) - 1)) then Some (class_size c, P_List c)
  else if (0 <? rest_size c) && (x =? add + class_size c * count c) then
    match rest_class (rest_size c) with Ret rc => Some (class_size rc, P_Local t) | _ => None end
  else None.

Definition split_chunk (own : owners) (t c : nat) (add : Z) : owners :=
  fun x => if (add - 8 <=? x) && (x <? add - 8 + class_alloc c) then parts t c add x else own x.

(** A part is the block of some number, or the rest behind all. *)
Lemma parts_spec t c add x n p : (c < 15)%nat -> parts t c add x = Some (n, p) ->
  exists i, 0 <= i /\ x = add + class_size c * i /\ 8 <= n /\
    (i < count c /\ n = class_size c \/ i = count c /\ n <= rest_size c).
Proof.
  intros Hc. pose proof (class_facts c Hc) as (Hs & _ & _ & _ & Hk & _). unfold parts.
  destruct (Z.eqb_spec x add) as [->|]; [intros [= <- <-]; exists 0; lia|].
  case_bool_decide as Hr; [apply elem_of_run in Hr as (i & Hi & ->); intros [= <- <-]; exists (i + 1); lia|].
  destruct ((0 <? rest_size c) && (x =? _)) eqn:E; [|done]. bool_to_prop. subst.
  destruct (rest_facts c Hc ltac:(done)) as (rc & -> & Hrc & Hle & _). intros [= <- <-].
  pose proof (class_facts rc Hrc) as (? & _). exists (count c). lia.
Qed.

Lemma parts_first t c add : parts t c add add = Some (class_size c, P_Local t).
Proof. unfold parts. by rewrite Z.eqb_refl. Qed.

Lemma parts_list t c add x : (c < 15)%nat -> parts t c add x = Some (class_size c, P_List c) <-> x ∈ run (add + class_size c) (class_size c) (Z.to_nat (count c) - 1).
Proof.
  intros Hc. pose proof (class_facts c Hc) as (Hs & _). unfold parts. split.
  - destruct (Z.eqb_spec x add) as [->|]; [done|]. case_bool_decide as Hr; [done|].
    destruct (_ && _); [|done]. by destruct (rest_class _).
  - intros Hx. pose proof Hx as (i & Hi & E)%elem_of_run. rewrite (proj2 (Z.eqb_neq _ _)) by nia. by rewrite bool_decide_eq_true_2.
Qed.

Lemma parts_place t c add x n p : parts t c add x = Some (n, p) -> p = P_Local t \/ p = P_List c /\ n = class_size c.
Proof.
  unfold parts. destruct (_ =? _); [intros [= <- <-]; by left|]. case_bool_decide; [intros [= <- <-]; by right|].
  destruct (_ && _); [|done]. destruct (rest_class _); [|done..]. intros [= <- <-]. by left.
Qed.

Lemma parts_apart t c add x n p y k q : (c < 15)%nat -> parts t c add x = Some (n, p) -> parts t c add y = Some (k, q) -> x <> y -> apart x n y k.
Proof.
  intros Hc Hx Hy Hne. pose proof (class_facts c Hc) as (Hs & _).
  destruct (parts_spec _ _ _ _ _ _ Hc Hx) as (i & Hi & -> & Hn & Hin). destruct (parts_spec _ _ _ _ _ _ Hc Hy) as (j & Hj & -> & Hk & Hjn).
  assert (i <> j) as Hij by congruence. unfold apart.
  assert (i < j \/ j < i) as [H|H] by lia.
  - left. assert (class_size c * (i + 1) <= class_size c * j) by nia. lia.
  - right. assert (class_size c * (j + 1) <= class_size c * i) by nia. lia.
Qed.

Lemma parts_in t c add x n p : (c < 15)%nat -> parts t c add x = Some (n, p) -> 8 <= n /\ add <= x /\ x + n <= add - 8 + class_alloc c.
Proof.
  intros Hc Hx. pose proof (class_facts c Hc) as (Hs & _ & _ & _ & _ & Hr & _). unfold rest_size in Hr.
  destruct (parts_spec _ _ _ _ _ _ Hc Hx) as (i & Hi & -> & Hn & Hin). split; [done|]. split; [nia|].
  destruct Hin as [[H ->]|[-> H]]; [|unfold rest_size in H; lia].
  assert (class_size c * (i + 1) <= class_size c * count c) by nia. lia.
Qed.

Section Split.
Variables (t c : nat) (st : state) (own : owners) (add : Z).
Hypothesis Hc : (c < 15)%nat.
Hypothesis Hlists : lists_ok st own.
Hypothesis Hown : own (add - 8) = Some (class_alloc c, P_Local t).

(** Outside the chunk nothing changes. *)
Lemma split_outside x n p : own x = Some (n, p) -> x <> add - 8 -> split_chunk own t c add x = own x /\ apart x n (add - 8) (class_alloc c).
Proof.
  intros Hx Hne. destruct Hlists as [Hb _ _]. pose proof (block_apart _ _ Hb _ _ _ _ _ _ Hx Hown Hne) as Hap.
  destruct (block_in _ _ Hb _ _ _ Hx). split; [|done]. unfold split_chunk. destruct (Z.leb_spec (add - 8) x), (Z.ltb_spec x (add - 8 + class_alloc c)); try done.
  unfold apart in Hap. lia.
Qed.

Lemma split_cases x n p : split_chunk own t c add x = Some (n, p) ->
  parts t c add x = Some (n, p) \/ own x = Some (n, p) /\ x <> add - 8 /\ apart x n (add - 8) (class_alloc c).
Proof.
  intros H. unfold split_chunk in H. destruct (_ && _) eqn:E; [by left|right].
  assert (x <> add - 8) as Hne.
  { intros ->. pose proof (class_facts c Hc) as (? & _ & _ & _ & ? & Hr & _). unfold rest_size in Hr. apply andb_false_iff in E as [E|E]; bool_to_prop; nia. }
  split_and!; [done|done|]. by destruct (split_outside x n p H Hne).
Qed.

Lemma split_part x n p : parts t c add x = Some (n, p) -> split_chunk own t c add x = Some (n, p).
Proof.
  intros H. destruct (parts_in _ _ _ _ _ _ Hc H). unfold split_chunk. rewrite (proj2 (Z.leb_le _ _)) by lia. by rewrite (proj2 (Z.ltb_lt _ _)) by lia.
Qed.

Lemma split_blocks : (add - 8, class_alloc c) ∈ chunks st -> blocks (chunks st) (split_chunk own t c add).
Proof.
  intros Hin. destruct Hlists as [Hb _ _]. destruct Hb as [H1 H2 H3 H4]. split; [done|done|..].
  - intros x n p Hx. destruct (split_cases _ _ _ Hx) as [Hp|(Ho & _)]; [|by eapply H3].
    destruct (parts_in _ _ _ _ _ _ Hc Hp) as (? & ? & ?). split; [done|]. exists (add - 8), (class_alloc c). split; [done|lia].
  - intros x n p y k q Hx Hy Hne. destruct (split_cases _ _ _ Hx) as [Hp|(Ho & _ & Ha)], (split_cases _ _ _ Hy) as [Hp'|(Ho' & _ & Ha')].
    + by eapply parts_apart.
    + destruct (parts_in _ _ _ _ _ _ Hc Hp) as (? & ? & ?). unfold apart in *. lia.
    + destruct (parts_in _ _ _ _ _ _ Hc Hp') as (? & ? & ?). unfold apart in *. lia.
    + by eapply H4.
Qed.

(** Lists of other blocks stay. *)
Lemma split_frame pl d head ls : free_list own (mem st) head d pl ls -> pl <> P_Local t -> pl <> P_List c ->
  free_list (split_chunk own t c add) (mem st) head d pl ls.
Proof.
  intros Hf H1 H2. destruct Hlists as [Hb _ _]. eapply fl_frame; [exact Hf| |done|intros b k Hbk; apply (block_in _ _ Hb _ _ _ Hbk)].
  intros b k. split.
  - intros Hs. destruct (split_cases _ _ _ Hs) as [Hp|[Ho _]]; [|done]. destruct (parts_place _ _ _ _ _ _ Hp) as [?|[? _]]; done.
  - intros Ho. assert (b <> add - 8) as Hne by congruence. by destruct (split_outside _ _ _ Ho Hne) as [-> _].
Qed.

Lemma add_aligned : (add - 8, class_alloc c) ∈ chunks st -> add mod 16 = 8.
Proof. intros Hin. destruct Hlists as [Hb _ _]. destruct (chunk_ok _ _ Hb _ _ Hin) as (_ & H & _). divlia. Qed.

Lemma step_aligned i : add mod 16 = 8 -> aligned c (add + class_size c * i).
Proof.
  intros Ha. pose proof (class_facts c Hc) as (_ & H8 & H16 & _). split.
  - assert (exists q, class_size c = 8 * q) as [q ->] by (exists (class_size c / 8); divlia). replace (add + 8 * q * i) with (add + (q * i) * 8) by lia.
    rewrite Z_mod_plus_full. divlia.
  - intros Hc0. specialize (H16 Hc0). assert (exists q, class_size c = 16 * q) as [q ->] by (exists (class_size c / 16); divlia).
    replace (add + 16 * q * i) with (add + (q * i) * 16) by lia. by rewrite Z_mod_plus_full.
Qed.

Lemma split_publish : (add - 8, class_alloc c) ∈ chunks st -> alsmall st c = 0 ->
  chain (mem st) add (run add (class_size c) (Z.to_nat (count c))) ->
  let st' := set_alsmall c (ptr (mem st) add) st in let own' := split_chunk own t c add in
  lists_ok st' own' /\ evolves t st own st' own'.
Proof.
  intros Hin Hz Hch st' own'. pose proof (class_facts c Hc) as (Hs & _ & _ & _ & Hk & _).
  pose proof Hlists as [Hb Hl Ht]. split; [split|split]; cbn [st' own' set_alsmall chunks mem alsmall thr_alsmall].
  - by apply split_blocks.
  - intros d Hd. fn_at c d.
    + exists (run (add + class_size c) (class_size c) (Z.to_nat (count c) - 1)).
      assert (exists k, Z.to_nat (count c) = S k) as [k Ek] by (exists (Z.to_nat (count c) - 1)%nat; lia). rewrite Ek in *. cbn [run chain] in Hch.
      replace (S k - 1)%nat with k by lia. destruct Hch as (_ & _ & Hch). split; [done|apply nodup_run; lia| |].
      * intros x. pose proof (parts_list t c add x Hc) as Hpl. rewrite Ek in Hpl. replace (S k - 1)%nat with k in Hpl by lia. rewrite <- Hpl. split; [apply split_part|].
        intros Hx. destruct (split_cases _ _ _ Hx) as [?|[Ho _]]; [done|].
        destruct (Hl c Hc) as [ls Hf]. destruct Hf as [Hlc _ Hlo _]. apply Hlo in Ho. rewrite Hz in Hlc. destruct ls as [|y ls]; [by apply elem_of_nil in Ho|].
        destruct Hlc as (? & ? & _). congruence.
      * intros x (i & Hi & ->)%elem_of_run. replace (add + class_size c + class_size c * i) with (add + class_size c * (i + 1)) by lia.
        apply step_aligned. by apply add_aligned.
    + destruct (Hl d Hd) as [ls Hf]. exists ls. apply split_frame; [done|done|congruence].
  - intros t' d Hd. destruct (Ht t' d Hd) as (ls & Hf & Hlast). exists ls. split; [|done]. by apply split_frame.
  - intros a n p Hp Ho. assert (a <> add - 8) as Hne.
    { intros ->. assert (p = P_Local t) by congruence. subst. by eapply others_local. }
    subst own'. by destruct (split_outside _ _ _ Ho Hne) as [-> _].
  - done.
  - done.
Qed.

(** The rest of the chunk, for a list of its own. *)
Lemma split_rest : (add - 8, class_alloc c) ∈ chunks st -> 0 < rest_size c ->
  exists rc, rest_class (rest_size c) = Ret rc /\ (rc < 15)%nat /\ aligned rc (add + class_size c * count c) /\
    split_chunk own t c add (add + class_size c * count c) = Some (class_size rc, P_Local t) /\ add <> add + class_size c * count c.
Proof.
  intros Hin Hr. destruct (rest_facts c Hc Hr) as (rc & E & Hrc & Hle & Hrc0). pose proof (class_facts c Hc) as (Hs & _ & _ & _ & Hk & _).
  exists rc. split_and!; [done|done| | |nia].
  - destruct (step_aligned (count c) (add_aligned Hin)) as [Ha1 Ha2]. split; [done|]. auto.
  - apply split_part. unfold parts. rewrite (proj2 (Z.eqb_neq _ _)) by nia. rewrite bool_decide_eq_false_2.
    + rewrite (proj2 (Z.ltb_lt _ _)) by done. rewrite Z.eqb_refl. cbn [andb]. by rewrite E.
    + intros (i & Hi & Ei)%elem_of_run. nia.
Qed.

End Split.
