(* ===== verification/MMSteps.v ===== *)
(** * The operations keep the invariant

    Each part of [impl_alloc], [impl_free] and the closing of a thread runs
    without a fault from what the invariant says, and gives it back. *)

From stdpp Require Import functions.
From S2P Require Import Prelude Machine MMDefault MMLists MMInv MMCarve.

#[local] Open Scope list_scope.

Section Steps.
Variable o : options.

Definition cls (size_ : Z) : nat := alloc_class (block_size o size_).
Definition small (size_ : Z) : Prop := block_size o size_ <= 1024.

#[global] Instance small_dec size_ : Decision (small size_).
Proof. unfold small. apply _. Defined.

(** What is asked of the system for a request. *)
Definition malloc_size (size_ : Z) : Z := if 1024 <? block_size o size_ then block_size o size_ + 16 else class_alloc (cls size_).

Lemma small_facts size_ : request size_ -> small size_ -> (cls size_ < 15)%nat /\ block_size o size_ <= class_size (cls size_) /\
  free_class (block_size o size_) = cls size_ /\ alloc_class (class_size (cls size_)) = cls size_.
Proof.
  intros Hr Hs. destruct (block_size_bounds o size_ Hr) as [Hb _]. unfold request in Hr. unfold small in Hs.
  destruct (size_facts (block_size o size_)) as (H1 & H2 & H3); [lia|]. unfold cls. split_and!; try done.
  by destruct (class_facts _ H1) as (_ & _ & _ & ? & _).
Qed.

(** ** Threads in [impl_alloc] *)

Definition has_block (own : owners) (t c : nat) (out : Z) : Prop := own out = Some (class_size c, P_Local t) /\ aligned c out.
Definition has_chunk (st : state) (own : owners) (t c : nat) (add : Z) : Prop :=
  own (add - 8) = Some (class_alloc c, P_Local t) /\ (add - 8, class_alloc c) ∈ chunks st.

Definition holds (st : state) (own : owners) (t : nat) (size_ : Z) (l : local) : Prop :=
  request size_ /\
  let c := cls size_ in
  match l with
  | L_Read size => small size_ /\ alloc_class size = c
  | L_Pop size | L_Chunk size => small size_ /\ size = class_size c
  | L_Publish size add remain remain_size =>
    small size_ /\ size = class_size c /\ has_chunk st own t c add /\ chain (mem st) add (run add size (Z.to_nat (count c))) /\
    remain = add + size * count c /\ remain_size = rest_size c
  | L_Discard size out add => small size_ /\ size = class_size c /\ has_block own t c out /\ has_chunk st own t c add
  | L_Rest size out remain remain_size =>
    small size_ /\ size = class_size c /\ has_block own t c out /\ out <> remain /\
    exists rc, rest_class remain_size = Ret rc /\ (rc < 15)%nat /\ has_block own t rc remain
  | L_Out size out =>
    small size_ /\ size = class_size c /\ has_block own t c out \/
    ~ small size_ /\ size = block_size o size_ /\ own (out - 8) = Some (size + 16, P_Local t) /\ (out - 8, size + 16) ∈ chunks st
  end.

(** The result of a step: the next part of the operation, or no memory. *)
Definition next (st : state) (own : owners) (t : nat) (size_ got : Z) (r : res (local * state)) : Prop :=
  (got = 0 /\ r = Exn MemException) \/
  exists l st' own', r = Ret (l, st') /\ lists_ok st' own' /\ holds st' own' t size_ l /\ evolves t st own st' own'.

Lemma next_ret st own t size_ got l st' own' : lists_ok st' own' -> holds st' own' t size_ l -> evolves t st own st' own' -> next st own t size_ got (Ret (l, st')).
Proof. right. eauto 10. Qed.

Lemma read_ptr_ok st a : accessible st a 8 = true -> read_ptr a st = Ret (ptr (mem st) a, st).
Proof. intros H. unfold read_ptr, mbind, act_bind, read_mem. rewrite H. done. Qed.

Lemma accessible_low st own n : lists_ok st own -> accessible st 8 n = false.
Proof.
  intros [Hb _ _]. apply not_true_is_false. unfold accessible. rewrite existsb_exists. intros ([b k] & Hin & H). apply list_elem_of_In in Hin.
  destruct (chunk_ok _ _ Hb _ _ Hin) as (H0 & H16 & _). bool_to_prop. divlia.
Qed.

(** Malloc gave nothing for a block of its own: null, moved to where the block
    would begin. *)
Definition null_block (size_ : Z) (l : local) : Prop := ~ small size_ /\ l = L_Out (block_size o size_) 8.

Lemma start_null t st size_ : ~ small size_ -> alloc_start o t size_ 0 st = Ret (L_Out (block_size o size_) 8, st).
Proof. unfold small, alloc_start. intros Hs. by destruct (Z.ltb_spec 1024 (block_size o size_)); [|lia]. Qed.

(** The first write of [has_out] is there. *)
Lemma null_faults st own size_ size : lists_ok st own -> alloc_finish o size_ size 8 st = Crash OutOfBounds.
Proof.
  intros Hl. pose proof (accessible_low st own) as Ha. unfold alloc_finish, memset, write_ptr, write_mem, mbind, act_bind.
  destruct (MMD_CLEAN o); [by rewrite (Ha _ Hl)|]. destruct (MMD_BOUND o); unfold mret, act_ret; by rewrite (Ha _ Hl).
Qed.

Lemma mm_start_ok t st own size_ got : lists_ok st own -> request size_ -> malloc_ok (chunks st) got (malloc_size size_) -> (~ small size_ -> got <> 0) ->
  next st own t size_ got (alloc_start o t size_ got st).
Proof.
  intros Hl Hr Hm Hg. destruct (block_size_bounds o size_ Hr) as [Hb _]. unfold alloc_start. unfold malloc_size in Hm.
  destruct (Z.ltb_spec 1024 (block_size o size_)) as [Hbig|Hsm].
  - assert (~ small size_) as Hns by (unfold small; lia). specialize (Hg Hns). unfold request in Hr.
    unfold mbind, act_bind, sys_malloc. rewrite (uwrap_id 64) by (unfold in_u; lia). rewrite (proj2 (Z.eqb_neq _ _)) by done.
    destruct (malloc_lists t _ _ _ _ Hl Hm Hg) as (Hl' & He & _); [lia|]. eapply next_ret; [exact Hl'| |exact He].
    split; [done|]. right. replace (got + 16 - 8 - 8) with got by lia. rewrite give_at. split_and!; [done|done|done|by left].
  - assert (small size_) as Hs by done. destruct (small_facts _ Hr Hs) as (Hc & _ & _ & Hcc). fold (cls size_).
    destruct (MMD_THREAD o); [|eapply next_ret; [exact Hl|split; [exact Hr|by split]|apply evolves_refl]].
    unfold mbind, act_bind, get. pose proof (pop_cache t st own (cls size_) Hl Hc) as Hpop.
    destruct (thr_alsmall st t (cls size_)) as [out tail] eqn:Et. cbn [fst snd] in Hpop.
    destruct (Z.eqb_spec out 0) as [->|Hne]; [eapply next_ret; [exact Hl|split; [exact Hr|by split]|apply evolves_refl]|].
    destruct (Hpop Hne) as (Ha & Ho & Hal & Hl' & He). rewrite read_ptr_ok by done. unfold modify, mret, act_ret.
    eapply next_ret; [exact Hl'| |exact He]. split; [done|]. left. split_and!; done.
Qed.

Lemma chunk_step t st own size_ got : lists_ok st own -> request size_ -> small size_ -> malloc_ok (chunks st) got (malloc_size size_) ->
  next st own t size_ got (alloc_step got (L_Chunk (class_size (cls size_))) st).
Proof.
  intros Hl Hr Hs Hm. destruct (small_facts _ Hr Hs) as (Hc & _ & _ & Hcc). cbn [alloc_step]. rewrite Hcc. unfold malloc_size in Hm.
  rewrite (proj2 (Z.ltb_ge _ _)) in Hm by done. unfold mbind, act_bind, sys_malloc.
  destruct (Z.eqb_spec got 0) as [->|Hg]; [by left|]. rewrite (proj2 (Z.eqb_neq _ _)) by done.
  pose proof (class_facts _ Hc) as (Hcs & _ & _ & _ & Hk & Hrs & _ & _). unfold rest_size in Hrs.
  destruct (malloc_lists t _ _ _ _ Hl Hm Hg) as (Hl' & He & _); [nia|]. destruct (Hm Hg) as (Hg0 & _ & Hg64 & _).
  set (st1 := set_chunks _ st) in *. set (own1 := give own got _) in *.
  destruct (carve_chunk st1 (cls size_) (got + 8) Hc) as (m' & Ecar & Hch & Hout); [replace (got + 8 - 8) with got by lia; by left|lia|lia|].
  replace (got + (16 - 8)) with (got + 8) by lia. replace (got + class_alloc (cls size_)) with (got + 8 - 8 + class_alloc (cls size_)) by lia. rewrite Ecar.
  destruct (write_own t st1 own1 got (class_alloc (cls size_)) m' Hl') as (Hl2 & He2); [apply give_at|intros x Hx; apply Hout; lia|].
  eapply next_ret; [exact Hl2| |by eapply evolves_trans]. split; [done|]. cbn beta iota zeta.
  assert (got + 8 - 8 = got) as Eg by lia. unfold has_chunk. rewrite Eg. split_and!; try done.
  - apply give_at.
  - by left.
  - unfold rest_size. lia.
Qed.

Lemma step_ok t st own size_ got l : lists_ok st own -> holds st own t size_ l -> (forall size, l = L_Chunk size -> malloc_ok (chunks st) got (malloc_size size_)) ->
  next st own t size_ got (alloc_step got l st).
Proof.
  intros Hl [Hr Hh] Hm. destruct l as [size|size|size|size add remain rs|size out add|size out remain rs|size out]; cbn beta iota zeta in Hh.
  - destruct Hh as [Hs Ec]. destruct (small_facts _ Hr Hs) as (Hc & _ & _ & Hcc). cbn [alloc_step]. unfold mbind, act_bind, get. rewrite Ec.
    eapply next_ret; [exact Hl| |apply evolves_refl]. split; [done|]. by destruct (_ =? 0).
  - destruct Hh as [Hs ->]. destruct (small_facts _ Hr Hs) as (Hc & _ & _ & Hcc). cbn [alloc_step]. unfold mbind, act_bind, get. rewrite Hcc.
    destruct (Z.eqb_spec (alsmall st (cls size_)) 0) as [Hz|Hne]; [eapply next_ret; [exact Hl|split; [exact Hr|by split]|apply evolves_refl]|].
    destruct (pop_common t st own _ Hl Hc Hne) as (Ha & Ho & Hal & Hl' & He). rewrite read_ptr_ok by done. unfold modify, mret, act_ret.
    eapply next_ret; [exact Hl'| |exact He]. split; [done|]. left. split_and!; [done|done|split; [apply give_at|done]].
  - destruct Hh as [Hs ->]. apply chunk_step; try done. by eapply Hm.
  - destruct Hh as (Hs & -> & [Hoc Hcc] & Hch & -> & ->). destruct (small_facts _ Hr Hs) as (Hc & _ & _ & Hcl). cbn [alloc_step]. unfold mbind, act_bind, get. rewrite Hcl.
    pose proof (class_facts _ Hc) as (Hcs & _ & _ & _ & Hk & Hrs & _ & _).
    destruct (Z.eqb_spec (alsmall st (cls size_)) 0) as [Hz|Hne].
    + destruct (split_publish t (cls size_) st own add Hc Hl Hoc Hcc Hz Hch) as (Hl' & He).
      assert (accessible st add 8 = true) as Ha by (apply accessible_inside; exists (add - 8), (class_alloc (cls size_)); unfold rest_size in Hrs; split_and!; [done|lia|nia]).
      assert (has_block (split_chunk own t (cls size_) add) t (cls size_) add) as Hblk.
      { split; [by apply split_part, parts_first|]. pose proof (step_aligned (cls size_) add Hc 0 ltac:(by eapply add_aligned)) as H. by rewrite Z.mul_0_r, Z.add_0_r in H. }
      rewrite read_ptr_ok by done. unfold modify, mret, act_ret. destruct (Z.ltb_spec 0 (rest_size (cls size_))) as [Hr0|Hr0].
      * eapply next_ret; [exact Hl'| |exact He]. split; [done|]. destruct (split_rest t (cls size_) st own add Hc Hl Hcc Hr0) as (rc & E1 & E2 & E3 & E4 & E5).
        split_and!; [done|done|done|done|]. exists rc. by split_and!.
      * eapply next_ret; [exact Hl'| |exact He]. split; [done|]. by left.
    + destruct (pop_common t st own _ Hl Hc Hne) as (Ha & Ho & Hal & Hl' & He). rewrite read_ptr_ok by done. unfold modify, mret, act_ret.
      eapply next_ret; [exact Hl'| |exact He]. split; [done|]. split_and!; [done|done|split; [apply give_at|done]|]. split; [|done].
      rewrite give_ne; [done|]. intros E. rewrite E in Ho. congruence.
  - destruct Hh as (Hs & -> & [Ho Hal] & [Hoc Hcc]). destruct (small_facts _ Hr Hs) as (Hc & _ & _ & Hcl). cbn [alloc_step]. unfold mbind, act_bind.
    replace (add - (16 - 8)) with (add - 8) by lia. destruct (free_lists t st own _ _ Hl Hoc Hcc) as (Hex & Hl' & He). unfold sys_free. rewrite Hex.
    eapply next_ret; [exact Hl'| |exact He]. split; [done|]. left. split_and!; [done|done|split; [|done]]. rewrite give_ne; [done|].
    intros E. rewrite E in Hoc. rewrite Ho in Hoc. injection Hoc as E'. pose proof (class_facts _ Hc) as (Hcs & _ & _ & _ & Hk & Hrs & _ & _). unfold rest_size in Hrs. nia.
  - destruct Hh as (Hs & -> & [Ho Hal] & Hne & rc & Erc & Hrc & [Hor Har]). cbn [alloc_step]. unfold mbind, act_bind, lift, get. rewrite Erc.
    destruct (push_common t st own rc remain Hl Hrc Hor Har) as (Ha & Hl' & He). unfold write_ptr, write_mem. rewrite le_bytes_length. change (Z.of_nat 8) with 8. rewrite Ha.
    unfold modify, mret, act_ret. eapply next_ret; [exact Hl'| |exact He]. split; [done|]. left. split_and!; [done|done|split; [|done]]. by rewrite give_ne.
  - eapply next_ret; [exact Hl|by split|apply evolves_refl].
Qed.

End Steps.
