(* ===== verification/MMUser.v ===== *)
(** * Blocks of the program

    What [impl_alloc] has when it returns and [impl_free] finds again: the
    length, the guards, the bytes between. *)

From stdpp Require Import functions.
From S2P Require Import Prelude Machine MMDefault MMLists MMInv MMCarve MMSteps.

#[local] Open Scope list_scope.

Section User.
Variable o : options.

(** Where the block of the memory at [p] begins, and the key and the size of
    what is owned: a block of a list, or a chunk by itself. *)
Definition base (p : Z) : Z := p - 8 - (if MMD_BOUND o then 32 else 0).
Definition user_key (p size_ : Z) : Z := if 1024 <? block_size o size_ then base p - 8 else base p.
Definition user_len (size_ : Z) : Z := if 1024 <? block_size o size_ then block_size o size_ + 16 else class_size (cls o size_).

Definition guards (m : Z -> Z) (p size_ : Z) : Prop :=
  MMD_BOUND o = true ->
  load m (base p) 32 = replicate 32 0xcb /\
  let n := block_size o size_ - size_ - 8 - 32 in load m (p + size_) n = replicate (Z.to_nat n) 0xcf.

Record user_block (st : state) (own : owners) (p size_ : Z) : Prop := mk_user_block {
  ub_request : request size_;
  ub_own : own (user_key p size_) = Some (user_len size_, P_User);
  ub_small : small o size_ -> aligned (cls o size_) (base p);
  ub_chunk : ~ small o size_ -> (user_key p size_, user_len size_) ∈ chunks st;
  ub_length : ptr (mem st) (p - 8) = size_;
  ub_guards : guards (mem st) p size_;
}.

(** The length and the bytes of the program are inside the block. *)
Lemma user_span p size_ : request size_ ->
  user_key p size_ <= base p /\ base p <= p - 8 /\ p + size_ <= base p + block_size o size_ /\ base p + block_size o size_ <= user_key p size_ + user_len size_ /\
  (MMD_BOUND o = true -> base p + 32 = p - 8 /\ 32 <= block_size o size_ - size_ - 8 - 32).
Proof.
  intros Hr. destruct (block_size_bounds o size_ Hr) as [Hb Hbo]. pose proof (small_facts o size_ Hr) as Hs. unfold small in Hs.
  unfold user_key, user_len, base. destruct (MMD_BOUND o); [specialize (Hbo eq_refl)|]; (destruct (Z.ltb_spec 1024 (block_size o size_)); [|destruct Hs as (_ & Hs & _); [lia|]]); split_and!; try lia; done.
Qed.

Lemma user_block_frame t st own st' own' p size_ : user_block st own p size_ -> evolves t st own st' own' -> user_block st' own' p size_.
Proof.
  intros [H1 H2 H3 H4 H5 H6] [E1 E2 E3]. assert (others t P_User) as Ho by by left. pose proof (E2 _ _ _ Ho H2) as Hm.
  destruct (user_span p size_ H1) as (S1 & S2 & S3 & S4 & S5). destruct (block_size_bounds o size_ H1) as [Hb _]. unfold request in H1. split; [done|by eauto|done|..].
  - intros Hs. eapply E3; [done|exact H2|auto].
  - rewrite <- H5. apply ptr_ext. intros x Hx. apply Hm. lia.
  - intros Hbo. destruct (H6 Hbo) as [G1 G2]. specialize (S5 Hbo). split; [rewrite <- G1|cbv zeta; rewrite <- G2]; apply load_ext; intros x Hx; apply Hm; lia.
Qed.

(** ** Writing a block of one's own *)

Lemma write_in t st own a n b l : lists_ok st own -> own a = Some (n, P_Local t) -> a <= b -> b + Z.of_nat (length l) <= a + n ->
  let st' := set_mem (store (mem st) b l) st in
  write_mem b l st = Ret (tt, st') /\ lists_ok st' own /\ evolves t st own st' own.
Proof.
  intros Hl Ho H1 H2 st'. unfold write_mem.
  assert (accessible st b (Z.of_nat (length l)) = true) as ->.
  { apply accessible_inside. destruct Hl as [Hb _ _]. destruct (block_in _ _ Hb _ _ _ Ho) as [_ Hin]. by eapply inside_sub. }
  split; [done|]. eapply write_own; [done|exact Ho|]. intros x Hx. apply store_out. lia.
Qed.

Lemma memset_in t st own a n b v k : lists_ok st own -> own a = Some (n, P_Local t) -> a <= b -> b + k <= a + n -> 0 <= k ->
  let st' := set_mem (store (mem st) b (replicate (Z.to_nat k) v)) st in
  memset b v k st = Ret (tt, st') /\ lists_ok st' own /\ evolves t st own st' own.
Proof. intros Hl Ho H1 H2 Hk. eapply write_in; [exact Hl|exact Ho|done|]. rewrite length_replicate. lia. Qed.

Lemma load_replicate m a v k : 0 <= k -> load (store m a (replicate (Z.to_nat k) v)) a k = replicate (Z.to_nat k) v.
Proof. intros Hk. pose proof (load_store m a (replicate (Z.to_nat k) v)) as H. rewrite length_replicate, Z2Nat.id in H by done. exact H. Qed.

Lemma take_load m a n k : 0 <= n <= k -> take (Z.to_nat n) (load m a k) = load m a n.
Proof.
  intros H. unfold load. rewrite <- fmap_take. f_equal. replace k with (n + (k - n)) by lia. rewrite seqZ_app by lia.
  rewrite take_app_length'; [done|]. by rewrite length_seqZ.
Qed.

(** A block of the thread becomes one of the program, or the other way round. *)
Lemma give_lists st own a n p q : lists_ok st own -> own a = Some (n, p) -> (p = P_User \/ exists t, p = P_Local t) -> (q = P_User \/ exists t, q = P_Local t) ->
  lists_ok st (give own a (Some (n, q))).
Proof.
  intros [Hb Hl Ht] Ho Hp Hq. split; [by eapply blocks_give|..].
  - intros c Hc. destruct (Hl c Hc) as [ls Hf]. exists ls. eapply lists_frame; [exact Hf|done|exact Ho| | |done]; naive_solver.
  - intros t' c Hc. destruct (Ht t' c Hc) as (ls & Hf & Hlast). exists ls. split; [|done]. eapply lists_frame; [exact Hf|done|exact Ho| | |done]; naive_solver.
Qed.

Lemma evolves_user t st own a n : own a = Some (n, P_Local t) -> evolves t st own st (give own a (Some (n, P_User))).
Proof.
  intros Ho. split; [|done|done]. intros b k p Hp Hb. rewrite give_ne; [done|]. intros <-. assert (p = P_Local t) by congruence. subst. by apply others_local in Hp.
Qed.

(** ** The end of [impl_alloc] *)

(** What the thread has at [has_out]. *)
Lemma out_block st own t size_ size out : holds o st own t size_ (L_Out size out) ->
  let p := out + (if MMD_BOUND o then 32 else 0) + 8 in
  request size_ /\ base p = out /\ block_size o size_ <= size /\ out + size <= user_key p size_ + user_len size_ /\ own (user_key p size_) = Some (user_len size_, P_Local t) /\
  (small o size_ -> aligned (cls o size_) out) /\ (~ small o size_ -> (user_key p size_, user_len size_) ∈ chunks st).
Proof.
  intros [Hr Hh] p. assert (base p = out) as Eb by (subst p; unfold base; destruct (MMD_BOUND o); lia).
  pose proof (small_facts o size_ Hr) as Hs. unfold user_key, user_len. rewrite Eb. unfold small in *. cbn beta iota zeta in Hh.
  destruct Hh as [(Hsm & -> & Ho & Ha)|(Hsm & -> & Ho & Hc)].
  - rewrite (proj2 (Z.ltb_ge _ _)) by done. destruct (Hs Hsm) as (_ & Hle & _). split_and!; try done; lia.
  - rewrite (proj2 (Z.ltb_lt _ _)) by lia. split_and!; try done; lia.
Qed.

(** The fillings and the guards. *)
Lemma fill_ok t st own a n out size : lists_ok st own -> own a = Some (n, P_Local t) -> a <= out -> out + size <= a + n -> 0 <= size ->
  exists st', (if MMD_CLEAN o then memset out 0xcd size else mret tt) st = Ret (tt, st') /\ lists_ok st' own /\ evolves t st own st' own /\ chunks st' = chunks st.
Proof.
  intros Hl Ho H1 H2 H3. destruct (MMD_CLEAN o); [|exists st; split_and!; [done|done|apply evolves_refl|done]].
  destruct (memset_in t st own a n out 0xcd size Hl Ho H1 H2 H3) as (E & Hl' & He). eexists. by split_and!.
Qed.

Definition guard_bytes (out size_ size : Z) : act state Z :=
  if MMD_BOUND o then
    memset out 0xcb 32;;
    memset (out + 32 + 8 + size_) 0xcf (size - size_ - 8 - 32);;
    mret (out + 32)
  else mret out.

Lemma guard_ok t st own a n out size_ size : lists_ok st own -> own a = Some (n, P_Local t) -> a <= out -> out + size <= a + n ->
  request size_ -> block_size o size_ <= size ->
  let p := out + (if MMD_BOUND o then 32 else 0) + 8 in
  exists st', guard_bytes out size_ size st = Ret (p - 8, st') /\ lists_ok st' own /\ evolves t st own st' own /\ chunks st' = chunks st /\ guards (mem st') p size_.
Proof.
  intros Hl Ho H1 H2 Hr Hs p. destruct (block_size_bounds o size_ Hr) as [Hb Hbo]. unfold request in Hr. unfold guard_bytes, guards, base.
  subst p. destruct (MMD_BOUND o) eqn:Ebo; [|exists st; split_and!; [unfold mret, act_ret; f_equal; f_equal; lia|done|apply evolves_refl|done|done]]. specialize (Hbo eq_refl).
  destruct (memset_in t st own a n out 0xcb 32 Hl Ho) as (F1 & Hla & Hea); [lia..|].
  set (sta := set_mem _ st) in *.
  destruct (memset_in t sta own a n (out + 32 + 8 + size_) 0xcf (size - size_ - 8 - 32) Hla Ho) as (F2 & Hlb & Heb); [lia..|].
  eexists. split_and!; [|exact Hlb|by eapply evolves_trans|done|].
  - unfold mbind, act_bind. rewrite F1. rewrite F2. unfold mret, act_ret. f_equal. f_equal. lia.
  - intros _. subst sta. cbn [set_mem mem]. split.
    + replace (out + 32 + 8 - 8 - 32) with out by lia. etransitivity; [|apply (load_replicate (mem st) out 0xcb 32); lia]. apply load_ext. intros x Hx. apply store_out. lia.
    + cbv zeta. set (k := size - size_ - 8 - 32). set (nn := block_size o size_ - size_ - 8 - 32).
      assert (0 <= nn <= k) as Hnk by lia. rewrite <- (take_load _ _ nn k) by lia. rewrite load_replicate by lia. rewrite take_replicate. f_equal. lia.
Qed.

Lemma finish_ok t st own size_ size out : lists_ok st own -> holds o st own t size_ (L_Out size out) ->
  let p := out + (if MMD_BOUND o then 32 else 0) + 8 in
  exists st', alloc_finish o size_ size out st = Ret (p, st') /\
    let own' := give own (user_key p size_) (Some (user_len size_, P_User)) in
    lists_ok st' own' /\ user_block st' own' p size_ /\ evolves t st own st' own'.
Proof.
  intros Hl Hh p. destruct (out_block _ _ _ _ _ _ Hh) as (Hr & Eb & Hbs & Hos & Ho & Hal & Hch). fold p in Eb, Hos, Ho, Hch.
  destruct (user_span p size_ Hr) as (S1 & S2 & S3 & S4 & S5). destruct (block_size_bounds o size_ Hr) as [Hb Hbo]. pose proof Hr as Hr'. unfold request in Hr'.
  rewrite Eb in S1. destruct (fill_ok t st own _ _ out size Hl Ho S1 Hos ltac:(lia)) as (st1 & E1 & Hl1 & He1 & C1).
  destruct (guard_ok t st1 own _ _ out size_ size Hl1 Ho S1 Hos Hr Hbs) as (st2 & E2 & Hl2 & He2 & C2 & Hg2). fold p in E2, Hg2.
  unfold alloc_finish. fold (guard_bytes out size_ size). unfold mbind, act_bind. rewrite E1. rewrite E2.
  destruct (write_in t st2 own _ _ (p - 8) (le_bytes 8 size_) Hl2 Ho) as (E3 & Hl3 & He3); [lia|rewrite le_bytes_length; lia|].
  unfold write_ptr. rewrite E3. unfold mret, act_ret. replace (p - 8 + 8) with p by lia. eexists. split; [done|].
  cbv zeta. split_and!.
  - eapply give_lists; [done|exact Ho|right; by eexists|by left].
  - split; try done.
    + by rewrite give_at.
    + rewrite Eb. done.
    + intros Hs. cbn [set_mem chunks]. rewrite C2, C1. by apply Hch.
    + cbn [set_mem mem]. rewrite ptr_store; [done|]. unfold in_u. lia.
    + intros Hbt. destruct (Hg2 Hbt) as [G1 G2]. specialize (S5 Hbt). cbn [set_mem mem]. split; [rewrite <- G1|cbv zeta; rewrite <- G2]; apply load_ext; intros x Hx; apply store_out; rewrite le_bytes_length; lia.
  - eapply evolves_trans; [exact He1|]. eapply evolves_trans; [exact He2|]. eapply evolves_trans; [exact He3|]. by apply evolves_user.
Qed.

(** ** [impl_free] *)

Lemma check_guard_ok st a b n : accessible st a n = true -> load (mem st) a n = replicate (Z.to_nat n) b -> check_guard a b n st = Ret (tt, st).
Proof. intros Ha Hl. unfold check_guard, mbind, act_bind, read_mem. rewrite Ha. rewrite Hl. by rewrite bool_decide_eq_true_2. Qed.

Lemma free_guards_ok st own p size_ : lists_ok st own -> user_block st own p size_ ->
  (if MMD_BOUND o then
     let m := p - 8 - 32 in
     check_guard m 0xcb 32;;
     check_guard (m + 32 + 8 + size_) 0xcf (block_size o size_ - size_ - 8 - 32);;
     mret m
   else mret (p - 8)) st = Ret (base p, st).
Proof.
  intros [Hb _ _] [Hr Ho _ _ _ Hg]. pose proof Hr as Hr2. unfold request in Hr2. destruct (user_span p size_ Hr) as (S1 & S2 & S3 & S4 & S5). destruct (block_in _ _ Hb _ _ _ Ho) as [_ Hin].
  unfold guards, base in *. destruct (MMD_BOUND o); [|unfold mret, act_ret; f_equal; f_equal; lia]. specialize (S5 eq_refl). destruct (Hg eq_refl) as [G1 G2].
  cbv zeta in *. unfold mbind, act_bind. rewrite check_guard_ok; [|apply accessible_inside; eapply inside_sub; [exact Hin|lia|lia]|exact G1].
  replace (p - 8 - 32 + 32 + 8 + size_) with (p + size_) by lia.
  rewrite check_guard_ok; [|apply accessible_inside; eapply inside_sub; [exact Hin|lia|lia]|exact G2]. done.
Qed.

(** The block, when the operation has begun, is the thread's. *)
Definition take_block (own : owners) (t : nat) (p size_ : Z) : owners := give own (user_key p size_) (Some (user_len size_, P_Local t)).

Lemma mm_free_ok t st own p size_ : lists_ok st own -> user_block st own p size_ ->
  exists st' own', impl_free o t p st = Ret (tt, st') /\ lists_ok st' own' /\ evolves t st (take_block own t p size_) st' own'.
Proof.
  intros Hl Hu. pose proof Hu as [Hr Ho Hsm Hch Hlen _]. destruct (user_span p size_ Hr) as (S1 & S2 & S3 & S4 & S5). destruct (block_size_bounds o size_ Hr) as [Hb _].
  pose proof Hl as [Hbl _ _]. destruct (block_in _ _ Hbl _ _ _ Ho) as [_ Hin]. pose proof Hr as Hr'. unfold request in Hr'.
  set (own1 := take_block own t p size_). assert (own1 (user_key p size_) = Some (user_len size_, P_Local t)) as Ho1 by apply give_at.
  assert (lists_ok st own1) as Hl1 by (eapply give_lists; [done|exact Ho|by left|right; by eexists]).
  unfold impl_free, mbind, act_bind. rewrite read_ptr_ok by (apply accessible_inside; eapply inside_sub; [exact Hin|lia|lia]). rewrite Hlen.
  pose proof (free_guards_ok st own p size_ Hl Hu) as Hg. unfold mbind, act_bind in Hg. cbv zeta in Hg |- *. rewrite Hg.
  destruct (fill_ok t st own1 _ _ (base p) (block_size o size_) Hl1 Ho1 S1 S4 ltac:(lia)) as (st1 & E1 & Hl2 & He1 & C1). rewrite E1.
  pose proof (small_facts o size_ Hr) as Hsf. unfold small in *. unfold user_key, user_len in Ho1, Hch, Hin.
  destruct (Z.ltb_spec 1024 (block_size o size_)) as [Hbig|Hsmall].
  - replace (base p + 8 - 16) with (base p - 8) by lia. specialize (Hch ltac:(lia)). rewrite <- C1 in Hch.
    destruct (free_lists t st1 own1 _ _ Hl2 Ho1 Hch) as (Hex & Hl3 & He3). unfold sys_free. rewrite Hex. eexists _, _. split_and!; [done|exact Hl3|by eapply evolves_trans].
  - destruct (Hsf Hsmall) as (Hc & Hle & Hfc & _). rewrite Hfc. specialize (Hsm Hsmall). unfold get. destruct (MMD_THREAD o).
    + destruct (push_cache t st1 own1 _ _ Hl2 Hc Ho1 Hsm) as (Ha & Hl3 & He3). destruct (thr_alsmall st1 t (cls o size_)) as [head tail]. cbn [fst snd] in *.
      unfold write_ptr, write_mem. rewrite le_bytes_length. change (Z.of_nat 8) with 8. rewrite Ha. unfold modify. eexists _, _. split_and!; [done|exact Hl3|by eapply evolves_trans].
    + destruct (push_common t st1 own1 _ _ Hl2 Hc Ho1 Hsm) as (Ha & Hl3 & He3).
      unfold write_ptr, write_mem. rewrite le_bytes_length. change (Z.of_nat 8) with 8. rewrite Ha. unfold modify. eexists _, _. split_and!; [done|exact Hl3|by eapply evolves_trans].
Qed.

End User.

(** ** The end of a thread *)

(** The blocks of a cache go to the common list. *)
Definition merge (own : owners) (t c : nat) : owners :=
  fun x => match own x with Some (n, p) => Some (n, if decide (p = P_Cache t c) then P_List c else p) | None => None end.

Lemma merge_spec own t c x n p : merge own t c x = Some (n, p) <->
  (own x = Some (n, p) /\ p <> P_Cache t c) \/ (p = P_List c /\ own x = Some (n, P_Cache t c)).
Proof.
  unfold merge. destruct (own x) as [[k q]|]; [|naive_solver]. destruct (decide (q = P_Cache t c)) as [->|Hne]; naive_solver.
Qed.

Lemma mm_chain_app m head ls1 last ls2 v : chain m head (ls1 ++ [last]) -> last ∉ ls1 -> last ∉ ls2 -> in_u 64 v ->
  (forall a, a ∈ ls1 \/ a ∈ ls2 -> forall x, a <= x < a + 8 -> ~ (last <= x < last + 8)) -> chain m v ls2 ->
  chain (store m last (le_bytes 8 v)) head (ls1 ++ last :: ls2).
Proof.
  intros H1 Hn1 Hn2 Hv Hap H2.
  assert (forall a, a ∈ ls1 \/ a ∈ ls2 -> ptr (store m last (le_bytes 8 v)) a = ptr m a) as Hp.
  { intros a Ha. apply ptr_ext. intros x Hx. apply store_out. rewrite le_bytes_length. specialize (Hap a Ha x Hx). lia. }
  revert head H1. clear Hn1. induction ls1 as [|a ls1 IH]; intros head H1; cbn [app chain] in *.
  - destruct H1 as (-> & Hl & _). split_and!; [done|done|]. rewrite ptr_store by done. eapply chain_ext; [|exact H2]. auto.
  - destruct H1 as (-> & Ha & H1). split_and!; [done|done|]. rewrite Hp by (left; by left). apply IH; [| |done].
    + intros b [Hb|Hb]; apply Hap; [left; by right|by right].
    + intros b [Hb|Hb]; apply Hp; [left; by right|by right].
Qed.

Lemma close_ok t st own c : lists_ok st own -> (c < 15)%nat ->
  exists st' own', close_class t c st = Ret (tt, st') /\ lists_ok st' own' /\ evolves t st own st' own'.
Proof.
  intros [Hb Hl Ht] Hc. destruct (Ht t c Hc) as (ls & Hf & Hlast). destruct (Hl c Hc) as [lc Hfc]. unfold close_class, mbind, act_bind, get.
  destruct (thr_alsmall st t c) as [first last] eqn:Et. cbn [fst snd] in *. unfold insertGlobalCache. destruct (Z.eqb_spec first 0) as [->|Hne].
  - exists (set_thr t c (0, last) st), own. split; [done|]. split; [|split; done]. split; [done|done|]. intros t' d Hd. cbn [set_thr thr_alsmall mem].
    destruct (decide (t = t')) as [<-|Htt]; [rewrite fn_lookup_insert; fn_at c d; [exists ls; done|by apply Ht]|rewrite fn_lookup_insert_ne by done; by apply Ht].
  - destruct (fl_head _ _ _ _ _ _ Hf Hne) as [rest Els]. specialize (Hlast ltac:(by rewrite Els)).
    assert (exists ls1, ls = ls1 ++ [last]) as [ls1 ->] by (apply list.last_Some in Hlast; exact Hlast).
    destruct Hf as [F1 F2 F3 F4], Hfc as [G1 G2 G3 G4].
    assert (own last = Some (class_size c, P_Cache t c)) as Hol by (apply F3, elem_of_app; right; by left).
    destruct (block_in _ _ Hb _ _ _ Hol) as [H8 Hin].
    unfold mbind, act_bind, get, write_ptr, write_mem. rewrite le_bytes_length. change (Z.of_nat 8) with 8.
    rewrite accessible_inside by (eapply inside_sub; [exact Hin|lia|lia]). unfold modify.
    set (v := alsmall st c). assert (in_u 64 v) as Hv by (eapply head_u; [exact Hb|by split]).
    assert (forall a n p, own a = Some (n, p) -> a <> last -> forall x, a <= x < a + n -> ~ (last <= x < last + 8)) as Hap.
    { intros a n p Ha Hal x Hx. pose proof (block_apart _ _ Hb _ _ _ _ _ _ Ha Hol Hal) as Hpp. unfold apart in Hpp. lia. }
    assert (last ∉ ls1) as Hn1 by (apply list.NoDup_app in F2 as (_ & F2 & _); intros Hin1; eapply F2; [exact Hin1|by left]).
    assert (last ∉ lc) as Hn2 by (intros Hin2; apply G3 in Hin2; congruence).
    eexists _, (merge own t c). split; [done|]. split; [split|split]; cbn [set_thr set_alsmall set_mem chunks mem alsmall thr_alsmall].
    + destruct Hb as [B1 B2 B3 B4]. split; [done|done|..].
      * intros a n p Ha. apply merge_spec in Ha as [[Ha _]|[-> Ha]]; by eapply B3.
      * intros a n p b k q Ha Hbk. apply merge_spec in Ha as [[Ha _]|[-> Ha]]; apply merge_spec in Hbk as [[Hbk _]|[-> Hbk]]; by eapply B4.
    + intros d Hd. fn_at c d.
      * exists (ls1 ++ last :: lc). split.
        -- apply mm_chain_app; [done|done|done|done| |done]. intros a [Ha|Ha] x Hx.
           ++ assert (own a = Some (class_size c, P_Cache t c)) as Hoa by (apply F3, elem_of_app; by left). apply (Hap a _ _ Hoa); [congruence|lia].
           ++ apply G3 in Ha. apply (Hap a _ _ Ha); [congruence|lia].
        -- apply list.NoDup_app. apply list.NoDup_app in F2 as (F2 & F2' & _). split_and!; [done| |by apply list.NoDup_cons].
           intros a Ha Ha2. apply elem_of_cons in Ha2 as [->|Ha2]; [done|]. apply G3 in Ha2.
           assert (own a = Some (class_size c, P_Cache t c)) as Hoa by (apply F3, elem_of_app; by left). congruence.
        -- intros a. rewrite merge_spec. specialize (F3 a). specialize (G3 a). rewrite elem_of_app in F3 |- *. rewrite elem_of_cons. rewrite list_elem_of_singleton in F3.
           split; [intros [Ha|[->|Ha]]; [right|right|left]; naive_solver|intros [[Ha _]|[_ Ha]]; naive_solver].
        -- intros a Ha. apply elem_of_app in Ha as [Ha|Ha]; [apply F4, elem_of_app; by left|]. apply elem_of_cons in Ha as [->|Ha]; [apply F4, elem_of_app; right; by left|by apply G4].
      * destruct (Hl d Hd) as [ld Hfd]. exists ld. eapply fl_frame; [exact Hfd| | |intros a k Ha; apply (block_in _ _ Hb _ _ _ Ha)].
        -- intros a k. rewrite merge_spec. naive_solver.
        -- intros a k Ha x Hx. apply store_out. rewrite le_bytes_length. pose proof (Hap a k _ Ha ltac:(congruence) x Hx). lia.
    + intros t' d Hd. assert (forall q ld hd, q <> P_Cache t c -> q <> P_List c -> free_list own (mem st) hd d q ld -> free_list (merge own t c) (store (mem st) last (le_bytes 8 v)) hd d q ld) as Hfr.
      { intros q ld hd Hq1 Hq2 Hfd. eapply fl_frame; [exact Hfd| | |intros a k Ha; apply (block_in _ _ Hb _ _ _ Ha)].
        - intros a k. rewrite merge_spec. naive_solver.
        - intros a k Ha x Hx. apply store_out. rewrite le_bytes_length. pose proof (Hap a k _ Ha ltac:(congruence) x Hx). lia. }
      destruct (decide (t = t')) as [<-|Htt]; [rewrite fn_lookup_insert; fn_at c d|rewrite fn_lookup_insert_ne by done].
      * exists []. split; [|done]. split; [done|constructor| |by intros a ?%elem_of_nil]. intros a. split; [by intros ?%elem_of_nil|].
        intros [[_ ?]|[? _]]%merge_spec; done.
      * destruct (Ht t d Hd) as (ld & Hfd & Hl2). exists ld. split; [|done]. apply Hfr; [congruence|done|done].
      * destruct (Ht t' d Hd) as (ld & Hfd & Hl2). exists ld. split; [|done]. apply Hfr; [congruence|done|done].
    + intros a n p Hp Ha. apply merge_spec. left. split; [done|]. intros ->. by apply others_cache in Hp.
    + intros a n p Hp Ha x Hx. apply store_out. rewrite le_bytes_length.
      assert (a <> last) as Hal by (intros ->; assert (p = P_Cache t c) by congruence; subst; by apply others_cache in Hp).
      pose proof (Hap a n p Ha Hal x Hx). lia.
    + done.
Qed.
