(* ===== verification/MMThreads.v ===== *)
(** * Threads that allocate

    Any number of threads in the parts of the operations, in any order, and the
    program that writes its blocks; the invariant of all of them. *)

From stdpp Require Import functions gmap.
From S2P Require Import Prelude Machine MMDefault MMLists MMInv MMCarve MMSteps MMUser.

#[local] Open Scope list_scope.

(** ** The system *)

(** A thread: outside of the allocator, in [impl_alloc], before a list of
    [impl_closingThread]. *)
Inductive pc := Idle | Allocating (size_ : Z) (l : local) | Closing (c : nat).

(** The memory, the threads, and the blocks the program has with their sizes. *)
Record system := mk_system {
  heap : state;
  pcs : nat -> pc;
  live : gmap Z Z;
}.

Inductive op :=
| Op_Alloc (t : nat) (size_ got : Z) (* a call of impl_alloc *)
| Op_Step (t : nat) (got : Z) (* its next part *)
| Op_Free (t : nat) (p : Z)
| Op_Close (t : nat) (* the end of the thread *)
| Op_Write (p a v : Z). (* the program writes its block *)

Definition start : system := mk_system (mk_state (fun _ => 0) [] (fun _ => 0) (fun _ _ => (0, 0))) (fun _ => Idle) ∅.

Section Threads.
Variable o : options.

(** A part of [impl_alloc]: on an exception the thread leaves. *)
Definition part_done (t : nat) (size_ : Z) (s : system) (r : res (local * state)) : res system :=
  match r with
  | Ret (l, st) => Ret (mk_system st (<[t := Allocating size_ l]> (pcs s)) (live s))
  | Exn _ => Ret (mk_system (heap s) (<[t := Idle]> (pcs s)) (live s))
  | Crash c => Crash c
  | NoFuel => NoFuel
  end.

(** What an operation does; [None] when it is not the thread's turn. *)
Definition exec (x : op) (s : system) : option (res system) :=
  match x with
  | Op_Alloc t size_ got =>
    match pcs s t with Idle => Some (part_done t size_ s (alloc_start o t size_ got (heap s))) | _ => None end
  | Op_Step t got =>
    match pcs s t with
    | Idle => None
    | Allocating size_ (L_Out size out) =>
      Some ('(p, st) ← alloc_finish o size_ size out (heap s); Ret (mk_system st (<[t := Idle]> (pcs s)) (<[p := size_]> (live s))))
    | Allocating size_ l => Some (part_done t size_ s (alloc_step got l (heap s)))
    | Closing c =>
      if (c <? 15)%nat then Some ('(_, st) ← close_class t c (heap s); Ret (mk_system st (<[t := Closing (S c)]> (pcs s)) (live s)))
      else Some (Ret (mk_system (heap s) (<[t := Idle]> (pcs s)) (live s)))
    end
  | Op_Free t p =>
    match pcs s t, live s !! p with
    | Idle, Some _ => Some ('(_, st) ← impl_free o t p (heap s); Ret (mk_system st (pcs s) (delete p (live s))))
    | _, _ => None
    end
  | Op_Close t => match pcs s t with Idle => Some (Ret (mk_system (heap s) (<[t := Closing 0]> (pcs s)) (live s))) | _ => None end
  | Op_Write p a v =>
    match live s !! p with
    | Some n => if (p <=? a) && (a <? p + n) then Some (Ret (mk_system (set_mem (<[a := v]> (mem (heap s))) (heap s)) (pcs s) (live s))) else None
    | None => None
    end
  end.

(** What the caller and the system's malloc promise: a size that does not wrap,
    and fresh memory or none. *)
Definition allowed (x : op) (s : system) : Prop :=
  match x with
  | Op_Alloc t size_ got => request size_ /\ malloc_ok (chunks (heap s)) got (malloc_size o size_)
  | Op_Step t got => forall size_ size, pcs s t = Allocating size_ (L_Chunk size) -> malloc_ok (chunks (heap s)) got (malloc_size o size_)
  | _ => True
  end.

Inductive reach : system -> Prop :=
| reach_start : reach start
| reach_exec s x s' : reach s -> allowed x s -> exec x s = Some (Ret s') -> reach s'.

(** The thread is about to write to a block of its own that malloc did not give:
    null was moved by eight bytes before it was tested. *)
Definition null_write (x : op) (s : system) : bool :=
  match x with
  | Op_Step t _ =>
    match pcs s t with
    | Allocating size_ (L_Out size out) => (1024 <? block_size o size_) && (out =? 8)
    | _ => false
    end
  | _ => false
  end.

(** ** The invariant *)

Record sys_ok (s : system) (own : owners) : Prop := mk_sys_ok {
  s_lists : lists_ok (heap s) own;
  s_threads : forall t size_ l, pcs s t = Allocating size_ l -> holds o (heap s) own t size_ l \/ null_block o size_ l;
  s_live : forall p n, live s !! p = Some n -> user_block o (heap s) own p n;
}.

(** What a thread holds is not touched. *)
Lemma holds_frame st own st' own' t size_ l : holds o st own t size_ l ->
  (forall a n, own a = Some (n, P_Local t) -> own' a = Some (n, P_Local t)) ->
  (forall a n, own a = Some (n, P_Local t) -> forall x, a <= x < a + n -> mem st' x = mem st x) ->
  (forall a n, own a = Some (n, P_Local t) -> (a, n) ∈ chunks st -> (a, n) ∈ chunks st') ->
  holds o st' own' t size_ l.
Proof.
  intros [Hr Hh] H1 H2 H3. split; [done|]. cbv zeta in Hh |- *. pose proof (small_facts o size_ Hr) as Hsf.
  destruct l as [size|size|size|size add remain rs|size out add|size out remain rs|size out].
  - done.
  - done.
  - done.
  - destruct Hh as (Hs & -> & [Hoc Hcc] & Hch & -> & ->). destruct (Hsf Hs) as (Hc & _). pose proof (class_facts _ Hc) as (Hcs & _ & _ & _ & Hk & Hrs & _). unfold rest_size in Hrs.
    split_and!; [done|done|split; [by apply H1|by eapply H3]| |done|done]. eapply chain_ext; [|exact Hch]. intros a (i & Hi & ->)%elem_of_run. apply ptr_ext.
    intros x Hx. apply (H2 _ _ Hoc). assert (class_size (cls o size_) * (i + 1) <= class_size (cls o size_) * count (cls o size_)) by nia. lia.
  - destruct Hh as (Hs & -> & [Ho Hal] & [Hoc Hcc]). split_and!; [done|done|split; [by apply H1|done]|split; [by apply H1|by eapply H3]].
  - destruct Hh as (Hs & -> & [Ho Hal] & Hne & rc & Erc & Hrc & [Hor Har]). split_and!; [done|done|split; [by apply H1|done]|done|].
    exists rc. split_and!; [done|done|split; [by apply H1|done]].
  - destruct Hh as [(Hs & -> & [Ho Hal])|(Hs & -> & Ho & Hc)]; [left|right].
    + split_and!; [done|done|split; [by apply H1|done]].
    + split_and!; [done|done|by apply H1|by eapply H3].
Qed.

Lemma holds_evolves t t' st own st' own' size_ l : holds o st own t size_ l -> t <> t' -> evolves t' st own st' own' -> holds o st' own' t size_ l.
Proof.
  intros Hh Ht [E1 E2 E3]. assert (others t' (P_Local t)) as Ho by (right; by exists t).
  eapply holds_frame; [exact Hh|intros a n; by apply E1|intros a n; by apply E2|intros a n; by apply E3].
Qed.

(** A step of thread [t] that ends in [k]. *)
Lemma sys_thread s own t st' own' k : sys_ok s own -> lists_ok st' own' -> evolves t (heap s) own st' own' ->
  (forall size_ l, k = Allocating size_ l -> holds o st' own' t size_ l \/ null_block o size_ l) -> sys_ok (mk_system st' (<[t := k]> (pcs s)) (live s)) own'.
Proof.
  intros [Hl Ht Hu] Hl' He Hk. split; cbn [heap pcs live]; [done|..].
  - intros t' size_ l. destruct (decide (t = t')) as [<-|Hne]; [rewrite fn_lookup_insert; apply Hk|rewrite fn_lookup_insert_ne by done].
    intros E. destruct (Ht _ _ _ E) as [Hh|Hn]; [left; by eapply holds_evolves|by right].
  - intros p n Hp. eapply user_block_frame; [by apply Hu|done].
Qed.

Lemma sys_part s own t size_ got r : sys_ok s own -> next o (heap s) own t size_ got r -> exists s' own', part_done t size_ s r = Ret s' /\ sys_ok s' own'.
Proof.
  intros Hs [[_ ->]|(l & st' & own' & -> & Hl & Hh & He)]; cbn [part_done]; eexists _, _; (split; [done|]).
  - eapply sys_thread; [done|by destruct Hs|apply evolves_refl|done].
  - eapply sys_thread; [done|done|done|]. intros ? ? [= <- <-]. by left.
Qed.

(** A call of [impl_alloc]. *)
Lemma sys_start s own t size_ got : sys_ok s own -> request size_ -> malloc_ok (chunks (heap s)) got (malloc_size o size_) ->
  exists s' own', part_done t size_ s (alloc_start o t size_ got (heap s)) = Ret s' /\ sys_ok s' own'.
Proof.
  intros Hs Hr Hm. destruct (decide (got = 0)) as [->|Hg]; [destruct (decide (small o size_)) as [Hsm|Hsm]|].
  - eapply sys_part; [done|]. apply mm_start_ok; [by destruct Hs|done|done|by intros H].
  - rewrite start_null by done. cbn [part_done]. eexists _, own. split; [done|].
    eapply sys_thread; [done|by destruct Hs|apply evolves_refl|]. intros ? ? [= <- <-]. right. by split.
  - eapply sys_part; [done|]. apply mm_start_ok; [by destruct Hs|done..].
Qed.

Lemma key_inj st own p q n k : user_block o st own p n -> user_block o st own q k -> user_key o p n = user_key o q k -> p = q.
Proof.
  intros [Hr1 Ho1 _ _ _ _] [Hr2 Ho2 _ _ _ _] E. rewrite E in Ho1. assert (user_len o n = user_len o k) as El by congruence.
  pose proof (small_facts o n Hr1) as H1. pose proof (small_facts o k Hr2) as H2. unfold small in *. unfold user_key, user_len, base in *.
  destruct (Z.ltb_spec 1024 (block_size o n)), (Z.ltb_spec 1024 (block_size o k)); try lia.
  - destruct H2 as (Hc & _); [lia|]. pose proof (class_facts _ Hc). lia.
  - destruct H1 as (Hc & _); [lia|]. pose proof (class_facts _ Hc). lia.
Qed.

Lemma sys_finish s own t size_ size out : sys_ok s own -> holds o (heap s) own t size_ (L_Out size out) ->
  exists s' own', ('(p, st) ← alloc_finish o size_ size out (heap s); Ret (mk_system st (<[t := Idle]> (pcs s)) (<[p := size_]> (live s)))) = Ret s' /\ sys_ok s' own'.
Proof.
  intros Hs Ht. destruct (finish_ok o t _ own size_ size out (s_lists _ _ Hs) Ht) as (st' & E & Hl & Hu & He).
  rewrite E. cbn [mbind res_bind]. eexists _, _. split; [done|].
  destruct (sys_thread s own t st' _ Idle Hs Hl He) as [S1 S2 S3]; [done|]. split; cbn [heap pcs live] in *; [done|done|].
  intros q k Hq. destruct (decide (q = out + (if MMD_BOUND o then 32 else 0) + 8)) as [->|Hne].
  - rewrite lookup_insert_eq in Hq. injection Hq as <-. exact Hu.
  - rewrite lookup_insert_ne in Hq by done. by apply S3.
Qed.

(** The block of a call of [impl_free] leaves the program. *)
Lemma take_user st own t p n q k : user_block o st own p n -> user_block o st own q k -> p <> q -> user_block o st (take_block o own t p n) q k.
Proof.
  intros Hp Hq Hne. pose proof Hq as [H1 H2 H3 H4 H5 H6]. split; try done. unfold take_block. rewrite give_ne; [done|].
  intros E. apply Hne. by eapply key_inj.
Qed.

Lemma sys_free_ok s own t p n : sys_ok s own -> pcs s t = Idle -> live s !! p = Some n ->
  exists s' own', ('(_, st) ← impl_free o t p (heap s); Ret (mk_system st (pcs s) (delete p (live s)))) = Ret s' /\ sys_ok s' own'.
Proof.
  intros Hs Ht Hp. pose proof Hs as [Hl Hth Hu]. pose proof (Hu _ _ Hp) as Hub.
  destruct (mm_free_ok o t _ own p n Hl Hub) as (st' & own' & E & Hl' & He). rewrite E. cbn [mbind res_bind]. eexists _, own'. split; [done|].
  split; cbn [heap pcs live]; [done|..].
  - intros t' size_ l El. assert (t' <> t) as Hne by congruence. destruct (Hth _ _ _ El) as [Hh|Hn]; [left|by right]. eapply holds_evolves; [|done|exact He].
    eapply holds_frame; [exact Hh| |done|done]. intros a k Ha. unfold take_block. rewrite give_ne; [done|].
    intros Ek. pose proof (ub_own _ _ _ _ _ Hub) as Ho. congruence.
  - intros q k Hq. apply lookup_delete_Some in Hq as [Hne Hq]. eapply user_block_frame; [|exact He]. eapply take_user; [exact Hub|by apply Hu|done].
Qed.

(** The program's write. *)
Lemma write_user s own p n a v : sys_ok s own -> live s !! p = Some n -> p <= a < p + n ->
  sys_ok (mk_system (set_mem (<[a := v]> (mem (heap s))) (heap s)) (pcs s) (live s)) own.
Proof.
  intros [Hl Hth Hu] Hp Ha. pose proof (Hu _ _ Hp) as [Hr Ho _ _ _ _]. destruct (user_span o p n Hr) as (S1 & S2 & S3 & S4 & _). unfold request in Hr.
  pose proof Hl as [Hb Hc Ht].
  assert (forall b k q, own b = Some (k, q) -> b <> user_key o p n -> forall x, b <= x < b + k -> <[a := v]> (mem (heap s)) x = mem (heap s) x) as Hout.
  { intros b k q Hbk Hne x Hx. rewrite fn_lookup_insert_ne; [done|]. intros <-. pose proof (block_apart _ _ Hb _ _ _ _ _ _ Hbk Ho Hne) as Hap. unfold apart in Hap. lia. }
  assert (forall pl c hd ls, pl <> P_User -> free_list own (mem (heap s)) hd c pl ls -> free_list own (<[a := v]> (mem (heap s))) hd c pl ls) as Hfr.
  { intros pl c hd ls Hpl Hf. eapply fl_frame; [exact Hf|done| |intros b k Hbk; apply (block_in _ _ Hb _ _ _ Hbk)]. intros b k Hbk. eapply Hout; [exact Hbk|congruence]. }
  split; cbn [heap pcs live set_mem mem chunks alsmall thr_alsmall].
  - split; cbn [set_mem mem chunks alsmall thr_alsmall]; [done|..].
    + intros c Hc15. destruct (Hc c Hc15) as [ls Hf]. exists ls. by apply Hfr.
    + intros t c Hc15. destruct (Ht t c Hc15) as (ls & Hf & Hlast). exists ls. split; [by apply Hfr|done].
  - intros t size_ l El. destruct (Hth _ _ _ El) as [Hh|Hn]; [left|by right]. eapply holds_frame; [exact Hh|done| |done]. intros b k Hbk. eapply Hout; [exact Hbk|congruence].
  - intros q k Hq. pose proof (Hu _ _ Hq) as [U1 U2 U3 U4 U5 U6]. destruct (user_span o q k U1) as (T1 & T2 & T3 & T4 & T5). destruct (block_size_bounds o k U1) as [Hbs _]. pose proof U1 as U1'. unfold request in U1'.
    assert (forall x, user_key o q k <= x < user_key o q k + user_len o k -> ~ (q <= x < q + k) -> <[a := v]> (mem (heap s)) x = mem (heap s) x) as Hq'.
    { intros x Hx Hnx. destruct (decide (user_key o q k = user_key o p n)) as [E|Hne]; [|by eapply Hout].
      assert (q = p) as -> by (eapply key_inj; [by apply Hu|by apply Hu|exact E]). assert (k = n) as -> by congruence.
      rewrite fn_lookup_insert_ne; [done|]. intros <-. done. }
    split; cbn [set_mem mem chunks]; try done.
    + rewrite <- U5. apply ptr_ext. intros x Hx. apply Hq'; lia.
    + intros Hbo. destruct (U6 Hbo) as [G1 G2]. specialize (T5 Hbo). split; [rewrite <- G1|cbv zeta; rewrite <- G2]; apply load_ext; intros x Hx; apply Hq'; lia.
Qed.

Lemma start_sys : sys_ok start (fun _ => None).
Proof.
  split; cbn [start heap pcs live]; [|done|by intros p n ?%lookup_empty_Some].
  split; cbn [chunks mem alsmall thr_alsmall].
  - split; [by intros ? ? ?%elem_of_nil|by intros ? ? ? ? ?%elem_of_nil|done|done].
  - intros c _. exists []. split; [done|constructor|intros a; split; [by intros ?%elem_of_nil|done]|by intros a ?%elem_of_nil].
  - intros t c _. exists []. split; [|done]. split; [done|constructor|intros a; split; [by intros ?%elem_of_nil|done]|by intros a ?%elem_of_nil].
Qed.

(** A block that a thread has is not at the address eight. *)
Lemma holds_out s own t size_ size out : sys_ok s own -> ~ small o size_ -> holds o (heap s) own t size_ (L_Out size out) -> out <> 8.
Proof.
  intros [[Hb _ _] _ _] Hs [_ [[Hs' _]|(_ & _ & _ & Hc)]]; [done|]. destruct (chunk_ok _ _ Hb _ _ Hc) as (H0 & H16 & _). lia.
Qed.

Lemma exec_ok s own x r : sys_ok s own -> allowed x s -> exec x s = Some r ->
  if null_write x s then r = Crash OutOfBounds else exists s' own', r = Ret s' /\ sys_ok s' own'.
Proof.
  intros Hs Ha. destruct x as [t size_ got|t got|t p|t|p a v]; cbn [exec allowed null_write] in *.
  - destruct Ha as (Hr & Hm). destruct (pcs s t) eqn:Et; [|done..]. intros [= <-]. by eapply sys_start.
  - destruct (pcs s t) as [|size_ l|c] eqn:Et; [done| |].
    + intros Hr. destruct (s_threads _ _ Hs _ _ _ Et) as [Hh|[Hsm ->]].
      * assert (next o (heap s) own t size_ got (alloc_step got l (heap s))) as Hn.
        { apply step_ok; [by destruct Hs|done|]. intros size ->. by eapply Ha. }
        pose proof (sys_part _ _ _ _ _ _ Hs Hn) as Hp. destruct l; injection Hr as <-; try exact Hp.
        destruct (Z.ltb_spec 1024 (block_size o size_)) as [Hbig|]; cbn [andb]; [|by eapply sys_finish].
        rewrite (proj2 (Z.eqb_neq _ _)) by (eapply holds_out; [done| |exact Hh]; unfold small; lia). by eapply sys_finish.
      * injection Hr as <-. unfold small in Hsm. destruct (Z.ltb_spec 1024 (block_size o size_)); [|lia]. cbn [andb Z.eqb Pos.eqb].
        rewrite (null_faults o _ own) by (by destruct Hs). done.
    + destruct (Nat.ltb_spec c 15) as [Hc|Hc]; intros [= <-].
      * destruct (close_ok t _ own c (s_lists _ _ Hs) Hc) as (st' & own' & E & Hl & He). rewrite E. cbn [mbind res_bind]. eexists _, own'. split; [done|].
        eapply sys_thread; done.
      * eexists _, own. split; [done|]. eapply sys_thread; [done|by destruct Hs|apply evolves_refl|done].
  - destruct (pcs s t) eqn:Et; [|done..]. destruct (live s !! p) as [n|] eqn:Ep; [|done]. intros [= <-]. by eapply sys_free_ok.
  - destruct (pcs s t) eqn:Et; [|done..]. intros [= <-]. eexists _, own. split; [done|]. eapply sys_thread; [done|by destruct Hs|apply evolves_refl|done].
  - destruct (live s !! p) as [n|] eqn:Ep; [|done]. destruct (_ && _) eqn:E; [|done]. intros [= <-]. bool_to_prop. eexists _, own. split; [done|].
    eapply write_user; [done|exact Ep|lia].
Qed.

Lemma reach_ok s : reach s -> exists own, sys_ok s own.
Proof.
  induction 1 as [|s x s' _ [own IH] Ha Hx]; [by exists (fun _ => None); apply start_sys|].
  pose proof (exec_ok _ _ _ _ IH Ha Hx) as H. destruct (null_write x s); [done|]. destruct H as (s2 & own2 & [= <-] & H). by exists own2.
Qed.

End Threads.
