(* ===== verification/MMSpec.v ===== *)
(** * What the allocator promises

    Whatever the threads do, the blocks given out are apart, aligned and keep
    their contents, no operation leaves its memory, and a thread by itself gets
    its block in a bounded number of steps; [impl_regrow] keeps the contents. *)

From stdpp Require Import functions gmap.
From S2P Require Import Prelude Machine MMDefault MMLists MMInv MMCarve MMSteps MMUser MMThreads.

#[local] Open Scope list_scope.

(** ** One thread by itself *)

Section Sequential.
Variable o : options.

(** How many steps are left. *)
Definition rank (l : local) : nat :=
  match l with
  | L_Read _ => 5 | L_Pop _ => 4 | L_Chunk _ => 3 | L_Publish _ _ _ _ => 2 | L_Discard _ _ _ | L_Rest _ _ _ _ => 1 | L_Out _ _ => 0
  end.

Lemma step_rank got l st l' st' : alloc_step got l st = Ret (l', st') -> (rank l' <= rank l - 1)%nat /\ ((3 <= rank l')%nat -> chunks st' = chunks st).
Proof.
  destruct l as [size|size|size|size add remain rs|size out add|size out remain rs|size out]; cbn [alloc_step]; unfold mbind, act_bind, mret, act_ret, get, lift, modify.
  - destruct (_ =? 0); intros [= <- <-]; cbn; (split; [lia|done]).
  - destruct (_ =? 0); [intros [= <- <-]; cbn; split; [lia|done]|]. destruct (read_ptr _ st) as [[n st1]|e|c|]; intros [= <- <-]. cbn. split; lia.
  - destruct (sys_malloc _ _ st) as [[a st1]|e|c|]; [|done..]. destruct (a =? 0); [done|]. destruct (carve _ _ _ _ st1) as [[r st2]|e|c|]; intros [= <- <-]. cbn. split; lia.
  - destruct (_ =? 0); (destruct (read_ptr _ st) as [[n st1]|e|c|]; [|done..]); [destruct (0 <? rs)|]; intros [= <- <-]; cbn; split; lia.
  - destruct (sys_free _ st) as [[[] st1]|e|c|]; intros [= <- <-]. cbn. split; lia.
  - destruct (rest_class rs) as [c|e|c|]; [|done..]. destruct (write_ptr _ _ st) as [[[] st1]|e|c'|]; intros [= <- <-]. cbn. split; lia.
  - intros [= <- <-]. cbn. split; lia.
Qed.

(** What [impl_alloc] gives. *)
Definition allocated (st : state) (own : owners) (t : nat) (size_ got : Z) (r : res (Z * state)) : Prop :=
  (got = 0 /\ r = Exn MemException) \/
  exists p st' own', r = Ret (p, st') /\ lists_ok st' own' /\ user_block o st' own' p size_ /\ evolves t st own st' own' /\
    forall q k, user_block o st own q k -> q <> p.

(** Two blocks for the same address are the same. *)
Lemma same_key st own p n k x y : lists_ok st own -> request n -> request k -> own (user_key o p n) = Some (user_len o n, x) -> own (user_key o p k) = Some (user_len o k, y) -> x = y.
Proof.
  intros [Hb _ _] Hn Hk Hx Hy. destruct (user_span o p n Hn) as (S1 & S2 & S3 & S4 & _). destruct (user_span o p k Hk) as (T1 & T2 & T3 & T4 & _). unfold request in *.
  destruct (decide (user_key o p n = user_key o p k)) as [E|Hne]; [rewrite E in Hx; congruence|].
  pose proof (block_apart _ _ Hb _ _ _ _ _ _ Hx Hy Hne) as Hap. unfold apart in Hap. destruct (block_size_bounds o n Hn), (block_size_bounds o k Hk). lia.
Qed.

Lemma finish_fresh st own t size_ size out q k : lists_ok st own -> holds o st own t size_ (L_Out size out) -> user_block o st own q k ->
  q <> out + (if MMD_BOUND o then 32 else 0) + 8.
Proof.
  intros Hl Hh [Hr Ho _ _ _ _] ->. destruct (out_block o _ _ _ _ _ _ Hh) as (Hr2 & _ & _ & _ & Ho2 & _).
  by pose proof (same_key _ _ _ _ _ _ _ Hl Hr Hr2 Ho Ho2).
Qed.

Lemma loop_ok fuel t st own size_ got l : lists_ok st own -> holds o st own t size_ l -> (rank l <= fuel)%nat ->
  ((3 <= rank l)%nat -> malloc_ok (chunks st) got (malloc_size o size_)) -> allocated st own t size_ got (alloc_loop fuel o size_ got l st).
Proof.
  revert st own l. induction fuel as [|fuel IH]; intros st own l Hl Hh Hf Hm.
  - destruct l; cbn [rank] in Hf; try lia. destruct (finish_ok o t st own size_ _ _ Hl Hh) as (st' & E & Hl' & Hu & He). right. eexists _, st', _. split_and!; [exact E|exact Hl'|exact Hu|exact He|]. intros q k. by eapply finish_fresh.
  - assert ((exists size out, l = L_Out size out) \/ alloc_loop (S fuel) o size_ got l st = (l ← alloc_step got l; alloc_loop fuel o size_ got l) st) as [(size & out & ->)| ->].
    { destruct l; [by right..|left; by eexists _, _]. }
    + destruct (finish_ok o t st own size_ _ _ Hl Hh) as (st' & E & Hl' & Hu & He). right. eexists _, st', _. split_and!; [exact E|exact Hl'|exact Hu|exact He|]. intros q k. by eapply finish_fresh.
    + assert (next o st own t size_ got (alloc_step got l st)) as Hn.
      { apply step_ok; [done|done|]. intros size ->. apply Hm. cbn. lia. }
      unfold mbind, act_bind. destruct Hn as [[-> ->]|(l' & st1 & own1 & E & Hl1 & Hh1 & He1)]; [by left|]. rewrite E. destruct (step_rank _ _ _ _ _ E) as [Hr Hc].
      destruct (IH st1 own1 l') as [[-> ->]|(p & st' & own' & -> & Hl' & Hu & He & Hfr)]; [done|done|lia| |by left|].
      * intros H3. rewrite Hc by done. apply Hm. lia.
      * right. eexists p, st', own'. split_and!; [done|done|done|by eapply evolves_trans|]. intros q k Hq. apply (Hfr q k). by eapply user_block_frame.
Qed.

Lemma start_rank t size_ got st l st' : alloc_start o t size_ got st = Ret (l, st') -> (rank l <= 5)%nat /\ ((3 <= rank l)%nat -> chunks st' = chunks st).
Proof.
  unfold alloc_start. unfold mbind, act_bind, mret, act_ret, get, modify. destruct (1024 <? _).
  - destruct (sys_malloc _ _ st) as [[a st1]|e|c|]; intros [= <- <-]. cbn. split; lia.
  - destruct (MMD_THREAD o); [|intros [= <- <-]; by split]. destruct (thr_alsmall st t _) as [out tail]. destruct (out =? 0); [intros [= <- <-]; by split|].
    destruct (read_ptr out st) as [[n st1]|e|c|]; intros [= <- <-]. cbn. split; lia.
Qed.

Lemma alloc_ok t st own size_ got : lists_ok st own -> request size_ -> malloc_ok (chunks st) got (malloc_size o size_) ->
  if (got =? 0) && (1024 <? block_size o size_) then impl_alloc o t size_ got st = Crash OutOfBounds
  else allocated st own t size_ got (impl_alloc o t size_ got st).
Proof.
  intros Hl Hr Hm. unfold impl_alloc, mbind, act_bind. destruct ((got =? 0) && (1024 <? block_size o size_)) eqn:En.
  { bool_to_prop. subst got. rewrite start_null by (unfold small; lia). cbn [alloc_loop]. by rewrite (null_faults o _ own). }
  assert (~ small o size_ -> got <> 0) as Hg.
  { unfold small. intros Hs ->. cbn [Z.eqb andb] in En. bool_to_prop. lia. }
  destruct (mm_start_ok o t st own size_ got Hl Hr Hm Hg) as [[-> ->]|(l & st1 & own1 & E & Hl1 & Hh1 & He1)]; [by left|]. rewrite E. destruct (start_rank _ _ _ _ _ _ E) as [H5 Hc].
  destruct (loop_ok 5 t st1 own1 size_ got l Hl1 Hh1 H5) as [[-> ->]|(p & st' & own' & -> & Hl' & Hu & He & Hfr)]; [|by left|].
  - intros H3. by rewrite Hc.
  - right. eexists p, st', own'. split_and!; [done|done|done|by eapply evolves_trans|]. intros q k Hq. apply (Hfr q k). by eapply user_block_frame.
Qed.

(** The bytes of a block of the program. *)
Lemma user_bytes t st own st' own' p n : user_block o st own p n -> evolves t st own st' own' -> load (mem st') p n = load (mem st) p n.
Proof.
  intros Hu [_ E _]. pose proof Hu as [Hr Ho _ _ _ _]. destruct (user_span o p n Hr) as (S1 & S2 & S3 & S4 & _). unfold request in Hr.
  apply load_ext. intros x Hx. eapply E; [by left|exact Ho|lia].
Qed.

Lemma user_aligned st own p n : lists_ok st own -> user_block o st own p n -> n <> 0 -> p mod 16 = 0.
Proof.
  intros [Hb _ _] [Hr Ho Hsm Hch _ _] Hn. destruct (block_size_bounds o n Hr) as [Hbs _]. unfold request in Hr. unfold small, user_key, user_len, base in *.
  destruct (Z.ltb_spec 1024 (block_size o n)) as [Hbig|Hsmall].
  - destruct (chunk_ok _ _ Hb _ _ (Hch ltac:(lia))) as (_ & H & _). destruct (MMD_BOUND o); divlia.
  - destruct (Hsm Hsmall) as [_ H]. unfold cls in H. assert (alloc_class (block_size o n) <> O) as Hc.
    { unfold alloc_class. rewrite (proj2 (Z.leb_gt _ _)) by lia. destruct (_ <? 8); [done|]. unfold bigger. repeat case_match; done. }
    specialize (H Hc). destruct (MMD_BOUND o); divlia.
Qed.

(** What a step leaves alone, seen by the program. *)
Lemma exec_bytes s own x s' p n : sys_ok o s own -> allowed o x s -> exec o x s = Some (Ret s') ->
  live s !! p = Some n -> live s' !! p = Some n -> (forall a v, x <> Op_Write p a v) -> load (mem (heap s')) p n = load (mem (heap s)) p n.
Proof.
  intros Hs Ha Hx Hp Hp' Hw. pose proof Hs as [Hl Hth Hu]. pose proof (Hu _ _ Hp) as Hub.
  assert (forall t size_ got r, next o (heap s) own t size_ got r -> part_done t size_ s r = Ret s' -> load (mem (heap s')) p n = load (mem (heap s)) p n) as Hpart.
  { intros t size_ got r [[_ ->]|(l & st' & own' & -> & _ & _ & He)] [= <-]; [done|]. cbn [heap]. by eapply user_bytes. }
  destruct x as [t size_ got|t got|t q|t|q a v]; cbn [exec allowed] in *.
  - destruct Ha as (Hr & Hm). destruct (pcs s t) eqn:Et; [|done..]. apply (inj Some) in Hx.
    destruct (decide (got = 0 /\ ~ small o size_)) as [[-> Hns]|Hg]; [rewrite start_null in Hx by done; by injection Hx as <-|].
    eapply Hpart; [|exact Hx]. apply mm_start_ok; [done|done|done|]. intros Hns Hz. by apply Hg.
  - destruct (pcs s t) as [|size_ l|c] eqn:Et; [done| |].
    + destruct (Hth _ _ _ Et) as [Hh|[_ ->]]; [|apply (inj Some) in Hx; by rewrite (null_faults o _ own) in Hx].
      assert (next o (heap s) own t size_ got (alloc_step got l (heap s))) as Hn.
      { apply step_ok; [done|done|]. intros size ->. by eapply Ha. }
      pose proof (Hpart _ _ _ _ Hn) as Hp2. destruct l; apply (inj Some) in Hx; try exact (Hp2 Hx).
      destruct (finish_ok o t _ own size_ _ _ Hl Hh) as (st' & E & _ & _ & He). rewrite E in Hx. injection Hx as <-. cbn [heap]. by eapply user_bytes.
    + destruct (Nat.ltb_spec c 15) as [Hc|Hc]; apply (inj Some) in Hx.
      * destruct (close_ok t _ own c Hl Hc) as (st' & own' & E & _ & He). rewrite E in Hx. injection Hx as <-. cbn [heap]. by eapply user_bytes.
      * by injection Hx as <-.
  - destruct (pcs s t) eqn:Et; [|done..]. destruct (live s !! q) as [k|] eqn:Eq; [|done]. apply (inj Some) in Hx.
    destruct (mm_free_ok o t _ own q k Hl (Hu _ _ Eq)) as (st' & own' & E & _ & He). rewrite E in Hx. injection Hx as <-. cbn [heap live] in *.
    assert (q <> p) as Hne by (intros ->; by rewrite lookup_delete_eq in Hp'). eapply user_bytes; [|exact He]. by eapply take_user; [exact (Hu _ _ Eq)|exact Hub|].
  - destruct (pcs s t) eqn:Et; [|done..]. injection Hx as <-. done.
  - destruct (live s !! q) as [k|] eqn:Eq; [|done]. destruct (_ && _) eqn:E; [|done]. injection Hx as <-. bool_to_prop. cbn [heap set_mem mem].
    assert (q <> p) as Hne by (intros ->; by eapply Hw). pose proof (Hu _ _ Eq) as Huq. pose proof Hub as [Hr Ho _ _ _ _]. pose proof Huq as [Hr2 Ho2 _ _ _ _].
    destruct (user_span o p n Hr) as (S1 & S2 & S3 & S4 & _). destruct (user_span o q k Hr2) as (T1 & T2 & T3 & T4 & _). unfold request in *.
    assert (user_key o p n <> user_key o q k) as Hk by (intros Ek; apply Hne; symmetry; by eapply key_inj).
    destruct Hl as [Hb _ _]. pose proof (block_apart _ _ Hb _ _ _ _ _ _ Ho Ho2 Hk) as Hap. unfold apart in Hap.
    apply load_ext. intros y Hy. apply fn_lookup_insert_ne. lia.
Qed.

(** Writing the beginning of a block of the program. *)
Lemma fill_user (t : nat) st own q k l : lists_ok st own -> user_block o st own q k -> Z.of_nat (length l) <= k ->
  exists st' own', write_mem q l st = Ret (tt, st') /\ lists_ok st' own' /\ user_block o st' own' q k /\ load (mem st') q (Z.of_nat (length l)) = l /\
    forall p n, p <> q -> user_block o st own p n -> user_block o st' own' p n /\ load (mem st') p n = load (mem st) p n.
Proof.
  intros Hl Hu Hk. pose proof Hu as [Hr Ho Hsm Hch Hlen Hg]. destruct (user_span o q k Hr) as (S1 & S2 & S3 & S4 & S5).
  destruct (block_size_bounds o k Hr) as [Hbs _]. pose proof Hr as Hr'. unfold request in Hr'. pose proof Hl as [Hb _ _].
  set (own1 := take_block o own t q k). assert (own1 (user_key o q k) = Some (user_len o k, P_Local t)) as Ho1 by apply give_at.
  assert (lists_ok st own1) as Hl1 by (eapply give_lists; [done|exact Ho|by left|right; by eexists]).
  destruct (write_in t st own1 _ _ q l Hl1 Ho1) as (E & Hl2 & He); [lia|lia|].
  set (st' := set_mem _ st) in *. exists st', (give own1 (user_key o q k) (Some (user_len o k, P_User))).
  pose proof (evolves_user t st' own1 _ _ Ho1) as He2. split_and!; [done| | | |].
  - eapply give_lists; [done|exact Ho1|right; by eexists|by left].
  - split; [done|by rewrite give_at|done|done|..]; subst st'; cbn [set_mem mem].
    + rewrite <- Hlen. apply ptr_ext. intros x Hx. apply store_out. lia.
    + intros Hbo. destruct (Hg Hbo) as [G1 G2]. specialize (S5 Hbo). split; [rewrite <- G1|cbv zeta; rewrite <- G2]; apply load_ext; intros x Hx; apply store_out; lia.
  - apply load_store.
  - intros p n Hne Hp. assert (user_block o st own1 p n) as Hp1 by (eapply take_user; [exact Hu|exact Hp|done]).
    split; [|by eapply user_bytes]. eapply user_block_frame; [|exact He2]. by eapply user_block_frame.
Qed.

(** What [impl_regrow] gives. *)
Definition regrown (st : state) (p n newsize : Z) (st' : state) (q : Z) : Prop :=
  exists k, newsize <= k /\ impl_size q st' = Ret (k, st') /\ load (mem st') q n = load (mem st) p n.

Lemma size_ok_user st own p n : lists_ok st own -> user_block o st own p n -> impl_size p st = Ret (n, st).
Proof.
  intros [Hb _ _] [Hr Ho _ _ Hlen _]. destruct (user_span o p n Hr) as (S1 & S2 & S3 & S4 & _). destruct (block_size_bounds o n Hr) as [Hbs _]. unfold request in Hr.
  destruct (block_in _ _ Hb _ _ _ Ho) as [_ Hin]. unfold impl_size. rewrite read_ptr_ok; [by rewrite Hlen|]. apply accessible_inside. eapply inside_sub; [exact Hin|lia|lia].
Qed.

Lemma regrow_ok t st own p n newsize got : lists_ok st own -> user_block o st own p n -> request newsize ->
  malloc_ok (chunks st) got (malloc_size o newsize) ->
  if (n <? newsize) && ((got =? 0) && (1024 <? block_size o newsize)) then impl_regrow o t p newsize got st = Crash OutOfBounds
  else (got = 0 /\ impl_regrow o t p newsize got st = Exn MemException) \/
    exists q st', impl_regrow o t p newsize got st = Ret (q, st') /\ regrown st p n newsize st' q /\
      forall p2 n2, p2 <> p -> user_block o st own p2 n2 -> load (mem st') p2 n2 = load (mem st) p2 n2.
Proof.
  intros Hl Hu Hr Hm. pose proof (size_ok_user _ _ _ _ Hl Hu) as Hsz. unfold impl_size in Hsz. unfold impl_regrow, mbind, act_bind. rewrite Hsz.
  destruct (Z.leb_spec newsize n) as [Hle|Hlt].
  { rewrite (proj2 (Z.ltb_ge _ _)) by done. right. exists p, st. split_and!; [done| |done]. exists n. split_and!; [done|by eapply size_ok_user|done]. }
  rewrite (proj2 (Z.ltb_lt _ _)) by done. pose proof (alloc_ok t st own newsize got Hl Hr Hm) as Ha.
  change (true && ?b) with b. destruct ((got =? 0) && (1024 <? block_size o newsize)); [by rewrite Ha|].
  destruct Ha as [[-> ->]|(q & st1 & own1 & -> & Hl1 & Huq & He1 & Hfr)]; [by left|]. right.
  pose proof (user_block_frame o _ _ _ _ _ _ _ Hu He1) as Hu1. pose proof Hu1 as [Hrn Ho1 _ _ Hlen1 _]. pose proof (ub_length _ _ _ _ _ Huq) as Hlenq.
  assert (q <> p) as Hqp by (intros ->; lia). destruct (user_span o p n Hrn) as (S1 & S2 & S3 & S4 & _). destruct (block_size_bounds o n Hrn) as [Hbs _]. pose proof Hrn as Hrn'. unfold request in Hrn'.
  unfold read_mem. rewrite accessible_inside by (destruct Hl1 as [Hb _ _]; destruct (block_in _ _ Hb _ _ _ Ho1) as [_ Hin]; eapply inside_sub; [exact Hin|lia|lia]).
  destruct (fill_user t st1 own1 q newsize (load (mem st1) p n) Hl1 Huq) as (st2 & own2 & -> & Hl2 & Huq2 & Hload & Hoth); [rewrite length_load; lia|].
  rewrite length_load, Z2Nat.id in Hload by lia. destruct (Hoth p n ltac:(congruence) Hu1) as [Hu2 _].
  destruct (mm_free_ok o t st2 own2 p n Hl2 Hu2) as (st3 & own3 & -> & Hl3 & He3). exists q, st3. unfold mret, act_ret. split; [done|].
  assert (forall a b, a <> p -> user_block o st2 own2 a b -> user_block o st3 own3 a b /\ load (mem st3) a b = load (mem st2) a b) as Hfin.
  { intros a b Hab Hua. pose proof (take_user o st2 own2 t p n a b Hu2 Hua ltac:(congruence)) as Hta. split; [by eapply user_block_frame|by eapply user_bytes]. }
  destruct (Hfin q newsize Hqp Huq2) as [Huq3 Hbq]. split.
  - exists newsize. split_and!; [done|by eapply size_ok_user|]. rewrite <- (take_load _ q n newsize) by lia. rewrite Hbq. rewrite take_load by lia.
    rewrite Hload. by eapply user_bytes.
  - intros p2 n2 Hne Hu22. pose proof (user_block_frame o _ _ _ _ _ _ _ Hu22 He1) as Hu21.
    assert (p2 <> q) as Hq2 by (by eapply Hfr).
    destruct (Hoth p2 n2 Hq2 Hu21) as [Hu23 E2]. destruct (Hfin p2 n2 Hne Hu23) as [_ E3]. rewrite E3, E2. by eapply user_bytes.
Qed.

End Sequential.

(** ** Theorems *)

(** C5. No operation of any thread fails but one, in any state that calls of
    [impl_alloc], [impl_free] and [impl_closingThread] by any number of threads,
    interleaved between their locked parts, and writes of the program inside its
    blocks can lead to: nothing outside the memory of the system is read or
    written, only what malloc gave is freed, no assertion and no guard fails.
    The operation that fails is exactly the write to a block larger than 1024
    bytes for which malloc gave null ([null_write]): the code moves the pointer
    before it tests it. Malloc gives null or fresh memory aligned to 16 bytes;
    requests are of less than 2^64 - 128 bytes, so that no size wraps. *)
Theorem mm_no_fault o s x r : reach o s -> allowed o x s -> exec o x s = Some r ->
  if null_write o x s then r = Crash OutOfBounds else exists s', r = Ret s'.
Proof.
  intros Hs Ha Hx. destruct (reach_ok o s Hs) as [own Hok]. pose proof (exec_ok o _ _ _ _ Hok Ha Hx) as H.
  destruct (null_write o x s); [done|]. destruct H as (s' & own' & -> & _). eauto.
Qed.

(** C4. The blocks that the program has, with the lengths before them, do not
    overlap, are inside memory of the system, are aligned to 16 bytes unless they
    are empty, and [impl_size] gives what was asked for, whatever memory malloc
    gave or refused for requests of less than 2^64 - 128 bytes. *)
Theorem mm_blocks o s p n : reach o s -> live s !! p = Some n ->
  impl_size p (heap s) = Ret (n, heap s) /\ inside (chunks (heap s)) (p - 8) (n + 8) /\ (n <> 0 -> p mod 16 = 0) /\
  forall q k, live s !! q = Some k -> p <> q -> apart (p - 8) (n + 8) (q - 8) (k + 8).
Proof.
  intros Hs Hp. destruct (reach_ok o s Hs) as [own [Hl _ Hu]]. pose proof (Hu _ _ Hp) as Hub. pose proof Hub as [Hr Ho Hsm Hch Hlen _].
  destruct (user_span o p n Hr) as (S1 & S2 & S3 & S4 & S5). pose proof Hl as [Hb _ _]. destruct (block_in _ _ Hb _ _ _ Ho) as [_ Hin]. pose proof Hr as Hr'. unfold request in Hr'.
  assert (inside (chunks (heap s)) (p - 8) (n + 8)) as Hins by (eapply inside_sub; [exact Hin|lia|lia]).
  split_and!.
  - unfold impl_size. rewrite read_ptr_ok; [by rewrite Hlen|]. apply accessible_inside. eapply inside_sub; [exact Hins|lia|lia].
  - done.
  - intros Hn0. by eapply user_aligned.
  - intros q k Hq Hne. pose proof (Hu _ _ Hq) as Huq. pose proof Huq as [Hr2 Ho2 _ _ _ _]. destruct (user_span o q k Hr2) as (T1 & T2 & T3 & T4 & _).
    assert (user_key o p n <> user_key o q k) as Hk by (intros E; apply Hne; by eapply key_inj).
    pose proof (block_apart _ _ Hb _ _ _ _ _ _ Ho Ho2 Hk) as Hap. unfold apart in *. lia.
Qed.

(** C32. An operation of any thread leaves the contents of every block alone
    that the program has before and after it, but for the program's own writes,
    for requests of less than 2^64 - 128 bytes; malloc may fail. *)
Theorem mm_contents_kept o s x s' p n : reach o s -> allowed o x s -> exec o x s = Some (Ret s') ->
  live s !! p = Some n -> live s' !! p = Some n -> (forall a v, x <> Op_Write p a v) ->
  load (mem (heap s')) p n = load (mem (heap s)) p n.
Proof. intros Hs Ha Hx Hp Hp' Hw. destruct (reach_ok o s Hs) as [own Hok]. by eapply exec_bytes. Qed.

(** C31. [impl_regrow] of a block of the program, in any state the threads can
    lead to, to a size of less than 2^64 - 128 bytes, ends with a block of at
    least the new size that begins with the bytes of the old one, and with all
    other blocks as they were, or throws [MemException] when malloc gives nothing;
    it fails exactly if malloc gives nothing for a new block larger than 1024
    bytes, which the code writes to all the same. *)
Theorem regrow_keeps o s t p n newsize got : reach o s -> live s !! p = Some n -> request newsize ->
  malloc_ok (chunks (heap s)) got (malloc_size o newsize) ->
  if (n <? newsize) && ((got =? 0) && (1024 <? block_size o newsize)) then impl_regrow o t p newsize got (heap s) = Crash OutOfBounds
  else (got = 0 /\ impl_regrow o t p newsize got (heap s) = Exn MemException) \/
    exists q k st', impl_regrow o t p newsize got (heap s) = Ret (q, st') /\ newsize <= k /\ impl_size q st' = Ret (k, st') /\
      load (mem st') q n = load (mem (heap s)) p n /\
      forall p2 n2, live s !! p2 = Some n2 -> p2 <> p -> load (mem st') p2 n2 = load (mem (heap s)) p2 n2.
Proof.
  intros Hs Hp Hr Hm. destruct (reach_ok o s Hs) as [own [Hl _ Hu]].
  pose proof (regrow_ok o t _ own p n newsize got Hl (Hu _ _ Hp) Hr Hm) as H. destruct (_ && _); [done|].
  destruct H as [?|(q & st' & E & (k & H1 & H2 & H3) & H4)]; [by left|right].
  exists q, k, st'. split_and!; [done..|]. intros p2 n2 Hp2 Hne. apply H4; [done|by apply Hu].
Qed.

(** ** Examples *)

Definition malloc_okb (l : list (Z * Z)) (got n : Z) : bool :=
  (got =? 0) || (0 <? got) && (got mod 16 =? 0) && (got + n <? 2 ^ 64) && forallb (fun '(b, k) => (got + n <=? b) || (b + k <=? got)) l.

Lemma malloc_okb_ok l got n : malloc_okb l got n = true -> malloc_ok l got n.
Proof.
  unfold malloc_okb. intros H Hg. apply orb_prop in H as [H|H]; [bool_to_prop; done|]. apply andb_prop in H as [H H4]. bool_to_prop. split_and!; try done.
  intros b k Hb. rewrite forallb_forall in H4. specialize (H4 (b, k) (proj1 (list_elem_of_In _ _) Hb)). cbn in H4. unfold apart. apply orb_prop in H4 as [H4|H4]; bool_to_prop; lia.
Qed.

Definition allowedb (o : options) (x : op) (s : system) : bool :=
  match x with
  | Op_Alloc t size_ got => (0 <=? size_) && (size_ <? 2 ^ 64 - 128) && malloc_okb (chunks (heap s)) got (malloc_size o size_)
  | Op_Step t got => match pcs s t with Allocating size_ (L_Chunk _) => malloc_okb (chunks (heap s)) got (malloc_size o size_) | _ => true end
  | _ => true
  end.

Lemma allowedb_ok o x s : allowedb o x s = true -> allowed o x s.
Proof.
  destruct x as [t size_ got|t got|t p|t|p a v]; cbn [allowedb allowed]; try done.
  - intros H. apply andb_prop in H as [H H3]. bool_to_prop. split; [unfold request; lia|by apply malloc_okb_ok].
  - intros H size_ size Et. rewrite Et in H. by apply malloc_okb_ok.
Qed.

Fixpoint runs (o : options) (l : list op) (s : system) : option system :=
  match l with
  | [] => Some s
  | x :: l => if allowedb o x s then match exec o x s with Some (Ret s') => runs o l s' | _ => None end else None
  end.

Lemma runs_reach o l s s' : reach o s -> runs o l s = Some s' -> reach o s'.
Proof.
  revert s. induction l as [|x l IH]; intros s Hs; cbn [runs]; [by intros [= <-]|]. destruct (allowedb o x s) eqn:Ha; [|done].
  destruct (exec o x s) as [[s1|e|c|]|] eqn:Ex; try done. apply IH. eapply reach_exec; [exact Hs|by apply allowedb_ok|exact Ex].
Qed.

Definition demo_options : options := mk_options false true true.

(** Two threads that both find a list empty: the second gives its chunk back. *)
Definition race : list op :=
  [Op_Alloc 0 30 0; Op_Alloc 1 30 0; Op_Step 0 0; Op_Step 1 0; Op_Step 0 4096; Op_Step 1 8192; Op_Step 0 0; Op_Step 1 0; Op_Step 0 0; Op_Step 1 0; Op_Step 0 0; Op_Step 1 0;
   Op_Write 4144 4145 7].
Definition raced : system := default start (runs demo_options race start).

(** An observation of the outcome, computed without the memory. *)
Lemma runs_some {A} (x : option A) (f : A -> bool) : (match x with Some a => f a | None => false end) = true -> exists a, x = Some a /\ f a = true.
Proof. destruct x; [eauto|done]. Qed.

Lemma raced_runs : runs demo_options race start = Some raced /\ live raced !! 4144 = Some 30 /\ chunks (heap raced) = [(4096, 992)].
Proof.
  unfold raced. destruct (runs_some (runs demo_options race start) (fun s => bool_decide (live s !! 4144 = Some 30) && bool_decide (chunks (heap s) = [(4096, 992)]))) as (s & E & H); [vm_compute; reflexivity|].
  rewrite E. apply andb_prop in H as [H1 H2]. apply bool_decide_eq_true in H1, H2. split_and!; [reflexivity|exact H1|exact H2].
Qed.

Lemma raced_reach : reach demo_options raced.
Proof. eapply runs_reach; [constructor|apply raced_runs]. Qed.

Lemma mm_no_fault_witness : exists r, exec demo_options (Op_Free 1 4144) raced = Some r /\ (exists s', r = Ret s') /\ chunks (heap raced) = [(4096, 992)].
Proof.
  destruct (runs_some (exec demo_options (Op_Free 1 4144) raced) (fun _ => true)) as (r & E & _); [vm_compute; reflexivity|]. exists r. split_and!; [exact E| |apply raced_runs].
  apply (mm_no_fault demo_options raced (Op_Free 1 4144) r raced_reach); [exact I|exact E].
Defined.

Lemma mm_blocks_witness : impl_size 4144 (heap raced) = Ret (30, heap raced) /\ inside (chunks (heap raced)) (4144 - 8) (30 + 8) /\ (30 <> 0 -> 4144 mod 16 = 0) /\
  forall q k, live raced !! q = Some k -> 4144 <> q -> apart (4144 - 8) (30 + 8) (q - 8) (k + 8).
Proof. apply (mm_blocks demo_options raced 4144 30 raced_reach). apply raced_runs. Defined.

Lemma mm_contents_kept_witness : exists s', exec demo_options (Op_Free 0 4256) raced = Some (Ret s') /\ load (mem (heap s')) 4144 30 = load (mem (heap raced)) 4144 30.
Proof.
  destruct (runs_some (exec demo_options (Op_Free 0 4256) raced) (fun r => match r with Ret s' => bool_decide (live s' !! 4144 = Some 30) | _ => false end)) as ([s'|e|c|] & E & H); [vm_compute; reflexivity| |discriminate H..].
  apply bool_decide_eq_true in H. exists s'. split; [exact E|].
  apply (mm_contents_kept demo_options raced (Op_Free 0 4256) s' 4144 30 raced_reach); [exact I|exact E|apply raced_runs|exact H|intros a v; discriminate].
Defined.

Lemma regrow_keeps_witness : exists q k st', impl_regrow demo_options 1 4144 2000 65536 (heap raced) = Ret (q, st') /\ 2000 <= k /\ impl_size q st' = Ret (k, st') /\
  load (mem st') q 30 = load (mem (heap raced)) 4144 30 /\
  forall p2 n2, live raced !! p2 = Some n2 -> p2 <> 4144 -> load (mem st') p2 n2 = load (mem (heap raced)) p2 n2.
Proof.
  destruct (regrow_keeps demo_options raced 1 4144 30 2000 65536 raced_reach) as [[H _]|H].
  - apply raced_runs.
  - unfold request. lia.
  - apply malloc_okb_ok. vm_compute. reflexivity.
  - discriminate H.
  - exact H.
Defined.

(** A block larger than 1024 bytes for which malloc gives nothing: the null
    pointer, moved by eight bytes, is taken for memory. *)
Example large_null : impl_alloc (mk_options false false false) 0 2000 0 (heap start) = Crash OutOfBounds.
Proof. vm_compute. reflexivity. Qed.

(** A size near the end of the address space wraps: the block has eight bytes. *)
Example size_wraps :
  match impl_alloc (mk_options false false false) 0 (2 ^ 64 - 8) 4096 (heap start) with
  | Ret (p, st) => match impl_size p st with Ret (k, _) => bool_decide ((k, chunks st) = (2 ^ 64 - 8, [(4096, 480)])) | _ => false end
  | _ => false
  end = true.
Proof. vm_compute. reflexivity. Qed.
