(* ===== verification/StrData.v ===== *)
(** * core/types: StrData

    The shared content of a [String] ([String.hxx], [String.cxx]): a block of
    bytes, a block of wide characters, or both, each kept behind a pointer whose
    low bits say whether it is valid. The other block is made on demand and
    cached in the shared object. Blocks of bytes are those of [BString], blocks of
    wide characters those of [WString]; a block belongs to its StrData here, the
    sharing of a block between a String and a BString is that of [String_c]. *)

From Stdlib Require Import String Ascii.
From S2P Require Import Prelude Machine CString Heap.

(** [BString::Data] and [WString::Data]: [buf] is the memory from [str()] to the end. *)
Record blk := mk_blk { bsize : Z; buf : list Z }.

(** [bytes] and [wide] are the pointers without their two low bits, which are [bflags] and [wflags]. *)
Record strdata := mk_sd {
  refcnt : Z;
  length_ : Z;
  hash : Z;
  bflags : Z;
  bytes : option blk;
  wflags : Z;
  wide : option blk;
}.

#[local] Abbreviation heap := (gmap addr strdata).
#[local] Abbreviation M := (act (gmap addr strdata)).

Definition Bbin : Z := 1.
Definition Binv : Z := 2.
Definition Wprf : Z := 4.
Definition Winv : Z := 8.

Definition s_null : addr := 1%positive.
Definition s_zero : addr := 2%positive.

(** [StrData::null] and [StrData::zero] with the static blocks of [BString] and [WString]. *)
Definition statics : heap :=
  {[ s_null := mk_sd 0 0 0x45432344 0 (Some (mk_blk 0 (repeat 0 8))) 0 (Some (mk_blk 0 (repeat 0 2)));
     s_zero := mk_sd 0 0 (-1) 0 (Some (mk_blk 0 (repeat 0 8))) 0 (Some (mk_blk 0 (repeat 0 2))) ]}.

(** ** Flags *)

Definition getFlags (n : strdata) : Z := Z.land (bflags n) 3 + Z.shiftl (Z.land (wflags n) 3) 2.
Definition b_ok (n : strdata) : bool := Z.land (bflags n) 2 =? 0.
Definition w_ok (n : strdata) : bool := Z.land (wflags n) 2 =? 0.

(** The labels [CASE_NULL], [CASE_BIN], [CASE_WIDE] and [CASE_ERR]. *)
Inductive kind := C_Null | C_Bin | C_Wide | C_Err.

Definition kind_of (fl : Z) : kind :=
  if fl =? Binv + Winv then C_Null
  else if bool_decide (fl ∈ [0; Winv; Bbin; Bbin + Winv]) then C_Bin
  else if bool_decide (fl ∈ [Binv + Wprf; Binv; Bbin + Binv + Wprf; Bbin + Binv; Wprf; Bbin + Wprf]) then C_Wide
  else C_Err.

(** ** Fields and memory *)

Definition with_refcnt (n : strdata) (x : Z) : strdata := mk_sd x (length_ n) (hash n) (bflags n) (bytes n) (wflags n) (wide n).
Definition with_length (n : strdata) (x : Z) : strdata := mk_sd (refcnt n) x (hash n) (bflags n) (bytes n) (wflags n) (wide n).
Definition with_hash (n : strdata) (x : Z) : strdata := mk_sd (refcnt n) (length_ n) x (bflags n) (bytes n) (wflags n) (wide n).
Definition b_init (n : strdata) (b : option blk) (fl : Z) : strdata := mk_sd (refcnt n) (length_ n) (hash n) fl b (wflags n) (wide n).
Definition w_init (n : strdata) (w : option blk) (fl : Z) : strdata := mk_sd (refcnt n) (length_ n) (hash n) (bflags n) (bytes n) (fl / 4) w.

Definition sd (d : addr) : M strdata := fun h => n ← load h (Some d); Ret (n, h).
Definition mod_sd (d : addr) (f : strdata -> strdata) : M unit := fun h => h' ← update h (Some d) f; Ret (tt, h').
Definition new_sd (n : strdata) : M addr := fun h => Ret (alloc h n).

(** [b_get()] and [w_get()] where they are dereferenced. *)
Definition the (b : option blk) : res blk := match b with Some b => Ret b | None => Crash NullDeref end.

Definition blk_store (b : blk) (off : Z) (l : list Z) : res blk := m ← mem_store (buf b) off l; Ret (mk_blk (bsize b) m).

Definition b_load (d : addr) (off len : Z) : M (list Z) := n ← sd d; lift (b ← the (bytes n); mem_range (buf b) off len).
Definition w_load (d : addr) (off len : Z) : M (list Z) := n ← sd d; lift (w ← the (wide n); mem_range (buf w) off len).
Definition b_store (d : addr) (off : Z) (l : list Z) : M unit :=
  n ← sd d; b ← lift (b ← the (bytes n); blk_store b off l); mod_sd d (fun n => b_init n (Some b) (bflags n)).
Definition w_store (d : addr) (off : Z) (l : list Z) : M unit :=
  n ← sd d; w ← lift (w ← the (wide n); blk_store w off l); mod_sd d (fun n => w_init n (Some w) (wflags n * 4)).

(** A wide character, signed, from a [char] and from an [unsigned char]. *)
Definition to_char (c : Z) : Z := s8 c.

(** What the conversions make of a character. *)
Definition wide_to_byte (w : Z) : Z := if 127 <? u32 w then 63 else u8 w.
Definition byte_to_wide (c : Z) : Z := if 127 <? c then 63 else c.

Section StrData.

(** What memory never set holds. *)
Variables bgarbage wgarbage : Z.

(** ** Blocks *)

(** [BString::allocDg] and [WString::allocDg]: the last long is zeroed. *)
Definition b_allocDg (size : Z) : res blk :=
  if size =? 0 then Crash AssertFailed
  else Ret (mk_blk bgarbage (repeat bgarbage (Z.to_nat ((size - 1) / 8 * 8)) ++ repeat 0 8)).
Definition w_allocDg (size : Z) : res blk :=
  if size =? 0 then Crash AssertFailed
  else Ret (mk_blk wgarbage (repeat wgarbage (Z.to_nat ((size - 1) * 4 / 8 * 2)) ++ repeat 0 2)).

(** A new block of [length] characters with the zero that ends them stored. *)
Definition allocAscii (length : Z) : M addr :=
  b ← lift (b ← b_allocDg (u64 (length + 1)); blk_store (mk_blk length (buf b)) length [0]);
  new_sd (mk_sd 0 length (-1) 0 (Some b) (Winv / 4) None).

Definition allocBinary (length : Z) : M addr :=
  b ← lift (b ← b_allocDg (u64 (length + 1)); blk_store (mk_blk length (buf b)) length [0]);
  new_sd (mk_sd 0 length (-1) Bbin (Some b) (Winv / 4) None).

Definition allocWide (length : Z) : M addr :=
  w ← lift (w ← w_allocDg (u64 (length + 1)); blk_store (mk_blk length (buf w)) length [0]);
  new_sd (mk_sd 0 length (-1) Binv None 0 (Some w)).

(** ** References *)

Definition ref (d : addr) : M addr := _ ← mod_sd d (fun n => with_refcnt n (s64 (refcnt n + 1))); mret d.

(** [destroy] gives back the blocks and the object. *)
Definition destroy (d : addr) : M unit := fun h => h' ← free h (Some d); Ret (tt, h').

Definition unref (d : addr) : M unit :=
  n ← sd d;
  let r := s64 (refcnt n - 1) in
  _ ← mod_sd d (fun n => with_refcnt n r);
  if r <? 0 then destroy d else mret tt.

(** ** Conversions *)

(** The block that is published with [cmpxchg], which succeeds where no other thread converts the same object. *)
Definition b_of_wide (n : strdata) : res blk :=
  nb ← b_allocDg (u64 (length_ n + 1));
  w ← the (wide n);
  ws ← mem_range (buf w) 0 (length_ n);
  blk_store (mk_blk (length_ n) (buf nb)) 0 (map wide_to_byte ws).

Definition updateByte (d : addr) : M unit :=
  n ← sd d;
  if b_ok n then mret tt
  else nb ← lift (b_of_wide n); mod_sd d (fun n => b_init n (Some nb) 0).

Definition updateWide (d : addr) : M unit :=
  n ← sd d;
  if w_ok n then mret tt
  else
    nw ← lift (nw ← w_allocDg (u64 (length_ n + 1));
               b ← the (bytes n);
               cs ← mem_range (buf b) 0 (length_ n);
               blk_store (mk_blk (length_ n) (buf nw)) 0 (map byte_to_wide cs));
    mod_sd d (fun n => w_init n (Some nw) 0).

(** The bytes of the BString made from the block. *)
Definition refByte (d : addr) : M (list Z) :=
  n ← sd d;
  if b_ok n then lift (rb ← the (bytes n); mem_range (buf rb) 0 (bsize rb))
  else
    nb ← lift (b_of_wide n);
    _ ← mod_sd d (fun n => b_init n (Some nb) 0);
    lift (mem_range (buf nb) 0 (bsize nb)).

(** ** Hash and comparison *)

Definition hash_loop (l : list Z) : Z := fold_left (fun h c => Z.lxor (u64 (h * 19)) (u32 c)) l 0.
Definition hash_value (l : list Z) : Z :=
  let h := hash_loop l in Z.land (Z.lxor (Z.lxor h (Z.shiftr h 10)) (Z.shiftr h 20)) (2 ^ 63 - 1).

Definition set_hash (d : addr) (l : list Z) : M Z := _ ← mod_sd d (fun n => with_hash n (hash_value l)); mret (hash_value l).

Definition updateHash (d : addr) : M Z :=
  n ← sd d;
  match kind_of (getFlags n) with
  | C_Null => mret 0x45432344
  | C_Bin => cs ← b_load d 0 (length_ n); set_hash d cs
  | C_Wide => ws ← w_load d 0 (length_ n); set_hash d ws
  | C_Err => lift (Crash AssertFailed)
  end.

(** [String::getHash]. *)
Definition getHash (d : addr) : M Z := n ← sd d; if 0 <=? hash n then mret (hash n) else updateHash d.

(** [memcmp] and [wmemcmp], with -1 and 1 for any negative and positive result. *)
Fixpoint cmp_chars (l1 l2 : list Z) : Z :=
  match l1, l2 with
  | a :: l1, b :: l2 => if a <? b then -1 else if b <? a then 1 else cmp_chars l1 l2
  | _, _ => 0
  end.

Definition memcmp (d s : addr) (len : Z) : M Z := a ← b_load d 0 len; b ← b_load s 0 len; mret (cmp_chars a b).
Definition wmemcmp (d s : addr) (len : Z) : M Z := a ← w_load d 0 len; b ← w_load s 0 len; mret (cmp_chars a b).

(** From the comparison of the lengths on. *)
Definition beq_content (d s : addr) : M bool :=
  n ← sd d; m ← sd s;
  if negb (length_ n =? length_ m) then mret false
  else
    let ff := getFlags n in let sf := getFlags m in
    let c := Z.land (Z.lor ff sf) (Binv + Winv) in
    if (c =? 0) || (c =? Winv) then r ← memcmp d s (length_ n); mret (r =? 0)
    else if c =? Binv then r ← wmemcmp d s (length_ n); mret (r =? 0)
    else if length_ n =? 0 then mret true
    else
      _ ← (if negb (Z.land ff Winv =? 0) then updateWide d else updateWide s);
      r ← wmemcmp d s (length_ n); mret (r =? 0).

Definition beq (d s : addr) : M bool :=
  if decide (d = s) then mret true
  else
    n ← sd d;
    _ ← (if hash n <? 0 then _ ← updateHash d; mret tt else mret tt);
    n ← sd d; m ← sd s;
    if hash m =? hash n then beq_content d s
    else if 0 <=? hash m then mret false
    else
      _ ← updateHash s;
      n ← sd d; m ← sd s;
      if negb (hash m =? hash n) then mret false else beq_content d s.

Definition bcmp (d s : addr) : M Z :=
  n ← sd d; m ← sd s;
  let ff := getFlags n in let sf := getFlags m in
  let c := Z.land (Z.lor ff sf) (Binv + Winv) in
  if (c =? 0) || (c =? Winv) then memcmp d s (length_ n)
  else if c =? Binv then wmemcmp d s (length_ n)
  else if length_ n =? 0 then mret 1
  else
    _ ← (if negb (Z.land ff Binv =? 0) then updateByte d else updateByte s);
    memcmp d s (length_ n).

(** ** Room for more characters *)

Definition addAsciiSpace (d : addr) (add : Z) : M addr :=
  n ← sd d;
  _ ← (if b_ok n then mret tt else updateByte d);
  out ← allocAscii (u64 (length_ n + add));
  l ← b_load d 0 (length_ n); _ ← b_store out 0 l;
  _ ← unref d; mret out.

Definition addWideSpace (d : addr) (add : Z) : M addr :=
  n ← sd d;
  _ ← (if w_ok n then mret tt else updateWide d);
  out ← allocWide (u64 (length_ n + add));
  l ← w_load d 0 (length_ n); _ ← w_store out 0 l;
  _ ← unref d; mret out.

Definition makeAsciiSpace (d : addr) (newlen : Z) : M addr :=
  n ← sd d;
  _ ← (if b_ok n then mret tt else updateByte d);
  out ← allocAscii newlen;
  l ← b_load d 0 (if length_ n <? newlen then length_ n else newlen); _ ← b_store out 0 l;
  _ ← unref d; mret out.

Definition makeWideSpace (d : addr) (newlen : Z) : M addr :=
  n ← sd d;
  _ ← (if w_ok n then mret tt else updateWide d);
  out ← allocWide newlen;
  l ← w_load d 0 (if length_ n <? newlen then length_ n else newlen); _ ← w_store out 0 l;
  _ ← unref d; mret out.

Definition updateAsciiLength (d : addr) (newlen : Z) : M unit :=
  n ← sd d;
  if negb (b_ok n) then lift (Crash AssertFailed)
  else
    _ ← b_store d newlen [0];
    mod_sd d (fun n => with_length (b_init n (match bytes n with Some b => Some (mk_blk newlen (buf b)) | None => None end) (bflags n)) newlen).

(** ** Appending *)

(** [goto retry] comes back once at most. *)
Fixpoint append_retry (fuel : nat) (d s : addr) : M addr :=
  match fuel with
  | O => lift NoFuel
  | S fuel =>
    n ← sd d; m ← sd s;
    let ff := getFlags n in let sf := getFlags m in
    if Z.land (Z.lor ff sf) Binv =? 0 then
      out ← allocBinary (u64 (length_ n + length_ m));
      l ← b_load d 0 (length_ n); _ ← b_store out 0 l;
      l ← b_load s 0 (length_ m); _ ← b_store out (length_ n) l;
      _ ← unref d; mret out
    else if Z.land (Z.lor ff sf) Winv =? 0 then
      out ← allocWide (u64 (length_ n + length_ m));
      l ← w_load d 0 (length_ n); _ ← w_store out 0 l;
      l ← w_load s 0 (length_ m); _ ← w_store out (length_ n) l;
      _ ← unref d; mret out
    else
      _ ← (if negb (Z.land ff Winv =? 0) then updateWide d else mret tt);
      _ ← (if negb (Z.land sf Winv =? 0) then updateWide s else mret tt);
      append_retry fuel d s
  end.

Definition append (d s : addr) : M addr :=
  m ← sd s;
  if length_ m <=? 0 then mret d
  else
    n ← sd d;
    if length_ n <=? 0 then _ ← ref s; _ ← unref d; mret s
    else append_retry 2 d s.

(** The shape of the four functions that append characters, given as bytes and as wide characters. *)
Definition append_chars (d : addr) (count : Z) (bs ws : list Z) : M addr :=
  n ← sd d;
  match kind_of (getFlags n) with
  | C_Null => out ← allocAscii count; _ ← unref d; _ ← b_store out 0 bs; mret out
  | C_Bin => out ← addAsciiSpace d count; _ ← b_store out (length_ n) bs; mret out
  | C_Wide => out ← addWideSpace d count; _ ← w_store out (length_ n) ws; mret out
  | C_Err => lift (Crash AssertFailed)
  end.

Definition appendAsciiChars (d : addr) (asciic count : Z) : M addr :=
  append_chars d count (repeat (u8 asciic) (Z.to_nat count)) (repeat (to_char asciic) (Z.to_nat count)).

Definition appendAscii (d : addr) (appstr : list Z) : M addr :=
  append_chars d (Z.of_nat (length appstr)) appstr (map to_char appstr).

Definition appendAsciiReverse (d : addr) (appstr : list Z) : M addr :=
  append_chars d (Z.of_nat (length appstr)) (rev appstr) (map to_char (rev appstr)).

Definition appendWideChars (d : addr) (widec count : Z) : M addr :=
  n ← sd d;
  let ws := repeat widec (Z.to_nat count) in
  match kind_of (getFlags n) with
  | C_Null => out ← allocWide count; _ ← unref d; _ ← w_store out 0 ws; mret out
  | C_Bin =>
    if widec <? 128 then out ← addAsciiSpace d count; _ ← b_store out (length_ n) (repeat (u8 widec) (Z.to_nat count)); mret out
    else out ← addWideSpace d count; _ ← w_store out (length_ n) ws; mret out
  | C_Wide => out ← addWideSpace d count; _ ← w_store out (length_ n) ws; mret out
  | C_Err => lift (Crash AssertFailed)
  end.

Definition appendWide (d : addr) (appstr : list Z) : M addr :=
  n ← sd d;
  out ← addWideSpace d (Z.of_nat (length appstr));
  _ ← w_store out (length_ n) appstr; mret out.

End StrData.
