(* ===== verification/StrDataRefs.v ===== *)
(** * Contents of StrData

    What a StrData holds, whichever of its blocks are valid, and the invariant of
    the heap for a list of references to it: counted references, valid blocks that
    agree, no wrong hash. Then how references, blocks and conversions keep it. *)

From S2P Require Import Prelude Machine CString Heap StrData.

#[local] Abbreviation heap := (gmap addr strdata).
Implicit Types (h : heap) (R : list addr) (a b d : addr) (n : strdata) (l cs : list Z).

Definition ascii (c : Z) : Prop := 0 <= c < 128.

#[global] Instance ascii_dec c : Decision (ascii c).
Proof. unfold ascii. apply _. Defined.

(** ** What is held *)

(** Characters, and whether they are bytes for certain; text that is not has all
    its characters in the wide block, or is ASCII. *)
Definition content : Type := bool * list Z.

Definition block_ok (b : option blk) (len : Z) cs : Prop :=
  exists k, b = Some k /\ bsize k = len /\ len < Z.of_nat (length (buf k)) /\ take (length cs) (buf k) = cs.

Definition hash_of a cs : Z := if decide (a = s_null) then 0x45432344 else hash_value cs.
Definition hash_ok a (x : Z) cs : Prop := x = hash_of a cs \/ x = -1 /\ a <> s_null.

Record sd_ok a n (v : content) : Prop := {
  sd_length : length_ n = Z.of_nat (length v.2);
  sd_small : length_ n < 2 ^ 60;
  sd_bytes : b_ok n = true -> block_ok (bytes n) (length_ n) v.2;
  sd_wide : w_ok n = true -> block_ok (wide n) (length_ n) v.2;
  sd_kind : if v.1 then b_ok n = true else b_ok n = true -> Forall ascii v.2;
  sd_flags : (bflags n = 0 \/ bflags n = 1 \/ bflags n = 2) /\ (wflags n = 0 \/ wflags n = 2) /\ ~ (bflags n = 2 /\ wflags n = 2);
  sd_hash : hash_ok a (hash n) v.2;
}.

Definition holds h a (v : content) : Prop := exists n, h !! a = Some n /\ sd_ok a n v.

(** ** The heap *)

Definition statics_refs : list addr := [s_null; s_zero].

Record wf h R : Prop := {
  wf_block : forall a n, h !! a = Some n -> (exists v, sd_ok a n v) /\ refcnt n = cnt a (statics_refs ++ R) - 1 /\ 0 <= refcnt n;
  wf_live : forall a, a ∈ statics_refs ++ R -> is_Some (h !! a);
  wf_null : holds h s_null (true, []);
  wf_zero : holds h s_zero (true, []);
  wf_count : Z.of_nat (length R) < 2 ^ 60;
}.

(** What the references hold stays. *)
Definition frame h h' R : Prop := forall b v, b ∈ statics_refs ++ R -> holds h b v -> holds h' b v.

Lemma str_wf_perm h R1 R2 : R1 ≡ₚ R2 -> wf h R1 -> wf h R2.
Proof. intros Hp [H1 H2 H3 H4 H5]. split; try done; by setoid_rewrite <- Hp. Qed.

Lemma frame_perm h h' R1 R2 : R1 ≡ₚ R2 -> frame h h' R1 -> frame h h' R2.
Proof. unfold frame. intros Hp. by setoid_rewrite <- Hp. Qed.

Lemma frame_refl h R : frame h h R.
Proof. by intros b v. Qed.

Lemma frame_trans h1 h2 h3 R : frame h1 h2 R -> frame h2 h3 R -> frame h1 h3 R.
Proof. intros H1 H2 b v Hb Hv. by apply H2, H1. Qed.

Lemma frame_sub h h' R1 R2 : (forall a, a ∈ R1 -> a ∈ R2) -> frame h h' R2 -> frame h h' R1.
Proof. intros Hs Hf b v Hb. apply Hf. apply elem_of_app in Hb as [Hb|Hb]; apply elem_of_app; auto. Qed.

Lemma frame_cons h h' a R : frame h h' (a :: R) -> frame h h' R.
Proof. apply frame_sub. intros b. rewrite elem_of_cons. auto. Qed.

Lemma str_statics_wf : wf statics [].
Proof.
  assert (forall a hv, hash_ok a hv [] -> sd_ok a (mk_sd 0 0 hv 0 (Some (mk_blk 0 (repeat 0 8))) 0 (Some (mk_blk 0 (repeat 0 2)))) (true, [])) as Hok.
  { intros a hv Hh. split; try done; try (intros _; by eexists); simpl; auto. split_and!; auto. by intros [? _]. }
  assert (statics !! s_null = Some (mk_sd 0 0 0x45432344 0 (Some (mk_blk 0 (repeat 0 8))) 0 (Some (mk_blk 0 (repeat 0 2))))) as E1 by done.
  assert (statics !! s_zero = Some (mk_sd 0 0 (-1) 0 (Some (mk_blk 0 (repeat 0 8))) 0 (Some (mk_blk 0 (repeat 0 2))))) as E2 by done.
  split; [| | | |done].
  - intros a n Ha. destruct (decide (a = s_null)) as [->|]; [|destruct (decide (a = s_zero)) as [->|]].
    + rewrite E1 in Ha. injection Ha as <-. split; [|done]. eexists. apply Hok. by left.
    + rewrite E2 in Ha. injection Ha as <-. split; [|done]. eexists. apply Hok. by right.
    + unfold statics in Ha. rewrite lookup_insert_ne, lookup_singleton_ne in Ha by congruence. done.
  - intros a. rewrite app_nil_r. unfold statics_refs. rewrite !elem_of_cons. intros [->|[->|Ha]]; [by rewrite E1|by rewrite E2|]. by apply elem_of_nil in Ha.
  - eexists. split; [exact E1|]. apply Hok. by left.
  - eexists. split; [exact E2|]. apply Hok. by right.
Qed.

Lemma wf_holds h R a : wf h R -> a ∈ statics_refs ++ R -> exists n v, h !! a = Some n /\ sd_ok a n v.
Proof. intros Hwf Ha. destruct (wf_live _ _ Hwf a Ha) as [n Hn]. destruct (wf_block _ _ Hwf a n Hn) as [[v Hv] _]. eauto. Qed.

Lemma str_wf_refcnt h R a n : wf h R -> h !! a = Some n -> 0 <= refcnt n < 2 ^ 61.
Proof.
  intros Hwf Ha. destruct (wf_block _ _ Hwf a n Ha) as (_ & -> & ?). pose proof (wf_count _ _ Hwf). pose proof (cnt_nonneg a (statics_refs ++ R)) as Hc.
  rewrite length_app in Hc. simpl length in Hc. lia.
Qed.

(** ** Changing a block in place *)

Lemma wf_set h R a n n' v : wf h R -> h !! a = Some n -> sd_ok a n' v -> refcnt n' = refcnt n ->
  (a ∈ statics_refs -> v = (true, [])) -> wf (<[a := n']> h) R.
Proof.
  intros [H1 H2 H3 H4 H5] Ha Hv Hr Hst. split; try done.
  - intros b m. destruct (decide (a = b)) as [->|Hb].
    + rewrite lookup_insert_eq. intros [= <-]. destruct (H1 _ _ Ha) as (_ & E & ?). split; [by eexists|]. lia.
    + rewrite lookup_insert_ne by done. apply H1.
  - intros b Hb. destruct (decide (a = b)) as [->|Hne]; [rewrite lookup_insert_eq; by eexists|]. rewrite lookup_insert_ne by done. by apply H2.
  - destruct (decide (a = s_null)) as [->|Hne]; [|destruct H3 as (m & ? & ?); exists m; by rewrite lookup_insert_ne by done].
    exists n'. rewrite lookup_insert_eq. split; [done|]. rewrite <- Hst; [done|]. by left.
  - destruct (decide (a = s_zero)) as [->|Hne]; [|destruct H4 as (m & ? & ?); exists m; by rewrite lookup_insert_ne by done].
    exists n'. rewrite lookup_insert_eq. split; [done|]. rewrite <- Hst; [done|]. by right; left.
Qed.

(** Whatever a block may be said to hold, the change keeps. *)
Definition keeps a n n' : Prop := forall v, sd_ok a n v -> sd_ok a n' v.

Lemma wf_keep h R a n n' : wf h R -> h !! a = Some n -> keeps a n n' -> refcnt n' = refcnt n ->
  wf (<[a := n']> h) R /\ frame h (<[a := n']> h) R.
Proof.
  intros Hwf Ha Hk Hr. destruct (wf_block _ _ Hwf a n Ha) as [[v Hv] _].
  assert (forall b w, holds h b w -> holds (<[a := n']> h) b w) as Hh.
  { intros b w (m & Hm & Hw). destruct (decide (a = b)) as [->|Hb].
    - exists n'. rewrite lookup_insert_eq. split; [done|]. rewrite Ha in Hm. injection Hm as ->. by apply Hk.
    - exists m. by rewrite lookup_insert_ne. }
  split; [|intros b w _; apply Hh]. destruct Hwf as [H1 H2 H3 H4 H5]. split; try done.
  - intros b m. destruct (decide (a = b)) as [->|Hb].
    + rewrite lookup_insert_eq. intros [= <-]. destruct (H1 _ _ Ha) as (_ & E & ?). split; [by eexists; apply Hk|]. lia.
    + rewrite lookup_insert_ne by done. apply H1.
  - intros b Hb. destruct (decide (a = b)) as [->|Hne]; [rewrite lookup_insert_eq; by eexists|]. rewrite lookup_insert_ne by done. by apply H2.
  - by apply Hh.
  - by apply Hh.
Qed.

(** ** References *)

Lemma sd_ok_refcnt a n v x : sd_ok a n v -> sd_ok a (with_refcnt n x) v.
Proof. by intros [H1 H2 H3 H4 H5 H6 H7]. Qed.

Lemma sd_eq h d n : h !! d = Some n -> sd d h = Ret (n, h).
Proof. intros H. unfold sd. by rewrite (load_ok _ _ _ H). Qed.

Lemma mod_sd_eq h d n f : h !! d = Some n -> mod_sd d f h = Ret (tt, <[d := f n]> h).
Proof. intros H. unfold mod_sd. by rewrite (update_ok _ _ _ _ H). Qed.

(** The reference count of a block and of the others, when the references change. *)
Lemma wf_recount h R R' a n (x : Z) : wf h R -> h !! a = Some n -> 0 <= x ->
  x = cnt a (statics_refs ++ R') - 1 -> (forall b, b <> a -> cnt b (statics_refs ++ R') = cnt b (statics_refs ++ R)) ->
  (forall b, b ∈ R' -> b ∈ a :: R) -> Z.of_nat (length R') < 2 ^ 60 ->
  wf (<[a := with_refcnt n x]> h) R' /\ (forall b v, holds h b v -> holds (<[a := with_refcnt n x]> h) b v).
Proof.
  intros [H1 H2 H3 H4 H5] Ha Hx Hc Ho Hs Hl. destruct (H1 a n Ha) as [[v Hv] _].
  assert (forall b w, holds h b w -> holds (<[a := with_refcnt n x]> h) b w) as Hh.
  { intros b w (m & Hm & Hw). destruct (decide (a = b)) as [->|Hb].
    - exists (with_refcnt n x). rewrite lookup_insert_eq. split; [done|]. rewrite Ha in Hm. injection Hm as ->. by apply sd_ok_refcnt.
    - exists m. by rewrite lookup_insert_ne. }
  split; [|done]. split; try done; [| |by apply Hh|by apply Hh].
  - intros b m. destruct (decide (a = b)) as [->|Hb].
    + rewrite lookup_insert_eq. intros [= <-]. split; [by eexists; apply sd_ok_refcnt|]. cbn [refcnt with_refcnt]. lia.
    + rewrite lookup_insert_ne by done. rewrite Ho by done. apply H1.
  - intros b Hb. destruct (decide (a = b)) as [->|Hne]; [rewrite lookup_insert_eq; by eexists|]. rewrite lookup_insert_ne by done.
    apply H2. apply elem_of_app in Hb as [Hb|Hb]; apply elem_of_app; [by left|right]. apply Hs, elem_of_cons in Hb as [->|]; done.
Qed.

Lemma cnt_cons_app a b R : cnt a (statics_refs ++ b :: R) = (if decide (b = a) then 1 else 0) + cnt a (statics_refs ++ R).
Proof. rewrite <- (cnt_perm a (b :: statics_refs ++ R)); [done|]. apply Permutation_middle. Qed.

Lemma ref_ok h R d : wf h R -> d ∈ statics_refs ++ R -> Z.of_nat (S (length R)) < 2 ^ 60 ->
  exists h', ref d h = Ret (d, h') /\ wf h' (d :: R) /\ frame h h' (d :: R).
Proof.
  intros Hwf Hd Hl. destruct (wf_live _ _ Hwf d Hd) as [n Hn]. pose proof (str_wf_refcnt _ _ _ _ Hwf Hn) as Hr.
  destruct (wf_block _ _ Hwf d n Hn) as (_ & Hc & _).
  destruct (wf_recount h R (d :: R) d n (refcnt n + 1) Hwf Hn) as [W F]; [lia| | |done|simpl; lia|].
  - rewrite cnt_cons_app, decide_True by done. lia.
  - intros b Hb. rewrite cnt_cons_app, decide_False by done. lia.
  - eexists. split; [|split; [exact W|intros b v _; apply F]].
    unfold ref, mbind, act_bind. rewrite (mod_sd_eq _ _ _ _ Hn). cbn beta iota. unfold mret, act_ret. by rewrite (swrap_id 64) by (done || (unfold in_s; lia)).
Qed.

Lemma str_unref_ok h R d : wf h (d :: R) ->
  exists h', unref d h = Ret (tt, h') /\ wf h' R /\ frame h h' R /\ (forall b, b <> d -> h' !! b = h !! b).
Proof.
  intros Hwf. assert (d ∈ statics_refs ++ d :: R) as Hd by (apply elem_of_app; right; by left).
  destruct (wf_live _ _ Hwf d Hd) as [n Hn]. pose proof (str_wf_refcnt _ _ _ _ Hwf Hn) as Hr.
  destruct (wf_block _ _ Hwf d n Hn) as (_ & Hc & _). rewrite cnt_cons_app, decide_True in Hc by done.
  pose proof (wf_count _ _ Hwf) as Hl. simpl in Hl.
  unfold unref, mbind, act_bind. rewrite (sd_eq _ _ _ Hn). cbn beta iota zeta. rewrite (mod_sd_eq _ _ _ _ Hn). cbn beta iota.
  rewrite (swrap_id 64) by (done || (unfold in_s; lia)). destruct (Z.ltb_spec (refcnt n - 1) 0) as [Hz|Hz].
  - assert (cnt d (statics_refs ++ R) = 0) as Hc0 by lia. assert (d ∉ statics_refs ++ R) as HdR by (rewrite cnt_elem; lia).
    unfold destroy. rewrite (free_ok _ _ _ (lookup_insert_eq h d _)). cbn [mbind res_bind]. rewrite delete_insert_eq. eexists. split; [reflexivity|].
    assert (forall b, b ∈ statics_refs ++ R -> delete d h !! b = h !! b) as Hlk.
    { intros b Hb. apply lookup_delete_ne. by intros ->. }
    assert (frame h (delete d h) R) as Hf.
    { intros b v Hb (m & Hm & Hv). exists m. by rewrite Hlk. }
    split_and!; [|done|intros b Hb; by apply lookup_delete_ne]. destruct Hwf as [H1 H2 H3 H4 H5]. split; [| | | |lia].
    + intros b m Hm. apply lookup_delete_Some in Hm as [Hdb Hm]. destruct (H1 b m Hm) as (G1 & G2 & G3). split_and!; [done| |done].
      rewrite cnt_cons_app, decide_False in G2 by done. done.
    + intros b Hb. rewrite Hlk by done. apply H2. apply elem_of_app in Hb as [Hb|Hb]; apply elem_of_app; [by left|right; by right].
    + apply Hf; [|done]. apply elem_of_app. left. by left.
    + apply Hf; [|done]. apply elem_of_app. left. by right; left.
  - destruct (wf_recount h (d :: R) R d n (refcnt n - 1) Hwf Hn) as [W F]; [lia|lia| |intros b Hb; by do 2 right|lia|].
    + intros b Hb. rewrite cnt_cons_app, decide_False by done. lia.
    + eexists. split; [reflexivity|]. split_and!; [exact W|intros b v _; apply F|intros b Hb; by apply lookup_insert_ne].
Qed.

Lemma new_sd_ok h R n v : wf h R -> (forall a, a <> s_null -> sd_ok a n v) -> refcnt n = 0 -> Z.of_nat (S (length R)) < 2 ^ 60 ->
  exists a, new_sd n h = Ret (a, <[a := n]> h) /\ h !! a = None /\ wf (<[a := n]> h) (a :: R) /\ frame h (<[a := n]> h) R /\
    a ∉ statics_refs ++ R /\ sd_ok a n v.
Proof.
  intros [H1 H2 H3 H4 H5] Hv Hr Hl. unfold new_sd. destruct (alloc h n) as [a h'] eqn:E. destruct (alloc_fresh _ _ _ _ E) as [Ha ->].
  assert (a ∉ statics_refs ++ R) as HaR by (intros HR; destruct (H2 a HR); congruence).
  assert (a <> s_null) as Hnn by (intros ->; apply HaR; apply elem_of_app; left; by left). specialize (Hv a Hnn).
  assert (cnt a (statics_refs ++ R) = 0) as Hc by (rewrite cnt_elem in HaR; pose proof (cnt_nonneg a (statics_refs ++ R)); lia).
  assert (forall b w, holds h b w -> holds (<[a := n]> h) b w) as Hh.
  { intros b w (m & Hm & Hw). exists m. rewrite lookup_insert_ne by congruence. done. }
  exists a. split_and!; try done; [|intros b w _; apply Hh]. split; [| |by apply Hh|by apply Hh|simpl; lia].
  - intros b m. rewrite cnt_cons_app. destruct (decide (a = b)) as [->|Hb].
    + rewrite lookup_insert_eq. intros [= <-]. split; [by eexists|]. lia.
    + rewrite lookup_insert_ne by done. apply H1.
  - intros b Hb. destruct (decide (a = b)) as [->|Hne]; [rewrite lookup_insert_eq; by eexists|]. rewrite lookup_insert_ne by done. apply H2.
    apply elem_of_app in Hb as [Hb|Hb]; apply elem_of_app; [by left|right]. apply elem_of_cons in Hb as [->|]; done.
Qed.
