(* ===== verification/StrDataOps.v ===== *)
(** * Operations of StrData

    Each operation on a heap that counts its references: the value of the result
    from the values of the operands, and that what other references hold stays.
    The two kinds of blocks are treated together, [bin] telling bytes from wide
    characters. *)

From S2P Require Import Prelude Machine CString Heap StrData StrDataRefs.

#[local] Abbreviation heap := (gmap addr strdata).
Implicit Types (h : heap) (R : list addr) (a d : addr) (n : strdata) (l cs : list Z) (bin : bool) (v w : content).

(** ** Blocks *)

Lemma block_read k len cs : bsize k = len -> len = Z.of_nat (length cs) -> len < Z.of_nat (length (buf k)) -> take (length cs) (buf k) = cs ->
  mem_range (buf k) 0 len = Ret cs.
Proof.
  intros _ -> Hl Ht. unfold mem_range. destruct (Z.ltb_spec (Z.of_nat (length cs)) 0); [lia|]. simpl orb. cbv iota.
  destruct (Z.ltb_spec (Z.of_nat (length (buf k))) (0 + Z.of_nat (length cs))); [lia|]. by rewrite Nat2Z.id, drop_0, Ht.
Qed.

Lemma block_store (m : list Z) (off : nat) l : (off + length l <= length m)%nat ->
  mem_store m (Z.of_nat off) l = Ret (take off m ++ l ++ drop (off + length l) m).
Proof.
  intros Hl. unfold mem_store. destruct (Z.ltb_spec (Z.of_nat off) 0); [lia|].
  destruct (Z.ltb_spec (Z.of_nat (length m)) (Z.of_nat off + Z.of_nat (length l))); [lia|]. by rewrite Nat2Z.id.
Qed.

(** Storing inside the characters of a block. *)
Lemma take_store (m cs : list Z) (off : nat) l : take (length cs) m = cs -> (off + length l <= length cs)%nat ->
  take (length cs) (take off m ++ l ++ drop (off + length l) m) = take off cs ++ l ++ drop (off + length l) cs.
Proof.
  intros Hm Hl. assert (length cs <= length m)%nat as Hlen by (rewrite <- Hm at 1; rewrite length_take; lia).
  remember (length cs) as k eqn:Hk. clear Hk. subst cs.
  rewrite !take_app, length_take, !take_take. replace (off `min` length m)%nat with off by lia.
  replace (off `min` k)%nat with off by lia. replace (k `min` off)%nat with off by lia. rewrite (take_ge l) by lia.
  do 2 f_equal. rewrite skipn_firstn_comm. f_equal. lia.
Qed.

Definition capacity bin (len : Z) : nat := if bin then Z.to_nat (len / 8 * 8 + 8) else Z.to_nat (len * 4 / 8 * 2 + 2).

Lemma capacity_gt bin len : 0 <= len -> len < Z.of_nat (capacity bin len).
Proof. intros H. unfold capacity. destruct bin; divlia. Qed.

Definition allocDg bin (g1 g2 : Z) (size : Z) : res blk := if bin then b_allocDg g1 size else w_allocDg g2 size.

Lemma str_allocDg_ok bin g1 g2 len : 0 <= len < 2 ^ 60 -> exists b, allocDg bin g1 g2 (u64 (len + 1)) = Ret b /\ length (buf b) = capacity bin len.
Proof.
  intros H. rewrite (uwrap_id 64) by (unfold in_u; lia). unfold allocDg, b_allocDg, w_allocDg, capacity.
  destruct bin; (destruct (Z.eqb_spec (len + 1) 0); [lia|]); eexists; (split; [reflexivity|]); cbn [buf]; rewrite length_app, repeat_length;
    rewrite Z.add_simpl_r; simpl length; divlia.
Qed.

(** The new block with its end stored, and nothing known of its characters. *)
Lemma str_new_block_ok bin g1 g2 len : 0 <= len < 2 ^ 60 ->
  exists b l, (b ← allocDg bin g1 g2 (u64 (len + 1)); blk_store (mk_blk len (buf b)) len [0]) = Ret b /\
    length l = Z.to_nat len /\ block_ok (Some b) len l.
Proof.
  intros H. destruct (str_allocDg_ok bin g1 g2 len H) as (b & -> & Hl). cbn [mbind res_bind]. unfold blk_store. cbn [buf bsize].
  pose proof (capacity_gt bin len ltac:(lia)) as Hc.
  assert (mem_store (buf b) len [0] = Ret (take (Z.to_nat len) (buf b) ++ [0] ++ drop (Z.to_nat len + 1) (buf b))) as ->.
  { pose proof (block_store (buf b) (Z.to_nat len) [0] ltac:(simpl; lia)) as E. by rewrite Z2Nat.id in E by lia. } cbn [mbind res_bind].
  set (m := _ ++ _). assert (length m = length (buf b)) as Hm by (unfold m; rewrite !length_app, length_take, length_drop; simpl; lia).
  exists (mk_blk len m), (take (Z.to_nat len) m). rewrite length_take.
  split_and!; [done|lia|]. eexists. split_and!; [reflexivity|done|cbn [buf]; lia|]. cbn [buf]. rewrite length_take. f_equal. lia.
Qed.

(** ** Reading what is held *)

Lemma sd_ok_inj a n v w : sd_ok a n v -> sd_ok a n w -> v.2 = w.2.
Proof.
  intros [L1 _ B1 W1 _ [F1 F2] _] [L2 _ B2 W2 _ _ _]. assert (length v.2 = length w.2) as Hl by lia.
  assert (forall x, block_ok x (length_ n) v.2 -> block_ok x (length_ n) w.2 -> v.2 = w.2) as Hb.
  { intros x (k & -> & _ & _ & T1) (k' & [= <-] & _ & _ & T2). congruence. }
  destruct (b_ok n) eqn:E1; [by apply (Hb (bytes n)); auto|]. destruct (w_ok n) eqn:E2; [by apply (Hb (wide n)); auto|].
  unfold b_ok in E1. unfold w_ok in E2. destruct F1 as [F|[F|F]]; rewrite F in E1; [done|done|]. destruct F2 as [[G|G] F2]; rewrite G in E2; [done|].
  by destruct F2.
Qed.

Lemma weaken a n cs : sd_ok a n (true, cs) -> Forall ascii cs -> sd_ok a n (false, cs).
Proof. intros [H1 H2 H3 H4 H5 H6 H7] Ha. by split; simpl in *; auto. Qed.

Lemma weaken_holds h a v : holds h a v -> Forall ascii v.2 -> holds h a (false, v.2).
Proof. destruct v as [[] cs]; [|done]. intros (n & Hn & Hv) Ha. exists n. split; [done|]. by apply weaken. Qed.

Definition valid bin n : bool := if bin then b_ok n else w_ok n.
Definition block bin n : option blk := if bin then bytes n else wide n.
Definition load_ bin (d : addr) (off len : Z) := if bin then b_load d off len else w_load d off len.
Definition store_ bin (d : addr) (off : Z) l := if bin then b_store d off l else w_store d off l.

Lemma sd_block bin a n v : sd_ok a n v -> valid bin n = true -> block_ok (block bin n) (length_ n) v.2.
Proof. intros [L1 _ B1 W1 _ _ _]. destruct bin; simpl; auto. Qed.

Lemma load_ok_ bin h d n v : h !! d = Some n -> sd_ok d n v -> valid bin n = true -> load_ bin d 0 (length_ n) h = Ret (v.2, h).
Proof.
  intros Hn Hv Hb. destruct (sd_block bin d n v Hv Hb) as (k & Hk & S & L & T). pose proof (sd_length _ _ _ Hv).
  assert (mem_range (buf k) 0 (length_ n) = Ret v.2) as E by (by apply block_read).
  unfold load_, b_load, w_load, block in *. destruct bin; unfold mbind, act_bind; rewrite (sd_eq _ _ _ Hn), Hk; cbn [the lift mbind res_bind]; by rewrite E.
Qed.

Lemma valid_bin n v a : sd_ok a n v -> v.1 = true -> valid true n = true.
Proof. intros [_ _ _ _ K _ _] E. by rewrite E in K. Qed.

Lemma valid_some bin a n v : sd_ok a n v -> valid bin n = false -> valid (negb bin) n = true.
Proof.
  intros [_ _ _ _ _ (F1 & F2 & F3) _]. unfold valid, b_ok, w_ok. destruct bin; simpl; intros H.
  - destruct F1 as [F|[F|F]]; rewrite F in H; [done|done|]. destruct F2 as [G|G]; rewrite G; [done|]. by destruct F3.
  - destruct F2 as [G|G]; rewrite G in H; [done|]. destruct F1 as [F|[F|F]]; rewrite F; [done|done|]. by destruct F3.
Qed.

(** ** Conversions *)

(** What can be read from the block of the kind [bin]. *)
Definition convertible bin v : Prop := v.1 = bin \/ Forall ascii v.2.

Lemma convert_ascii cs : Forall ascii cs -> map wide_to_byte cs = cs /\ map byte_to_wide cs = cs.
Proof.
  unfold ascii. induction 1 as [|c cs Hc _ [IH1 IH2]]; [done|]. simpl. rewrite IH1, IH2. unfold wide_to_byte, byte_to_wide.
  rewrite (uwrap_id 32), (uwrap_id 8) by (unfold in_u; lia). by destruct (Z.ltb_spec 127 c); [lia|].
Qed.

Lemma fill_block bin g1 g2 cs : Z.of_nat (length cs) < 2 ^ 60 ->
  exists b, (nb ← allocDg bin g1 g2 (u64 (Z.of_nat (length cs) + 1)); blk_store (mk_blk (Z.of_nat (length cs)) (buf nb)) 0 cs) = Ret b /\
    block_ok (Some b) (Z.of_nat (length cs)) cs.
Proof.
  intros H. destruct (str_allocDg_ok bin g1 g2 (Z.of_nat (length cs)) ltac:(lia)) as (b & -> & Hl). cbn [mbind res_bind].
  pose proof (capacity_gt bin (Z.of_nat (length cs)) ltac:(lia)). unfold blk_store. cbn [buf bsize].
  rewrite (block_store _ 0) by lia. cbn [mbind res_bind]. eexists. split; [reflexivity|]. eexists.
  rewrite take_0. cbn [app plus]. split_and!; try done; cbn [buf]; [rewrite length_app, length_drop; lia|]. by rewrite take_app_length.
Qed.

Definition update_ bin g1 g2 (d : addr) := if bin then updateByte g1 d else updateWide g2 d.

Lemma update_ok_ bin g1 g2 h R d v : wf h R -> d ∈ statics_refs ++ R -> holds h d v -> convertible bin v ->
  exists h' n', update_ bin g1 g2 d h = Ret (tt, h') /\ wf h' R /\ frame h h' R /\ h' !! d = Some n' /\ sd_ok d n' v /\ valid bin n' = true /\
    (forall b, b <> d -> h' !! b = h !! b) /\ (forall n, h !! d = Some n -> valid (negb bin) n = true -> valid (negb bin) n' = true).
Proof.
  intros Hwf Hd (n & Hn & Hv) Hc. pose proof Hv as [L S B W K F Hh].
  destruct (valid bin n) eqn:E.
  { exists h, n. split_and!; [|done|apply frame_refl|done..|congruence].
    unfold update_, updateByte, updateWide. destruct bin; unfold valid in E; unfold mbind, act_bind; by rewrite (sd_eq _ _ _ Hn), E. }
  pose proof (valid_some _ _ _ _ Hv E) as E'. assert (Forall ascii v.2) as Ha.
  { destruct Hc as [Hc|]; [|done]. destruct bin; [by rewrite (valid_bin n v d Hv Hc) in E|]. rewrite Hc in K. by apply K. }
  destruct (fill_block bin g1 g2 v.2 ltac:(lia)) as (b & Eb & Hb). rewrite <- L in Eb.
  set (n' := if bin then b_init n (Some b) 0 else w_init n (Some b) 0).
  assert (keeps d n n') as Hk.
  { intros w Hw. rewrite (sd_ok_inj _ _ _ _ Hv Hw) in Ha, Hb, L. destruct Hw as [L' S' B' W' K' (F1 & F2 & F3) H'].
    destruct bin; split; try done.
    - intros _. simpl. by rewrite L'.
    - destruct (w.1); [done|]. by intros _.
    - cbn. split_and!; auto. intros [? _]. done.
    - intros _. simpl. by rewrite L'.
    - cbn. split_and!; auto. by intros [_ ?]. }
  destruct (wf_keep h R d n n' Hwf Hn Hk) as [Hwf' Hf]; [by destruct bin|].
  exists (<[d := n']> h), n'. split_and!; try done.
  - destruct (sd_block (negb bin) d n v Hv E') as (k & Hk' & S1 & L1 & T1). pose proof (block_read k _ _ S1 L L1 T1) as Er.
    destruct (convert_ascii v.2 Ha) as [C1 C2].
    unfold update_, updateByte, updateWide. destruct bin; cbn [negb block valid] in *; unfold mbind at 1, act_bind at 1; rewrite (sd_eq _ _ _ Hn), E;
      unfold mbind at 1, act_bind at 1; cbn [allocDg] in Eb.
    + unfold b_of_wide. destruct (b_allocDg g1 (u64 (length_ n + 1))); try discriminate Eb. cbn [mbind res_bind] in *. rewrite Hk'. cbn [the mbind res_bind].
      rewrite Er. cbn [mbind res_bind]. rewrite C1, Eb. cbn [lift]. by rewrite (mod_sd_eq _ _ _ _ Hn).
    + destruct (w_allocDg g2 (u64 (length_ n + 1))); try discriminate Eb. cbn [mbind res_bind] in *. rewrite Hk'. cbn [the mbind res_bind].
      rewrite Er. cbn [mbind res_bind]. rewrite C2, Eb. cbn [lift]. by rewrite (mod_sd_eq _ _ _ _ Hn).
  - by rewrite lookup_insert_eq.
  - by apply Hk.
  - by destruct bin.
  - intros a Ha'. by apply lookup_insert_ne.
  - intros m Hm. rewrite Hn in Hm. injection Hm as <-. by destruct bin.
Qed.

(** ** New blocks *)

(** A block that nobody else refers to, with one kind of characters only. *)
Definition fresh_sd bin n cs : Prop :=
  refcnt n = 0 /\ hash n = -1 /\ length_ n = Z.of_nat (length cs) /\ length_ n < 2 ^ 60 /\
  (if bin then (bflags n = 0 \/ bflags n = 1) /\ wflags n = 2 else bflags n = 2 /\ wflags n = 0) /\ block_ok (block bin n) (length_ n) cs.

Definition owns bin h R a cs : Prop := wf h (a :: R) /\ a ∉ statics_refs ++ R /\ exists n, h !! a = Some n /\ fresh_sd bin n cs.

Lemma fresh_sd_ok bin n cs a : a <> s_null -> fresh_sd bin n cs -> sd_ok a n (bin, cs).
Proof.
  intros Ha (H1 & H2 & H3 & H4 & H5 & H6). destruct bin; destruct H5 as [F G]; split; cbn [fst snd]; try done; try (by right); unfold b_ok, w_ok; rewrite ?F, ?G; try done.
  - by destruct F as [-> | ->].
  - destruct F as [-> | ->]; split_and!; auto; by intros [? _].
  - split_and!; auto. by intros [_ ?].
Qed.

Lemma owns_holds bin h R a cs : owns bin h R a cs -> holds h a (bin, cs).
Proof.
  intros (_ & Ha & n & Hn & Hf). exists n. split; [done|]. apply fresh_sd_ok; [|done].
  intros ->. apply Ha, elem_of_app. left. by left.
Qed.

Lemma fresh_refcnt bin n cs : fresh_sd bin n cs -> refcnt n = 0.
Proof. by intros []. Qed.

(** [allocAscii], [allocBinary] and [allocWide]. *)
Definition alloc_ bin (fl : Z) (g1 g2 : Z) (len : Z) :=
  if bin then (if fl =? 0 then allocAscii g1 len else allocBinary g1 len) else allocWide g2 len.

Lemma alloc_ok_ bin fl g1 g2 h R len : wf h R -> 0 <= len < 2 ^ 60 -> Z.of_nat (S (length R)) < 2 ^ 60 ->
  exists h' a cs, alloc_ bin fl g1 g2 len h = Ret (a, h') /\ owns bin h' R a cs /\ length cs = Z.to_nat len /\ frame h h' R /\
    (forall b, b <> a -> h' !! b = h !! b).
Proof.
  intros Hwf Hlen Hl. destruct (str_new_block_ok bin g1 g2 len Hlen) as (k & cs & Ek & Hcs & Hk).
  assert (exists n, alloc_ bin fl g1 g2 len h = new_sd n h /\ fresh_sd bin n cs) as (n & E & Hf).
  { unfold alloc_, allocAscii, allocBinary, allocWide. destruct bin; cbn [allocDg] in Ek; [destruct (fl =? 0)|]; unfold mbind at 1, act_bind at 1;
      rewrite Ek; cbn [lift]; (eexists; split; [reflexivity|]); unfold fresh_sd; cbn [refcnt hash length_ bflags wflags block bytes wide];
      (split_and!; (lia || done || by right || by left)). }
  destruct (new_sd_ok h R n (bin, cs) Hwf) as (a & En & Ha & Hwf' & Hfr & HaR & _); [intros; by apply fresh_sd_ok|by apply (fresh_refcnt bin n cs)|done|].
  exists (<[a := n]> h), a, cs. rewrite E, En. split_and!; try done; [split_and!; [done|done|]|intros b Hb; by apply lookup_insert_ne].
  exists n. by rewrite lookup_insert_eq.
Qed.

(** Storing characters in a new block. *)
Lemma str_fill_ok bin h R a cs (off : nat) l : owns bin h R a cs -> (off + length l <= length cs)%nat ->
  exists h', store_ bin a (Z.of_nat off) l h = Ret (tt, h') /\ owns bin h' R a (take off cs ++ l ++ drop (off + length l) cs) /\ frame h h' R /\
    (forall b, b <> a -> h' !! b = h !! b).
Proof.
  intros (Hwf & HaR & n & Hn & H1 & H2 & H3 & H4 & H5 & k & Hk & S & L & T) Hl.
  set (cs' := take off cs ++ l ++ drop (off + length l) cs). assert (length cs' = length cs) as Hlc.
  { unfold cs'. rewrite !length_app, length_take, length_drop. lia. }
  set (m := take off (buf k) ++ l ++ drop (off + length l) (buf k)). set (k' := mk_blk (bsize k) m).
  assert (length m = length (buf k)) as Hm by (unfold m; rewrite !length_app, length_take, length_drop; lia).
  set (n' := if bin then b_init n (Some k') (bflags n) else w_init n (Some k') (wflags n * 4)).
  assert (fresh_sd bin n' cs') as Hf'.
  { unfold fresh_sd. rewrite Hlc. unfold n'. destruct bin; cbn [refcnt hash length_ bflags wflags block bytes wide b_init w_init]; split_and!; try done; try apply H5.
    - exists k'. split_and!; try done; [cbn [k' buf]; lia|]. rewrite Hlc. by apply take_store.
    - destruct H5 as [_ ->]. done.
    - exists k'. split_and!; try done; [cbn [k' buf]; lia|]. rewrite Hlc. by apply take_store. }
  assert (a ∉ statics_refs) as Hst by (intros Ha; apply HaR, elem_of_app; by left).
  exists (<[a := n']> h). split_and!.
  - unfold store_, b_store, w_store, n', block in *. destruct bin; unfold mbind at 1, act_bind at 1; rewrite (sd_eq _ _ _ Hn), Hk;
      unfold mbind at 1, act_bind at 1; cbn [the mbind res_bind]; unfold blk_store;
      rewrite block_store by lia; cbn [mbind res_bind lift]; by rewrite (mod_sd_eq _ _ _ _ Hn).
  - split_and!; [|done|exists n'; by rewrite lookup_insert_eq].
    eapply (wf_set h (a :: R) a n n'); [done|done|by apply (fresh_sd_ok bin); [intros ->; apply Hst; by left|]|by unfold n'; destruct bin|done].
  - intros b v Hb (x & Hx & Hv). exists x. rewrite lookup_insert_ne; [done|]. by intros ->.
  - intros b Hb. by apply lookup_insert_ne.
Qed.

(** Dropping a reference to another block. *)
Lemma owns_unref bin h R a d cs : owns bin h (d :: R) a cs ->
  exists h', unref d h = Ret (tt, h') /\ owns bin h' R a cs /\ frame h h' R.
Proof.
  intros (Hwf & HaR & n & Hn & Hf). assert (a <> d) as Had by (intros ->; apply HaR, elem_of_app; right; by left).
  apply (str_wf_perm h (a :: d :: R) (d :: a :: R)) in Hwf; [|constructor].
  destruct (str_unref_ok h (a :: R) d Hwf) as (h' & E & Hwf' & Hfr & Hlk). exists h'. split_and!; [done| |by apply frame_cons in Hfr].
  split_and!; [done| |exists n; by rewrite Hlk]. intros Ha. apply HaR. apply elem_of_app in Ha as [Ha|Ha]; apply elem_of_app; [by left|right; by right].
Qed.

Lemma in_refs d R : d ∈ statics_refs ++ d :: R.
Proof. apply elem_of_app. right. by left. Qed.
#[export] Hint Resolve in_refs : dr.

(** A new block that begins with the characters of [d], which is given up. *)
Definition addSpace bin g1 g2 (d : addr) (add : Z) := if bin then addAsciiSpace g1 d add else addWideSpace g2 d add.

Lemma update_if bin g1 g2 h d n : h !! d = Some n -> (if valid bin n then mret tt else update_ bin g1 g2 d) h = update_ bin g1 g2 d h.
Proof.
  intros Hn. destruct (valid bin n) eqn:E; [|done]. unfold update_, updateByte, updateWide.
  destruct bin; unfold valid in E; unfold mbind, act_bind; by rewrite (sd_eq _ _ _ Hn), E.
Qed.

(** The common part of the four functions that move the characters to a new block. *)
Definition move bin g1 g2 (d : addr) (newlen keep : Z) : act heap addr :=
  _ ← update_ bin g1 g2 d;
  out ← alloc_ bin 0 g1 g2 newlen;
  l ← load_ bin d 0 keep; _ ← store_ bin out 0 l;
  _ ← unref d; mret out.

Lemma move_ok bin g1 g2 h R d v newlen : wf h (d :: R) -> holds h d v -> convertible bin v -> Z.of_nat (length v.2) <= newlen < 2 ^ 60 ->
  Z.of_nat (S (S (length R))) < 2 ^ 60 ->
  exists h' out cs, move bin g1 g2 d newlen (Z.of_nat (length v.2)) h = Ret (out, h') /\ owns bin h' R out (v.2 ++ cs) /\
    Z.of_nat (length cs) = newlen - Z.of_nat (length v.2) /\ frame h h' R.
Proof.
  intros Hwf Hd Hc Hn Hl. destruct (update_ok_ bin g1 g2 h (d :: R) d v Hwf (in_refs d R) Hd Hc) as (h1 & n & E1 & W1 & F1 & Hn1 & Hv & Hval & _).
  destruct (alloc_ok_ bin 0 g1 g2 h1 (d :: R) newlen W1) as (h2 & a & g & E2 & O2 & Hg & F2 & Hlk); [lia|simpl; lia|].
  assert (d <> a) as Hda by (intros ->; destruct O2 as (_ & O2 & _); apply O2, in_refs).
  pose proof (load_ok_ bin h2 d n v ltac:(by rewrite Hlk) Hv Hval) as E3. rewrite (sd_length _ _ _ Hv) in E3.
  destruct (str_fill_ok bin h2 (d :: R) a g 0 v.2 O2) as (h3 & E4 & O3 & F3 & _); [lia|]. destruct (owns_unref bin h3 R a d _ O3) as (h4 & E5 & O4 & F4).
  rewrite take_0 in O4. cbn [app plus] in O4.
  exists h4, a, (drop (length v.2) g). split_and!; [|done|rewrite length_drop; lia|].
  - unfold move, mbind, act_bind. rewrite E1, E2, E3. change 0 with (Z.of_nat 0) at 1. by rewrite E4, E5.
  - apply frame_cons in F1, F2, F3. eauto using frame_trans.
Qed.

Lemma addSpace_move bin g1 g2 h d n add : h !! d = Some n ->
  addSpace bin g1 g2 d add h = move bin g1 g2 d (u64 (length_ n + add)) (length_ n) h.
Proof.
  intros Hn. unfold addSpace, addAsciiSpace, addWideSpace, move, mbind, act_bind.
  destruct bin; rewrite (sd_eq _ _ _ Hn); [pose proof (update_if true g1 g2 h d n Hn) as E|pose proof (update_if false g1 g2 h d n Hn) as E];
    cbn [valid] in E; unfold update_ in E; by rewrite E.
Qed.

Lemma addSpace_ok bin g1 g2 h R d v add : wf h (d :: R) -> holds h d v -> convertible bin v -> 0 <= add ->
  Z.of_nat (length v.2) + add < 2 ^ 60 -> Z.of_nat (S (S (length R))) < 2 ^ 60 ->
  exists h' out cs, addSpace bin g1 g2 d add h = Ret (out, h') /\ owns bin h' R out (v.2 ++ cs) /\ length cs = Z.to_nat add /\ frame h h' R.
Proof.
  intros Hwf Hd Hc Ha Hn Hl. pose proof Hd as (n & Hn1 & Hv). pose proof (sd_length _ _ _ Hv) as L.
  destruct (move_ok bin g1 g2 h R d v (Z.of_nat (length v.2) + add) Hwf Hd Hc) as (h' & out & cs & E & O & Hcs & F); [lia|done|].
  exists h', out, cs. split_and!; [|done|lia|done]. rewrite (addSpace_move _ _ _ _ _ n) by done. rewrite L.
  by rewrite (uwrap_id 64) by (unfold in_u; lia).
Qed.
