(* ===== verification/StrDataValues.v ===== *)
(** * Values of StrData

    Appending, reading, hashing and comparing: the results are those of the
    operations on lists of characters, whatever blocks the operands have. *)

From S2P Require Import Prelude Machine CString Heap StrData StrDataRefs StrDataOps.

#[local] Abbreviation heap := (gmap addr strdata).
Implicit Types (h : heap) (R : list addr) (a d : addr) (n : strdata) (l cs : list Z) (bin : bool) (v w : content).

(** ** Appending characters *)

Lemma sd_cases a n v : sd_ok a n v ->
  kind_of (getFlags n) = (if b_ok n then C_Bin else C_Wide) /\ (b_ok n = false -> v.1 = false /\ w_ok n = true).
Proof.
  intros Hv. pose proof (valid_some true a n v Hv) as Hw. destruct Hv as [_ _ _ _ K (F & G & D) _]. split.
  - unfold b_ok, getFlags, kind_of. destruct F as [F|[F|F]], G as [G|G]; rewrite F, G; try done. by destruct D.
  - intros E. split; [|by apply Hw]. destruct (v.1); [congruence|done].
Qed.

(** What appending bytes [bs], or the wide characters [ws] made of them, gives. *)
Definition appendable v bs ws : Prop := v.1 = true \/ (Forall ascii bs /\ ws = bs).

Lemma holds_cs h a v cs : holds h a (true, cs) -> v.1 = true \/ Forall ascii cs -> holds h a (v.1, cs).
Proof. intros Hh [->|Ha]; [done|]. destruct (v.1); [done|]. by apply (weaken_holds h a (true, cs)). Qed.

Lemma b_ok_ascii a n v : sd_ok a n v -> b_ok n = true -> v.1 = true \/ Forall ascii v.2.
Proof. intros [_ _ _ _ K _ _] E. destruct (v.1); [by left|right; auto]. Qed.

(** Room is made and filled. *)
Lemma addSpace_fill bin g1 g2 h R d v l : wf h (d :: R) -> holds h d v -> convertible bin v ->
  Z.of_nat (length v.2) + Z.of_nat (length l) < 2 ^ 60 -> Z.of_nat (S (S (length R))) < 2 ^ 60 ->
  exists h' out, (out ← addSpace bin g1 g2 d (Z.of_nat (length l)); _ ← store_ bin out (Z.of_nat (length v.2)) l; mret out) h = Ret (out, h') /\
    owns bin h' R out (v.2 ++ l) /\ frame h h' R.
Proof.
  intros Hwf Hd Hc Hl Hn. destruct (addSpace_ok bin g1 g2 h R d v (Z.of_nat (length l)) Hwf Hd Hc) as (h1 & out & cs & E & O & Hcs & F); [lia|done|done|].
  destruct (str_fill_ok bin h1 R out _ (length v.2) l O) as (h2 & E2 & O2 & F2 & _); [rewrite length_app; lia|].
  rewrite take_app_length, drop_ge in O2 by (rewrite length_app; lia). rewrite app_nil_r in O2.
  exists h2, out. unfold mbind, act_bind. rewrite E, E2. split_and!; [done|done|]. eauto using frame_trans.
Qed.

Lemma append_chars_ok g1 g2 h R d v bs ws : wf h (d :: R) -> holds h d v -> appendable v bs ws -> length ws = length bs ->
  Z.of_nat (length v.2) + Z.of_nat (length bs) < 2 ^ 60 -> Z.of_nat (S (S (length R))) < 2 ^ 60 ->
  exists h' out, append_chars g1 g2 d (Z.of_nat (length bs)) bs ws h = Ret (out, h') /\ wf h' (out :: R) /\ out ∉ statics_refs ++ R /\
    holds h' out (v.1, v.2 ++ bs) /\ frame h h' R.
Proof.
  intros Hwf Hd Ha Hlw Hl Hn. pose proof Hd as (n & Hn1 & Hv). pose proof (sd_length _ _ _ Hv) as L.
  destruct (sd_cases d n v Hv) as [Hk Hb]. unfold append_chars. unfold mbind at 1, act_bind at 1. rewrite (sd_eq _ _ _ Hn1), Hk, L.
  destruct (b_ok n) eqn:E.
  - destruct (b_ok_ascii _ _ _ Hv E) as [Hc|Hc].
    1,2: destruct (addSpace_fill true g1 g2 h R d v bs Hwf Hd) as (h' & out & E1 & O & F); [by (left + right)|done|done|];
      exists h', out; split_and!; [exact E1|apply O|apply O| |done]; apply owns_holds in O; apply holds_cs; [done|].
    + by left.
    + destruct Ha as [Ha|[Ha _]]; [by left|right]. by apply Forall_app.
  - destruct (Hb eq_refl) as [Hv1 Hw]. destruct Ha as [Ha|[Ha ->]]; [congruence|].
    destruct (addSpace_fill false g1 g2 h R d v bs Hwf Hd) as (h' & out & E1 & O & F); [by left|done|done|].
    exists h', out. split_and!; [exact E1|apply O|apply O| |done]. rewrite Hv1. by apply owns_holds in O.
Qed.

Lemma to_char_ascii cs : Forall ascii cs -> map to_char cs = cs.
Proof. unfold ascii. induction 1 as [|c cs Hc _ IH]; [done|]. simpl. rewrite IH. unfold to_char. by rewrite (swrap_id 8) by (done || (unfold in_s; lia)). Qed.

(** A value whose characters stay bytes, or stay text, when [cs] is appended as bytes. *)
Definition accepts v cs : Prop := v.1 = true \/ Forall ascii cs.

Lemma appendAscii_ok g1 g2 h R d v cs : wf h (d :: R) -> holds h d v -> accepts v cs ->
  Z.of_nat (length v.2) + Z.of_nat (length cs) < 2 ^ 60 -> Z.of_nat (S (S (length R))) < 2 ^ 60 ->
  exists h' out, appendAscii g1 g2 d cs h = Ret (out, h') /\ wf h' (out :: R) /\ out ∉ statics_refs ++ R /\ holds h' out (v.1, v.2 ++ cs) /\ frame h h' R.
Proof.
  intros Hwf Hd Ha Hl Hn. apply append_chars_ok; try done; [|by rewrite length_map].
  destruct Ha as [Ha|Ha]; [by left|right]. split; [done|by apply to_char_ascii].
Qed.

Lemma appendAsciiReverse_ok g1 g2 h R d v cs : wf h (d :: R) -> holds h d v -> accepts v cs ->
  Z.of_nat (length v.2) + Z.of_nat (length cs) < 2 ^ 60 -> Z.of_nat (S (S (length R))) < 2 ^ 60 ->
  exists h' out, appendAsciiReverse g1 g2 d cs h = Ret (out, h') /\ wf h' (out :: R) /\ out ∉ statics_refs ++ R /\ holds h' out (v.1, v.2 ++ rev cs) /\ frame h h' R.
Proof.
  intros Hwf Hd Ha Hl Hn. unfold appendAsciiReverse. rewrite <- (length_rev cs) in *. apply append_chars_ok; try done; [|by rewrite length_map].
  destruct Ha as [Ha|Ha]; [by left|right]. apply Forall_rev in Ha. split; [done|by apply to_char_ascii].
Qed.

Lemma appendAsciiChars_ok g1 g2 h R d v c (k : nat) : wf h (d :: R) -> holds h d v -> byte_ok c -> accepts v [c] ->
  Z.of_nat (length v.2) + Z.of_nat k < 2 ^ 60 -> Z.of_nat (S (S (length R))) < 2 ^ 60 ->
  exists h' out, appendAsciiChars g1 g2 d c (Z.of_nat k) h = Ret (out, h') /\ wf h' (out :: R) /\ out ∉ statics_refs ++ R /\
    holds h' out (v.1, v.2 ++ repeat c k) /\ frame h h' R.
Proof.
  intros Hwf Hd Hc Ha Hl Hn. unfold appendAsciiChars. rewrite Nat2Z.id. rewrite (uwrap_id 8 c) by done.
  replace (Z.of_nat k) with (Z.of_nat (length (repeat c k))) by (by rewrite repeat_length). apply append_chars_ok; try done; rewrite ?repeat_length; try done.
  destruct Ha as [Ha|Ha]; [by left|right]. apply list.Forall_cons in Ha as [Ha _]. split; [by apply Forall_repeat|].
  unfold to_char, ascii in *. by rewrite (swrap_id 8) by (done || (unfold in_s; lia)).
Qed.

(** Wide characters make text of a text. *)
Lemma appendWide_ok g2 h R d v cs : wf h (d :: R) -> holds h d v -> convertible false v ->
  Z.of_nat (length v.2) + Z.of_nat (length cs) < 2 ^ 60 -> Z.of_nat (S (S (length R))) < 2 ^ 60 ->
  exists h' out, appendWide g2 d cs h = Ret (out, h') /\ wf h' (out :: R) /\ out ∉ statics_refs ++ R /\ holds h' out (false, v.2 ++ cs) /\ frame h h' R.
Proof.
  intros Hwf Hd Hc Hl Hn. pose proof Hd as (n & Hn1 & Hv). pose proof (sd_length _ _ _ Hv) as L.
  destruct (addSpace_fill false 0 g2 h R d v cs Hwf Hd Hc Hl Hn) as (h' & out & E & O & F). exists h', out.
  unfold appendWide. unfold mbind at 1, act_bind at 1. rewrite (sd_eq _ _ _ Hn1), L.
  split_and!; [exact E|apply O|apply O|by apply owns_holds in O|done].
Qed.

Lemma appendWideChars_ok g1 g2 h R d v c (k : nat) : wf h (d :: R) -> holds h d v -> convertible false v -> 0 <= c < 2 ^ 31 ->
  Z.of_nat (length v.2) + Z.of_nat k < 2 ^ 60 -> Z.of_nat (S (S (length R))) < 2 ^ 60 ->
  exists h' out, appendWideChars g1 g2 d c (Z.of_nat k) h = Ret (out, h') /\ wf h' (out :: R) /\ out ∉ statics_refs ++ R /\
    holds h' out (false, v.2 ++ repeat c k) /\ frame h h' R.
Proof.
  intros Hwf Hd Hc Hcc Hl Hn. pose proof Hd as (n & Hn1 & Hv). pose proof (sd_length _ _ _ Hv) as L.
  destruct (sd_cases d n v Hv) as [Hk Hb]. unfold appendWideChars. unfold mbind at 1, act_bind at 1.
  rewrite (sd_eq _ _ _ Hn1), Hk, L, Nat2Z.id.
  destruct (addSpace_fill false g1 g2 h R d v (repeat c k) Hwf Hd Hc) as (h' & out & E1 & O & F); [by rewrite repeat_length|done|].
  rewrite repeat_length in E1.
  assert (exists h' out, (out ← addSpace false g1 g2 d (Z.of_nat k); _ ← store_ false out (Z.of_nat (length v.2)) (repeat c k); mret out) h = Ret (out, h') /\ wf h' (out :: R) /\ out ∉ statics_refs ++ R /\
    holds h' out (false, v.2 ++ repeat c k) /\ frame h h' R) as Hwide.
  { exists h', out. split_and!; [exact E1|apply O|apply O|by apply owns_holds in O|done]. }
  destruct (b_ok n) eqn:E; [|exact Hwide]. destruct (Z.ltb_spec c 128); [|exact Hwide].
  rewrite (uwrap_id 8) by (unfold in_u; lia). clear h' out E1 O F Hwide.
  assert (Forall ascii v.2) as Ha.
  { destruct (b_ok_ascii _ _ _ Hv E) as [Hc'|]; [|done]. destruct Hc as [Hc|]; [congruence|done]. }
  destruct (addSpace_fill true g1 g2 h R d v (repeat c k) Hwf Hd) as (h' & out & E1 & O & F); [by right|by rewrite repeat_length|done|].
  rewrite repeat_length in E1. exists h', out. split_and!; [exact E1|apply O|apply O| |done]. apply owns_holds in O. apply (weaken_holds _ _ (true, _)); [done|].
  apply Forall_app. split; [done|]. apply Forall_repeat. unfold ascii. lia.
Qed.

(** ** Appending a string *)

Lemma flags_bits a n v : sd_ok a n v ->
  Z.land (getFlags n) Binv = (if b_ok n then 0 else Binv) /\ Z.land (getFlags n) Winv = (if w_ok n then 0 else Winv).
Proof.
  intros [_ _ _ _ _ (F & G & _) _]. unfold b_ok, w_ok, getFlags. by destruct F as [F|[F|F]], G as [G|G]; rewrite F, G.
Qed.

Lemma flags_two a b n m v w : sd_ok a n v -> sd_ok b m w ->
  (Z.land (Z.lor (getFlags n) (getFlags m)) Binv =? 0) = b_ok n && b_ok m /\
  (Z.land (Z.lor (getFlags n) (getFlags m)) Winv =? 0) = w_ok n && w_ok m.
Proof.
  intros Hv Hw. rewrite !Z.land_lor_distr_l. destruct (flags_bits _ _ _ Hv) as [-> ->], (flags_bits _ _ _ Hw) as [-> ->].
  by destruct (b_ok n), (b_ok m), (w_ok n), (w_ok m).
Qed.

Definition is_text v : Prop := v.1 = false \/ Forall ascii v.2.
Definition joins v w (x : content) : Prop :=
  x.2 = v.2 ++ w.2 /\ (x.1 = true /\ v.1 = true /\ w.1 = true \/ x.1 = false /\ is_text v /\ is_text w).

Lemma text_holds h a v : holds h a v -> is_text v -> holds h a (false, v.2).
Proof. intros Hh [E|Ha]; [|by apply weaken_holds]. destruct v as [k cs]. simpl in *. by subst k. Qed.

Lemma join_two bin fl g1 g2 h R d s v w n m : wf h (d :: R) -> s ∈ statics_refs ++ d :: R ->
  h !! d = Some n -> sd_ok d n v -> h !! s = Some m -> sd_ok s m w -> valid bin n = true -> valid bin m = true ->
  Z.of_nat (length v.2) + Z.of_nat (length w.2) < 2 ^ 60 -> Z.of_nat (S (S (length R))) < 2 ^ 60 ->
  exists h' out, (out ← alloc_ bin fl g1 g2 (u64 (length_ n + length_ m));
      l ← load_ bin d 0 (length_ n); _ ← store_ bin out 0 l;
      l ← load_ bin s 0 (length_ m); _ ← store_ bin out (length_ n) l;
      _ ← unref d; mret out) h = Ret (out, h') /\ owns bin h' R out (v.2 ++ w.2) /\ frame h h' R.
Proof.
  intros Hwf Hs Hn Hv Hm Hw Bn Bm Hl Hr. pose proof (sd_length _ _ _ Hv) as L. pose proof (sd_length _ _ _ Hw) as L'.
  destruct (alloc_ok_ bin fl g1 g2 h (d :: R) (length_ n + length_ m) Hwf) as (h1 & a & g & E1 & O1 & Hg & F1 & K1); [lia|simpl; lia|].
  assert (forall b, b ∈ statics_refs ++ d :: R -> b <> a) as Hne by (intros b Hb ->; by destruct O1 as (_ & O1 & _)).
  destruct (str_fill_ok bin h1 (d :: R) a g 0 v.2 O1) as (h2 & E2 & O2 & F2 & K2); [lia|].
  rewrite take_0 in O2. cbn [app plus] in O2.
  destruct (str_fill_ok bin h2 (d :: R) a _ (length v.2) w.2 O2) as (h3 & E3 & O3 & F3 & _); [rewrite length_app, length_drop; lia|].
  rewrite take_app_length, drop_ge, app_nil_r in O3 by (rewrite length_app, length_drop; lia).
  destruct (owns_unref bin h3 R a d _ O3) as (h4 & E4 & O4 & F4). exists h4, a. split_and!; [|done|].
  - unfold mbind, act_bind. rewrite (uwrap_id 64) by (unfold in_u; lia). rewrite E1.
    rewrite (load_ok_ bin h1 d n v) by (done || (rewrite K1; [done|by apply Hne, in_refs])). change 0 with (Z.of_nat 0) at 1. rewrite E2.
    rewrite (load_ok_ bin h2 s m w) by (done || (rewrite K2, K1; [done|by apply Hne..])). rewrite L, E3. by rewrite E4.
  - apply frame_cons in F1, F2, F3. eauto using frame_trans.
Qed.

(** One round of [append] on two wide strings that are not both bytes. *)
Lemma append_wide k g1 g2 h R d s v w n m : wf h (d :: R) -> s ∈ statics_refs ++ d :: R ->
  h !! d = Some n -> sd_ok d n v -> h !! s = Some m -> sd_ok s m w -> w_ok n = true -> w_ok m = true -> b_ok n && b_ok m = false ->
  Z.of_nat (length v.2) + Z.of_nat (length w.2) < 2 ^ 60 -> Z.of_nat (S (S (length R))) < 2 ^ 60 ->
  exists h' out, append_retry g1 g2 (S k) d s h = Ret (out, h') /\ wf h' (out :: R) /\ holds h' out (false, v.2 ++ w.2) /\ frame h h' R.
Proof.
  intros Hwf Hs Hn Hv Hm Hw Wn Wm Eb Hl Hr. destruct (join_two false 0 g1 g2 h R d s v w n m) as (h' & out & E & O & F); try done.
  exists h', out. split_and!; [|apply O|by apply owns_holds in O|done].
  cbn [append_retry]. unfold mbind at 1, act_bind at 1. rewrite (sd_eq _ _ _ Hn). unfold mbind at 1, act_bind at 1. rewrite (sd_eq _ _ _ Hm). cbv zeta.
  destruct (flags_two _ _ _ _ _ _ Hv Hw) as [-> ->]. rewrite Eb, Wn, Wm. exact E.
Qed.

Lemma append_text g1 g2 h R d s v w n m : wf h (d :: R) -> s ∈ statics_refs ++ d :: R ->
  h !! d = Some n -> sd_ok d n v -> h !! s = Some m -> sd_ok s m w -> is_text v -> is_text w -> b_ok n && b_ok m = false ->
  Z.of_nat (length v.2) + Z.of_nat (length w.2) < 2 ^ 60 -> Z.of_nat (S (S (length R))) < 2 ^ 60 ->
  exists h' out, append_retry g1 g2 2 d s h = Ret (out, h') /\ wf h' (out :: R) /\ holds h' out (false, v.2 ++ w.2) /\ frame h h' R.
Proof.
  intros Hwf Hs Hn Hv Hm Hw Tv Tw Eb Hl Hr.
  destruct (w_ok n && w_ok m) eqn:Ew.
  { apply andb_prop in Ew as [Wn Wm]. by apply (append_wide 1 g1 g2 h R d s v w n m). }
  cbn [append_retry]. unfold mbind at 1, act_bind at 1. rewrite (sd_eq _ _ _ Hn). unfold mbind at 1, act_bind at 1. rewrite (sd_eq _ _ _ Hm). cbv zeta.
  destruct (flags_two _ _ _ _ _ _ Hv Hw) as [-> ->]. destruct (flags_bits _ _ _ Hv) as [_ ->], (flags_bits _ _ _ Hw) as [_ ->]. rewrite Eb, Ew.
  pose proof (valid_some false _ _ _ Hv) as Bn. pose proof (valid_some false _ _ _ Hw) as Bm. cbn [valid negb] in Bn, Bm.
  assert (s <> d) as Hsd by (intros ->; assert (n = m) by congruence; subst m; clear Bm; revert Eb Ew Bn; destruct (b_ok n), (w_ok n); simpl; intros; intuition congruence).
  destruct (w_ok n) eqn:En.
  - simpl in Ew. rewrite Ew in *. rewrite (Bm eq_refl), andb_true_r in Eb.
    destruct (update_ok_ false g1 g2 h (d :: R) s w Hwf Hs) as (h1 & m1 & E1 & W1 & F1 & Hm1 & Hw1 & Hval & K1 & _); [by exists m|done|].
    destruct (append_wide 0 g1 g2 h1 R d s v w n m1) as (h' & out & E & H1 & H2 & H3); try done; [by rewrite K1|by rewrite Eb|].
    exists h', out. split_and!; [|done|done|apply frame_cons in F1; eauto using frame_trans].
    change (negb (Winv =? 0)) with true. change (negb (0 =? 0)) with false. cbv iota. cbn [update_] in E1.
    unfold mbind at 1, act_bind at 1, mret at 1, act_ret at 1. unfold mbind at 1, act_bind at 1. rewrite E1. exact E.
  - specialize (Bn eq_refl). rewrite Bn in Eb. simpl in Eb. destruct (w_ok m) eqn:Em; [|by rewrite Bm in Eb].
    destruct (update_ok_ false g1 g2 h (d :: R) d v Hwf (in_refs d R)) as (h1 & n1 & E1 & W1 & F1 & Hn1 & Hv1 & Hval & K1 & _); [by exists n|done|].
    destruct (append_wide 0 g1 g2 h1 R d s v w n1 m) as (h' & out & E & H1 & H2 & H3); try done; [by rewrite K1|by rewrite Eb, andb_false_r|].
    exists h', out. split_and!; [|done|done|apply frame_cons in F1; eauto using frame_trans].
    change (negb (Winv =? 0)) with true. change (negb (0 =? 0)) with false. cbv iota. cbn [update_] in E1.
    unfold mbind at 1, act_bind at 1. rewrite E1. exact E.
Qed.

Lemma append_bytes k g1 g2 h R d s v w x n m : wf h (d :: R) -> s ∈ statics_refs ++ d :: R ->
  h !! d = Some n -> sd_ok d n v -> h !! s = Some m -> sd_ok s m w -> joins v w x -> b_ok n && b_ok m = true ->
  Z.of_nat (length v.2) + Z.of_nat (length w.2) < 2 ^ 60 -> Z.of_nat (S (S (length R))) < 2 ^ 60 ->
  exists h' out, append_retry g1 g2 (S k) d s h = Ret (out, h') /\ wf h' (out :: R) /\ holds h' out x /\ frame h h' R.
Proof.
  intros Hwf Hs Hn Hv Hm Hw Hx Eb Hl Hr. pose proof Eb as [Bn Bm]%andb_prop.
  destruct (join_two true 1 g1 g2 h R d s v w n m) as (h' & out & E & O & F); try done.
  exists h', out. split_and!; [|apply O| |done].
  - cbn [append_retry]. unfold mbind at 1, act_bind at 1. rewrite (sd_eq _ _ _ Hn). unfold mbind at 1, act_bind at 1. rewrite (sd_eq _ _ _ Hm). cbv zeta.
    destruct (flags_two _ _ _ _ _ _ Hv Hw) as [-> _]. rewrite Eb. exact E.
  - apply owns_holds in O. destruct x as [kx cs], Hx as [Ecs Hk]. simpl in Ecs, Hk. subst cs.
    destruct Hk as [(-> & _)|(-> & T1 & T2)]; [done|]. apply (weaken_holds h' out (true, _)); [done|]. apply Forall_app.
    split; [destruct T1 as [T|]; [destruct (b_ok_ascii _ _ _ Hv Bn) as [T'|]; [congruence|done]|done]|].
    destruct T2 as [T|]; [destruct (b_ok_ascii _ _ _ Hw Bm) as [T'|]; [congruence|done]|done].
Qed.

Lemma str_append_ok g1 g2 h R d s v w x : wf h (d :: R) -> s ∈ statics_refs ++ d :: R -> holds h d v -> holds h s w -> joins v w x ->
  Z.of_nat (length v.2) + Z.of_nat (length w.2) < 2 ^ 60 -> Z.of_nat (S (S (length R))) < 2 ^ 60 ->
  exists h' out, append g1 g2 d s h = Ret (out, h') /\ wf h' (out :: R) /\ holds h' out x /\ frame h h' R.
Proof.
  intros Hwf Hs Hd Hh Hx Hl Hr. pose proof Hd as (n & Hn & Hv). pose proof Hh as (m & Hm & Hw).
  pose proof (sd_length _ _ _ Hv) as L. pose proof (sd_length _ _ _ Hw) as L'. pose proof Hx as [Ecs Hk].
  unfold append. unfold mbind at 1, act_bind at 1. rewrite (sd_eq _ _ _ Hm). destruct (Z.leb_spec (length_ m) 0) as [Hz|Hz].
  { exists h, d. assert (w.2 = []) as Ew by (apply length_zero_iff_nil; lia). rewrite Ew, app_nil_r in Ecs. split_and!; [done|done| |apply frame_refl].
    destruct x as [k cs], v as [kv cv]. simpl in *. subst cs. destruct Hk as [(-> & -> & _)|(-> & Ht & _)]; [done|]. by apply (text_holds h d (kv, cv)). }
  unfold mbind at 1, act_bind at 1. rewrite (sd_eq _ _ _ Hn). destruct (Z.leb_spec (length_ n) 0) as [Hz'|Hz'].
  { assert (v.2 = []) as Ev by (apply length_zero_iff_nil; lia). rewrite Ev in Ecs. cbn [app] in Ecs.
    destruct (ref_ok h (d :: R) s Hwf Hs) as (h1 & E1 & W1 & F1); [simpl; lia|]. apply (str_wf_perm _ _ (d :: s :: R)) in W1; [|constructor].
    destruct (str_unref_ok h1 (s :: R) d W1) as (h2 & E2 & W2 & F2 & _). exists h2, s. unfold mbind, act_bind. rewrite E1, E2. split_and!; [done|done| |].
    - apply F2; [apply in_refs|]. apply F1; [apply in_refs|]. destruct x as [k cs], w as [kw cw]. simpl in *. subst cs.
      destruct Hk as [(-> & _ & ->)|(-> & _ & Ht)]; [done|]. by apply (text_holds h s (kw, cw)).
    - apply frame_cons in F1. apply frame_cons in F1. apply frame_cons in F2. eauto using frame_trans. }
  destruct (b_ok n && b_ok m) eqn:Eb; [by apply (append_bytes 1 g1 g2 h R d s v w x n m)|].
  destruct x as [k cs]. simpl in Ecs, Hk. subst cs. destruct Hk as [(_ & E1 & E2)|(-> & Tv & Tw)]; [|by apply (append_text g1 g2 h R d s v w n m)].
  pose proof (valid_bin n v d Hv E1) as B1. pose proof (valid_bin m w s Hw E2) as B2. cbn [valid] in B1, B2. by rewrite B1, B2 in Eb.
Qed.

(** ** Reading *)

Lemma b_load_ok h d n v : h !! d = Some n -> sd_ok d n v -> b_ok n = true -> b_load d 0 (length_ n) h = Ret (v.2, h).
Proof. apply (load_ok_ true). Qed.

Lemma w_load_ok h d n v : h !! d = Some n -> sd_ok d n v -> w_ok n = true -> w_load d 0 (length_ n) h = Ret (v.2, h).
Proof. apply (load_ok_ false). Qed.

Lemma updateByte_eq g h d n : h !! d = Some n -> b_ok n = false ->
  updateByte g d h = match b_of_wide g n with Ret nb => mod_sd d (fun n => b_init n (Some nb) 0) h | Exn e => Exn e | Crash c => Crash c | NoFuel => NoFuel end.
Proof.
  intros Hn E. unfold updateByte. unfold mbind, act_bind. rewrite (sd_eq _ _ _ Hn), E. unfold lift. by destruct (b_of_wide g n).
Qed.

Lemma refByte_ok g h R d v : wf h R -> d ∈ statics_refs ++ R -> holds h d v -> convertible true v ->
  exists h', refByte g d h = Ret (v.2, h') /\ wf h' R /\ frame h h' R.
Proof.
  intros Hwf Hd (n & Hn & Hv) Hc. pose proof (sd_length _ _ _ Hv) as L.
  assert (forall k, block_ok (Some k) (length_ n) v.2 -> mem_range (buf k) 0 (bsize k) = Ret v.2) as Hread.
  { intros k (x & [= <-] & S & Lk & T). rewrite S. by apply block_read. }
  unfold refByte. unfold mbind at 1, act_bind at 1. rewrite (sd_eq _ _ _ Hn). destruct (b_ok n) eqn:E.
  - exists h. split_and!; [|done|apply frame_refl]. destruct (sd_block true d n v Hv E) as (k & Hk & S & Lk & T). cbn [block] in Hk. rewrite Hk.
    cbn [the mbind res_bind]. rewrite Hread; [done|]. by exists k.
  - destruct (update_ok_ true g 0 h R d v Hwf Hd) as (h1 & n1 & E1 & W1 & F1 & Hn1 & Hv1 & Hval & _ & _); [by exists n|done|].
    exists h1. split_and!; [|done|done]. cbn [update_] in E1. rewrite (updateByte_eq _ _ _ _ Hn E) in E1.
    destruct (b_of_wide g n) as [nb| | |] eqn:Eb; try done. unfold mbind, act_bind. cbn [lift]. rewrite E1. cbn [lift].
    rewrite (mod_sd_eq _ _ _ _ Hn) in E1. injection E1 as <-. rewrite lookup_insert_eq in Hn1. injection Hn1 as <-.
    pose proof (sd_block true d _ v Hv1 Hval) as Hb. cbn [block b_init bytes length_] in Hb. by rewrite (Hread nb Hb).
Qed.

(** ** Hashes *)

Lemma str_hash_value_nonneg l : 0 <= hash_value l.
Proof. unfold hash_value. apply Z.land_nonneg. by right. Qed.

Lemma hash_of_nonneg a cs : 0 <= hash_of a cs.
Proof. unfold hash_of. case_decide; [done|apply str_hash_value_nonneg]. Qed.

Lemma keeps_hash a n cs v : a <> s_null -> sd_ok a n v -> cs = v.2 -> keeps a n (with_hash n (hash_value cs)).
Proof.
  intros Ha Hv -> w Hw. rewrite (sd_ok_inj _ _ _ _ Hv Hw). destruct Hw as [H1 H2 H3 H4 H5 H6 H7]. split; try done.
  left. unfold hash_of. by rewrite decide_False.
Qed.

Lemma updateHash_ok h R d n v : wf h R -> h !! d = Some n -> sd_ok d n v -> d <> s_null ->
  exists h', updateHash d h = Ret (hash_of d v.2, h') /\ wf h' R /\ frame h h' R /\ h' !! d = Some (with_hash n (hash_of d v.2)) /\
    (forall b, b <> d -> h' !! b = h !! b).
Proof.
  intros Hwf Hn Hv Hd. destruct (wf_keep h R d n (with_hash n (hash_value v.2)) Hwf Hn) as [W F]; [by eapply keeps_hash|done|].
  assert (hash_of d v.2 = hash_value v.2) as Eh by (unfold hash_of; by rewrite decide_False). rewrite Eh.
  exists (<[d := with_hash n (hash_value v.2)]> h). split_and!; [|done|done|by rewrite lookup_insert_eq|intros b Hb; by apply lookup_insert_ne].
  destruct (sd_cases d n v Hv) as [Hk Hb]. unfold updateHash. unfold mbind at 1, act_bind at 1. rewrite (sd_eq _ _ _ Hn), Hk.
  destruct (b_ok n) eqn:E; unfold mbind, act_bind.
  - rewrite (b_load_ok h d n v) by done. unfold set_hash, mbind, act_bind. by rewrite (mod_sd_eq _ _ _ _ Hn).
  - destruct (Hb eq_refl) as [_ Hw]. rewrite (w_load_ok h d n v) by done. unfold set_hash, mbind, act_bind. by rewrite (mod_sd_eq _ _ _ _ Hn).
Qed.

(** The hash is known, or is made. *)
Lemma hash_cases d n v : sd_ok d n v -> hash n = hash_of d v.2 \/ hash n = -1 /\ d <> s_null.
Proof. by intros [_ _ _ _ _ _ H]. Qed.

Lemma str_getHash_ok h R d v : wf h R -> holds h d v ->
  exists h', getHash d h = Ret (hash_of d v.2, h') /\ wf h' R /\ frame h h' R.
Proof.
  intros Hwf (n & Hn & Hv). unfold getHash. unfold mbind at 1, act_bind at 1. rewrite (sd_eq _ _ _ Hn).
  destruct (hash_cases d n v Hv) as [E|[E Hd]]; rewrite E.
  - pose proof (hash_of_nonneg d v.2). destruct (Z.leb_spec 0 (hash_of d v.2)); [|lia]. exists h. split_and!; [done|done|apply frame_refl].
  - destruct (updateHash_ok h R d n v Hwf Hn Hv Hd) as (h' & E' & W & F & _). exists h'. split_and!; done.
Qed.

(** ** Equality *)

(** Two values that can be compared without a conversion that loses characters. *)
Definition comparable v w : Prop := v.1 = true /\ w.1 = true \/ is_text v /\ is_text w.

Lemma cmp_chars_eq l1 l2 : length l1 = length l2 -> (cmp_chars l1 l2 =? 0) = bool_decide (l1 = l2).
Proof.
  revert l2. induction l1 as [|a l1 IH]; intros [|b l2] Hl; try done. simpl. simpl in Hl. injection Hl as Hl.
  destruct (Z.ltb_spec a b); [by rewrite bool_decide_eq_false_2 by (injection; lia)|].
  destruct (Z.ltb_spec b a); [by rewrite bool_decide_eq_false_2 by (injection; lia)|]. assert (a = b) as -> by lia.
  rewrite IH by done. apply bool_decide_ext. split; [by intros ->|by intros [=]].
Qed.

Lemma flags_three a b n m v w : sd_ok a n v -> sd_ok b m w ->
  Z.land (Z.lor (getFlags n) (getFlags m)) (Binv + Winv) = (if b_ok n && b_ok m then 0 else Binv) + (if w_ok n && w_ok m then 0 else Winv).
Proof.
  intros [_ _ _ _ _ (F & G & _) _] [_ _ _ _ _ (F' & G' & _) _]. unfold b_ok, w_ok, getFlags.
  by destruct F as [F|[F|F]], G as [G|G], F' as [F'|[F'|F']], G' as [G'|G']; rewrite F, G, F', G'.
Qed.

Lemma compare_ok bin h d s n m v w : h !! d = Some n -> sd_ok d n v -> h !! s = Some m -> sd_ok s m w -> valid bin n = true -> valid bin m = true ->
  length_ n = length_ m ->
  (r ← (if bin then memcmp d s (length_ n) else wmemcmp d s (length_ n)); mret (r =? 0)) h = Ret (bool_decide (v.2 = w.2), h).
Proof.
  intros Hn Hv Hm Hw Bn Bm Hl. pose proof (sd_length _ _ _ Hv). pose proof (sd_length _ _ _ Hw).
  pose proof (load_ok_ bin h d n v Hn Hv Bn) as E1. pose proof (load_ok_ bin h s m w Hm Hw Bm) as E2. rewrite <- Hl in E2.
  unfold load_ in *. unfold mbind, act_bind, memcmp, wmemcmp, mbind, act_bind. destruct bin; rewrite E1, E2; unfold mret, act_ret; by rewrite cmp_chars_eq by lia.
Qed.

Lemma beq_content_ok g2 h R d s v w : wf h R -> d ∈ statics_refs ++ R -> s ∈ statics_refs ++ R -> d <> s -> holds h d v -> holds h s w -> comparable v w ->
  exists h', beq_content g2 d s h = Ret (bool_decide (v.2 = w.2), h') /\ wf h' R /\ frame h h' R.
Proof.
  intros Hwf Hd Hs Hne Hhd Hhs Hc. pose proof Hhd as (n & Hn & Hv). pose proof Hhs as (m & Hm & Hw).
  pose proof (sd_length _ _ _ Hv) as L. pose proof (sd_length _ _ _ Hw) as L'.
  unfold beq_content. unfold mbind at 1, act_bind at 1. rewrite (sd_eq _ _ _ Hn). unfold mbind at 1, act_bind at 1. rewrite (sd_eq _ _ _ Hm). cbv zeta.
  destruct (Z.eqb_spec (length_ n) (length_ m)) as [Hl|Hl]; cbn [negb]; cbv iota.
  2: { exists h. split_and!; [|done|apply frame_refl]. rewrite bool_decide_eq_false_2; [done|]. intros E. apply Hl. by rewrite L, L', E. }
  rewrite (flags_three _ _ _ _ _ _ Hv Hw). destruct (flags_bits _ _ _ Hv) as [_ ->].
  destruct (b_ok n && b_ok m) eqn:Eb.
  { apply andb_prop in Eb as [Bn Bm]. exists h. split_and!; [|done|apply frame_refl]. pose proof (compare_ok true h d s n m v w Hn Hv Hm Hw Bn Bm Hl) as E.
    by destruct (w_ok n && w_ok m). }
  destruct (w_ok n && w_ok m) eqn:Ew.
  { apply andb_prop in Ew as [Wn Wm]. exists h. split_and!; [|done|apply frame_refl]. exact (compare_ok false h d s n m v w Hn Hv Hm Hw Wn Wm Hl). }
  change ((Binv + Winv =? 0) || (Binv + Winv =? Winv)) with false. change (Binv + Winv =? Binv) with false. cbv iota.
  destruct (Z.eqb_spec (length_ n) 0) as [Hz|Hz].
  { exists h. split_and!; [|done|apply frame_refl]. rewrite bool_decide_eq_true_2; [done|].
    assert (v.2 = []) as -> by (apply length_zero_iff_nil; lia). symmetry. apply length_zero_iff_nil. lia. }
  assert (is_text v /\ is_text w) as [Tv Tw].
  { destruct Hc as [[E1 E2]|H]; [|done]. pose proof (valid_bin n v d Hv E1) as B1. pose proof (valid_bin m w s Hw E2) as B2.
    cbn [valid] in B1, B2. by rewrite B1, B2 in Eb. }
  pose proof (valid_some false _ _ _ Hv) as Bn. pose proof (valid_some false _ _ _ Hw) as Bm. cbn [valid negb] in Bn, Bm.
  destruct (w_ok n) eqn:En.
  - simpl in Ew. change (negb (0 =? 0)) with false. cbv iota.
    destruct (update_ok_ false 0 g2 h R s w Hwf Hs Hhs Tw) as (h1 & m1 & E1 & W1 & F1 & Hm1 & Hw1 & Hval & K1 & _). cbn [update_] in E1.
    exists h1. split_and!; [|done|done]. unfold mbind at 1, act_bind at 1. rewrite E1.
    apply (compare_ok false h1 d s n m1 v w); try done; [by rewrite K1|]. rewrite (sd_length _ _ _ Hw1). lia.
  - change (negb (Winv =? 0)) with true. cbv iota. specialize (Bn eq_refl). destruct (w_ok m) eqn:Em; [|by rewrite Bn, (Bm eq_refl) in Eb].
    destruct (update_ok_ false 0 g2 h R d v Hwf Hd Hhd Tv) as (h1 & n1 & E1 & W1 & F1 & Hn1 & Hv1 & Hval & K1 & _). cbn [update_] in E1.
    exists h1. split_and!; [|done|done]. unfold mbind at 1, act_bind at 1. rewrite E1. rewrite L, <- (sd_length _ _ _ Hv1).
    apply (compare_ok false h1 d s n1 m v w); try done; [by rewrite K1|]. rewrite (sd_length _ _ _ Hv1). lia.
Qed.

(** Strings are equal when they have the same characters and are both null or both not null. *)
Definition same_value d s v w : Prop := v.2 = w.2 /\ (d = s_null <-> s = s_null).

#[global] Instance same_value_dec d s v w : Decision (same_value d s v w).
Proof.
  unfold same_value. destruct (decide (d = s_null)), (decide (s = s_null)), (decide (v.2 = w.2)); (left; tauto) || (right; tauto).
Defined.

Lemma same_hash d s v w : (d = s_null -> v.2 = []) -> (s = s_null -> w.2 = []) ->
  (same_value d s v w -> hash_of d v.2 = hash_of s w.2) /\ (hash_of d v.2 = hash_of s w.2 -> v.2 = w.2 -> same_value d s v w).
Proof.
  intros Hd Hs. unfold same_value, hash_of. split.
  - intros [-> H]. by destruct (decide (d = s_null)), (decide (s = s_null)); tauto.
  - intros E Hv. split; [done|]. destruct (decide (d = s_null)) as [Ed|], (decide (s = s_null)) as [Es|]; try tauto.
    + rewrite <- Hv, (Hd Ed) in E. done.
    + rewrite Hv, (Hs Es) in E. done.
Qed.

Lemma str_beq_ok g2 h R d s v w : wf h R -> d ∈ statics_refs ++ R -> s ∈ statics_refs ++ R -> holds h d v -> holds h s w -> comparable v w ->
  exists h', beq g2 d s h = Ret (bool_decide (same_value d s v w), h') /\ wf h' R /\ frame h h' R.
Proof.
  intros Hwf Hd Hs Hhd Hhs Hc. unfold beq. destruct (decide (d = s)) as [->|Hne].
  { exists h. split_and!; [|done|apply frame_refl]. rewrite bool_decide_eq_true_2; [done|]. split; [|done].
    destruct Hhd as (n & Hn & Hv), Hhs as (m & Hm & Hw). assert (n = m) by congruence. subst m. by apply (sd_ok_inj s n). }
  assert (forall h a x, wf h R -> holds h a x -> a = s_null -> x.2 = []) as Hnull.
  { intros h0 a x Hw0 (n & Hn & Hv) ->. destruct (wf_null _ _ Hw0) as (m & Hm & Hw). assert (n = m) by congruence. subst m.
    by rewrite (sd_ok_inj _ _ _ _ Hv Hw). }
  pose proof (same_hash d s v w (Hnull h d v Hwf Hhd) (Hnull h s w Hwf Hhs)) as [S1 S2].
  pose proof Hhd as (n & Hn & Hv). pose proof Hhs as (m & Hm & Hw).
  assert (exists h1 n1, (if hash n <? 0 then _ ← updateHash d; mret tt else mret tt) h = Ret (tt, h1) /\ wf h1 R /\ frame h h1 R /\
    h1 !! d = Some n1 /\ sd_ok d n1 v /\ hash n1 = hash_of d v.2 /\ h1 !! s = Some m) as (h1 & n1 & E1 & W1 & F1 & Hn1 & Hv1 & Hh1 & Hm1).
  { pose proof (hash_of_nonneg d v.2). destruct (hash_cases d n v Hv) as [E|[E Hdn]]; rewrite E.
    - destruct (Z.ltb_spec (hash_of d v.2) 0); [lia|]. exists h, n. split_and!; try done. apply frame_refl.
    - destruct (updateHash_ok h R d n v Hwf Hn Hv Hdn) as (h1 & E1 & W1 & F1 & Hn1 & K1). exists h1, (with_hash n (hash_of d v.2)).
      change (-1 <? 0) with true. cbv iota. unfold mbind, act_bind. rewrite E1. split_and!; try done; [|by rewrite K1].
      unfold hash_of. rewrite decide_False by done. by apply (keeps_hash d n v.2 v). }
  unfold mbind at 1, act_bind at 1. rewrite (sd_eq _ _ _ Hn). unfold mbind at 1, act_bind at 1. rewrite E1.
  unfold mbind at 1, act_bind at 1. rewrite (sd_eq _ _ _ Hn1). unfold mbind at 1, act_bind at 1. rewrite (sd_eq _ _ _ Hm1). rewrite Hh1.
  assert (forall h', wf h' R -> frame h h' R -> hash_of d v.2 = hash_of s w.2 ->
    exists h'', beq_content g2 d s h' = Ret (bool_decide (same_value d s v w), h'') /\ wf h'' R /\ frame h h'' R) as Hcont.
  { intros h' W' F' Eh. destruct (beq_content_ok g2 h' R d s v w) as (h'' & E & W & F); try done; [by apply F'..|].
    exists h''. split_and!; [|done|eauto using frame_trans]. rewrite E. do 2 f_equal. apply bool_decide_ext. split; [by apply S2|by intros []]. }
  pose proof (hash_of_nonneg d v.2). pose proof (hash_of_nonneg s w.2).
  destruct (hash_cases s m w Hw) as [Em|[Em Hsn]]; rewrite Em.
  - destruct (Z.eqb_spec (hash_of s w.2) (hash_of d v.2)) as [Eh|Eh]; [by apply Hcont|].
    destruct (Z.leb_spec 0 (hash_of s w.2)); [|lia]. exists h1. split_and!; try done. rewrite bool_decide_eq_false_2; [done|]. intros Hsv. by rewrite S1 in Eh.
  - destruct (Z.eqb_spec (-1) (hash_of d v.2)); [lia|]. change (0 <=? -1) with false. cbv iota.
    destruct (updateHash_ok h1 R s m w W1 Hm1 Hw Hsn) as (h2 & E2 & W2 & F2 & Hm2 & K2).
    unfold mbind at 1, act_bind at 1. rewrite E2. unfold mbind at 1, act_bind at 1. rewrite (sd_eq h2 d n1) by (by rewrite K2).
    unfold mbind at 1, act_bind at 1. rewrite (sd_eq _ _ _ Hm2). rewrite Hh1. cbn [hash with_hash].
    destruct (Z.eqb_spec (hash_of s w.2) (hash_of d v.2)) as [Eh|Eh]; simpl negb; cbv iota; [apply Hcont; eauto using frame_trans|].
    exists h2. split_and!; [|done|eauto using frame_trans]. rewrite bool_decide_eq_false_2; [done|]. intros Hsv. by rewrite S1 in Eh.
Qed.
