(* ===== verification/StrFormat.v ===== *)
(** * core/types: formatted output

    [StrData::vformatAscii] ([String.cxx]) and [String::vformats]: the printf of
    the library, with its parser of directives, its own integer output and the C
    library's output of floating-point numbers. The platform is LP64: [long],
    [long long], [intmax_t], [ssize_t] and pointers have 64 bits, so the branches
    for integers larger than a long are compiled out. *)

From Stdlib Require Import String Ascii.
From S2P Require Import Prelude Machine CString Heap StrData.

#[local] Abbreviation M := (act (gmap addr strdata)).

Inductive Length := L_NONE | L_hh | L_h | L_l | L_ll | L_L | L_j | L_z | L_t.

Definition O_Decimal : Z := 0.
Definition O_Binary : Z := 1.
Definition O_Unsigned : Z := 2.
Definition O_Octal : Z := 3.
Definition O_Hexa : Z := 4.
Definition O_Exp : Z := 0.
Definition O_Dot : Z := 1.
Definition O_Adapt : Z := 2.
Definition O_HexFloat : Z := 3.
Definition O_TypeMask : Z := 7.
Definition F_BIG : Z := 16.
Definition F_ZERO : Z := 64.
Definition F_PLUS : Z := 128.
Definition F_MINUS : Z := 256.
Definition F_SPACE : Z := 512.
Definition F_ALT : Z := 1024.
Definition F_WIDTH : Z := 2048.
Definition F_PREC : Z := 4096.

Definition has (output flag : Z) : bool := negb (Z.land output flag =? 0).

(** The enumerators' values, for [flength&L_L]. *)
Definition length_code (l : Length) : Z :=
  match l with L_NONE => 0 | L_hh => 1 | L_h => 2 | L_l => 3 | L_ll => 4 | L_L => 5 | L_j => 6 | L_z => 7 | L_t => 8 end.

(** What the formatting code asks of a floating-point number: whether it is
    finite, zero, below 1, and the integer part of the logarithm it computes. *)
Inductive magnitude := M_NotFinite | M_Zero | M_Below1 (neg_log : Z) | M_Atleast1 (log : Z).

Section Format.

(** Floating-point numbers, and the C library's [log10] and [sprintf] on them:
    [sprintf_float dot width prec] is the conversion [%Lf] or [%Le]. *)
Variable ldouble : Type.
Variable measure : ldouble -> magnitude.
Variable sprintf_float : bool -> option Z -> option Z -> ldouble -> list Z.
Variables bgarbage wgarbage : Z.

(** ** Arguments *)

(** The variable arguments, after the default promotions; [V_Out] is a pointer that [%n] stores through. *)
Inductive va :=
| V_32 (x : Z)
| V_64 (x : Z)
| V_Double (x : ldouble)
| V_LongDouble (x : ldouble)
| V_Str (s : option (list Z))
| V_WStr (s : option (list Z))
| V_Out (slot : nat).

Definition va_32 (args : list va) : res (Z * list va) :=
  match args with V_32 x :: args => Ret (x, args) | _ => Crash BadVararg end.
Definition va_64 (args : list va) : res (Z * list va) :=
  match args with V_64 x :: args => Ret (x, args) | _ => Crash BadVararg end.
Definition va_double (args : list va) : res (ldouble * list va) :=
  match args with V_Double x :: args => Ret (x, args) | _ => Crash BadVararg end.
Definition va_long_double (args : list va) : res (ldouble * list va) :=
  match args with V_LongDouble x :: args => Ret (x, args) | _ => Crash BadVararg end.
Definition va_str (args : list va) : res (option (list Z) * list va) :=
  match args with V_Str x :: args => Ret (x, args) | _ => Crash BadVararg end.
Definition va_wstr (args : list va) : res (option (list Z) * list va) :=
  match args with V_WStr x :: args => Ret (x, args) | _ => Crash BadVararg end.
Definition va_out (args : list va) : res (nat * list va) :=
  match args with V_Out x :: args => Ret (x, args) | _ => Crash BadVararg end.

(** ** The parser of directives *)

Record conv := mk_conv { output : Z; width : Z; prec : Z; flength : Length }.

Definition set_output (k : conv) (f : Z) : conv := mk_conv (Z.lor (output k) f) (width k) (prec k) (flength k).

(** The characters that end a directive. *)
Definition is_type (c : Z) : bool := bool_decide (c ∈ chars "diboxXueEfFgGaAcspn").

(** Where a state goes to. *)
Inductive label := To_type | To_copy | To_width | To_prec | To_length.

#[global] Instance label_eq_dec : EqDecision label.
Proof. solve_decision. Defined.

Fixpoint s_flag (fmt : list Z) (k : conv) : label * list Z * conv :=
  match fmt with
  | [] => (To_width, fmt, k)
  | c :: rest =>
    if is_type c then (To_type, fmt, k)
    else if c =? 45 then s_flag rest (set_output k F_MINUS)
    else if c =? 43 then s_flag rest (set_output k F_PLUS)
    else if c =? 48 then s_flag rest (set_output k F_ZERO)
    else if c =? 32 then s_flag rest (set_output k F_SPACE)
    else if c =? 35 then s_flag rest (set_output k F_ALT)
    else if c =? 37 then (To_copy, fmt, k)
    else (To_width, fmt, k)
  end.

Fixpoint s_width (fmt : list Z) (args : list va) (k : conv) : res (label * list Z * list va * conv) :=
  match fmt with
  | [] => Ret (To_length, fmt, args, k)
  | c :: rest =>
    if is_type c then Ret (To_type, fmt, args, k)
    else if isdigit c then s_width rest args (mk_conv (Z.lor (output k) F_WIDTH) (s64 (10 * width k + c - 48)) (prec k) (flength k))
    else if c =? 46 then Ret (To_prec, rest, args, k)
    else if c =? 42 then
      if negb (width k =? 0) then Crash AssertFailed
      else '(x, args) ← va_32 args; s_width rest args (mk_conv (output k) (s32 x) (prec k) (flength k))
    else Ret (To_length, fmt, args, k)
  end.

Fixpoint s_prec (fmt : list Z) (args : list va) (k : conv) : res (label * list Z * list va * conv) :=
  match fmt with
  | [] => Ret (To_length, fmt, args, k)
  | c :: rest =>
    if is_type c then Ret (To_type, fmt, args, k)
    else if isdigit c then s_prec rest args (mk_conv (Z.lor (output k) F_PREC) (width k) (s64 (10 * prec k + c - 48)) (flength k))
    else if c =? 42 then
      if negb (prec k =? 0) then Crash AssertFailed
      else '(x, args) ← va_32 args; Ret (To_length, rest, args, mk_conv (output k) (width k) (s32 x) (flength k))
    else Ret (To_length, fmt, args, k)
  end.

(** A second [h] is seen but not passed. *)
Definition s_length (fmt : list Z) : list Z * Length :=
  match fmt with
  | [] => (fmt, L_NONE)
  | c :: rest =>
    if is_type c then (fmt, L_NONE)
    else if c =? 104 then (rest, if deref rest =? 104 then L_hh else L_h)
    else if c =? 108 then if deref rest =? 108 then (tail rest, L_ll) else (rest, L_l)
    else if c =? 76 then (rest, L_L)
    else if c =? 106 then (rest, L_j)
    else if c =? 122 then (rest, L_z)
    else if c =? 116 then (rest, L_t)
    else (fmt, L_NONE)
  end.

Inductive out := out_int | out_uint | out_float | out_char | out_string | out_printed.

Definition s_type (c : Z) (k : conv) : res (out * conv) :=
  if (c =? 100) || (c =? 105) then Ret (out_int, set_output k O_Decimal)
  else if c =? 98 then Ret (out_uint, set_output k O_Binary)
  else if c =? 111 then Ret (out_uint, set_output k O_Octal)
  else if c =? 117 then Ret (out_uint, set_output k O_Unsigned)
  else if c =? 120 then Ret (out_uint, set_output k O_Hexa)
  else if c =? 88 then Ret (out_uint, set_output k (Z.lor O_Hexa F_BIG))
  else if c =? 101 then Ret (out_float, set_output k O_Exp)
  else if c =? 69 then Ret (out_float, set_output k (Z.lor O_Exp F_BIG))
  else if c =? 102 then Ret (out_float, set_output k O_Dot)
  else if c =? 70 then Ret (out_float, set_output k (Z.lor O_Dot F_BIG))
  else if c =? 103 then Ret (out_float, set_output k O_Adapt)
  else if c =? 71 then Ret (out_float, set_output k (Z.lor O_Adapt F_BIG))
  else if c =? 97 then Ret (out_float, set_output k O_HexFloat)
  else if c =? 65 then Ret (out_float, set_output k (Z.lor O_HexFloat F_BIG))
  else if c =? 99 then Ret (out_char, k)
  else if c =? 115 then Ret (out_string, k)
  else if c =? 112 then
    match flength k with
    | L_NONE => Ret (out_uint, mk_conv (Z.lor (Z.lor (output k) F_ALT) O_Hexa) (width k) (prec k) L_l)
    | _ => Crash AssertFailed
    end
  else if c =? 110 then Ret (out_printed, k)
  else Crash AssertFailed.

(** From the character behind [%] on: the directive is [%%], or a conversion with
    its character, and what follows it. *)
Inductive parsed := P_copy (fmt : list Z) | P_conv (o : out) (k : conv) (c : Z) (fmt : list Z) (args : list va).

Definition s_read (fmt : list Z) (args : list va) : res parsed :=
  let '(go, fmt, k) := s_flag fmt (mk_conv 0 0 0 L_NONE) in
  match go with
  | To_copy => Ret (P_copy fmt)
  | _ =>
    '(go, fmt, args, k) ← (if decide (go = To_type) then Ret (go, fmt, args, k) else s_width fmt args k);
    '(go, fmt, args, k) ← (if decide (go = To_prec) then s_prec fmt args k else Ret (go, fmt, args, k));
    let '(fmt, l) := if decide (go = To_type) then (fmt, L_NONE) else s_length fmt in
    '(o, k) ← s_type (deref fmt) (mk_conv (output k) (width k) (prec k) l);
    Ret (P_conv o k (deref fmt) (tail fmt) args)
  end.

(** ** Output of integers *)

(** [o_buf] is the part of [o_bufs] that is written, from its end. *)
Definition o_push (l o_buf : list Z) : res (list Z) :=
  if 1024 <? Z.of_nat (length l + length o_buf) then Crash OutOfBounds else Ret (l ++ o_buf).

(** The loop that writes digits, least significant first. *)
Fixpoint digits_do (fuel : nat) (tab : list Z) (base value : Z) (o_buf : list Z) : res (list Z) :=
  match fuel with
  | O => NoFuel
  | S fuel =>
    c ← byte_at tab (value mod base);
    o_buf ← o_push [c] o_buf;
    if value / base =? 0 then Ret o_buf else digits_do fuel tab base (value / base) o_buf
  end.

Definition lower_digits : list Z := chars "0123456789abcdefghijklmnopqrstuvwxyz".
Definition upper_digits : list Z := chars "0123456789ABCDEF".

Definition appendAscii := appendAscii bgarbage wgarbage.
Definition appendAsciiChars := appendAsciiChars bgarbage wgarbage.
Definition zeros (n : Z) : list Z := repeat 48 (Z.to_nat n).
Definition spaces (n : Z) : list Z := repeat 32 (Z.to_nat n).
Definition blen (l : list Z) : Z := Z.of_nat (length l).

(** The precision: zeros that fit are put in the buffer, others are left for later. *)
Definition fill_prec (prec : Z) (o_buf : list Z) : res (Z * list Z) :=
  let prec := s64 (prec - blen o_buf) in
  if 0 <? prec then
    if prec <? 16 then o_buf ← o_push (zeros prec) o_buf; Ret (0, o_buf) else Ret (prec, o_buf)
  else Ret (0, o_buf).

Definition is_set (o_sign : option Z) : bool := match o_sign with Some _ => true | None => false end.

Definition format_long_common (k : conv) (o_sign : option Z) (o_buf : list Z) (data : addr) : M addr :=
  '(prec, o_buf) ← lift (fill_prec (prec k) o_buf);
  let width := s64 (width k - (blen o_buf + prec + Z.b2z (is_set o_sign))) in
  '(data, o_buf, o_sign, width) ← (
    if (0 <? width) && negb (has (output k) F_MINUS) then
      if (0 <? prec) || (16 <? width) then
        data ← (if has (output k) F_ZERO then
                  data ← (match o_sign with Some c => appendAsciiChars data c 1 | None => mret data end);
                  appendAsciiChars data 48 width
                else appendAsciiChars data 32 width);
        mret (data, o_buf, o_sign, 0)
      else if has (output k) F_ZERO then
        o_buf ← lift (o_push (zeros width) o_buf); mret (data, o_buf, o_sign, 0)
      else
        o_buf ← lift (match o_sign with Some c => o_push [c] o_buf | None => Ret o_buf end);
        o_buf ← lift (o_push (spaces width) o_buf); mret (data, o_buf, None, 0)
    else mret (data, o_buf, o_sign, width));
  '(data, o_buf) ← (
    match o_sign with
    | Some c =>
      if 0 <? prec then data ← appendAsciiChars data c 1; mret (data, o_buf)
      else o_buf ← lift (o_push [c] o_buf); mret (data, o_buf)
    | None => if 0 <? prec then data ← appendAsciiChars data 48 prec; mret (data, o_buf) else mret (data, o_buf)
    end);
  data ← appendAscii data o_buf;
  if 0 <? width then appendAsciiChars data 32 width else mret data.

Definition int_value (l : Length) (args : list va) : res (Z * list va) :=
  match l with
  | L_NONE => '(x, args) ← va_32 args; Ret (s32 x, args)
  | L_hh => '(x, args) ← va_32 args; Ret (s8 (s32 x), args)
  | L_h => '(x, args) ← va_32 args; Ret (s16 (s32 x), args)
  | L_l | L_ll | L_j | L_z | L_t => '(x, args) ← va_64 args; Ret (s64 x, args)
  | L_L => Crash AssertFailed
  end.

Definition format_int (k : conv) (value : Z) (data : addr) : M addr :=
  let '(o_sign, value) :=
    if value <? 0 then (Some 45, s64 (- value)) else (if has (output k) F_PLUS then Some 43 else None, value) in
  o_buf ← lift (digits_do 65 lower_digits 10 (u64 value) []);
  format_long_common k o_sign o_buf data.

Definition uint_value (l : Length) (args : list va) : res (Z * list va) :=
  match l with
  | L_NONE => '(x, args) ← va_32 args; Ret (u32 x, args)
  | L_hh => '(x, args) ← va_32 args; Ret (u8 x, args)
  | L_h => '(x, args) ← va_32 args; Ret (u16 x, args)
  | L_l | L_ll | L_j | L_z | L_t => '(x, args) ← va_64 args; Ret (u64 x, args)
  | L_L => Crash AssertFailed
  end.

(** The base, the digits and the length of the prefix. *)
Definition uint_base (output value : Z) : res (Z * list Z * Z) :=
  let t := Z.land output O_TypeMask in
  if t =? O_Binary then Ret (2, lower_digits, 0)
  else if t =? O_Unsigned then Ret (10, lower_digits, 0)
  else if t =? O_Octal then Ret (8, lower_digits, if has output F_ALT && negb (value =? 0) then 1 else 0)
  else if t =? O_Hexa then
    Ret (16, if has output F_BIG then upper_digits else lower_digits, if has output F_ALT then 2 else 0)
  else Crash AssertFailed.

(** The prefix in the buffer; [c] is [asciifmt[-1]]. *)
Definition push_prefix (o_signlen c : Z) (o_buf : list Z) : res (list Z) :=
  o_buf ← (if 1 <? o_signlen then o_push [c] o_buf else Ret o_buf);
  o_push [48] o_buf.

Definition format_ulong_common (k : conv) (c o_signlen : Z) (o_buf : list Z) (data : addr) : M addr :=
  let short := s64 (prec k - blen o_buf) in
  '(prec, o_buf) ← lift (fill_prec (prec k) o_buf);
  let o_signlen := if (0 <? short) && (o_signlen =? 1) then 0 else o_signlen in
  let width := s64 (width k - (blen o_buf + prec + o_signlen)) in
  '(data, o_buf, o_signlen, width) ← (
    if (0 <? width) && negb (has (output k) F_MINUS) then
      if (0 <? prec) || (16 <? width) then
        if has (output k) F_ZERO then
          data ← (if o_signlen =? 0 then mret data
                  else appendAscii data (take (Z.to_nat o_signlen) (chars (if has (output k) F_BIG then "0X" else "0x"))));
          data ← appendAsciiChars data 48 width;
          mret (data, o_buf, 0, 0)
        else data ← appendAsciiChars data 32 width; mret (data, o_buf, o_signlen, 0)
      else if has (output k) F_ZERO then
        o_buf ← lift (o_push (zeros width) o_buf); mret (data, o_buf, o_signlen, 0)
      else
        o_buf ← lift (if o_signlen =? 0 then Ret o_buf else push_prefix o_signlen c o_buf);
        o_buf ← lift (o_push (spaces width) o_buf); mret (data, o_buf, 0, 0)
    else mret (data, o_buf, o_signlen, width));
  '(data, o_buf) ← (
    if negb (o_signlen =? 0) then
      if 0 <? prec then data ← appendAscii data (take (Z.to_nat o_signlen) (chars "0x")); mret (data, o_buf)
      else o_buf ← lift (push_prefix o_signlen c o_buf); mret (data, o_buf)
    else if 0 <? prec then data ← appendAsciiChars data 48 prec; mret (data, o_buf)
    else mret (data, o_buf));
  data ← appendAscii data o_buf;
  if 0 <? width then appendAsciiChars data 32 width else mret data.

Definition format_uint (k : conv) (c value : Z) (data : addr) : M addr :=
  '(base, tab, o_signlen) ← lift (uint_base (output k) value);
  o_buf ← lift (digits_do 65 tab base value []);
  format_ulong_common k c o_signlen o_buf data.

(** ** Output of other values *)

Definition float_space (k : conv) (value : ldouble) : Z :=
  let space :=
    match measure value with
    | M_NotFinite => 16
    | M_Zero => 8
    | M_Below1 l => if has (output k) O_Dot then l else 32
    | M_Atleast1 l => if has (output k) O_Dot then l + prec k else 32
    end in
  let space := if has (output k) F_WIDTH && (space <? width k) then width k else space in
  let space := if has (output k) F_PREC && (space <? prec k) then prec k else space in
  s64 (space + 6).

(** The cases of the switch that its mask leaves reachable: [O_Exp] and [O_Dot]. *)
Definition format_float (k : conv) (value : ldouble) (data : addr) : M addr :=
  n ← sd data;
  let origlen := length_ n in
  data ← addAsciiSpace bgarbage data (u64 (float_space k value));
  let text := sprintf_float (has (output k) O_Dot) (if has (output k) F_WIDTH then Some (s32 (width k)) else None)
    (if has (output k) F_PREC then Some (s32 (prec k)) else None) value in
  _ ← b_store data origlen (text ++ [0]);
  _ ← updateAsciiLength data (origlen + blen text);
  mret data.

Definition format_char (k : conv) (args : list va) (data : addr) : M (addr * list va) :=
  match flength k with
  | L_NONE => '(x, args) ← lift (va_32 args); data ← appendAsciiChars data (s8 (s32 x)) 1; mret (data, args)
  | L_l => '(x, args) ← lift (va_32 args); data ← appendWideChars bgarbage wgarbage data (s32 (u32 x)) 1; mret (data, args)
  | _ => lift (Crash AssertFailed)
  end.

Definition format_string (k : conv) (args : list va) (data : addr) : M (addr * list va) :=
  match flength k with
  | L_NONE =>
    '(s, args) ← lift (va_str args);
    data ← appendAscii data (default (chars "(null)") s); mret (data, args)
  | L_l =>
    '(s, args) ← lift (va_wstr args);
    data ← (match s with Some s => appendWide wgarbage data s | None => appendAscii data (chars "(null)") end); mret (data, args)
  | _ => lift (Crash AssertFailed)
  end.

(** What [%n] stores: where, how many bits, and which value. *)
Definition format_printed (k : conv) (args : list va) (data : addr) : M ((nat * Z * Z) * list va) :=
  n ← sd data;
  w ← lift (match flength k with
    | L_NONE => Ret 32 | L_hh => Ret 8 | L_h => Ret 16 | L_l | L_ll | L_j | L_z | L_t => Ret 64
    | L_L => Crash AssertFailed end);
  '(p, args) ← lift (va_out args);
  mret ((p, w, uwrap w (length_ n)), args).

(** ** The loop *)

Definition run_conv (o : out) (k : conv) (c : Z) (args : list va) (data : addr) : M (addr * list va * list (nat * Z * Z)) :=
  match o with
  | out_int => '(v, args) ← lift (int_value (flength k) args); data ← format_int k v data; mret (data, args, [])
  | out_uint => '(v, args) ← lift (uint_value (flength k) args); data ← format_uint k c v data; mret (data, args, [])
  | out_float =>
    '(v, args) ← lift (if has (length_code (flength k)) (length_code L_L) then va_long_double args else va_double args);
    data ← format_float k v data; mret (data, args, [])
  | out_char => '(data, args) ← format_char k args data; mret (data, args, [])
  | out_string => '(data, args) ← format_string k args data; mret (data, args, [])
  | out_printed => '(s, args) ← format_printed k args data; mret (data, args, [s])
  end.

(** [s_copy]: the first character is taken whatever it is. *)
Definition s_copy (fmt : list Z) : list Z * list Z :=
  match fmt with
  | [] => ([], [])
  | c :: rest => let '(l, rest) := span (fun c => negb (c =? 37)) rest in (c :: l, rest)
  end.

(** The format is the bytes before its end; [stored] is what [%n] has stored. *)
Fixpoint format_loop (fuel : nat) (fmt : list Z) (args : list va) (stored : list (nat * Z * Z)) (data : addr) : M (addr * list (nat * Z * Z)) :=
  match fuel with
  | O => lift NoFuel
  | S fuel =>
    match fmt with
    | [] => mret (data, stored)
    | c :: rest =>
      p ← (if c =? 37 then lift (s_read rest args) else mret (P_copy fmt));
      match p with
      | P_copy fmt =>
        let '(l, fmt) := s_copy fmt in
        data ← appendAscii data l; format_loop fuel fmt args stored data
      | P_conv o k c fmt args =>
        '(data, args, s) ← run_conv o k c args data;
        format_loop fuel fmt args (stored ++ s) data
      end
    end
  end.

Definition vformatAscii (this : addr) (fmt : list Z) (args : list va) : M (addr * list (nat * Z * Z)) :=
  data ← ref this;
  '(data, stored) ← format_loop (S (length fmt)) fmt args [] data;
  _ ← unref this;
  mret (data, stored).

Definition vformats (fmt : list Z) (args : list va) : M (addr * list (nat * Z * Z)) :=
  nd ← ref s_zero;
  vformatAscii nd fmt args.

(** [String::vformat] on the string [d]. *)
Definition vformat (d : addr) (fmt : list Z) (args : list va) : M (addr * list (nat * Z * Z)) :=
  nd ← ref s_zero;
  '(nd, stored) ← vformatAscii nd fmt args;
  _ ← unref d;
  mret (nd, stored).

End Format.

Arguments V_32 {ldouble} _.
Arguments V_64 {ldouble} _.
Arguments V_Double {ldouble} _.
Arguments V_LongDouble {ldouble} _.
Arguments V_Str {ldouble} _.
Arguments V_WStr {ldouble} _.
Arguments V_Out {ldouble} _.
Arguments P_copy {ldouble} _.
Arguments P_conv {ldouble} _ _ _ _ _.
