(* ===== verification/StrFormatSpec.v ===== *)
(** * The printf of the C standard

    Format strings as lists of directives, how they are written, and what the C
    standard says they print, restricted to the directives that the library
    treats as the standard does. *)

From Stdlib Require Import String Ascii.
From S2P Require Import Prelude Machine CString Heap StrData StrDataRefs StrFormat.

(** ** Format strings *)

Inductive flag := Minus | Plus | Zero | Space | Alt.
Inductive num := NoNum | Num (n : Z) | Star.
Inductive cv := C_d | C_i | C_b | C_o | C_u | C_x | C_X | C_c | C_s | C_n.

#[global] Instance flag_eq_dec : EqDecision flag.
Proof. solve_decision. Defined.
#[global] Instance num_eq_dec : EqDecision num.
Proof. solve_decision. Defined.
#[global] Instance cv_eq_dec : EqDecision cv.
Proof. solve_decision. Defined.
#[global] Instance length_eq_dec : EqDecision Length.
Proof. solve_decision. Defined.

Record directive := mk_dir { dflags : list flag; dwidth : num; dprec : num; dlen : Length; dconv : cv }.

Inductive item := Lit (l : list Z) | Percent | Dir (d : directive).

Definition show_flag (f : flag) : Z := match f with Minus => 45 | Plus => 43 | Zero => 48 | Space => 32 | Alt => 35 end.
Definition show_num (n : num) : list Z := match n with NoNum => [] | Num n => dec n | Star => [42] end.
Definition show_prec (n : num) : list Z := match n with NoNum => [] | _ => 46 :: show_num n end.
Definition show_len (l : Length) : list Z :=
  chars match l with L_NONE => "" | L_hh => "hh" | L_h => "h" | L_l => "l" | L_ll => "ll" | L_L => "L" | L_j => "j" | L_z => "z" | L_t => "t" end.
Definition show_cv (c : cv) : Z :=
  match c with C_d => 100 | C_i => 105 | C_b => 98 | C_o => 111 | C_u => 117 | C_x => 120 | C_X => 88 | C_c => 99 | C_s => 115 | C_n => 110 end.

Definition show_dir (d : directive) : list Z :=
  map show_flag (dflags d) ++ show_num (dwidth d) ++ show_prec (dprec d) ++ show_len (dlen d) ++ [show_cv (dconv d)].
Definition show_item (i : item) : list Z :=
  match i with Lit l => l | Percent => [37; 37] | Dir d => 37 :: show_dir d end.
Definition show (items : list item) : list Z := mjoin (map show_item items).

(** ** Numbers *)

(** The digits of [n] in base [b], most significant first. *)
Fixpoint rep_rev (fuel : nat) (tab : list Z) (b n : Z) : list Z :=
  match fuel with
  | O => []
  | S fuel => let c := default 63 (tab !! Z.to_nat (n mod b)) in if n <? b then [c] else c :: rep_rev fuel tab b (n / b)
  end.
Definition rep (tab : list Z) (b n : Z) : list Z := rev (rep_rev 65 tab b n).

Definition has_flag (d : directive) (f : flag) : bool := bool_decide (f ∈ dflags d).

(** At least [prec] digits; no digit at all for zero with precision zero. *)
Definition c_digits (tab : list Z) (b n : Z) (prec : option Z) : list Z :=
  if (n =? 0) && bool_decide (prec = Some 0) then []
  else zeros (default 1 prec - blen (rep tab b n)) ++ rep tab b n.

(** The field: [-] puts the spaces behind, [0] puts zeros between the prefix and
    the digits unless there is a precision. *)
Definition c_field (d : directive) (width prec : option Z) (prefix body : list Z) : list Z :=
  let pad := default 0 width - blen (prefix ++ body) in
  if has_flag d Minus then prefix ++ body ++ spaces pad
  else if has_flag d Zero && bool_decide (prec = None) then prefix ++ zeros pad ++ body
  else spaces pad ++ prefix ++ body.

Definition c_signed (d : directive) (width prec : option Z) (v : Z) : list Z :=
  let sign := if v <? 0 then [45] else if has_flag d Plus then [43] else if has_flag d Space then [32] else [] in
  c_field d width prec sign (c_digits lower_digits 10 (Z.abs v) prec).

(** [#] makes the first octal digit a zero, and puts 0x before a number that is not zero. *)
Definition c_unsigned (d : directive) (width prec : option Z) (v : Z) : list Z :=
  match dconv d with
  | C_b => c_field d width prec [] (c_digits lower_digits 2 v prec)
  | C_o =>
    let body := c_digits lower_digits 8 v prec in
    c_field d width prec [] (if has_flag d Alt && negb (deref body =? 48) then 48 :: body else body)
  | C_x => c_field d width prec (if has_flag d Alt && negb (v =? 0) then chars "0x" else []) (c_digits lower_digits 16 v prec)
  | C_X => c_field d width prec (if has_flag d Alt && negb (v =? 0) then chars "0X" else []) (c_digits upper_digits 16 v prec)
  | _ => c_field d width prec [] (c_digits lower_digits 10 v prec)
  end.

(** ** Arguments *)

Section Printf.
Variable ldouble : Type.
Implicit Types args : list (va ldouble).

(** A width or a precision: a number of the format, or an argument that is not negative. *)
Definition c_num (n : num) args : option (option Z * list (va ldouble)) :=
  match n with
  | NoNum => Some (None, args)
  | Num n => if decide (0 <= n < 2 ^ 31) then Some (Some n, args) else None
  | Star => match args with V_32 x :: args => if decide (0 <= s32 x) then Some (Some (s32 x), args) else None | _ => None end
  end.

Definition c_arg (l : Length) args : option (Z * Z * list (va ldouble)) :=
  match l, args with
  | L_NONE, V_32 x :: args => Some (32, x, args)
  | L_h, V_32 x :: args => Some (16, x, args)
  | (L_l | L_ll | L_j | L_z | L_t), V_64 x :: args => Some (64, x, args)
  | _, _ => None
  end.

(** What the library does as the standard says: no space flag, a precision below
    16 and not zero for the value zero, no flag [0] together with a precision, a
    signed number padded with zeros to at most 17 characters, and [#] for octal
    and non-zero hexadecimal numbers only. *)
Definition number_ok (d : directive) (width prec : option Z) (v : Z) : bool :=
  (default 0 prec <? 16) && negb ((v =? 0) && bool_decide (prec = Some 0)) && (negb (has_flag d Zero) || bool_decide (prec = None)) &&
  (negb (bool_decide (dwidth d = Num 0))).
Definition signed_ok (d : directive) (width prec : option Z) (v : Z) : bool :=
  number_ok d width prec v && negb (has_flag d Space) &&
  (negb (has_flag d Zero) || has_flag d Minus || ((0 <=? v) && negb (has_flag d Plus)) || (default 0 width <=? 17)).
Definition unsigned_ok (d : directive) (width prec : option Z) (v : Z) : bool :=
  number_ok d width prec v &&
  (negb (has_flag d Alt) || bool_decide (dconv d = C_o) || (bool_decide (dconv d ∈ [C_x; C_X]) && negb (v =? 0))).

Definition plain (d : directive) : bool := bool_decide (dflags d = [] /\ dwidth d = NoNum /\ dprec d = NoNum).

(** The text of a directive after [n] characters of output, what [%n] stores, and the arguments left. *)
Definition c_dir (d : directive) (n : Z) args : option (list Z * list (nat * Z * Z) * list (va ldouble)) :=
  match dconv d with
  | C_d | C_i =>
    '(width, args) ← c_num (dwidth d) args; '(prec, args) ← c_num (dprec d) args; '(w, x, args) ← c_arg (dlen d) args;
    if signed_ok d width prec (swrap w x) then Some (c_signed d width prec (swrap w x), [], args) else None
  | C_b | C_o | C_u | C_x | C_X =>
    '(width, args) ← c_num (dwidth d) args; '(prec, args) ← c_num (dprec d) args; '(w, x, args) ← c_arg (dlen d) args;
    if unsigned_ok d width prec (uwrap w x) then Some (c_unsigned d width prec (uwrap w x), [], args) else None
  | C_c =>
    if negb (plain d) then None else
    match dlen d, args with
    | L_NONE, V_32 x :: args => if decide (ascii x) then Some ([x], [], args) else None
    | L_l, V_32 x :: args => if decide (0 <= x < 2 ^ 31) then Some ([x], [], args) else None
    | _, _ => None
    end
  | C_s =>
    if negb (plain d) then None else
    match dlen d, args with
    | L_NONE, V_Str s :: args => let t := default (chars "(null)") s in if decide (Forall ascii t) then Some (t, [], args) else None
    | L_l, V_WStr s :: args => Some (default (chars "(null)") s, [], args)
    | _, _ => None
    end
  | C_n =>
    if negb (plain d) then None else
    match dlen d, args with
    | L_NONE, V_Out p :: args => Some ([], [(p, 32, uwrap 32 n)], args)
    | L_h, V_Out p :: args => Some ([], [(p, 16, uwrap 16 n)], args)
    | (L_l | L_ll | L_j | L_z | L_t), V_Out p :: args => Some ([], [(p, 64, uwrap 64 n)], args)
    | _, _ => None
    end
  end.

Definition lit_char (c : Z) : Prop := ascii c /\ c <> 37.

#[global] Instance lit_char_dec c : Decision (lit_char c).
Proof. unfold lit_char. apply _. Defined.

(** What is printed after [n] characters, and what is stored. *)
Fixpoint c_printf (items : list item) (n : Z) args : option (list Z * list (nat * Z * Z)) :=
  match items with
  | [] => Some ([], [])
  | Lit l :: items =>
    if decide (Forall lit_char l) then '(text, st) ← c_printf items (n + blen l) args; Some (l ++ text, st) else None
  | Percent :: items => '(text, st) ← c_printf items (n + 1) args; Some (37 :: text, st)
  | Dir d :: items =>
    '(t, s, args) ← c_dir d n args;
    '(text, st) ← c_printf items (n + blen t) args; Some (t ++ text, s ++ st)
  end.

End Printf.
