(* ===== verification/StrFormatNum.v ===== *)
(** * Formatted integers

    The digits, the padding and the prefixes that the integer directives append
    are those of the C standard. *)

From Stdlib Require Import String Ascii.
From S2P Require Import Prelude Machine CString Heap StrData StrDataRefs StrDataOps StrDataValues StrFormat StrFormatSpec.

#[local] Abbreviation heap := (gmap addr strdata).
Implicit Types (h : heap) (R : list addr) (d data : addr) (l acc : list Z).

(** ** Digits *)

Definition tab_ok (tab : list Z) (b : Z) : Prop := 2 <= b <= blen tab /\ Forall ascii tab.

Lemma lower_ok b : 2 <= b <= 36 -> tab_ok lower_digits b.
Proof. intros H. split; [done|]. by apply (bool_decide_unpack _). Qed.
Lemma upper_ok b : 2 <= b <= 16 -> tab_ok upper_digits b.
Proof. intros H. split; [done|]. by apply (bool_decide_unpack _). Qed.

Lemma tab_digit tab b v : tab_ok tab b -> byte_at tab (v mod b) = Ret (default 63 (tab !! Z.to_nat (v mod b))) /\
  ascii (default 63 (tab !! Z.to_nat (v mod b))).
Proof.
  unfold blen. intros [Hb Ht]. pose proof (Z.mod_pos_bound v b ltac:(lia)).
  destruct (lookup_lt_is_Some_2 tab (Z.to_nat (v mod b))) as [c Hc]; [unfold blen in Hb; lia|]. rewrite Hc. simpl. split.
  - apply byte_at_ok; [done|lia].
  - by eapply Forall_lookup_1.
Qed.

Lemma o_push_ok l o_buf : blen l + blen o_buf <= 1024 -> o_push l o_buf = Ret (l ++ o_buf).
Proof. unfold blen. intros H. unfold o_push. by destruct (Z.ltb_spec 1024 (Z.of_nat (length l + length o_buf))); [lia|]. Qed.

Lemma digits_do_ok tab b fuel : forall v o_buf, tab_ok tab b -> 0 <= v < b ^ Z.of_nat fuel -> blen o_buf + Z.of_nat fuel <= 1024 ->
  (0 < fuel)%nat -> digits_do fuel tab b v o_buf = Ret (rev (rep_rev fuel tab b v) ++ o_buf).
Proof.
  induction fuel as [|fuel IH]; intros v o_buf Ht Hv Hl Hf; [lia|]. cbn [digits_do rep_rev].
  destruct (tab_digit tab b v Ht) as [-> _]. cbn [mbind res_bind]. set (c := default 63 _). pose proof (proj1 Ht) as Hb.
  rewrite o_push_ok by (unfold blen in *; simpl; lia). cbn [mbind res_bind app].
  rewrite Nat2Z.inj_succ, Z.pow_succ_r in Hv by lia.
  destruct (Z.eqb_spec (v / b) 0) as [E|E]; destruct (Z.ltb_spec v b) as [Hlt|Hlt]; try done.
  - apply Z.div_small_iff in E; [lia|]. lia.
  - destruct E. apply Z.div_small. lia.
  - assert (0 <= v / b < b ^ Z.of_nat fuel) as Hv' by (split; [apply Z.div_pos; lia|apply Z.div_lt_upper_bound; lia]).
    rewrite IH; [simpl; by rewrite <- app_assoc|done|done|unfold blen in *; simpl; lia|].
    destruct fuel; [|lia]. simpl in Hv'. lia.
Qed.

Lemma rep_props tab b v : tab_ok tab b -> 1 <= blen (rep tab b v) <= 65 /\ Forall ascii (rep tab b v).
Proof.
  intros Ht. unfold rep, blen. rewrite length_rev.
  assert (forall fuel n, Z.of_nat (length (rep_rev fuel tab b n)) <= Z.of_nat fuel /\ Forall ascii (rep_rev fuel tab b n)) as H.
  { induction fuel as [|fuel IH]; intros n; [by split|]. cbn [rep_rev]. destruct (tab_digit tab b n Ht) as [_ Hc].
    destruct (n <? b); [split; [simpl; lia|by constructor]|]. destruct (IH (n / b)) as [IH1 IH2]. split; [simpl length; lia|by constructor]. }
  assert (forall fuel n, 1 <= Z.of_nat (length (rep_rev (S fuel) tab b n))) as H'.
  { intros fuel n. cbn [rep_rev]. destruct (n <? b); simpl length; lia. }
  destruct (H 65%nat v) as [H1 H2]. split; [|by apply Forall_rev]. split; [|done]. apply (H' 64%nat).
Qed.

Lemma digits_rep tab b v : tab_ok tab b -> 0 <= v < 2 ^ 64 -> digits_do 65 tab b v [] = Ret (rep tab b v).
Proof.
  intros Ht Hv. rewrite digits_do_ok; [by rewrite app_nil_r|done| |unfold blen; simpl; lia|lia]. split; [lia|].
  apply Z.lt_le_trans with (2 ^ 64); [lia|]. transitivity (2 ^ Z.of_nat 65); [lia|]. apply Z.pow_le_mono_l. destruct Ht. lia.
Qed.

(** The digits denote the number, and do not begin with a zero unless it is zero. *)
Lemma rep_value v : 0 <= v < 2 ^ 64 -> fold_left (fun a c => a * 10 + (c - 48)) (rep lower_digits 10 v) 0 = v.
Proof.
  intros Hv. unfold rep. rewrite <- fold_left_rev_right, rev_involutive.
  assert (forall fuel n, 0 <= n < 10 ^ Z.of_nat fuel -> fold_right (fun c a => a * 10 + (c - 48)) 0 (rep_rev fuel lower_digits 10 n) = n) as H.
  { induction fuel as [|fuel IH]; intros n Hn; [simpl in *; lia|]. cbn [rep_rev]. rewrite Nat2Z.inj_succ, Z.pow_succ_r in Hn by lia.
    assert (forall x, 0 <= x < 10 -> default 63 (lower_digits !! Z.to_nat x) = 48 + x) as Hd.
    { intros x Hx. assert (x = 0 \/ x = 1 \/ x = 2 \/ x = 3 \/ x = 4 \/ x = 5 \/ x = 6 \/ x = 7 \/ x = 8 \/ x = 9) as Hc by lia.
      by repeat destruct Hc as [->|Hc]; [..|subst x]. }
    rewrite Hd by (apply Z.mod_pos_bound; lia). destruct (Z.ltb_spec n 10); simpl fold_right; [rewrite Z.mod_small; lia|].
    rewrite IH by divlia. divlia. }
  apply H. split; [lia|]. apply Z.lt_le_trans with (2 ^ 64); lia.
Qed.

(** ** What a function on the string being made appends *)

Definition prints (m : addr -> act heap addr) (l : list Z) : Prop :=
  forall h R data acc, wf h (data :: R) -> holds h data (false, acc) -> Z.of_nat (length acc) + Z.of_nat (length l) < 2 ^ 60 ->
    Z.of_nat (S (S (length R))) < 2 ^ 60 ->
    exists h' d', m data h = Ret (d', h') /\ wf h' (d' :: R) /\ holds h' d' (false, acc ++ l) /\ frame h h' R.

Lemma prints_ret : prints mret [].
Proof. intros h R data acc Hw Hh _ _. exists h, data. rewrite app_nil_r. split_and!; try done. apply frame_refl. Qed.

Lemma prints_seq m1 m2 l1 l2 : prints m1 l1 -> prints m2 l2 -> prints (fun d => d ← m1 d; m2 d) (l1 ++ l2).
Proof.
  intros H1 H2 h R data acc Hw Hh Hl Hr. rewrite length_app in Hl. destruct (H1 h R data acc Hw Hh) as (h1 & d1 & E1 & W1 & K1 & F1); [lia|done|].
  destruct (H2 h1 R d1 (acc ++ l1) W1 K1) as (h2 & d2 & E2 & W2 & K2 & F2); [rewrite length_app; lia|done|].
  exists h2, d2. unfold mbind, act_bind. rewrite E1, E2, app_assoc. split_and!; try done. eauto using frame_trans.
Qed.

Lemma prints_eq m1 m2 l1 l2 : prints m1 l1 -> (forall d h, m2 d h = m1 d h) -> l2 = l1 -> prints m2 l2.
Proof. intros H1 Hm -> h R data acc Hw Hh Hl Hr. rewrite Hm. by apply H1. Qed.

Section Num.
Variables bgarbage wgarbage : Z.
#[local] Abbreviation appendAscii := (appendAscii bgarbage wgarbage).
#[local] Abbreviation appendAsciiChars := (appendAsciiChars bgarbage wgarbage).

Lemma prints_ascii l : Forall ascii l -> prints (fun d => appendAscii d l) l.
Proof.
  intros Ha h R data acc Hw Hh Hl Hr. destruct (appendAscii_ok bgarbage wgarbage h R data (false, acc) l Hw Hh) as (h' & d' & E & W & _ & K & F); try done; [by right|].
  by exists h', d'.
Qed.

Lemma prints_chars c n : ascii c -> 0 <= n -> prints (fun d => appendAsciiChars d c n) (repeat c (Z.to_nat n)).
Proof.
  intros Ha Hn h R data acc Hw Hh Hl Hr. rewrite repeat_length in Hl.
  destruct (appendAsciiChars_ok bgarbage wgarbage h R data (false, acc) c (Z.to_nat n) Hw Hh) as (h' & d' & E & W & _ & K & F).
  - unfold ascii, byte_ok in *. lia.
  - right. by constructor.
  - done.
  - done.
  - exists h', d'. rewrite Z2Nat.id in E by done. done.
Qed.

(** ** Padding *)

Definition pad_field (minus zero : bool) (w : Z) (prefix body : list Z) : list Z :=
  let pad := w - blen (prefix ++ body) in
  if minus then prefix ++ body ++ spaces pad
  else if zero then prefix ++ zeros pad ++ body else spaces pad ++ prefix ++ body.

Lemma fill_prec_ok p l : 0 <= p < 16 -> blen l <= 80 -> fill_prec p l = Ret (0, zeros (p - blen l) ++ l).
Proof.
  intros Hp Hl. unfold fill_prec. unfold blen in *. rewrite (swrap_id 64) by (done || (unfold in_s; lia)).
  destruct (Z.ltb_spec 0 (p - Z.of_nat (length l))) as [H|H].
  - destruct (Z.ltb_spec (p - Z.of_nat (length l)) 16); [|lia]. rewrite o_push_ok; [done|]. unfold blen, zeros. rewrite repeat_length. lia.
  - unfold zeros. by replace (Z.to_nat (p - Z.of_nat (length l))) with O by lia.
Qed.

Lemma ascii_zeros n : Forall ascii (zeros n).
Proof. by apply Forall_repeat. Qed.
Lemma ascii_spaces n : Forall ascii (spaces n).
Proof. by apply Forall_repeat. Qed.

Lemma prints_zeros n : 0 <= n -> prints (fun d => appendAsciiChars d 48 n) (zeros n).
Proof. intros H. by apply prints_chars. Qed.
Lemma prints_spaces n : 0 <= n -> prints (fun d => appendAsciiChars d 32 n) (spaces n).
Proof. intros H. by apply prints_chars. Qed.

(** The buffer, then spaces for what is left of the width. *)
Lemma prints_tail l w : Forall ascii l ->
  prints (fun d => d ← appendAscii d l; if 0 <? w then appendAsciiChars d 32 w else mret d) (l ++ spaces w).
Proof.
  intros Hl. apply prints_seq; [by apply prints_ascii|]. destruct (Z.ltb_spec 0 w); [apply prints_spaces; lia|].
  unfold spaces. replace (Z.to_nat w) with O by lia. apply prints_ret.
Qed.

Lemma prints_last l : Forall ascii l -> prints (fun d => d ← appendAscii d l; mret d) l.
Proof. intros Hl. eapply prints_eq; [apply (prints_seq _ _ _ _ (prints_ascii l Hl) prints_ret)|done|by rewrite app_nil_r]. Qed.

Lemma blen_app l1 l2 : blen (l1 ++ l2) = blen l1 + blen l2.
Proof. unfold blen. rewrite length_app. lia. Qed.
Lemma blen_zeros n : blen (zeros n) = Z.max 0 n.
Proof. unfold blen, zeros. rewrite repeat_length. lia. Qed.
Lemma blen_spaces n : blen (spaces n) = Z.max 0 n.
Proof. unfold blen, spaces. rewrite repeat_length. lia. Qed.

(** The calls that both integer functions end in, [w] being what is missing of the width. *)
Definition plan (minus zero : bool) (w : Z) (prefix body : list Z) (d : addr) : act heap addr :=
  if (0 <? w) && negb minus then
    if 16 <? w then
      if zero then
        d ← (if decide (prefix = []) then mret d else appendAscii d prefix); d ← appendAsciiChars d 48 w; d ← appendAscii d body; mret d
      else d ← appendAsciiChars d 32 w; d ← appendAscii d (prefix ++ body); mret d
    else if zero then d ← appendAscii d (prefix ++ zeros w ++ body); mret d
    else d ← appendAscii d (spaces w ++ prefix ++ body); mret d
  else d ← appendAscii d (prefix ++ body); if 0 <? w then appendAsciiChars d 32 w else mret d.

Lemma plan_prints minus zero width prefix body : Forall ascii prefix -> Forall ascii body ->
  prints (plan minus zero (width - blen (prefix ++ body)) prefix body) (pad_field minus zero width prefix body).
Proof.
  intros Hp Hb. unfold plan, pad_field. set (w := width - blen (prefix ++ body)). pose proof (ascii_zeros w). pose proof (ascii_spaces w).
  assert (Forall ascii (prefix ++ body)) as Hpb by (by apply Forall_app).
  destruct minus; [rewrite andb_false_r, app_assoc; by apply prints_tail|].
  destruct (Z.ltb_spec 0 w) as [Hw|Hw]; cbn [andb negb].
  - destruct (Z.ltb_spec 16 w), zero.
    + apply prints_seq; [case_decide as E; [rewrite E; apply prints_ret|by apply prints_ascii]|].
      apply prints_seq; [apply prints_zeros; lia|by apply prints_last].
    + apply prints_seq; [apply prints_spaces; lia|by apply prints_last].
    + apply prints_last. by rewrite !Forall_app.
    + apply prints_last. by rewrite !Forall_app.
  - unfold zeros, spaces. replace (Z.to_nat w) with O by lia. cbn [repeat app].
    eapply prints_eq; [by apply prints_last|done|by destruct zero].
Qed.

Definition sign_list (s : option Z) : list Z := match s with Some c => [c] | None => [] end.

Lemma push_sign s l : blen l <= 100 -> (match s with Some c => o_push [c] l | None => Ret l end) = Ret (sign_list s ++ l).
Proof. intros H. destruct s; [|done]. by rewrite o_push_ok by (unfold blen in *; simpl; lia). Qed.

(** Runs the calls of a branch, and pushes what fits in the buffer. *)
Ltac run_calls :=
  unfold mbind, act_bind, mret, act_ret;
  repeat (match goal with |- context [StrFormat.appendAsciiChars bgarbage wgarbage ?d ?c ?n ?h] =>
    destruct (StrFormat.appendAsciiChars bgarbage wgarbage d c n h) as [[]| | |]; [|done..] end).

Lemma format_long_plan k s o_buf d h : 0 <= prec k < 16 -> 1 <= blen o_buf <= 65 -> 0 <= width k < 2 ^ 31 ->
  (has (output k) F_ZERO = true -> has (output k) F_MINUS = false -> is_set s = true -> width k <= 17) ->
  let body := zeros (prec k - blen o_buf) ++ o_buf in
  format_long_common bgarbage wgarbage k s o_buf d h =
    plan (has (output k) F_MINUS) (has (output k) F_ZERO) (width k - blen (sign_list s ++ body)) (sign_list s) body d h.
Proof.
  intros Hp Hb Hw Hz body. assert (1 <= blen body <= 81) as Hbl by (unfold body; rewrite blen_app, blen_zeros; lia).
  assert (blen (sign_list s) = Z.b2z (is_set s) /\ 0 <= Z.b2z (is_set s) <= 1) as [Hsl Hs1] by (by destruct s).
  unfold plan. set (w := width k - blen (sign_list s ++ body)). assert (blen (sign_list s ++ body) = Z.b2z (is_set s) + blen body) as Hsb by (rewrite blen_app; lia).
  unfold format_long_common. rewrite fill_prec_ok by lia. unfold mbind at 1, act_bind at 1. cbn [lift]. fold body.
  replace (s64 (width k - (blen body + 0 + Z.b2z (is_set s)))) with w by (rewrite (swrap_id 64) by (done || (unfold in_s; lia)); unfold w; lia).
  change (0 <? 0) with false. cbn [orb].
  destruct ((0 <? w) && negb (has (output k) F_MINUS)) eqn:Ec.
  2: { unfold mbind, act_bind, mret, act_ret. destruct s as [c|]; [|done]. cbn [lift sign_list]. by rewrite o_push_ok by (unfold blen in *; simpl in *; lia). }
  apply andb_prop in Ec as [Hw0 Em]. apply Z.ltb_lt in Hw0. apply negb_true_iff in Em.
  destruct (Z.ltb_spec 16 w) as [Hw1|Hw1], (has (output k) F_ZERO) eqn:Ez.
  - assert (s = None) as -> by (destruct s; [|done]; specialize (Hz eq_refl Em eq_refl); lia). cbn [sign_list app]. rewrite decide_True by done. by run_calls.
  - run_calls. destruct s as [c|]; [|done]. cbn [lift sign_list]. by rewrite o_push_ok by (unfold blen in *; simpl in *; lia).
  - run_calls. rewrite o_push_ok by (rewrite blen_zeros; lia). cbn [lift]. destruct s as [c|]; [|done]. cbn [lift sign_list].
    by rewrite o_push_ok by (rewrite blen_app, blen_zeros; unfold blen in *; simpl in *; lia).
  - run_calls. rewrite push_sign by lia. cbn [lift]. by rewrite o_push_ok by (rewrite blen_spaces; lia).
Qed.

Definition prefix_list (signlen c : Z) : list Z := if signlen =? 0 then [] else if signlen =? 1 then [48] else [48; c].

Lemma push_prefix_ok signlen c l : (signlen = 1 \/ signlen = 2) -> blen l <= 100 -> push_prefix signlen c l = Ret (prefix_list signlen c ++ l).
Proof.
  intros Hs Hl. unfold push_prefix, prefix_list. unfold blen in *. destruct Hs as [-> | ->]; [change (1 <? 1) with false|change (1 <? 2) with true]; cbn [mbind res_bind].
  - by rewrite o_push_ok by (unfold blen; simpl; lia).
  - rewrite o_push_ok by (unfold blen; simpl; lia). cbn [mbind res_bind]. by rewrite o_push_ok by (unfold blen; simpl; lia).
Qed.

Lemma format_ulong_plan k c sl o_buf d h : 0 <= prec k < 16 -> 1 <= blen o_buf <= 65 -> 0 <= width k < 2 ^ 31 ->
  (sl = 0 \/ sl = 1 \/ sl = 2 /\ c = if has (output k) F_BIG then 88 else 120) ->
  let body := zeros (prec k - blen o_buf) ++ o_buf in
  let prefix := prefix_list (if (0 <? prec k - blen o_buf) && (sl =? 1) then 0 else sl) c in
  format_ulong_common bgarbage wgarbage k c sl o_buf d h =
    plan (has (output k) F_MINUS) (has (output k) F_ZERO) (width k - blen (prefix ++ body)) prefix body d h.
Proof.
  intros Hp Hb Hw Hsl body prefix. assert (1 <= blen body <= 81) as Hbl by (unfold body; rewrite blen_app, blen_zeros; lia).
  unfold plan. set (w := width k - blen (prefix ++ body)). unfold format_ulong_common. rewrite fill_prec_ok by lia. unfold mbind at 1, act_bind at 1. cbn [lift]. fold body.
  rewrite (swrap_id 64 (prec k - _)) by (done || (unfold in_s; lia)). set (s := if (0 <? prec k - blen o_buf) && (sl =? 1) then 0 else sl) in *.
  assert (s = 0 \/ s = 1 \/ s = 2 /\ c = if has (output k) F_BIG then 88 else 120) as Hs by (unfold s; destruct ((0 <? prec k - blen o_buf) && (sl =? 1)); auto).
  assert (blen prefix = s) as Hpl by (unfold prefix, prefix_list; by destruct Hs as [-> |[-> |[-> _]]]).
  assert (blen (prefix ++ body) = s + blen body) as Hsb by (rewrite blen_app; lia). assert (0 <= s <= 2) as Hs2 by lia.
  replace (s64 (width k - (blen body + 0 + s))) with w by (rewrite (swrap_id 64) by (done || (unfold in_s; lia)); unfold w; lia).
  change (0 <? 0) with false. cbn [orb].
  destruct (Z.eqb_spec s 0) as [E|E].
  - assert (prefix = []) as -> by (unfold prefix; by rewrite E). cbn [app]. rewrite decide_True by done. rewrite E.
    destruct ((0 <? w) && negb (has (output k) F_MINUS)) eqn:Ec; [|done]. apply andb_prop in Ec as [Hw0 Em]. apply Z.ltb_lt in Hw0.
    destruct (Z.ltb_spec 16 w), (has (output k) F_ZERO); run_calls; try done.
    + by rewrite o_push_ok by (rewrite blen_zeros; lia).
    + cbn [lift]. by rewrite o_push_ok by (rewrite blen_spaces; lia).
  - assert (forall l, blen l <= 100 -> push_prefix s c l = Ret (prefix ++ l)) as Hpush by (intros l Hl; apply push_prefix_ok; [lia|done]).
    assert (take (Z.to_nat s) (chars (if has (output k) F_BIG then "0X" else "0x")) = prefix /\ prefix <> []) as [Htake Hne].
    { unfold prefix, prefix_list. destruct Hs as [?|[-> |[-> ->]]]; [done|by destruct (has (output k) F_BIG)..]. }
    rewrite Htake, decide_False by done. cbn [negb].
    destruct ((0 <? w) && negb (has (output k) F_MINUS)) eqn:Ec.
    2: { unfold mbind, act_bind, mret, act_ret. cbn [lift]. destruct (Z.eqb_spec s 0); [done|]. cbn [negb lift]. by rewrite Hpush by lia. }
    apply andb_prop in Ec as [Hw0 Em]. apply Z.ltb_lt in Hw0.
    destruct (Z.ltb_spec 16 w), (has (output k) F_ZERO).
    + unfold mbind, act_bind, mret, act_ret. destruct (StrFormat.appendAscii bgarbage wgarbage d prefix h) as [[]| | |]; try done. by run_calls.
    + run_calls. destruct (Z.eqb_spec s 0); [done|]. cbn [negb lift]. by rewrite Hpush by lia.
    + run_calls. rewrite o_push_ok by (rewrite blen_zeros; lia). cbn [lift]. destruct (Z.eqb_spec s 0); [done|]. cbn [negb lift].
      by rewrite Hpush by (rewrite blen_app, blen_zeros; lia).
    + run_calls. rewrite Hpush by lia. cbn [lift]. by rewrite o_push_ok by (rewrite blen_spaces; lia).
Qed.

End Num.
