(* ===== verification/StrFormatOk.v ===== *)
(** * Formatted output is the standard's

    The parser reads back what a directive is written as, each conversion appends
    what the standard says, and so does the loop on a whole format string. *)

From Stdlib Require Import String Ascii.
From S2P Require Import Prelude Machine CString Heap StrData StrDataRefs StrDataOps StrDataValues StrFormat StrFormatSpec StrFormatNum.

#[local] Abbreviation heap := (gmap addr strdata).
Implicit Types (h : heap) (R : list addr) (data : addr) (l acc more : list Z) (d : directive).

(** ** Flags *)

Lemma has_lor a b f : has (Z.lor a b) f = has a f || has b f.
Proof.
  unfold has. rewrite Z.land_lor_distr_l. destruct (Z.eqb_spec (Z.land a f) 0) as [Ea|Ea]; [rewrite Ea, Z.lor_0_l; by destruct (_ =? 0)|].
  destruct (Z.eqb_spec (Z.lor (Z.land a f) (Z.land b f)) 0) as [E|E]; [|by destruct (_ =? 0)]. apply Z.lor_eq_0_iff in E as [E _]. done.
Qed.

Definition flag_code (f : flag) : Z := match f with Minus => F_MINUS | Plus => F_PLUS | Zero => F_ZERO | Space => F_SPACE | Alt => F_ALT end.

(** The flags word of a directive before its type is known. *)
Record good d (o : Z) : Prop := {
  good_flag : forall f, has o (flag_code f) = has_flag d f;
  good_type : Z.land o 7 = 0;
  good_big : has o F_BIG = false;
}.

Lemma good_width d o : good d o -> good d (Z.lor o F_WIDTH) /\ good d (Z.lor o F_PREC).
Proof.
  intros [H1 H2 H3]. split; split.
  1,4: intros f; rewrite has_lor, H1; by destruct (has_flag d f), f.
  1,3: by rewrite Z.land_lor_distr_l, H2. all: by rewrite has_lor, H3.
Qed.

Lemma s_flag_flags (fl : list flag) more : forall o w p n, exists o',
  s_flag (map show_flag fl ++ more) (mk_conv o w p n) = s_flag more (mk_conv o' w p n) /\
  (forall f, has o' (flag_code f) = has o (flag_code f) || bool_decide (f ∈ fl)) /\ Z.land o' 7 = Z.land o 7 /\ has o' F_BIG = has o F_BIG.
Proof.
  induction fl as [|g fl IH]; intros o w p n.
  - exists o. split_and!; try done. intros f. by rewrite bool_decide_eq_false_2, orb_false_r by apply not_elem_of_nil.
  - destruct (IH (Z.lor o (flag_code g)) w p n) as (o' & E & H1 & H2 & H3). exists o'. split_and!.
    + rewrite <- E. cbn [map app s_flag]. replace (is_type (show_flag g)) with false by (by destruct g). by destruct g.
    + intros f. rewrite H1, has_lor. replace (has (flag_code g) (flag_code f)) with (bool_decide (f = g)) by (by destruct f, g).
      rewrite <- orb_assoc. f_equal. rewrite <- bool_decide_or. apply bool_decide_ext. by rewrite elem_of_cons.
    + rewrite H2, Z.land_lor_distr_l. by replace (Z.land (flag_code g) 7) with 0 by (by destruct g); rewrite Z.lor_0_r.
    + rewrite H3, has_lor. by replace (has (flag_code g) F_BIG) with false by (by destruct g); rewrite orb_false_r.
Qed.

Lemma s_flag_stop c more k : c ∉ [45; 43; 48; 32; 35; 37] -> s_flag (c :: more) k = (if is_type c then To_type else To_width, c :: more, k).
Proof.
  intros Hc. rewrite !not_elem_of_cons in Hc. destruct Hc as (H1 & H2 & H3 & H4 & H5 & H6 & _). cbn [s_flag]. destruct (is_type c); [done|]. by ztest.
Qed.

(** ** Widths and precisions *)

Lemma digit_not_type c : isdigit c = true -> is_type c = false.
Proof.
  intros Hc. apply isdigit_bounds in Hc. assert (c = 48 \/ c = 49 \/ c = 50 \/ c = 51 \/ c = 52 \/ c = 53 \/ c = 54 \/ c = 55 \/ c = 56 \/ c = 57) as H by lia.
  repeat (destruct H as [-> |H]; [reflexivity|]). by subst c.
Qed.

Definition digits_value (ds : list Z) (x : Z) : Z := fold_left (fun a c => 10 * a + c - 48) ds x.

Lemma digits_value_ge ds : forall x, Forall (fun c => isdigit c = true) ds -> 0 <= x -> x <= digits_value ds x.
Proof.
  induction ds as [|c ds IH]; intros x H Hx; [done|]. apply list.Forall_cons in H as [Hc H]. apply isdigit_bounds in Hc.
  unfold digits_value. cbn [fold_left]. pose proof (IH (10 * x + c - 48) H). unfold digits_value in *. lia.
Qed.

Lemma dec_digits_value n : 0 <= n -> digits_value (dec n) 0 = n.
Proof.
  intros Hn. unfold digits_value, dec. rewrite <- fold_left_rev_right, rev_involutive.
  etrans; [|apply (dec_rev_value (S (Z.to_nat (Z.log2 n))) n); split; [done|by apply dec_fuel]].
  induction (dec_rev (S (Z.to_nat (Z.log2 n))) n) as [|c l IH]; [done|]. simpl. rewrite IH. lia.
Qed.

Section Parse.
Variable ldouble : Type.
Implicit Types args : list (va ldouble).

Lemma s_width_digits d ds more : forall args o w p n, Forall (fun c => isdigit c = true) ds -> 0 <= w -> digits_value ds w < 2 ^ 62 -> good d o ->
  exists o', s_width ldouble (ds ++ more) args (mk_conv o w p n) = s_width ldouble more args (mk_conv o' (digits_value ds w) p n) /\ good d o'.
Proof.
  induction ds as [|c ds IH]; intros args o w p n H Hw Hv Hg; [by exists o|]. apply list.Forall_cons in H as [Hc H].
  cbn [app s_width]. rewrite (digit_not_type _ Hc), Hc. cbn [output width prec flength]. apply isdigit_bounds in Hc.
  pose proof (digits_value_ge ds (10 * w + c - 48) H ltac:(lia)) as Hle. unfold digits_value in *. cbn [fold_left] in *.
  rewrite (swrap_id 64) by (done || (unfold in_s; lia)). apply IH; [done|lia|done|by apply good_width].
Qed.

Lemma s_prec_digits d ds more : forall args o w p n, Forall (fun c => isdigit c = true) ds -> 0 <= p -> digits_value ds p < 2 ^ 62 -> good d o ->
  exists o', s_prec ldouble (ds ++ more) args (mk_conv o w p n) = s_prec ldouble more args (mk_conv o' w (digits_value ds p) n) /\ good d o'.
Proof.
  induction ds as [|c ds IH]; intros args o w p n H Hw Hv Hg; [by exists o|]. apply list.Forall_cons in H as [Hc H].
  cbn [app s_prec]. rewrite (digit_not_type _ Hc), Hc. cbn [output width prec flength]. apply isdigit_bounds in Hc.
  pose proof (digits_value_ge ds (10 * p + c - 48) H ltac:(lia)) as Hle. unfold digits_value in *. cbn [fold_left] in *.
  rewrite (swrap_id 64) by (done || (unfold in_s; lia)). apply IH; [done|lia|done|by apply good_width].
Qed.

(** The width, up to what follows it. *)
Lemma s_width_num d more args w args1 o n : c_num ldouble (dwidth d) args = Some (w, args1) -> good d o ->
  exists o', s_width ldouble (show_num (dwidth d) ++ more) args (mk_conv o 0 0 n) = s_width ldouble more args1 (mk_conv o' (default 0 w) 0 n) /\ good d o' /\
    0 <= default 0 w < 2 ^ 31.
Proof.
  intros E Hg. destruct (dwidth d) as [|x|]; cbn [c_num show_num app] in *.
  - injection E as <- <-. by exists o.
  - case_decide as Hx; [|done]. injection E as <- <-. destruct (s_width_digits d (dec x) more args o 0 0 n) as (o' & Eo & Hg'); try done.
    + apply dec_digits; lia.
    + rewrite dec_digits_value by lia. lia.
    + exists o'. rewrite Eo, dec_digits_value by lia. done.
  - destruct args as [|[x| | | | | |] args]; try done. case_decide as Hx; [|done]. injection E as <- <-. exists o. split_and!; try done.
    pose proof (swrap_range 32 x ltac:(done)) as Hr. unfold in_s in Hr. simpl in *. lia.
Qed.

Lemma is_type_cv c : is_type (show_cv c) = true.
Proof. by destruct c. Qed.

(** The length and the type of a directive, written. *)
Definition show_end d more : list Z := show_len (dlen d) ++ show_cv (dconv d) :: more.

Lemma s_end d more args k : dlen d <> L_hh ->
  exists go, s_width ldouble (show_end d more) args k = Ret (go, show_end d more, args, k) /\ s_prec ldouble (show_end d more) args k = Ret (go, show_end d more, args, k) /\
    go <> To_prec /\ (if decide (go = To_type) then (show_end d more, L_NONE) else s_length (show_end d more)) = (show_cv (dconv d) :: more, dlen d).
Proof.
  intros Hl. unfold show_end. destruct (dlen d) eqn:E; try done;
    [exists To_type|exists To_length..]; (split_and!; [by destruct (dconv d)|by destruct (dconv d)|done|]); by destruct (dconv d).
Qed.

(** The precision, up to the length. *)
Lemma s_prec_num d more args p args1 o w : c_num ldouble (dprec d) args = Some (p, args1) -> good d o -> dlen d <> L_hh ->
  exists o' go,
    ('(go, fmt, args, k) ← s_width ldouble (show_prec (dprec d) ++ show_end d more) args (mk_conv o w 0 L_NONE);
     (if decide (go = To_prec) then s_prec ldouble fmt args k else Ret (go, fmt, args, k))) =
    Ret (go, show_end d more, args1, mk_conv o' w (default 0 p) L_NONE) /\ good d o' /\ 0 <= default 0 p < 2 ^ 31 /\
    (if decide (go = To_type) then (show_end d more, L_NONE) else s_length (show_end d more)) = (show_cv (dconv d) :: more, dlen d).
Proof.
  intros E Hg Hl. destruct (dprec d) as [|x|]; cbn [c_num show_prec show_num app] in *.
  - injection E as <- <-. destruct (s_end d more args (mk_conv o w 0 L_NONE) Hl) as (go & E1 & E2 & Hgo & Hend). exists o, go.
    rewrite E1. cbn [mbind res_bind]. rewrite decide_False by done. done.
  - case_decide as Hx; [|done]. injection E as <- <-. cbn [s_width]. change (is_type 46) with false. change (isdigit 46) with false. change (46 =? 46) with true.
    cbn [mbind res_bind]. rewrite decide_True by done.
    destruct (s_prec_digits d (dec x) (show_end d more) args o w 0 L_NONE) as (o' & Eo & Hg'); [apply dec_digits; lia|done|rewrite dec_digits_value; lia|done|].
    rewrite dec_digits_value in Eo by lia. rewrite Eo. destruct (s_end d more args (mk_conv o' w x L_NONE) Hl) as (go & E1 & E2 & Hgo & Hend).
    exists o', go. rewrite E2. done.
  - destruct args as [|[x| | | | | |] args]; try done. case_decide as Hx; [|done]. injection E as <- <-.
    cbn [s_width]. change (is_type 46) with false. change (isdigit 46) with false. change (46 =? 46) with true.
    cbn [mbind res_bind]. rewrite decide_True by done. cbn [s_prec]. change (is_type 42) with false. change (isdigit 42) with false. change (42 =? 42) with true.
    cbn [prec output width flength]. change (negb (0 =? 0)) with false. cbn [va_32 mbind res_bind]. exists o, To_length. split_and!; try done.
    + pose proof (swrap_range 32 x ltac:(done)) as Hr. unfold in_s in Hr. simpl in *. lia.
    + rewrite decide_False by done. unfold show_end. by destruct (dlen d), (dconv d).
Qed.

(** The directive read is the one written. *)
Lemma s_read_dir d more args w args1 p args2 : c_num ldouble (dwidth d) args = Some (w, args1) -> c_num ldouble (dprec d) args1 = Some (p, args2) ->
  dwidth d <> Num 0 -> dlen d <> L_hh ->
  exists o, good d o /\ 0 <= default 0 w < 2 ^ 31 /\ 0 <= default 0 p < 2 ^ 31 /\
    s_read ldouble (show_dir d ++ more) args =
      '(ot, k) ← s_type (show_cv (dconv d)) (mk_conv o (default 0 w) (default 0 p) (dlen d)); Ret (P_conv ot k (show_cv (dconv d)) more args2).
Proof.
  intros Ew Ep Hw0 Hl. destruct (s_flag_flags (dflags d) (show_num (dwidth d) ++ show_prec (dprec d) ++ show_end d more) 0 0 0 L_NONE) as (o1 & E1 & G1 & G2 & G3).
  assert (good d o1) as Hg1 by (split; [intros f; rewrite G1; by destruct f|by rewrite G2|by rewrite G3]).
  destruct (s_width_num d (show_prec (dprec d) ++ show_end d more) args w args1 o1 L_NONE Ew Hg1) as (o2 & E2 & Hg2 & Hw).
  destruct (s_prec_num d more args1 p args2 o2 (default 0 w) Ep Hg2 Hl) as (o3 & go & E3 & Hg3 & Hp & Hend).
  exists o3. split_and!; [done|lia|lia|lia|lia|]. unfold s_read, show_dir. rewrite <- !app_assoc. change ([show_cv (dconv d)] ++ more) with (show_cv (dconv d) :: more). fold (show_end d more). rewrite E1.
  assert (exists c r, show_num (dwidth d) ++ show_prec (dprec d) ++ show_end d more = c :: r /\ c ∉ [45; 43; 48; 32; 35; 37]) as (c & r & Ec & Hc).
  { destruct (dwidth d) as [|x|] eqn:Ed; cbn [show_num].
    - destruct (dprec d); [|by eexists _, _; split; [reflexivity|apply (bool_decide_unpack _)]..].
      unfold show_end. destruct (dlen d), (dconv d); (eexists _, _; split; [reflexivity|by apply (bool_decide_unpack _)]).
    - cbn [c_num] in Ew. destruct (decide (0 <= x < 2 ^ 31)); [|done]. destruct (dec_head x ltac:(lia)) as [[-> _]|(c & ds & -> & H48 & Hd)]; [congruence|]. eexists _, _. split; [reflexivity|].
      apply isdigit_bounds in Hd. rewrite !not_elem_of_cons. split_and!; try lia. apply not_elem_of_nil.
    - by eexists _, _; split; [reflexivity|apply (bool_decide_unpack _)]. }
  rewrite Ec in E2 |- *. rewrite s_flag_stop by done.
  assert (forall go0, go0 = (if is_type c then To_type else To_width) ->
    (if decide (go0 = To_type) then Ret (go0, c :: r, args, mk_conv o1 0 0 L_NONE) else s_width ldouble (c :: r) args (mk_conv o1 0 0 L_NONE)) =
    s_width ldouble (c :: r) args (mk_conv o1 0 0 L_NONE)) as Hskip.
  { intros go0 ->. cbn [s_width]. by destruct (is_type c). }
  destruct (is_type c) eqn:Et; cbv zeta; rewrite (Hskip _ eq_refl), E2.
  all: destruct (s_width ldouble (show_prec (dprec d) ++ show_end d more) args1 (mk_conv o2 (default 0 w) 0 L_NONE)) as [[[[g f] a] kk]| | |]; try done.
  all: cbn [mbind res_bind] in E3 |- *; rewrite E3; cbn [mbind res_bind]; rewrite Hend; done.
Qed.
End Parse.

(** ** Conversions *)

Lemma swrap_swrap m n x : 0 < m <= n -> swrap m (swrap n x) = swrap m x.
Proof.
  intros H. rewrite <- (swrap_uwrap m (swrap n x)), <- (swrap_uwrap m x) by lia. f_equal. unfold uwrap, swrap.
  assert (2 ^ n = 2 ^ m * 2 ^ (n - m)) as -> by (rewrite <- Z.pow_add_r by lia; f_equal; lia).
  assert (0 < 2 ^ m) by (apply Z.pow_pos_nonneg; lia). assert (0 < 2 ^ (n - m)) by (apply Z.pow_pos_nonneg; lia).
  rewrite <- Zminus_mod_idemp_l. rewrite Z.rem_mul_r by lia. rewrite (Z.mul_comm (2 ^ m)), Z_mod_plus_full, Z.mod_mod by lia.
  rewrite Zminus_mod_idemp_l. f_equal. lia.
Qed.

Lemma rep_head v b tab : tab_ok tab b -> (forall x, 0 < x < b -> default 63 (tab !! Z.to_nat x) <> 48) -> 0 < v < 2 ^ 64 -> deref (rep tab b v) <> 48.
Proof.
  intros Ht H48 Hv. destruct Ht as [Hb _]. unfold rep.
  assert (forall fuel n l, 0 < n < b ^ Z.of_nat fuel -> deref (rev (rep_rev fuel tab b n) ++ l) <> 48) as H.
  { induction fuel as [|fuel IH]; intros n l Hn; [simpl in Hn; lia|]. cbn [rep_rev]. rewrite Nat2Z.inj_succ, Z.pow_succ_r in Hn by lia.
    destruct (Z.ltb_spec n b); simpl rev.
    - simpl. apply H48. rewrite Z.mod_small; lia.
    - rewrite <- app_assoc. apply IH. split; [apply Z.div_str_pos; lia|apply Z.div_lt_upper_bound; lia]. }
  rewrite <- (app_nil_r (rev _)). apply H. split; [lia|]. apply Z.lt_le_trans with (2 ^ 64); [lia|]. transitivity (2 ^ Z.of_nat 65); [lia|]. apply Z.pow_le_mono_l. lia.
Qed.

Lemma zeros_comm n l : 48 :: zeros n ++ l = zeros n ++ 48 :: l.
Proof. unfold zeros. induction (Z.to_nat n) as [|k IH]; [done|]. simpl. by rewrite <- IH. Qed.

Section Convert.
Variables bgarbage wgarbage : Z.

(** The precision of a number that is printed with digits. *)
Lemma c_digits_body tab b v p : tab_ok tab b -> (v =? 0) && bool_decide (p = Some 0) = false ->
  c_digits tab b v p = zeros (default 0 p - blen (rep tab b v)) ++ rep tab b v.
Proof.
  intros Ht H. unfold c_digits. rewrite H. destruct (rep_props tab b v Ht) as [Hl _]. destruct p as [p|]; [done|].
  f_equal. unfold zeros. by replace (Z.to_nat (default 1 None - blen (rep tab b v))) with O by (simpl; lia); replace (Z.to_nat (default 0 None - blen (rep tab b v))) with O by (simpl; lia).
Qed.

Lemma c_field_pad d w p prefix body : negb (has_flag d Zero) || bool_decide (p = None) = true ->
  c_field d w p prefix body = pad_field (has_flag d Minus) (has_flag d Zero) (default 0 w) prefix body.
Proof.
  intros H. unfold c_field, pad_field. destruct (has_flag d Minus); [done|]. destruct (has_flag d Zero); [|done]. simpl in H. by rewrite H.
Qed.

Lemma number_ok_facts d w p v : number_ok d w p v = true ->
  default 0 p < 16 /\ (v =? 0) && bool_decide (p = Some 0) = false /\ negb (has_flag d Zero) || bool_decide (p = None) = true /\ dwidth d <> Num 0.
Proof.
  unfold number_ok. intros H. apply andb_prop in H as [H H4]. apply andb_prop in H as [H H3]. apply andb_prop in H as [H1 H2].
  split_and!; [by apply Z.ltb_lt|by apply negb_true_iff|done|]. by apply negb_true_iff, bool_decide_eq_false in H4.
Qed.

Lemma format_int_prints d o w p n v : good d o -> 0 <= default 0 w < 2 ^ 31 -> 0 <= default 0 p -> in_s 64 v -> signed_ok d w p v = true ->
  prints (format_int bgarbage wgarbage (mk_conv (Z.lor o O_Decimal) (default 0 w) (default 0 p) n) v) (c_signed d w p v).
Proof.
  intros [G1 _ _] Hw Hp Hv Hok. pose proof (G1 Minus) as GM. pose proof (G1 Zero) as GZ. pose proof (G1 Plus) as GP. cbn [flag_code] in GM, GZ, GP. clear G1. unfold signed_ok in Hok. apply andb_prop in Hok as [Hok Hz]. apply andb_prop in Hok as [Hok Hsp].
  destruct (number_ok_facts _ _ _ _ Hok) as (Hp16 & H0 & Hzp & _). apply negb_true_iff in Hsp.
  pose proof (lower_ok 10 ltac:(lia)) as Ht. destruct (rep_props lower_digits 10 (Z.abs v) Ht) as [Hl Ha].
  unfold in_s in Hv. simpl in Hv. set (s := if v <? 0 then Some 45 else if has_flag d Plus then Some 43 else None).
  rewrite Z.lor_0_r. set (k := mk_conv o (default 0 w) (default 0 p) n).
  assert (c_signed d w p v = pad_field (has o F_MINUS) (has o F_ZERO) (default 0 w) (sign_list s) (zeros (default 0 p - blen (rep lower_digits 10 (Z.abs v))) ++ rep lower_digits 10 (Z.abs v))) as ->.
  { unfold c_signed. rewrite c_field_pad by done. rewrite GM, GZ, c_digits_body by (done || by replace (Z.abs v =? 0) with (v =? 0) by (destruct (Z.eqb_spec v 0), (Z.eqb_spec (Z.abs v) 0); lia)).
    f_equal. unfold s. rewrite Hsp. by destruct (v <? 0), (has_flag d Plus). }
  eapply prints_eq; [apply (plan_prints bgarbage wgarbage)| |reflexivity].
  - unfold s. destruct (v <? 0); [|destruct (has_flag d Plus)]; repeat constructor; done.
  - apply Forall_app. split; [apply ascii_zeros|done].
  - intros data h. unfold format_int. change (output k) with o.
    assert ((if v <? 0 then (Some 45, s64 (- v)) else ((if has o F_PLUS then Some 43 else None), v)) = (s, if v <? 0 then s64 (- v) else v)) as ->.
    { unfold s. rewrite GP. by destruct (v <? 0). }
    assert (u64 (if v <? 0 then s64 (- v) else v) = Z.abs v) as ->.
    { destruct (Z.ltb_spec v 0); [rewrite uwrap_swrap by done|]; rewrite (uwrap_id 64) by (unfold in_u; lia); lia. }
    rewrite digits_rep by (done || lia). unfold mbind, act_bind. cbn [lift].
    rewrite (format_long_plan bgarbage wgarbage k s); [done|cbn; lia|done|cbn; lia|].
    cbn [output width k]. rewrite GZ, GM. intros E1 E2 E3. rewrite E1, E2 in Hz. simpl in Hz. apply orb_prop in Hz as [Hz|Hz]; [|apply Z.leb_le in Hz; lia].
    apply andb_prop in Hz as [Hz1 Hz2]. apply Z.leb_le in Hz1. apply negb_true_iff in Hz2. unfold s in E3. rewrite Hz2 in E3. by destruct (Z.ltb_spec v 0); [lia|].
Qed.

(** The base, the digits and the prefix of an unsigned conversion. *)
Definition base_of (c : cv) : Z * list Z := match c with C_b => (2, lower_digits) | C_o => (8, lower_digits) | C_x => (16, lower_digits) | C_X => (16, upper_digits) | _ => (10, lower_digits) end.

Definition type_code (c : cv) : Z := match c with C_b => O_Binary | C_o => O_Octal | C_u => O_Unsigned | C_x => O_Hexa | C_X => Z.lor O_Hexa F_BIG | _ => O_Decimal end.

Definition is_unsigned (c : cv) : bool := bool_decide (c ∈ [C_b; C_o; C_u; C_x; C_X]).

Lemma base_tab c : is_unsigned c = true -> tab_ok (base_of c).2 (base_of c).1.
Proof. intros H. destruct c; try done; (apply lower_ok || apply upper_ok); done. Qed.

Lemma good_lor d o c f : good d o -> is_unsigned c = true -> has (Z.lor o (type_code c)) (flag_code f) = has_flag d f.
Proof. intros [H _ _] Hc. rewrite has_lor, H. destruct c; try done; destruct f; by rewrite orb_false_r. Qed.

Lemma good_lor_big d o c : good d o -> is_unsigned c = true -> has (Z.lor o (type_code c)) F_BIG = bool_decide (c = C_X).
Proof. intros [_ _ H] Hc. rewrite has_lor, H. by destruct c. Qed.

Lemma uint_base_ok d o v : good d o -> is_unsigned (dconv d) = true ->
  uint_base (Z.lor o (type_code (dconv d))) v =
    Ret (base_of (dconv d), match dconv d with C_o => if has_flag d Alt && negb (v =? 0) then 1 else 0 | C_x | C_X => if has_flag d Alt then 2 else 0 | _ => 0 end).
Proof.
  intros Hg Hc. unfold uint_base. pose proof (good_lor d o (dconv d) Alt Hg Hc) as HA. pose proof (good_lor_big d o (dconv d) Hg Hc) as HB. cbn [flag_code] in HA.
  rewrite HA, HB. change O_TypeMask with 7. rewrite Z.land_lor_distr_l, (good_type _ _ Hg), Z.lor_0_l. by destruct (dconv d).
Qed.

(** The characters before the digits, as the code and as the standard have them. *)
Lemma unsigned_text d w p v : is_unsigned (dconv d) = true -> 0 <= v < 2 ^ 64 -> 0 <= default 0 p -> unsigned_ok d w p v = true ->
  let '(b, tab) := base_of (dconv d) in
  let sl := match dconv d with C_o => if has_flag d Alt && negb (v =? 0) then 1 else 0 | C_x | C_X => if has_flag d Alt then 2 else 0 | _ => 0 end in
  c_unsigned d w p v = pad_field (has_flag d Minus) (has_flag d Zero) (default 0 w)
    (prefix_list (if (0 <? default 0 p - blen (rep tab b v)) && (sl =? 1) then 0 else sl) (show_cv (dconv d)))
    (zeros (default 0 p - blen (rep tab b v)) ++ rep tab b v).
Proof.
  intros Hc Hv Hp Hok. apply andb_prop in Hok as [Hok Ha]. destruct (number_ok_facts _ _ _ _ Hok) as (Hp16 & H0 & Hzp & _).
  pose proof (base_tab _ Hc) as Ht. destruct (base_of (dconv d)) as [b tab] eqn:Eb. cbn [fst snd] in Ht. cbv zeta.
  pose proof (c_digits_body tab b v p Ht H0) as Hd. unfold c_unsigned.
  destruct (dconv d); try done; cbn [base_of] in Eb; injection Eb as <- <-; rewrite Hd, c_field_pad by done.
  - by destruct (_ <? _).
  - set (r := rep lower_digits 8 v) in *. set (z := zeros (default 0 p - blen r)).
    destruct (Z.eqb_spec v 0) as [-> |Hv0].
    { assert (deref (z ++ r) = 48) as -> by (unfold z, zeros; by destruct (Z.to_nat (default 0 p - blen r))). change (negb (48 =? 48)) with false.
      cbn [negb]. by rewrite !andb_false_r. }
    destruct (has_flag d Alt); cbn [andb negb]; [|by rewrite andb_false_r].
    destruct (Z.ltb_spec 0 (default 0 p - blen r)) as [Hs|Hs]; cbn [andb Z.eqb Pos.eqb].
    + assert (deref (z ++ r) = 48) as ->; [|done]. unfold z, zeros. by destruct (Z.to_nat (default 0 p - blen r)) eqn:E; [lia|].
    + assert (z = []) as -> by (unfold z, zeros; by replace (Z.to_nat (default 0 p - blen r)) with O by lia). cbn [app].
      pose proof (rep_head v 8 lower_digits Ht) as Hh. fold r in Hh. destruct (Z.eqb_spec (deref r) 48) as [E|_].
      { exfalso. apply Hh; [|lia|done]. intros x Hx. assert (x = 1 \/ x = 2 \/ x = 3 \/ x = 4 \/ x = 5 \/ x = 6 \/ x = 7) as Hxx by lia.
        repeat (destruct Hxx as [-> |Hxx]; [done|]). by subst x. }
      cbn [negb prefix_list Z.eqb Pos.eqb]. unfold pad_field. cbn [app]. destruct (has_flag d Minus); [done|]. destruct (has_flag d Zero); [|done]. symmetry. apply zeros_comm.
  - by destruct (_ <? _).
  - revert Ha. destruct (has_flag d Alt); [|by destruct (_ <? _)]. destruct (negb (v =? 0)); [by rewrite andb_false_r|done].
  - revert Ha. destruct (has_flag d Alt); [|by destruct (_ <? _)]. destruct (negb (v =? 0)); [by rewrite andb_false_r|done].
Qed.

Lemma format_uint_prints d o w p n v : good d o -> 0 <= default 0 w < 2 ^ 31 -> 0 <= default 0 p -> 0 <= v < 2 ^ 64 -> is_unsigned (dconv d) = true ->
  unsigned_ok d w p v = true ->
  prints (format_uint bgarbage wgarbage (mk_conv (Z.lor o (type_code (dconv d))) (default 0 w) (default 0 p) n) (show_cv (dconv d)) v) (c_unsigned d w p v).
Proof.
  intros Hg Hw Hp Hv Hc Hok. pose proof (unsigned_text d w p v Hc Hv Hp Hok) as Htext. pose proof (base_tab _ Hc) as Ht.
  pose proof (uint_base_ok d o v Hg Hc) as Hbase. pose proof (good_lor d o _ Minus Hg Hc) as GM. pose proof (good_lor d o _ Zero Hg Hc) as GZ.
  pose proof (good_lor_big d o _ Hg Hc) as GB. cbn [flag_code] in GM, GZ.
  destruct (base_of (dconv d)) as [b tab]. cbn [fst snd] in Ht. destruct (rep_props tab b v Ht) as [Hl Ha].
  set (sl := match dconv d with C_o => if has_flag d Alt && negb (v =? 0) then 1 else 0 | C_x | C_X => if has_flag d Alt then 2 else 0 | _ => 0 end) in *.
  assert (sl = 0 \/ sl = 1 \/ sl = 2 /\ show_cv (dconv d) = if bool_decide (dconv d = C_X) then 88 else 120) as Hsl.
  { unfold sl. destruct (dconv d); auto; [destruct (has_flag d Alt && negb (v =? 0)); auto|by destruct (has_flag d Alt); auto..]. }
  assert (ascii (show_cv (dconv d))) as Hcv by (by destruct (dconv d)).
  unfold unsigned_ok in Hok. apply andb_prop in Hok as [Hok _]. destruct (number_ok_facts _ _ _ _ Hok) as (Hp16 & _).
  rewrite Htext. eapply prints_eq; [apply (plan_prints bgarbage wgarbage)| |reflexivity].
  - match goal with |- Forall ascii (prefix_list ?x _) => generalize x end. intros x. unfold prefix_list.
    destruct (x =? 0); [constructor|]. destruct (x =? 1); by repeat apply Forall_cons_2.
  - apply Forall_app. split; [apply ascii_zeros|done].
  - intros data h. unfold format_uint. cbn [output]. rewrite Hbase. unfold mbind, act_bind. cbn [lift]. rewrite digits_rep by done. cbn [lift].
    rewrite (format_ulong_plan bgarbage wgarbage _ (show_cv (dconv d)) sl); cbn [output width prec]; [|lia|lia|lia|by rewrite GB].
    by rewrite GM, GZ.
Qed.
End Convert.

(** ** Directives *)

Section Directives.
Variable ldouble : Type.
Variable measure : ldouble -> magnitude.
Variable sprintf_float : bool -> option Z -> option Z -> ldouble -> list Z.
Variables bgarbage wgarbage : Z.
Implicit Types args : list (va ldouble).

#[local] Abbreviation run_conv := (run_conv ldouble measure sprintf_float bgarbage wgarbage).

(** A conversion, when the output has [n] characters, appends [t], stores [s] and leaves [args']. *)
Definition runs (n : Z) o k c args t s args' : Prop := forall h R data acc, blen acc = n -> wf h (data :: R) -> holds h data (false, acc) ->
  Z.of_nat (length acc) + Z.of_nat (length t) < 2 ^ 60 -> Z.of_nat (S (S (length R))) < 2 ^ 60 ->
  exists h' a', run_conv o k c args data h = Ret ((a', args', s), h') /\ wf h' (a' :: R) /\ holds h' a' (false, acc ++ t) /\ frame h h' R.

Lemma prints_runs n o k c args t args' (m : addr -> act heap addr) : prints m t ->
  (forall data h, run_conv o k c args data h = (data ← m data; mret (data, args', [])) h) -> runs n o k c args t [] args'.
Proof.
  intros Hm E h R data acc _ Hw Hh Hl Hr. destruct (Hm h R data acc Hw Hh Hl Hr) as (h' & a' & E' & H). exists h', a'. split; [|done].
  rewrite E. unfold mbind, act_bind. by rewrite E'.
Qed.

Lemma c_arg_len d args x : c_arg ldouble (dlen d) args = Some x -> dlen d <> L_hh.
Proof. intros H E. rewrite E in H. by destruct args. Qed.

Lemma int_value_ok (l : Length) args w x args' : c_arg ldouble l args = Some (w, x, args') -> int_value ldouble l args = Ret (swrap w x, args') /\ in_s 64 (swrap w x).
Proof.
  intros H. assert (forall w, 0 < w <= 64 -> in_s 64 (swrap w x)) as Hin.
  { intros w0 Hw0. pose proof (swrap_range w0 x ltac:(lia)) as Hr. unfold in_s in *. pose proof (Z.pow_le_mono_r 2 (w0 - 1) (64 - 1) ltac:(lia) ltac:(lia)). lia. }
  destruct l; try done; destruct args as [|[y|y| | | | |] args]; try done; injection H as <- <- <-; (split; [|by apply Hin]); try done.
  cbn. by rewrite swrap_swrap by lia.
Qed.

Lemma uint_value_ok (l : Length) args w x args' : c_arg ldouble l args = Some (w, x, args') -> uint_value ldouble l args = Ret (uwrap w x, args') /\ 0 <= uwrap w x < 2 ^ 64.
Proof.
  intros H. assert (forall w, 0 < w <= 64 -> 0 <= uwrap w x < 2 ^ 64) as Hin.
  { intros w0 Hw0. pose proof (uwrap_range w0 x ltac:(lia)) as Hr. unfold in_u in *. pose proof (Z.pow_le_mono_r 2 w0 64 ltac:(lia) ltac:(lia)). lia. }
  by destruct l; try done; destruct args as [|[y|y| | | | |] args]; try done; injection H as <- <- <-; (split; [|by apply Hin]).
Qed.

Definition reads d n t s args args' : Prop := forall more, exists o k c args2,
  s_read ldouble (show_dir d ++ more) args = Ret (P_conv o k c more args2) /\ runs n o k c args2 t s args'.

Lemma signed_dir_ok d n args t s args' : dconv d = C_d \/ dconv d = C_i -> c_dir ldouble d n args = Some (t, s, args') -> reads d n t s args args'.
Proof.
  intros Hc H more. assert (dconv d = C_d \/ dconv d = C_i) as Hc' by done.
  assert (exists w args1 p args2 b x, c_num ldouble (dwidth d) args = Some (w, args1) /\ c_num ldouble (dprec d) args1 = Some (p, args2) /\
    c_arg ldouble (dlen d) args2 = Some (b, x, args') /\ signed_ok d w p (swrap b x) = true /\ t = c_signed d w p (swrap b x) /\ s = []) as
    (w & args1 & p & args2 & b & x & E1 & E2 & E3 & Hok & -> & ->).
  { unfold c_dir in H. destruct Hc as [Hc|Hc]; rewrite Hc in H;
    apply bind_Some in H as ([w args1] & E1 & H); apply bind_Some in H as ([p args2] & E2 & H); apply bind_Some in H as ([[b x] args3] & E3 & H);
    (destruct (signed_ok d w p (swrap b x)) eqn:Hok; [|done]); injection H as <- <- <-; by exists w, args1, p, args2, b, x. }
  pose proof (c_arg_len _ _ _ E3) as Hl. destruct (int_value_ok _ _ _ _ _ E3) as [Ev Hv].
  unfold signed_ok in Hok. pose proof Hok as Hok'. apply andb_prop in Hok' as [Hok' _]. apply andb_prop in Hok' as [Hok' _].
  destruct (number_ok_facts _ _ _ _ Hok') as (_ & _ & _ & Hnz).
  destruct (s_read_dir ldouble d more args w args1 p args2 E1 E2 Hnz Hl) as (o & Hg & Hw & Hp & Er).
  exists out_int, (mk_conv (Z.lor o O_Decimal) (default 0 w) (default 0 p) (dlen d)), (show_cv (dconv d)), args2. split.
  - rewrite Er. by destruct Hc as [-> | ->].
  - eapply prints_runs; [apply (format_int_prints bgarbage wgarbage d o w p (dlen d) (swrap b x)); done || lia|].
    intros data h. unfold StrFormat.run_conv. cbn [flength]. rewrite Ev. unfold mbind, act_bind. cbn [lift]. done.
Qed.

Lemma unsigned_dir_ok d n args t s args' : is_unsigned (dconv d) = true -> c_dir ldouble d n args = Some (t, s, args') -> reads d n t s args args'.
Proof.
  intros Hc H more.
  assert (exists w args1 p args2 b x, c_num ldouble (dwidth d) args = Some (w, args1) /\ c_num ldouble (dprec d) args1 = Some (p, args2) /\
    c_arg ldouble (dlen d) args2 = Some (b, x, args') /\ unsigned_ok d w p (uwrap b x) = true /\ t = c_unsigned d w p (uwrap b x) /\ s = []) as
    (w & args1 & p & args2 & b & x & E1 & E2 & E3 & Hok & -> & ->).
  { unfold c_dir in H. destruct (dconv d) eqn:Ec; try done;
    apply bind_Some in H as ([w args1] & E1 & H); apply bind_Some in H as ([p args2] & E2 & H); apply bind_Some in H as ([[b x] args3] & E3 & H);
    (destruct (unsigned_ok d w p (uwrap b x)) eqn:Hok; [|done]); injection H as <- <- <-; by exists w, args1, p, args2, b, x. }
  pose proof (c_arg_len _ _ _ E3) as Hl. destruct (uint_value_ok _ _ _ _ _ E3) as [Ev Hv].
  unfold unsigned_ok in Hok. pose proof Hok as Hok'. apply andb_prop in Hok' as [Hok' _].
  destruct (number_ok_facts _ _ _ _ Hok') as (_ & _ & _ & Hnz).
  destruct (s_read_dir ldouble d more args w args1 p args2 E1 E2 Hnz Hl) as (o & Hg & Hw & Hp & Er).
  exists out_uint, (mk_conv (Z.lor o (type_code (dconv d))) (default 0 w) (default 0 p) (dlen d)), (show_cv (dconv d)), args2. split.
  - rewrite Er. by destruct (dconv d).
  - eapply prints_runs; [apply (format_uint_prints bgarbage wgarbage d o w p (dlen d) (uwrap b x)); done || lia|].
    intros data h. unfold StrFormat.run_conv. cbn [flength]. rewrite Ev. unfold mbind, act_bind. cbn [lift]. done.
Qed.

(** A directive without flags and numbers reads as its length and type. *)
Lemma plain_read d more args : plain d = true -> dlen d <> L_hh -> exists o, good d o /\
  s_read ldouble (show_dir d ++ more) args =
    '(ot, k) ← s_type (show_cv (dconv d)) (mk_conv o 0 0 (dlen d)); Ret (P_conv ot k (show_cv (dconv d)) more args).
Proof.
  intros Hp Hl. apply bool_decide_eq_true in Hp as (_ & Hw & Hpr).
  destruct (s_read_dir ldouble d more args None args None args) as (o & Hg & _ & _ & E); [by rewrite Hw|by rewrite Hpr|by rewrite Hw|done|]. by exists o.
Qed.

Lemma text_convertible acc : convertible false (false, acc).
Proof. by left. Qed.

Lemma char_dir_ok d n args t s args' : dconv d = C_c -> c_dir ldouble d n args = Some (t, s, args') -> reads d n t s args args'.
Proof.
  intros Hc H more. unfold c_dir in H. rewrite Hc in H. destruct (plain d) eqn:Hpl; [|done]. cbn [negb] in H.
  assert (dlen d <> L_hh) as Hl by (intros E; by rewrite E in H). destruct (plain_read d more args Hpl Hl) as (o & Hg & Er). rewrite Hc in Er.
  exists out_char, (mk_conv o 0 0 (dlen d)), 99, args. split; [done|]. destruct (dlen d) eqn:El; try done; destruct args as [|[x| | | | | |] args]; try done;
    (case_decide as Hx; [|done]); injection H as <- <- <-.
  - unfold ascii in Hx. eapply prints_runs; [apply (prints_chars bgarbage wgarbage x 1); done|].
    intros data h. unfold StrFormat.run_conv, format_char. cbn [flength]. unfold mbind, act_bind. cbn [va_32 lift].
    rewrite (swrap_id 32), (swrap_id 8) by (done || (unfold in_s; lia)). by destruct (appendAsciiChars _ _ _ _ _ _) as [[]| | |].
  - intros h R data acc Hn Hw Hh Hlen Hr. destruct (appendWideChars_ok bgarbage wgarbage h R data (false, acc) x 1 Hw Hh (text_convertible acc) Hx Hlen Hr) as (h' & a' & E & W & _ & K & F).
    exists h', a'. split; [|done]. unfold StrFormat.run_conv, format_char. cbn [flength]. unfold mbind, act_bind. cbn [va_32 lift].
    rewrite (uwrap_id 32), (swrap_id 32) by (done || (unfold in_u, in_s; lia)). change (Z.of_nat 1) with 1 in E. by rewrite E.
Qed.

Lemma string_dir_ok d n args t s args' : dconv d = C_s -> c_dir ldouble d n args = Some (t, s, args') -> reads d n t s args args'.
Proof.
  intros Hc H more. unfold c_dir in H. rewrite Hc in H. destruct (plain d) eqn:Hpl; [|done]. cbn [negb] in H.
  assert (dlen d <> L_hh) as Hl by (intros E; by rewrite E in H). destruct (plain_read d more args Hpl Hl) as (o & Hg & Er). rewrite Hc in Er.
  exists out_string, (mk_conv o 0 0 (dlen d)), 115, args. split; [done|].
  destruct (dlen d) eqn:El; try done; destruct args as [|[| | | |x|x|] args]; try done.
  - case_decide as Hx; [|done]. injection H as <- <- <-. eapply prints_runs; [by apply (prints_ascii bgarbage wgarbage)|].
    intros data h. unfold StrFormat.run_conv, format_string. cbn [flength]. unfold mbind, act_bind. cbn [va_str lift].
    by destruct (appendAscii _ _ _ _ _) as [[]| | |].
  - injection H as <- <- <-. destruct x as [x|]; cbn [default].
    + intros h R data acc Hn Hw Hh Hlen Hr. destruct (appendWide_ok wgarbage h R data (false, acc) x Hw Hh (text_convertible acc) Hlen Hr) as (h' & a' & E & W & _ & K & F).
      exists h', a'. split; [|done]. unfold StrFormat.run_conv, format_string. cbn [flength]. unfold mbind, act_bind. cbn [va_wstr lift]. by rewrite E.
    + eapply prints_runs; [apply (prints_ascii bgarbage wgarbage (chars "(null)")); by apply (bool_decide_unpack _)|].
      intros data h. unfold StrFormat.run_conv, format_string. cbn [flength]. unfold mbind, act_bind. cbn [va_wstr lift].
      by destruct (appendAscii _ _ _ _ _) as [[]| | |].
Qed.

Lemma printed_dir_ok d n args t s args' : dconv d = C_n -> c_dir ldouble d n args = Some (t, s, args') -> reads d n t s args args'.
Proof.
  intros Hc H more. unfold c_dir in H. rewrite Hc in H. destruct (plain d) eqn:Hpl; [|done]. cbn [negb] in H.
  assert (dlen d <> L_hh) as Hl by (intros E; by rewrite E in H). destruct (plain_read d more args Hpl Hl) as (o & Hg & Er). rewrite Hc in Er.
  exists out_printed, (mk_conv o 0 0 (dlen d)), 110, args. split; [done|].
  intros h R data acc Hn Hw Hh Hlen Hr. pose proof Hh as (m & Hm & Hv). pose proof (sd_length _ _ _ Hv) as L. cbn [snd] in L. unfold blen in Hn. rewrite Hn in L.
  exists h, data. assert (t = []) as -> by (destruct (dlen d); try done; destruct args as [|[| | | | | |x] args]; try done; by injection H as <- <- <-).
  rewrite app_nil_r. split_and!; [|done|done|apply frame_refl].
  unfold StrFormat.run_conv, format_printed. cbn [flength]. unfold mbind, act_bind. rewrite (sd_eq _ _ _ Hm), L.
  by destruct (dlen d); try done; destruct args as [|[| | | | | |x] args]; try done; injection H as <- <-.
Qed.

Lemma dir_ok d n args t s args' : c_dir ldouble d n args = Some (t, s, args') -> reads d n t s args args'.
Proof.
  intros H. destruct (dconv d) eqn:E; [apply signed_dir_ok; auto..|apply unsigned_dir_ok|apply unsigned_dir_ok|apply unsigned_dir_ok|apply unsigned_dir_ok|
    apply unsigned_dir_ok|apply char_dir_ok|apply string_dir_ok|apply printed_dir_ok]; (done || by rewrite E).
Qed.

(** ** The loop *)

#[local] Abbreviation format_loop := (format_loop ldouble measure sprintf_float bgarbage wgarbage).

Definition copy_step fuel fmt args st data : act heap (addr * list (nat * Z * Z)) :=
  let '(l, fmt) := s_copy fmt in data ← StrFormat.appendAscii bgarbage wgarbage data l; format_loop fuel fmt args st data.

Definition gives (m : addr -> act heap (addr * list (nat * Z * Z))) (st : list (nat * Z * Z)) text st' acc : Prop :=
  forall h R data, wf h (data :: R) -> holds h data (false, acc) -> Z.of_nat (length acc) + Z.of_nat (length text) < 2 ^ 60 ->
  Z.of_nat (S (S (length R))) < 2 ^ 60 ->
  exists h' a', m data h = Ret ((a', st ++ st'), h') /\ wf h' (a' :: R) /\ holds h' a' (false, acc ++ text) /\ frame h h' R.

Lemma gives_append l (m : addr -> act heap (addr * list (nat * Z * Z))) st text st' acc : Forall ascii l -> gives m st text st' (acc ++ l) ->
  gives (fun data => data ← StrFormat.appendAscii bgarbage wgarbage data l; m data) st (l ++ text) st' acc.
Proof.
  intros Hl Hm h R data Hw Hh Hlen Hr. rewrite length_app in Hlen.
  destruct (prints_ascii bgarbage wgarbage l Hl h R data acc Hw Hh) as (h1 & a1 & E1 & W1 & K1 & F1); [lia|done|].
  destruct (Hm h1 R a1 W1 K1) as (h2 & a2 & E2 & W2 & K2 & F2); [rewrite length_app; lia|done|].
  exists h2, a2. unfold mbind, act_bind. rewrite E1, E2, app_assoc. split_and!; try done. eauto using frame_trans.
Qed.

Lemma lit_ascii l : Forall lit_char l -> Forall ascii l.
Proof. intros H. eapply Forall_impl; [exact H|]. by intros c []. Qed.

Lemma span_lit l more : Forall lit_char l -> span (fun c => negb (c =? 37)) (l ++ more) = let '(a, b) := span (fun c => negb (c =? 37)) more in (l ++ a, b).
Proof.
  induction 1 as [|c l [_ Hc] _ IH]; [cbn [app]; by destruct (span _ more)|]. cbn [app span]. destruct (Z.eqb_spec c 37); [done|]. cbn [negb]. rewrite IH. by destruct (span _ more).
Qed.

Lemma format_loop_cons fuel c rest args st data h :
  format_loop (S fuel) (c :: rest) args st data h =
    (p ← (if c =? 37 then lift (s_read ldouble rest args) else mret (P_copy (c :: rest)));
     match p with
     | P_copy fmt => copy_step fuel fmt args st data
     | P_conv o k c fmt args =>
       '(data, args, s) ← run_conv o k c args data; format_loop fuel fmt args (st ++ s) data
     end) h.
Proof.
  cbn [StrFormat.format_loop]. unfold mbind, act_bind. destruct (c =? 37); [|done]. by destruct (lift (s_read ldouble rest args) h) as [[[] ]| | |].
Qed.

Definition loop_ok items : Prop := forall fuel args st acc text st', (length (show items) < fuel)%nat ->
  c_printf ldouble items (blen acc) args = Some (text, st') -> gives (format_loop fuel (show items) args st) st text st' acc.

Definition copy_ok items : Prop := forall fuel args st acc c l text st', (length (show items) < fuel)%nat -> ascii c -> Forall lit_char l ->
  c_printf ldouble items (blen (acc ++ c :: l)) args = Some (text, st') ->
  gives (copy_step fuel (c :: l ++ show items) args st) st ((c :: l) ++ text) st' acc.

(** Copying stops at the next percent sign. *)
Lemma copy_stop items : loop_ok items -> (show items = [] \/ exists r, show items = 37 :: r) -> copy_ok items.
Proof.
  intros Hok Hs fuel args st acc c l text st' Hf Hc Hl E.
  assert (forall data h, copy_step fuel (c :: l ++ show items) args st data h =
    (data ← StrFormat.appendAscii bgarbage wgarbage data (c :: l); format_loop fuel (show items) args st data) h) as Heq.
  { intros data h. unfold copy_step. cbn [s_copy]. rewrite span_lit by done. destruct Hs as [-> |[r ->]]; cbn; by rewrite app_nil_r. }
  intros h R data. rewrite Heq. revert h R data. apply gives_append; [|by apply Hok]. apply Forall_cons_2; [done|by apply lit_ascii].
Qed.

Lemma show_cons i items : show (i :: items) = show_item i ++ show items.
Proof. done. Qed.

Lemma loop_nil : loop_ok [].
Proof.
  intros fuel args st acc text st' Hf E. injection E as <- <-. destruct fuel; [simpl in Hf; lia|]. intros h R data Hw Hh _ _.
  exists h, data. rewrite !app_nil_r. split_and!; try done. apply frame_refl.
Qed.

Lemma loop_lit l items : loop_ok items -> copy_ok items -> loop_ok (Lit l :: items).
Proof.
  intros Hl Hcp fuel args st acc text st' Hf E. rewrite show_cons in *. cbn [show_item] in *. rewrite length_app in Hf. cbn [c_printf] in E.
  case_decide as Hlit; [|done]. apply bind_Some in E as ([text0 st0] & E & H). injection H as <- <-.
  destruct l as [|c l]; [cbn [app]; unfold blen in *; simpl in E; rewrite Z.add_0_r in E; apply Hl; [simpl in Hf; lia|done]|].
  apply list.Forall_cons in Hlit as [[Hc1 Hc2] Hlit]. destruct fuel as [|fuel]; [lia|]. intros h R data. cbn [app].
  rewrite format_loop_cons. destruct (Z.eqb_spec c 37); [done|]. revert h R data.
  apply (Hcp fuel args st acc c l); [simpl in Hf; lia|done|done|]. by rewrite blen_app.
Qed.

Lemma loop_percent items : copy_ok items -> loop_ok (Percent :: items).
Proof.
  intros Hcp fuel args st acc text st' Hf E. rewrite show_cons in *. cbn [show_item app] in *. cbn [c_printf] in E.
  apply bind_Some in E as ([text0 st0] & E & H). injection H as <- <-. destruct fuel as [|fuel]; [lia|]. intros h R data.
  rewrite format_loop_cons. change (37 =? 37) with true. cbv iota.
  change (s_read ldouble (37 :: show items) args) with (@Ret (parsed ldouble) (P_copy (37 :: show items))). revert h R data.
  apply (Hcp fuel args st acc 37 []); [simpl in Hf; lia|done|constructor|]. by rewrite blen_app.
Qed.

Lemma loop_dir d items : loop_ok items -> loop_ok (Dir d :: items).
Proof.
  intros Hl fuel args st acc text st' Hf E. rewrite show_cons in *. cbn [show_item] in *. cbn [c_printf] in E.
  apply bind_Some in E as ([[t s] args1] & E1 & H). apply bind_Some in H as ([text0 st0] & E2 & H). injection H as <- <-.
  destruct (dir_ok d (blen acc) args t s args1 E1 (show items)) as (o & k & c & args2 & Er & Hrun). destruct fuel as [|fuel]; [lia|].
  intros h R data Hw Hh Hlen Hr. rewrite length_app in Hlen. cbn [app]. rewrite format_loop_cons. change (37 =? 37) with true. cbv iota.
  unfold mbind at 1, act_bind at 1. rewrite Er. cbn [lift].
  destruct (Hrun h R data acc eq_refl Hw Hh) as (h1 & a1 & R1 & W1 & K1 & F1); [lia|done|]. unfold mbind, act_bind. rewrite R1.
  destruct (Hl fuel args1 (st ++ s) (acc ++ t) text0 st0) with (h := h1) (R := R) (data := a1) as (h2 & a2 & R2 & W2 & K2 & F2).
  - cbn [length app] in Hf. rewrite length_app in Hf. lia.
  - by rewrite blen_app.
  - done.
  - done.
  - rewrite length_app. lia.
  - done.
  - exists h2, a2. rewrite R2, !app_assoc. split_and!; try done. eauto using frame_trans.
Qed.

Lemma copy_lit l items : copy_ok items -> copy_ok (Lit l :: items).
Proof.
  intros Hcp fuel args st acc c l0 text st' Hf Hc Hl0 E. rewrite show_cons in *. cbn [show_item] in *. rewrite length_app in Hf. cbn [c_printf] in E.
  case_decide as Hlit; [|done]. apply bind_Some in E as ([text0 st0] & E & H). injection H as <- <-. rewrite !app_assoc.
  replace ((c :: l0) ++ l) with (c :: (l0 ++ l)) by done. apply Hcp; [lia|done|by apply Forall_app|].
  rewrite <- E. f_equal. rewrite !blen_app. unfold blen. simpl. rewrite length_app. lia.
Qed.

Lemma items_ok items : loop_ok items /\ copy_ok items.
Proof.
  induction items as [|i items [IH1 IH2]]; [split; [apply loop_nil|apply copy_stop; [apply loop_nil|by left]]|].
  destruct i as [l| |d].
  - split; [by apply loop_lit|by apply copy_lit].
  - assert (loop_ok (Percent :: items)) by (by apply loop_percent). split; [done|]. apply copy_stop; [done|]. right. rewrite show_cons. by eexists.
  - assert (loop_ok (Dir d :: items)) by (by apply loop_dir). split; [done|]. apply copy_stop; [done|]. right. rewrite show_cons. by eexists.
Qed.

Lemma vformats_ok items args text st h R : c_printf ldouble items 0 args = Some (text, st) -> wf h R -> Z.of_nat (length text) < 2 ^ 60 ->
  Z.of_nat (S (S (S (length R)))) < 2 ^ 60 ->
  exists h' nd, vformats ldouble measure sprintf_float bgarbage wgarbage (show items) args h = Ret ((nd, st), h') /\
    wf h' (nd :: R) /\ holds h' nd (false, text) /\ frame h h' R.
Proof.
  intros E Hwf Hlen Hr. assert (s_zero ∈ statics_refs ++ R) as Hz by (apply elem_of_app; left; right; left).
  destruct (ref_ok h R s_zero Hwf Hz) as (h1 & E1 & W1 & F1); [lia|]. assert (s_zero ∈ statics_refs ++ s_zero :: R) as Hz1 by (apply elem_of_app; left; right; left).
  destruct (ref_ok h1 (s_zero :: R) s_zero W1 Hz1) as (h2 & E2 & W2 & F2); [simpl; lia|].
  pose proof (weaken_holds h2 s_zero (true, []) (wf_zero _ _ W2) ltac:(constructor)) as Hh. cbn [snd] in Hh.
  destruct (items_ok items) as [Hok _]. destruct (Hok (S (length (show items))) args [] [] text st ltac:(lia) E h2 (s_zero :: R) s_zero W2 Hh) as (h3 & a3 & E3 & W3 & K3 & F3); [simpl; lia|simpl; lia|].
  apply (str_wf_perm _ _ (s_zero :: a3 :: R)) in W3; [|constructor]. destruct (str_unref_ok h3 (a3 :: R) s_zero W3) as (h4 & E4 & W4 & F4 & _).
  exists h4, a3. unfold vformats, vformatAscii. unfold mbind, act_bind. rewrite E1, E2, E3, E4. split_and!; [done|done|by apply F4; [apply in_refs|]|].
  apply frame_cons in F1, F2, F3, F4. apply frame_cons in F2. eauto using frame_trans.
Qed.

End Directives.
