(* ===== verification/Strings.v ===== *)
(** * core/types: String

    The member functions of [String] ([String.hxx], [String.cxx]) on the heap of
    StrData: a string object is its [d], a function that changes the object gives
    the new [d], and one that returns a string gives the [d] of the new object.
    Temporaries are made and destroyed where the expressions make and destroy
    them; a [BString] made from a string is its bytes. *)

From Stdlib Require Import String Ascii.
From S2P Require Import Prelude Machine CString Heap StrData.

#[local] Abbreviation M := (act (gmap addr strdata)).

Section Strings.
Variables bgarbage wgarbage : Z.
#[local] Abbreviation refByte := (refByte bgarbage).
#[local] Abbreviation updateWide := (updateWide wgarbage).
#[local] Abbreviation append_data := (append bgarbage wgarbage).
#[local] Abbreviation appendAscii_data := (StrData.appendAscii bgarbage wgarbage).

(** ** Construction, copying, destruction *)

Definition String_empty : M addr := ref s_zero.
Definition String_null : M addr := ref s_null.
Definition String_copy (s : addr) : M addr := ref s.
Definition destroy_string (d : addr) : M unit := unref d.

(** [length] characters at [s], and a string that ends with a zero. *)
Definition String_ascii (s : list Z) : M addr :=
  d ← allocAscii bgarbage (Z.of_nat (length s)); _ ← b_store d 0 s; mret d.
Definition String_asciiz (s : option (list Z)) : M addr :=
  match s with None => ref s_null | Some s => String_ascii s end.
Definition String_wide (s : list Z) : M addr :=
  d ← allocWide wgarbage (Z.of_nat (length s)); _ ← w_store d 0 s; mret d.
Definition String_widez (s : option (list Z)) : M addr :=
  match s with None => ref s_null | Some s => String_wide s end.

Definition createUtf8 (utf8 : list Z) : M addr :=
  if decide (utf8 = []) then ref s_zero else String_ascii utf8.

Definition tolower (c : Z) : Z := if (65 <=? c) && (c <=? 90) then c + 32 else c.
Definition toupper (c : Z) : Z := if (97 <=? c) && (c <=? 122) then c - 32 else c.

Definition createLowerUtf8 (utf8 : list Z) : M addr :=
  if decide (utf8 = []) then ref s_zero else String_ascii (map tolower utf8).
Definition createUpperUtf8 (utf8 : list Z) : M addr :=
  if decide (utf8 = []) then ref s_zero else String_ascii (map toupper utf8).
Definition createLower (str : addr) : M addr := o ← refByte str; createLowerUtf8 o.
Definition createUpper (str : addr) : M addr := o ← refByte str; createUpperUtf8 o.

(** [i_setDoref] and [i_setNoref]. *)
Definition i_setDoref (d s : addr) : M addr := _ ← ref s; _ ← unref d; mret s.
Definition i_setNoref (d s : addr) : M addr := _ ← unref d; mret s.
Definition assign (d s : addr) : M addr := i_setDoref d s.

Definition setNull (d : addr) : M addr := i_setDoref d s_null.
Definition setEmpty (d : addr) : M addr := i_setDoref d s_zero.
Definition setAscii (d : addr) (ascii_str : list Z) : M addr := s ← String_ascii ascii_str; i_setNoref d s.
Definition setWide (d : addr) (wide_str : list Z) : M addr := s ← String_wide wide_str; i_setNoref d s.

(** ** Contents *)

Definition ascii (d : addr) : M (list Z) := refByte d.
Definition utf8 (d : addr) : M (list Z) := refByte d.
Definition wide_ (d : addr) : M (list Z) :=
  _ ← updateWide d; n ← sd d; lift (w ← the (wide n); mem_range (buf w) 0 (bsize w)).

Definition getLength (d : addr) : M Z := n ← sd d; mret (length_ n).
Definition isNull (d : addr) : M bool := mret (bool_decide (d = s_null)).
Definition isEmpty (d : addr) : M bool := n ← sd d; mret (length_ n =? 0).
Definition isNullEmpty (d : addr) : M bool := n ← sd d; mret (length_ n <=? 0).

Definition eqUtf8 (d : addr) (str : list Z) : M bool :=
  str_utf8 ← refByte d;
  if negb (Z.of_nat (length str) =? Z.of_nat (length str_utf8)) then mret false else mret (cmp_chars str str_utf8 =? 0).

(** ** Appending *)

Definition append_string (d s : addr) : M addr := append_data d s.

(** A temporary string is appended and destroyed. *)
Definition append_temp (d : addr) (tmp : M addr) : M addr :=
  t ← tmp; d ← append_data d t; _ ← unref t; mret d.

Definition append_ascii (d : addr) (str : list Z) : M addr := append_temp d (String_ascii str).
Definition append_wide (d : addr) (str : list Z) : M addr := append_temp d (String_wide str).

(** A [char] from an integer. *)
Definition utf8_bytes (code : Z) : list Z :=
  map u8
    (if code <=? 0x7f then [code]
     else if code <=? 0x7ff then [Z.lor (Z.shiftr code 6) 0xc0; Z.lor (Z.land code 0x3f) 0x80]
     else if code <=? 0xffff then
       [Z.lor (Z.shiftr code 12) 0xe0; Z.lor (Z.land (Z.shiftr code 6) 0x3f) 0x80; Z.lor (Z.land code 0x3f) 0x80]
     else if code <=? 0x10ffff then
       [Z.lor (Z.shiftr code 18) 0xf0; Z.lor (Z.land (Z.shiftr code 12) 0x3f) 0x80; Z.lor (Z.land (Z.shiftr code 6) 0x3f) 0x80; Z.lor (Z.land code 0x3f) 0x80]
     else
       [Z.lor (Z.land (Z.shiftr code 18) 0x3f) 0xf0; Z.lor (Z.land (Z.shiftr code 12) 0x3f) 0x80; Z.lor (Z.land (Z.shiftr code 6) 0x3f) 0x80; Z.lor (Z.land code 0x3f) 0x80]).

Definition appendUtf8FromUnicode (d : addr) (code : Z) : M addr := append_temp d (String_ascii (utf8_bytes code)).

Definition appendAsciiReverse_ (d : addr) (s : list Z) : M addr := appendAsciiReverse bgarbage wgarbage d s.

(** The digits from the end of a buffer of [cap] characters. *)
Definition digit_table : list Z := chars "0123456789abcdefghijklmnopqrstuvwxyz".

Fixpoint number_loop (fuel : nat) (cap base number : Z) (buf : list Z) : res (list Z) :=
  match fuel with
  | O => NoFuel
  | S fuel =>
    if base =? 0 then Crash DivByZero
    else
      c ← byte_at digit_table (number mod base);
      if cap <=? Z.of_nat (length buf) then Crash OutOfBounds
      else
        let number := number / base in
        if number =? 0 then Ret (c :: buf) else number_loop fuel cap base number (c :: buf)
  end.

Definition push_char (cap c : Z) (buf : list Z) : res (list Z) :=
  if cap <=? Z.of_nat (length buf) then Crash OutOfBounds else Ret (c :: buf).

(** [appendNumber] of the four integer types: [w] bits, and 48 or 80 characters. *)
Definition append_signed (w cap : Z) (d : addr) (number base : Z) : M addr :=
  let base := u32 base in
  buf ← lift (
    let n := if number <? 0 then swrap w (- number) else number in
    buf ← number_loop (S (Z.to_nat cap)) cap (if w =? 64 then u64 (s32 base) else base) (uwrap w n) [];
    if number <? 0 then push_char cap 45 buf else Ret buf);
  appendAscii_data d buf.
Definition append_unsigned (w cap : Z) (d : addr) (number base : Z) : M addr :=
  let base := u32 base in
  buf ← lift (number_loop (S (Z.to_nat cap)) cap (if w =? 64 then u64 (s32 base) else base) number []);
  appendAscii_data d buf.

Definition appendNumberS32 := append_signed 32 48.
Definition appendNumberU32 := append_unsigned 32 48.
Definition appendNumberS64 := append_signed 64 80.
Definition appendNumberU64 := append_unsigned 64 80.

(** The buffer has 18 characters. *)
Definition appendPointer (d : addr) (p : Z) : M addr :=
  buf ← lift (buf ← number_loop 19 18 16 p []; buf ← push_char 18 120 buf; push_char 18 48 buf);
  appendAscii_data d buf.

(** [appendDump]: 512 bytes are written at a time. *)
Definition dump_byte (c : Z) : list Z := [default 63 (digit_table !! Z.to_nat (Z.shiftr c 4)); default 63 (digit_table !! Z.to_nat (Z.land c 15))].

Fixpoint appendDump (fuel : nat) (d : addr) (mem : list Z) : M addr :=
  match mem with
  | [] => mret d
  | _ =>
    match fuel with
    | O => lift NoFuel
    | S fuel => d ← appendAscii_data d (mjoin (map dump_byte (take 512 mem))); appendDump fuel d (drop 512 mem)
    end
  end.

(** ** Parts and concatenation *)

(** [append] on a copy, returned by value. *)
Definition returned (t : addr) : M addr := r ← ref t; _ ← unref t; mret r.
Definition plus (d s : addr) : M addr := t ← ref d; t ← append_data t s; returned t.
Definition plus_ascii (d : addr) (str : list Z) : M addr := t ← ref d; t ← append_ascii t str; returned t.
Definition plus_wide (d : addr) (str : list Z) : M addr := t ← ref d; t ← append_wide t str; returned t.

Definition mid (d : addr) (pos len : Z) : M addr :=
  n ← sd d;
  if length_ n <? pos then String_empty
  else
    let len := if length_ n - pos <? len then length_ n - pos else len in
    b ← ascii d;
    s ← lift (mem_range (b ++ [0]) pos len);
    String_ascii s.

Definition mid_from (d : addr) (pos : Z) : M addr :=
  n ← sd d;
  if length_ n <? pos then String_empty else mid d pos (length_ n - pos).

Definition left (d : addr) (len : Z) : M addr := mid d 0 len.

Definition right (d : addr) (len : Z) : M addr :=
  n ← sd d;
  if length_ n <? len then ref d else mid d (length_ n - len) len.

(** The assignment of [left(pos)+s+mid(from)]. *)
Definition splice (d s : addr) (pos from : Z) : M addr :=
  t1 ← left d pos; t2 ← plus t1 s; t3 ← mid_from d from; t4 ← plus t2 t3;
  d ← assign d t4;
  _ ← unref t4; _ ← unref t3; _ ← unref t2; _ ← unref t1; mret d.

Definition insert_ (d : addr) (pos : Z) (s : addr) : M addr :=
  n ← sd d;
  if (0 <=? pos) && (length_ n <? pos) then append_string d s
  else
    let pos := if pos <? 0 then (if length_ n + pos <? 0 then 0 else length_ n + pos) else pos in
    splice d s pos pos.

(** ** Searching *)

(** [for (; start <= am_f; start++)], on strings that end with a zero. *)
Fixpoint find_loop (fuel : nat) (am as_ : list Z) (start : Z) : res Z :=
  match fuel with
  | O => NoFuel
  | S fuel =>
    if start <=? Z.of_nat (length am) - Z.of_nat (length as_) then
      a ← byte_at (am ++ [0]) start;
      s ← byte_at (as_ ++ [0]) 0;
      if negb (a =? s) then find_loop fuel am as_ (start + 1)
      else
        l ← mem_range (am ++ [0]) start (Z.of_nat (length as_));
        if cmp_chars l as_ =? 0 then Ret start else find_loop fuel am as_ (start + 1)
    else Ret (-1)
  end.

Definition find (d s : addr) (start : Z) : M Z :=
  am ← ascii d; as_ ← ascii s;
  if Z.of_nat (length am) <? Z.of_nat (length as_) then mret (-1)
  else lift (find_loop (S (S (length am))) am as_ start).

Fixpoint rfind_loop (fuel : nat) (am as_ : list Z) (before : Z) : res Z :=
  match fuel with
  | O => NoFuel
  | S fuel =>
    if 0 <=? before then
      l ← mem_range (am ++ [0]) before (Z.of_nat (length as_));
      if cmp_chars l as_ =? 0 then Ret before else rfind_loop fuel am as_ (before - 1)
    else Ret (-1)
  end.

Definition rfind (d s : addr) (before : Z) : M Z :=
  am ← ascii d; as_ ← ascii s;
  let room := Z.of_nat (length am) - Z.of_nat (length as_) in
  if room <? 0 then mret (-1)
  else
    let before := if room <? before then room + 1 else before in
    lift (rfind_loop (S (S (length am))) am as_ (before - 1)).

Definition equal (d s : addr) : M bool := beq wgarbage d s.

Definition startsWith (d s : addr) : M bool :=
  l ← getLength s; t ← left d l; r ← equal t s; _ ← unref t; mret r.
Definition endsWith (d s : addr) : M bool :=
  l ← getLength s; t ← right d l; r ← equal t s; _ ← unref t; mret r.

(** [replace]: the count is not used; [what] and [rep] are other objects. *)
Fixpoint replace_loop (fuel : nat) (d what rep : addr) (p : Z) : M addr :=
  match fuel with
  | O => lift NoFuel
  | S fuel =>
    p ← find d what p;
    if p <? 0 then mret d
    else
      lw ← getLength what;
      d ← splice d rep p (p + lw);
      lr ← getLength rep;
      replace_loop fuel d what rep (p + lr)
  end.

Definition replace (d what rep : addr) : M addr :=
  e ← isNullEmpty what;
  if e : bool then mret d
  else n ← getLength d; replace_loop (S (Z.to_nat n)) d what rep 0.

(** ** Locking *)

Definition lockAscii (d : addr) (len : Z) : M addr := makeAsciiSpace bgarbage d len.
Definition lockWide (d : addr) (len : Z) : M addr := makeWideSpace wgarbage d len.

Definition setlen (b : option blk) (newlen : Z) : res blk :=
  k ← the b; blk_store (mk_blk newlen (buf k)) newlen [0].

Definition unlock (d : addr) (newlen : Z) : M unit :=
  n ← sd d;
  if length_ n <? newlen then lift (Crash AssertFailed)
  else
    _ ← (if b_ok n then k ← lift (setlen (bytes n) newlen); mod_sd d (fun n => b_init n (Some k) (bflags n))
         else k ← lift (setlen (wide n) newlen); mod_sd d (fun n => w_init n (Some k) (wflags n * 4)));
    mod_sd d (fun n => with_length n newlen).

(** [strlen] and [wcslen] of the block. *)
Definition zlen (b : option blk) : res Z :=
  k ← the b;
  let l := fst (span (fun c => negb (c =? 0)) (buf k)) in
  if Z.of_nat (length (buf k)) <=? Z.of_nat (length l) then Crash OutOfBounds else Ret (Z.of_nat (length l)).

Definition unlockAuto (d : addr) : M unit :=
  n ← sd d;
  newlen ← lift (zlen (if b_ok n then bytes n else wide n));
  unlock d newlen.

End Strings.
