(* ===== verification/StringOps.v ===== *)
(** * Values of String

    The member functions of String on a heap that counts its references: what
    they return and make of the values, and that other strings stay. *)

From Stdlib Require Import String Ascii.
From S2P Require Import Prelude Machine CString Heap StrData StrDataRefs StrDataOps StrDataValues StrFormat StrFormatSpec StrFormatNum Strings.

#[local] Abbreviation heap := (gmap addr strdata).
#[local] Abbreviation ascii_char := StrDataRefs.ascii.
Implicit Types (h : heap) (R : list addr) (a d s : addr) (l cs : list Z) (v w : content).

Section Ops.
Variables g1 g2 : Z.

(** ** New strings *)

Definition room R : Prop := Z.of_nat (length R) + 8 < 2 ^ 60.

Lemma room_cons a R k : Z.of_nat (length (a :: R)) + k < 2 ^ 60 -> Z.of_nat (length R) + k < 2 ^ 60.
Proof. simpl. lia. Qed.

(** A function makes a string with the value [v]. *)
Definition makes (m : act heap addr) h R v : Prop :=
  exists h' a, m h = Ret (a, h') /\ wf h' (a :: R) /\ holds h' a v /\ frame h h' R.

Lemma new_chars bin h R l : wf h R -> Z.of_nat (length l) < 2 ^ 60 -> Z.of_nat (S (length R)) < 2 ^ 60 ->
  makes (d ← alloc_ bin 0 g1 g2 (Z.of_nat (length l)); _ ← store_ bin d 0 l; mret d) h R (bin, l).
Proof.
  intros Hwf Hl Hr. destruct (alloc_ok_ bin 0 g1 g2 h R (Z.of_nat (length l)) Hwf) as (h1 & a & cs & E & O & Hcs & F & _); [lia|done|].
  destruct (str_fill_ok bin h1 R a cs 0 l O) as (h2 & E2 & O2 & F2 & _); [lia|]. rewrite take_0, drop_ge, app_nil_r in O2 by lia. cbn [app] in O2.
  exists h2, a. unfold mbind, act_bind. rewrite E. change 0 with (Z.of_nat 0) at 1. rewrite E2. split_and!; [done|apply O2|by apply owns_holds in O2|].
  eauto using frame_trans.
Qed.

Lemma String_ascii_ok h R l : wf h R -> Z.of_nat (length l) < 2 ^ 60 -> Z.of_nat (S (length R)) < 2 ^ 60 -> makes (String_ascii g1 l) h R (true, l).
Proof. apply (new_chars true). Qed.

Lemma String_wide_ok h R l : wf h R -> Z.of_nat (length l) < 2 ^ 60 -> Z.of_nat (S (length R)) < 2 ^ 60 -> makes (String_wide g2 l) h R (false, l).
Proof. apply (new_chars false). Qed.

Lemma ref_makes h R s v : wf h R -> s ∈ statics_refs ++ R -> holds h s v -> Z.of_nat (S (length R)) < 2 ^ 60 -> makes (ref s) h R v.
Proof.
  intros Hwf Hs Hh Hr. destruct (ref_ok h R s Hwf Hs Hr) as (h' & E & W & F). exists h', s. split_and!; [done|done|apply F; [apply in_refs|done]|by apply frame_cons in F].
Qed.

Lemma in_statics s R : s ∈ statics_refs -> s ∈ statics_refs ++ R.
Proof. intros H. apply elem_of_app. by left. Qed.
Lemma in_zero R : s_zero ∈ statics_refs ++ R.
Proof. apply in_statics. by right; left. Qed.
Lemma in_cons a s R : s ∈ statics_refs ++ R -> s ∈ statics_refs ++ a :: R.
Proof. rewrite !elem_of_app. intros [H|H]; [by left|right; by right]. Qed.

Lemma String_empty_ok h R : wf h R -> Z.of_nat (S (length R)) < 2 ^ 60 -> makes String_empty h R (true, []).
Proof. intros Hwf Hr. apply ref_makes; [done|apply in_zero|apply wf_zero with R; done|done]. Qed.

(** ** Temporaries *)

(** Giving up the first of two strings. *)
Lemma drop_ok h R t d v : wf h (t :: d :: R) -> holds h d v ->
  exists h', unref t h = Ret (tt, h') /\ wf h' (d :: R) /\ holds h' d v /\ frame h h' (d :: R).
Proof.
  intros Hwf Hh. destruct (str_unref_ok h (d :: R) t Hwf) as (h' & E & W & F & _). exists h'. split_and!; [done|done|apply F; [apply in_refs|done]|done].
Qed.

Lemma swap_refs h a d R : wf h (a :: d :: R) -> wf h (d :: a :: R).
Proof. apply str_wf_perm. constructor. Qed.
Lemma swap_frame h h' a d R : frame h h' (a :: d :: R) -> frame h h' (d :: a :: R).
Proof. apply frame_perm. constructor. Qed.

Lemma returned_ok h R t v : wf h (t :: R) -> holds h t v -> Z.of_nat (S (S (length R))) < 2 ^ 60 -> makes (returned t) h R v.
Proof.
  intros Hwf Hh Hr. destruct (ref_ok h (t :: R) t Hwf (in_refs t R)) as (h1 & E1 & W1 & F1); [simpl; lia|].
  destruct (drop_ok h1 R t t v W1) as (h2 & E2 & W2 & K2 & F2); [apply F1; [apply in_refs|done]|].
  exists h2, t. unfold returned, mbind, act_bind. rewrite E1, E2. split_and!; try done. apply frame_cons in F1, F2. apply frame_cons in F1. eauto using frame_trans.
Qed.

(** A temporary is appended. *)
Lemma append_temp_ok h R d v w x (tmp : act heap addr) : wf h (d :: R) -> holds h d v -> makes tmp h (d :: R) w -> joins v w x ->
  Z.of_nat (length v.2) + Z.of_nat (length w.2) < 2 ^ 60 -> Z.of_nat (S (S (S (length R)))) < 2 ^ 60 ->
  makes (append_temp g1 g2 d tmp) h R x.
Proof.
  intros Hwf Hh (h1 & t & E1 & W1 & K1 & F1) Hj Hl Hr.
  destruct (str_append_ok g1 g2 h1 (t :: R) d t v w x) as (h2 & d2 & E2 & W2 & K2 & F2).
  - by apply swap_refs.
  - apply in_cons, in_refs.
  - apply F1; [apply in_refs|done].
  - done.
  - done.
  - done.
  - simpl. lia.
  - destruct (drop_ok h2 R t d2 x) as (h3 & E3 & W3 & K3 & F3); [by apply swap_refs|done|].
    exists h3, d2. unfold append_temp, mbind, act_bind. rewrite E1, E2, E3. split_and!; try done.
    apply frame_cons in F1, F2, F3. eauto using frame_trans.
Qed.

Lemma plus_ok h R d s v w x : wf h R -> d ∈ statics_refs ++ R -> s ∈ statics_refs ++ R -> holds h d v -> holds h s w -> joins v w x ->
  Z.of_nat (length v.2) + Z.of_nat (length w.2) < 2 ^ 60 -> Z.of_nat (S (S (length R))) < 2 ^ 60 -> makes (plus g1 g2 d s) h R x.
Proof.
  intros Hwf Hd Hs Hhd Hhs Hj Hl Hr. destruct (ref_ok h R d Hwf Hd) as (h1 & E1 & W1 & F1); [lia|].
  destruct (str_append_ok g1 g2 h1 R d s v w x W1) as (h2 & t & E2 & W2 & K2 & F2); [by apply in_cons|apply F1; [by apply in_cons|done]..|done|done|lia|].
  destruct (returned_ok h2 R t x W2 K2) as (h3 & r & E3 & W3 & K3 & F3); [lia|].
  exists h3, r. unfold plus, mbind, act_bind. rewrite E1, E2, E3. split_and!; try done. apply frame_cons in F1. eauto using frame_trans.
Qed.

(** ** Parts *)

Lemma bytes_part l (pos len : nat) : (pos + len <= length l)%nat -> mem_range (l ++ [0]) (Z.of_nat pos) (Z.of_nat len) = Ret (take len (drop pos l)).
Proof.
  intros H. unfold mem_range. destruct (Z.ltb_spec (Z.of_nat pos) 0); [lia|]. destruct (Z.ltb_spec (Z.of_nat len) 0); [lia|]. cbn [orb].
  rewrite length_app. simpl length. destruct (Z.ltb_spec (Z.of_nat (length l + 1)) (Z.of_nat pos + Z.of_nat len)); [lia|].
  rewrite !Nat2Z.id, drop_app_le, take_app_le by (rewrite ?length_drop; lia). done.
Qed.

(** The part of a list that [mid] takes. *)
Definition part l (pos len : Z) : list Z := take (Z.to_nat len) (drop (Z.to_nat pos) l).

Lemma length_part l pos len : (length (part l pos len) <= length l)%nat.
Proof. unfold part. rewrite length_take, length_drop. lia. Qed.

Lemma mid_ok h R d v pos len : wf h R -> d ∈ statics_refs ++ R -> holds h d v -> convertible true v -> 0 <= pos -> 0 <= len ->
  Z.of_nat (S (length R)) < 2 ^ 60 -> makes (mid g1 d pos len) h R (true, part v.2 pos len).
Proof.
  intros Hwf Hd Hh Hc Hp Hlen Hr. pose proof Hh as (n & Hn & Hv). pose proof (sd_length _ _ _ Hv) as L. pose proof (sd_small _ _ _ Hv) as Sm.
  unfold mid. destruct (Z.ltb_spec (length_ n) pos) as [Hlt|Hge].
  - destruct (String_empty_ok h R Hwf Hr) as (h' & a & E & W & K & F). exists h', a. unfold mbind, act_bind. rewrite (sd_eq _ _ _ Hn).
    destruct (Z.ltb_spec (length_ n) pos); [|lia]. rewrite E. unfold part. rewrite drop_ge, take_nil by lia. done.
  - destruct (refByte_ok g1 h R d v Hwf Hd Hh Hc) as (h1 & E1 & W1 & F1).
    set (len' := if length_ n - pos <? len then length_ n - pos else len).
    assert (0 <= len' /\ pos + len' <= length_ n /\ part v.2 pos len = part v.2 pos len') as (B1 & B2 & B3).
    { unfold len'. destruct (Z.ltb_spec (length_ n - pos) len); split_and!; try lia; [|done]. unfold part. rewrite !take_ge; [done|rewrite length_drop; lia..]. }
    assert (mem_range (v.2 ++ [0]) pos len' = Ret (part v.2 pos len')) as Em.
    { pose proof (bytes_part v.2 (Z.to_nat pos) (Z.to_nat len') ltac:(lia)) as Eb. by rewrite !Z2Nat.id in Eb by lia. }
    pose proof (length_part v.2 pos len') as Hlp.
    destruct (String_ascii_ok h1 R (part v.2 pos len') W1) as (h2 & a & E2 & W2 & K2 & F2); [lia|done|].
    exists h2, a. unfold mbind, act_bind. rewrite (sd_eq _ _ _ Hn). destruct (Z.ltb_spec (length_ n) pos); [lia|]. fold len'. unfold ascii. rewrite E1.
    cbn [lift]. rewrite Em. cbn [lift]. rewrite E2, B3. split_and!; try done. eauto using frame_trans.
Qed.

Lemma mid_from_ok h R d v pos : wf h R -> d ∈ statics_refs ++ R -> holds h d v -> convertible true v -> 0 <= pos ->
  Z.of_nat (S (length R)) < 2 ^ 60 -> makes (mid_from g1 d pos) h R (true, drop (Z.to_nat pos) v.2).
Proof.
  intros Hwf Hd Hh Hc Hp Hr. pose proof Hh as (n & Hn & Hv). pose proof (sd_length _ _ _ Hv) as L.
  unfold mid_from. destruct (Z.ltb_spec (length_ n) pos) as [Hlt|Hge].
  - destruct (String_empty_ok h R Hwf Hr) as (h' & a & E & W & K & F). exists h', a. unfold mbind, act_bind. rewrite (sd_eq _ _ _ Hn).
    destruct (Z.ltb_spec (length_ n) pos); [|lia]. rewrite drop_ge by lia. done.
  - destruct (mid_ok h R d v pos (length_ n - pos) Hwf Hd Hh Hc Hp) as (h' & a & E & H); [lia|done|]. exists h', a.
    unfold mbind, act_bind. rewrite (sd_eq _ _ _ Hn). destruct (Z.ltb_spec (length_ n) pos); [lia|]. rewrite E.
    unfold part in H. by rewrite take_ge in H by (rewrite length_drop; lia).
Qed.

Lemma right_ok h R d v len : wf h R -> d ∈ statics_refs ++ R -> holds h d v -> convertible true v -> 0 <= len ->
  Z.of_nat (S (length R)) < 2 ^ 60 -> makes (right g1 d len) h R (if Z.of_nat (length v.2) <? len then v else (true, drop (length v.2 - Z.to_nat len) v.2)).
Proof.
  intros Hwf Hd Hh Hc Hp Hr. pose proof Hh as (n & Hn & Hv). pose proof (sd_length _ _ _ Hv) as L.
  unfold right, makes, mbind, act_bind. rewrite (sd_eq _ _ _ Hn), L. destruct (Z.ltb_spec (Z.of_nat (length v.2)) len) as [Hlt|Hge].
  - by apply ref_makes.
  - destruct (mid_ok h R d v (Z.of_nat (length v.2) - len) len Hwf Hd Hh Hc) as (h' & a & E & H); [lia|lia|done|]. exists h', a. split; [done|].
    unfold part in H. replace (Z.to_nat (Z.of_nat (length v.2) - len)) with (length v.2 - Z.to_nat len)%nat in H by lia.
    by rewrite take_ge in H by (rewrite length_drop; lia).
Qed.

Ltac perm := first [eassumption | eapply str_wf_perm; [|eassumption]; solve_Permutation | eapply frame_perm; [|eassumption]; solve_Permutation].

(** Giving up a string among others. *)
Lemma drop_one h R R' t : wf h R' -> R' ≡ₚ t :: R -> exists h', unref t h = Ret (tt, h') /\ wf h' R /\ frame h h' R.
Proof. intros Hw Hp. apply (str_wf_perm _ _ _ Hp) in Hw. destruct (str_unref_ok h R t Hw) as (h' & E & W & F & _). by exists h'. Qed.

Lemma assign_ok h R d s v : wf h (d :: R) -> s ∈ statics_refs ++ d :: R -> holds h s v -> Z.of_nat (S (S (length R))) < 2 ^ 60 ->
  exists h', assign d s h = Ret (s, h') /\ wf h' (s :: R) /\ holds h' s v /\ frame h h' R.
Proof.
  intros Hw Hs Hh Hr. destruct (ref_ok h (d :: R) s Hw Hs) as (h1 & E1 & W1 & F1); [simpl; lia|].
  destruct (drop_ok h1 R d s v) as (h2 & E2 & W2 & K2 & F2); [by apply swap_refs|apply F1; [apply in_refs|done]|].
  exists h2. unfold assign, i_setDoref, mbind, act_bind. rewrite E1, E2. split_and!; try done.
  apply frame_cons in F1, F2. apply frame_cons in F1. eauto using frame_trans.
Qed.

Lemma Forall_part (P : Z -> Prop) l pos len : Forall P l -> Forall P (part l pos len).
Proof. intros H. by apply Forall_take, Forall_drop. Qed.

(** The string put between the two parts keeps its kind. *)
Definition splice_ok_for v w : Prop := convertible true v /\ (w.1 = true \/ Forall ascii_char v.2 /\ w.1 = false).

Lemma splice_joins v w la lb : splice_ok_for v w -> (Forall ascii_char v.2 -> Forall ascii_char la /\ Forall ascii_char lb) ->
  joins (true, la) w (w.1, la ++ w.2) /\ joins (w.1, la ++ w.2) (true, lb) (w.1, la ++ w.2 ++ lb).
Proof.
  intros [_ Hk] Hab. unfold joins, is_text. cbn [fst snd]. rewrite app_assoc. destruct Hk as [-> |[Ha ->]]; [split; (split; [done|by left])|].
  destruct (Hab Ha). split; (split; [done|]); right; auto.
Qed.

Lemma splice_ok h R d s v w pos from : wf h (d :: R) -> s ∈ statics_refs ++ R -> holds h d v -> holds h s w -> splice_ok_for v w -> 0 <= pos -> 0 <= from ->
  2 * Z.of_nat (length v.2) + Z.of_nat (length w.2) < 2 ^ 60 -> room R ->
  makes (splice g1 g2 d s pos from) h R (w.1, take (Z.to_nat pos) v.2 ++ w.2 ++ drop (Z.to_nat from) v.2).
Proof.
  intros Hw Hs Hd Hh Hk Hp Hf Hl Hr. unfold room in Hr. set (la := part v.2 0 pos). set (lb := drop (Z.to_nat from) v.2).
  assert (la = take (Z.to_nat pos) v.2) as Ea by done. rewrite <- Ea.
  destruct (splice_joins v w la lb Hk) as [J1 J2]; [intros Ha; split; [by apply Forall_part|by apply Forall_drop]|].
  pose proof (length_part v.2 0 pos) as La. fold la in La. assert (length lb <= length v.2)%nat as Lb by (unfold lb; rewrite length_drop; lia).
  destruct (mid_ok h (d :: R) d v 0 pos Hw (in_refs d R) Hd (proj1 Hk) ltac:(lia) Hp) as (h1 & t1 & E1 & W1 & K1 & F1); [simpl; lia|]. fold la in K1.
  destruct (plus_ok h1 (t1 :: d :: R) t1 s (true, la) w (w.1, la ++ w.2) W1 (in_refs _ _)) as (h2 & t2 & E2 & W2 & K2 & F2);
    [by do 2 apply in_cons|done|apply F1; [by apply in_cons|done]|done|simpl in *; lia|simpl; lia|].
  destruct (mid_from_ok h2 (t2 :: t1 :: d :: R) d v from W2) as (h3 & t3 & E3 & W3 & K3 & F3);
    [do 2 apply in_cons; apply in_refs|apply F2; [apply in_cons, in_refs|apply F1; [apply in_refs|done]]|apply Hk|done|simpl; lia|]. fold lb in K3.
  destruct (plus_ok h3 (t3 :: t2 :: t1 :: d :: R) t2 t3 (w.1, la ++ w.2) (true, lb) (w.1, la ++ w.2 ++ lb) W3) as (h4 & t4 & E4 & W4 & K4 & F4);
    [apply in_cons, in_refs|apply in_refs|apply F3; [apply in_refs|done]|done|done|cbn [snd]; rewrite length_app; lia|simpl; lia|].
  destruct (assign_ok h4 (t4 :: t3 :: t2 :: t1 :: R) d t4 (w.1, la ++ w.2 ++ lb)) as (h5 & E5 & W5 & K5 & F5); [perm|apply in_cons, in_refs|done|simpl; lia|].
  destruct (drop_one h5 (t4 :: t3 :: t2 :: t1 :: R) _ t4 W5) as (h6 & E6 & W6 & F6); [done|].
  destruct (drop_one h6 (t4 :: t2 :: t1 :: R) _ t3 W6) as (h7 & E7 & W7 & F7); [solve_Permutation|].
  destruct (drop_one h7 (t4 :: t1 :: R) _ t2 W7) as (h8 & E8 & W8 & F8); [solve_Permutation|].
  destruct (drop_one h8 (t4 :: R) _ t1 W8) as (h9 & E9 & W9 & F9); [solve_Permutation|].
  exists h9, t4. split_and!.
  - unfold splice, left, mbind, act_bind. by rewrite E1, E2, E3, E4, E5, E6, E7, E8, E9.
  - done.
  - apply F9, F8, F7, F6, K5; apply in_refs.
  - intros c x Hc Hx. apply F9; [by apply in_cons|]. apply F8; [by do 2 apply in_cons|]. apply F7; [by do 3 apply in_cons|].
    apply F6; [by do 4 apply in_cons|]. apply F5; [by do 4 apply in_cons|]. apply F4; [by do 4 apply in_cons|].
    apply F3; [by do 3 apply in_cons|]. apply F2; [by do 2 apply in_cons|]. apply F1; [by apply in_cons|done].
Qed.

Lemma insert_ok h R d s v w pos : wf h (d :: R) -> s ∈ statics_refs ++ R -> holds h d v -> holds h s w -> splice_ok_for v w ->
  pos <= Z.of_nat (length v.2) -> 2 * Z.of_nat (length v.2) + Z.of_nat (length w.2) < 2 ^ 60 -> room R ->
  let p := Z.to_nat (if pos <? 0 then Z.of_nat (length v.2) + pos else pos) in
  makes (insert_ g1 g2 d pos s) h R (w.1, take p v.2 ++ w.2 ++ drop p v.2).
Proof.
  intros Hw Hs Hd Hh Hk Hp Hl Hr p. pose proof Hd as (n & Hn & Hv). pose proof (sd_length _ _ _ Hv) as L.
  unfold insert_, makes, mbind at 1, act_bind at 1. rewrite (sd_eq _ _ _ Hn), L.
  replace ((0 <=? pos) && (Z.of_nat (length v.2) <? pos)) with false by (destruct (Z.ltb_spec (Z.of_nat (length v.2)) pos); [lia|by rewrite andb_false_r]). cbv zeta.
  set (q := if pos <? 0 then if Z.of_nat (length v.2) + pos <? 0 then 0 else Z.of_nat (length v.2) + pos else pos).
  assert (0 <= q /\ Z.to_nat q = p) as [Hq Hqp].
  { unfold q, p. destruct (Z.ltb_spec pos 0); [|lia]. destruct (Z.ltb_spec (Z.of_nat (length v.2) + pos) 0); lia. }
  rewrite <- Hqp. by apply splice_ok.
Qed.

(** ** Searching *)

(** The first place where [what] begins. *)
Fixpoint index (what cs : list Z) : option nat :=
  if bool_decide (take (length what) cs = what) then Some O
  else match cs with [] => None | _ :: cs => S <$> index what cs end.

Lemma index_cons what c cs : index what (c :: cs) = if bool_decide (take (length what) (c :: cs) = what) then Some O else S <$> index what cs.
Proof. done. Qed.

Lemma index_short what cs : (length cs < length what)%nat -> index what cs = None.
Proof.
  induction cs as [|c cs IH]; intros H.
  - destruct what; [simpl in H; lia|done].
  - rewrite index_cons, bool_decide_eq_false_2; [rewrite IH; [done|simpl in H; lia]|].
    intros E. apply (f_equal length) in E. rewrite length_take in E. simpl in *. lia.
Qed.

Lemma index_some what cs k : index what cs = Some k -> (k + length what <= length cs)%nat /\ take (length what) (drop k cs) = what.
Proof.
  revert k. induction cs as [|c cs IH]; intros k H.
  - simpl in H. case_bool_decide as E; [|done]. injection H as <-. rewrite drop_0. split; [|done]. apply (f_equal length) in E. rewrite length_take in E. simpl in *. lia.
  - rewrite index_cons in H. case_bool_decide as E.
    + injection H as <-. rewrite drop_0. split; [|done]. apply (f_equal length) in E. rewrite length_take in E. simpl in *. lia.
    + apply fmap_Some in H as (k' & H & ->). destruct (IH k' H) as [IH1 IH2]. simpl. split; [lia|done].
Qed.

Lemma str_find_loop_ok am what fuel : forall start, what <> [] -> 0 <= start -> Z.max 0 (Z.of_nat (length am) + 1 - start) < Z.of_nat fuel ->
  find_loop fuel am what start = Ret (match index what (drop (Z.to_nat start) am) with Some k => start + Z.of_nat k | None => -1 end).
Proof.
  induction fuel as [|fuel IH]; intros start Hw Hs Hf.
  { lia. }
  cbn [find_loop]. destruct what as [|x what]; [done|]. clear Hw. destruct (Z.leb_spec start (Z.of_nat (length am) - Z.of_nat (length (x :: what)))) as [Hle|Hgt].
  - destruct (lookup_lt_is_Some_2 am (Z.to_nat start)) as [c Hc]; [simpl in Hle; lia|].
    rewrite (byte_at_ok (am ++ [0]) start c) by (try lia; by rewrite lookup_app_l by (simpl in Hle; lia)). cbn [mbind res_bind app byte_at].
    change (byte_at (x :: what ++ [0]) 0) with (@Ret Z x). cbn [mbind res_bind].
    rewrite (drop_S am c) by done. rewrite index_cons.
    assert (find_loop fuel am (x :: what) (start + 1) = Ret (match S <$> index (x :: what) (drop (S (Z.to_nat start)) am) with Some k => start + Z.of_nat k | None => -1 end)) as Hnext.
    { rewrite IH by (done || lia). replace (Z.to_nat (start + 1)) with (S (Z.to_nat start)) by lia. destruct (index (x :: what) _); [|done]. cbn [fmap option_fmap option_map]. f_equal. lia. }
    destruct (Z.eqb_spec c x) as [->|Hcx]; cbn [negb].
    + pose proof (bytes_part am (Z.to_nat start) (length (x :: what)) ltac:(lia)) as Em. rewrite Z2Nat.id in Em by lia. rewrite Em. cbn [mbind res_bind].
      rewrite (drop_S am x) by done. rewrite cmp_chars_eq by (rewrite length_take; cbn [length] in *; rewrite length_drop; lia). case_bool_decide; [by rewrite Z.add_0_r|exact Hnext].
    + rewrite bool_decide_eq_false_2; [done|]. by intros [= ].
  - by rewrite index_short by (rewrite length_drop; simpl in *; lia).
Qed.

Lemma find_ok h R d s v w start : wf h R -> d ∈ statics_refs ++ R -> s ∈ statics_refs ++ R -> holds h d v -> holds h s w ->
  convertible true v -> convertible true w -> w.2 <> [] -> 0 <= start ->
  exists h', find g1 d s start h = Ret (match index w.2 (drop (Z.to_nat start) v.2) with Some k => start + Z.of_nat k | None => -1 end, h') /\ wf h' R /\ frame h h' R.
Proof.
  intros Hwf Hd Hs Hhd Hhs Cv Cw Hne Hst. destruct (refByte_ok g1 h R d v Hwf Hd Hhd Cv) as (h1 & E1 & W1 & F1).
  destruct (refByte_ok g1 h1 R s w W1 Hs (F1 s w Hs Hhs) Cw) as (h2 & E2 & W2 & F2). exists h2.
  split_and!; [|done|eauto using frame_trans]. unfold find, ascii, mbind, act_bind. rewrite E1, E2.
  destruct (Z.ltb_spec (Z.of_nat (length v.2)) (Z.of_nat (length w.2))).
  - by rewrite index_short by (rewrite length_drop; lia).
  - by rewrite str_find_loop_ok by (done || lia).
Qed.

(** ** Replacing *)

(** Every occurrence of [what] replaced, from left to right. *)
Fixpoint subst (fuel : nat) (what rep cs : list Z) : list Z :=
  match fuel with
  | O => cs
  | S fuel => match index what cs with Some k => take k cs ++ rep ++ subst fuel what rep (drop (k + length what) cs) | None => cs end
  end.

Definition replaceable v w : Prop := convertible true v /\ (w.1 = true \/ Forall ascii_char v.2 /\ Forall ascii_char w.2 /\ w.1 = false).

Lemma getLength_ok h s v : holds h s v -> getLength s h = Ret (Z.of_nat (length v.2), h).
Proof. intros (n & Hn & Hv). unfold getLength, mbind, act_bind. rewrite (sd_eq _ _ _ Hn). by rewrite (sd_length _ _ _ Hv). Qed.

Lemma replace_loop_ok fuel : forall h R d what rep v u w pre cs (total : nat),
  wf h (d :: R) -> what ∈ statics_refs ++ R -> rep ∈ statics_refs ++ R -> holds h d v -> holds h what u -> holds h rep w ->
  convertible true u -> u.2 <> [] -> replaceable v w -> v.2 = pre ++ cs -> (length cs < fuel)%nat ->
  (length pre + length cs * S (length w.2) <= total)%nat -> 2 * Z.of_nat total + Z.of_nat (length w.2) < 2 ^ 60 -> room R ->
  makes (replace_loop g1 g2 fuel d what rep (Z.of_nat (length pre))) h R
    (match index u.2 cs with Some _ => w.1 | None => v.1 end, pre ++ subst fuel u.2 w.2 cs).
Proof.
  induction fuel as [|fuel IH]; intros h R d what rep v u w pre cs total Hwf Hwhat Hrep Hd Hu Hw Cu Hne Hrv Ev Hf Ht Hbig Hr; [lia|].
  destruct (find_ok h (d :: R) d what v u (Z.of_nat (length pre)) Hwf (in_refs d R) (in_cons d what R Hwhat) Hd Hu (proj1 Hrv) Cu Hne ltac:(lia)) as (h1 & E1 & W1 & F1).
  rewrite Ev, Nat2Z.id, drop_app_length in E1. unfold makes. cbn [replace_loop subst]. unfold mbind at 1, act_bind at 1. rewrite E1.
  destruct (index u.2 cs) as [k|] eqn:Ei.
  2: { simpl Z.ltb. cbv iota. exists h1, d. split_and!; [done|done| |by apply frame_cons in F1]. rewrite <- Ev. apply F1; [apply in_refs|]. by destruct v. }
  destruct (index_some _ _ _ Ei) as [Hk _]. destruct (Z.ltb_spec (Z.of_nat (length pre) + Z.of_nat k) 0); [lia|].
  assert (1 <= length u.2)%nat as Hlu by (destruct (u.2); [done|simpl; lia]).
  unfold mbind at 1, act_bind at 1. rewrite (getLength_ok h1 what u) by (apply F1; [by apply in_cons|done]).
  assert (length v.2 <= total)%nat as Hlv by (rewrite Ev, length_app; nia).
  destruct (splice_ok h1 R d rep v w (Z.of_nat (length pre) + Z.of_nat k) (Z.of_nat (length pre) + Z.of_nat k + Z.of_nat (length u.2)) W1 Hrep) as (h2 & d2 & E2 & W2 & K2 & F2);
    [apply F1; [apply in_refs|done]|apply F1; [by apply in_cons|done]|split; [apply Hrv|destruct Hrv as [_ [?|(? & _ & ?)]]; auto]|lia|lia|lia|done|].
  unfold mbind at 1, act_bind at 1. rewrite E2. unfold mbind at 1, act_bind at 1.
  rewrite (getLength_ok h2 rep w) by (apply F2; [done|]; apply F1; [by apply in_cons|done]).
  set (pre' := pre ++ take k cs ++ w.2). set (cs' := drop (k + length u.2) cs). set (v' := (w.1, take (Z.to_nat (Z.of_nat (length pre) + Z.of_nat k)) v.2 ++ w.2 ++ drop (Z.to_nat (Z.of_nat (length pre) + Z.of_nat k + Z.of_nat (length u.2))) v.2)) in *.
  assert (v'.2 = pre' ++ cs') as Ev'.
  { unfold v', pre', cs'. cbn [snd]. rewrite Ev. rewrite take_app_ge, drop_app_ge by lia. rewrite <- !app_assoc. do 4 f_equal; f_equal; lia. }
  assert (length pre' = length pre + k + length w.2 /\ length cs' = length cs - (k + length u.2))%nat as [Lp Lc].
  { unfold pre', cs'. rewrite !length_app, length_take, length_drop. lia. }
  destruct (IH h2 R d2 what rep v' u w pre' cs' total W2 Hwhat Hrep K2) as (h3 & d3 & E3 & W3 & K3 & F3); try done.
  - apply F2; [done|]. apply F1; [by apply in_cons|done].
  - apply F2; [done|]. apply F1; [by apply in_cons|done].
  - unfold v'. destruct Hrv as [Hcv [Hw1|(Ha1 & Ha2 & Hw1)]]; split; cbn [fst snd]; rewrite ?Hw1.
    + by left. + by left.
    + right. cbn [snd]. rewrite !Forall_app. split_and!; [by apply Forall_take|done|by apply Forall_drop].
    + right. rewrite !Forall_app. split_and!; [by apply Forall_take|done|by apply Forall_drop|done|done].
  - lia.
  - rewrite Lp, Lc. nia.
  - exists h3, d3. replace (Z.of_nat (length pre) + Z.of_nat k + Z.of_nat (length w.2)) with (Z.of_nat (length pre')) by lia.
    split_and!; [done|done| |apply frame_cons in F1; eauto using frame_trans].
    replace (match index u.2 cs' with Some _ => w.1 | None => v'.1 end) with w.1 in K3 by (by destruct (index u.2 cs')).
    unfold pre' in K3. by rewrite <- !app_assoc in K3.
Qed.

(** ** The last occurrence *)

(** The last place before [n] where [what] begins. *)
Fixpoint rindex what cs (n : nat) : option nat :=
  match n with
  | O => None
  | S n => if bool_decide (take (length what) (drop n cs) = what) then Some n else rindex what cs n
  end.

Lemma str_rfind_loop_ok am what (n fuel : nat) : (n + length what <= S (length am))%nat -> (n < fuel)%nat ->
  rfind_loop fuel am what (Z.of_nat n - 1) = Ret (match rindex what am n with Some k => Z.of_nat k | None => -1 end).
Proof.
  revert fuel. induction n as [|n IH]; intros fuel Hl Hf; (destruct fuel as [|fuel]; [lia|]); cbn [rfind_loop rindex]; [done|].
  replace (Z.of_nat (S n) - 1) with (Z.of_nat n) by lia. destruct (Z.leb_spec 0 (Z.of_nat n)); [|lia].
  rewrite bytes_part by lia. cbn [mbind res_bind]. rewrite cmp_chars_eq by (rewrite length_take, length_drop; lia).
  case_bool_decide; [done|]. apply IH; lia.
Qed.

Lemma rfind_ok h R d s v w (before : nat) : wf h R -> d ∈ statics_refs ++ R -> s ∈ statics_refs ++ R -> holds h d v -> holds h s w ->
  convertible true v -> convertible true w ->
  exists h', rfind g1 d s (Z.of_nat before) h =
    Ret (match rindex w.2 v.2 (Nat.min before (S (length v.2) - length w.2)) with Some k => Z.of_nat k | None => -1 end, h') /\ wf h' R /\ frame h h' R.
Proof.
  intros Hwf Hd Hs Hhd Hhs Cv Cw. destruct (refByte_ok g1 h R d v Hwf Hd Hhd Cv) as (h1 & E1 & W1 & F1).
  destruct (refByte_ok g1 h1 R s w W1 Hs (F1 s w Hs Hhs) Cw) as (h2 & E2 & W2 & F2). exists h2.
  split_and!; [|done|eauto using frame_trans]. unfold rfind, ascii, mbind, act_bind. rewrite E1, E2. cbv zeta.
  destruct (Z.ltb_spec (Z.of_nat (length v.2) - Z.of_nat (length w.2)) 0) as [Hlt|Hge].
  - by replace (Nat.min before (S (length v.2) - length w.2)) with 0%nat by lia.
  - set (n := Nat.min before (S (length v.2) - length w.2)).
    assert ((if Z.of_nat (length v.2) - Z.of_nat (length w.2) <? Z.of_nat before then Z.of_nat (length v.2) - Z.of_nat (length w.2) + 1 else Z.of_nat before) = Z.of_nat n) as ->
      by (unfold n; destruct (Z.ltb_spec (Z.of_nat (length v.2) - Z.of_nat (length w.2)) (Z.of_nat before)); lia).
    by rewrite (str_rfind_loop_ok v.2 w.2 n) by (unfold n; lia).
Qed.

(** ** Beginnings and ends *)

Lemma part_equal h R s v w (tmp : act heap addr) x : wf h R -> s ∈ statics_refs ++ R -> holds h s w -> makes tmp h R x -> comparable x w -> w.2 <> [] ->
  exists h', (t ← tmp; r ← equal g2 t s; _ ← unref t; mret r) h = Ret (bool_decide (x.2 = w.2), h') /\ wf h' R /\ frame h h' R.
Proof.
  intros Hwf Hs Hh (h1 & t & E1 & W1 & K1 & F1) Hc Hne. pose proof (F1 s w Hs Hh) as Hh1.
  destruct (str_beq_ok g2 h1 (t :: R) t s x w W1 (in_refs t R) (in_cons t s R Hs) K1 Hh1 Hc) as (h2 & E2 & W2 & F2).
  destruct (str_unref_ok h2 R t W2) as (h3 & E3 & W3 & F3 & _). exists h3. unfold equal, mbind, act_bind. rewrite E1, E2, E3.
  split_and!; [|done|apply frame_cons in F2; eauto using frame_trans].
  enough (bool_decide (same_value t s x w) = bool_decide (x.2 = w.2)) as -> by done. apply bool_decide_ext. split; [by intros [? _]|]. intros Exw. split; [done|].
  assert (forall a y, holds h1 a y -> y.2 <> [] -> a <> s_null) as Hnull.
  { intros a y (n & Hn & Hv) Hy ->. destruct (wf_null _ _ W1) as (m & Hm & Hw). assert (n = m) as -> by congruence. by rewrite (sd_ok_inj _ _ _ _ Hv Hw) in Hy. }
  split; intros ->; exfalso; [eapply Hnull, eq_refl; [exact K1|congruence]|eapply Hnull, eq_refl; [exact Hh1|done]].
Qed.

(** The strings that can be compared with a part of [v]. *)
Definition part_of v w : Prop := convertible true v /\ (w.1 = true \/ Forall ascii_char v.2).

Lemma part_comparable v w l : part_of v w -> (Forall ascii_char v.2 -> Forall ascii_char l) -> comparable (true, l) w.
Proof.
  intros [_ [Hw|Ha]] Hl; [by left|]. destruct (w.1) eqn:E; [by left|]. right. unfold is_text. cbn [fst snd]. split; [right; auto|by left].
Qed.

Lemma startsWith_ok h R d s v w : wf h R -> d ∈ statics_refs ++ R -> s ∈ statics_refs ++ R -> holds h d v -> holds h s w -> part_of v w -> w.2 <> [] ->
  Z.of_nat (S (length R)) < 2 ^ 60 ->
  exists h', startsWith g1 g2 d s h = Ret (bool_decide (take (length w.2) v.2 = w.2), h') /\ wf h' R /\ frame h h' R.
Proof.
  intros Hwf Hd Hs Hhd Hhs Hp Hne Hr. unfold startsWith, mbind at 1, act_bind at 1. rewrite (getLength_ok h s w Hhs).
  apply (part_equal h R s v w (left g1 d (Z.of_nat (length w.2))) (true, take (length w.2) v.2)); try done.
  - pose proof (mid_ok h R d v 0 (Z.of_nat (length w.2)) Hwf Hd Hhd (proj1 Hp) ltac:(lia) ltac:(lia) Hr) as H. unfold part in H. by rewrite Nat2Z.id in H.
  - apply (part_comparable v); [done|]. apply Forall_take.
Qed.

Lemma endsWith_ok h R d s v w : wf h R -> d ∈ statics_refs ++ R -> s ∈ statics_refs ++ R -> holds h d v -> holds h s w -> part_of v w -> comparable v w -> w.2 <> [] ->
  Z.of_nat (S (length R)) < 2 ^ 60 ->
  exists h', endsWith g1 g2 d s h = Ret (bool_decide (drop (length v.2 - length w.2) v.2 = w.2), h') /\ wf h' R /\ frame h h' R.
Proof.
  intros Hwf Hd Hs Hhd Hhs Hp Hcmp Hne Hr. unfold endsWith, mbind at 1, act_bind at 1. rewrite (getLength_ok h s w Hhs).
  pose proof (right_ok h R d v (Z.of_nat (length w.2)) Hwf Hd Hhd (proj1 Hp) ltac:(lia) Hr) as H. rewrite Nat2Z.id in H.
  destruct (Z.ltb_spec (Z.of_nat (length v.2)) (Z.of_nat (length w.2))) as [Hlt|Hge].
  - replace (length v.2 - length w.2)%nat with 0%nat by lia. rewrite drop_0. apply (part_equal h R s v w (right g1 d (Z.of_nat (length w.2))) v); try done.
  - apply (part_equal h R s v w (right g1 d (Z.of_nat (length w.2))) (true, drop (length v.2 - length w.2) v.2)); try done.
    apply (part_comparable v); [done|]. apply Forall_drop.
Qed.

(** ** Numbers *)

Lemma digit_table_ok base : 2 <= base <= 36 -> tab_ok digit_table base.
Proof. intros H. split; [|by apply (bool_decide_unpack _); vm_compute]. unfold blen. change (length digit_table) with 36%nat. lia. Qed.

Lemma number_loop_ok base cap fuel : forall n buf, 2 <= base <= 36 -> 0 <= n < base ^ Z.of_nat fuel -> Z.of_nat (length buf) + Z.of_nat fuel <= cap -> (0 < fuel)%nat ->
  forall more, number_loop (fuel + more) cap base n buf = Ret (rev (rep_rev fuel digit_table base n) ++ buf).
Proof.
  induction fuel as [|fuel IH]; intros n buf Hb Hn Hl Hf more; [lia|]. cbn [number_loop rep_rev Nat.add].
  destruct (Z.eqb_spec base 0); [lia|]. destruct (tab_digit digit_table base n (digit_table_ok base Hb)) as [-> _]. cbn [mbind res_bind]. set (c := default 63 _).
  destruct (Z.leb_spec cap (Z.of_nat (length buf))); [lia|]. rewrite Nat2Z.inj_succ, Z.pow_succ_r in Hn by lia. cbv zeta.
  destruct (Z.eqb_spec (n / base) 0) as [E|E]; destruct (Z.ltb_spec n base) as [Hlt|Hlt]; try done.
  - apply Z.div_small_iff in E; [lia|]. lia.
  - destruct E. apply Z.div_small. lia.
  - assert (0 <= n / base < base ^ Z.of_nat fuel) as Hv' by (split; [apply Z.div_pos; lia|apply Z.div_lt_upper_bound; lia]).
    rewrite IH; [simpl; by rewrite <- app_assoc|done|done|simpl length; lia|]. destruct fuel; [|lia]. simpl in Hv'. lia.
Qed.

(** What [appendNumber] writes. *)
Definition print_number (base n : Z) : list Z := (if n <? 0 then [45] else []) ++ rep digit_table base (Z.abs n).

Lemma rep_rev_more tab base fuel : forall n more, 2 <= base -> 0 <= n < base ^ Z.of_nat fuel -> (0 < fuel)%nat -> rep_rev (fuel + more) tab base n = rep_rev fuel tab base n.
Proof.
  induction fuel as [|fuel IH]; intros n more Hb Hn Hf; [lia|]. cbn [rep_rev Nat.add]. cbv zeta. destruct (Z.ltb_spec n base) as [|Hlt]; [done|]. f_equal.
  rewrite Nat2Z.inj_succ, Z.pow_succ_r in Hn by lia. apply IH; [done|split; [apply Z.div_pos; lia|apply Z.div_lt_upper_bound; lia]|].
  destruct fuel; [|lia]. simpl in Hn. lia.
Qed.

Lemma rep_rev_length tab base fuel : forall n, (length (rep_rev fuel tab base n) <= fuel)%nat.
Proof. induction fuel as [|fuel IH]; intros n; [done|]. cbn [rep_rev]. cbv zeta. destruct (n <? base); simpl; [lia|]. specialize (IH (n / base)). lia. Qed.

Lemma digits_of (bits cap base n : Z) : 2 <= base <= 36 -> bits = 32 \/ bits = 64 -> 0 <= n < 2 ^ bits -> bits <= cap ->
  number_loop (S (Z.to_nat cap)) cap base n [] = Ret (rep digit_table base n) /\ blen (rep digit_table base n) <= bits.
Proof.
  intros Hb Hw Hn Hc. assert (0 <= n < base ^ Z.of_nat (Z.to_nat bits)) as Hn'.
  { rewrite Z2Nat.id by lia. split; [lia|]. apply Z.lt_le_trans with (2 ^ bits); [lia|]. apply Z.pow_le_mono_l. lia. }
  assert (rep digit_table base n = rev (rep_rev (Z.to_nat bits) digit_table base n)) as ->.
  { unfold rep. replace 65%nat with (Z.to_nat bits + (65 - Z.to_nat bits))%nat by lia. by rewrite rep_rev_more by lia. }
  split.
  - replace (S (Z.to_nat cap)) with (Z.to_nat bits + (S (Z.to_nat cap) - Z.to_nat bits))%nat by lia.
    rewrite (number_loop_ok base cap) by (simpl; lia). by rewrite app_nil_r.
  - unfold blen. rewrite length_rev. pose proof (rep_rev_length digit_table base (Z.to_nat bits) n). lia.
Qed.

(** The base as the functions use it: of four or eight bytes. *)
Lemma base_ok (bits base : Z) : 2 <= base <= 36 -> (if bits =? 64 then u64 (s32 (u32 base)) else u32 base) = base.
Proof.
  intros H. rewrite (uwrap_id 32) by (unfold in_u; lia). destruct (bits =? 64); [|done].
  rewrite (swrap_id 32) by (done || unfold in_s; lia). by rewrite (uwrap_id 64) by (unfold in_u; lia).
Qed.

Lemma print_ascii base n : 2 <= base <= 36 -> Forall ascii_char (print_number base n).
Proof.
  intros H. unfold print_number. apply Forall_app. split; [by destruct (n <? 0); repeat constructor|].
  by destruct (rep_props digit_table base (Z.abs n) (digit_table_ok base H)).
Qed.

Lemma append_signed_ok (bits cap : Z) h R d v number base : wf h (d :: R) -> holds h d v -> in_s bits number -> 2 <= base <= 36 ->
  bits = 32 /\ cap = 48 \/ bits = 64 /\ cap = 80 -> Z.of_nat (length v.2) + 128 < 2 ^ 60 -> Z.of_nat (S (S (length R))) < 2 ^ 60 ->
  makes (append_signed g1 g2 bits cap d number base) h R (v.1, v.2 ++ print_number base number).
Proof.
  intros Hwf Hh Hn Hb Hw Hl Hr. unfold append_signed. cbv zeta. rewrite base_ok by done.
  assert (uwrap bits (if number <? 0 then swrap bits (- number) else number) = Z.abs number /\ 0 <= Z.abs number < 2 ^ bits) as [En Hn'].
  { destruct Hw as [[-> ->]|[-> ->]]; unfold in_s in Hn;
      (destruct (Z.ltb_spec number 0); [rewrite uwrap_swrap by lia|]; rewrite ?uwrap_id by (unfold in_u; lia); lia). }
  rewrite En. destruct (digits_of bits cap base (Z.abs number) Hb) as [Ed Ld]; [lia..|]. rewrite Ed. cbn [mbind res_bind].
  assert ((if number <? 0 then push_char cap 45 (rep digit_table base (Z.abs number)) else Ret (rep digit_table base (Z.abs number))) = Ret (print_number base number)) as ->.
  { unfold print_number. destruct (number <? 0); [|done]. unfold push_char. unfold blen in Ld. by destruct (Z.leb_spec cap (Z.of_nat (length (rep digit_table base (Z.abs number))))); [lia|]. }
  assert (length (print_number base number) <= 128)%nat as Lp.
  { unfold print_number. rewrite length_app. unfold blen in Ld. destruct (number <? 0); simpl length; lia. }
  destruct (appendAscii_ok g1 g2 h R d v (print_number base number) Hwf Hh) as (h' & a & Ea & Wa & _ & Ka & Fa); [right; by apply print_ascii|lia|lia|].
  by exists h', a.
Qed.

(** ** Lower and upper case *)

Lemma new_or_zero h R l : wf h R -> Z.of_nat (length l) < 2 ^ 60 -> Z.of_nat (S (length R)) < 2 ^ 60 ->
  makes (if decide (l = []) then ref s_zero else String_ascii g1 l) h R (true, l).
Proof.
  intros Hwf Hl Hr. case_decide as E; [|by apply String_ascii_ok]. subst l. by apply (String_empty_ok h R).
Qed.

Lemma createCase_ok (f : Z -> Z) (make : list Z -> act heap addr) h R d v :
  (forall l, make l = if decide (l = []) then ref s_zero else String_ascii g1 (map f l)) ->
  wf h R -> d ∈ statics_refs ++ R -> holds h d v -> convertible true v -> Z.of_nat (S (length R)) < 2 ^ 60 ->
  makes (o ← refByte g1 d; make o) h R (true, map f v.2).
Proof.
  intros Hmake Hwf Hd Hh Hc Hr. pose proof Hh as (n & Hn & Hv). pose proof (sd_length _ _ _ Hv) as L. pose proof (sd_small _ _ _ Hv) as Sm.
  destruct (refByte_ok g1 h R d v Hwf Hd Hh Hc) as (h1 & E1 & W1 & F1).
  destruct (new_or_zero h1 R (map f v.2) W1) as (h2 & a & E2 & W2 & K2 & F2); [rewrite length_map; lia|done|].
  exists h2, a. unfold mbind, act_bind. rewrite E1, Hmake. split_and!; [|done..|eauto using frame_trans].
  rewrite <- E2. by destruct (v.2).
Qed.

End Ops.
