(* ===== verification/StringSpec.v ===== *)
(** * Strings as values

    What a program that uses String sees: strings are values, each a kind (bytes,
    or text that is ASCII or wide) and its characters. Every sequence of calls on
    string objects gives the results of the same calls on values, whatever blocks
    the objects share and whichever of the two forms of a block is filled. *)

From Stdlib Require Import String Ascii.
From S2P Require Import Prelude Machine CString Heap StrData StrDataRefs StrDataOps StrDataValues StrFormat StrFormatSpec StrFormatOk Strings StringOps.

#[local] Abbreviation heap := (gmap addr strdata).
#[local] Abbreviation ascii_char := StrDataRefs.ascii.
#[local] Abbreviation M := (act heap).

(** ** Programs *)

Section Programs.
Variable ldouble : Type.

(** A call on the objects of a program, which are numbered. *)
Inductive op :=
| New (l : list Z)
| NewWide (l : list Z)
| Copy (i : nat)
| Format (items : list item) (args : list (va ldouble))
| Concat (i j : nat)
| Mid (i k c : nat)
| MidFrom (i k : nat)
| Left (i k : nat)
| Right (i k : nat)
| Lower (i : nat)
| Upper (i : nat)
| Assign (i j : nat)
| SetEmpty (i : nat)
| Set_ (i : nat) (l : list Z)
| Append (i j : nat)
| AppendBytes (i : nat) (l : list Z)
| AppendReverse (i : nat) (l : list Z)
| AppendWide (i : nat) (l : list Z)
| AppendS32 (i : nat) (n base : Z)
| AppendS64 (i : nat) (n base : Z)
| Insert (i : nat) (pos : Z) (j : nat)
| Replace (i j k : nat)
| Destroy (i : nat)
| Equal (i j : nat)
| StartsWith (i j : nat)
| EndsWith (i j : nat)
| Find (i j start : nat)
| RFind (i j before : nat)
| HashOf (i : nat)
| GetUtf8 (i : nat)
| GetWide (i : nat).

Variable measure : ldouble -> magnitude.
Variable sprintf_float : bool -> option Z -> option Z -> ldouble -> list Z.
Variables g1 g2 : Z.

Definition obj (objs : list addr) (i : nat) : M addr := lift (match objs !! i with Some d => Ret d | None => Crash OutOfBounds end).

(** A call that makes an object, one that changes an object, and one that does neither. *)
Definition make (objs : list addr) (m : M addr) : M (list addr * list Z) := a ← m; mret (objs ++ [a], []).
Definition change (objs : list addr) (i : nat) (m : addr -> M addr) : M (list addr * list Z) :=
  d ← obj objs i; d ← m d; mret (<[i := d]> objs, []).
Definition observe (objs : list addr) (m : M (list Z)) : M (list addr * list Z) := r ← m; mret (objs, r).

(** What [%n] stored, as one list. *)
Definition stored (st : list (nat * Z * Z)) : list Z := mjoin (map (fun x => [Z.of_nat x.1.1; x.1.2; x.2]) st).

Definition run_op (o : op) (objs : list addr) : M (list addr * list Z) :=
  match o with
  | New l => make objs (String_ascii g1 l)
  | NewWide l => make objs (String_wide g2 l)
  | Copy i => make objs (d ← obj objs i; String_copy d)
  | Format items args =>
    r ← vformats ldouble measure sprintf_float g1 g2 (show items) args; mret (objs ++ [r.1], stored r.2)
  | Concat i j => make objs (d ← obj objs i; s ← obj objs j; plus g1 g2 d s)
  | Mid i k c => make objs (d ← obj objs i; mid g1 d (Z.of_nat k) (Z.of_nat c))
  | MidFrom i k => make objs (d ← obj objs i; mid_from g1 d (Z.of_nat k))
  | Left i k => make objs (d ← obj objs i; left g1 d (Z.of_nat k))
  | Right i k => make objs (d ← obj objs i; right g1 d (Z.of_nat k))
  | Lower i => make objs (d ← obj objs i; createLower g1 d)
  | Upper i => make objs (d ← obj objs i; createUpper g1 d)
  | Assign i j => change objs i (fun d => s ← obj objs j; assign d s)
  | SetEmpty i => change objs i setEmpty
  | Set_ i l => change objs i (fun d => setAscii g1 d l)
  | Append i j => change objs i (fun d => s ← obj objs j; append_string g1 g2 d s)
  | AppendBytes i l => change objs i (fun d => StrData.appendAscii g1 g2 d l)
  | AppendReverse i l => change objs i (fun d => appendAsciiReverse_ g1 g2 d l)
  | AppendWide i l => change objs i (fun d => append_wide g1 g2 d l)
  | AppendS32 i n base => change objs i (fun d => appendNumberS32 g1 g2 d n base)
  | AppendS64 i n base => change objs i (fun d => appendNumberS64 g1 g2 d n base)
  | Insert i pos j => change objs i (fun d => s ← obj objs j; insert_ g1 g2 d pos s)
  | Replace i j k => change objs i (fun d => s ← obj objs j; r ← obj objs k; replace g1 g2 d s r)
  | Destroy i => d ← obj objs i; _ ← destroy_string d; mret (delete i objs, [])
  | Equal i j => observe objs (d ← obj objs i; s ← obj objs j; r ← equal g2 d s; mret [Z.b2z r])
  | StartsWith i j => observe objs (d ← obj objs i; s ← obj objs j; r ← startsWith g1 g2 d s; mret [Z.b2z r])
  | EndsWith i j => observe objs (d ← obj objs i; s ← obj objs j; r ← endsWith g1 g2 d s; mret [Z.b2z r])
  | Find i j start => observe objs (d ← obj objs i; s ← obj objs j; r ← find g1 d s (Z.of_nat start); mret [r])
  | RFind i j before => observe objs (d ← obj objs i; s ← obj objs j; r ← rfind g1 d s (Z.of_nat before); mret [r])
  | HashOf i => observe objs (d ← obj objs i; r ← getHash d; mret [r])
  | GetUtf8 i => observe objs (d ← obj objs i; utf8 g1 d)
  | GetWide i => observe objs (d ← obj objs i; wide_ g2 d)
  end.

Fixpoint run_ops (ops : list op) (objs : list addr) : M (list addr * list (list Z)) :=
  match ops with
  | [] => mret (objs, [])
  | o :: ops => r ← run_op o objs; rs ← run_ops ops r.1; mret (rs.1, r.2 :: rs.2)
  end.

(** ** The same calls on values *)

Definition bytes_of (l : list Z) : content := (true, l).
Definition text (v : content) : bool := negb v.1 || bool_decide (Forall ascii_char v.2).
Definition readable (bin : bool) (v : content) : bool := bool_decide (v.1 = bin) || bool_decide (Forall ascii_char v.2).

(** Bytes joined with bytes are bytes, and text joined with text is text;
    wide text is not joined with bytes that are not ASCII. *)
Definition join (v w : content) : option content :=
  if v.1 && w.1 then Some (true, v.2 ++ w.2) else if text v && text w then Some (false, v.2 ++ w.2) else None.

(** Values that are compared as bytes or as text, and parts that are compared with [w]. *)
Definition alike (v w : content) : bool := (v.1 && w.1) || (text v && text w).
Definition has_parts (v w : content) : bool := readable true v && (w.1 || bool_decide (Forall ascii_char v.2)).

(** The value with [w] put in place of the characters from [p] to [q]. *)
Definition spliced (v w : content) (p q : nat) : option content :=
  if has_parts v w then Some (w.1, take p v.2 ++ w.2 ++ drop q v.2) else None.

Definition spec_op (o : op) (vs : list content) : option (list content * list Z) :=
  let push v := Some (vs ++ [v], []) in
  let set i v := Some (<[i := v]> vs, []) in
  match o with
  | New l => push (bytes_of l)
  | NewWide l => push (false, l)
  | Copy i => v ← vs !! i; push v
  | Format items args => '(t, st) ← c_printf ldouble items 0 args; Some (vs ++ [(false, t)], stored st)
  | Concat i j => v ← vs !! i; w ← vs !! j; x ← join v w; push x
  | Mid i k c => v ← vs !! i; if readable true v then push (bytes_of (take c (drop k v.2))) else None
  | MidFrom i k => v ← vs !! i; if readable true v then push (bytes_of (drop k v.2)) else None
  | Left i k => v ← vs !! i; if readable true v then push (bytes_of (take k v.2)) else None
  | Right i k => v ← vs !! i; if readable true v then push (if decide (length v.2 < k)%nat then v else bytes_of (drop (length v.2 - k) v.2)) else None
  | Lower i => v ← vs !! i; if readable true v then push (bytes_of (map tolower v.2)) else None
  | Upper i => v ← vs !! i; if readable true v then push (bytes_of (map toupper v.2)) else None
  | Assign i j => _ ← vs !! i; w ← vs !! j; set i w
  | SetEmpty i => _ ← vs !! i; set i (bytes_of [])
  | Set_ i l => _ ← vs !! i; set i (bytes_of l)
  | Append i j => v ← vs !! i; w ← vs !! j; x ← join v w; set i x
  | AppendBytes i l => v ← vs !! i; if v.1 || bool_decide (Forall ascii_char l) then set i (v.1, v.2 ++ l) else None
  | AppendReverse i l => v ← vs !! i; if v.1 || bool_decide (Forall ascii_char l) then set i (v.1, v.2 ++ rev l) else None
  | AppendWide i l => v ← vs !! i; x ← join v (false, l); set i x
  | AppendS32 i n base => v ← vs !! i; if decide (in_s 32 n /\ 2 <= base <= 36) then set i (v.1, v.2 ++ print_number base n) else None
  | AppendS64 i n base => v ← vs !! i; if decide (in_s 64 n /\ 2 <= base <= 36) then set i (v.1, v.2 ++ print_number base n) else None
  | Insert i pos j => v ← vs !! i; w ← vs !! j;
    let p := Z.to_nat (if pos <? 0 then Z.of_nat (length v.2) + pos else pos) in
    if decide (i <> j /\ pos <= Z.of_nat (length v.2)) then x ← spliced v w p p; set i x else None
  | Replace i j k => v ← vs !! i; u ← vs !! j; w ← vs !! k;
    if decide (i <> j /\ i <> k /\ u.2 <> []) then
      if readable true v && readable true u && (w.1 || bool_decide (Forall ascii_char v.2) && bool_decide (Forall ascii_char w.2)) then
        set i (match index u.2 v.2 with Some _ => w.1 | None => v.1 end, subst (S (length v.2)) u.2 w.2 v.2)
      else None
    else None
  | Destroy i => _ ← vs !! i; Some (delete i vs, [])
  | Equal i j => v ← vs !! i; w ← vs !! j;
    if decide (v.2 = [] /\ w.2 = []) then None
    else if alike v w then Some (vs, [Z.b2z (bool_decide (v.2 = w.2))]) else None
  | StartsWith i j => v ← vs !! i; w ← vs !! j;
    if decide (w.2 = []) then None
    else if has_parts v w then Some (vs, [Z.b2z (bool_decide (take (length w.2) v.2 = w.2))]) else None
  | EndsWith i j => v ← vs !! i; w ← vs !! j;
    if decide (w.2 = []) then None
    else if has_parts v w && alike v w then Some (vs, [Z.b2z (bool_decide (drop (length v.2 - length w.2) v.2 = w.2))]) else None
  | Find i j start => v ← vs !! i; w ← vs !! j;
    if decide (w.2 = []) then None
    else if readable true v && readable true w then
      Some (vs, [match index w.2 (drop start v.2) with Some k => Z.of_nat start + Z.of_nat k | None => -1 end])
    else None
  | RFind i j before => v ← vs !! i; w ← vs !! j;
    if readable true v && readable true w then
      Some (vs, [match rindex w.2 v.2 (Nat.min before (S (length v.2) - length w.2)) with Some k => Z.of_nat k | None => -1 end])
    else None
  | HashOf i => v ← vs !! i; if decide (v.2 = []) then None else Some (vs, [hash_value v.2])
  | GetUtf8 i => v ← vs !! i; if readable true v then Some (vs, v.2) else None
  | GetWide i => v ← vs !! i; if readable false v then Some (vs, v.2) else None
  end.

(** Sizes and numbers of objects that the memory of the machine holds. *)
Definition fits (vs : list content) : bool :=
  (Z.of_nat (length vs) <? 2 ^ 59) && forallb (fun v : content => Z.of_nat (length v.2) <? 2 ^ 28) vs.

Fixpoint spec_ops (ops : list op) (vs : list content) : option (list content * list (list Z)) :=
  match ops with
  | [] => Some (vs, [])
  | o :: ops =>
    r ← spec_op o vs;
    if fits (fst r) then rs ← spec_ops ops (fst r); Some (fst rs, snd r :: snd rs) else None
  end.

(** ** Calls on objects *)

Implicit Types (h : heap) (objs : list addr) (v w : content) (vs : list content).

(** The objects of a program and their values. *)
Definition shows h objs vs : Prop := wf h objs /\ Forall2 (holds h) objs vs.

Definition shows_result (m : M (list addr * list Z)) h vs (out : list Z) : Prop :=
  exists h' objs', m h = Ret (objs', out, h') /\ shows h' objs' vs.

Lemma str_fits_length vs : fits vs = true -> Z.of_nat (length vs) < 2 ^ 59.
Proof. unfold fits. rewrite andb_true_iff, Z.ltb_lt. tauto. Qed.

Lemma str_fits_elem vs v : fits vs = true -> v ∈ vs -> Z.of_nat (length v.2) < 2 ^ 28.
Proof. unfold fits. rewrite andb_true_iff, forallb_forall. intros [_ H] Hv. apply Z.ltb_lt, H. by apply list_elem_of_In. Qed.

Lemma str_fits_lookup vs i v : fits vs = true -> vs !! i = Some v -> Z.of_nat (length v.2) < 2 ^ 28.
Proof. intros H Hi. apply (str_fits_elem _ _ H). by eapply list_elem_of_lookup_2. Qed.

Lemma str_fits_push vs v : fits (vs ++ [v]) = true -> Z.of_nat (length v.2) < 2 ^ 28.
Proof. intros H. apply (str_fits_elem _ _ H), elem_of_app. right. by apply list_elem_of_singleton. Qed.

Lemma str_fits_set vs i v w : fits (<[i := v]> vs) = true -> vs !! i = Some w -> Z.of_nat (length v.2) < 2 ^ 28.
Proof. intros H Hi. apply (str_fits_elem _ _ H). eapply list_elem_of_lookup_2, list_lookup_insert_eq. by eapply lookup_lt_Some. Qed.

Lemma readable_ok bin v : readable bin v = true -> convertible bin v.
Proof. unfold readable, convertible. rewrite orb_true_iff, !bool_decide_eq_true. tauto. Qed.

Lemma text_ok v : text v = true -> is_text v.
Proof. unfold text, is_text. rewrite orb_true_iff, bool_decide_eq_true, negb_true_iff. tauto. Qed.

Lemma join_ok v w x : join v w = Some x -> joins v w x.
Proof.
  unfold join, joins. destruct (v.1) eqn:Ev, (w.1) eqn:Ew; cbn [andb]; [intros [= <-]; auto| | |];
    (destruct (text v) eqn:Tv; [|done]; destruct (text w) eqn:Tw; [|done]; intros [= <-]; split; [done|]; right; auto using text_ok).
Qed.

Lemma alike_ok v w : alike v w = true -> comparable v w.
Proof. unfold alike, comparable. rewrite orb_true_iff, !andb_true_iff. intros [|[]]; auto using text_ok. Qed.

Lemma has_parts_ok v w : has_parts v w = true -> part_of v w.
Proof. unfold has_parts, part_of. rewrite andb_true_iff, orb_true_iff, bool_decide_eq_true. intros [H1 H2]. split; [by apply readable_ok|done]. Qed.

Lemma spliced_ok v w p q x : spliced v w p q = Some x -> splice_ok_for v w /\ x = (w.1, take p v.2 ++ w.2 ++ drop q v.2).
Proof.
  unfold spliced, has_parts, splice_ok_for. destruct (readable true v) eqn:Er; [|done]. destruct (w.1); cbn [orb andb].
  - intros [= <-]. split; [|done]. split; [by apply readable_ok|by left].
  - case_bool_decide; [|done]. intros [= <-]. split; [|done]. split; [by apply readable_ok|by right].
Qed.

Lemma shows_length h objs vs : shows h objs vs -> length objs = length vs.
Proof. intros [_ H]. by eapply Forall2_length. Qed.

Lemma values_frame h h' objs vs : Forall2 (holds h) objs vs -> frame h h' objs -> Forall2 (holds h') objs vs.
Proof.
  intros Hv Hf. apply Forall2_lookup. intros i. rewrite Forall2_lookup in Hv. specialize (Hv i).
  destruct (objs !! i) as [d|] eqn:E; inversion Hv; subst; constructor. apply Hf; [|done]. apply elem_of_app. right. by eapply list_elem_of_lookup_2.
Qed.

(** An object of a program. *)
Lemma object h objs vs i v : shows h objs vs -> vs !! i = Some v ->
  exists d, objs !! i = Some d /\ holds h d v /\ d ∈ statics_refs ++ objs.
Proof.
  intros [_ Hv] Hi. destruct (Forall2_lookup_r _ _ _ _ _ Hv Hi) as (d & Hd & Hh). exists d. split_and!; [done|done|].
  apply elem_of_app. right. by eapply list_elem_of_lookup_2.
Qed.

Lemma obj_bind {A} objs i d (f : addr -> M A) h : objs !! i = Some d -> (d ← obj objs i; f d) h = f d h.
Proof. intros H. unfold obj. by rewrite H. Qed.

Lemma str_make_ok h objs vs m v : shows h objs vs -> makes m h objs v -> shows_result (make objs m) h (vs ++ [v]) [].
Proof.
  intros Hs (h' & a & E & W & K & F). exists h', (objs ++ [a]). unfold make, mbind, act_bind. rewrite E. split; [done|].
  split; [eapply str_wf_perm, W; apply Permutation_cons_append|]. apply Forall2_app; [|by repeat constructor].
  apply (values_frame h); [apply Hs|done].
Qed.

Lemma others objs i d : objs !! i = Some d -> objs ≡ₚ d :: delete i objs.
Proof. intros H. by destruct (insert_perm objs i d d H) as [_ ?]. Qed.

Lemma str_change_ok h objs vs i d f v : shows h objs vs -> objs !! i = Some d ->
  (wf h (d :: delete i objs) -> makes (f d) h (delete i objs) v) -> shows_result (change objs i f) h (<[i := v]> vs) [].
Proof.
  intros [Hwf Hv] Hd Hm. destruct Hm as (h' & a & E & W & K & F); [by eapply str_wf_perm, Hwf; apply others|].
  destruct (insert_perm objs i d a Hd) as [P1 P2]. exists h', (<[i := a]> objs). unfold change. rewrite (obj_bind _ _ _ _ _ Hd). unfold mbind, act_bind. rewrite E.
  split; [done|]. split; [by eapply str_wf_perm, W|]. apply Forall2_lookup. intros j. rewrite Forall2_lookup in Hv. specialize (Hv j).
  destruct (decide (i = j)) as [<-|Hij].
  - apply lookup_lt_Some in Hd as Hl. rewrite list_lookup_insert_eq by done. rewrite list_lookup_insert_eq; [by constructor|].
    rewrite Hd in Hv. destruct (vs !! i) eqn:Ev; [by eapply lookup_lt_Some|inversion Hv].
  - rewrite !list_lookup_insert_ne by done. destruct (objs !! j) as [b|] eqn:Ej; [|by inversion Hv; constructor].
    inversion Hv as [? u Hh|]. subst. constructor. apply F; [|done]. apply elem_of_app. right. by apply (elem_others objs i j).
Qed.

Lemma str_observe_ok h objs vs m out : shows h objs vs -> (exists h', m h = Ret (out, h') /\ wf h' objs /\ frame h h' objs) -> shows_result (observe objs m) h vs out.
Proof.
  intros Hs (h' & E & W & F). exists h', objs. unfold observe, mbind, act_bind. rewrite E. split; [done|]. split; [done|]. eapply values_frame, F. apply Hs.
Qed.

Lemma makes_obj objs i d f h R v : objs !! i = Some d -> makes (f d) h R v -> makes (d ← obj objs i; f d) h R v.
Proof. intros Hd. unfold makes. by rewrite (obj_bind _ _ _ _ _ Hd). Qed.

(** ** Each call *)

Local Ltac value Hs v Hv := apply bind_Some in Hs as (v & Hv & Hs).
Local Ltac guarded Hs E := match type of Hs with (if ?b then _ else _) = _ => destruct b eqn:E; [|discriminate Hs] end.
Local Ltac size Hf H := let L := fresh "L" in pose proof (str_fits_lookup _ _ _ Hf H) as L.

Definition makes_object (o : op) : bool :=
  match o with New _ | NewWide _ | Copy _ | Concat _ _ | Mid _ _ _ | MidFrom _ _ | Left _ _ | Right _ _ | Lower _ | Upper _ => true | _ => false end.

Lemma str_run_make_ok o h objs vs vs' out : shows h objs vs -> fits vs = true -> makes_object o = true ->
  spec_op o vs = Some (vs', out) -> fits vs' = true -> shows_result (run_op o objs) h vs' out.
Proof.
  intros Hs Hf0 Ho E Hf. pose proof (shows_length _ _ _ Hs) as Hl. pose proof (str_fits_length _ Hf0) as Hn. pose proof Hs as [Hwf _].
  destruct o; try done; cbn [spec_op run_op] in *.
  - injection E as <- <-. apply str_make_ok; [done|]. apply (String_ascii_ok g1 g2); [done|apply str_fits_push in Hf; simpl in Hf; lia|lia].
  - injection E as <- <-. apply str_make_ok; [done|]. apply (String_wide_ok g1 g2); [done|apply str_fits_push in Hf; simpl in Hf; lia|lia].
  - value E v Hv. injection E as <- <-. destruct (object _ _ _ _ _ Hs Hv) as (d & Hd & Hh & Hin). apply str_make_ok; [done|].
    eapply makes_obj; [done|]. apply ref_makes; [done..|lia].
  - value E v Hv. value E w Hw. value E x Hx. injection E as <- <-. destruct (object _ _ _ _ _ Hs Hv) as (d & Hd & Hh & Hin).
    destruct (object _ _ _ _ _ Hs Hw) as (s & Hds & Hhs & Hins). size Hf0 Hv. size Hf0 Hw. apply str_make_ok; [done|].
    do 2 (eapply makes_obj; [done|]). eapply plus_ok; try done; [by apply join_ok|lia..].
  - value E v Hv. guarded E Er. injection E as <- <-. destruct (object _ _ _ _ _ Hs Hv) as (d & Hd & Hh & Hin). apply str_make_ok; [done|].
    eapply makes_obj; [done|]. unfold bytes_of. pose proof (mid_ok g1 g2 h objs d v (Z.of_nat k) (Z.of_nat c)) as H. unfold part in H. rewrite !Nat2Z.id in H.
    apply H; try done; [by apply readable_ok|lia..].
  - value E v Hv. guarded E Er. injection E as <- <-. destruct (object _ _ _ _ _ Hs Hv) as (d & Hd & Hh & Hin). apply str_make_ok; [done|].
    eapply makes_obj; [done|]. unfold bytes_of. pose proof (mid_from_ok g1 g2 h objs d v (Z.of_nat k)) as H. rewrite !Nat2Z.id in H.
    apply H; try done; [by apply readable_ok|lia..].
  - value E v Hv. guarded E Er. injection E as <- <-. destruct (object _ _ _ _ _ Hs Hv) as (d & Hd & Hh & Hin). apply str_make_ok; [done|].
    eapply makes_obj; [done|]. unfold bytes_of. pose proof (mid_ok g1 g2 h objs d v 0 (Z.of_nat k)) as H. unfold part in H. rewrite Nat2Z.id in H.
    apply H; try done; [by apply readable_ok|lia..].
  - value E v Hv. guarded E Er. injection E as <- <-. destruct (object _ _ _ _ _ Hs Hv) as (d & Hd & Hh & Hin). apply str_make_ok; [done|].
    eapply makes_obj; [done|]. pose proof (right_ok g1 g2 h objs d v (Z.of_nat k)) as H. rewrite !Nat2Z.id in H.
    assert ((if decide (length v.2 < k)%nat then v else bytes_of (drop (length v.2 - k) v.2)) = (if Z.of_nat (length v.2) <? Z.of_nat k then v else (true, drop (length v.2 - k) v.2))) as ->
      by (destruct (Z.ltb_spec (Z.of_nat (length v.2)) (Z.of_nat k)); case_decide; (done || lia)).
    apply H; try done; [by apply readable_ok|lia..].
  - value E v Hv. guarded E Er. injection E as <- <-. destruct (object _ _ _ _ _ Hs Hv) as (d & Hd & Hh & Hin). apply str_make_ok; [done|].
    eapply makes_obj; [done|]. apply (createCase_ok g1 g2 tolower (createLowerUtf8 g1)); try done; [by apply readable_ok|lia].
  - value E v Hv. guarded E Er. injection E as <- <-. destruct (object _ _ _ _ _ Hs Hv) as (d & Hd & Hh & Hin). apply str_make_ok; [done|].
    eapply makes_obj; [done|]. apply (createCase_ok g1 g2 toupper (createUpperUtf8 g1)); try done; [by apply readable_ok|lia].
Qed.

Definition changes_object (o : op) : bool :=
  match o with
  | Assign _ _ | SetEmpty _ | Set_ _ _ | Append _ _ | AppendBytes _ _ | AppendReverse _ _ | AppendWide _ _ | AppendS32 _ _ _ | AppendS64 _ _ _ | Insert _ _ _ | Replace _ _ _ => true
  | _ => false
  end.

(** Other objects, when one is about to change. *)
Lemma elem_with objs i d s : objs !! i = Some d -> s ∈ statics_refs ++ objs -> s ∈ statics_refs ++ d :: delete i objs.
Proof. intros Hd. rewrite (others objs i d Hd) at 1. done. Qed.

Lemma elem_without objs i j s : i <> j -> objs !! j = Some s -> s ∈ statics_refs ++ delete i objs.
Proof. intros Hij Hj. apply elem_of_app. right. by eapply elem_others. Qed.

Lemma makes_change (m : M addr) h R x : (exists h' out, m h = Ret (out, h') /\ wf h' (out :: R) /\ holds h' out x /\ frame h h' R) -> makes m h R x.
Proof. done. Qed.

Lemma setNoref_ok h R d (m : M addr) v : wf h (d :: R) -> makes m h (d :: R) v -> makes (s ← m; i_setNoref d s) h R v.
Proof.
  intros Hwf (h1 & a & E1 & W1 & K1 & F1). destruct (drop_ok h1 R d a v) as (h2 & E2 & W2 & K2 & F2); [by apply swap_refs|done|].
  exists h2, a. unfold i_setNoref, mbind, act_bind. rewrite E1, E2. split_and!; try done. apply frame_cons in F1, F2. eauto using frame_trans.
Qed.

Lemma replace_ok h R d what rep v u w : wf h (d :: R) -> what ∈ statics_refs ++ R -> rep ∈ statics_refs ++ R ->
  holds h d v -> holds h what u -> holds h rep w -> convertible true u -> u.2 <> [] -> replaceable v w ->
  Z.of_nat (length v.2) < 2 ^ 28 -> Z.of_nat (length w.2) < 2 ^ 28 -> room R ->
  makes (replace g1 g2 d what rep) h R (match index u.2 v.2 with Some _ => w.1 | None => v.1 end, subst (S (length v.2)) u.2 w.2 v.2).
Proof.
  intros Hwf Hwhat Hrep Hd Hu Hw Cu Hne Hrv Hl Hlw Hr. unfold replace. pose proof Hu as (n & Hn & Hv). pose proof (sd_length _ _ _ Hv) as L.
  assert (isNullEmpty what h = Ret (false, h)) as E.
  { unfold isNullEmpty, mbind, act_bind. rewrite (sd_eq _ _ _ Hn), L. destruct (u.2); [done|]. done. }
  unfold makes, mbind, act_bind. rewrite E, (getLength_ok h d v Hd), Nat2Z.id.
  assert (Z.of_nat (length v.2 * S (length w.2)) <= 2 ^ 28 * 2 ^ 28) as Ht by (rewrite Nat2Z.inj_mul; apply Z.mul_le_mono_nonneg; lia).
  apply (replace_loop_ok g1 g2 (S (length v.2)) h R d what rep v u w [] v.2 (length v.2 * S (length w.2))); try done; simpl in *; lia.
Qed.

Lemma str_run_change_ok o h objs vs vs' out : shows h objs vs -> fits vs = true -> changes_object o = true ->
  spec_op o vs = Some (vs', out) -> fits vs' = true -> shows_result (run_op o objs) h vs' out.
Proof.
  intros Hs Hf0 Ho E Hf. pose proof (shows_length _ _ _ Hs) as Hl. pose proof (str_fits_length _ Hf0) as Hn. pose proof Hs as [Hwf _].
  destruct o; try done; cbn [spec_op run_op] in *; value E v Hv; destruct (object _ _ _ _ _ Hs Hv) as (d & Hd & Hh & Hin); size Hf0 Hv;
    pose proof (Permutation_length (others _ _ _ Hd)) as Hld; simpl in Hld.
  - value E w Hw. injection E as <- <-. destruct (object _ _ _ _ _ Hs Hw) as (s & Hds & Hhs & Hins). eapply str_change_ok; [done..|]. intros Hwd.
    eapply makes_obj; [done|]. destruct (assign_ok h (delete i objs) d s w Hwd) as (h' & Ea & Wa & Ka & Fa); [by eapply elem_with|done|lia|]. by exists h', s.
  - injection E as <- <-. eapply str_change_ok; [done..|]. intros Hwd.
    destruct (assign_ok h (delete i objs) d s_zero (bytes_of []) Hwd) as (h' & Ea & Wa & Ka & Fa); [apply in_zero|apply (wf_zero _ _ Hwf)|lia|]. by exists h', s_zero.
  - injection E as <- <-. apply (str_fits_set _ _ _ _ Hf) in Hv as Ll. simpl in Ll. eapply str_change_ok; [done..|]. intros Hwd. apply setNoref_ok; [done|].
    apply (String_ascii_ok g1 g2); [done|lia|simpl; lia].
  - value E w Hw. value E x Hx. injection E as <- <-. destruct (object _ _ _ _ _ Hs Hw) as (s & Hds & Hhs & Hins). size Hf0 Hw.
    eapply str_change_ok; [done..|]. intros Hwd. eapply makes_obj; [done|]. apply makes_change.
    eapply str_append_ok; try done; [by eapply elem_with|by apply join_ok|lia..].
  - guarded E Ek. injection E as <- <-. apply (str_fits_set _ _ _ _ Hf) in Hv as Ll. simpl in Ll. rewrite length_app in Ll. apply orb_true_iff in Ek. rewrite bool_decide_eq_true in Ek.
    eapply str_change_ok; [done..|]. intros Hwd. destruct (appendAscii_ok g1 g2 h (delete i objs) d v l Hwd Hh Ek) as (h' & a & Ea & Wa & _ & Ka & Fa); [lia..|]. by exists h', a.
  - guarded E Ek. injection E as <- <-. apply (str_fits_set _ _ _ _ Hf) in Hv as Ll. simpl in Ll. rewrite length_app, length_rev in Ll. apply orb_true_iff in Ek. rewrite bool_decide_eq_true in Ek.
    eapply str_change_ok; [done..|]. intros Hwd. destruct (appendAsciiReverse_ok g1 g2 h (delete i objs) d v l Hwd Hh Ek) as (h' & a & Ea & Wa & _ & Ka & Fa); [lia..|]. by exists h', a.
  - value E x Hx. injection E as <- <-. apply (str_fits_set _ _ _ _ Hf) in Hv as Ll. apply join_ok in Hx. pose proof (proj1 Hx) as Ex. rewrite Ex, length_app in Ll. cbn [snd] in Ll.
    eapply str_change_ok; [done..|]. intros Hwd. eapply append_temp_ok; [done..| |done|cbn [snd]; lia|lia]. apply (String_wide_ok g1 g2); [done|lia|simpl; lia].
  - case_decide as Eb; [destruct Eb as [Hb1 Hb2]|discriminate E]. injection E as <- <-. eapply str_change_ok; [done..|]. intros Hwd.
    eapply (append_signed_ok g1 g2 32); try done; [by left|lia..].
  - case_decide as Eb; [destruct Eb as [Hb1 Hb2]|discriminate E]. injection E as <- <-. eapply str_change_ok; [done..|]. intros Hwd.
    eapply (append_signed_ok g1 g2 64); try done; [by right|lia..].
  - value E w Hw. case_decide as Eij; [destruct Eij as [Hij Hp]|discriminate E]. value E x Hx. injection E as <- <-. apply spliced_ok in Hx as [Hk ->].
    destruct (object _ _ _ _ _ Hs Hw) as (s & Hds & Hhs & Hins). size Hf0 Hw.
    eapply str_change_ok; [done..|]. intros Hwd. eapply makes_obj; [done|]. apply (insert_ok g1 g2 h (delete i objs) d s v w pos); try done; [by eapply elem_without|lia|unfold room; lia].
  - value E u Hu. value E w Hw. case_decide as Eij; [destruct Eij as (Hij & Hik & Hne)|discriminate E]. guarded E Ek. injection E as <- <-.
    destruct (object _ _ _ _ _ Hs Hu) as (s & Hds & Hhs & Hins). destruct (object _ _ _ _ _ Hs Hw) as (r & Hdr & Hhr & Hinr). size Hf0 Hw.
    apply andb_true_iff in Ek as [[Ev Eu]%andb_true_iff Ew]. apply orb_true_iff in Ew. rewrite andb_true_iff, !bool_decide_eq_true in Ew.
    eapply str_change_ok; [done..|]. intros Hwd. do 2 (eapply makes_obj; [done|]).
    apply replace_ok; try done; [by apply (elem_without _ _ _ _ Hij)|by apply (elem_without _ _ _ _ Hik)|by apply readable_ok| |unfold room; lia].
    split; [by apply readable_ok|]. destruct (w.1); [by left|right]. destruct Ew as [|[]]; done.
Qed.

Lemma observes objs i d f h out : objs !! i = Some d ->
  (exists h', f d h = Ret (out, h') /\ wf h' objs /\ frame h h' objs) -> exists h', (d ← obj objs i; f d : M (list Z)) h = Ret (out, h') /\ wf h' objs /\ frame h h' objs.
Proof. intros Hd. by rewrite (obj_bind _ _ _ _ _ Hd). Qed.

Lemma not_null h objs d v : wf h objs -> holds h d v -> v.2 <> [] -> d <> s_null.
Proof.
  intros Hwf (n & Hn & Hv) Hne ->. destruct (wf_null _ _ Hwf) as (m & Hm & Hw). assert (n = m) as -> by congruence.
  apply Hne. by rewrite (sd_ok_inj _ _ _ _ Hv Hw).
Qed.

Lemma wide_ok h R d v : wf h R -> d ∈ statics_refs ++ R -> holds h d v -> convertible false v ->
  exists h', wide_ g2 d h = Ret (v.2, h') /\ wf h' R /\ frame h h' R.
Proof.
  intros Hwf Hd Hh Hc. destruct (update_ok_ false 0 g2 h R d v Hwf Hd Hh Hc) as (h' & n & E & W & F & Hn & Hv & Hval & _).
  exists h'. split_and!; [|done..]. unfold wide_. unfold update_ in E. unfold mbind, act_bind. rewrite E, (sd_eq _ _ _ Hn).
  destruct (sd_block false d n v Hv Hval) as (k & Hk & S & Lk & T). cbn [block] in Hk. rewrite Hk. cbn [the mbind res_bind].
  rewrite S. by rewrite (block_read k _ _ S (sd_length _ _ _ Hv) Lk T).
Qed.

Lemma str_run_call_ok o h objs vs vs' out : shows h objs vs -> fits vs = true -> spec_op o vs = Some (vs', out) -> fits vs' = true ->
  shows_result (run_op o objs) h vs' out.
Proof.
  intros Hs Hf0 E Hf. destruct (makes_object o) eqn:E1; [by eapply str_run_make_ok|]. destruct (changes_object o) eqn:E2; [by eapply str_run_change_ok|].
  pose proof (shows_length _ _ _ Hs) as Hl. pose proof (str_fits_length _ Hf0) as Hn. pose proof Hs as [Hwf Hvs].
  destruct o; try done; cbn [spec_op run_op] in *; value E v Hv; try (destruct (object _ _ _ _ _ Hs Hv) as (d & Hd & Hh & Hin)).
  - destruct v as [t st]. injection E as <- <-. apply str_fits_push in Hf. cbn [snd] in Hf.
    destruct (vformats_ok ldouble measure sprintf_float g1 g2 items args t st h objs Hv Hwf) as (h' & a & Ea & Wa & Ka & Fa); [lia..|].
    exists h', (objs ++ [a]). unfold mbind, act_bind. rewrite Ea. split; [done|]. split; [eapply str_wf_perm, Wa; apply Permutation_cons_append|].
    apply Forall2_app; [by eapply values_frame|by repeat constructor].
  - injection E as <- <-. destruct (str_unref_ok h (delete i objs) d) as (h' & Eu & Wu & Fu & _); [eapply str_wf_perm, Hwf; by apply others|].
    exists h', (delete i objs). rewrite (obj_bind _ _ _ _ _ Hd). unfold destroy_string, mbind, act_bind. rewrite Eu. split; [done|]. split; [done|].
    eapply values_frame, Fu. by apply Forall2_delete.
  - value E w Hw. destruct (object _ _ _ _ _ Hs Hw) as (s & Hds & Hhs & Hins). case_decide as Hne; [done|]. guarded E Ek. injection E as <- <-.
    apply str_observe_ok; [done|]. do 2 (eapply observes; [done|]).
    destruct (str_beq_ok g2 h objs d s v w Hwf Hin Hins Hh Hhs) as (h' & Eb & Wb & Fb).
    { by apply alike_ok. }
    exists h'. unfold equal, mbind, act_bind. rewrite Eb. split_and!; [|done..].
    enough (bool_decide (same_value d s v w) = bool_decide (v.2 = w.2)) as -> by done. apply bool_decide_ext. split; [by intros [? _]|]. intros Evw. split; [done|]. assert (v.2 <> [] /\ w.2 <> []) as [Nv Nw] by (split; intros En; apply Hne; split; congruence).
    pose proof (not_null _ _ _ _ Hwf Hh Nv). pose proof (not_null _ _ _ _ Hwf Hhs Nw). done.
  - value E w Hw. destruct (object _ _ _ _ _ Hs Hw) as (s & Hds & Hhs & Hins). case_decide as Hne; [done|]. guarded E Ek. injection E as <- <-.
    apply str_observe_ok; [done|]. do 2 (eapply observes; [done|]). apply has_parts_ok in Ek.
    destruct (startsWith_ok g1 g2 h objs d s v w) as (h' & Eb & Wb & Fb); try done; [lia|]. exists h'. unfold mbind, act_bind. by rewrite Eb.
  - value E w Hw. destruct (object _ _ _ _ _ Hs Hw) as (s & Hds & Hhs & Hins). case_decide as Hne; [done|]. guarded E Ek. injection E as <- <-.
    apply str_observe_ok; [done|]. do 2 (eapply observes; [done|]). apply andb_true_iff in Ek as [Ek1%has_parts_ok Ek2%alike_ok].
    destruct (endsWith_ok g1 g2 h objs d s v w) as (h' & Eb & Wb & Fb); try done; [lia|]. exists h'. unfold mbind, act_bind. by rewrite Eb.
  - value E w Hw. destruct (object _ _ _ _ _ Hs Hw) as (s & Hds & Hhs & Hins). case_decide as Hne; [done|]. guarded E Ek. injection E as <- <-.
    apply andb_true_iff in Ek as [Ev Ew]. apply str_observe_ok; [done|]. do 2 (eapply observes; [done|]).
    destruct (find_ok g1 h objs d s v w (Z.of_nat start)) as (h' & Eb & Wb & Fb); try done; [by apply readable_ok..|lia|].
    exists h'. unfold mbind, act_bind. rewrite Eb, Nat2Z.id. done.
  - value E w Hw. destruct (object _ _ _ _ _ Hs Hw) as (s & Hds & Hhs & Hins). guarded E Ek. injection E as <- <-.
    apply andb_true_iff in Ek as [Ev Ew]. apply str_observe_ok; [done|]. do 2 (eapply observes; [done|]).
    destruct (rfind_ok g1 h objs d s v w before) as (h' & Eb & Wb & Fb); try done; [by apply readable_ok..|].
    exists h'. unfold mbind, act_bind. by rewrite Eb.
  - case_decide as Hne; [done|]. injection E as <- <-. apply str_observe_ok; [done|]. eapply observes; [done|].
    destruct (str_getHash_ok h objs d v Hwf Hh) as (h' & Eb & Wb & Fb). exists h'. unfold mbind, act_bind. rewrite Eb. unfold hash_of.
    by rewrite decide_False by exact (not_null _ _ _ _ Hwf Hh Hne).
  - guarded E Er. injection E as <- <-. apply str_observe_ok; [done|]. eapply observes; [done|].
    destruct (refByte_ok g1 h objs d v Hwf Hin Hh) as (h' & Eb & Wb & Fb); [by apply readable_ok|]. by exists h'.
  - guarded E Er. injection E as <- <-. apply str_observe_ok; [done|]. eapply observes; [done|].
    destruct (wide_ok h objs d v Hwf Hin Hh) as (h' & Eb & Wb & Fb); [by apply readable_ok|]. by exists h'.
Qed.

End Programs.
