(* ===== verification/StringProperties.v ===== *)
(** * Properties of String

    Programs that use strings see values; blocks are counted and freed;
    formatting is the C printf where the library agrees with it; replacing
    replaces the occurrences; and the uses that go wrong. *)

From Stdlib Require Import String Ascii.
From S2P Require Import Prelude Machine CString Heap StrData StrDataRefs StrDataOps StrDataValues StrFormat StrFormatSpec StrFormatOk Strings StringOps StringSpec.

#[local] Abbreviation heap := (gmap addr strdata).
Implicit Types (h : heap) (R objs : list addr) (vs : list content) (outs : list (list Z)).

(** ** Programs *)

Section Programs.
Variable ldouble : Type.
Variable measure : ldouble -> magnitude.
Variable sprintf_float : bool -> option Z -> option Z -> ldouble -> list Z.
Variables g1 g2 : Z.
Implicit Types ops : list (op ldouble).

Lemma run_string_calls ops : forall h objs vs vs' outs, shows h objs vs -> fits vs = true -> spec_ops ldouble ops vs = Some (vs', outs) ->
  exists h' objs', run_ops ldouble measure sprintf_float g1 g2 ops objs h = Ret (objs', outs, h') /\ shows h' objs' vs'.
Proof.
  induction ops as [|o ops IH]; intros h objs vs vs' outs Hs Hf E.
  - injection E as <- <-. by exists h, objs.
  - cbn [spec_ops] in E. apply bind_Some in E as ([vs1 out] & E1 & E). cbn [fst snd] in E. destruct (fits vs1) eqn:Hf1; [|done].
    apply bind_Some in E as ([vs2 outs2] & E2 & E). injection E as <- <-.
    destruct (str_run_call_ok ldouble measure sprintf_float g1 g2 o h objs vs vs1 out Hs Hf E1 Hf1) as (h1 & objs1 & R1 & Hs1).
    destruct (IH h1 objs1 vs1 vs2 outs2 Hs1 Hf1 E2) as (h2 & objs2 & R2 & Hs2).
    exists h2, objs2. cbn [run_ops]. unfold mbind, act_bind. rewrite R1. cbn [fst snd]. rewrite R2. done.
Qed.

Lemma string_start ops vs outs : spec_ops ldouble ops [] = Some (vs, outs) ->
  exists h objs, run_ops ldouble measure sprintf_float g1 g2 ops [] statics = Ret (objs, outs, h) /\ shows h objs vs.
Proof. intros E. apply (run_string_calls ops statics [] [] vs outs); [split; [apply str_statics_wf|constructor]|done|done]. Qed.

End Programs.

(** How many of the objects use the block [a]. *)
Definition users objs (a : addr) : nat := count_occ (decide_rel (=)) objs a.

Lemma users_count objs a : Z.of_nat (users objs a) = cnt a objs.
Proof.
  unfold users. induction objs as [|b objs IH]; [done|]. cbn [cnt count_occ]. unfold decide_rel at 1.
  destruct (decide (b = a)), (Pos.eq_dec b a); try congruence; lia.
Qed.

(** C7. A program of calls on strings (construction from bytes and wide
    characters, copies, parts, concatenation, assignment, appending bytes, wide
    characters and numbers, insertion, replacement, formatting, lower and upper
    case, destruction, equality, searches, hash, reading as UTF-8 and as wide
    characters) gives the results of the same calls on values, for every program
    whose calls [spec_ops] gives a value: the sharing of blocks, their reference
    counts, cached hashes and the two forms of a block, one of them made from
    the other when it is needed, do not show there. It gives none, and nothing
    is claimed, where a conversion loses characters or the code treats a case in
    a way of its own: wide text that is not ASCII read as UTF-8, cut into parts,
    searched or searched for, inserted or replaced in, put in the place of
    another text by [replace], or put in lower or upper case; bytes that are not
    ASCII read as wide characters, or joined or compared with wide text;
    equality of two empty strings and the hash of one; an empty string searched
    forwards, replaced or looked for at the start or the end; insertion or
    replacement of a string into itself, and insertion behind the end; numbers
    outside their type or in a base outside 2..36; formats outside [c_printf];
    indices of no object, strings of 2^28 characters or 2^59 objects. That the
    forms show there is in [reading_makes_equal] and [reading_loses_wide]. *)
Theorem string_programs_are_values (ldouble : Type) (measure : ldouble -> magnitude) (sprintf_float : bool -> option Z -> option Z -> ldouble -> list Z)
  (g1 g2 : Z) (ops : list (op ldouble)) vs outs : spec_ops ldouble ops [] = Some (vs, outs) ->
  exists h objs, run_ops ldouble measure sprintf_float g1 g2 ops [] statics = Ret (objs, outs, h) /\ length objs = length vs /\
    forall i v, vs !! i = Some v -> exists d, objs !! i = Some d /\ holds h d v.
Proof.
  intros E. destruct (string_start ldouble measure sprintf_float g1 g2 ops vs outs E) as (h & objs & Er & Hs). exists h, objs. split_and!; [done| |].
  - by eapply shows_length.
  - intros i v Hi. destruct (object h objs vs i v Hs Hi) as (d & Hd & Hh & _). by exists d.
Qed.

Definition no_float : bool -> option Z -> option Z -> unit -> list Z := fun _ _ _ _ => [].
Definition string_demo : list (op unit) :=
  [New unit (chars "one two one"); NewWide unit [0x20ac; 33]; New unit (chars "one"); Copy unit 0;
   Format unit [Dir (mk_dir [Alt] (Num 6) NoNum L_NONE C_x); Lit (chars "-")] [V_32 255]; Replace unit 0 2 4; GetUtf8 unit 0; GetUtf8 unit 3;
   Append unit 4 1; GetWide unit 4; Equal unit 0 3; StartsWith unit 3 2; RFind unit 3 2 11; AppendS32 unit 2 (-255) 16; HashOf unit 2; Destroy unit 1; Insert unit 2 (-3) 1;
   GetUtf8 unit 2; Upper unit 1; GetUtf8 unit 4].

Lemma string_programs_are_values_witness : exists h objs,
  run_ops unit (fun _ => M_Zero) no_float 7 9 string_demo [] statics = Ret (objs,
    [[]; []; []; []; []; []; chars "  0xff- two   0xff-"; chars "one two one"; []; chars "  0xff-" ++ [0x20ac; 33]; [0]; [1]; [8]; []; [hash_value (chars "one-ff")]; []; [];
     chars "one two one-ffone"; []; chars "ONE-FF"], h) /\ length objs = 5%nat /\
  forall i v, [(false, chars "  0xff- two   0xff-"); (true, chars "one-ff"); (true, chars "one two one-ffone");
    (false, chars "  0xff-" ++ [0x20ac; 33]); (true, chars "ONE-FF")] !! i = Some v -> exists d, objs !! i = Some d /\ holds h d v.
Proof. apply (string_programs_are_values unit (fun _ => M_Zero) no_float 7 9 string_demo
    [(false, chars "  0xff- two   0xff-"); (true, chars "one-ff"); (true, chars "one two one-ffone"); (false, chars "  0xff-" ++ [0x20ac; 33]); (true, chars "ONE-FF")]). vm_compute. reflexivity. Defined.

(** C15. After any program of calls for which [spec_ops] gives values, every
    block but the two static ones belongs to an object and counts its other
    owners, at least one of its two forms is filled, has room for the characters
    and a zero behind them, and where both are filled they hold the same
    characters; without objects no block is left. Those programs convert no wide
    text that is not ASCII to bytes (by reading it as UTF-8, cutting, searching,
    inserting, replacing or changing its case) and no bytes that are not ASCII
    to wide text (by reading, joining or comparing), after which the two forms
    can differ; and they leave out equality of two empty strings, the hash of
    one, an empty string searched forwards, replaced or looked for at the start
    or the end, insertion or replacement of a string into itself, insertion
    behind the end, numbers outside their type or bases 2..36, formats outside
    [c_printf], indices of no object, and strings of 2^28 characters or 2^59
    objects. *)
Theorem string_blocks_are_owned (ldouble : Type) (measure : ldouble -> magnitude) (sprintf_float : bool -> option Z -> option Z -> ldouble -> list Z)
  (g1 g2 : Z) (ops : list (op ldouble)) vs outs : spec_ops ldouble ops [] = Some (vs, outs) ->
  exists h objs, run_ops ldouble measure sprintf_float g1 g2 ops [] statics = Ret (objs, outs, h) /\ (vs = [] -> dom h = {[ s_null; s_zero ]}) /\
    forall a n, h !! a = Some n -> a <> s_null -> a <> s_zero ->
      refcnt n + 1 = Z.of_nat (users objs a) /\ (0 < users objs a)%nat /\ b_ok n || w_ok n = true /\
      exists cs, (b_ok n = true -> block_ok (bytes n) (length_ n) cs) /\ (w_ok n = true -> block_ok (wide n) (length_ n) cs) /\ length_ n = Z.of_nat (length cs) /\
        (hash n = -1 \/ hash n = hash_value cs).
Proof.
  intros E. destruct (string_start ldouble measure sprintf_float g1 g2 ops vs outs E) as (h & objs & Er & Hs). exists h, objs.
  pose proof Hs as [Hwf Hv]. assert (forall a n, h !! a = Some n -> a <> s_null -> a <> s_zero -> refcnt n + 1 = Z.of_nat (users objs a) /\ 0 <= refcnt n) as Hown.
  { intros a n Hn H1 H2. destruct (wf_block _ _ Hwf a n Hn) as (_ & Hc & H0). unfold statics_refs in Hc. cbn [app cnt] in Hc.
    rewrite !decide_False in Hc by done. rewrite users_count. lia. }
  split_and!; [done| |].
  - intros ->. inversion Hv. subst. apply set_eq. intros a. rewrite elem_of_dom, elem_of_union, !elem_of_singleton. split.
    + intros [n Hn]. destruct (decide (a = s_null)); [by left|]. destruct (decide (a = s_zero)); [by right|]. destruct (Hown a n Hn); [done..|]. unfold users in *. simpl in *. lia.
    + intros Ha. apply (wf_live _ _ Hwf). rewrite app_nil_r. unfold statics_refs. rewrite !elem_of_cons. destruct Ha as [-> | ->]; auto.
  - intros a n Hn H1 H2. destruct (Hown a n Hn H1 H2). destruct (wf_block _ _ Hwf a n Hn) as ([v Sv] & _). split_and!; [done|lia| |].
    + destruct (b_ok n) eqn:Eb; [done|]. destruct (sd_cases a n v Sv) as [_ H3]. by destruct (H3 Eb) as [_ ->].
    + exists (v.2). split_and!; [apply (sd_bytes _ _ _ Sv)|apply (sd_wide _ _ _ Sv)|apply (sd_length _ _ _ Sv)|].
      destruct (hash_cases a n v Sv) as [Eh|[Eh _]]; [right|by left]. rewrite Eh. unfold hash_of. by rewrite decide_False.
Qed.

Lemma string_blocks_are_owned_witness : exists h objs,
  run_ops unit (fun _ => M_Zero) no_float 7 9 [New unit (chars "ab"); Copy unit 0; AppendWide unit 1 [300]; Destroy unit 0; HashOf unit 0; Destroy unit 0] [] statics =
    Ret (objs, [[]; []; []; []; [hash_value (chars "ab" ++ [300])]; []], h) /\ ([] = [] :> list content -> dom h = {[ s_null; s_zero ]}) /\
  forall a n, h !! a = Some n -> a <> s_null -> a <> s_zero ->
      refcnt n + 1 = Z.of_nat (users objs a) /\ (0 < users objs a)%nat /\ b_ok n || w_ok n = true /\
      exists cs, (b_ok n = true -> block_ok (bytes n) (length_ n) cs) /\ (w_ok n = true -> block_ok (wide n) (length_ n) cs) /\ length_ n = Z.of_nat (length cs) /\
        (hash n = -1 \/ hash n = hash_value cs).
Proof. apply (string_blocks_are_owned unit (fun _ => M_Zero) no_float 7 9 _ []). vm_compute. reflexivity. Defined.

(** ** Formatting *)

(** C6. Formatting a string of directives makes the text that the C standard
    prescribes, stores through [%n] what it prescribes, frees every temporary
    string and changes no other string: for all signed, unsigned, octal, binary
    and hexadecimal conversions with widths, precisions and flags, for
    characters, strings, wide strings and [%%], in the domain of [c_printf]. *)
Theorem format_is_printf (ldouble : Type) (measure : ldouble -> magnitude) (sprintf_float : bool -> option Z -> option Z -> ldouble -> list Z)
  (g1 g2 : Z) (items : list item) (args : list (va ldouble)) (text : list Z) (st : list (nat * Z * Z)) h objs vs :
  c_printf ldouble items 0 args = Some (text, st) -> shows h objs vs -> Z.of_nat (length text) < 2 ^ 28 -> Z.of_nat (length objs) < 2 ^ 59 ->
  exists h' d, vformats ldouble measure sprintf_float g1 g2 (show items) args h = Ret (d, st, h') /\ shows h' (d :: objs) ((false, text) :: vs).
Proof.
  intros E [Hwf Hv] Hl Hr. destruct (vformats_ok ldouble measure sprintf_float g1 g2 items args text st h objs E Hwf) as (h' & d & Ed & W & K & F); [lia..|].
  exists h', d. split; [done|]. split; [done|]. constructor; [done|]. by eapply values_frame.
Qed.

Definition format_demo : list item :=
  [Dir (mk_dir [Minus] (Num 6) (Num 3) L_NONE C_d); Lit (chars "|"); Dir (mk_dir [Alt; Zero] Star NoNum L_l C_X); Percent;
   Dir (mk_dir [] NoNum NoNum L_NONE C_s); Dir (mk_dir [] NoNum NoNum L_NONE C_n); Dir (mk_dir [] NoNum NoNum L_l C_s); Dir (mk_dir [Plus] NoNum NoNum L_h C_i)].
Definition format_args : list (va unit) :=
  [V_32 (-7); V_32 10; V_64 0xbeef; V_Str (Some (chars "ok")); V_Out 5; V_WStr (Some [0x2713]); V_32 65537].

Lemma format_is_printf_witness : exists h' d,
  vformats unit (fun _ => M_Zero) no_float 7 9 (chars "%-6.3d|%#0*lX%%%s%n%ls%+hi") format_args statics =
    Ret (d, [(5%nat, 32, 20)], h') /\ shows h' [d] [(false, chars "-007  |0X0000BEEF%ok" ++ [0x2713] ++ chars "+1")].
Proof.
  apply (format_is_printf unit (fun _ => M_Zero) no_float 7 9 format_demo format_args (chars "-007  |0X0000BEEF%ok" ++ [0x2713] ++ chars "+1") [(5%nat, 32, 20)] statics [] []);
    [vm_compute; reflexivity|split; [apply str_statics_wf|constructor]|reflexivity|reflexivity].
Defined.

(** ** Replacing *)

(** The occurrences of [what], each the first one behind the one before, replaced. *)
Inductive replaced (what rep : list Z) : list Z -> list Z -> Prop :=
| R_none cs : (forall pre post, cs <> pre ++ what ++ post) -> replaced what rep cs cs
| R_first pre post out : (forall pre' post', pre ++ what ++ post = pre' ++ what ++ post' -> (length pre <= length pre')%nat) ->
    replaced what rep post out -> replaced what rep (pre ++ what ++ post) (pre ++ rep ++ out).

Lemma index_least what cs : forall pre post, cs = pre ++ what ++ post -> exists k, index what cs = Some k /\ (k <= length pre)%nat.
Proof.
  induction cs as [|c cs IH]; intros pre post E.
  - symmetry in E. apply app_nil in E as [-> E]. apply app_nil in E as [-> ->]. by exists 0%nat.
  - rewrite index_cons. case_bool_decide as Hw; [exists 0%nat; split; [done|lia]|]. destruct pre as [|x pre].
    + destruct Hw. rewrite E. cbn [app]. by rewrite take_app_length.
    + injection E as <- E. destruct (IH pre post E) as (k & -> & Hk). exists (S k). split; [done|]. simpl. lia.
Qed.

Lemma subst_replaced what rep fuel : forall cs, what <> [] -> (length cs < fuel)%nat -> replaced what rep cs (subst fuel what rep cs).
Proof.
  induction fuel as [|fuel IH]; intros cs Hw Hf; [lia|]. cbn [subst]. destruct (index what cs) as [k|] eqn:E.
  - destruct (index_some _ _ _ E) as [Hk Ho]. assert (1 <= length what)%nat by (destruct what; [done|simpl; lia]).
    assert (cs = take k cs ++ what ++ drop (k + length what) cs) as Ec by (rewrite <- Ho at 1; rewrite <- drop_drop, take_drop, take_drop; done).
    rewrite Ec at 1. apply R_first.
    + intros pre' post' E'. rewrite <- Ec in E'. destruct (index_least what cs pre' post' E') as (k' & Ek & Hle). rewrite Ek in E. injection E as ->. rewrite length_take. lia.
    + apply IH; [done|]. rewrite length_drop. lia.
  - apply R_none. intros pre post Ec. destruct (index_least what cs pre post Ec) as (k & Ek & _). congruence.
Qed.

(** C14. [replace] ends and replaces the occurrences of a string that is not
    empty, from left to right and without overlap, leaves no occurrence behind
    the last one, and changes no other string, when no character is lost by
    reading as bytes: the string that is changed and the one that is looked for
    are bytes or ASCII text, and the one that is put in is bytes, or it and the
    string that is changed are ASCII text. The string that is changed and the
    one put in have fewer than 2^28 characters, there are fewer than 2^59 other
    references, and it is neither the one looked for nor the one put in that is
    changed. *)
Theorem replace_replaces (g1 g2 : Z) h R d what rep (v u w : content) : wf h (d :: R) -> what ∈ statics_refs ++ R -> rep ∈ statics_refs ++ R ->
  holds h d v -> holds h what u -> holds h rep w -> convertible true u -> u.2 <> [] -> replaceable v w ->
  Z.of_nat (length v.2) < 2 ^ 28 -> Z.of_nat (length w.2) < 2 ^ 28 -> Z.of_nat (length R) < 2 ^ 59 ->
  exists h' d' x, replace g1 g2 d what rep h = Ret (d', h') /\ wf h' (d' :: R) /\ holds h' d' x /\ replaced u.2 w.2 v.2 x.2 /\ frame h h' R.
Proof.
  intros Hwf Hwhat Hrep Hd Hu Hw Cu Hne Hrv Hl Hlw Hr.
  destruct (replace_ok g1 g2 h R d what rep v u w Hwf Hwhat Hrep Hd Hu Hw Cu Hne Hrv Hl Hlw) as (h' & d' & E & W & K & F); [unfold room; lia|].
  exists h', d', (match index u.2 v.2 with Some _ => w.1 | None => v.1 end, subst (S (length v.2)) u.2 w.2 v.2). split_and!; [done..| |done].
  apply subst_replaced; [done|lia].
Qed.

Lemma replace_replaces_witness : exists h R d what rep h' d' x, holds h d (true, chars "aaaba") /\ holds h what (true, chars "aa") /\ holds h rep (true, chars "aaa") /\
  replace 7 9 d what rep h = Ret (d', h') /\ wf h' (d' :: R) /\ holds h' d' x /\ replaced (chars "aa") (chars "aaa") (chars "aaaba") x.2 /\ frame h h' R.
Proof.
  destruct (string_start unit (fun _ => M_Zero) no_float 7 9 [New unit (chars "aaaba"); New unit (chars "aa"); New unit (chars "aaa")]
    [(true, chars "aaaba"); (true, chars "aa"); (true, chars "aaa")] [[]; []; []] eq_refl) as (h & objs & _ & Hwf & Hv).
  inversion Hv as [|d ? objs1 ? K1 H1]; subst. inversion H1 as [|s ? objs2 ? K2 H2]; subst. inversion H2 as [|r ? objs3 ? K3 H3]; subst. inversion H3; subst.
  destruct (replace_replaces 7 9 h [s; r] d s r (true, chars "aaaba") (true, chars "aa") (true, chars "aaa")) as (h' & d' & x & H); try done.
  - apply in_refs.
  - apply in_cons, in_refs.
  - by left.
  - split; [by left|by left].
  - exists h, [s; r], d, s, r, h', d', x. done.
Defined.

(** ** UTF-8 *)

Definition cont (b : Z) : bool := (0x80 <=? b) && (b <? 0xc0).

(** The first character of a text in UTF-8, and the rest. *)
Definition utf8_decode (l : list Z) : option (Z * list Z) :=
  match l with
  | [] => None
  | a :: l =>
    if a <? 0x80 then Some (a, l)
    else if a <? 0xc0 then None
    else if a <? 0xe0 then match l with b :: l => if cont b then Some ((a - 0xc0) * 64 + (b - 0x80), l) else None | _ => None end
    else if a <? 0xf0 then match l with b :: c :: l => if cont b && cont c then Some (((a - 0xe0) * 64 + (b - 0x80)) * 64 + (c - 0x80), l) else None | _ => None end
    else if a <? 0xf8 then
      match l with b :: c :: d :: l => if cont b && cont c && cont d then Some ((((a - 0xf0) * 64 + (b - 0x80)) * 64 + (c - 0x80)) * 64 + (d - 0x80), l) else None | _ => None end
    else None
  end.

Lemma lor_marks x : (0 <= x < 64 -> Z.lor x 0x80 = x + 0x80) /\ (0 <= x < 32 -> Z.lor x 0xc0 = x + 0xc0) /\ (0 <= x < 16 -> Z.lor x 0xe0 = x + 0xe0) /\
  (0 <= x < 8 -> Z.lor x 0xf0 = x + 0xf0).
Proof.
  assert (forall n m, forallb (fun y => Z.lor y m =? y + m) (seqZ 0 n) = true -> 0 <= x < n -> Z.lor x m = x + m) as H.
  { intros n m E Hx. rewrite forallb_forall in E. apply Z.eqb_eq, E, list_elem_of_In, elem_of_seqZ. lia. }
  split_and!; apply H; by vm_compute.
Qed.

Lemma mark x : cont (u8 (Z.lor (Z.land x 0x3f) 0x80)) = true /\ u8 (Z.lor (Z.land x 0x3f) 0x80) - 0x80 = x mod 64.
Proof.
  change 0x3f with (Z.ones 6). rewrite Z.land_ones by lia. change (2 ^ 6) with 64. pose proof (Z.mod_pos_bound x 64 ltac:(lia)).
  rewrite (proj1 (lor_marks (x mod 64))) by done. rewrite (uwrap_id 8) by (unfold in_u; lia). unfold cont. split; lia.
Qed.

(** C26. A character appended with [appendUtf8FromUnicode] is read back by a
    decoder of UTF-8, for every code up to 0x10ffff, and the bytes before it stay. *)
Theorem utf8_roundtrip (g1 g2 : Z) h R d (cs rest : list Z) (code : Z) : wf h (d :: R) -> holds h d (true, cs) -> 0 <= code <= 0x10ffff ->
  Z.of_nat (length cs) < 2 ^ 59 -> Z.of_nat (length R) < 2 ^ 59 ->
  exists h' d' bs, appendUtf8FromUnicode g1 g2 d code h = Ret (d', h') /\ wf h' (d' :: R) /\ holds h' d' (true, cs ++ bs) /\ utf8_decode (bs ++ rest) = Some (code, rest).
Proof.
  intros Hwf Hh Hc Hl Hr. assert (length (utf8_bytes code) <= 4)%nat as L4 by (unfold utf8_bytes; rewrite length_map; repeat case_match; simpl; lia).
  destruct (append_temp_ok g1 g2 h R d (true, cs) (true, utf8_bytes code) (true, cs ++ utf8_bytes code) (String_ascii g1 (utf8_bytes code)) Hwf Hh) as (h' & d' & E & W & K & _);
    [apply (String_ascii_ok g1 g2); [done|lia|simpl; lia]|split; [done|by left]|cbn [snd]; lia|lia|].
  exists h', d', (utf8_bytes code). split_and!; [done..|]. unfold utf8_bytes. rewrite !Z.shiftr_div_pow2 by lia.
  change (2 ^ 6) with 64. change (2 ^ 12) with 4096. change (2 ^ 18) with 262144.
  destruct (mark code) as [M1 M2], (mark (code / 64)) as [M3 M4], (mark (code / 4096)) as [M5 M6].
  destruct (Z.leb_spec code 0x7f); [|destruct (Z.leb_spec code 0x7ff); [|destruct (Z.leb_spec code 0xffff); [|destruct (Z.leb_spec code 0x10ffff); [|lia]]]];
    cbn [map app utf8_decode].
  - rewrite (uwrap_id 8) by (unfold in_u; lia). by destruct (Z.ltb_spec code 0x80); [|lia].
  - rewrite (proj1 (proj2 (lor_marks (code / 64)))) by divlia. rewrite (uwrap_id 8 (_ + 0xc0)) by (unfold in_u; divlia). rewrite M1, M2.
    destruct (Z.ltb_spec (code / 64 + 0xc0) 0x80); [divlia|]. destruct (Z.ltb_spec (code / 64 + 0xc0) 0xc0); [divlia|].
    destruct (Z.ltb_spec (code / 64 + 0xc0) 0xe0); [|divlia]. do 2 f_equal. divlia.
  - rewrite (proj1 (proj2 (proj2 (lor_marks (code / 4096))))) by divlia. rewrite (uwrap_id 8 (_ + 0xe0)) by (unfold in_u; divlia). rewrite M1, M2, M3, M4. cbn [andb].
    destruct (Z.ltb_spec (code / 4096 + 0xe0) 0x80); [divlia|]. destruct (Z.ltb_spec (code / 4096 + 0xe0) 0xc0); [divlia|].
    destruct (Z.ltb_spec (code / 4096 + 0xe0) 0xe0); [divlia|]. destruct (Z.ltb_spec (code / 4096 + 0xe0) 0xf0); [|divlia]. do 2 f_equal. divlia.
  - rewrite (proj2 (proj2 (proj2 (lor_marks (code / 262144))))) by divlia. rewrite (uwrap_id 8 (_ + 0xf0)) by (unfold in_u; divlia). rewrite M1, M2, M3, M4, M5, M6. cbn [andb].
    destruct (Z.ltb_spec (code / 262144 + 0xf0) 0x80); [divlia|]. destruct (Z.ltb_spec (code / 262144 + 0xf0) 0xc0); [divlia|].
    destruct (Z.ltb_spec (code / 262144 + 0xf0) 0xe0); [divlia|]. destruct (Z.ltb_spec (code / 262144 + 0xf0) 0xf0); [divlia|].
    destruct (Z.ltb_spec (code / 262144 + 0xf0) 0xf8); [|divlia]. do 2 f_equal. divlia.
Qed.

Lemma utf8_roundtrip_witness : exists h R d h' d' bs, holds h d (true, chars "x") /\ appendUtf8FromUnicode 7 9 d 0x20ac h = Ret (d', h') /\ wf h' (d' :: R) /\
  holds h' d' (true, chars "x" ++ bs) /\ utf8_decode (bs ++ chars "y") = Some (0x20ac, chars "y").
Proof.
  destruct (string_start unit (fun _ => M_Zero) no_float 7 9 [New unit (chars "x")] [(true, chars "x")] [[]] eq_refl) as (h & objs & _ & Hwf & Hv).
  inversion Hv as [|d ? objs1 ? K1 H1]; subst. inversion H1; subst.
  destruct (utf8_roundtrip 7 9 h [] d (chars "x") (chars "y") 0x20ac Hwf K1) as (h' & d' & bs & H); [lia|done|done|]. by exists h, [], d, h', d', bs.
Defined.

(** ** What goes wrong *)

(** The text that a format makes. *)
Definition formatted (f : string) (args : list (va Z)) : res (list Z) :=
  match vformats Z (fun _ => M_Atleast1 8) (fun dot _ _ _ => if dot then chars "100000000.000000" else chars "1.0e+08") 7 9 (chars f) args statics with
  | Ret (d, _, h) => n ← load h (Some d); k ← the (if b_ok n then bytes n else wide n); mem_range (buf k) 0 (length_ n)
  | Crash c => Crash c
  | Exn e => Exn e
  | NoFuel => NoFuel
  end.

(** The length [hh] is parsed and then refused. *)
Example format_hh_asserts : formatted "%hhd" [V_32 1] = Crash AssertFailed.
Proof. vm_compute. reflexivity. Qed.

(** Padding with zeros beyond 17 characters writes the sign twice. *)
Example format_sign_twice : formatted "%+020d" [V_32 1] = Ret (chars "+000000000000000000+1").
Proof. vm_compute. reflexivity. Qed.

(** A precision above the digits is lost when there is a sign. *)
Example format_precision_lost : formatted "%+.20d" [V_32 1] = Ret (chars "+1").
Proof. vm_compute. reflexivity. Qed.

(** The prefix of a pointer is 0p. *)
Example format_pointer_prefix : formatted "%p" [V_64 0x1234] = Ret (chars "0p1234").
Proof. vm_compute. reflexivity. Qed.

(** The flag [#] gives zero a prefix. *)
Example format_zero_prefix : formatted "%#x" [V_32 0] = Ret (chars "0x0").
Proof. vm_compute. reflexivity. Qed.

(** The space flag, and the width and precision of characters and strings, are not used. *)
Example format_flags_ignored : formatted "% d|%5c|%-6s|%.2s" [V_32 5; V_32 65; V_Str (Some (chars "abc")); V_Str (Some (chars "abc"))] = Ret (chars "5|A|abc|abc").
Proof. vm_compute. reflexivity. Qed.

(** A [double] for [%lf] is read as a [long double]. *)
Example format_lf_reads_long_double : formatted "%lf" [V_Double 3] = Crash BadVararg.
Proof. vm_compute. reflexivity. Qed.

(** The space for [%f] leaves out the default precision. *)
Example format_f_overflows : formatted "%f" [V_Double 3] = Crash OutOfBounds.
Proof. vm_compute. reflexivity. Qed.

(** What a program of calls returns. *)
Definition results (ops : list (op unit)) : res (list (list Z)) :=
  match run_ops unit (fun _ => M_Zero) no_float 7 9 ops [] statics with
  | Ret (_, outs, _) => Ret outs
  | Crash c => Crash c
  | Exn e => Exn e
  | NoFuel => NoFuel
  end.

(** Reading two different wide strings as UTF-8 makes them equal: bytes are
    compared and hashed as soon as they are there, and what is not ASCII became '?'. *)
Example reading_makes_equal : results [NewWide unit [0x20ac]; NewWide unit [0x20ad]; Equal unit 0 1] = Ret [[]; []; [0]] /\
  results [NewWide unit [0x20ac]; NewWide unit [0x20ad]; GetUtf8 unit 0; GetUtf8 unit 1; Equal unit 0 1] = Ret [[]; []; [63]; [63]; [1]].
Proof. split; vm_compute; reflexivity. Qed.

(** Reading a wide string as UTF-8 and appending to it loses its wide characters. *)
Example reading_loses_wide : results [NewWide unit [0x20ac]; New unit [33]; Append unit 0 1; GetWide unit 0] = Ret [[]; []; []; [0x20ac; 33]] /\
  results [NewWide unit [0x20ac]; New unit [33]; GetUtf8 unit 0; Append unit 0 1; GetWide unit 0] = Ret [[]; []; [63]; []; [63; 33]].
Proof. split; vm_compute; reflexivity. Qed.

(** The empty string is found at the zero that ends the text. *)
Example find_empty_at_end : results [New unit (chars "abc"); New unit []; Find unit 0 1 0] = Ret [[]; []; [3]].
Proof. vm_compute. reflexivity. Qed.

(** The order of two strings looks at as many characters as the first one has:
    a string is not before a longer one that begins with it. *)
Example order_ignores_length : exists h, (d ← String_ascii 7 (chars "ab"); e ← String_ascii 7 (chars "abc"); bcmp 9 d e) statics = Ret (0, h).
Proof. eexists. vm_compute. reflexivity. Qed.
