(* ===== verification/StringIndex.v ===== *)
(** * core/types: StringIndex

    A table that is made once, from an array of strings, and finds the index of a
    string ([StringIndex] of [String.hxx] and [String.cxx]). The elements come
    from a pool behind the array of chains, in the order they are made; a chain is
    a list of elements, newest first. An empty table has the mask itself for its
    array: one chain, that is empty while the mask is zero. *)

From S2P Require Import Prelude Machine Heap StrData Strings.

#[local] Abbreviation M := (act (gmap addr strdata)).

(** [index], [str] (its [d]); [next] is the rest of the chain. *)
Record element := mk_element { e_index : Z; e_str : addr }.

(** [hash_list] is [None] where it points to [hash_mask]. *)
Record index_ := mk_index { hash_mask : Z; hash_list : option (list (list element)) }.

Section StringIndex.
Variable wgarbage : Z.

Definition isEmpty_index (t : index_) : bool := match hash_list t with None => true | Some _ => false end.

(** The greatest power of two that is not above: [while (mask&(mask-1)) mask &= mask-1]. *)
Fixpoint clear_low (fuel : nat) (mask : Z) : res Z :=
  match fuel with
  | O => NoFuel
  | S fuel => if Z.land mask (u64 (mask - 1)) =? 0 then Ret mask else clear_low fuel (Z.land mask (u64 (mask - 1)))
  end.

Definition chain (t : index_) (hash : Z) : res (list element) :=
  let i := Z.land (u64 hash) (hash_mask t) in
  match hash_list t with
  | Some l => match l !! Z.to_nat i with Some c => Ret c | None => Crash OutOfBounds end
  | None => if (i =? 0) && (hash_mask t =? 0) then Ret [] else Crash OutOfBounds
  end.
Definition set_chain (t : index_) (hash : Z) (c : list element) : index_ :=
  mk_index (hash_mask t) (<[Z.to_nat (Z.land (u64 hash) (hash_mask t)) := c]> <$> hash_list t).

(** The walk along a chain: the first element whose string equals [s]; the
    elements before it, itself, the ones after it. *)
Fixpoint seek (s : addr) (c : list element) : M (option (list element * element * list element)) :=
  match c with
  | [] => mret None
  | e :: c =>
    b ← equal wgarbage (e_str e) s;
    if b : bool then mret (Some ([], e, c))
    else
      r ← seek s c;
      mret (match r with Some (l, x, r) => Some (e :: l, x, r) | None => None end)
  end.

(** [str = s] in the element found. *)
Definition exchange (s : addr) (e : element) : M element := d ← assign (e_str e) s; mret (mk_element (e_index e) d).

(** One turn of the loop of [init]: the string [s] with the index [i]. *)
Definition init_one (t : index_) (i : Z) (s : addr) : M index_ :=
  hash ← getHash s;
  c ← lift (chain t hash);
  r ← seek s c;
  match r with
  | None => d ← String_copy s; mret (set_chain t hash (mk_element i d :: c))
  | Some (l, e, r) => e ← exchange s e; mret (set_chain t hash (l ++ e :: r))
  end.

(** [while (count--)]: from the last string to the first. *)
Fixpoint init_loop (t : index_) (strs : list (Z * addr)) : M index_ :=
  match strs with
  | [] => mret t
  | (i, s) :: strs => t ← init_loop t strs; init_one t i s
  end.

(** [init] with the values of the strings; [cells] chains. *)
Definition init (strs : list (Z * addr)) : M index_ :=
  let count := Z.of_nat (length strs) in
  let mask := u64 (3 * count) in
  if mask =? 0 then mret (mk_index 0 None)
  else
    mask ← lift (clear_low 64 mask);
    init_loop (mk_index (mask - 1) (Some (repeat [] (Z.to_nat mask)))) strs.

(** [init] without values: the index of each string is its position. *)
Definition init_positions (strs : list addr) : M index_ := init (imap (fun i s => (Z.of_nat i, s)) strs).

(** The loop that compares the pointers only. *)
Definition same_d (s : addr) (c : list element) : option element := snd <$> list_find (fun e => e_str e = s) c.

(** [find] and [findPtr], which differ in what they return for a string that is not there. *)
Definition find_or (none : Z) (t : index_) (s : addr) : M Z :=
  hash ← getHash s;
  c ← lift (chain t hash);
  match same_d s c with
  | Some e => mret (e_index e)
  | None =>
    hash ← getHash s;
    c ← lift (chain t hash);
    r ← seek s c;
    mret (match r with Some (_, e, _) => e_index e | None => none end)
  end.

Definition find_index := find_or (-1).
Definition findPtr := find_or 0.

(** [findXchg] and [findPtrXchg]: the element found takes the string. *)
Definition find_xchg_or (none : Z) (t : index_) (s : addr) : M (Z * index_) :=
  hash ← getHash s;
  c ← lift (chain t hash);
  match same_d s c with
  | Some e => mret (e_index e, t)
  | None =>
    hash ← getHash s;
    c ← lift (chain t hash);
    r ← seek s c;
    match r with
    | Some (l, e, r) => e ← exchange s e; mret (e_index e, set_chain t hash (l ++ e :: r))
    | None => mret (none, t)
    end
  end.

Definition findXchg := find_xchg_or (-1).
Definition findPtrXchg := find_xchg_or 0.

(** [clean]: every element gives up its string; the mask stays. *)
Fixpoint clean_chain (c : list element) : M unit :=
  match c with [] => mret tt | e :: c => _ ← destroy_string (e_str e); clean_chain c end.
Fixpoint clean_chains (l : list (list element)) : M unit :=
  match l with [] => mret tt | c :: l => _ ← clean_chain c; clean_chains l end.
Definition clean (t : index_) : M index_ :=
  match hash_list t with None => mret t | Some l => _ ← clean_chains l; mret (mk_index (hash_mask t) None) end.

(** [appendToList]: the strings that are appended, from the last chain to the first. *)
Definition appendToList (t : index_) : res (list addr) :=
  match hash_list t with
  | Some l => Ret (mjoin (map (map e_str) (rev l)))
  | None => if hash_mask t =? 0 then Ret [] else Crash OutOfBounds
  end.

End StringIndex.
