(* ===== verification/StringIndexSpec.v ===== *)
(** * StringIndex finds the last equal string

    The table as the function from strings to the index of the last string of the
    array that has the same value; every string it keeps is counted. *)

From Stdlib Require Import String Ascii.
From S2P Require Import Prelude Machine CString Heap StrData StrDataRefs StrDataOps StrDataValues StrFormat Strings StringOps StringSpec StringProperties StringIndex.

#[local] Abbreviation heap := (gmap addr strdata).
Implicit Types (h : heap) (R : list addr) (a d s : addr) (v w : content) (c : list element) (t : index_).

(** ** The mask *)

Lemma clear_bit (q k : Z) : 0 <= k -> 0 <= q -> Z.land (2 ^ k * (2 * q + 1)) (2 ^ k * (2 * q + 1) - 1) = 2 ^ (k + 1) * q.
Proof.
  intros Hk Hq. pose proof (Z.pow_pos_nonneg 2 k ltac:(lia) Hk) as P. apply Z.bits_inj'. intros i Hi. rewrite Z.land_spec.
  destruct (Z.lt_ge_cases i k) as [Hlt|Hge].
  - rewrite (Z.mul_comm (2 ^ k)), Z.mul_pow2_bits_low by done. rewrite Z.pow_add_r by lia.
    replace (2 ^ k * 2 ^ 1 * q) with (2 * q * 2 ^ k) by lia. by rewrite Z.mul_pow2_bits_low.
  - replace i with (i - k + k) by lia. rewrite <- !(Z.div_pow2_bits _ k) by lia. rewrite (Z.mul_comm (2 ^ k) (2 * q + 1)), Z.div_mul by lia.
    assert (((2 * q + 1) * 2 ^ k - 1) / 2 ^ k = 2 * q) as -> by (symmetry; apply (Z.div_unique_pos _ _ _ (2 ^ k - 1)); lia).
    rewrite Z.pow_add_r by lia. replace (2 ^ k * 2 ^ 1 * q) with (2 * q * 2 ^ k) by lia. rewrite Z.div_mul by lia.
    destruct (Z.eq_dec (i - k) 0) as [->|Hn]; [by rewrite Z.testbit_even_0, andb_false_r|].
    replace (i - k) with (Z.succ (i - k - 1)) by lia. rewrite Z.testbit_odd_succ, Z.testbit_even_succ by lia. apply andb_diag.
Qed.

Lemma clear_low_ok (q : positive) : forall fuel k, Zpos q < 2 ^ Z.of_nat fuel -> 0 <= k -> 2 ^ k * Zpos q < 2 ^ 64 ->
  exists n, 0 <= n /\ clear_low fuel (2 ^ k * Zpos q) = Ret (2 ^ n).
Proof.
  induction q as [q IH|q IH|]; intros fuel k Hf Hk Hb; (destruct fuel as [|fuel]; [simpl in Hf; lia|]);
    pose proof (Z.pow_pos_nonneg 2 k ltac:(lia) Hk) as P.
  - rewrite Nat2Z.inj_succ, Z.pow_succ_r in Hf by lia. change (Zpos q~1) with (2 * Zpos q + 1) in *. cbn [clear_low].
    rewrite (uwrap_id 64) by (unfold in_u; nia). rewrite clear_bit by lia. rewrite Z.pow_add_r by lia.
    destruct (Z.eqb_spec (2 ^ k * 2 ^ 1 * Zpos q) 0); [nia|]. rewrite <- Z.pow_add_r by lia. apply IH; [lia|lia|rewrite Z.pow_add_r by lia; nia].
  - change (Zpos q~0) with (2 * Zpos q) in *. replace (2 ^ k * (2 * Zpos q)) with (2 ^ (k + 1) * Zpos q) in * by (rewrite Z.pow_add_r by lia; lia).
    apply IH; lia.
  - exists k. split; [done|]. cbn [clear_low]. rewrite (uwrap_id 64) by (unfold in_u; lia).
    pose proof (clear_bit 0 k Hk ltac:(lia)) as E. replace (2 * 0 + 1) with 1 in E by lia. rewrite E. rewrite Z.mul_0_r. by rewrite Z.mul_1_r.
Qed.

(** ** What the table holds *)

(** What is compared: whether a string is null, and its characters. *)
#[local] Abbreviation key := (bool * list Z)%type.

Definition key_of a v : key := (bool_decide (a = s_null), v.2).
Definition hash_key (k : key) : Z := if k.1 then 0x45432344 else hash_value k.2.

(** The first pair of a chain with the key, and the last pair of an array. *)
Fixpoint assoc (kc : list (Z * key)) (k : key) : option Z :=
  match kc with [] => None | (i, k') :: kc => if decide (k = k') then Some i else assoc kc k end.
Fixpoint last_of (ks : list (Z * key)) (k : key) : option Z :=
  match ks with
  | [] => None
  | (i, k') :: ks => match last_of ks k with Some j => Some j | None => if decide (k = k') then Some i else None end
  end.

Lemma assoc_none kc k : assoc kc k = None <-> k ∉ kc.*2.
Proof.
  induction kc as [|[i k'] kc IH]; [split; [by intros _ ?%elem_of_nil|done]|]. rewrite fmap_cons, not_elem_of_cons. cbn [assoc snd].
  case_decide; split; [done|by intros []|intros H0; split; [done|by apply IH]|intros []; by apply IH].
Qed.

Lemma assoc_middle kl i k kr : k ∉ kl.*2 -> assoc (kl ++ (i, k) :: kr) k = Some i.
Proof.
  induction kl as [|[j k'] kl IH]; intros H; cbn [assoc app]; [by rewrite decide_True|]. rewrite fmap_cons, not_elem_of_cons in H.
  destruct H as [H1 H2]. cbn [snd] in H1. rewrite decide_False by done. auto.
Qed.

Lemma assoc_in kc i k : NoDup kc.*2 -> (i, k) ∈ kc -> assoc kc k = Some i.
Proof.
  intros Hn Hi. apply list_elem_of_split in Hi as (kl & kr & ->). apply assoc_middle.
  rewrite fmap_app, fmap_cons in Hn. apply NoDup_app in Hn as (_ & H & _). intros Hk. apply (H k Hk). by left.
Qed.

Section Index.
Variable g : Z.

(** All strings are bytes, or all are text. *)
Variable bin : bool.
Definition kin v : Prop := if bin then v.1 = true else is_text v.

Lemma kin_comparable v w : kin v -> kin w -> comparable v w.
Proof. unfold kin, comparable. destruct bin; auto. Qed.

Lemma key_same a s v w : key_of a v = key_of s w <-> same_value a s v w.
Proof.
  unfold key_of, same_value. split.
  - intros [= H1 H2]. split; [done|]. revert H1. repeat case_bool_decide; done || tauto.
  - intros [-> H]. f_equal. by apply bool_decide_ext.
Qed.

Lemma hash_key_of a v : hash_of a v.2 = hash_key (key_of a v).
Proof. unfold hash_of, hash_key, key_of. cbn [fst snd]. by destruct (decide (a = s_null)) as [E|E]; [rewrite bool_decide_eq_true_2|rewrite bool_decide_eq_false_2]. Qed.

Lemma holds_same h a v w : holds h a v -> holds h a w -> v.2 = w.2.
Proof. intros (n & Hn & Hv) (m & Hm & Hw). assert (n = m) as -> by congruence. by eapply sd_ok_inj. Qed.

Definition elem_ok h (e : element) (x : Z * key) : Prop :=
  e_index e = x.1 /\ exists v, holds h (e_str e) v /\ kin v /\ x.2 = key_of (e_str e) v.
Definition chain_ok h c (kc : list (Z * key)) : Prop := Forall2 (elem_ok h) c kc.
Definition crefs c : list addr := e_str <$> c.
Definition irefs (L : list (list element)) : list addr := L ≫= crefs.

Lemma chain_frame h h' R c kc : frame h h' R -> (forall a, a ∈ crefs c -> a ∈ R) -> chain_ok h c kc -> chain_ok h' c kc.
Proof.
  intros Hf Hs Hc. induction Hc as [|e x c kc (Hi & v & Hv & Hk & Ek) Hc IH]; [constructor|]. constructor.
  - split; [done|]. exists v. split_and!; try done. apply Hf; [|done]. apply elem_of_app. right. apply Hs. by left.
  - apply IH. intros a Ha. apply Hs. by right.
Qed.

Lemma seek_ok R s w : forall c kc h, wf h R -> (forall a, a ∈ crefs c -> a ∈ R) -> s ∈ statics_refs ++ R -> holds h s w -> kin w -> chain_ok h c kc ->
  exists h' r, seek g s c h = Ret (r, h') /\ wf h' R /\ frame h h' R /\
    match r with
    | None => key_of s w ∉ kc.*2
    | Some (l, e, r) => c = l ++ e :: r /\ exists kl i kr, kc = kl ++ (i, key_of s w) :: kr /\ length kl = length l /\ e_index e = i /\ key_of s w ∉ kl.*2
    end.
Proof.
  intros c kc h Hwf Hs Hin Hh Hk Hc. revert h Hwf Hh Hc. revert kc. induction c as [|e c IH]; intros kc h Hwf Hh Hc.
  - inversion Hc. subst. exists h, None. split_and!; [done|done|apply frame_refl|by intros ?%elem_of_nil].
  - inversion Hc as [|? [i k] ? kc' (Hi & v & Hv & Hkv & Ek) Hc']. subst. cbn [fst snd] in *.
    assert (e_str e ∈ statics_refs ++ R) as He by (apply elem_of_app; right; apply Hs; by left).
    destruct (str_beq_ok g h R (e_str e) s v w Hwf He Hin Hv Hh (kin_comparable v w Hkv Hk)) as (h1 & E1 & W1 & F1).
    cbn [seek]. unfold equal. unfold mbind at 1, act_bind at 1. rewrite E1. case_bool_decide as Hb.
    + exists h1, (Some ([], e, c)). split_and!; [done|done|done|done|]. exists [], i, kc'. apply key_same in Hb. rewrite <- Hb, <- Ek. split_and!; try done. by intros ?%elem_of_nil.
    + destruct (IH ltac:(intros a Ha; apply Hs; by right) kc' h1 W1) as (h2 & r & E2 & W2 & F2 & Hr);
        [by apply F1|eapply chain_frame; [exact F1| |done]; intros a Ha; apply Hs; by right|].
      unfold mbind, act_bind. rewrite E2. exists h2, (match r with Some (l, x, r) => Some (e :: l, x, r) | None => None end).
      split_and!; [done|done|by eapply frame_trans|]. assert (key_of s w <> k) as Hne by (rewrite Ek; intros E; apply Hb, key_same; done).
      destruct r as [[[l x] r]|].
      * destruct Hr as (-> & kl & i' & kr & -> & Hl & Hx & Hn). split; [done|]. exists ((i, k) :: kl), i', kr. split_and!; [done|simpl; lia|done|].
        rewrite fmap_cons, not_elem_of_cons. done.
      * rewrite fmap_cons, not_elem_of_cons. done.
Qed.

(** ** The table *)

Definition slot (n : Z) (k : key) : nat := Z.to_nat (Z.land (u64 (hash_key k)) (2 ^ n - 1)).

Lemma slot_bound n k : 0 <= n -> (slot n k < Z.to_nat (2 ^ n))%nat.
Proof.
  intros Hn. unfold slot. replace (2 ^ n - 1) with (Z.ones n) by (rewrite Z.ones_equiv; lia).
  rewrite Z.land_ones by done. pose proof (Z.mod_pos_bound (u64 (hash_key k)) (2 ^ n) ltac:(lia)). lia.
Qed.

(** Chains [L] with the pairs [A], which answer as the array [ks] does. *)
Record table_ok h R t (L : list (list element)) (A : list (list (Z * key))) (n : Z) (ks : list (Z * key)) : Prop := {
  table_n : 0 <= n;
  table_mask : hash_mask t = 2 ^ n - 1;
  table_list : hash_list t = Some L;
  table_wf : wf h (irefs L ++ R);
  table_size : (length (irefs L) <= length ks)%nat;
  table_pairs : Forall2 (chain_ok h) L A;
  table_keys : Forall (fun kc => NoDup kc.*2) A;
  table_answers : forall k, exists kc, A !! slot n k = Some kc /\ assoc kc k = last_of ks k;
}.

Lemma irefs_at L j c : L !! j = Some c -> irefs L ≡ₚ crefs c ++ irefs (delete j L).
Proof. intros H. unfold irefs. rewrite (delete_Permutation L j c H) at 1. done. Qed.

Lemma irefs_set L j c c' : L !! j = Some c -> irefs (<[j := c']> L) ≡ₚ crefs c' ++ irefs (delete j L).
Proof.
  intros H. unfold irefs. destruct (insert_perm L j c c' H) as [-> _]. done.
Qed.

Lemma irefs_elem L j c e : L !! j = Some c -> e ∈ c -> e_str e ∈ irefs L.
Proof. intros Hj He. apply list_elem_of_bind. exists c. split; [by apply list_elem_of_fmap_2|by eapply list_elem_of_lookup_2]. Qed.

Lemma irefs_chain L R j c a : L !! j = Some c -> a ∈ crefs c -> a ∈ irefs L ++ R.
Proof. intros Hj Ha. apply elem_of_app. left. apply list_elem_of_fmap in Ha as (e & -> & He). by eapply irefs_elem. Qed.

Lemma chains_frame h h' R L A : frame h h' (irefs L ++ R) -> Forall2 (chain_ok h) L A -> Forall2 (chain_ok h') L A.
Proof.
  intros Hf H. apply Forall2_lookup. intros j. rewrite Forall2_lookup in H. specialize (H j).
  destruct (L !! j) as [c|] eqn:Ej; inversion H as [? kc Hc|]; subst; constructor. eapply (chain_frame _ _ (irefs L ++ R)); [done| |done].
  intros a. by apply (irefs_chain L R j c).
Qed.

Lemma table_frame h h' R t L A n ks : table_ok h R t L A n ks -> wf h' (irefs L ++ R) -> frame h h' (irefs L ++ R) -> table_ok h' R t L A n ks.
Proof. intros [H1 H2 H3 H4 H5 H6 H7 H8] Hwf Hf. split; try done. by eapply chains_frame. Qed.

(** The chain of a key. *)
Lemma table_chain h R t L A n ks s w : table_ok h R t L A n ks -> exists c kc, chain t (hash_of s w.2) = Ret c /\ L !! slot n (key_of s w) = Some c /\
  A !! slot n (key_of s w) = Some kc /\ chain_ok h c kc /\ NoDup kc.*2 /\ assoc kc (key_of s w) = last_of ks (key_of s w).
Proof.
  intros [Hn Hm HL _ _ HA Hd Hk]. destruct (Hk (key_of s w)) as (kc & Ekc & Ha).
  destruct (Forall2_lookup_r _ _ _ _ _ HA Ekc) as (c & Ec & Hc). exists c, kc. unfold chain. rewrite HL, Hm, (hash_key_of s w). fold (slot n (key_of s w)).
  cbv zeta. rewrite Ec. split_and!; try done. by eapply Forall_lookup_1 in Hd.
Qed.

(** A chain is put in place of another. *)
Lemma table_put h h' R t L A n ks ks' j c c' kc kc' : table_ok h R t L A n ks -> L !! j = Some c -> A !! j = Some kc ->
  wf h' (irefs (<[j := c']> L) ++ R) -> frame h h' (irefs (delete j L) ++ R) -> (length (irefs (<[j := c']> L)) <= length ks')%nat ->
  chain_ok h' c' kc' -> NoDup kc'.*2 -> (forall k, slot n k = j -> assoc kc' k = last_of ks' k) -> (forall k, slot n k <> j -> last_of ks' k = last_of ks k) ->
  table_ok h' R (mk_index (hash_mask t) (Some (<[j := c']> L))) (<[j := c']> L) (<[j := kc']> A) n ks'.
Proof.
  intros [H1 H2 H3 H4 H5 H6 H7 H8] Ej Ekc Hwf Hf Hsz Hc Hd Hin Hout. split; try done.
  - apply Forall2_lookup. intros i. rewrite Forall2_lookup in H6. specialize (H6 i). destruct (decide (j = i)) as [<-|Hne].
    + rewrite !list_lookup_insert_eq by (by eapply lookup_lt_Some). by constructor.
    + rewrite !list_lookup_insert_ne by done. destruct (L !! i) as [ci|] eqn:Ei; inversion H6 as [? ki Hi|]; subst; constructor.
      eapply chain_frame; [exact Hf| |done]. intros a Ha. apply elem_of_app. left. apply list_elem_of_bind. exists ci. split; [done|]. by eapply elem_others.
  - by apply Forall_insert.
  - intros k. destruct (decide (slot n k = j)) as [E|E].
    + exists kc'. rewrite E, list_lookup_insert_eq by (by eapply lookup_lt_Some). split; [done|]. by apply Hin.
    + destruct (H8 k) as (ki & Ei & Ha). exists ki. rewrite list_lookup_insert_ne by done. split; [done|]. by rewrite Hout.
Qed.

Lemma last_of_cons i k ks k' : last_of ((i, k) :: ks) k' = match last_of ks k' with Some j => Some j | None => if decide (k' = k) then Some i else None end.
Proof. done. Qed.

Lemma crefs_middle l e r : crefs (l ++ e :: r) ≡ₚ e_str e :: crefs (l ++ r).
Proof. unfold crefs. rewrite !fmap_app, fmap_cons. symmetry. apply Permutation_middle. Qed.

(** An element takes a string with the same value. *)
Lemma exchange_ok h R t L A n ks s w j c kc l e r : table_ok h R t L A n ks -> L !! j = Some c -> A !! j = Some kc -> c = l ++ e :: r ->
  (exists kl i kr, kc = kl ++ (i, key_of s w) :: kr /\ length kl = length l /\ e_index e = i /\ key_of s w ∉ kl.*2) ->
  s ∈ statics_refs ++ R -> holds h s w -> kin w -> Z.of_nat (S (length ks + length R)) < 2 ^ 60 ->
  exists h' e', exchange s e h = Ret (e', h') /\ frame h h' R /\ e_index e' = e_index e /\
    table_ok h' R (mk_index (hash_mask t) (Some (<[j := l ++ e' :: r]> L))) (<[j := l ++ e' :: r]> L) A n ks.
Proof.
  intros Ht Ej Ekc -> (kl & i & kr & -> & Hl & Hi & Hnl) Hs Hh Hk Hr.
  pose proof (table_size _ _ _ _ _ _ _ Ht) as Hsz. pose proof (irefs_at L j _ Ej) as P.
  set (rest := crefs (l ++ r) ++ irefs (delete j L) ++ R).
  assert (irefs L ++ R ≡ₚ e_str e :: rest) as P1. { rewrite P, crefs_middle. unfold rest. by rewrite <- !app_assoc. }
  assert (length (irefs L ++ R) = S (length rest)) as Lr by (rewrite P1; done). rewrite length_app in Lr.
  destruct (assign_ok h rest (e_str e) s w) as (h' & E & W & K & F).
  - eapply str_wf_perm; [exact P1|]. apply Ht.
  - rewrite <- P1. rewrite !elem_of_app in *. tauto.
  - done.
  - lia.
  - exists h', (mk_element (e_index e) s). unfold exchange, mbind, act_bind. rewrite E. split_and!; [done| |done|].
    { eapply frame_sub; [|exact F]. intros a Ha. unfold rest. rewrite !elem_of_app. auto. }
    assert (irefs (<[j := l ++ mk_element (e_index e) s :: r]> L) ++ R ≡ₚ s :: rest) as P2.
    { rewrite (irefs_set _ _ _ _ Ej), crefs_middle. unfold rest. by rewrite <- !app_assoc. }
    pose proof (Forall2_lookup_lr _ _ _ _ _ _ (table_pairs _ _ _ _ _ _ _ Ht) Ej Ekc) as Hc.
    assert (chain_ok h' (l ++ mk_element (e_index e) s :: r) (kl ++ (i, key_of s w) :: kr)) as Hc'.
    { apply Forall2_app_inv in Hc as [Hc1 Hc2]; [|done]. inversion Hc2 as [|? ? ? ? _ Hc3]; subst.
      assert (forall a, a ∈ crefs (l ++ r) -> a ∈ rest) as Hsub by (intros a Ha; unfold rest; rewrite elem_of_app; auto).
      unfold crefs in Hsub. rewrite fmap_app in Hsub.
      apply Forall2_app; [eapply chain_frame; [exact F| |done]|constructor; [|eapply chain_frame; [exact F| |done]]].
      - intros a Ha. apply Hsub, elem_of_app. by left.
      - split; [done|]. by exists w.
      - intros a Ha. apply Hsub, elem_of_app. by right. }
    rewrite <- (list_insert_id A j _ Ekc). eapply table_put; try done.
    + eapply str_wf_perm; [symmetry; exact P2|done].
    + eapply frame_sub; [|exact F]. intros a. unfold rest. rewrite !elem_of_app. tauto.
    + apply Nat.le_trans with (length (irefs L)); [|done]. apply (Nat.add_le_mono_r _ _ (length R)). rewrite <- !length_app, P1, P2. done.
    + eapply Forall_lookup_1 in Ekc; [|apply Ht]. done.
    + intros k <-. destruct (table_answers _ _ _ _ _ _ _ Ht k) as (kc & Ek & <-). by rewrite Ekc in Ek; injection Ek as <-.
Qed.

Lemma init_one_ok h R t L A n ks i s w : table_ok h R t L A n ks -> s ∈ statics_refs ++ R -> holds h s w -> kin w ->
  Z.of_nat (S (length ks + length R)) < 2 ^ 60 ->
  exists h' t' L' A', init_one g t i s h = Ret (t', h') /\ table_ok h' R t' L' A' n ((i, key_of s w) :: ks) /\ frame h h' R.
Proof.
  intros Ht Hs Hh Hk Hr. assert (forall a, a ∈ statics_refs ++ R -> a ∈ statics_refs ++ irefs L ++ R) as Hsub.
  { intros a. rewrite !elem_of_app. tauto. }
  destruct (str_getHash_ok h _ s w (table_wf _ _ _ _ _ _ _ Ht) Hh) as (h1 & E1 & W1 & F1).
  pose proof (table_frame _ _ _ _ _ _ _ _ Ht W1 F1) as Ht1. assert (holds h1 s w) as Hh1 by (apply F1; auto).
  destruct (table_chain _ _ _ _ _ _ _ s w Ht1) as (c & kc & Ec & Ej & Ekc & Hc & Hd & Ha). set (j := slot n (key_of s w)) in *.
  destruct (seek_ok _ s w c kc h1 W1 (fun a => irefs_chain L R j c a Ej) (Hsub s Hs) Hh1 Hk Hc) as (h2 & r & E2 & W2 & F2 & Hres).
  pose proof (table_frame _ _ _ _ _ _ _ _ Ht1 W2 F2) as Ht2. assert (holds h2 s w) as Hh2 by (apply F2; auto).
  assert (frame h h2 R) as F02. { intros b v Hb Hv. apply F2; [auto|]. apply F1; auto. }
  assert (set_chain t (hash_of s w.2) = fun c' => mk_index (hash_mask t) (Some (<[j := c']> L))) as Eset.
  { unfold set_chain. rewrite (table_list _ _ _ _ _ _ _ Ht), (table_mask _ _ _ _ _ _ _ Ht), (hash_key_of s w). done. }
  unfold init_one, mbind, act_bind. rewrite E1, Ec. cbn [lift]. rewrite E2. unfold mbind, act_bind. rewrite Eset.
  destruct r as [[[l e] r]|].
  - destruct Hres as [-> Hres]. destruct (exchange_ok h2 R t L A n ks s w j _ kc l e r Ht2 Ej Ekc eq_refl Hres Hs Hh2 Hk Hr) as (h3 & e' & E3 & F3 & _ & Ht3).
    rewrite E3. eexists h3, _, _, A. split; [done|]. split; [|by eapply frame_trans].
    assert (last_of ks (key_of s w) = Some (e_index e)) as El.
    { rewrite <- Ha. destruct Hres as (kl & i0 & kr & -> & _ & -> & Hn). by apply assoc_middle. }
    destruct Ht3 as [T1 T2 T3 T4 T5 T6 T7 T8]. split; try done; [simpl; lia|]. intros k. destruct (T8 k) as (kk & Ek & Hkk). exists kk. split; [done|].
    rewrite Hkk, last_of_cons. destruct (last_of ks k) eqn:Elk; [done|]. rewrite decide_False; [done|]. intros ->. congruence.
  - destruct (ref_ok h2 (irefs L ++ R) s W2 (Hsub s Hs)) as (h3 & E3 & W3 & F3).
    { pose proof (table_size _ _ _ _ _ _ _ Ht). rewrite length_app. lia. }
    unfold String_copy. rewrite E3. eexists h3, _, _, (<[j := (i, key_of s w) :: kc]> A). split; [done|].
    assert (frame h2 h3 (irefs L ++ R)) as F3'. { by apply frame_cons in F3. }
    split; [|intros b v Hb Hv; apply F3'; auto].
    pose proof (irefs_set L j _ (mk_element i s :: c) Ej) as P. pose proof (irefs_at L j c Ej) as P0.
    assert (irefs (<[j := mk_element i s :: c]> L) ≡ₚ s :: irefs L) as P1 by (rewrite P, P0; done).
    apply (table_put h2 h3 R t L A n ks _ j c _ kc); try done.
    + eapply str_wf_perm, W3. by rewrite P1.
    + eapply frame_sub; [|exact F3']. intros a. rewrite P0, !elem_of_app. tauto.
    + rewrite P1. pose proof (table_size _ _ _ _ _ _ _ Ht) as Hsz. simpl. lia.
    + constructor; [split; [done|]; exists w; split_and!; [|done|done]; apply F3; [apply in_refs|done]|].
      pose proof (Forall2_lookup_lr _ _ _ _ _ _ (table_pairs _ _ _ _ _ _ _ Ht2) Ej Ekc) as Hc2. eapply chain_frame; [exact F3'| |exact Hc2].
      intros a Ha'. by apply (irefs_chain L R j c).
    + rewrite fmap_cons. by constructor.
    + intros k Hkj. rewrite last_of_cons. cbn [assoc]. destruct (table_answers _ _ _ _ _ _ _ Ht k) as (kk & Ek & <-). rewrite Hkj, Ekc in Ek. injection Ek as <-.
      case_decide as E; [|by destruct (assoc kc k)]. subst k. apply assoc_none in Hres. by rewrite Hres.
    + intros k Hkj. rewrite last_of_cons. destruct (last_of ks k); [done|]. rewrite decide_False; [done|]. intros ->. done.
Qed.

(** ** Making the table *)

(** The strings of an array with their indices, and their values. *)
Definition pairs (strs : list (Z * addr)) (ws : list content) : list (Z * key) := zip_with (fun x w => (x.1, key_of x.2 w)) strs ws.
Definition given h R (x : Z * addr) w : Prop := x.2 ∈ statics_refs ++ R /\ holds h x.2 w /\ kin w.

Lemma given_frame h h' R strs ws : frame h h' R -> Forall2 (given h R) strs ws -> Forall2 (given h' R) strs ws.
Proof. intros Hf H. eapply Forall2_impl; [exact H|]. intros x w (H1 & H2 & H3). split_and!; auto. Qed.

Lemma index_init_loop_ok R n strs : forall h t L A ws, table_ok h R t L A n [] -> Forall2 (given h R) strs ws ->
  Z.of_nat (S (length strs + length R)) < 2 ^ 60 ->
  exists h' t' L' A', init_loop g t strs h = Ret (t', h') /\ table_ok h' R t' L' A' n (pairs strs ws) /\ frame h h' R.
Proof.
  induction strs as [|[i s] strs IH]; intros h t L A ws Ht Hg Hr; inversion Hg as [|? w ? ws' Hx Hg']; subst; cbn [init_loop].
  - exists h, t, L, A. split_and!; [done|done|apply frame_refl].
  - destruct (IH h t L A ws' Ht Hg') as (h1 & t1 & L1 & A1 & E1 & Ht1 & F1); [simpl in Hr; lia|]. destruct Hx as (H1 & H2 & H3). cbn [snd] in *.
    assert (length (pairs strs ws') <= length strs)%nat as Hl by (unfold pairs; rewrite length_zip_with; lia).
    destruct (init_one_ok h1 R t1 L1 A1 n (pairs strs ws') i s w Ht1 H1 (F1 s w H1 H2) H3) as (h2 & t2 & L2 & A2 & E2 & Ht2 & F2); [simpl in Hr; lia|].
    exists h2, t2, L2, A2. unfold mbind, act_bind. rewrite E1, E2. split_and!; [done|done|by eapply frame_trans].
Qed.

Lemma irefs_empty (k : nat) : irefs (repeat [] k) = [].
Proof. induction k; done. Qed.

(** A table that answers as the array [ks]. *)
Definition index_ok h R t (ks : list (Z * key)) : Prop :=
  (exists L A n, table_ok h R t L A n ks) \/ t = mk_index 0 None /\ ks = [] /\ wf h R.

Lemma init_ok h R strs ws : wf h R -> Forall2 (given h R) strs ws -> Z.of_nat (S (length strs + length R)) < 2 ^ 60 ->
  exists h' t, init g strs h = Ret (t, h') /\ index_ok h' R t (pairs strs ws) /\ frame h h' R.
Proof.
  intros Hwf Hg Hr. unfold init. cbv zeta. rewrite (uwrap_id 64) by (unfold in_u; lia).
  destruct (Z.eqb_spec (3 * Z.of_nat (length strs)) 0) as [E0|E0].
  - destruct strs; [|simpl in E0; lia]. inversion Hg. subst. exists h, (mk_index 0 None). split_and!; [done|by right|apply frame_refl].
  - destruct (clear_low_ok (Z.to_pos (3 * Z.of_nat (length strs))) 64 0) as (n & Hn & En); [rewrite ?Z2Pos.id by lia; simpl; lia..|].
    rewrite Z2Pos.id in En by lia. rewrite Z.mul_1_l in En. unfold mbind, act_bind. rewrite En. cbn [lift].
    destruct (index_init_loop_ok R n strs h (mk_index (2 ^ n - 1) (Some (repeat [] (Z.to_nat (2 ^ n))))) (repeat [] (Z.to_nat (2 ^ n))) (repeat [] (Z.to_nat (2 ^ n))) ws)
      as (h' & t & L & A & E & Ht & F); [|done|done|].
    + split; try done; rewrite ?irefs_empty; [done|simpl; lia| | |].
      * apply Forall2_same_length_lookup. split; [by rewrite !repeat_length|]. intros i c kc Hc Hk. apply list_elem_of_lookup_2, list_elem_of_In, repeat_spec in Hc as ->.
        apply list_elem_of_lookup_2, list_elem_of_In, repeat_spec in Hk as ->. constructor.
      * apply Forall_forall. intros kc Hk. apply list_elem_of_In, repeat_spec in Hk as ->. constructor.
      * intros k. exists []. split; [|done].
        destruct (lookup_lt_is_Some_2 (repeat ([] : list (Z * key)) (Z.to_nat (2 ^ n))) (slot n k)) as [kc Ek]; [rewrite repeat_length; by apply slot_bound|].
        rewrite Ek. by apply list_elem_of_lookup_2, list_elem_of_In, repeat_spec in Ek as ->.
    + exists h', t. split_and!; [done|left; by exists L, A, n|done].
Qed.

(** ** Finding *)

Lemma same_d_ok h c kc s w : chain_ok h c kc -> NoDup kc.*2 -> holds h s w ->
  match same_d s c with Some e => assoc kc (key_of s w) = Some (e_index e) | None => True end.
Proof.
  intros Hc Hd Hh. unfold same_d. destruct (list_find (fun e => e_str e = s) c) as [[p e]|] eqn:E; [|done]. cbn [fmap option_fmap option_map snd].
  apply list_find_Some in E as (Ep & Es & _). destruct (Forall2_lookup_l _ _ _ _ _ Hc Ep) as ([i k] & Ek & Hi & v & Hv & _ & Ekey). cbn [fst snd] in *. subst s.
  assert (key_of (e_str e) v = key_of (e_str e) w) as E by (unfold key_of; by rewrite (holds_same h _ v w Hv Hh)).
  rewrite Hi. apply assoc_in; [done|]. rewrite <- E, <- Ekey. by eapply list_elem_of_lookup_2.
Qed.

(** The part that all the functions that find share. *)
Lemma find_part h R t L A n ks s w : table_ok h R t L A n ks -> s ∈ statics_refs ++ R -> holds h s w -> kin w ->
  exists h1 c kc, getHash s h = Ret (hash_of s w.2, h1) /\ chain t (hash_of s w.2) = Ret c /\ table_ok h1 R t L A n ks /\ frame h h1 R /\ holds h1 s w /\
    L !! slot n (key_of s w) = Some c /\ A !! slot n (key_of s w) = Some kc /\ NoDup kc.*2 /\ chain_ok h1 c kc /\ assoc kc (key_of s w) = last_of ks (key_of s w).
Proof.
  intros Ht Hs Hh Hk. assert (s ∈ statics_refs ++ irefs L ++ R) as Hs' by (rewrite !elem_of_app in *; tauto).
  destruct (str_getHash_ok h _ s w (table_wf _ _ _ _ _ _ _ Ht) Hh) as (h1 & E1 & W1 & F1).
  pose proof (table_frame _ _ _ _ _ _ _ _ Ht W1 F1) as Ht1. destruct (table_chain _ _ _ _ _ _ _ s w Ht1) as (c & kc & H1 & H2 & H3 & H4 & H5 & H6).
  exists h1, c, kc. split_and!; try done; [|by apply F1]. intros b v Hb. apply F1. rewrite !elem_of_app in *. tauto.
Qed.

Lemma chain_empty x : chain (mk_index 0 None) x = Ret [].
Proof. unfold chain. cbn [hash_mask hash_list]. by rewrite Z.land_0_r. Qed.

(** The walk that compares values, after the one that compares pointers. *)
Lemma find_second h R t L A n ks s w : table_ok h R t L A n ks -> s ∈ statics_refs ++ R -> holds h s w -> kin w ->
  exists h1 h2 c kc r, getHash s h = Ret (hash_of s w.2, h1) /\ chain t (hash_of s w.2) = Ret c /\ seek g s c h1 = Ret (r, h2) /\
    table_ok h2 R t L A n ks /\ frame h h2 R /\ L !! slot n (key_of s w) = Some c /\ A !! slot n (key_of s w) = Some kc /\
    match r with
    | None => last_of ks (key_of s w) = None
    | Some (l, e, r) => c = l ++ e :: r /\ last_of ks (key_of s w) = Some (e_index e) /\
        exists kl i kr, kc = kl ++ (i, key_of s w) :: kr /\ length kl = length l /\ e_index e = i /\ key_of s w ∉ kl.*2
    end.
Proof.
  intros Ht Hs Hh Hk. destruct (find_part h R t L A n ks s w Ht Hs Hh Hk) as (h1 & c & kc & E1 & Ec & Ht1 & F1 & Hh1 & Ej & Ekc & _ & Hc & Ha).
  destruct (seek_ok (irefs L ++ R) s w c kc h1 (table_wf _ _ _ _ _ _ _ Ht1) (fun a => irefs_chain L R _ c a Ej)) as (h2 & r & E2 & W2 & F2 & Hres);
    [rewrite !elem_of_app in *; tauto|done|done|done|].
  exists h1, h2, c, kc, r. split_and!; try done; [by eapply table_frame| |].
  - eapply frame_trans; [exact F1|]. intros b v Hb. apply F2. rewrite !elem_of_app in *. tauto.
  - rewrite <- Ha. destruct r as [[[l e] r]|]; [|by apply assoc_none]. destruct Hres as (-> & kl & i & kr & -> & Hl & Hi & Hn). rewrite Hi.
    split_and!; [done|by apply assoc_middle|]. by exists kl, i, kr.
Qed.

Lemma find_or_ok none h R t ks s w : index_ok h R t ks -> s ∈ statics_refs ++ R -> holds h s w -> kin w ->
  exists h', find_or g none t s h = Ret (default none (last_of ks (key_of s w)), h') /\ index_ok h' R t ks /\ frame h h' R.
Proof.
  intros [(L & A & n & Ht)|(-> & -> & Hwf)] Hs Hh Hk; unfold find_or, mbind, act_bind.
  - destruct (find_part h R t L A n ks s w Ht Hs Hh Hk) as (h1 & c & kc & E1 & Ec & Ht1 & F1 & Hh1 & _ & _ & Hd & Hc & Ha).
    rewrite E1, Ec. cbn [lift]. pose proof (same_d_ok h1 c kc s w Hc Hd Hh1) as Hsame.
    destruct (same_d s c) as [e|]; [exists h1; rewrite <- Ha, Hsame; split_and!; [done|left; by exists L, A, n|done]|]. clear Hsame.
    destruct (find_second h1 R t L A n ks s w Ht1 Hs Hh1 Hk) as (h2 & h3 & c2 & kc2 & r & E2 & Ec2 & E3 & Ht3 & F3 & _ & _ & Hres).
    rewrite E2, Ec2. cbn [lift]. rewrite E3. exists h3. split_and!; [|left; by exists L, A, n|by eapply frame_trans].
    destruct r as [[[l e] r]|]; [|by rewrite Hres]. by destruct Hres as (_ & -> & _).
  - destruct (str_getHash_ok h R s w Hwf Hh) as (h1 & E1 & W1 & F1). destruct (str_getHash_ok h1 R s w W1 (F1 s w Hs Hh)) as (h2 & E2 & W2 & F2).
    exists h2. rewrite E1, chain_empty. cbn [lift]. change (same_d s []) with (@None element). cbv beta iota. rewrite E2, chain_empty. cbn [lift seek].
    split_and!; [done|by right|by eapply frame_trans].
Qed.

Lemma find_xchg_ok none h R t ks s w : index_ok h R t ks -> s ∈ statics_refs ++ R -> holds h s w -> kin w -> Z.of_nat (S (length ks + length R)) < 2 ^ 60 ->
  exists h' t', find_xchg_or g none t s h = Ret (default none (last_of ks (key_of s w)), t', h') /\ index_ok h' R t' ks /\ frame h h' R.
Proof.
  intros [(L & A & n & Ht)|(-> & -> & Hwf)] Hs Hh Hk Hr; unfold find_xchg_or, mbind, act_bind.
  - destruct (find_part h R t L A n ks s w Ht Hs Hh Hk) as (h1 & c & kc & E1 & Ec & Ht1 & F1 & Hh1 & _ & _ & Hd & Hc & Ha).
    rewrite E1, Ec. cbn [lift]. pose proof (same_d_ok h1 c kc s w Hc Hd Hh1) as Hsame.
    destruct (same_d s c) as [e|]; [exists h1, t; rewrite <- Ha, Hsame; split_and!; [done|left; by exists L, A, n|done]|]. clear Hsame.
    destruct (find_second h1 R t L A n ks s w Ht1 Hs Hh1 Hk) as (h2 & h3 & c2 & kc2 & r & E2 & Ec2 & E3 & Ht3 & F3 & Ej & Ekc & Hres).
    rewrite E2, Ec2. cbn [lift]. rewrite E3. pose proof (frame_trans _ _ _ _ F1 F3) as F13. destruct r as [[[l e] r]|].
    + destruct Hres as (-> & -> & Hres). destruct (exchange_ok h3 R t L A n ks s w _ _ kc2 l e r Ht3 Ej Ekc eq_refl Hres Hs (F13 s w Hs Hh) Hk Hr) as (h4 & e' & E4 & F4 & Ei & Ht4).
      rewrite E4. eexists h4, _. unfold set_chain. rewrite (table_list _ _ _ _ _ _ _ Ht), (table_mask _ _ _ _ _ _ _ Ht), (hash_key_of s w).
      rewrite (table_mask _ _ _ _ _ _ _ Ht) in Ht4. fold (slot n (key_of s w)). cbn [fmap option_fmap option_map].
      split_and!; [by rewrite <- Ei|left; by exists (<[slot n (key_of s w):=l ++ e' :: r]> L), A, n|by eapply frame_trans].
    + rewrite Hres. exists h3, t. split_and!; [done|left; by exists L, A, n|done].
  - destruct (str_getHash_ok h R s w Hwf Hh) as (h1 & E1 & W1 & F1). destruct (str_getHash_ok h1 R s w W1 (F1 s w Hs Hh)) as (h2 & E2 & W2 & F2).
    exists h2, (mk_index 0 None). rewrite E1, chain_empty. cbn [lift]. change (same_d s []) with (@None element). cbv beta iota. rewrite E2, chain_empty. cbn [lift seek].
    split_and!; [done|by right|by eapply frame_trans].
Qed.

(** ** Giving the strings back *)

Lemma clean_chain_ok c : forall h R, wf h (crefs c ++ R) -> exists h', clean_chain c h = Ret (tt, h') /\ wf h' R /\ frame h h' R.
Proof.
  induction c as [|e c IH]; intros h R Hwf; [exists h; split_and!; [done|done|apply frame_refl]|]. cbn [clean_chain].
  destruct (str_unref_ok h (crefs c ++ R) (e_str e) Hwf) as (h1 & E1 & W1 & F1 & _). destruct (IH h1 R W1) as (h2 & E2 & W2 & F2).
  exists h2. unfold destroy_string, mbind, act_bind. rewrite E1, E2. split_and!; [done|done|]. eapply frame_trans; [|exact F2].
  eapply frame_sub; [|exact F1]. intros a. rewrite elem_of_app. auto.
Qed.

Lemma clean_chains_ok L : forall h R, wf h (irefs L ++ R) -> exists h', clean_chains L h = Ret (tt, h') /\ wf h' R /\ frame h h' R.
Proof.
  induction L as [|c L IH]; intros h R Hwf; [exists h; split_and!; [done|done|apply frame_refl]|]. cbn [clean_chains].
  unfold irefs in Hwf. rewrite bind_cons, <- app_assoc in Hwf. destruct (clean_chain_ok c h _ Hwf) as (h1 & E1 & W1 & F1).
  destruct (IH h1 R W1) as (h2 & E2 & W2 & F2). exists h2. unfold mbind, act_bind. rewrite E1, E2. split_and!; [done|done|].
  eapply frame_trans; [|exact F2]. eapply frame_sub; [|exact F1]. intros a. rewrite elem_of_app. auto.
Qed.

Lemma index_clean_ok h R t ks : index_ok h R t ks -> exists h' t', clean t h = Ret (t', h') /\ isEmpty_index t' = true /\ wf h' R /\ frame h h' R.
Proof.
  intros [(L & A & n & Ht)|(-> & -> & Hwf)]; unfold clean.
  - rewrite (table_list _ _ _ _ _ _ _ Ht). destruct (clean_chains_ok L h R (table_wf _ _ _ _ _ _ _ Ht)) as (h' & E & W & F).
    unfold mbind, act_bind. rewrite E. by eexists h', _.
  - eexists h, _. split_and!; [done|done|done|apply frame_refl].
Qed.

End Index.

(** ** The index of an array *)

#[local] Abbreviation M := (act heap).
Implicit Types (strs : list addr) (ws : list content).

(** [r] is the last position of [strs], whose values are [ws], with the value of [s], or -1. *)
Definition last_equal strs ws s w (r : Z) : Prop :=
  r = -1 /\ (forall i a v, strs !! i = Some a -> ws !! i = Some v -> ~ same_value a s v w) \/
  exists i a v, r = Z.of_nat i /\ strs !! i = Some a /\ ws !! i = Some v /\ same_value a s v w /\
    forall j b x, (i < j)%nat -> strs !! j = Some b -> ws !! j = Some x -> ~ same_value b s x w.

Definition positions (k : nat) strs : list (Z * addr) := imap (fun i a => (Z.of_nat (k + i), a)) strs.

Lemma positions_cons k a strs : positions k (a :: strs) = (Z.of_nat k, a) :: positions (S k) strs.
Proof. unfold positions. rewrite imap_cons. f_equal; [f_equal; lia|]. apply imap_ext. intros i x _. simpl. f_equal. lia. Qed.

Lemma last_of_positions strs : forall k ws s w,
  match last_of (pairs (positions k strs) ws) (key_of s w) with
  | None => forall i a v, strs !! i = Some a -> ws !! i = Some v -> ~ same_value a s v w
  | Some z => exists i a v, z = Z.of_nat (k + i) /\ strs !! i = Some a /\ ws !! i = Some v /\ same_value a s v w /\
      forall j b x, (i < j)%nat -> strs !! j = Some b -> ws !! j = Some x -> ~ same_value b s x w
  end.
Proof.
  induction strs as [|a strs IH]; intros k ws s w; [done|]. rewrite positions_cons. destruct ws as [|v ws]; [by intros [|]|].
  change (pairs ((Z.of_nat k, a) :: positions (S k) strs) (v :: ws)) with ((Z.of_nat k, key_of a v) :: pairs (positions (S k) strs) ws).
  rewrite last_of_cons. specialize (IH (S k) ws s w). destruct (last_of (pairs (positions (S k) strs) ws) (key_of s w)) as [z|].
  - destruct IH as (i & b & x & -> & Hb & Hx & Hsame & Hl). exists (S i), b, x. split_and!; try done; [lia|].
    intros [|j] c y Hj; [lia|]. apply Hl. lia.
  - case_decide as E.
    + exists 0%nat, a, v. split_and!; [lia|done|done|by apply key_same|]. intros [|j] c y Hj; [lia|]. apply IH.
    + intros [|i] b x Hb Hx Hsame; [|by apply (IH i b x)]. injection Hb as <-. injection Hx as <-. apply E. symmetry. by apply key_same.
Qed.

Lemma last_equal_positions strs ws s w : last_equal strs ws s w (default (-1) (last_of (pairs (positions 0 strs) ws) (key_of s w))).
Proof.
  pose proof (last_of_positions strs 0 ws s w) as H. destruct (last_of _ _) as [z|]; [right|by left].
  destruct H as (i & a & v & -> & H). by exists i, a, v.
Qed.

(** ** Searches *)

(** Searches of an index; a search with [true] is [findXchg]. *)
Fixpoint run_finds (g : Z) (calls : list (bool * addr)) t : M (list Z * index_) :=
  match calls with
  | [] => mret ([], t)
  | (xchg, s) :: calls =>
    rt ← (if xchg : bool then findXchg g t s else r ← find_index g t s; mret (r, t));
    rs ← run_finds g calls rt.2;
    mret (rt.1 :: rs.1, rs.2)
  end.

Lemma run_finds_ok g bin R ks calls ws : forall h t, index_ok bin h R t ks ->
  Forall2 (fun (c : bool * addr) w => c.2 ∈ statics_refs ++ R /\ holds h c.2 w /\ kin bin w) calls ws ->
  Z.of_nat (S (length ks + length R)) < 2 ^ 60 ->
  exists h' t', run_finds g calls t h = Ret (zip_with (fun (x : bool * addr) w => default (-1) (last_of ks (key_of x.2 w))) calls ws, t', h') /\
    index_ok bin h' R t' ks /\ frame h h' R.
Proof.
  revert ws. induction calls as [|[xchg s] calls IH]; intros ws h t Ht Hc Hr; inversion Hc as [|? w ? ws' (Hs & Hh & Hk) Hc']; subst.
  - exists h, t. split_and!; [done|done|apply frame_refl].
  - cbn [fst snd] in *. assert (exists h1 t1, (if xchg then findXchg g t s else r ← find_index g t s; mret (r, t)) h =
      Ret (default (-1) (last_of ks (key_of s w)), t1, h1) /\ index_ok bin h1 R t1 ks /\ frame h h1 R) as (h1 & t1 & E1 & Ht1 & F1).
    { destruct xchg; [exact (find_xchg_ok g bin (-1) h R t ks s w Ht Hs Hh Hk Hr)|]. destruct (find_or_ok g bin (-1) h R t ks s w Ht Hs Hh Hk) as (h1 & E1 & Ht1 & F1).
      exists h1, t. unfold find_index, mbind, act_bind. by rewrite E1. }
    destruct (IH ws' h1 t1 Ht1) as (h2 & t2 & E2 & Ht2 & F2); [|done|].
    { eapply Forall2_impl; [exact Hc'|]. intros c x (H1 & H2 & H3). split_and!; auto. }
    exists h2, t2. cbn [run_finds]. unfold mbind at 1, act_bind at 1. rewrite E1. unfold mbind, act_bind. cbn [fst snd]. rewrite E2.
    split_and!; [done|done|by eapply frame_trans].
Qed.

(** C20. The index of an array of strings (all of bytes, or all of text) answers
    any sequence of searches, with or without exchanging the string that is
    found, with the last position of an equal string, or with -1; then it gives
    back every string it kept, and no other string is changed. *)
Theorem string_index_finds (g : Z) (bin : bool) h R strs ws (calls : list (bool * addr)) (us : list content) : wf h R ->
  Forall2 (fun a v => a ∈ statics_refs ++ R /\ holds h a v /\ kin bin v) strs ws ->
  Forall2 (fun (c : bool * addr) u => c.2 ∈ statics_refs ++ R /\ holds h c.2 u /\ kin bin u) calls us ->
  Z.of_nat (S (length strs + length R)) < 2 ^ 60 ->
  exists h' t rs t1 t2, (t ← init_positions g strs; r ← run_finds g calls t; e ← clean r.2; mret (t, r.1, r.2, e)) h = Ret (t, rs, t1, t2, h') /\
    Forall2 (fun (cu : (bool * addr) * content) r => last_equal strs ws cu.1.2 cu.2 r) (zip calls us) rs /\ isEmpty_index t2 = true /\ wf h' R /\ frame h h' R.
Proof.
  intros Hwf Hstrs Hcalls Hr. assert (init_positions g strs = init g (positions 0 strs)) as Epos by done.
  assert (length (positions 0 strs) = length strs) as Lpos by apply length_imap.
  destruct (init_ok g bin h R (positions 0 strs) ws Hwf) as (h1 & t & E1 & Ht & F1); [|by rewrite Lpos|].
  { clear -Hstrs. unfold positions. generalize 0%nat at 1. induction Hstrs as [|a v strs ws Ha H IH]; intros k; [constructor|].
    rewrite imap_cons. constructor; [done|]. specialize (IH (S k)). erewrite imap_ext; [exact IH|]. intros i x _. simpl. f_equal. lia. }
  destruct (run_finds_ok g bin R (pairs (positions 0 strs) ws) calls us h1 t Ht) as (h2 & t1 & E2 & Ht1 & F2).
  { eapply Forall2_impl; [exact Hcalls|]. intros c x (H1 & H2 & H3). split_and!; auto. }
  { unfold pairs. rewrite length_zip_with, Lpos. lia. }
  destruct (index_clean_ok bin h2 R t1 _ Ht1) as (h3 & t2 & E3 & He & W3 & F3). eexists h3, t, _, t1, t2.
  rewrite Epos. unfold mbind, act_bind. rewrite E1, E2. cbn [fst snd]. rewrite E3. split_and!; [done| |done|done|eauto using frame_trans].
  clear -Hcalls. induction Hcalls as [|c u calls us _ H IH]; [constructor|]. constructor; [apply last_equal_positions|exact IH].
Qed.

Lemma string_index_finds_witness : exists h R strs calls h' t rs t1 t2,
  Forall2 (holds h) strs [(true, chars "one"); (true, chars "two"); (true, chars "one")] /\
  (t ← init_positions 9 strs; r ← run_finds 9 calls t; e ← clean r.2; mret (t, r.1, r.2, e)) h = Ret (t, rs, t1, t2, h') /\
  Forall2 (fun (cu : (bool * addr) * content) r => last_equal strs [(true, chars "one"); (true, chars "two"); (true, chars "one")] cu.1.2 cu.2 r)
    (zip calls [(true, chars "one"); (true, chars "six")]) rs /\ isEmpty_index t2 = true /\ wf h' R /\ frame h h' R.
Proof.
  destruct (string_start unit (fun _ => M_Zero) no_float 7 9 [New unit (chars "one"); New unit (chars "two"); New unit (chars "one"); New unit (chars "one"); New unit (chars "six")]
    [(true, chars "one"); (true, chars "two"); (true, chars "one"); (true, chars "one"); (true, chars "six")] [[]; []; []; []; []] eq_refl) as (h & objs & _ & Hwf & Hv).
  inversion Hv as [|a ? objs1 ? K1 H1]; subst. inversion H1 as [|b ? objs2 ? K2 H2]; subst. inversion H2 as [|c ? objs3 ? K3 H3]; subst.
  inversion H3 as [|s ? objs4 ? K4 H4]; subst. inversion H4 as [|r ? objs5 ? K5 H5]; subst. inversion H5; subst.
  destruct (string_index_finds 9 true h [a; b; c; s; r] [a; b; c] [(true, chars "one"); (true, chars "two"); (true, chars "one")]
    [(true, s); (false, r)] [(true, chars "one"); (true, chars "six")] Hwf) as (h' & t & rs & t1 & t2 & H).
  - repeat constructor; cbn [snd]; try done; rewrite elem_of_app; right; rewrite !elem_of_cons; auto.
  - repeat constructor; cbn [fst snd]; try done; rewrite elem_of_app; right; rewrite !elem_of_cons; auto 6.
  - simpl. lia.
  - exists h, [a; b; c; s; r], [a; b; c], [(true, s); (false, r)], h', t, rs, t1, t2. split; [by repeat constructor|exact H].
Defined.
