(* ===== verification/Variant.v ===== *)
(** * core/cmodel: Variant

    The holder of generic values ([Variant.cxx]): a type and a union. A member of
    the union is read as the type says; reading another one than was stored is
    [BadMember]. The three pointers to objects ([object_val], [array_val],
    [hash_val]) are one member, as the code reads them one for the other. Strings
    are the shared StrData of [String], read and compared by its functions on the
    heap; a [Blob] or [BString] is a value, a flag for null and its bytes (String_c
    behaves as values, BStringSpec.v). Objects are addresses with reference counts; their virtual
    functions, the numbers of the C library's [double] and its conversions are
    given. *)

From Stdlib Require Import String Ascii.
From stdpp Require Import gmap.
From S2P Require Import Prelude Machine CString BStringRead Heap StrData StrDataRefs StrDataOps StrDataValues StrFormat Strings StringOps.

(** ** Values *)

Inductive VType := VT_Invalid | VT_Null | VT_Bool | VT_Int | VT_Double | VT_Binary | VT_String | VT_Object | VT_Array | VT_Hash.

#[global] Instance VType_eq_dec : EqDecision VType.
Proof. solve_decision. Defined.

(** A [Blob] or [BString]: null, and the bytes. *)
Definition text : Type := bool * list Z.
Definition null_text : text := (true, []).
Definition text_eqb (a b : text) : bool := bool_decide (a.2 = b.2).

(** Floating-point numbers as the code uses them; a number prints as a text that
    fits in memory. *)
Class Double (D : Type) := {
  d_eqb : D -> D -> bool;
  d_ltb : D -> D -> bool;
  d_of_int : Z -> D;
  d_to_int : D -> Z;
  d_bits : D -> Z;
  d_parse : list Z -> D;
  d_print : D -> list Z;
  d_print_short : forall d, Z.of_nat (length (d_print d)) < 2 ^ 60;
}.

(** The virtual functions of objects. *)
Class Objects := {
  obj_hash : addr -> Z;
  obj_eq : addr -> addr -> bool;
  obj_cmp : addr -> addr -> Z;
  obj_name : addr -> list Z;
}.

(** ** Reading any string *)

(** What every block of strings is like, whatever its two forms hold: wide text
    that was read as bytes has the forms differ. *)
Definition block_safe (b : option blk) (len : Z) : Prop := exists k, b = Some k /\ bsize k = len /\ len < Z.of_nat (length (buf k)).

Record sd_safe (n : strdata) : Prop := {
  safe_length : 0 <= length_ n < 2 ^ 60;
  safe_bytes : b_ok n = true -> block_safe (bytes n) (length_ n);
  safe_wide : w_ok n = true -> block_safe (wide n) (length_ n);
  safe_flags : (bflags n = 0 \/ bflags n = 1 \/ bflags n = 2) /\ (wflags n = 0 \/ wflags n = 2) /\ ~ (bflags n = 2 /\ wflags n = 2);
}.

#[local] Abbreviation strings := (gmap addr strdata).
Definition heap_safe (h : strings) : Prop := forall a n, h !! a = Some n -> sd_safe n.

Lemma sd_ok_safe a n v : sd_ok a n v -> sd_safe n.
Proof. intros [H1 H2 H3 H4 _ H6 _]. split; [lia| | |done]; intros H; [destruct (H3 H) as (k & ? & ? & ? & _)|destruct (H4 H) as (k & ? & ? & ? & _)]; by exists k. Qed.

Lemma wf_safe h R : wf h R -> heap_safe h.
Proof. intros Hwf a n Ha. destruct (wf_block _ _ Hwf a n Ha) as [[v Hv] _]. by eapply sd_ok_safe. Qed.

(** A function that returns, keeps the blocks readable and frees none. *)
Definition reads {A} (m : act strings A) (h : strings) (P : A -> strings -> Prop) : Prop :=
  exists a h', m h = Ret (a, h') /\ heap_safe h' /\ (forall d n, h !! d = Some n -> exists n', h' !! d = Some n' /\ length_ n' = length_ n) /\ P a h'.

Lemma str_reads_bind {A B} (m : act strings A) (f : A -> act strings B) h P Q : reads m h P -> (forall a h', heap_safe h' -> (forall d n, h !! d = Some n -> exists n', h' !! d = Some n' /\ length_ n' = length_ n) -> P a h' -> reads (f a) h' Q) ->
  reads (mbind f m) h Q.
Proof.
  intros (a & h1 & E & S & K & HP) Hf. destruct (Hf a h1 S K HP) as (b & h2 & E2 & S2 & K2 & HQ). exists b, h2. unfold mbind, act_bind. rewrite E.
  split_and!; [done|done| |done]. intros d n Hn. destruct (K d n Hn) as (n1 & Hn1 & L1). destruct (K2 d n1 Hn1) as (n2 & Hn2 & L2). exists n2. split; [done|congruence].
Qed.

Lemma reads_same {A} (m : act strings A) h a (P : A -> strings -> Prop) : heap_safe h -> m h = Ret (a, h) -> P a h -> reads m h P.
Proof. intros S E HP. exists a, h. split_and!; try done. eauto. Qed.

Lemma str_reads_ret {A} (a : A) h (P : A -> strings -> Prop) : heap_safe h -> P a h -> reads (mret a) h P.
Proof. intros S HP. by eapply reads_same. Qed.

Lemma reads_mono {A} (m : act strings A) h (P Q : A -> strings -> Prop) : reads m h P -> (forall a h', P a h' -> Q a h') -> reads m h Q.
Proof. intros (a & h' & E & S & K & HP) HQ. exists a, h'. auto. Qed.

Lemma reads_mod d n n' f h : heap_safe h -> h !! d = Some n -> f n = n' -> sd_safe n' -> length_ n' = length_ n ->
  reads (mod_sd d f) h (fun _ h' => h' !! d = Some n' /\ forall b, b <> d -> h' !! b = h !! b).
Proof.
  intros S Hn <- Hs Hl. exists tt, (<[d := f n]> h). rewrite (mod_sd_eq _ _ _ _ Hn). split_and!; [done| | |apply lookup_insert_eq|].
  - intros a m. destruct (decide (d = a)) as [<-|Hne]; [rewrite lookup_insert_eq; by intros [= <-]|rewrite lookup_insert_ne by done; apply S].
  - intros a m Ha. destruct (decide (d = a)) as [<-|Hne]; [|exists m; by rewrite lookup_insert_ne].
    exists (f n). rewrite lookup_insert_eq. split; [done|]. congruence.
  - intros b Hb. by rewrite lookup_insert_ne.
Qed.

Lemma block_range b len l : block_safe b len -> 0 <= l <= len -> exists k cs, b = Some k /\ mem_range (buf k) 0 l = Ret cs /\ length cs = Z.to_nat l.
Proof.
  intros (k & -> & Hs & Hl) Hr. exists k, (take (Z.to_nat l) (buf k)). split_and!; [done| |rewrite length_take; lia].
  unfold mem_range. destruct (Z.ltb_spec 0 0); [lia|]. destruct (Z.ltb_spec l 0); [lia|]. cbn [orb].
  destruct (Z.ltb_spec (Z.of_nat (length (buf k))) (0 + l)); [lia|]. by rewrite drop_0.
Qed.

Lemma b_load_reads d n l h : heap_safe h -> h !! d = Some n -> b_ok n = true -> 0 <= l <= length_ n -> reads (b_load d 0 l) h (fun _ h' => h' = h).
Proof.
  intros S Hn Hb Hl. destruct (block_range _ _ l (safe_bytes _ (S _ _ Hn) Hb) Hl) as (k & cs & Hk & E & _). eapply reads_same; [done| |done].
  unfold b_load, mbind, act_bind. rewrite (sd_eq _ _ _ Hn), Hk. cbn [the lift mbind res_bind]. by rewrite E.
Qed.

Lemma w_load_reads d n l h : heap_safe h -> h !! d = Some n -> w_ok n = true -> 0 <= l <= length_ n -> reads (w_load d 0 l) h (fun _ h' => h' = h).
Proof.
  intros S Hn Hb Hl. destruct (block_range _ _ l (safe_wide _ (S _ _ Hn) Hb) Hl) as (k & cs & Hk & E & _). eapply reads_same; [done| |done].
  unfold w_load, mbind, act_bind. rewrite (sd_eq _ _ _ Hn), Hk. cbn [the lift mbind res_bind]. by rewrite E.
Qed.

Lemma sd_reads d n h : heap_safe h -> h !! d = Some n -> reads (sd d) h (fun m h' => m = n /\ h' = h).
Proof. intros S Hn. eapply reads_same; [done|by apply sd_eq|done]. Qed.

(** The form that is not there is made from the other. *)
Lemma safe_other n : sd_safe n -> (b_ok n = false -> w_ok n = true) /\ (w_ok n = false -> b_ok n = true).
Proof.
  intros [_ _ _ (F & G & X)]. unfold b_ok, w_ok. destruct F as [F|[F|F]], G as [G|G]; rewrite F, G; split; try done; intros _; exfalso; by apply X.
Qed.

Lemma new_form bin g1 g2 len (cs : list Z) : 0 <= len < 2 ^ 60 -> length cs = Z.to_nat len ->
  exists nb b, allocDg bin g1 g2 (u64 (len + 1)) = Ret nb /\ blk_store (mk_blk len (buf nb)) 0 cs = Ret b /\ block_safe (Some b) len /\ mem_range (buf b) 0 (bsize b) = Ret cs.
Proof.
  intros Hl Hc. destruct (fill_block bin g1 g2 cs) as (b & E & k & Ek & Hs & Hk & Ht); [lia|]. injection Ek as <-. rewrite Hc, Z2Nat.id in * by lia.
  destruct (str_allocDg_ok bin g1 g2 len Hl) as (nb & En & _). rewrite En in E. cbn [mbind res_bind] in E. exists nb, b. split_and!; [done|done|by exists b|].
  rewrite Hs. apply block_read; [done|lia|done|by rewrite Hc].
Qed.

Lemma updateByte_reads g d n h : heap_safe h -> h !! d = Some n -> reads (updateByte g d) h (fun _ h' => exists n', h' !! d = Some n' /\ b_ok n' = true /\
  w_ok n' = w_ok n /\ length_ n' = length_ n /\ forall b, b <> d -> h' !! b = h !! b).
Proof.
  intros S Hn. pose proof (S _ _ Hn) as Hs. unfold updateByte. eapply str_reads_bind; [by apply sd_reads|]. intros ? ? _ _ [-> ->].
  destruct (b_ok n) eqn:Eb; [apply str_reads_ret; [done|by exists n]|].
  destruct (block_range _ _ (length_ n) (safe_wide _ Hs (proj1 (safe_other _ Hs) Eb)) ltac:(destruct Hs; lia)) as (k & ws & Hk & Er & Hw).
  destruct (new_form true g 0 (length_ n) (map wide_to_byte ws)) as (nb & b & En & Est & Hsafe & _); [by destruct Hs|by rewrite length_map|]. cbn [allocDg] in En.
  eapply str_reads_bind; [eapply (reads_same _ _ b (fun x h' => x = b /\ h' = h)); [done| |done]|].
  { unfold b_of_wide. rewrite En. cbn [mbind res_bind]. rewrite Hk. cbn [the mbind res_bind]. rewrite Er. cbn [mbind res_bind]. by rewrite Est. }
  intros ? ? _ _ [-> ->]. eapply reads_mono; [eapply (reads_mod d n (b_init n (Some b) 0)); [done|done|done| |done]|].
  - destruct Hs as [H1 H2 H3 (F & G & X)]. split; cbn [b_init length_ bytes wide bflags wflags]; try done. split_and!; auto. by intros [? _].
  - intros [] h' [Hd Ho]. exists (b_init n (Some b) 0). by split_and!.
Qed.

Lemma updateWide_reads g d n h : heap_safe h -> h !! d = Some n -> reads (updateWide g d) h (fun _ h' => exists n', h' !! d = Some n' /\ w_ok n' = true /\
  length_ n' = length_ n /\ forall b, b <> d -> h' !! b = h !! b).
Proof.
  intros S Hn. pose proof (S _ _ Hn) as Hs. unfold updateWide. eapply str_reads_bind; [by apply sd_reads|]. intros ? ? _ _ [-> ->].
  destruct (w_ok n) eqn:Eb; [apply str_reads_ret; [done|by exists n]|].
  destruct (block_range _ _ (length_ n) (safe_bytes _ Hs (proj2 (safe_other _ Hs) Eb)) ltac:(destruct Hs; lia)) as (k & ws & Hk & Er & Hw).
  destruct (new_form false 0 g (length_ n) (map byte_to_wide ws)) as (nb & b & En & Est & Hsafe & _); [by destruct Hs|by rewrite length_map|]. cbn [allocDg] in En.
  eapply str_reads_bind; [eapply (reads_same _ _ b (fun x h' => x = b /\ h' = h)); [done| |done]|].
  { unfold lift. rewrite En. cbn [mbind res_bind]. rewrite Hk. cbn [the mbind res_bind]. rewrite Er. cbn [mbind res_bind]. by rewrite Est. }
  intros ? ? _ _ [-> ->]. eapply reads_mono; [eapply (reads_mod d n (w_init n (Some b) 0)); [done|done|done| |done]|].
  - destruct Hs as [H1 H2 H3 (F & G & X)]. split; cbn [w_init length_ bytes wide bflags wflags]; try done. split_and!; [done|by left|by intros [_ ?]].
  - intros [] h' [Hd Ho]. exists (w_init n (Some b) 0). by split_and!.
Qed.

Lemma refByte_reads g d n h : heap_safe h -> h !! d = Some n -> reads (refByte g d) h (fun _ _ => True).
Proof.
  intros S Hn. pose proof (S _ _ Hn) as Hs. unfold refByte. eapply str_reads_bind; [by apply sd_reads|]. intros ? ? _ _ [-> ->].
  destruct (b_ok n) eqn:Eb.
  { destruct (safe_bytes _ Hs Eb) as (k & Hk & Hz & Hl). destruct (block_range _ _ (length_ n) (safe_bytes _ Hs Eb) ltac:(destruct Hs; lia)) as (k' & cs & Hk' & Er & _).
    assert (k' = k) as -> by congruence. eapply reads_same; [done| |done]. rewrite Hk. cbn [the lift mbind res_bind]. by rewrite Hz, Er. }
  destruct (block_range _ _ (length_ n) (safe_wide _ Hs (proj1 (safe_other _ Hs) Eb)) ltac:(destruct Hs; lia)) as (k & ws & Hk & Er & Hw).
  destruct (new_form true g 0 (length_ n) (map wide_to_byte ws)) as (nb & b & En & Est & Hsafe & Hb); [by destruct Hs|by rewrite length_map|]. cbn [allocDg] in En.
  eapply str_reads_bind; [eapply (reads_same _ _ b (fun x h' => x = b /\ h' = h)); [done| |done]|].
  { unfold b_of_wide. rewrite En. cbn [mbind res_bind]. rewrite Hk. cbn [the mbind res_bind]. rewrite Er. cbn [mbind res_bind]. by rewrite Est. }
  intros ? ? _ _ [-> ->]. eapply str_reads_bind; [eapply (reads_mod d n (b_init n (Some b) 0)); [done|done|done| |done]|].
  - destruct Hs as [H1 H2 H3 (F & G & X)]. split; cbn [b_init length_ bytes wide bflags wflags]; try done. split_and!; auto. by intros [? _].
  - intros [] h' S' _ _. eapply reads_same; [done| |done]. cbn [lift]. by rewrite Hb.
Qed.

Lemma kind_safe n : sd_safe n -> kind_of (getFlags n) = C_Bin /\ b_ok n = true \/ kind_of (getFlags n) = C_Wide /\ w_ok n = true.
Proof. intros [_ _ _ (F & G & X)]. unfold b_ok, w_ok, getFlags. destruct F as [F|[F|F]], G as [G|G]; rewrite F, G; try (by left); try (by right). by destruct X. Qed.

Lemma updateHash_reads d n h : heap_safe h -> h !! d = Some n -> reads (updateHash d) h (fun _ _ => True).
Proof.
  intros S Hn. pose proof (S _ _ Hn) as Hs. unfold updateHash. eapply str_reads_bind; [by apply sd_reads|]. intros ? ? _ _ [-> ->].
  assert (forall cs, reads (set_hash d cs) h (fun _ _ => True)) as Hset.
  { intros cs. unfold set_hash. eapply str_reads_bind; [eapply (reads_mod d n (with_hash n (hash_value cs))); [done|done|done| |done]|].
    - destruct Hs as [H1 H2 H3 H4]. by split.
    - intros [] h' S' _ _. by apply str_reads_ret. }
  pose proof (safe_length _ Hs) as Ln. destruct (kind_safe n Hs) as [[-> Hb]|[-> Hw]].
  - eapply str_reads_bind; [apply (b_load_reads d n); try done; lia|]. intros cs ? _ _ ->. apply Hset.
  - eapply str_reads_bind; [apply (w_load_reads d n); try done; lia|]. intros cs ? _ _ ->. apply Hset.
Qed.

(** The flags of two blocks, as the comparisons test them. *)
Lemma safe_flags_two n m : sd_safe n -> sd_safe m ->
  Z.land (Z.lor (getFlags n) (getFlags m)) (Binv + Winv) = (if b_ok n && b_ok m then 0 else Binv) + (if w_ok n && w_ok m then 0 else Winv) /\
  Z.land (getFlags n) Winv = (if w_ok n then 0 else Winv).
Proof.
  intros [_ _ _ (F & G & _)] [_ _ _ (F' & G' & _)]. unfold b_ok, w_ok, getFlags.
  by destruct F as [F|[F|F]], G as [G|G], F' as [F'|[F'|F']], G' as [G'|G']; rewrite F, G, F', G'.
Qed.

Lemma memcmp_reads d s n m l h : heap_safe h -> h !! d = Some n -> h !! s = Some m -> b_ok n = true -> b_ok m = true -> 0 <= l <= length_ n -> l <= length_ m ->
  reads (memcmp d s l) h (fun _ _ => True).
Proof.
  intros S Hn Hm Bn Bm H1 H2. unfold memcmp. eapply str_reads_bind; [apply (b_load_reads d n); [done..|lia]|]. intros ? ? _ _ ->.
  eapply str_reads_bind; [apply (b_load_reads s m); [done..|lia]|]. intros ? ? _ _ ->. by apply str_reads_ret.
Qed.

Lemma wmemcmp_reads d s n m l h : heap_safe h -> h !! d = Some n -> h !! s = Some m -> w_ok n = true -> w_ok m = true -> 0 <= l <= length_ n -> l <= length_ m ->
  reads (wmemcmp d s l) h (fun _ _ => True).
Proof.
  intros S Hn Hm Bn Bm H1 H2. unfold wmemcmp. eapply str_reads_bind; [apply (w_load_reads d n); [done..|lia]|]. intros ? ? _ _ ->.
  eapply str_reads_bind; [apply (w_load_reads s m); [done..|lia]|]. intros ? ? _ _ ->. by apply str_reads_ret.
Qed.

Lemma beq_content_reads g d s n m h : heap_safe h -> h !! d = Some n -> h !! s = Some m -> d <> s -> reads (beq_content g d s) h (fun _ _ => True).
Proof.
  intros S Hn Hm Hne. pose proof (S _ _ Hn) as Sn. pose proof (S _ _ Hm) as Sm. unfold beq_content.
  eapply str_reads_bind; [by apply sd_reads|]. intros ? ? _ _ [-> ->]. eapply str_reads_bind; [by apply sd_reads|]. intros ? ? _ _ [-> ->].
  destruct (Z.eqb_spec (length_ n) (length_ m)) as [Hl|Hl]; cbn [negb]; [|by apply str_reads_ret]. pose proof (safe_length _ Sn) as Ln.
  cbv zeta. destruct (safe_flags_two n m Sn Sm) as [-> ->].
  assert (forall mm, reads mm h (fun (_ : Z) _ => True) -> reads (r ← mm; mret (r =? 0)) h (fun _ _ => True)) as Hret.
  { intros mm Hmm. eapply str_reads_bind; [exact Hmm|]. intros r h' S' _ _. by apply str_reads_ret. }
  destruct (b_ok n && b_ok m) eqn:Eb.
  { apply andb_prop in Eb as [Bn Bm]. assert (reads (r ← memcmp d s (length_ n); mret (r =? 0)) h (fun _ _ => True)) as Hr by (apply Hret, (memcmp_reads d s n m); try done; lia).
    by destruct (w_ok n && w_ok m). }
  destruct (w_ok n && w_ok m) eqn:Ew.
  { apply andb_prop in Ew as [Wn Wm]. change ((Binv + 0 =? 0) || (Binv + 0 =? Winv)) with false. change (Binv + 0 =? Binv) with true. cbv iota.
    apply Hret, (wmemcmp_reads d s n m); try done; lia. }
  change ((Binv + Winv =? 0) || (Binv + Winv =? Winv)) with false. change (Binv + Winv =? Binv) with false. cbv iota.
  destruct (length_ n =? 0); [by apply str_reads_ret|]. destruct (w_ok n) eqn:En.
  - change (negb (0 =? 0)) with false. cbv iota. eapply str_reads_bind; [by apply (updateWide_reads g s m)|]. intros [] h' S' _ (m' & Hm' & Wm' & Lm' & Ho).
    eapply str_reads_bind; [apply (wmemcmp_reads d s n m'); try done; [by rewrite Ho|lia..]|]. intros r h2 S2 _ _. by apply str_reads_ret.
  - change (negb (Winv =? 0)) with true. cbv iota. assert (w_ok m = true) as Wm.
    { pose proof (proj2 (safe_other _ Sn) En) as Bn. rewrite Bn in Eb. cbn [andb] in Eb. by apply (safe_other _ Sm). }
    eapply str_reads_bind; [by apply (updateWide_reads g d n)|]. intros [] h' S' _ (n' & Hn' & Wn' & Ln' & Ho).
    eapply str_reads_bind; [apply (wmemcmp_reads d s n' m); try done; [by rewrite Ho|lia..]|]. intros r h2 S2 _ _. by apply str_reads_ret.
Qed.

Lemma beq_reads g d s n m h : heap_safe h -> h !! d = Some n -> h !! s = Some m -> reads (beq g d s) h (fun _ _ => True).
Proof.
  intros S Hn Hm. unfold beq. destruct (decide (d = s)) as [->|Hne]; [by apply str_reads_ret|].
  assert (forall h', heap_safe h' -> (exists n', h' !! d = Some n') -> (exists m', h' !! s = Some m') -> reads (beq_content g d s) h' (fun _ _ => True)) as Hc.
  { intros h' S' [n' Hn'] [m' Hm']. by apply (beq_content_reads g d s n' m'). }
  eapply str_reads_bind; [by apply sd_reads|]. intros ? ? _ _ [-> ->].
  eapply str_reads_bind; [instantiate (1 := fun _ _ => True); destruct (hash n <? 0); [|by apply str_reads_ret]; eapply str_reads_bind; [by apply (updateHash_reads d n)|];
    intros z h1 S1 _ _; by apply str_reads_ret|].
  intros [] h1 S1 K1 _. destruct (K1 _ _ Hn) as (n1 & Hn1 & _), (K1 _ _ Hm) as (m1 & Hm1 & _).
  eapply str_reads_bind; [by apply (sd_reads d n1)|]. intros ? ? _ _ [-> ->]. eapply str_reads_bind; [by apply (sd_reads s m1)|]. intros ? ? _ _ [-> ->].
  destruct (hash m1 =? hash n1); [apply Hc; eauto|]. destruct (0 <=? hash m1); [by apply str_reads_ret|].
  eapply str_reads_bind; [by apply (updateHash_reads s m1)|]. intros z h2 S2 K2 _. destruct (K2 _ _ Hn1) as (n2 & Hn2 & _), (K2 _ _ Hm1) as (m2 & Hm2 & _).
  eapply str_reads_bind; [by apply (sd_reads d n2)|]. intros ? ? _ _ [-> ->]. eapply str_reads_bind; [by apply (sd_reads s m2)|]. intros ? ? _ _ [-> ->].
  destruct (negb _); [by apply str_reads_ret|]. apply Hc; eauto.
Qed.

Lemma bcmp_self_reads g d n h : heap_safe h -> h !! d = Some n -> reads (bcmp g d d) h (fun _ _ => True).
Proof.
  intros S Hn. pose proof (S _ _ Hn) as Sn. pose proof (safe_length _ Sn) as Ln. unfold bcmp.
  eapply str_reads_bind; [by apply sd_reads|]. intros ? ? _ _ [-> ->]. eapply str_reads_bind; [by apply sd_reads|]. intros ? ? _ _ [-> ->].
  cbv zeta. destruct (safe_flags_two n n Sn Sn) as [-> _]. rewrite !andb_diag. destruct (b_ok n) eqn:Eb.
  - destruct (w_ok n); (apply (memcmp_reads d d n n); try done; lia).
  - pose proof (proj1 (safe_other _ Sn) Eb) as Wn. rewrite Wn. apply (wmemcmp_reads d d n n); try done; lia.
Qed.

(** Making, sharing and giving back a string. *)
Lemma ref_returns d n h : h !! d = Some n -> exists h', ref d h = Ret (d, h').
Proof. intros Hn. unfold ref, mbind, act_bind. rewrite (mod_sd_eq _ _ _ _ Hn). by eexists. Qed.

Lemma unref_returns d n h : h !! d = Some n -> exists h', unref d h = Ret (tt, h').
Proof.
  intros Hn. unfold unref, mbind, act_bind. rewrite (sd_eq _ _ _ Hn), (mod_sd_eq _ _ _ _ Hn). destruct (_ <? 0); [|by eexists].
  unfold destroy, free. rewrite (load_ok _ d (with_refcnt n (s64 (refcnt n - 1)))) by apply lookup_insert_eq. by eexists.
Qed.

Lemma String_ascii_returns g l h : Z.of_nat (length l) < 2 ^ 60 -> exists d h', String_ascii g l h = Ret (d, h').
Proof.
  intros Hl. destruct (str_new_block_ok true g 0 (Z.of_nat (length l)) ltac:(lia)) as (b & cs & E & _ & k & Hk & Hs & Hb & _). injection Hk as <-. cbn [allocDg] in E.
  set (n := mk_sd 0 (Z.of_nat (length l)) (-1) 0 (Some b) (Winv / 4) None). destruct (alloc h n) as [a h1] eqn:Ea. destruct (alloc_fresh _ _ _ _ Ea) as [_ Eh].
  assert (h1 !! a = Some n) as Ha by (rewrite Eh; apply lookup_insert_eq).
  assert (allocAscii g (Z.of_nat (length l)) h = Ret (a, h1)) as Eal.
  { unfold allocAscii. unfold mbind at 1, act_bind at 1, lift at 1. rewrite E. unfold new_sd. fold n. by rewrite Ea. }
  assert (exists b', blk_store b 0 l = Ret b') as [b' Eb] by (unfold blk_store; rewrite (block_store _ 0) by lia; by eexists).
  assert (exists h2, b_store a 0 l h1 = Ret (tt, h2)) as [h2 Est].
  { unfold b_store. unfold mbind at 1, act_bind at 1. rewrite (sd_eq _ _ _ Ha). cbn [bytes n the mbind res_bind]. rewrite Eb.
    unfold mbind, act_bind, lift. rewrite (mod_sd_eq _ _ _ _ Ha). by eexists. }
  exists a, h2. unfold String_ascii, mbind, act_bind. rewrite Eal. by rewrite Est.
Qed.

Section Variant.
Context {D : Type} {DD : Double D} {OO : Objects}.

(** What memory never set holds. *)
Variables bgarbage wgarbage : Z.

Inductive member :=
| U_none
| U_bool (b : bool)
| U_int (n : Z)
| U_double (d : D)
| U_binary (t : text)
| U_string (d : addr)
| U_object (o : option addr).

Record variant := mk_variant { vtype : VType; val : member }.

Definition bool_val (v : variant) : res bool := match val v with U_bool b => Ret b | _ => Crash BadMember end.
Definition int_val (v : variant) : res Z := match val v with U_int n => Ret n | _ => Crash BadMember end.
Definition double_val (v : variant) : res D := match val v with U_double d => Ret d | _ => Crash BadMember end.
Definition binary_val (v : variant) : res text := match val v with U_binary t => Ret t | _ => Crash BadMember end.
Definition string_val (v : variant) : res addr := match val v with U_string d => Ret d | _ => Crash BadMember end.
Definition object_val (v : variant) : res (option addr) := match val v with U_object o => Ret o | _ => Crash BadMember end.

(** ** Strings, and objects with their counts *)

Record store := mk_store { strs : gmap addr strdata; objects : gmap addr Z }.
#[local] Abbreviation M := (act store).

Definition on_strs {A} (m : act (gmap addr strdata) A) : M A := fun s =>
  match m (strs s) with
  | Ret (a, h) => Ret (a, mk_store h (objects s))
  | Exn e => Exn e
  | Crash c => Crash c
  | NoFuel => NoFuel
  end.

(** An object is counted from zero; one less destroys it. *)
Definition ref_object (a : addr) : M addr := fun s =>
  match objects s !! a with Some n => Ret (a, mk_store (strs s) (<[a := n + 1]> (objects s))) | None => Crash NullDeref end.
Definition unref_object (a : addr) : M unit := fun s =>
  match objects s !! a with
  | Some n => Ret (tt, mk_store (strs s) (if n - 1 <? 0 then delete a (objects s) else <[a := n - 1]> (objects s)))
  | None => Crash NullDeref
  end.

(** ** Construction and destruction *)

Definition new_invalid : variant := mk_variant VT_Invalid U_none.
Definition new_null : variant := mk_variant VT_Null U_none.
Definition new_bool (b : bool) : variant := mk_variant VT_Bool (U_bool b).
Definition new_int (n : Z) : variant := mk_variant VT_Int (U_int n).
Definition new_double (d : D) : variant := mk_variant VT_Double (U_double d).
Definition new_binary (t : text) : variant := if t.1 then mk_variant VT_Null U_none else mk_variant VT_Binary (U_binary t).
Definition new_string (d : addr) : M variant :=
  null ← on_strs (Strings.isNull d);
  if null : bool then mret (mk_variant VT_Null U_none)
  else d ← on_strs (String_copy d); mret (mk_variant VT_String (U_string d)).
Definition new_pointer (ty : VType) (o : option addr) : M variant :=
  match o with None => mret (mk_variant VT_Null U_none) | Some a => a ← ref_object a; mret (mk_variant ty (U_object (Some a))) end.
Definition new_object := new_pointer VT_Object.
Definition new_array := new_pointer VT_Array.
Definition new_hash := new_pointer VT_Hash.

Definition the_object (o : option addr) : res addr := match o with Some a => Ret a | None => Crash NullDeref end.

Definition destroy_variant (v : variant) : M unit :=
  match vtype v with
  | VT_Invalid | VT_Null | VT_Bool | VT_Int | VT_Double => mret tt
  | VT_Binary => _ ← lift (binary_val v); mret tt
  | VT_String => d ← lift (string_val v); on_strs (destroy_string d)
  | VT_Object => a ← lift (o ← object_val v; the_object o); unref_object a
  | VT_Array | VT_Hash => lift (Crash AssertFailed)
  end.

(** ** What a value is *)

Definition getType (v : variant) : VType := vtype v.
Definition isNull (v : variant) : bool := bool_decide (vtype v = VT_Null).

Definition getName (v : variant) : res (list Z) :=
  match vtype v with
  | VT_Invalid => Ret (chars "invalid") | VT_Null => Ret (chars "null") | VT_Bool => Ret (chars "bool") | VT_Int => Ret (chars "int")
  | VT_Double => Ret (chars "double") | VT_Binary => Ret (chars "binary") | VT_String => Ret (chars "string")
  | VT_Object | VT_Array | VT_Hash => o ← object_val v; Ret (match o with None => chars "null" | Some a => obj_name a end)
  end.

(** ** Conversions *)

(** [strtoll] in base ten. *)
Definition strtoll10 (s : list Z) : Z :=
  let t := skip_space s in
  let '(neg, u) := if deref t =? 45 then (true, tail t) else if deref t =? 43 then (false, tail t) else (false, t) in
  let n := fst (digits_loop 10 0 u) in
  if neg : bool then Z.max LLONG_MIN (- n) else Z.min LLONG_MAX n.

(** [string_val] as UTF-8. *)
Definition string_utf8 (v : variant) : M (list Z) := d ← lift (string_val v); on_strs (utf8 bgarbage d).

Definition toBool (v : variant) : M bool :=
  match vtype v with
  | VT_Invalid | VT_Null => mret false
  | VT_Bool => lift (bool_val v)
  | VT_Int => n ← lift (int_val v); mret (negb (n =? 0))
  | VT_Double => d ← lift (double_val v); mret (negb (d_eqb d (d_of_int 0)))
  | VT_Binary => t ← lift (binary_val v); mret (negb (strtoll10 t.2 =? 0))
  | VT_String => u ← string_utf8 v; mret (negb (strtoll10 u =? 0))
  | VT_Object | VT_Array | VT_Hash => o ← lift (object_val v); mret (match o with Some _ => true | None => false end)
  end.

Definition address (o : option addr) : Z := match o with Some a => Zpos a | None => 0 end.

Definition toInt (v : variant) : M Z :=
  match vtype v with
  | VT_Invalid | VT_Null => mret 0
  | VT_Bool => b ← lift (bool_val v); mret (Z.b2z b)
  | VT_Int => lift (int_val v)
  | VT_Double => d ← lift (double_val v); mret (d_to_int d)
  | VT_Binary => t ← lift (binary_val v); mret (strtoll10 t.2)
  | VT_String => u ← string_utf8 v; mret (strtoll10 u)
  | VT_Object | VT_Array | VT_Hash => o ← lift (object_val v); mret (address o)
  end.

Definition toDouble (v : variant) : M D :=
  match vtype v with
  | VT_Invalid | VT_Null => mret (d_of_int 0)
  | VT_Bool => b ← lift (bool_val v); mret (d_of_int (Z.b2z b))
  | VT_Int => n ← lift (int_val v); mret (d_of_int n)
  | VT_Double => lift (double_val v)
  | VT_Binary => t ← lift (binary_val v); mret (d_parse t.2)
  | VT_String => u ← string_utf8 v; mret (d_parse u)
  | VT_Object | VT_Array | VT_Hash => o ← lift (object_val v); mret (d_of_int (address o))
  end.

(** [object_val ? Null() : object_val->stringify()]. *)
Definition object_text {A} (null : A) (o : option addr) : res A := match o with Some _ => Ret null | None => Crash NullDeref end.

(** A String from a BString goes through [const char *]: a zero ends it. *)
Definition String_of_bytes (l : list Z) : act (gmap addr strdata) addr := String_asciiz bgarbage (Some (c_text l)).

Definition toString (v : variant) : M addr :=
  match vtype v with
  | VT_Invalid | VT_Null => on_strs String_null
  | VT_Bool => b ← lift (bool_val v); on_strs (String_ascii bgarbage (if b : bool then chars "1" else chars "0"))
  | VT_Int => n ← lift (int_val v); on_strs (String_of_bytes (print_int n))
  | VT_Double => d ← lift (double_val v); on_strs (String_of_bytes (d_print d))
  | VT_Binary => t ← lift (binary_val v); on_strs (String_of_bytes t.2)
  | VT_String => d ← lift (string_val v); on_strs (String_copy d)
  | VT_Object | VT_Array | VT_Hash => n ← lift (o ← object_val v; object_text s_null o); on_strs (String_copy n)
  end.

Definition toText (v : variant) : M text :=
  match vtype v with
  | VT_Invalid | VT_Null => mret null_text
  | VT_Bool => b ← lift (bool_val v); mret (false, if b : bool then chars "1" else chars "0")
  | VT_Int => n ← lift (int_val v); mret (false, print_int n)
  | VT_Double => d ← lift (double_val v); mret (false, d_print d)
  | VT_Binary => lift (binary_val v)
  | VT_String => u ← string_utf8 v; mret (false, u)
  | VT_Object | VT_Array | VT_Hash => lift (o ← object_val v; object_text null_text o)
  end.

Definition toUtf8 := toText.
Definition toBinary := toText.

Definition toObject (v : variant) : M (option addr) :=
  match vtype v with
  | VT_Object | VT_Array | VT_Hash =>
    o ← lift (object_val v);
    match o with Some a => a ← ref_object a; mret (Some a) | None => mret None end
  | _ => mret None
  end.

(** ** Hash and comparison *)

(** For bytes and strings the pointer to the data is taken for the object that holds it. *)
Definition hash (v : variant) : res Z :=
  match vtype v with
  | VT_Invalid => Ret (-2)
  | VT_Null => Ret (-1)
  | VT_Bool => b ← bool_val v; Ret (Z.b2z b)
  | VT_Int => int_val v
  | VT_Double => d ← double_val v; Ret (if d_eqb d (d_of_int 0) then 0 else d_bits d)
  | VT_Binary | VT_String => Crash BadMember
  | VT_Object | VT_Array | VT_Hash => o ← object_val v; Ret (match o with None => -1 | Some a => obj_hash a end)
  end.

(** What the argument of [eq] and [cmp] is. *)
Inductive iface := I_null | I_other | I_variant (v : variant).

(** [!vs->isNull() && toBinary() == vs->toBinary()] *)
Definition eq_text (v w : variant) : M bool :=
  if isNull w then mret false else a ← toBinary v; b ← toBinary w; mret (text_eqb a b).

Definition is_none (o : option addr) : bool := match o with None => true | Some _ => false end.

(** [String::operator==] of the two strings. *)
Definition eq_string (w v : variant) : M bool :=
  a ← lift (string_val w); b ← lift (string_val v); on_strs (equal wgarbage a b).

Definition eq (v : variant) (vs : iface) : M bool :=
  match vs with
  | I_null | I_other => mret false
  | I_variant w =>
    match vtype v with
    | VT_Invalid => mret (bool_decide (vtype w = VT_Invalid))
    | VT_Null => mret (if decide (vtype w = VT_Null) then true else isNull w)
    | VT_Bool => if decide (vtype w = VT_Bool) then lift (a ← bool_val w; b ← bool_val v; Ret (Bool.eqb a b)) else eq_text v w
    | VT_Int =>
      if decide (vtype w = VT_Int) then lift (a ← int_val w; b ← int_val v; Ret (a =? b))
      else if decide (vtype w = VT_Double) then lift (a ← double_val w; b ← int_val v; Ret (d_eqb a (d_of_int b)))
      else eq_text v w
    | VT_Double =>
      if decide (vtype w = VT_Double) then lift (a ← double_val w; b ← double_val v; Ret (d_eqb a b))
      else if decide (vtype w = VT_Int) then lift (a ← int_val w; b ← double_val v; Ret (d_eqb (d_of_int a) b))
      else eq_text v w
    | VT_Binary =>
      t ← lift (binary_val v);
      if t.1 && isNull w then mret true
      else if decide (vtype w = VT_Binary) then a ← lift (binary_val w); mret (text_eqb a t) else eq_text v w
    | VT_String =>
      d ← lift (string_val v); null ← on_strs (Strings.isNull d);
      if null && isNull w then mret true
      else if decide (vtype w = VT_String) then eq_string w v else eq_text v w
    | VT_Object | VT_Array | VT_Hash =>
      o ← lift (object_val v);
      if is_none o && isNull w then mret true
      else if decide (vtype w = VT_Object) then
        p ← lift (object_val w);
        match p with None => mret false | Some b => a ← lift (the_object o); mret (obj_eq a b) end
      else mret false
    end
  end.

(** The order of two texts as [bcmp] gives it: its sign. *)
Definition cmp_text (v w : variant) : M Z :=
  if isNull w then mret 1 else a ← toBinary v; b ← toBinary w; mret (cmp_value a b).

Definition cmp_int (a b : Z) : Z := if negb (b =? a) then (if b <? a then 1 else -1) else 0.
Definition cmp_double (a b : D) : Z := if negb (d_eqb b a) then (if d_ltb b a then 1 else -1) else 0.

Definition cmp (v : variant) (vs : iface) : M Z :=
  match vs with
  | I_null => mret 1
  | I_other => mret (-1)
  | I_variant w =>
    match vtype v with
    | VT_Invalid => mret (if decide (vtype w = VT_Invalid) then 0 else -1)
    | VT_Null => mret (if decide (vtype w = VT_Null) then 0 else if isNull w then 0 else -1)
    | VT_Bool =>
      if decide (vtype w = VT_Bool) then lift (a ← bool_val w; b ← bool_val v; Ret (if negb (Bool.eqb a b) then Z.b2z b - Z.b2z a else 0)) else cmp_text v w
    | VT_Int =>
      if decide (vtype w = VT_Int) then lift (a ← int_val w; b ← int_val v; Ret (cmp_int b a))
      else if decide (vtype w = VT_Double) then lift (a ← double_val w; b ← int_val v; Ret (cmp_double (d_of_int b) a))
      else cmp_text v w
    | VT_Double =>
      if decide (vtype w = VT_Double) then lift (a ← double_val w; b ← double_val v; Ret (Z.b2z (d_eqb a b)))
      else if decide (vtype w = VT_Int) then lift (a ← int_val w; b ← double_val v; Ret (cmp_double b (d_of_int a)))
      else cmp_text v w
    | VT_Binary =>
      t ← lift (binary_val v);
      if t.1 && isNull w then mret 0
      else if decide (vtype w = VT_Binary) then a ← lift (binary_val w); mret (cmp_value a t) else cmp_text v w
    | VT_String =>
      d ← lift (string_val v); null ← on_strs (Strings.isNull d);
      if null && isNull w then mret 0
      else if decide (vtype w = VT_String) then on_strs (bcmp bgarbage d d) else cmp_text v w
    | VT_Object | VT_Array | VT_Hash =>
      o ← lift (object_val v);
      if is_none o && isNull w then mret 0
      else if decide (vtype w = VT_Object) then
        p ← lift (object_val w);
        match p with None => mret 1 | Some b => a ← lift (the_object o); mret (obj_cmp a b) end
      else cmp_text v w
    end
  end.

(** ** The values that are made *)

Inductive made : variant -> Prop :=
| M_invalid : made new_invalid
| M_null : made new_null
| M_bool b : made (new_bool b)
| M_int n : in_s 64 n -> made (new_int n)
| M_double d : made (new_double d)
| M_binary t : Z.of_nat (length t.2) < 2 ^ 60 -> made (new_binary t)
| M_string d s v s' : new_string d s = Ret (v, s') -> made v
| M_object o s v s' : new_object o s = Ret (v, s') -> made v
| M_array o s v s' : new_array o s = Ret (v, s') -> made v
| M_hash o s v s' : new_hash o s = Ret (v, s') -> made v.

(** The type and the member agree, and nothing behind a type is null. *)
Definition typed (v : variant) : Prop :=
  match vtype v, val v with
  | (VT_Invalid | VT_Null), U_none | VT_Bool, U_bool _ | VT_Double, U_double _ => True
  | VT_Int, U_int n => in_s 64 n
  | VT_Binary, U_binary t => t.1 = false /\ Z.of_nat (length t.2) < 2 ^ 60
  | VT_String, U_string d => d <> s_null
  | (VT_Object | VT_Array | VT_Hash), U_object (Some _) => True
  | _, _ => False
  end.

Lemma new_pointer_typed ty o s v s' : ty ∈ [VT_Object; VT_Array; VT_Hash] -> new_pointer ty o s = Ret (v, s') -> typed v.
Proof.
  intros Hty. destruct o as [a|]; [|by intros [= <- <-]]. unfold new_pointer, ref_object, mbind, act_bind.
  destruct (objects s !! a); [|done]. intros [= <- <-]. rewrite !elem_of_cons in Hty. destruct Hty as [-> |[-> |[-> |H]]]; [done..|by apply elem_of_nil in H].
Qed.

Lemma new_string_typed d s v s' : new_string d s = Ret (v, s') -> typed v.
Proof.
  unfold new_string, Strings.isNull, on_strs, mbind, act_bind, mret, act_ret. case_bool_decide as E; [by intros [= <- <-]|].
  unfold String_copy, ref, mbind, act_bind. cbn [strs]. destruct (mod_sd _ _ _) as [[u h]|e|c|]; [|done..]. intros [= <- <-]. exact E.
Qed.

Lemma made_typed v : made v -> typed v.
Proof.
  intros [| | | | |t Ht|d s v' s' H|o s v' s' H|o s v' s' H|o s v' s' H]; try done; [by destruct t as [[] l]|by eapply new_string_typed| | |];
    (eapply new_pointer_typed; [|exact H]; set_solver).
Qed.

(** Case analysis on a typed value. *)
Local Ltac cases v H :=
  destruct v as [[] []]; cbn in H; try (by destruct H);
  try match goal with o : option addr |- _ => destruct o; [|by destruct H] end;
  try match goal with t : text |- _ => destruct t as [[] ?]; cbn in H; [by destruct H|] end.

(** ** Operations that return *)

(** The string or the object of a value is there. *)
Definition present (s : store) (v : variant) : Prop :=
  match val v with
  | U_string d => is_Some (strs s !! d)
  | U_object (Some a) => is_Some (objects s !! a)
  | _ => True
  end.

Definition store_safe (s : store) : Prop := heap_safe (strs s) /\ is_Some (strs s !! s_null).

Definition returns {A} (m : res A) : Prop := exists a, m = Ret a.

(** Returns, and values stay what they are. *)
Definition gives {A} (m : M A) (s : store) : Prop :=
  exists a s', m s = Ret (a, s') /\ store_safe s' /\ forall v, present s v -> present s' v.

Lemma gives_returns {A} (m : M A) s : gives m s -> returns (m s).
Proof. intros (a & s' & -> & _). by eexists. Qed.

Lemma gives_pure {A} (m : M A) s a : store_safe s -> m s = Ret (a, s) -> gives m s.
Proof. intros Hs E. by exists a, s. Qed.

Lemma gives_bind {A B} (m : M A) (f : A -> M B) s : gives m s -> (forall a s', store_safe s' -> (forall v, present s v -> present s' v) -> gives (f a) s') -> gives (mbind f m) s.
Proof.
  intros (a & s1 & E & S & K) Hf. destruct (Hf a s1 S K) as (b & s2 & E2 & S2 & K2). exists b, s2. unfold mbind, act_bind. rewrite E. auto.
Qed.

Lemma gives_strs {A} (m : act (gmap addr strdata) A) s P : store_safe s -> reads m (strs s) P -> gives (on_strs m) s.
Proof.
  intros [S [n Hn]] (a & h & E & S' & K & _). exists a, (mk_store h (objects s)). unfold on_strs. rewrite E. split_and!; [done|split; [done|]|].
  - destruct (K _ _ Hn) as (n' & Hn' & _). by exists n'.
  - intros v. unfold present. destruct (val v) as [| | | | |d|[a'|]]; try done. intros [m' Hm]. destruct (K _ _ Hm) as (n' & Hn' & _). by exists n'.
Qed.

Lemma utf8_gives d s : store_safe s -> is_Some (strs s !! d) -> gives (on_strs (utf8 bgarbage d)) s.
Proof. intros Hs [n Hn]. eapply gives_strs; [done|]. eapply refByte_reads; [by destruct Hs|exact Hn]. Qed.

Local Ltac pure := eapply gives_pure; [assumption|reflexivity].

Lemma toText_gives v s : store_safe s -> typed v -> present s v -> gives (toText v) s.
Proof.
  intros Hs Hv Hp. cases v Hv; try pure. eapply gives_bind; [exact (utf8_gives _ _ Hs Hp)|]. intros u s' S' _. pure.
Qed.

Lemma eq_text_gives v w s : store_safe s -> typed v -> typed w -> present s v -> present s w -> gives (eq_text v w) s.
Proof.
  intros Hs Hv Hw Pv Pw. unfold eq_text, toBinary. destruct (isNull w); [pure|]. eapply gives_bind; [by apply toText_gives|]. intros a s1 S1 K1.
  eapply gives_bind; [apply toText_gives; auto|]. intros b s2 S2 K2. pure.
Qed.

Lemma cmp_text_gives v w s : store_safe s -> typed v -> typed w -> present s v -> present s w -> gives (cmp_text v w) s.
Proof.
  intros Hs Hv Hw Pv Pw. unfold cmp_text, toBinary. destruct (isNull w); [pure|]. eapply gives_bind; [by apply toText_gives|]. intros a s1 S1 K1.
  eapply gives_bind; [apply toText_gives; auto|]. intros b s2 S2 K2. pure.
Qed.

Lemma equal_gives a b s : store_safe s -> is_Some (strs s !! a) -> is_Some (strs s !! b) -> gives (on_strs (equal wgarbage a b)) s.
Proof. intros Hs [n Hn] [m Hm]. eapply gives_strs; [done|]. eapply beq_reads; [by destruct Hs|exact Hn|exact Hm]. Qed.

Lemma bcmp_gives d s : store_safe s -> is_Some (strs s !! d) -> gives (on_strs (bcmp bgarbage d d)) s.
Proof. intros Hs [n Hn]. eapply gives_strs; [done|]. eapply bcmp_self_reads; [by destruct Hs|exact Hn]. Qed.

(** A string that was made is not null. *)
Lemma eq_string_case d w s : d <> s_null ->
  eq (mk_variant VT_String (U_string d)) (I_variant w) s =
  (if decide (vtype w = VT_String) then eq_string w (mk_variant VT_String (U_string d)) else eq_text (mk_variant VT_String (U_string d)) w) s.
Proof.
  intros Hd. destruct s as [h ob]. cbn [eq vtype string_val val]. unfold mbind at 1 2, act_bind at 1 2, lift at 1, on_strs at 1, Strings.isNull, mret at 1, act_ret at 1.
  cbn [strs objects]. by rewrite bool_decide_eq_false_2.
Qed.

Lemma cmp_string_case d w s : d <> s_null ->
  cmp (mk_variant VT_String (U_string d)) (I_variant w) s =
  (if decide (vtype w = VT_String) then on_strs (bcmp bgarbage d d) else cmp_text (mk_variant VT_String (U_string d)) w) s.
Proof.
  intros Hd. destruct s as [h ob]. cbn [cmp vtype string_val val]. unfold mbind at 1 2, act_bind at 1 2, lift at 1, on_strs at 1, Strings.isNull, mret at 1, act_ret at 1.
  cbn [strs objects]. by rewrite bool_decide_eq_false_2.
Qed.

Lemma gives_eq {A} (m m' : M A) s : m s = m' s -> gives m' s -> gives m s.
Proof. unfold gives. by intros ->. Qed.

Lemma eq_gives v w s : store_safe s -> typed v -> typed w -> present s v -> present s w -> gives (eq v (I_variant w)) s.
Proof.
  intros Hs Hv Hw Pv Pw. pose proof (eq_text_gives v w s Hs Hv Hw Pv Pw) as He.
  cases v Hv; try pure; try (eapply gives_eq; [by apply eq_string_case|]); cases w Hw; try pure; try exact He.
  exact (equal_gives _ _ _ Hs Pw Pv).
Qed.

Lemma cmp_gives v w s : store_safe s -> typed v -> typed w -> present s v -> present s w -> gives (cmp v (I_variant w)) s.
Proof.
  intros Hs Hv Hw Pv Pw. pose proof (cmp_text_gives v w s Hs Hv Hw Pv Pw) as He.
  cases v Hv; try pure; try (eapply gives_eq; [by apply cmp_string_case|]); cases w Hw; try pure; try exact He.
  exact (bcmp_gives _ _ Hs Pv).
Qed.

Lemma number_gives v s : store_safe s -> typed v -> present s v -> gives (toBool v) s /\ gives (toInt v) s /\ gives (toDouble v) s.
Proof.
  intros Hs Hv Hp. cases v Hv; (split_and!; try pure); (eapply gives_bind; [exact (utf8_gives _ _ Hs Hp)|intros u s' S' _; pure]).
Qed.

Lemma c_text_short l : (length (c_text l) <= length l)%nat.
Proof.
  unfold c_text. rewrite <- (span_app (fun c => negb (c =? 0)) l) at 2. rewrite length_app. lia.
Qed.

Lemma on_strs_returns {A} (m : act (gmap addr strdata) A) s : (exists a h', m (strs s) = Ret (a, h')) -> returns (on_strs m s).
Proof. intros (a & h' & E). unfold on_strs. rewrite E. by eexists. Qed.

Lemma print_int_short n : in_s 64 n -> Z.of_nat (length (print_int n)) < 2 ^ 60.
Proof.
  unfold in_s, print_int. intros Hn. destruct (Z.ltb_spec n 0); [pose proof (dec_short (- n) ltac:(lia)); cbn [length]; lia|].
  pose proof (dec_short n ltac:(lia)). lia.
Qed.

Lemma toString_returns v s : store_safe s -> typed v -> present s v -> returns (toString v s).
Proof.
  intros [Hs Hn] Hv Hp.
  assert (forall l, Z.of_nat (length l) < 2 ^ 60 -> returns (on_strs (String_of_bytes l) s)) as Hb.
  { intros l Hl. apply on_strs_returns. unfold String_of_bytes, String_asciiz. apply String_ascii_returns. pose proof (c_text_short l). lia. }
  assert (forall d, is_Some (strs s !! d) -> returns (on_strs (ref d) s)) as Hr.
  { intros d [n Hd]. apply on_strs_returns. destruct (ref_returns d n _ Hd) as [h' E]. eauto. }
  assert (forall l, Z.of_nat (length l) < 2 ^ 60 -> returns (on_strs (String_ascii bgarbage l) s)) as Ha.
  { intros l Hl. apply on_strs_returns. by apply String_ascii_returns. }
  cases v Hv; try exact (Hr _ Hn); try exact (Hr _ Hp).
  - apply Ha. by destruct b.
  - apply Hb. by apply print_int_short.
  - apply Hb. apply d_print_short.
  - apply Hb. by destruct Hv.
Qed.

Lemma hash_returns v : typed v -> vtype v ∉ [VT_Binary; VT_String] -> returns (hash v).
Proof. intros H N. cases v H; try (by eexists); set_solver. Qed.

Lemma hash_of_text v : typed v -> vtype v ∈ [VT_Binary; VT_String] -> hash v = Crash BadMember.
Proof. intros H N. cases v H; try done; set_solver. Qed.

Lemma getName_returns v : typed v -> returns (getName v).
Proof. intros H. cases v H; by eexists. Qed.

Lemma toObject_returns v s : typed v -> present s v -> returns (toObject v s).
Proof.
  intros H C. cases v H; try (by eexists); destruct C as [n E]; cbn in E; unfold toObject, ref_object, mbind, act_bind;
    cbn; rewrite E; by eexists.
Qed.

Lemma destroy_returns v s : typed v -> present s v -> vtype v ∉ [VT_Array; VT_Hash] -> returns (destroy_variant v s).
Proof.
  intros H C N. cases v H; try (by eexists); destruct C as [n E]; cbn in E; [| |set_solver..].
  - apply on_strs_returns. destruct (unref_returns _ _ _ E) as [h' E']. eauto.
  - unfold destroy_variant, unref_object, mbind, act_bind; cbn; rewrite E; by eexists.
Qed.

Lemma destroy_of_list v s : typed v -> vtype v ∈ [VT_Array; VT_Hash] -> destroy_variant v s = Crash AssertFailed.
Proof. intros H N. cases v H; try done; set_solver. Qed.

(** C19. Type safety of [Variant]: while the string or the object it points to
    is there, in a heap with the static strings whose blocks are valid in one
    form at least and have room there for the length they state (below 2^60, as
    that of blobs and of printed numbers is), a value made by a constructor is
    read by every conversion, by [getName] and, against any other value made, by
    [eq] and [cmp] at the member it stores, never at another one, never behind a
    null pointer and never outside a block of a string, with an outcome,
    whatever characters strings hold. Two operations are outside the type:
    [hash] is defined on every type but bytes and strings, where it always reads
    the wrong object, and the destructor on every type but arrays and hashes,
    where it always asserts. *)
Theorem variant_type_safe v w s : made v -> made w -> store_safe s -> present s v -> present s w ->
  (returns (getName v) /\ returns (toBool v s) /\ returns (toInt v s) /\ returns (toDouble v s) /\
   returns (toString v s) /\ returns (toUtf8 v s) /\ returns (toBinary v s) /\ returns (toObject v s)) /\
  (returns (eq v (I_variant w) s) /\ returns (cmp v (I_variant w) s)) /\
  (if decide (vtype v ∈ [VT_Binary; VT_String]) then hash v = Crash BadMember else returns (hash v)) /\
  (if decide (vtype v ∈ [VT_Array; VT_Hash]) then destroy_variant v s = Crash AssertFailed else returns (destroy_variant v s)).
Proof.
  intros Hv%made_typed Hw%made_typed Hs Pv Pw. destruct (number_gives v s Hs Hv Pv) as (Gb & Gi & Gd). pose proof (toText_gives v s Hs Hv Pv) as Gt.
  split; [|split_and!].
  - split_and!; try (by apply gives_returns); [by apply getName_returns|by apply toString_returns|by apply toObject_returns].
  - by apply gives_returns, eq_gives.
  - by apply gives_returns, cmp_gives.
  - case_decide; [by apply hash_of_text|by apply hash_returns].
  - case_decide; [by apply destroy_of_list|by apply destroy_returns].
Qed.

(** ** Equality of the values with a text *)

Lemma strtoll10_print n : in_s 64 n -> strtoll10 (print_int n) = n.
Proof.
  unfold in_s. intros Hn. unfold strtoll10, print_int. destruct (Z.ltb_spec n 0).
  - cbn [skip_space isspace Z.eqb Pos.eqb orb andb Z.leb Z.compare Pos.compare Pos.compare_cont deref tail].
    rewrite <- (app_nil_r (dec (- n))), dec_value by (done || lia). unfold LLONG_MIN. cbn [fst]. lia.
  - pose proof (dec_starts n [] ltac:(lia)) as Hd. rewrite <- (app_nil_r (dec n)).
    rewrite skip_space_stops by (destruct (dec n ++ []); [done|by apply isdigit_not_space]).
    apply isdigit_bounds in Hd. destruct (Z.eqb_spec (deref (dec n ++ [])) 45); [lia|].
    destruct (Z.eqb_spec (deref (dec n ++ [])) 43); [lia|]. rewrite dec_value by (done || lia). unfold LLONG_MAX. cbn [fst]. lia.
Qed.

Lemma print_int_inj n m : in_s 64 n -> in_s 64 m -> print_int n = print_int m -> n = m.
Proof. intros Hn Hm E. rewrite <- (strtoll10_print n), <- (strtoll10_print m) by done. by rewrite E. Qed.

(** The characters of a value that has a text: bytes as [toBinary] prints them, or
    what the string holds, one of the references [R]. *)
Definition has_text (s : store) (R : list addr) (v : variant) (c : content) : Prop :=
  match val v with
  | U_bool b => c = (true, if b then chars "1" else chars "0")
  | U_int n => c = (true, print_int n)
  | U_binary t => c = (true, t.2)
  | U_string d => d ∈ statics_refs ++ R /\ holds (strs s) d c
  | _ => False
  end.

(** Two strings are compared by their characters, anything else as bytes: no character is lost. *)
Definition agree (v w : variant) (c c' : content) : Prop :=
  if decide (vtype v = VT_String /\ vtype w = VT_String) then comparable c c' else convertible true c /\ convertible true c'.

(** What an operation that reads strings leaves. *)
Definition kept (s : store) (R : list addr) (s' : store) : Prop :=
  wf (strs s') R /\ forall u c, has_text s R u c -> has_text s' R u c.

Lemma kept_same s R : wf (strs s) R -> kept s R s.
Proof. by split. Qed.

Lemma kept_trans s1 s2 s3 R : kept s1 R s2 -> kept s2 R s3 -> kept s1 R s3.
Proof. intros [_ K1] [W2 K2]. split; auto. Qed.

Lemma kept_frame s R h : wf h R -> frame (strs s) h R -> kept s R (mk_store h (objects s)).
Proof.
  intros W F. split; [done|]. intros u c. unfold has_text. destruct (val u); try done. intros [Hd Hh]. split; [done|]. by apply F.
Qed.

Lemma toText_shows v s R c : typed v -> wf (strs s) R -> has_text s R v c -> convertible true c ->
  exists s', toText v s = Ret ((false, c.2), s') /\ kept s R s'.
Proof.
  intros Hv W Ht Hc. cases v Hv; try (by destruct Ht); try (cbn in Ht; subst c; exists s; split; [done|by apply kept_same]).
  destruct Ht as [Hd Hh]. destruct (refByte_ok bgarbage _ R d c W Hd Hh Hc) as (h & E & W' & F).
  exists (mk_store h (objects s)). split; [|by apply kept_frame].
  unfold toText, string_utf8, on_strs, utf8, mbind, act_bind. cbn. by rewrite E.
Qed.

Lemma eq_text_shows v w s R c c' : typed v -> typed w -> wf (strs s) R -> has_text s R v c -> has_text s R w c' -> convertible true c -> convertible true c' ->
  exists s', eq_text v w s = Ret (bool_decide (c.2 = c'.2), s') /\ kept s R s'.
Proof.
  intros Hv Hw W Tv Tw Cv Cw. assert (isNull w = false) as Hn by (by cases w Hw).
  destruct (toText_shows v s R c) as (s1 & E1 & K1); [done..|]. destruct (toText_shows w s1 R c') as (s2 & E2 & K2); [done|apply K1|by apply K1|done|].
  exists s2. split; [|by eapply kept_trans]. unfold eq_text, toBinary, mbind, act_bind. by rewrite Hn, E1, E2.
Qed.

Lemma eq_string_shows a b s R c c' : a <> s_null -> b <> s_null -> wf (strs s) R -> a ∈ statics_refs ++ R -> b ∈ statics_refs ++ R ->
  holds (strs s) a c -> holds (strs s) b c' -> comparable c c' ->
  exists s', on_strs (equal wgarbage a b) s = Ret (bool_decide (c.2 = c'.2), s') /\ kept s R s'.
Proof.
  intros Na Nb W Ha Hb Hc Hc' C. destruct (str_beq_ok wgarbage _ R a b c c' W Ha Hb Hc Hc' C) as (h & E & W' & F).
  exists (mk_store h (objects s)). split; [|by apply kept_frame]. unfold on_strs, equal. rewrite E. do 2 f_equal.
  apply bool_decide_ext. unfold same_value. tauto.
Qed.

Lemma comparable_sym c c' : comparable c c' -> comparable c' c.
Proof. unfold comparable. tauto. Qed.

Lemma bool_decide_int n m : in_s 64 n -> in_s 64 m -> (m =? n) = bool_decide (print_int n = print_int m).
Proof.
  intros Hn Hm. case_bool_decide as E; [|by destruct (Z.eqb_spec m n) as [-> |]].
  apply print_int_inj in E as ->; [|done..]. apply Z.eqb_refl.
Qed.

Lemma bool_decide_sym {A} `{EqDecision A} (a b : A) : bool_decide (a = b) = bool_decide (b = a).
Proof. by apply bool_decide_ext. Qed.

Lemma eq_shows v w s R c c' : typed v -> typed w -> wf (strs s) R -> has_text s R v c -> has_text s R w c' -> agree v w c c' ->
  exists s', eq v (I_variant w) s = Ret (bool_decide (c.2 = c'.2), s') /\ kept s R s'.
Proof.
  intros Hv Hw W Tv Tw A. pose proof (kept_same s R W) as K.
  assert (~ (vtype v = VT_String /\ vtype w = VT_String) -> exists s', eq_text v w s = Ret (bool_decide (c.2 = c'.2), s') /\ kept s R s') as He.
  { intros N. unfold agree in A. rewrite decide_False in A by done. destruct A. by apply eq_text_shows. }
  cases v Hv; try (by destruct Tv); cases w Hw; try (by destruct Tw); try exact (He ltac:(by intros [])); try (rewrite eq_string_case by done; exact (He ltac:(by intros []))).
  - cbn in Tv, Tw. subst. exists s. split; [|done]. by destruct b, b0.
  - cbn in Tv, Tw. subst. exists s. split; [|done]. cbn [snd]. by rewrite <- bool_decide_int.
  - cbn in Tv, Tw. subst. exists s. split; [|done]. cbn [snd]. by rewrite bool_decide_sym.
  - destruct Tv as [Id Hd], Tw as [Id' Hd']. rewrite eq_string_case by done. rewrite bool_decide_sym. apply (eq_string_shows d0 d); try done. unfold agree in A. rewrite decide_True in A by done. by apply comparable_sym.
Qed.

(** An integer is read back from the text it prints. *)
Lemma printed_text n w s R c : in_s 64 n -> typed w -> wf (strs s) R -> has_text s R w c -> convertible true c -> c.2 = print_int n ->
  exists s', toInt w s = Ret (n, s') /\ kept s R s'.
Proof.
  intros Hn Hw W Tw Cw E. pose proof (kept_same s R W) as K. cases w Hw; try (by destruct Tw).
  - cbn in Tw. subst c. exists s. split; [|done]. apply (f_equal strtoll10) in E. rewrite strtoll10_print in E by done. subst n. by destruct b.
  - cbn in Tw. subst c. apply print_int_inj in E as ->; [|done..]. by exists s.
  - cbn in Tw. subst c. cbn [snd] in E. exists s. split; [|done]. unfold toInt, mbind, act_bind. cbn. by rewrite E, strtoll10_print.
  - destruct Tw as [Hd Hh]. destruct (refByte_ok bgarbage _ R d c W Hd Hh Cw) as (h & Er & W' & F).
    exists (mk_store h (objects s)). split; [|by apply kept_frame].
    unfold toInt, string_utf8, on_strs, utf8, mbind, act_bind. cbn. by rewrite Er, E, strtoll10_print.
Qed.

(** C21. On booleans, integers, bytes and strings [eq] is the equality of their
    characters, whatever the types of the two, in a heap with the blocks and
    counts that programs of String keep, when no character is lost: two strings
    are both of bytes or both text (of wide characters or ASCII), and when the
    types differ a string is of bytes or ASCII. So it is an equivalence there,
    though it compares members of one type in their own way; these characters
    are what [toBinary] gives of a value that is bytes or ASCII, and an integer
    equals the values that print as it does, which [toInt] reads as that
    integer. Nothing that is read changes what the strings hold. *)
Theorem variant_eq_text v w s R c c' : made v -> made w -> wf (strs s) R -> has_text s R v c -> has_text s R w c' ->
  (convertible true c -> exists s', toBinary v s = Ret ((false, c.2), s') /\ kept s R s') /\
  (agree v w c c' ->
    exists s', eq v (I_variant w) s = Ret (bool_decide (c.2 = c'.2), s') /\ kept s R s' /\
      (vtype v = VT_Int -> bool_decide (c.2 = c'.2) = true -> exists n s1 s2, toInt v s = Ret (n, s1) /\ toInt w s = Ret (n, s2))).
Proof.
  intros Hv%made_typed Hw%made_typed W Tv Tw. split; [intros Cv; by apply toText_shows|]. intros A.
  destruct (eq_shows v w s R c c' Hv Hw W Tv Tw A) as (s' & E & K). exists s'. split_and!; [done|done|].
  intros Ti Eq%bool_decide_eq_true. unfold agree in A. rewrite decide_False in A by (rewrite Ti; by intros []). destruct A as [_ Cw].
  cases v Hv; try done. cbn in Tv. subst c. destruct (printed_text n w s R c' Hv Hw W Tw Cw (eq_sym Eq)) as (s2 & E2 & _).
  by exists n, s, s2.
Qed.

End Variant.

(** ** On whole numbers as doubles *)

Lemma whole_short d : Z.of_nat (length (print_int (s64 d))) < 2 ^ 60.
Proof. apply print_int_short, swrap_range. lia. Qed.

Definition whole_double : Double Z := {|
  d_eqb := Z.eqb; d_ltb := Z.ltb; d_of_int := fun n => n; d_to_int := fun d => d; d_bits := fun d => d * 2 ^ 52;
  d_parse := strtoll10; d_print := fun d => print_int (s64 d); d_print_short := whole_short |}.
Definition plain_objects : Objects := {| obj_hash := Zpos; obj_eq := fun a b => bool_decide (a = b); obj_cmp := fun a b => Zpos a - Zpos b; obj_name := fun _ => chars "Object" |}.
#[local] Existing Instances whole_double plain_objects.

(** A value with a new string, and what the heap then holds. *)
Lemma string_made (bin : bool) l : Z.of_nat (length l) < 2 ^ 60 ->
  let m := if bin then String_ascii 0 l else String_wide 0 l in
  exists d h h', m statics = Ret (d, h) /\ (d <> s_null -> new_string (D := Z) d (mk_store h ∅) = Ret (mk_variant VT_String (U_string d), mk_store h' ∅)) /\
    wf h' [d; d] /\ holds h' d (bin, l).
Proof.
  intros Hl m. assert (makes m statics [] (bin, l)) as (h & d & E & W & H & _).
  { destruct bin; [apply (String_ascii_ok 0 0)|apply (String_wide_ok 0 0)]; try done; apply str_statics_wf. }
  destruct (ref_ok h [d] d W (in_refs d [])) as (h' & E' & W' & F'); [done|]. exists d, h, h'. split_and!; [done| |done|by apply F'; [apply in_refs|]].
  intros Hd. unfold new_string, Strings.isNull, String_copy, on_strs, mbind, act_bind. cbn [strs objects mret act_ret].
  rewrite bool_decide_eq_false_2 by done.
  cbn [strs objects]. by rewrite E'.
Qed.

Lemma variant_type_safe_witness : exists d h h' v, String_wide 0 [0x20ac] statics = Ret (d, h) /\ new_string (D := Z) d (mk_store h ∅) = Ret (v, mk_store h' ∅) /\
  let s := mk_store h' ∅ in
  returns (toUtf8 0 v s) /\ returns (eq 0 0 v (I_variant v) s) /\ returns (eq 0 0 v (I_variant (new_int (-12))) s) /\ returns (destroy_variant v s).
Proof.
  destruct (string_made false [0x20ac]) as (d & h & h' & E & N & W & Hd); [done|]. exists d, h, h', (mk_variant VT_String (U_string d)).
  assert (d <> s_null) as Hn by (vm_compute in E; by injection E as <- _). specialize (N Hn).
  set (v := mk_variant VT_String (U_string d)) in *. set (s := mk_store h' ∅) in *. assert (made v) as Mv by (by eapply M_string).
  assert (present s v) as Pv by (destruct Hd as (n & Hn' & _); by exists n).
  assert (store_safe s) as Ss by (split; [by eapply wf_safe|apply (wf_live _ _ W); by left]).
  assert (made (new_int (D := Z) (-12))) as Mi by (constructor; unfold in_s; lia). assert (present s (new_int (D := Z) (-12))) as Pi by exact I.
  split; [exact E|split; [exact N|]]. cbv zeta. split_and!.
  - destruct (variant_type_safe 0 0 v v s Mv Mv Ss Pv Pv) as (A & _). apply A.
  - destruct (variant_type_safe 0 0 v v s Mv Mv Ss Pv Pv) as (_ & B & _). apply B.
  - destruct (variant_type_safe 0 0 v (new_int (-12)) s Mv Mi Ss Pv Pi) as (_ & B & _). apply B.
  - destruct (variant_type_safe 0 0 v v s Mv Mv Ss Pv Pv) as (_ & _ & _ & G). by rewrite decide_False in G by (vm_compute; set_solver).
Defined.

Lemma variant_eq_text_witness : exists d h h' v s1 s2, String_ascii 0 (chars "-12") statics = Ret (d, h) /\ new_string (D := Z) d (mk_store h ∅) = Ret (v, mk_store h' ∅) /\
  toBinary 0 v (mk_store h' ∅) = Ret ((false, chars "-12"), s1) /\ eq 0 0 (new_int (-12)) (I_variant v) (mk_store h' ∅) = Ret (true, s2).
Proof.
  destruct (string_made true (chars "-12")) as (d & h & h' & E & N & W & Hd); [done|].
  assert (d <> s_null) as Hn by (vm_compute in E; by injection E as <- _). specialize (N Hn).
  set (v := mk_variant VT_String (U_string d)) in *. set (s := mk_store h' ∅) in *. assert (made v) as Mv by (by eapply M_string).
  assert (made (new_int (D := Z) (-12))) as Mi by (constructor; unfold in_s; lia).
  assert (has_text s [d; d] v (true, chars "-12")) as Tv by (split; [apply elem_of_app; right; by left|done]).
  destruct (variant_eq_text 0 0 v v s [d; d] _ _ Mv Mv W Tv Tv) as [B _]. destruct (B ltac:(by left)) as (s1 & E1 & _).
  destruct (variant_eq_text 0 0 (new_int (-12)) v s [d; d] (true, print_int (-12)) _ Mi Mv W ltac:(done) Tv) as [_ C].
  destruct C as (s2 & E2 & _); [by split; left|]. exists d, h, h', v, s1, s2. rewrite bool_decide_eq_true_2 in E2 by done.
  split; [exact E|split; [exact N|split; [exact E1|exact E2]]].
Defined.

(** ** What it shows of the code *)

#[local] Abbreviation int := (new_int (D := Z)).
#[local] Abbreviation dbl := (new_double (D := Z)).
#[local] Abbreviation bin s := (new_binary (D := Z) (false, chars s)).
#[local] Abbreviation at_ ty := (mk_variant (D := Z) ty (U_object (Some 1%positive))).

(** An object with one reference and no strings, and what an operation gives then. *)
Definition one_object : store := mk_store statics {[1%positive := 1]}.
Definition outcome {A} (m : act store A) : res A := '(a, _) ← m one_object; Ret a.

(** A value with a string of bytes, and with one of wide characters. *)
Definition str (s : string) : act store (variant (D := Z)) := d ← on_strs (String_ascii 0 (chars s)); new_string d.
Definition wstr (s : list Z) : act store (variant (D := Z)) := d ← on_strs (String_wide 0 s); new_string d.

(** Two doubles compare as 1 when they are equal, and as 0 when they differ. *)
Example variant_cmp_doubles : outcome (cmp 0 (dbl 3) (I_variant (dbl 3))) = Ret 1 /\ outcome (cmp 0 (dbl 3) (I_variant (dbl 9))) = Ret 0.
Proof. done. Qed.

(** Any two strings compare as equal. *)
Example variant_cmp_strings : outcome (a ← str "a"; b ← str "b"; n ← cmp 0 a (I_variant b); e ← eq 0 0 a (I_variant b); mret (n, e)) = Ret (0, false).
Proof. by vm_compute. Qed.

(** Bytes compare the other way round, against a string the right way. *)
Example variant_cmp_binaries : outcome (b ← str "b"; n ← cmp 0 (bin "a") (I_variant (bin "b")); m ← cmp 0 (bin "a") (I_variant b); mret (n, m)) = Ret (1, -1).
Proof. by vm_compute. Qed.

(** The order is not transitive: integers are ordered as numbers among them and as texts against strings. *)
Example variant_cmp_not_transitive :
  outcome (t ← str "9"; a ← cmp 0 (int 9) (I_variant (int 10)); b ← cmp 0 (int 10) (I_variant t); c ← cmp 0 (int 9) (I_variant t); mret [a; b; c]) = Ret [-1; -1; 0].
Proof. by vm_compute. Qed.

(** Equal values with different hashes. *)
Example variant_hash_of_equals : outcome (eq 0 0 (int 1) (I_variant (dbl 1))) = Ret true /\ hash (int 1) <> hash (dbl 1).
Proof. done. Qed.

(** The hash of a string is taken of an object that is not there. *)
Example variant_hash_text : outcome (v ← str "key"; lift (hash v)) = Crash BadMember /\ hash (bin "key") = Crash BadMember.
Proof. by vm_compute. Qed.

(** The destructor has no case for arrays and hashes. *)
Example variant_destroys_no_array : outcome (destroy_variant (at_ VT_Array)) = Crash AssertFailed /\ outcome (destroy_variant (at_ VT_Hash)) = Crash AssertFailed.
Proof. done. Qed.

(** An array is not equal to itself, an object is. *)
Example variant_array_not_itself :
  outcome (eq 0 0 (at_ VT_Array) (I_variant (at_ VT_Array))) = Ret false /\ outcome (eq 0 0 (at_ VT_Object) (I_variant (at_ VT_Object))) = Ret true.
Proof. done. Qed.

(** An object prints as null whatever it is. *)
Example variant_object_text : outcome (toString 0 (at_ VT_Object)) = Ret s_null /\ object_text s_null None = Crash NullDeref.
Proof. done. Qed.

(** Equality is not symmetric: an empty string and a value never set. *)
Example variant_eq_asymmetric : outcome (v ← str ""; a ← eq 0 0 v (I_variant new_invalid); b ← eq 0 0 new_invalid (I_variant v); mret (a, b)) = Ret (true, false).
Proof. by vm_compute. Qed.

(** Two strings that are not equal print as the same bytes, and are equal once they were printed. *)
Example variant_print_makes_equal :
  outcome (v ← wstr [0x20ac]; w ← wstr [0x20ad]; eq 0 0 v (I_variant w)) = Ret false /\
  outcome (v ← wstr [0x20ac]; w ← wstr [0x20ad]; a ← toUtf8 0 v; b ← toUtf8 0 w; e ← eq 0 0 v (I_variant w); mret (a, b, e)) =
  Ret ((false, chars "?"), (false, chars "?"), true).
Proof. by vm_compute. Qed.

(** As a string, bytes lose what follows a zero; as UTF-8 they do not. *)
Example variant_string_of_bytes :
  outcome (d ← toString 0 (new_binary (D := Z) (false, [97; 0; 98])); s ← on_strs (utf8 0 d); u ← toUtf8 0 (new_binary (D := Z) (false, [97; 0; 98])); mret (s, u.2)) =
  Ret ([97], [97; 0; 98]).
Proof. by vm_compute. Qed.
